(* ===== verification/_CoqProject ===== *)
-Q . S2P
Prelude.v
JsNum.v
JsValue.v
ServiceWorker.v
ApiClient.v
Endpoints.v
ScanKeys.v
Inventory.v
Mappers.v
LiveModel.v
Refresh.v
BootLoader.v
TopoLayout.v
TopoForest.v
TopoPlace.v
PanelCfg.v
PanelPage.v
PanelFb.v
PanelEnv.v
PanelScreens.v
PanelPaint.v
PanelView.v
PanelFlow.v
ProvStacks.v
StackGen.v
Catalog.v
Allocations.v
ScanDesk.v
Freshness.v
Attention.v
ProvSpec.v
ProvEdit.v
Markdown.v
TopoSynth.v
Lifecycle.v
AppShell.v
Maintenance.v
RackWire.v
Dns.v
LocTree.v
LocSheets.v
InvForms.v
FleetUpdates.v
Discovery.v
ProvKit.v
ProvDeploy.v
ProvRuns.v
Grouping.v
AlertDesk.v
FleetView.v
CatalogTab.v
CatalogSheets.v
AgentDesk.v
SystemsDesk.v
TagDesk.v
ProfileEdit.v
InvBoards.v
NetView.v
ReadPages.v
Fixture.v
FixtureBoard.v
SecondFactor.v
ProvPool.v
