(* ===== verification/Prelude.v ===== *)
(** * SolariNet dashboard: verification library

    SolariNet monitors a fleet: C agents and servers report to a database, a PHP
    API serves it, and a browser dashboard (dashboard/public) shows and operates
    it.  This library models the dashboard's own logic - the JavaScript that
    decides what is cached, fetched, sent, computed and drawn - and proves what
    makes it correct.  React's rendering, the API, the C programs and the
    deployment tools are outside, except for the few functions the dashboard mirrors
    or reads from.

    ** Parts and files

    The language.  [Prelude] has sorting, string and list lemmas; [JsNum] is
    JavaScript's numbers as IEEE 754 doubles (on Corelib's SpecFloat): arithmetic,
    comparison, rounding, printing, Int32 conversions and [Math.fround]; [JsValue]
    is dynamic values, property access, coercions, [JSON.stringify],
    [encodeURIComponent] and a result monad for exceptions.

    Serving the application.  [ServiceWorker] (sw.js) is the install, activate
    and fetch handlers with the cache storage and the serialized refresh queue as
    a step function over events.  [BootLoader] (boot.js, transform-worker.js)
    fetches the modules, compiles the missing ones in a worker or on the page,
    runs them in order and maintains the transform cache.

    Talking to the API (api.jsx).  [ApiClient] is the envelope, the write gate,
    the CSRF token and optional reads; [Endpoints] the paths and the requests of
    every method; [ScanKeys] the idempotency keys of discovery scans in session
    storage; [Inventory] the paged reads and the shared snapshot with its
    generations; [Mappers] and [LiveModel] turn wire rows into the model the
    screens read; [Refresh] is the refresh queue with its promise reactions, boot,
    and the detection of new releases.

    The topology map (layout.jsx).  [TopoLayout] has the definitions (edges,
    Kruskal's tree with union-find, root, breadth-first depths, rings, forces,
    bounds), [TopoForest] the graph theory, [TopoPlace] the properties of
    [compute]; [TopoSynth] (screens2.jsx) builds the graphs from the fixture when
    the API is away.

    The LED panel (screens-panel.jsx).  [PanelCfg] is the wire configuration and
    the packed commands; [PanelPage] the page's polls, history and pending
    commands, with React's queued state updates; [PanelFb] the framebuffer and
    fonts; [PanelEnv] the resampled history; [PanelScreens] the sixteen renderers;
    [PanelPaint] the composition of a frame; [PanelView] the grid that repaints
    what changed; [PanelFlow] the forest of the flow map.

    Operating.  [ProvStacks] (screens-prov.jsx) is the closure and order of
    software stacks and their readiness, [ProvSpec] the form of a software spec,
    [ProvEdit] the editors of pool entries, images and stack members with the diffs
    they send, [ProvPool] the pool's table, the requests of its editor and the moves of
    members, [ProvKit] the resource hook, chips and field errors of the whole screen,
    [ProvDeploy] its deploy tab with the dialog and the requests in flight, [ProvRuns]
    the runs and the refreshes of images, [StackGen] the generator's own
    [resolve_order] (deploy/fleet/stackgen.py);
    [Catalog] and [Allocations] (screens4.jsx) the inventory's catalogue forms and the
    commitments of units to projects, [InvForms] its normalised rows, item and licence
    forms and optimistic saves, [LocTree] the hierarchy of locations with its walks
    and candidate lists, [LocSheets] the sheets that change it, [CatalogTab] the
    catalogue with its searches, pages, lookups and writes in flight, [CatalogSheets] its
    sheets, [ProfileEdit] the port groups of a RackWire profile, [InvBoards] the components
    table, receipts and project boards; [ScanDesk] (screens8.jsx) the barcode capture
    and the scan context, [TagDesk] the tag generator with the API's rule for codes; [Attention] and [Freshness] (screens.jsx) the list of
    what needs a human and the badge that says how old a page is, [Lifecycle]
    (screens.jsx) the criticality picker and the lifecycle actions, [AlertDesk] the board
    of alerts and the rules with the API's routes for them, [FleetView] the overview, the
    heat map, the table and the page of a node, both over the loop of [Grouping];
    [Markdown] (screens3.jsx) the renderer of analysis reports, with its grammar, [FleetUpdates] the
    update run with the log that deploy/fleet/fleet-updates.py writes, the review of
    allocations, deployment and enrollment, [Discovery] the candidates, their adoption,
    the manual form and the scan job, [AgentDesk] the directory of agents, their
    configuration and the settings page, [SystemsDesk] pools, systems and the page of one;
    [NetView] (screens2.jsx) the reachability matrix and the topology page; [ReadPages]
    (screens6.jsx, screens7.jsx) the pages of Git and certificates and the rest of DNS;
    [Maintenance]
    (screens5.jsx) the windows, their badge and form; [Dns] (screens7.jsx) the query
    tool with its comparison of servers and the record browser; [RackWire]
    (screens-rackwire.jsx) the message channel to the planner's frame; [AppShell]
    (app.jsx, components.jsx) the routes and entity links, the command palette, the
    dialog of destructive actions, banners and login; [SecondFactor]
    (deploy/nfc-2fa/dashboard/public/nfc2fa.jsx) the card at login and its enrolment.

    Offline (data.jsx).  [Fixture] is the seeded generator, bit for bit, and the fleet it
    draws; [FixtureBoard] its probes, alerts, links and counts.

    Definitions keep the source's names.  A handler is a function on an explicit
    state; an exception is [Throw] of [res]; browser events, promise reactions and
    answers are the constructors of an event type, so any interleaving is a list of
    events or a path of a step relation.  Code outside the sources is a parameter:
    Babel, SHA-256, [JSON.parse], the sine, cosine and logarithms of [Math].

    ** What is shown

    Caching: one copy per path, the offline copy is the last good response, session
    data never enters a cache, and what boots is the current code, whichever of it
    was cached and whichever cache operations fail.  Requests: writes are refused
    while data is not live, except login, logout and the upload of receipts, and carry
    the CSRF token; a lost scan is retried under its key and never under another,
    within the exact limits of the table of keys; a snapshot never predates a write
    seen by [getJSON], and an upload is not seen; paged reads are complete or fail; a refresh
    caller gets a load that began after its call, and gets one.  Model: it is built
    unless a row is unusable, alerts are in triage order.  Map: every node is placed
    finitely and inside the bounds, over a spanning forest of the graph.  Panel: the
    history only grows in time, the answer to the newest poll ends the commands past
    their time, an alarm shows on every screen, every host has its tile, the flow map draws
    every link of any parents, skipping unchanged screens is invisible.  Operating:
    the stack preview is the order the generator applies, a check digit catches
    slips, an update sends exactly what changed, a unit belongs to one project, a scan
    goes where the desk was armed when it was read, if answers come in order and are
    rendered, the pool editor writes the entry it is open on, a move of stack members is
    stored from the order shown, the attention list misses no system, no page looks
    fresher than its data, reports are rendered by their grammar with safe links
    only.  Inventory: the sheets keep the locations a hierarchy and offer exactly the
    moves that do, an edit saved unchanged changes nothing, ingestion is idempotent, a
    licence survives its form and a device profile its editor; the catalogue list is the
    server's for the query on screen, under the conditions its theorem names, its writes
    act on the type that is open and a sheet's on the type it was opened on; tagging
    every location is safe under any interleaving and loss of answers.  Fleet: the update log is read back as it was
    written, an update is followed over reloads and applied only after a check read to
    its end; a deploy is sent as it was allowed and confirmed, one at a time under the
    dialog's key, and the outcome of a refresh is reported once.  Shell: the palette
    runs the row it shows, destructive dialogs need the name, only the mounted frame is
    believed, the DNS tool marks the servers that differ from the majority, the topology
    page shows the view that is chosen, a login with a second factor needs its verdict.
    Alerts: what is acknowledged leaves the board for
    good, and acknowledging all acknowledges what the store holds, shown or not.
    Offline: whatever the seed, the generated fleet is within its bounds and every alert has its cause.  Some properties record defects besides what holds: rules that
    are never created, a push that does not wait for the stored configuration, a page
    that writes one system's values to another, returned allocations that no button
    clears, keys given twice.  Other theorems do for a manual
    scan whose details are dropped, a dialog that Escape leaves with its deploy in
    flight, fields with digits that refusals do not mark, a node page that keeps the node
    it left, a search timer that undoes a chip, edits lost during a save, matrix columns
    fixed at mount, a failed preview shown as empty, moves that give two members one order,
    edits dropped by the answer to another request, two refused flips
    of a switch, a count that is not read, a pool hidden by a segment, items added
    offline that share no id, the outcome of an older refresh, a finished refresh that
    is not reported, a late answer that moves a unit to the wrong bin, a warning that is not listed, an upload past the write gate, an
    acceptance that is forgotten, a double commitment that frees a unit in use, a
    give-up after "NaN s", a picked tier that hides the reported one, a merge preview
    of another target, a banner that never shows and records of another zone.

    ** Bounds and fuel

    Loops of the source that are not structural carry fuel, and a lemma shows that
    it is enough: the paged read (its page limit), union-find, Kruskal and the
    breadth-first search (number of nodes), the walks and the depth-first loop of
    the flow map (number of links, the source's own bound), the closure of stacks
    (initial entries and dependencies), Kahn's loop (number of stacks), the blocks and
    spans of a report (number of lines, length of a line), the walk below a location
    (number of locations), the pages of product types (ten thousand, the source's own
    cap).  The dots of
    a lane step by at least three pixels over at most sixty, so 128 steps are
    enough for any logarithm within its range; as the logarithm is a parameter this
    is not proved.  The repeated pick of a service carries the source's own bound of six.
    The doubles of the fixture are integers over 2^100, a scale all its literals, products
    and sums are multiples of; [fl] rounds them to 53 bits.  Integers are [Z] where the source keeps them exact; Int32
    operators wrap; other numbers are doubles.

    ** Not modelled

    React components as markup, styles and focus handling; date formatting and
    the collation of [localeCompare], a parameter; strings beyond bytes (case folding and white
    space are ASCII); the order JavaScript gives to integer-like keys; objects
    whose key is [__proto__], except where stated; storage that throws.  Of the
    screens only the computations above are covered; charts, the
    single calls of the stack editor and the constant sample tables of the fixture are
    markup or data over the model and the API.  Generated
    bundles, vendored libraries, PHP, C and Python sources are not covered, except for
    [resolve_order], the row updates behind the location sheets, the rules of alerts and
    of their store, the rule for generated codes, the order of a stack's members and the lines of the update log. *)

From stdpp Require Import strings numbers list.
From Stdlib Require Import ZArith Lia Sorting.Sorted.

(** The scope of the notations the whole development shares. *)
Declare Scope js_scope.
Delimit Scope js_scope with js.

Create HintDb js.
Create Rewrite HintDb js.

(** ** Tactics *)

(** Split every [if] and [match] the goal shows, keeping the equations. *)
Ltac split_match :=
  match goal with
  | |- context [match ?x with _ => _ end] => let E := fresh "E" in destruct x eqn:E
  end.

(** ** Lists *)

Section Sorting.
Context {A : Type} (le : A -> A -> bool).

(** Stable insertion sort: the order [Array.prototype.sort] yields for a
    consistent comparator, [le x y] standing for [cmp(x, y) <= 0]. *)
Fixpoint insert_by (x : A) (l : list A) : list A :=
  match l with
  | [] => [x]
  | y :: r => if le x y then x :: y :: r else y :: insert_by x r
  end.

Definition sort_by (l : list A) : list A := foldr insert_by [] l.

Lemma insert_by_perm (x : A) (l : list A) : insert_by x l ≡ₚ x :: l.
Proof.
  induction l as [|y r IH]; cbn; [done|].
  destruct (le x y); [done|]. rewrite IH. constructor.
Qed.

Lemma sort_by_perm (l : list A) : sort_by l ≡ₚ l.
Proof. induction l as [|x r IH]; cbn; [done|]. by rewrite insert_by_perm, IH. Qed.

Lemma sort_by_length (l : list A) : length (sort_by l) = length l.
Proof. by rewrite (sort_by_perm l). Qed.

Context (total : forall x y, le x y = false -> le y x = true).
Context (trans : forall x y z, le x y = true -> le y z = true -> le x z = true).

Lemma insert_by_sorted (x : A) (l : list A) :
  StronglySorted (fun a b => le a b = true) l ->
  StronglySorted (fun a b => le a b = true) (insert_by x l).
Proof.
  induction 1 as [|y r Hs IH Hf]; cbn; [repeat constructor|].
  destruct (le x y) eqn:E; constructor; auto.
  - constructor; auto.
  - constructor; auto. eapply List.Forall_impl; [|exact Hf]. cbn. eauto.
  - rewrite insert_by_perm. constructor; auto.
Qed.

Lemma sort_by_sorted (l : list A) : StronglySorted (fun a b => le a b = true) (sort_by l).
Proof. induction l; cbn; [constructor|]. now apply insert_by_sorted. Qed.

End Sorting.

(** The sort only depends on how the order compares the list's elements. *)
Lemma insert_by_ext {A} (le le' : A -> A -> bool) (x : A) (l : list A) :
  (forall y, y ∈ l -> le x y = le' x y) -> insert_by le x l = insert_by le' x l.
Proof.
  induction l as [|y r IH]; cbn; intros H; [done|].
  rewrite (H y) by left. destruct (le' x y); [done|]. f_equal. apply IH. intros z Hz. apply H. by right.
Qed.

Lemma sort_by_ext {A} (le le' : A -> A -> bool) (l : list A) :
  (forall x y, x ∈ l -> y ∈ l -> le x y = le' x y) -> sort_by le l = sort_by le' l.
Proof.
  induction l as [|x r IH]; intros H; [done|].
  change (insert_by le x (sort_by le r) = insert_by le' x (sort_by le' r)). rewrite IH.
  - apply insert_by_ext. intros y Hy. apply H; [left|]. right. by rewrite (sort_by_perm le' r) in Hy.
  - intros y z Hy Hz. apply H; by right.
Qed.

(** ** Strings *)

Lemma string_app_length (s t : string) :
  String.length (s +:+ t) = (String.length s + String.length t)%nat.
Proof.
  induction s as [|c r IH]; [done|].
  change (S (String.length (r +:+ t)) = S (String.length r + String.length t)). by f_equal.
Qed.

Lemma string_app_nil_r (s : string) : s +:+ "" = s.
Proof. induction s as [|c r IH]; [done|]. change (String c (r +:+ "") = String c r). by f_equal. Qed.

Lemma string_app_assoc (s t u : string) : (s +:+ t) +:+ u = s +:+ (t +:+ u).
Proof.
  induction s as [|c r IH]; [done|].
  change (String c ((r +:+ t) +:+ u) = String c (r +:+ (t +:+ u))). by f_equal.
Qed.

Lemma string_app_cancel (s t u : string) : s +:+ t = s +:+ u -> t = u.
Proof.
  induction s as [|c r IH]; [done|]. intros E.
  change (String c (r +:+ t) = String c (r +:+ u)) in E. injection E as E. auto.
Qed.
