(* ===== verification/JsNum.v ===== *)
(** * JavaScript numbers

    The dashboard's arithmetic is IEEE-754 binary64.  [num] is the standard
    library's specification float (sign, mantissa, exponent), so every
    operation below is the correctly rounded one and runs inside the kernel:
    no real number and no axiom is involved.  The file holds the operators and
    the [Math] functions the sources use: + - * / %, comparison, [Math.floor],
    [Math.ceil], [Math.round], [Math.min], [Math.max], the Int32 conversions of
    the bitwise operators, the rounding of a [Float32Array] store,
    [Number.prototype.toFixed] and [String(number)].  [Math.sin], [Math.cos],
    [Math.log10] and [Math.log2] are implementation-approximated by the language
    standard: they are parameters of the definitions that call them. *)

From Stdlib Require Import ZArith Lia Ascii.
From Corelib Require Import SpecFloat.
From stdpp Require Import strings pretty list.
From S2P Require Import Prelude.

Local Open Scope Z_scope.

(** ** Representation *)

Abbreviation num := spec_float.

Definition nan : num := S754_nan.
Definition inf : num := S754_infinity false.
Definition ninf : num := S754_infinity true.
Definition n0 : num := S754_zero false.

(** An integer as a number (rounded when it does not fit in 53 bits). *)
Definition ofZ (z : Z) : num := binary_normalize 53 1024 z 0 false.

(** [m / d] correctly rounded: the value of a decimal literal. *)
Definition ofQ (neg : bool) (m d : positive) : num :=
  let '(q, e, l) := SFdiv_core_binary 53 1024 (Zpos m) 0 (Zpos d) 0 in
  binary_round_aux 53 1024 neg q e l.

(** The literal [m * 10^-k], for instance [lit 85 2] is [0.85]. *)
Definition lit (m : positive) (k : nat) : num :=
  ofQ false m (Z.to_pos (10 ^ Z.of_nat k)).

(** ** Operators *)

Definition nadd : num -> num -> num := SFadd 53 1024.
Definition nsub : num -> num -> num := SFsub 53 1024.
Definition nmul : num -> num -> num := SFmul 53 1024.
Definition ndiv : num -> num -> num := SFdiv 53 1024.
Definition nsqrt : num -> num := SFsqrt 53 1024.
Definition nopp : num -> num := SFopp.
Definition nabs : num -> num := SFabs.
Definition nlt (a b : num) : bool := SFltb a b.
Definition nle (a b : num) : bool := SFleb a b.
Definition ngt (a b : num) : bool := SFltb b a.
Definition nge (a b : num) : bool := SFleb b a.
Definition nequ (a b : num) : bool := SFeqb a b.

Definition is_nan (a : num) : bool :=
  match a with S754_nan => true | _ => false end.

Definition is_finite (a : num) : bool :=
  match a with S754_nan | S754_infinity _ => false | _ => true end.

(** [Math.max] and [Math.min] of two arguments: NaN wins, and +0 is larger
    than -0. *)
Definition nmax (a b : num) : num :=
  if is_nan a || is_nan b then nan
  else match a, b with
       | S754_zero s, S754_zero t => S754_zero (s && t)
       | _, _ => if nlt a b then b else a
       end.

Definition nmin (a b : num) : num :=
  if is_nan a || is_nan b then nan
  else match a, b with
       | S754_zero s, S754_zero t => S754_zero (s || t)
       | _, _ => if nlt b a then b else a
       end.

(** The remainder operator: the sign of the dividend, exact. *)
Definition nrem (a b : num) : num :=
  match a, b with
  | S754_nan, _ | _, S754_nan | S754_infinity _, _ | _, S754_zero _ => nan
  | S754_zero _, _ => a
  | _, S754_infinity _ => a
  | S754_finite s m e, S754_finite _ m' e' =>
      let ez := Z.min e e' in
      let r := (Zpos m * 2 ^ (e - ez)) mod (Zpos m' * 2 ^ (e' - ez)) in
      if r =? 0 then S754_zero s
      else binary_normalize 53 1024 (cond_Zopp s r) ez false
  end.

(** ** Rounding to integers *)

(** The integer below a finite number. *)
Definition floorZ (a : num) : Z :=
  match a with
  | S754_finite s m e =>
      if 0 <=? e then cond_Zopp s (Zpos m * 2 ^ e)
      else cond_Zopp s (Zpos m) / 2 ^ (- e)
  | _ => 0
  end.

(** The integer nearest to a finite number, halves upwards. *)
Definition roundZ (a : num) : Z :=
  match a with
  | S754_finite s m e =>
      if 0 <=? e then cond_Zopp s (Zpos m * 2 ^ e)
      else (2 * cond_Zopp s (Zpos m) + 2 ^ (- e)) / 2 ^ (- e + 1)
  | _ => 0
  end.

(** The integer part of a finite number (towards zero). *)
Definition truncZ (a : num) : Z :=
  match a with
  | S754_finite s m e =>
      if 0 <=? e then cond_Zopp s (Zpos m * 2 ^ e)
      else cond_Zopp s (Zpos m / 2 ^ (- e))
  | _ => 0
  end.

(** An integer result with the sign of zero the standard asks for. *)
Definition ofZ_signed (s : bool) (z : Z) : num :=
  if z =? 0 then S754_zero s else ofZ z.

Definition nfloor (a : num) : num :=
  match a with S754_finite _ _ _ => ofZ_signed false (floorZ a) | _ => a end.

Definition nceil (a : num) : num := nopp (nfloor (nopp a)).

Definition nround (a : num) : num :=
  match a with S754_finite s _ _ => ofZ_signed s (roundZ a) | _ => a end.

(** [Number.isInteger]. *)
Definition is_integer (a : num) : bool :=
  is_finite a && nequ (nfloor a) a.

(** ** Int32 conversions of the bitwise operators *)

Definition wrap32 (z : Z) : Z :=
  let r := z mod 2 ^ 32 in if r <? 2 ^ 31 then r else r - 2 ^ 32.

Definition toInt32 (a : num) : Z := wrap32 (truncZ a).

(** [a << k], [a >> k], [a & b], [a | b] for integer operands. *)
Definition shl32 (a k : Z) : Z := wrap32 (wrap32 a * 2 ^ (k mod 32)).
Definition shr32 (a k : Z) : Z := wrap32 a / 2 ^ (k mod 32).
Definition and32 (a b : Z) : Z := Z.land (wrap32 a) (wrap32 b).
Definition or32 (a b : Z) : Z := Z.lor (wrap32 a) (wrap32 b).

(** ** [Float32Array] stores: rounding to binary32 *)

Definition fround (a : num) : num :=
  match a with
  | S754_finite s m e =>
      match binary_round 24 128 s m e with
      | S754_finite s' m' e' => binary_round 53 1024 s' m' e'
      | r => r
      end
  | _ => a
  end.

(** ** Strings of numbers *)

Fixpoint repeat_char (c : Ascii.ascii) (n : nat) : string :=
  match n with O => "" | S k => String c (repeat_char c k) end.

(** [s.padStart(n, c)]. *)
Definition padStart (s : string) (n : nat) (c : Ascii.ascii) : string :=
  (repeat_char c (n - String.length s) ++ s)%string.

(** The magnitude of a finite number times [10^f], rounded to an integer,
    halves upwards. *)
Definition scaled10 (m : positive) (e : Z) (f : nat) : Z :=
  let p := Zpos m * 10 ^ Z.of_nat f in
  if 0 <=? e then p * 2 ^ e else (2 * p + 2 ^ (- e)) / 2 ^ (- e + 1).

(** Insert the decimal point [f] digits from the right. *)
Definition fixed_digits (n : Z) (f : nat) : string :=
  let s := padStart (pretty n) (S f) "0"%char in
  let k := (String.length s - f)%nat in
  match f with
  | O => s
  | _ => (String.substring 0 k s ++ "." ++ String.substring k f s)%string
  end.

(** The decimal digits [s] of the shortest literal that reads back as the
    magnitude [m * 2^e], with the position [n] of its point: the value is
    [s * 10^(n - k)] for [k] digits.  The search tries 1 to 17 digits. *)
Definition ofDec (s : Z) (p : Z) : num :=
  match s with
  | Zpos m => if 0 <=? p then ofZ (s * 10 ^ p) else ofQ false m (Z.to_pos (10 ^ (- p)))
  | _ => n0
  end.

(** The number of decimal digits before the point (or its negative). *)
Definition mag10 (m : positive) (e : Z) : Z :=
  if 0 <=? e then Z.of_nat (String.length (pretty (Zpos m * 2 ^ e)))
  else let q := Zpos m / 2 ^ (- e) in
       if 0 <? q then Z.of_nat (String.length (pretty q))
       else (* value below 1: count the zeros after the point *)
         let big := (Zpos m * 10 ^ 400) / 2 ^ (- e) in
         Z.of_nat (String.length (pretty big)) - 400.

(** [m * 2^e * 10^p] rounded to the nearest integer. *)
Definition near10 (m : positive) (e p : Z) : Z :=
  let nu := Zpos m * (if 0 <=? e then 2 ^ e else 1) * (if 0 <=? p then 10 ^ p else 1) in
  let de := (if 0 <=? e then 1 else 2 ^ (- e)) * (if 0 <=? p then 1 else 10 ^ (- p)) in
  (2 * nu + de) / (2 * de).

Fixpoint shortest (m : positive) (e n : Z) (k fuel : nat) : Z * Z :=
  let p := Z.of_nat k - n in
  let s := near10 m e p in
  match fuel with
  | O => (s, - p)
  | S fuel' =>
      if nequ (ofDec s (- p)) (S754_finite false m e) then (s, - p)
      else shortest m e n (S k) fuel'
  end.

(** Drop the trailing zeros of the digits. *)
Fixpoint strip_zeros (s p : Z) (fuel : nat) : Z * Z :=
  match fuel with
  | O => (s, p)
  | S k => if (0 <? s) && (s mod 10 =? 0) then strip_zeros (s / 10) (p + 1) k else (s, p)
  end.

(** [Number::toString] in base 10 for [s * 10^p]. *)
Definition format_decimal (s p : Z) : string :=
  let d := pretty s in
  let k := Z.of_nat (String.length d) in
  let n := k + p in
  let expo (z : Z) :=
    let sign := if 0 <=? z then "+"%string else "-"%string in
    ("e" ++ sign ++ pretty (Z.abs z))%string in
  if (k <=? n) && (n <=? 21) then (d ++ repeat_char "0"%char (Z.to_nat (n - k)))%string
  else if (0 <? n) && (n <=? 21) then
    (String.substring 0 (Z.to_nat n) d ++ "." ++ String.substring (Z.to_nat n) (Z.to_nat (k - n)) d)%string
  else if (-6 <? n) && (n <=? 0) then
    ("0." ++ repeat_char "0"%char (Z.to_nat (- n)) ++ d)%string
  else if k =? 1 then (d ++ expo (n - 1)%Z)%string
  else (String.substring 0 1 d ++ "." ++ String.substring 1 (Z.to_nat (k - 1)) d ++ expo (n - 1)%Z)%string.

(** [String(x)]. *)
Definition num_str (a : num) : string :=
  match a with
  | S754_nan => "NaN"
  | S754_infinity s => if s then "-Infinity" else "Infinity"
  | S754_zero _ => "0"
  | S754_finite s m e =>
      let body :=
        if is_integer a && (Z.abs (floorZ a) <? 10 ^ 16) then pretty (Z.abs (floorZ a))
        else
          let '(d, p) := shortest m e (mag10 m e) 1 16 in
          let '(d', p') := strip_zeros d p 17 in format_decimal d' p' in
      if s then ("-" ++ body)%string else body
  end.

(** [x.toFixed(f)], for magnitudes below [10^21]. *)
Definition toFixed (a : num) (f : nat) : string :=
  match a with
  | S754_zero _ => fixed_digits 0 f
  | S754_finite s m e =>
      if 10 ^ 21 <=? Z.abs (truncZ a) then num_str a
      else
        let body := fixed_digits (scaled10 m e f) f in
        if s then ("-" ++ body)%string else body
  | _ => num_str a
  end.

(** ** Facts about comparison and clamping *)

Lemma SFcompare_refl (a : num) : is_nan a = false -> SFcompare a a = Some Eq.
Proof.
  destruct a as [s|s| |s m e]; intros H; try discriminate H; try reflexivity.
  - destruct s; reflexivity.
  - cbn. rewrite Z.compare_refl.
    change (Pos.compare_cont Eq m m) with (Pos.compare m m).
    rewrite Pos.compare_refl. destruct s; reflexivity.
Qed.

Lemma compare_cont_antisym (m n : positive) :
  Pos.compare_cont Eq n m = CompOpp (Pos.compare_cont Eq m n).
Proof. apply (Pos.compare_antisym m n). Qed.

Lemma SFcompare_antisym (a b : num) :
  SFcompare b a = option_map CompOpp (SFcompare a b).
Proof.
  destruct a as [s|s| |s m e], b as [t|t| |t m' e']; try reflexivity;
    destruct s, t; try reflexivity; cbn;
    rewrite (Z.compare_antisym e e');
    destruct (Z.compare e e'); cbn; try reflexivity;
    rewrite (compare_cont_antisym m m');
    destruct (Pos.compare_cont Eq m m'); reflexivity.
Qed.

(** Two numbers that are not NaN are comparable. *)
Lemma num_total (a b : num) :
  is_nan a = false -> is_nan b = false -> nlt a b = true \/ nle b a = true.
Proof.
  intros Ha Hb. unfold nlt, nle, SFltb, SFleb.
  rewrite (SFcompare_antisym a b).
  destruct (SFcompare a b) as [[]|] eqn:E; auto.
  destruct a, b; discriminate.
Qed.

Lemma nlt_nle (a b : num) : nlt a b = true -> nle a b = true.
Proof. unfold nlt, nle, SFltb, SFleb. destruct (SFcompare a b) as [[]|]; congruence. Qed.

Lemma nle_refl (a : num) : is_nan a = false -> nle a a = true.
Proof. intros H. unfold nle, SFleb. now rewrite (SFcompare_refl a H). Qed.

Lemma nlt_false_nle (a b : num) :
  is_nan a = false -> is_nan b = false -> nlt a b = false -> nle b a = true.
Proof. intros Ha Hb H. destruct (num_total a b Ha Hb); congruence. Qed.

#[export] Hint Resolve nlt_nle nle_refl nlt_false_nle : js.

(** A value clamped between two numbers, as [Math.max(lo, Math.min(hi, x))]. *)
Lemma nmin_le_l (a b : num) :
  is_nan a = false -> is_nan b = false -> nle (nmin a b) a = true.
Proof.
  intros Ha Hb. unfold nmin. rewrite Ha, Hb. cbn [orb].
  destruct a, b; try discriminate; try reflexivity;
    match goal with |- nle (if ?c then _ else _) _ = _ => destruct c eqn:E end;
    auto with js.
Qed.

Lemma nmin_not_nan (a b : num) :
  is_nan a = false -> is_nan b = false -> is_nan (nmin a b) = false.
Proof.
  intros Ha Hb. unfold nmin. rewrite Ha, Hb. cbn [orb].
  destruct a, b; try discriminate; try reflexivity; by destruct (nlt _ _).
Qed.

Lemma nmax_ge_l (a b : num) :
  is_nan a = false -> is_nan b = false -> nle a (nmax a b) = true.
Proof.
  intros Ha Hb. unfold nmax. rewrite Ha, Hb. cbn [orb].
  destruct a, b; try discriminate; try reflexivity;
    match goal with |- nle _ (if ?c then _ else _) = _ => destruct c eqn:E end;
    auto with js.
Qed.

Lemma nmax_case (a b : num) :
  is_nan a = false -> is_nan b = false ->
  nle (nmax a b) b = true \/ nmax a b = a.
Proof.
  intros Ha Hb. unfold nmax. rewrite Ha, Hb. cbn [orb].
  destruct a, b; try discriminate; auto;
    match goal with |- context [if ?c then _ else _] => destruct c eqn:E end;
    auto with js.
Qed.

Lemma nmax_nan_r (a : num) : nmax a nan = nan.
Proof. unfold nmax. by destruct (is_nan a). Qed.

Lemma nmin_nan_r (a : num) : nmin a nan = nan.
Proof. unfold nmin. by destruct (is_nan a). Qed.

Lemma is_nan_true (a : num) : is_nan a = true -> a = nan.
Proof. by destruct a. Qed.

(** [Math.max(0, y)] is [y] or a zero. *)
Lemma nmax_zero_l (y : num) :
  is_nan y = false -> nmax n0 y = y \/ exists s, nmax n0 y = S754_zero s.
Proof.
  intros H. unfold nmax. rewrite H. cbn [is_nan n0 orb].
  destruct y; eauto; destruct (nlt n0 _); eauto.
Qed.

(** ** Exact integers *)

Lemma digits2_pos_bounds (p : positive) :
  2 ^ (Zpos (digits2_pos p) - 1) <= Zpos p < 2 ^ Zpos (digits2_pos p).
Proof.
  induction p as [p IH|p IH|]; [| |cbn; lia];
    cbn [digits2_pos]; rewrite Pos2Z.inj_succ, Z.pow_succ_r by lia;
    replace (2 ^ (Z.succ (Zpos (digits2_pos p)) - 1)) with (2 * 2 ^ (Zpos (digits2_pos p) - 1))
      by (rewrite <- Z.pow_succ_r by lia; f_equal; lia); lia.
Qed.

Lemma digits2_pos_unique (p : positive) (d : Z) :
  2 ^ (d - 1) <= Zpos p < 2 ^ d -> Zpos (digits2_pos p) = d.
Proof.
  intros [H1 H2]. destruct (digits2_pos_bounds p) as [H3 H4].
  assert (0 < d) by (apply Z.nle_gt; intros ?; destruct (Z.eq_dec d 0); [subst; cbn in *; lia|];
    rewrite (Z.pow_neg_r 2 d) in H2 by lia; lia).
  assert (d - 1 < Zpos (digits2_pos p)) by (apply (Z.pow_lt_mono_r_iff 2); lia).
  assert (Zpos (digits2_pos p) - 1 < d) by (apply (Z.pow_lt_mono_r_iff 2); lia). lia.
Qed.

Lemma iter_xO (m d : positive) : Zpos (Pos.iter xO m d) = Zpos m * 2 ^ Zpos d.
Proof.
  revert m. induction d as [|d IH] using Pos.peano_ind; intros m; [cbn; lia|].
  rewrite Pos.iter_succ, Pos2Z.inj_succ, Z.pow_succ_r by lia.
  change (Zpos (Pos.iter xO m d)~0) with (2 * Zpos (Pos.iter xO m d)). rewrite IH. lia.
Qed.

(** A 53-bit mantissa at an exponent in range is kept as it is. *)
Lemma binary_round_aux_exact (s : bool) (m : positive) (e : Z) :
  Zpos (digits2_pos m) = 53 -> -1074 <= e <= 971 ->
  binary_round_aux 53 1024 s (Zpos m) e loc_Exact = S754_finite s m e.
Proof.
  intros Hd He.
  assert (Hs : shr_fexp 53 1024 (Zpos m) e loc_Exact = (Build_shr_record (Zpos m) false false, e)).
  { unfold shr_fexp, Zdigits2, fexp, emin. rewrite Hd.
    replace (Z.max (53 + e - 53) (3 - 1024 - 53) - e) with 0 by lia. reflexivity. }
  unfold binary_round_aux. rewrite Hs. cbn [shr_m loc_of_shr_record round_nearest_even]. rewrite Hs.
  cbn [shr_m]. by rewrite (proj2 (Z.leb_le e (1024 - 53))) by lia.
Qed.

Lemma ofZ_pos (p : positive) :
  Zpos p < 2 ^ 53 ->
  exists m e, ofZ (Zpos p) = S754_finite false m e /\ -52 <= e <= 0 /\
    Zpos m = Zpos p * 2 ^ (- e) /\ 2 ^ 52 <= Zpos m < 2 ^ 53.
Proof.
  intros Hp. destruct (digits2_pos_bounds p) as [H1 H2].
  set (d := Zpos (digits2_pos p)) in *.
  assert (Hd : 1 <= d <= 53).
  { split; [lia|]. assert (d - 1 < 53); [|lia]. apply (Z.pow_lt_mono_r_iff 2); lia. }
  assert (Hm : exists m, Zpos m = Zpos p * 2 ^ (53 - d) /\
    shl_align p 0 (fexp 53 1024 (d + 0)) = (m, d - 53)).
  { unfold shl_align, fexp, emin.
    replace (Z.max (d + 0 - 53) (3 - 1024 - 53) - 0) with (d - 53) by lia.
    replace (Z.max (d + 0 - 53) (3 - 1024 - 53)) with (d - 53) by lia.
    destruct (d - 53) as [|q|q] eqn:E; [|lia|].
    - exists p. split; [|done]. replace (53 - d) with 0 by lia. lia.
    - exists (Pos.iter xO p q). split; [|done]. rewrite iter_xO. do 2 f_equal. lia. }
  destruct Hm as (m & Hm & Ha).
  assert (Hb : 2 ^ 52 <= Zpos m < 2 ^ 53).
  { rewrite Hm. replace (2 ^ 52) with (2 ^ (d - 1) * 2 ^ (53 - d))
      by (rewrite <- Z.pow_add_r by lia; f_equal; lia).
    replace (2 ^ 53) with (2 ^ d * 2 ^ (53 - d)) by (rewrite <- Z.pow_add_r by lia; f_equal; lia).
    assert (0 < 2 ^ (53 - d)) by (apply Z.pow_pos_nonneg; lia). nia. }
  exists m, (d - 53). split; [|split; [lia|split; [|exact Hb]]].
  - change (ofZ (Zpos p)) with (binary_round 53 1024 false p 0). unfold binary_round.
    change (Zpos (digits2_pos p)) with d. rewrite Ha.
    apply binary_round_aux_exact; [by apply digits2_pos_unique|lia].
  - rewrite Hm. do 2 f_equal. lia.
Qed.

Lemma ofZ_compare_pos (p q : positive) :
  Zpos p < 2 ^ 53 -> Zpos q < 2 ^ 53 ->
  SFcompare (ofZ (Zpos p)) (ofZ (Zpos q)) = Some (Zpos p ?= Zpos q).
Proof.
  intros Hp Hq. destruct (ofZ_pos p Hp) as (m & e & -> & He & Hm & Hmb).
  destruct (ofZ_pos q Hq) as (m' & e' & -> & He' & Hm' & Hmb'). cbn [SFcompare]. f_equal.
  assert (step : forall a b x y k l, 0 <= k -> 0 <= l -> x = a * 2 ^ k -> y = b * 2 ^ l ->
    2 ^ 52 <= x < 2 ^ 53 -> 2 ^ 52 <= y < 2 ^ 53 -> k > l -> a < b).
  { intros a b x y k l Hk Hl -> -> Hx Hy Hkl.
    assert (2 ^ k = 2 ^ l * 2 ^ (k - l)) as E by (rewrite <- Z.pow_add_r by lia; f_equal; lia).
    assert (2 ^ 1 <= 2 ^ (k - l)) by (apply Z.pow_le_mono_r; lia).
    assert (0 < 2 ^ l) by (apply Z.pow_pos_nonneg; lia). nia. }
  destruct (Z.compare_spec e e') as [->|Hlt|Hgt].
  - change (Pos.compare_cont Eq m m') with (Zpos m ?= Zpos m'). rewrite Hm, Hm'.
    symmetry. apply Zmult_compare_compat_r. apply Z.lt_gt, Z.pow_pos_nonneg; lia.
  - symmetry. apply Z.compare_lt_iff. eapply (step _ _ (Zpos m) (Zpos m') (- e) (- e')); eauto; lia.
  - symmetry. apply Z.compare_gt_iff. eapply (step _ _ (Zpos m') (Zpos m) (- e') (- e)); eauto; lia.
Qed.

(** Comparison of exact integers is comparison of integers. *)
Lemma ofZ_compare (a b : Z) :
  0 <= a < 2 ^ 53 -> 0 <= b < 2 ^ 53 -> SFcompare (ofZ a) (ofZ b) = Some (a ?= b).
Proof.
  intros Ha Hb. destruct a as [|p|], b as [|q|]; try lia; [done| | |by apply ofZ_compare_pos; lia].
  - by destruct (ofZ_pos q) as (m & e & -> & _); [lia|].
  - by destruct (ofZ_pos p) as (m & e & -> & _); [lia|].
Qed.

Lemma nlt_ofZ (a b : Z) :
  0 <= a < 2 ^ 53 -> 0 <= b < 2 ^ 53 -> nlt (ofZ a) (ofZ b) = (a <? b).
Proof. intros Ha Hb. unfold nlt, SFltb. rewrite ofZ_compare by done. unfold Z.ltb. by destruct (a ?= b). Qed.

Lemma nequ_ofZ (a b : Z) :
  0 <= a < 2 ^ 53 -> 0 <= b < 2 ^ 53 -> nequ (ofZ a) (ofZ b) = (a =? b).
Proof. intros Ha Hb. unfold nequ, SFeqb. rewrite ofZ_compare by done. rewrite Z.eqb_compare. by destruct (a ?= b). Qed.

Lemma floorZ_ofZ (a : Z) : 0 <= a < 2 ^ 53 -> floorZ (ofZ a) = a.
Proof.
  intros Ha. destruct a as [|p|]; [done| |lia].
  destruct (ofZ_pos p) as (m & e & -> & He & Hm & _); [lia|]. cbn [floorZ cond_Zopp].
  destruct (Z.leb_spec 0 e).
  - replace e with 0 in * by lia. rewrite Hm. cbn. lia.
  - rewrite Hm. apply Z.div_mul. assert (0 < 2 ^ (- e)) by (apply Z.pow_pos_nonneg; lia). lia.
Qed.

Lemma truncZ_ofZ (a : Z) : 0 <= a < 2 ^ 53 -> truncZ (ofZ a) = a.
Proof.
  intros Ha. rewrite <- (floorZ_ofZ a Ha) at 2. destruct a as [|p|]; [done| |lia].
  by destruct (ofZ_pos p) as (m & e & -> & _); [lia|].
Qed.

Lemma is_integer_ofZ (a : Z) : 0 <= a < 2 ^ 53 -> is_integer (ofZ a) = true.
Proof.
  intros Ha. unfold is_integer. destruct a as [|p|]; [done| |lia].
  destruct (ofZ_pos p) as (m & e & E & _); [lia|].
  unfold nfloor. rewrite floorZ_ofZ by lia. rewrite E at 1 2. cbn [is_finite andb]. unfold ofZ_signed.
  cbn [Z.eqb]. by rewrite nequ_ofZ, Z.eqb_refl by lia.
Qed.

(** Numeric equality identifies nothing but the two zeros. *)
Lemma nequ_true (a b : num) :
  nequ a b = true <-> (a = b /\ is_nan a = false) \/ (exists s t, a = S754_zero s /\ b = S754_zero t).
Proof.
  split.
  - unfold nequ, SFeqb. destruct (SFcompare a b) as [[]|] eqn:E; try done. intros _.
    destruct a as [s|s| |s m e], b as [t|t| |t m' e']; try discriminate E; eauto;
      destruct s, t; try discriminate E; eauto; cbn in E; left;
      (destruct (Z.compare_spec e e') as [->|?|?]; [|discriminate E|discriminate E]);
      change (Pos.compare_cont Eq m m') with (Pos.compare m m') in E;
      (destruct (Pos.compare_spec m m') as [->|?|?]; [done|discriminate E|discriminate E]).
  - unfold nequ, SFeqb. intros [[-> H]|(s & t & -> & ->)]; [by rewrite SFcompare_refl|done].
Qed.

Lemma nequ_sym (a b : num) : nequ a b = true -> nequ b a = true.
Proof. rewrite !nequ_true. intros [[-> H]|(s & t & -> & ->)]; eauto 6. Qed.

Lemma nequ_trans (a b c : num) : nequ a b = true -> nequ b c = true -> nequ a c = true.
Proof.
  rewrite !nequ_true. intros [[-> H]|(s & t & -> & ->)] [[<- H']|(s' & t' & E & ->)];
    subst; eauto 6; discriminate.
Qed.

#[export] Hint Resolve nequ_sym nequ_trans : js.
#[export] Hint Rewrite nlt_ofZ nequ_ofZ floorZ_ofZ is_integer_ofZ using lia : js.

(** ** The sign of a difference *)

Lemma shr_1_m (r : shr_record) : 0 <= shr_m r -> shr_m (shr_1 r) = shr_m r / 2.
Proof.
  destruct r as [m b s]. cbn. destruct m as [|[p|p|]|p]; intros H; try lia; try reflexivity.
  - cbn. rewrite Pos2Z.inj_xI. apply (Z.div_unique _ 2 (Zpos p) 1); lia.
  - cbn. rewrite Pos2Z.inj_xO. apply (Z.div_unique _ 2 (Zpos p) 0); lia.
Qed.

Lemma iter_shr_m (n : positive) (r : shr_record) :
  0 <= shr_m r -> shr_m (SpecFloat.iter_pos shr_1 n r) = shr_m r / 2 ^ Zpos n.
Proof.
  assert (two : forall a b c, 0 <= b -> 0 <= c -> a / 2 ^ b / 2 ^ c = a / 2 ^ (b + c)).
  { intros a b c Hb Hc. rewrite Z.pow_add_r by lia. apply Z.div_div; [|]; [|apply Z.pow_pos_nonneg; lia].
    assert (0 < 2 ^ b) by (apply Z.pow_pos_nonneg; lia). lia. }
  assert (pos : forall a b, 0 <= a -> 0 <= b -> 0 <= a / 2 ^ b).
  { intros a b Ha Hb. apply Z.div_pos; [lia|]. apply Z.pow_pos_nonneg; lia. }
  revert r. induction n as [n IH|n IH|]; intros r Hr; cbn [SpecFloat.iter_pos].
  - assert (H1 : 0 <= shr_m (shr_1 r)) by (rewrite shr_1_m by lia; apply (pos _ 1); lia).
    rewrite IH by (rewrite IH by lia; apply pos; lia). rewrite IH, shr_1_m by lia.
    change 2 with (2 ^ 1) at 1. rewrite !two by lia. f_equal. f_equal. lia.
  - rewrite IH by (rewrite IH by lia; apply pos; lia). rewrite IH by lia. rewrite two by lia.
    f_equal. f_equal. lia.
  - rewrite shr_1_m by lia. reflexivity.
Qed.

Lemma shr_fexp_pos (m : positive) (e : Z) (l : location) (r : shr_record) (e' : Z) :
  -1074 <= e -> shr_fexp 53 1024 (Zpos m) e l = (r, e') -> 0 < shr_m r /\ -1074 <= e'.
Proof.
  intros He. unfold shr_fexp, fexp, emin, Zdigits2.
  assert (Hm : shr_m (shr_record_of_loc (Zpos m) l) = Zpos m) by (by destruct l as [|[]]).
  destruct (Z.max _ _ - e) as [|n|n] eqn:En; cbn [shr]; intros [= <- <-]; [lia| |lia].
  split; [|lia]. rewrite iter_shr_m by lia. rewrite Hm.
  destruct (digits2_pos_bounds m) as [Hd _].
  assert (Hn : Zpos n = Zpos (digits2_pos m) - 53) by lia.
  apply Z.div_str_pos. split; [apply Z.pow_pos_nonneg; lia|].
  etransitivity; [|exact Hd]. apply Z.pow_le_mono_r; lia.
Qed.

(** Rounding above the smallest exponent keeps the sign and is not zero. *)
Lemma binary_round_sign (s : bool) (m : positive) (e : Z) :
  -1074 <= e ->
  match binary_round 53 1024 s m e with
  | S754_finite s' _ _ | S754_infinity s' => s' = s
  | _ => False
  end.
Proof.
  intros He. unfold binary_round.
  destruct (shl_align m e _) as [mz ez] eqn:Ea.
  assert (Hez : -1074 <= ez).
  { unfold shl_align, fexp, emin in Ea. destruct (Z.max _ _ - e) eqn:E; injection Ea as <- <-; lia. }
  unfold binary_round_aux. destruct (shr_fexp 53 1024 (Zpos mz) ez loc_Exact) as [r1 e1] eqn:E1.
  apply shr_fexp_pos in E1 as [H1 H1e]; [|done].
  assert (Hr : exists q, round_nearest_even (shr_m r1) (loc_of_shr_record r1) = Zpos q).
  { destruct (shr_m r1) as [|q|q]; try lia. unfold round_nearest_even.
    destruct (loc_of_shr_record r1) as [|[]]; try destruct (Z.even _); eauto. }
  destruct Hr as [q ->]. destruct (shr_fexp 53 1024 (Zpos q) e1 loc_Exact) as [r2 e2] eqn:E2.
  apply shr_fexp_pos in E2 as [H2 H2e]; [|done].
  destruct (shr_m r2); try lia. by destruct (_ <=? _).
Qed.

Lemma shl_align_mul (m : positive) (e ez : Z) :
  ez <= e -> Zpos (fst (shl_align m e ez)) = Zpos m * 2 ^ (e - ez).
Proof.
  intros H. unfold shl_align. destruct (ez - e) as [|d|d] eqn:E; cbn [fst]; try lia.
  - replace (e - ez) with 0 by lia. lia.
  - rewrite iter_xO. do 2 f_equal. lia.
Qed.

(** [a - b > 0] is [b < a] for exact integers. *)
Lemma nsub_pos (a b : Z) :
  0 <= a < 2 ^ 53 -> 0 <= b < 2 ^ 53 -> ngt (nsub (ofZ a) (ofZ b)) n0 = (b <? a).
Proof.
  intros Ha Hb. destruct a as [|p|], b as [|q|]; try lia; try done.
  - destruct (ofZ_pos q) as (m & e & -> & _); [lia|]. done.
  - destruct (ofZ_pos p) as (m & e & -> & _); [lia|]. done.
  - destruct (ofZ_pos p) as (m & e & -> & He & Hm & _); [lia|].
    destruct (ofZ_pos q) as (m' & e' & -> & He' & Hm' & _); [lia|].
    unfold nsub. cbn [SFsub cond_Zopp]. rewrite !shl_align_mul by lia. set (ez := Z.min e e').
    assert (Hd : Zpos m * 2 ^ (e - ez) - Zpos m' * 2 ^ (e' - ez) = (Zpos p - Zpos q) * 2 ^ (- ez)).
    { rewrite Hm, Hm', <- !Z.mul_assoc, <- !Z.pow_add_r by lia.
      replace (- e + (e - ez)) with (- ez) by lia. replace (- e' + (e' - ez)) with (- ez) by lia. lia. }
    rewrite Hd. assert (0 < 2 ^ (- ez)) by (apply Z.pow_pos_nonneg; lia).
    destruct (Z.ltb_spec (Zpos q) (Zpos p)).
    + destruct ((Zpos p - Zpos q) * 2 ^ (- ez)) as [|z|z] eqn:Ez; [nia| |nia].
      cbn [binary_normalize]. pose proof (binary_round_sign false z ez ltac:(lia)) as Hs.
      by destruct (binary_round _ _ _ _ _); try done; subst.
    + destruct ((Zpos p - Zpos q) * 2 ^ (- ez)) as [|z|z] eqn:Ez; [done|nia|].
      cbn [binary_normalize]. pose proof (binary_round_sign true z ez ltac:(lia)) as Hs.
      by destruct (binary_round _ _ _ _ _); try done; subst.
Qed.

(** ** The order is transitive *)

(** Class, exponent and mantissa, ordered lexicographically. *)
Definition num_key (a : num) : Z * Z * Z :=
  match a with
  | S754_zero _ => (0, 0, 0)
  | S754_infinity s => (if s then -2 else 2, 0, 0)
  | S754_nan => (3, 0, 0)
  | S754_finite s m e => if s then (-1, - e, - Zpos m) else (1, e, Zpos m)
  end.

Definition key_le (x y : Z * Z * Z) : Prop :=
  let '(a, b, c) := x in
  let '(a', b', c') := y in
  a < a' \/ (a = a' /\ (b < b' \/ (b = b' /\ c <= c'))).

Lemma nle_key (a b : num) :
  is_nan a = false -> is_nan b = false -> nle a b = true <-> key_le (num_key a) (num_key b).
Proof.
  intros Ha Hb. unfold nle, SFleb.
  destruct a as [s|s| |s m e], b as [t|t| |t m' e']; try discriminate;
    repeat match goal with b : bool |- _ => destruct b end; cbn; try (split; [lia|done]); try (split; [done|lia]);
    try change (Pos.compare_cont Eq m m') with (Pos.compare m m');
    (destruct (Z.compare_spec e e'); [destruct (Pos.compare_spec m m')| |]); cbn; split; try done; lia.
Qed.

Lemma nle_trans (a b c : num) :
  is_nan a = false -> is_nan b = false -> is_nan c = false ->
  nle a b = true -> nle b c = true -> nle a c = true.
Proof.
  intros Ha Hb Hc. rewrite !nle_key by done.
  destruct (num_key a) as [[x1 y1] z1], (num_key b) as [[x2 y2] z2], (num_key c) as [[x3 y3] z3]. cbn. lia.
Qed.

Lemma is_finite_not_nan (a : num) : is_finite a = true -> is_nan a = false.
Proof. by destruct a. Qed.

#[export] Hint Resolve is_finite_not_nan : js.

(** ** Arithmetic on finite numbers is never NaN *)

Lemma shr_fexp_nonneg (m e : Z) (l : location) : 0 <= m -> 0 <= shr_m (shr_fexp 53 1024 m e l).1.
Proof.
  intros Hm. unfold shr_fexp.
  assert (H : shr_m (shr_record_of_loc m l) = m) by (by destruct l as [|[]]).
  destruct (fexp 53 1024 (Zdigits2 m + e) - e) as [|n|n]; cbn [shr fst]; [lia| |lia].
  rewrite iter_shr_m by lia. apply Z.div_pos; [lia|]. apply Z.pow_pos_nonneg; lia.
Qed.

Lemma round_nearest_even_nonneg (m : Z) (l : location) : 0 <= m -> 0 <= round_nearest_even m l.
Proof. intros H. destruct l as [|[]]; cbn; try destruct (Z.even m); lia. Qed.

Lemma binary_round_aux_not_nan (s : bool) (m e : Z) (l : location) :
  0 <= m -> is_nan (binary_round_aux 53 1024 s m e l) = false.
Proof.
  intros Hm. unfold binary_round_aux. pose proof (shr_fexp_nonneg m e l Hm) as H1.
  destruct (shr_fexp 53 1024 m e l) as [r1 e1]. cbn [fst] in H1.
  pose proof (shr_fexp_nonneg _ e1 loc_Exact (round_nearest_even_nonneg _ (loc_of_shr_record r1) H1)) as H2.
  destruct (shr_fexp 53 1024 _ e1 loc_Exact) as [r2 e2]. cbn [fst] in H2.
  destruct (shr_m r2); [done| |lia]. by destruct (_ <=? _).
Qed.

Lemma nmul_not_nan (a b : num) : is_finite a = true -> is_finite b = true -> is_nan (nmul a b) = false.
Proof. destruct a, b; try done. intros _ _. by apply binary_round_aux_not_nan. Qed.

Lemma nadd_not_nan (a b : num) : is_finite a = true -> is_finite b = true -> is_nan (nadd a b) = false.
Proof.
  destruct a as [s| | |s m e], b as [t| | |t m' e']; try done; intros _ _; [by destruct s, t|].
  unfold nadd, SFadd. set (z := (_ + _)). unfold binary_normalize.
  destruct z; [done|..]; unfold binary_round; destruct (shl_align _ _ _); by apply binary_round_aux_not_nan.
Qed.

Lemma ndiv_not_nan (a b : num) :
  is_finite a = true -> is_nan b = false -> nequ b n0 = false -> is_nan (ndiv a b) = false.
Proof.
  destruct a as [s| | |s m e], b as [t| | |t m' e']; try done; intros _ _ _.
  unfold ndiv, SFdiv, SFdiv_core_binary. cbv zeta. set (m1 := match _ with Z0 => _ | _ => _ end).
  assert (H1 : 0 <= m1).
  { unfold m1. destruct (_ - _ - _); [lia| |lia]. by apply Z.shiftl_nonneg. }
  clearbody m1. pose proof (Z_div_mod m1 (Zpos m') ltac:(lia)) as H. destruct (Z.div_eucl m1 (Zpos m')) as [q r].
  apply binary_round_aux_not_nan. nia.
Qed.

Lemma ndiv_by_finite_not_nan (a b : num) :
  is_nan a = false -> is_finite b = true -> nequ b n0 = false -> is_nan (ndiv a b) = false.
Proof.
  intros Ha Hb Hz. destruct (is_finite a) eqn:Ef; [apply ndiv_not_nan; auto; by destruct b|].
  destruct a as [s|s| |s m e]; try done. destruct b as [t|t| |t m e]; done.
Qed.

Lemma nle_nlt_trans (a b c : num) :
  is_nan a = false -> is_nan b = false -> is_nan c = false ->
  nle a b = true -> nlt b c = true -> nlt a c = true.
Proof.
  intros Ha Hb Hc H1 H2. destruct (nlt a c) eqn:E; [done|]. exfalso.
  assert (H3 : nle c b = true) by (eapply nle_trans; [..|exact H1]; [done|done|done|by apply nlt_false_nle]).
  revert H2 H3. unfold nlt, nle, SFltb, SFleb. rewrite (SFcompare_antisym c b).
  destruct (SFcompare c b) as [[]|]; done.
Qed.

Lemma nlt_trans (a b c : num) :
  is_nan a = false -> is_nan b = false -> is_nan c = false -> nlt a b = true -> nlt b c = true -> nlt a c = true.
Proof. intros Ha Hb Hc H1 H2. eapply nle_nlt_trans; [..|exact H2]; try done. by apply nlt_nle. Qed.

Lemma nle_false_nlt (a b : num) : is_nan a = false -> is_nan b = false -> nle a b = false -> nlt b a = true.
Proof. intros Ha Hb H. destruct (nlt b a) eqn:E; [done|]. by rewrite nlt_false_nle in H. Qed.

Lemma nlt_not_nle (a b : num) : nlt a b = true -> nle b a = true -> False.
Proof. unfold nlt, nle, SFltb, SFleb. rewrite (SFcompare_antisym b a). destruct (SFcompare b a) as [[]|]; done. Qed.
