(* ===== verification/JsValue.v ===== *)
(** * JavaScript values, strings and errors

    The data the dashboard receives is JSON: [value] is a JSON value or
    [undefined].  Objects keep their own properties in insertion order, as the
    language does for string keys that are not array indices.  The file holds
    the coercions the sources rely on (truthiness, [== null], [String(v)],
    [Number(v)]), property reads, and a small error monad [res] for code that
    may throw.  Strings are byte strings: the non-ASCII characters of the
    sources' literals are their UTF-8 bytes. *)

From Stdlib Require Import ZArith Lia Ascii.
From Corelib Require Import SpecFloat.
From stdpp Require Import strings pretty list.
From S2P Require Import Prelude JsNum.

(** ** Values *)

Inductive value :=
  | VUndef
  | VNull
  | VBool (b : bool)
  | VNum (n : num)
  | VStr (s : string)
  | VArr (l : list value)
  | VObj (fields : list (string * value)).

Definition vz (z : Z) : value := VNum (ofZ z).

(** ToBoolean. *)
Definition truthy (v : value) : bool :=
  match v with
  | VUndef | VNull => false
  | VBool b => b
  | VNum n => negb (is_nan n || nequ n n0)
  | VStr s => negb (String.eqb s "")
  | VArr _ | VObj _ => true
  end.

(** [v == null]. *)
Definition nullish (v : value) : bool :=
  match v with VUndef | VNull => true | _ => false end.

Definition is_undef (v : value) : bool := match v with VUndef => true | _ => false end.

(** [typeof v === "object"] and friends. *)
Definition is_obj (v : value) : bool :=
  match v with VNull | VArr _ | VObj _ => true | _ => false end.
Definition is_arr (v : value) : bool := match v with VArr _ => true | _ => false end.
Definition is_str (v : value) : bool := match v with VStr _ => true | _ => false end.
Definition is_num (v : value) : bool := match v with VNum _ => true | _ => false end.
Definition is_bool (v : value) : bool := match v with VBool _ => true | _ => false end.

(** [a || b], [a != null ? a : b]. *)
Definition v_or (a b : value) : value := if truthy a then a else b.
Definition v_nn (a b : value) : value := if nullish a then b else a.

(** [Array.isArray(v) ? v : []]. *)
Definition arr (v : value) : list value := match v with VArr l => l | _ => [] end.

(** ** Own properties *)

Fixpoint assoc {A} (k : string) (l : list (string * A)) : option A :=
  match l with
  | [] => None
  | (k', x) :: r => if String.eqb k k' then Some x else assoc k r
  end.

(** Assign a property: an existing one keeps its place, a new one is last. *)
Fixpoint assoc_set {A} (k : string) (x : A) (l : list (string * A)) : list (string * A) :=
  match l with
  | [] => [(k, x)]
  | (k', y) :: r => if String.eqb k k' then (k', x) :: r else (k', y) :: assoc_set k x r
  end.

(** Delete a property. *)
Fixpoint assoc_del {A} (k : string) (l : list (string * A)) : list (string * A) :=
  match l with
  | [] => []
  | (k', y) :: r => if String.eqb k k' then assoc_del k r else (k', y) :: assoc_del k r
  end.

(** [v.k] for a value that is neither [undefined] nor [null]; the built-in
    properties of the prototypes are not data and are not read by the sources
    through this accessor, [length] excepted. *)
Definition fld (v : value) (k : string) : value :=
  match v with
  | VObj f => match assoc k f with Some x => x | None => VUndef end
  | VArr l => if String.eqb k "length" then vz (Z.of_nat (length l)) else VUndef
  | VStr s => if String.eqb k "length" then vz (Z.of_nat (String.length s)) else VUndef
  | _ => VUndef
  end.

(** ["k" in v] for an object's own properties. *)
Definition has_key (v : value) (k : string) : bool :=
  match v with
  | VObj f => match assoc k f with Some _ => true | None => false end
  | _ => false
  end.

(** [Object.assign({}, a, b)]: the own properties of both, later ones win. *)
Definition entries (v : value) : list (string * value) :=
  match v with VObj f => f | _ => [] end.

Definition assign (a b : list (string * value)) : list (string * value) :=
  fold_left (fun acc kv => assoc_set kv.1 kv.2 acc) b a.

(** ** Strings *)

Definition is_ws (c : ascii) : bool :=
  let n := Ascii.nat_of_ascii c in
  (n =? 32)%nat || ((9 <=? n)%nat && (n <=? 13)%nat).

Fixpoint trimStart (s : string) : string :=
  match s with
  | String c r => if is_ws c then trimStart r else s
  | EmptyString => EmptyString
  end.

Fixpoint trimEnd (s : string) : string :=
  match s with
  | EmptyString => EmptyString
  | String c r =>
      let t := trimEnd r in
      if is_ws c && String.eqb t "" then EmptyString else String c t
  end.

Definition trim (s : string) : string := trimEnd (trimStart s).

Definition lower_char (c : ascii) : ascii :=
  let n := Ascii.nat_of_ascii c in
  if (65 <=? n)%nat && (n <=? 90)%nat then Ascii.ascii_of_nat (n + 32) else c.

Definition upper_char (c : ascii) : ascii :=
  let n := Ascii.nat_of_ascii c in
  if (97 <=? n)%nat && (n <=? 122)%nat then Ascii.ascii_of_nat (n - 32) else c.

Fixpoint smap (f : ascii -> ascii) (s : string) : string :=
  match s with EmptyString => EmptyString | String c r => String (f c) (smap f r) end.

Definition toLowerCase : string -> string := smap lower_char.
Definition toUpperCase : string -> string := smap upper_char.

Fixpoint sall (p : ascii -> bool) (s : string) : bool :=
  match s with EmptyString => true | String c r => p c && sall p r end.

(** The longest prefix of characters that pass, and the rest. *)
Fixpoint span (p : ascii -> bool) (s : string) : string * string :=
  match s with
  | EmptyString => ("", "")
  | String c r => if p c then let '(a, b) := span p r in (String c a, b) else ("", s)
  end.

(** [s.split(sep)] for a one-character separator. *)
Fixpoint split_char (sep : ascii) (s : string) : list string :=
  match s with
  | EmptyString => [""%string]
  | String c r =>
      match split_char sep r with
      | [] => []
      | h :: t => if Ascii.eqb c sep then ""%string :: h :: t else String c h :: t
      end
  end.

(** [s.slice(0, n)] and [s.slice(n)]. *)
Fixpoint stake (n : nat) (s : string) : string :=
  match n, s with
  | S k, String c r => String c (stake k r)
  | _, _ => EmptyString
  end.

Fixpoint sdrop (n : nat) (s : string) : string :=
  match n, s with
  | S k, String _ r => sdrop k r
  | _, _ => s
  end.

(** [s.indexOf(p) === 0]. *)
Fixpoint starts_with (p s : string) : bool :=
  match p, s with
  | EmptyString, _ => true
  | String a p', String b s' => Ascii.eqb a b && starts_with p' s'
  | String _ _, EmptyString => false
  end.

(** [s.indexOf(p) >= 0]. *)
Definition contains (p s : string) : bool :=
  match String.index 0 p s with Some _ => true | None => false end.

Fixpoint chars (s : string) : list ascii :=
  match s with EmptyString => [] | String c r => c :: chars r end.

Definition is_digit (c : ascii) : bool :=
  let n := Ascii.nat_of_ascii c in (48 <=? n)%nat && (n <=? 57)%nat.
Definition digit_val (c : ascii) : Z := Z.of_nat (Ascii.nat_of_ascii c) - 48.

Definition is_lower_hex (c : ascii) : bool :=
  let n := Ascii.nat_of_ascii c in is_digit c || ((97 <=? n)%nat && (n <=? 102)%nat).
Definition is_hex (c : ascii) : bool :=
  let n := Ascii.nat_of_ascii c in is_lower_hex c || ((65 <=? n)%nat && (n <=? 70)%nat).
Definition hex_val (c : ascii) : Z :=
  let n := Z.of_nat (Ascii.nat_of_ascii c) in
  if is_digit c then n - 48 else if (n <? 97)%Z then n - 55 else n - 87.

(** ** Number(string) *)

(** The digits read so far and the rest of the input. *)
Fixpoint read_digits (base : Z) (ok : ascii -> bool) (v : ascii -> Z)
    (acc : Z) (n : nat) (l : list ascii) : Z * nat * list ascii :=
  match l with
  | c :: r => if ok c then read_digits base ok v (acc * base + v c) (S n) r else (acc, n, l)
  | [] => (acc, n, [])
  end.

Definition read_dec := read_digits 10 is_digit digit_val.

(** The exponent part, and whether the input ends there. *)
Definition read_expo (l : list ascii) : option Z :=
  match l with
  | [] => Some 0%Z
  | c :: r =>
      if Ascii.eqb (lower_char c) "e" then
        let '(sgn, r') :=
          match r with
          | "-"%char :: r' => (-1, r')%Z
          | "+"%char :: r' => (1, r')%Z
          | _ => (1, r)%Z
          end in
        match read_dec 0 0 r' with
        | (z, S _, []) => Some (sgn * z)%Z
        | _ => None
        end
      else None
  end.

Definition signed (neg : bool) (a : num) : num := if neg then nopp a else a.

Definition read_unsigned (neg : bool) (l : list ascii) : num :=
  let '(ip, n, r) := read_dec 0 0 l in
  let '(m, k, frac, r') :=
    match r with
    | "."%char :: r1 => let '(fp, n', r2) := read_dec ip 0 r1 in (fp, (n + n')%nat, n', r2)
    | _ => (ip, n, 0%nat, r)
    end in
  match k, read_expo r' with
  | S _, Some e => signed neg (ofDec m (e - Z.of_nat frac))
  | _, _ => nan
  end.

(** The base of a [0x], [0o] or [0b] literal. *)
Definition radix (c : ascii) : option (Z * (ascii -> bool)) :=
  let l := lower_char c in
  if Ascii.eqb l "x" then Some (16%Z, is_hex)
  else if Ascii.eqb l "o" then Some (8%Z, fun d => is_digit d && (digit_val d <? 8)%Z)
  else if Ascii.eqb l "b" then Some (2%Z, fun d => is_digit d && (digit_val d <? 2)%Z)
  else None.

Definition read_radix (l : list ascii) : option num :=
  match l with
  | "0"%char :: x :: body =>
      match radix x with
      | Some (base, ok) =>
          Some (match read_digits base ok hex_val 0 0 body with
                | (z, S _, []) => ofZ z
                | _ => nan
                end)
      | None => None
      end
  | _ => None
  end.

Definition str_num (s : string) : num :=
  let t := trim s in
  let read neg l := if decide (l = chars "Infinity") then signed neg inf else read_unsigned neg l in
  match chars t with
  | [] => n0
  | "-"%char :: r => read true r
  | "+"%char :: r => read false r
  | r => match read_radix r with Some n => n | None => read false r end
  end.

(** ** String(v), Number(v) *)

Fixpoint vstr (v : value) : string :=
  match v with
  | VUndef => "undefined"
  | VNull => "null"
  | VBool b => if b then "true" else "false"
  | VNum n => num_str n
  | VStr s => s
  | VArr l =>
      String.concat "," (List.map (fun x => if nullish x then ""%string else vstr x) l)
  | VObj _ => "[object Object]"
  end.

Definition vnum (v : value) : num :=
  match v with
  | VUndef => nan
  | VNull => n0
  | VBool b => if b then ofZ 1 else n0
  | VNum n => n
  | VStr s => str_num s
  | VArr _ => str_num (vstr v)
  | VObj _ => nan
  end.

(** ** Errors *)

(** A thrown value: the [code] and [message] of an [Error]. *)
Record jserr := JsErr { err_code : value; err_message : string; err_api : bool }.

Definition TypeError : jserr := JsErr VUndef "TypeError" false.

Inductive res (A : Type) :=
  | Ok (a : A)
  | Throw (e : jserr).
Arguments Ok {A} _.
Arguments Throw {A} _.

Definition bind {A B} (r : res A) (f : A -> res B) : res B :=
  match r with Ok a => f a | Throw e => Throw e end.

Notation "x <- c ;; k" := (bind c (fun x => k))
  (at level 100, c at next level, right associativity) : js_scope.

(** [l.map(f)] for a function that may throw. *)
Fixpoint map_res {A B} (f : A -> res B) (l : list A) : res (list B) :=
  match l with
  | [] => Ok []
  | x :: r => bind (f x) (fun y => bind (map_res f r) (fun ys => Ok (y :: ys)))
  end.

(** [v.k] where [v] may be [undefined] or [null]. *)
Definition get (v : value) (k : string) : res value :=
  if nullish v then Throw TypeError else Ok (fld v k).

(** ** JSON.stringify *)

Definition dquote : string := String (ascii_of_nat 34) "".

Definition hex_digit (n : nat) : ascii :=
  if (n <? 10)%nat then ascii_of_nat (48 + n) else ascii_of_nat (87 + n).

(** [byte.toString(16).padStart(2, "0")]. *)
Definition hex2 (n : nat) : string :=
  String (hex_digit ((n / 16) mod 16)) (String (hex_digit (n mod 16)) "").

Definition json_char (c : ascii) : string :=
  let n := nat_of_ascii c in
  if (n =? 34)%nat || (n =? 92)%nat then String (ascii_of_nat 92) (String c "")
  else if (n =? 8)%nat then "\b"%string
  else if (n =? 9)%nat then "\t"%string
  else if (n =? 10)%nat then "\n"%string
  else if (n =? 12)%nat then "\f"%string
  else if (n =? 13)%nat then "\r"%string
  else if (n <? 32)%nat then ("\u00" +:+ hex2 n)%string
  else String c "".

Fixpoint json_escape (s : string) : string :=
  match s with
  | EmptyString => EmptyString
  | String c r => (json_char c +:+ json_escape r)%string
  end.

Definition json_quote (s : string) : string := (dquote +:+ json_escape s +:+ dquote)%string.

(** An [undefined] array element prints as [null]; an [undefined] property is
    left out.  A value that is [undefined] itself prints as nothing. *)
Fixpoint json_str (v : value) : string :=
  match v with
  | VUndef => ""
  | VNull => "null"
  | VBool b => if b then "true" else "false"
  | VNum n => if is_finite n then num_str n else "null"
  | VStr s => json_quote s
  | VArr l =>
      ("[" +:+ String.concat ","
         (List.map (fun x => if is_undef x then "null"%string else json_str x) l)
       +:+ "]")%string
  | VObj f =>
      ("{" +:+ String.concat ","
         (flat_map (fun kx => if is_undef kx.2 then []
                              else [(json_quote kx.1 +:+ ":" +:+ json_str kx.2)%string]) f)
       +:+ "}")%string
  end.

(** ** encodeURIComponent *)

Definition unreserved (c : ascii) : bool :=
  let n := nat_of_ascii c in
  ((48 <=? n) && (n <=? 57) || (65 <=? n) && (n <=? 90) || (97 <=? n) && (n <=? 122))%nat
  || existsb (Ascii.eqb c) ["-"; "_"; "."; "!"; "~"; "*"; "'"; "("; ")"]%char.

Definition upper_hex2 (n : nat) : string := toUpperCase (hex2 n).

Definition encode_char (c : ascii) : string :=
  if unreserved c then String c "" else ("%" +:+ upper_hex2 (nat_of_ascii c))%string.

Fixpoint encodeURIComponent (s : string) : string :=
  match s with
  | EmptyString => EmptyString
  | String c r => encode_char c +:+ encodeURIComponent r
  end.

(** The inverse, as a server reads a path segment. *)
Fixpoint decodeURI (s : string) : string :=
  match s with
  | String "%" (String a (String b r)) =>
      String (ascii_of_nat (Z.to_nat (hex_val a * 16 + hex_val b))) (decodeURI r)
  | String c r => String c (decodeURI r)
  | EmptyString => EmptyString
  end.

Lemma decode_encode_char (c : ascii) (r : string) :
  decodeURI (encode_char c +:+ r) = String c (decodeURI r).
Proof. destruct c as [[] [] [] [] [] [] [] []]; reflexivity. Qed.

Lemma decodeURI_encode (s : string) : decodeURI (encodeURIComponent s) = s.
Proof. induction s as [|c r IH]; cbn [encodeURIComponent]; [done|]. by rewrite decode_encode_char, IH. Qed.

Lemma sall_app (p : ascii -> bool) (s t : string) : sall p (s +:+ t) = sall p s && sall p t.
Proof.
  induction s as [|c r IH]; [done|].
  change (sall p (String c r +:+ t)) with (p c && sall p (r +:+ t)). cbn [sall].
  by rewrite IH, andb_assoc.
Qed.

(** Encoded text never contains a character that structures a URL. *)
Definition segment_char (c : ascii) : bool :=
  negb (existsb (Ascii.eqb c) ["/"; "?"; "#"; "&"; "="; " "]%char).

Lemma encode_segment (s : string) : sall segment_char (encodeURIComponent s) = true.
Proof.
  induction s as [|c r IH]; cbn [encodeURIComponent]; [done|]. rewrite sall_app, IH, andb_true_r.
  destruct c as [[] [] [] [] [] [] [] []]; reflexivity.
Qed.

(** Nothing to trim. *)
Lemma trim_id s : sall (fun c => negb (is_ws c)) s = true -> trim s = s.
Proof.
  intros H. unfold trim. assert (E : trimStart s = s).
  { destruct s as [|c s]; [done|]. cbn in *. by destruct (is_ws c). }
  rewrite E. clear E. induction s as [|c s IH]; [done|]. cbn [sall] in H. apply andb_true_iff in H as [Hc Hs].
  cbn [trimEnd]. rewrite IH by done. apply negb_true_iff in Hc. rewrite Hc. by destruct s.
Qed.

(** A step that succeeded. *)
Lemma bind_ok {X Y} (r : res X) (f : X -> res Y) y : bind r f = Ok y -> exists x, r = Ok x /\ f x = Ok y.
Proof. destruct r as [x|]; [by exists x|done]. Qed.

Lemma span_parts p s : let '(a, b) := span p s in s = a +:+ b.
Proof. induction s as [|c s IH]; [done|]. cbn [span]. destruct (p c); [|done]. destruct (span p s) as [a b]. by rewrite IH. Qed.

Lemma span_stop p s a c r : span p s = (a, String c r) -> p c = false.
Proof.
  revert a. induction s as [|d s IH]; intros a; cbn [span]; [done|]. destruct (p d) eqn:E.
  - destruct (span p s) as [a' b]. intros [= <- ->]. by eapply IH.
  - by intros [= _ <- _].
Qed.

(** ** Lemmas on own properties *)

Lemma assoc_set_same {A} (k : string) (x : A) l : assoc k (assoc_set k x l) = Some x.
Proof.
  induction l as [|[k' y] r IH]; cbn; [by rewrite String.eqb_refl|].
  destruct (String.eqb k k') eqn:E; cbn; by rewrite E.
Qed.

Lemma assoc_set_other {A} (k k' : string) (x : A) l :
  k ≠ k' -> assoc k' (assoc_set k x l) = assoc k' l.
Proof.
  intros Hne. induction l as [|[k2 y] r IH]; cbn.
  - destruct (String.eqb_spec k' k); congruence.
  - destruct (String.eqb_spec k k2) as [->|]; cbn; [|by rewrite IH].
    destruct (String.eqb_spec k' k2); congruence.
Qed.

Lemma assoc_del_same {A} (k : string) (l : list (string * A)) : assoc k (assoc_del k l) = None.
Proof.
  induction l as [|[k' y] r IH]; cbn; [done|].
  destruct (String.eqb k k') eqn:E; cbn; by rewrite ?E.
Qed.

Lemma assoc_del_other {A} (k k' : string) (l : list (string * A)) :
  k ≠ k' -> assoc k' (assoc_del k l) = assoc k' l.
Proof.
  intros Hne. induction l as [|[k2 y] r IH]; cbn; [done|].
  destruct (String.eqb_spec k k2) as [->|]; cbn; rewrite IH; [|done].
  destruct (String.eqb_spec k' k2); congruence.
Qed.

#[export] Hint Rewrite @assoc_set_same @assoc_del_same : js.

(** ** Quoted strings are unambiguous *)

(** Read one escaped character back. *)
Definition json_unchar (s : string) : option (ascii * string) :=
  match s with
  | String b r =>
      if (nat_of_ascii b =? 34)%nat then None
      else if (nat_of_ascii b =? 92)%nat then
        match r with
        | String d t =>
            let n := nat_of_ascii d in
            if (n =? 34)%nat || (n =? 92)%nat then Some (d, t)
            else if (n =? 98)%nat then Some (ascii_of_nat 8, t)
            else if (n =? 116)%nat then Some (ascii_of_nat 9, t)
            else if (n =? 110)%nat then Some (ascii_of_nat 10, t)
            else if (n =? 102)%nat then Some (ascii_of_nat 12, t)
            else if (n =? 114)%nat then Some (ascii_of_nat 13, t)
            else match t with
                 | String _ (String _ (String h (String l u))) =>
                     Some (ascii_of_nat (Z.to_nat (16 * hex_val h + hex_val l)), u)
                 | _ => None
                 end
        | EmptyString => None
        end
      else Some (b, r)
  | EmptyString => None
  end.

Lemma json_unchar_char c x : json_unchar (json_char c +:+ x) = Some (c, x).
Proof. destruct c as [[] [] [] [] [] [] [] []]; vm_compute; reflexivity. Qed.

Lemma json_quote_inj s t x y :
  (json_quote s +:+ x = json_quote t +:+ y)%string -> s = t /\ x = y.
Proof.
  unfold json_quote. rewrite !string_app_assoc. intros E.
  assert (E' : (json_escape s +:+ (dquote +:+ x) = json_escape t +:+ (dquote +:+ y))%string).
  { injection E as E. exact E. }
  clear E. revert t E'. induction s as [|c s IH]; intros [|d t]; cbn [json_escape]; rewrite ?string_app_assoc.
  - intros E. injection E as E. split; [done|exact E].
  - intros E. exfalso. apply (f_equal json_unchar) in E. rewrite json_unchar_char in E. discriminate E.
  - intros E. exfalso. apply (f_equal json_unchar) in E. rewrite json_unchar_char in E. discriminate E.
  - intros E. apply (f_equal json_unchar) in E. rewrite !json_unchar_char in E.
    injection E as <- E. apply IH in E as [-> ->]. done.
Qed.

(** Lists of strings, inside a larger text. *)
Lemma json_strs_inj l l' x y :
  ("[" +:+ String.concat "," (map (fun v => if is_undef v then "null" else json_str v) (map VStr l)) +:+ "]" +:+ x =
   "[" +:+ String.concat "," (map (fun v => if is_undef v then "null" else json_str v) (map VStr l')) +:+ "]" +:+ y)%string ->
  l = l' /\ x = y.
Proof.
  assert (H : forall m m' x y,
    (String.concat "," (map json_quote m) +:+ ("]" +:+ x) =
     String.concat "," (map json_quote m') +:+ ("]" +:+ y))%string -> m = m' /\ x = y).
  { clear. induction m as [|a m IH]; intros [|b m'] x y.
    - intros E. injection E as E. split; [done|exact E].
    - intros E. destruct m'; discriminate E.
    - intros E. destruct m; discriminate E.
    - destruct m as [|a2 m], m' as [|b2 m']; cbn [map String.concat]; rewrite ?string_app_assoc.
      + intros [-> E]%json_quote_inj. injection E as E. split; [done|exact E].
      + intros [-> E]%json_quote_inj. discriminate E.
      + intros [-> E]%json_quote_inj. discriminate E.
      + intros [-> E]%json_quote_inj. injection E as E. apply (IH (b2 :: m')) in E as [E ->].
        by injection E as -> ->. }
  intros E. rewrite !map_map in E. cbn [is_undef json_str] in E. injection E as E. by apply H.
Qed.
