(* ===== verification/ServiceWorker.v ===== *)
(** * The service worker (dashboard/public/sw.js)

    The worker's state is the browser's CacheStorage (an ordered list of named
    caches, each an ordered list of entries) and the promise queue
    [refreshQueue] that applies offline copies one at a time.  A job of the
    queue is two asynchronous cache operations, a [delete] that ignores the
    query string and a [put]; either may be rejected.  [step] interleaves
    fetches that settle, queue operations that settle, and the install and
    activate events; the theorems hold for every interleaving. *)

From Stdlib Require Import ZArith Lia Ascii.
From stdpp Require Import strings list.
From S2P Require Import Prelude JsNum JsValue.

(** ** URLs, requests, responses, caches *)

Record url := Url { u_origin : string; u_path : string; u_search : string }.

#[export] Instance url_eq_dec : EqDecision url.
Proof. solve_decision. Defined.

(** The key a lookup with [ignoreSearch] compares. *)
Definition path_key (u : url) : string * string := (u_origin u, u_path u).

Record resp := Resp { r_status : Z; r_type : string; r_body : string }.

Definition r_ok (r : resp) : bool := (200 <=? r_status r)%Z && (r_status r <=? 299)%Z.

Record request := Req { rq_method : string; rq_url : url; rq_mode : string }.

Abbreviation cache := (list (url * resp)).
Abbreviation storage := (list (string * cache)).

(** [cache.put]: an entry with the same URL is replaced. *)
Definition cache_put (u : url) (r : resp) (c : cache) : cache :=
  filter (fun e => e.1 ≠ u) c ++ [(u, r)].

(** [cache.delete(req, { ignoreSearch: true })]. *)
Definition cache_delete_path (u : url) (c : cache) : cache :=
  filter (fun e => path_key e.1 ≠ path_key u) c.

(** [cache.match(req, { ignoreSearch: true })]: the first matching entry. *)
Fixpoint cache_match_path (u : url) (c : cache) : option resp :=
  match c with
  | [] => None
  | (u', r) :: t => if decide (path_key u' = path_key u) then Some r else cache_match_path u t
  end.

(** [cache.match(req)]: the first entry with the same URL. *)
Fixpoint cache_match (u : url) (c : cache) : option resp :=
  match c with
  | [] => None
  | (u', r) :: t => if decide (u' = u) then Some r else cache_match u t
  end.

(** [caches.match(req)]: the first cache, in creation order, with a match. *)
Fixpoint caches_match (u : url) (s : storage) : option resp :=
  match s with
  | [] => None
  | (_, c) :: t => match cache_match u c with Some r => Some r | None => caches_match u t end
  end.

(** [caches.open(name)] creates the cache when it is absent. *)
Definition open_cache (n : string) (s : storage) : cache := default [] (assoc n s).
Definition set_cache (n : string) (c : cache) (s : storage) : storage := assoc_set n c s.

(** ** Constants *)

Definition CACHE_VERSION : string := "solari-v24".
Definition SHELL_CACHE : string := CACHE_VERSION +:+ "-shell".
Definition TRANSFORM_CACHE : string := "solari-jsx-transform-v2".

Definition SHELL_ASSETS : list string :=
  [ "./"; "index.html"; "boot.js?v=20261024d"; "transform-worker.js?v=20261024d";
    "manifest.webmanifest"; "styles.css";
    "fonts/plex.css"; "fonts/ibm-plex-sans-var.woff2"; "fonts/ibm-plex-mono-400.woff2";
    "fonts/ibm-plex-mono-500.woff2"; "fonts/ibm-plex-mono-600.woff2";
    "fonts/ibm-plex-mono-700.woff2";
    "data.jsx"; "api.jsx"; "icons.jsx"; "components.jsx"; "screens.jsx"; "layout.jsx";
    "screens2.jsx"; "screens3.jsx"; "screens4.jsx"; "screens5.jsx"; "screens6.jsx";
    "screens7.jsx"; "screens8.jsx"; "screens-panel.jsx"; "screens-rackwire.jsx";
    "screens-prov.jsx"; "app.jsx";
    "vendor/react.production.min.js"; "vendor/react-dom.production.min.js";
    "vendor/babel.min.js";
    "icons/icon-192.png"; "icons/icon-512.png"; "icons/icon-maskable-512.png" ]%string.

(** ** The worker *)

Section Worker.

(** [self.location.origin] and the directory of the worker's scope. *)
Context (origin scope : string).

(** A relative asset path resolved against the scope. *)
Definition resolve (a : string) : url :=
  match split_char "?" a with
  | p :: q :: _ => Url origin (scope +:+ (if String.eqb p "./" then "" else p)) ("?" +:+ q)
  | p :: [] => Url origin (scope +:+ (if String.eqb p "./" then "" else p)) ""
  | [] => Url origin scope ""
  end.

(** A queued offline copy: the request's URL and the cloned response. *)
Record job := Job { j_url : url; j_resp : resp }.

Record sw := Sw {
  sw_caches : storage;
  sw_queue : list job;      (** jobs that have not started, oldest first *)
  sw_running : option job;  (** the started job: its delete is done, its put is not *)
}.

Definition with_shell (f : cache -> cache) (s : sw) : sw :=
  Sw (set_cache SHELL_CACHE (f (open_cache SHELL_CACHE (sw_caches s))) (sw_caches s))
     (sw_queue s) (sw_running s).

(** *** install *)

(** One [cache.add] of the precache that settles: [None] when the fetch or the
    store is rejected (the handler only logs), else the stored response. *)
Definition precache_one (a : string) (o : option resp) (s : sw) : sw :=
  match o with
  | Some r => if r_ok r then with_shell (cache_put (resolve a) r) s else s
  | None => s
  end.

(** The whole install event, the adds settling in the given order. *)
Definition install (settled : list (string * option resp)) (s : sw) : sw :=
  fold_left (fun acc ao => precache_one ao.1 ao.2 acc) settled s.

(** *** activate *)

Definition keep_cache (k : string) : bool :=
  starts_with CACHE_VERSION k || String.eqb k TRANSFORM_CACHE.

(** [deleted k] says whether [caches.delete(k)] succeeds. *)
Definition activate (deleted : string -> bool) (s : sw) : sw :=
  Sw (filter (fun kc => keep_cache kc.1 = true ∨ deleted kc.1 = false) (sw_caches s))
     (sw_queue s) (sw_running s).

(** *** fetch *)

Inductive route := Passthrough | NetworkOnly | NetworkFirst.

Definition fetch_route (req : request) : route :=
  if negb (String.eqb (rq_method req) "GET") then Passthrough
  else if negb (String.eqb (u_origin (rq_url req)) origin) then Passthrough
  else if starts_with "/api/stream" (u_path (rq_url req)) then Passthrough
  else if starts_with "/api/" (u_path (rq_url req))
          || String.eqb (u_path (rq_url req)) "/release.txt" then NetworkOnly
  else NetworkFirst.

(** The init option the worker passes to [fetch]: a navigation keeps its mode. *)
Definition fetchFresh_no_store (req : request) : bool :=
  negb (String.eqb (rq_mode req) "navigate").

Definition offline_reply : resp :=
  Resp 503 "default"
    (json_str (VObj [("ok", VBool false);
       ("error", VObj [("code", VStr "OFFLINE");
                       ("message", VStr "no network and no cached response")])])).

(** [networkFirst] when the network answered. *)
Definition nf_online (req : request) (r : resp) (s : sw) : sw * option resp :=
  if r_ok r && String.eqb (r_type r) "basic"
  then (Sw (sw_caches s) (sw_queue s ++ [Job (rq_url req) r]) (sw_running s), Some r)
  else (s, Some r).

(** [networkFirst] when the fetch was rejected. *)
Definition nf_offline (req : request) (s : sw) : option resp :=
  match cache_match_path (rq_url req) (open_cache SHELL_CACHE (sw_caches s)) with
  | Some hit => Some hit
  | None =>
      if String.eqb (rq_mode req) "navigate"
      then caches_match (resolve "index.html") (sw_caches s)
      else Some offline_reply
  end.

(** The fetch event, [net] being what the network answers ([None]: rejected). *)
Definition sw_fetch (req : request) (net : option resp) (s : sw) : sw * option resp :=
  match fetch_route req with
  | Passthrough | NetworkOnly => (s, net)
  | NetworkFirst =>
      match net with
      | Some r => nf_online req r s
      | None => (s, nf_offline req s)
      end
  end.

(** *** refreshQueue *)

(** The [delete] of the oldest job settles: on success its [put] is started,
    a rejection only logs and the next job follows. *)
Definition queue_delete (ok : bool) (s : sw) : sw :=
  match sw_running s, sw_queue s with
  | None, j :: q =>
      if ok then
        let s' := with_shell (cache_delete_path (j_url j)) s in
        Sw (sw_caches s') q (Some j)
      else Sw (sw_caches s) q None
  | _, _ => s
  end.

(** The [put] of the started job settles. *)
Definition queue_put (ok : bool) (s : sw) : sw :=
  match sw_running s with
  | Some j =>
      let s' := if ok then with_shell (cache_put (j_url j) (j_resp j)) s else s in
      Sw (sw_caches s') (sw_queue s') None
  | None => s
  end.

(** ** The transition system *)

Inductive event :=
  | EFetch (req : request) (net : option resp)
  | EDelete (ok : bool)
  | EPut (ok : bool)
  | EActivate (deleted : string -> bool).

Definition step (e : event) (s : sw) : sw :=
  match e with
  | EFetch req net => (sw_fetch req net s).1
  | EDelete ok => queue_delete ok s
  | EPut ok => queue_put ok s
  | EActivate d => activate d s
  end.

Definition run (es : list event) (s : sw) : sw := fold_left (fun a e => step e a) es s.

(** Run every queued job to its end, each operation succeeding. *)
Definition drain (s : sw) : sw :=
  run (EPut true :: flat_map (fun _ => [EDelete true; EPut true]) (sw_queue s)) s.

(** ** Lemmas *)

Definition shell (s : sw) : cache := open_cache SHELL_CACHE (sw_caches s).

Definition keys (c : cache) : list (string * string) := map (fun e => path_key e.1) c.

(** One copy per path: no two entries differ only in the query string. *)
Definition one_copy (c : cache) : Prop := NoDup (keys c).

(** The queue's invariant: while a [put] is outstanding its path is vacant. *)
Definition inv (s : sw) : Prop :=
  one_copy (shell s) ∧
  forall j, sw_running s = Some j -> path_key (j_url j) ∉ keys (shell s).

Lemma shell_with_shell f s : shell (with_shell f s) = f (shell s).
Proof. unfold shell, open_cache, with_shell, set_cache. cbn. by rewrite assoc_set_same. Qed.

Lemma keys_filter (P : url * resp -> Prop) `{forall e, Decision (P e)} c k :
  k ∈ keys (filter P c) -> k ∈ keys c.
Proof.
  unfold keys. rewrite !list_elem_of_fmap.
  intros (e & -> & [_ He]%list_elem_of_filter). eauto.
Qed.

Lemma one_copy_filter (P : url * resp -> Prop) `{forall e, Decision (P e)} c :
  one_copy c -> one_copy (filter P c).
Proof.
  unfold one_copy. induction c as [|e r IH]; [done|].
  cbn [keys map]. intros [Hn Hr]%NoDup_cons.
  rewrite filter_cons. case_decide; [|by apply IH].
  cbn. apply NoDup_cons; split; [|by apply IH]. intros Hin. apply Hn. by eapply keys_filter.
Qed.

Lemma keys_delete_path u c : path_key u ∉ keys (cache_delete_path u c).
Proof.
  unfold keys, cache_delete_path. rewrite list_elem_of_fmap.
  intros (e & He & [Hne _]%list_elem_of_filter). congruence.
Qed.

Lemma filter_vacant u c :
  path_key u ∉ keys c -> filter (fun e : url * resp => e.1 ≠ u) c = c.
Proof.
  induction c as [|e r IH]; [done|]. cbn [keys map]. intros [Hne Hr]%not_elem_of_cons.
  rewrite filter_cons_True by (intros Hc; apply Hne; by rewrite Hc). by rewrite IH.
Qed.

Lemma one_copy_put u r c :
  path_key u ∉ keys c -> one_copy c -> one_copy (cache_put u r c).
Proof.
  intros Hv Hc. unfold cache_put. rewrite (filter_vacant _ _ Hv).
  unfold one_copy, keys. rewrite map_app. apply NoDup_app. split; [done|]. split.
  - intros k Hk [->|[]%not_elem_of_nil]%elem_of_cons. done.
  - apply NoDup_singleton.
Qed.

Lemma match_path_delete u u' c :
  cache_match_path u (cache_delete_path u' c) =
  if decide (path_key u' = path_key u) then None else cache_match_path u c.
Proof.
  unfold cache_delete_path. induction c as [|[k r] t IH]; [by destruct (decide _)|].
  destruct (decide (path_key k = path_key u')) as [E|E].
  - rewrite filter_cons_False by auto. cbn [cache_match_path]. rewrite IH.
    repeat case_decide; congruence.
  - rewrite filter_cons_True by auto. cbn [cache_match_path]. rewrite IH.
    repeat case_decide; congruence.
Qed.

Lemma match_path_app u c d :
  cache_match_path u (c ++ d) =
  match cache_match_path u c with Some r => Some r | None => cache_match_path u d end.
Proof. induction c as [|[k r] t IH]; cbn; [done|]. by case_decide. Qed.

Lemma match_path_vacant u c : path_key u ∉ keys c -> cache_match_path u c = None.
Proof.
  induction c as [|[k r] t IH]; [done|]. cbn. intros [Hne Hr]%not_elem_of_cons.
  rewrite decide_False by congruence. auto.
Qed.

Lemma match_path_ext u u' c : path_key u = path_key u' -> cache_match_path u c = cache_match_path u' c.
Proof. intros E. induction c as [|[k r] t IH]; cbn; [done|]. by rewrite E, IH. Qed.

Lemma match_path_put u u' r c :
  path_key u' ∉ keys c ->
  cache_match_path u (cache_put u' r c) =
  if decide (path_key u' = path_key u) then Some r else cache_match_path u c.
Proof.
  intros Hv. unfold cache_put. rewrite (filter_vacant _ _ Hv), match_path_app. cbn.
  case_decide as E; [|by destruct (cache_match_path u c)].
  rewrite (match_path_ext u u') by done. by rewrite match_path_vacant.
Qed.

Lemma assoc_filter_keep {A} (P : string * A -> Prop) `{forall e, Decision (P e)} k l :
  (forall x, P (k, x)) -> assoc k (filter P l) = assoc k l.
Proof.
  intros HP. induction l as [|[k' x] r IH]; [done|]. rewrite filter_cons.
  case_decide as E; cbn; destruct (String.eqb_spec k k') as [<-|]; auto.
  exfalso. apply E, HP.
Qed.

Lemma shell_activate d s : shell (activate d s) = shell s.
Proof.
  unfold shell, open_cache. f_equal. apply assoc_filter_keep. left. vm_compute. reflexivity.
Qed.

Lemma inv_step e s : inv s -> inv (step e s).
Proof.
  intros [Hc Hr]. destruct e as [req net|ok|ok|d]; cbn.
  - unfold sw_fetch. destruct (fetch_route req); [done..|]. destruct net as [r|]; [|done].
    unfold nf_online. destruct (_ && _); done.
  - unfold queue_delete. destruct (sw_running s) as [j|] eqn:E; [by split; rewrite ?E|].
    destruct (sw_queue s) as [|j q]; [by split; rewrite ?E|].
    destruct ok; [|by split].
    split; change (shell (Sw (sw_caches ?x) _ _)) with (shell x); rewrite shell_with_shell.
    + by apply one_copy_filter.
    + cbn. intros j' [= <-]. apply keys_delete_path.
  - unfold queue_put. destruct (sw_running s) as [j|] eqn:E; [|by split; rewrite ?E].
    split; [|done].
    destruct ok; [|done].
    change (one_copy (shell (with_shell (cache_put (j_url j) (j_resp j)) s))).
    rewrite shell_with_shell. apply one_copy_put; auto.
  - split; rewrite shell_activate; auto.
Qed.

Lemma inv_run es s : inv s -> inv (run es s).
Proof. revert s. induction es as [|e es IH]; cbn; auto using inv_step. Qed.

(** The copy the given jobs leave for a path: the last one that arrived. *)
Definition last_copy (u : url) (js : list job) (old : option resp) : option resp :=
  fold_left (fun acc j => if decide (path_key (j_url j) = path_key u) then Some (j_resp j) else acc)
            js old.

Lemma put_settled j s :
  sw_running s = Some j -> inv s ->
  let s' := queue_put true s in
  sw_running s' = None /\ sw_queue s' = sw_queue s /\ inv s' /\
  forall u, cache_match_path u (shell s') = last_copy u [j] (cache_match_path u (shell s)).
Proof.
  intros E Hi s'. assert (Hi' : inv s') by (apply (inv_step (EPut true)), Hi).
  subst s'. unfold queue_put in *. rewrite E in *.
  repeat split; [apply Hi'|apply Hi'|].
  intros u. change (shell (Sw (sw_caches ?x) _ _)) with (shell x).
  rewrite shell_with_shell, match_path_put; [done|]. by apply Hi.
Qed.

Lemma job_settled j q s :
  sw_running s = None -> sw_queue s = j :: q -> inv s ->
  let s' := queue_put true (queue_delete true s) in
  sw_running s' = None /\ sw_queue s' = q /\ inv s' /\
  forall u, cache_match_path u (shell s') = last_copy u [j] (cache_match_path u (shell s)).
Proof.
  intros E Eq Hi. pose proof (inv_step (EDelete true) s Hi) as Hi'. cbn in Hi'.
  assert (Er : sw_running (queue_delete true s) = Some j) by (unfold queue_delete; by rewrite E, Eq).
  destruct (put_settled j _ Er Hi') as (H1 & H2 & H3 & H4).
  split; [done|]. split; [|split; [done|]].
  { rewrite H2. unfold queue_delete. by rewrite E, Eq. }
  intros u. rewrite H4. unfold queue_delete. rewrite E, Eq.
  change (shell (Sw (sw_caches ?x) _ _)) with (shell x).
  rewrite shell_with_shell, match_path_delete. cbn. by case_decide.
Qed.

Lemma queue_settled q s :
  sw_running s = None -> sw_queue s = q -> inv s ->
  let s' := run (flat_map (fun _ => [EDelete true; EPut true]) q) s in
  sw_running s' = None /\ sw_queue s' = [] /\
  forall u, cache_match_path u (shell s') = last_copy u q (cache_match_path u (shell s)).
Proof.
  revert s. induction q as [|j q IH]; intros s E Eq Hi; [done|].
  destruct (job_settled j q s E Eq Hi) as (H1 & H2 & H3 & H4).
  destruct (IH _ H1 H2 H3) as (I1 & I2 & I3). cbn. split; [done|]. split; [done|].
  intros u. cbn in I3. rewrite I3, H4. done.
Qed.

(** *** Install *)

(** The path of an asset below the scope. *)
Definition asset_path (a : string) : string :=
  match split_char "?" a with
  | p :: _ => if String.eqb p "./" then "" else p
  | [] => ""
  end.

Lemma path_key_resolve a : path_key (resolve a) = (origin, scope +:+ asset_path a).
Proof.
  unfold resolve, asset_path. destruct (split_char "?" a) as [|p [|q t]] eqn:E; try done.
  exfalso. destruct a as [|c r]; [discriminate|]. cbn in E.
  destruct (split_char "?" r) eqn:E2; [|by destruct (_ =? _)%char].
  clear -E2. induction r as [|c' r IH]; [discriminate|]. cbn in E2.
  destruct (split_char "?" r); [by apply IH|by destruct (_ =? _)%char].
Qed.

Lemma install_inv settled s :
  NoDup (map (fun ao => path_key (resolve ao.1)) settled) ->
  Forall (fun ao => path_key (resolve ao.1) ∉ keys (shell s)) settled ->
  sw_running s = None -> inv s -> inv (install settled s).
Proof.
  revert s. induction settled as [|[a o] t IH]; cbn; intros s Hnd Hf Hr Hi; [done|].
  apply NoDup_cons in Hnd as [Hn Hnd]. apply Forall_cons in Hf as [Hv Hf]. cbn in *.
  unfold precache_one. destruct o as [r|]; [|by apply IH].
  destruct (r_ok r); [|by apply IH].
  apply IH; [done| |done|].
  - apply Forall_forall. intros [b o'] Hin. rewrite shell_with_shell.
    unfold cache_put, keys. rewrite map_app, elem_of_app. cbn [fst map].
    intros [Hk%keys_filter|Hk%list_elem_of_singleton].
    + rewrite Forall_forall in Hf. by apply (Hf _ Hin).
    + apply Hn. rewrite <- Hk. apply list_elem_of_fmap. by exists (b, o').
  - split; [|by cbn; rewrite Hr]. rewrite shell_with_shell. apply one_copy_put; [done|]. apply Hi.
Qed.

Lemma assets_nodup : NoDup (map (fun a => path_key (resolve a)) SHELL_ASSETS).
Proof.
  assert (E : map (fun a => path_key (resolve a)) SHELL_ASSETS =
              map (fun p => (origin, scope +:+ p)) (map asset_path SHELL_ASSETS)).
  { rewrite map_map. apply map_ext. intros a. apply path_key_resolve. }
  rewrite E. apply NoDup_fmap_2.
  - intros p q [= H]. by apply (inj (String.append scope)) in H.
  - apply NoDup_ListNoDup. vm_compute. repeat (constructor; [cbn; intuition discriminate|]). constructor.
Qed.

(** The state of a fresh worker: nothing cached, nothing queued. *)
Definition fresh : sw := Sw [] [] None.

Lemma installed_inv settled : map fst settled ≡ₚ SHELL_ASSETS -> inv (install settled fresh).
Proof.
  intros Hp. apply install_inv; [|apply Forall_true; cbn; intros ? ?%not_elem_of_nil; done|done|].
  - rewrite <- (map_map fst (fun a => path_key (resolve a))).
    eapply NoDup_Permutation_proper; [by rewrite Hp|apply assets_nodup].
  - split; [constructor|done].
Qed.

(** *** What the queue promises *)

Lemma install_queue settled : sw_running (install settled fresh) = None /\ sw_queue (install settled fresh) = [].
Proof.
  unfold install. assert (H : sw_running fresh = None /\ sw_queue fresh = []) by done. revert H. generalize fresh.
  induction settled as [|[a o] t IH]; intros s H; [done|]. cbn [fold_left]. apply IH.
  unfold precache_one. cbn. destruct o as [r|]; [by destruct (r_ok r)|done].
Qed.

(** The event delivers a response that may be shown offline for the path of [u]. *)
Definition good_response (u : url) (e : event) : option resp :=
  match e with
  | EFetch req (Some r) =>
      if String.eqb (rq_method req) "GET" && String.eqb (u_origin (rq_url req)) origin
         && negb (starts_with "/api/" (u_path (rq_url req))) && negb (String.eqb (u_path (rq_url req)) "/release.txt")
         && r_ok r && String.eqb (r_type r) "basic" && bool_decide (path_key (rq_url req) = path_key u)
      then Some r else None
  | _ => None
  end.

Definition last_good (u : url) (es : list event) (old : option resp) : option resp :=
  fold_left (fun acc e => match good_response u e with Some r => Some r | None => acc end) es old.

Definition operations_succeed (e : event) : Prop :=
  match e with EDelete ok | EPut ok => ok = true | _ => True end.

(** The jobs under way, oldest first, and the copy they will leave. *)
Definition under_way (s : sw) : list job := option_list (sw_running s) ++ sw_queue s.

Definition promised (s : sw) (u : url) : option resp :=
  last_copy u (under_way s) (cache_match_path u (shell s)).

Lemma stream_is_api p : starts_with "/api/stream" p = true -> starts_with "/api/" p = true.
Proof.
  assert (H : forall a b s, starts_with (a +:+ b) s = true -> starts_with a s = true).
  { induction a as [|c a IH]; intros b s; [done|]. destruct s as [|d s]; [done|].
    change (starts_with (String c a +:+ b) (String d s)) with ((c =? d)%char && starts_with (a +:+ b) s).
    cbn [starts_with]. destruct (c =? d)%char; [apply IH|done]. }
  exact (H "/api/" "stream" p).
Qed.

(** A fetch changes nothing but the queue: it appends the response when it is good. *)
Lemma fetch_enqueues req net s :
  let s' := (sw_fetch req net s).1 in
  sw_caches s' = sw_caches s /\ sw_running s' = sw_running s /\
  exists js, sw_queue s' = sw_queue s ++ js /\
    (forall u old, last_copy u js old = match good_response u (EFetch req net) with Some r => Some r | None => old end) /\
    (forall j, j ∈ js -> good_response (j_url j) (EFetch req net) = Some (j_resp j)).
Proof.
  assert (Hnone : (forall u, good_response u (EFetch req net) = None) ->
    sw_caches s = sw_caches s /\ sw_running s = sw_running s /\
    exists js, sw_queue s = sw_queue s ++ js /\
      (forall u old, last_copy u js old = match good_response u (EFetch req net) with Some r => Some r | None => old end) /\
      (forall j, j ∈ js -> good_response (j_url j) (EFetch req net) = Some (j_resp j))).
  { intros H. split; [done|]. split; [done|]. exists []. rewrite app_nil_r. split; [done|].
    split; [intros u old; by rewrite H|]. by intros j Hj%not_elem_of_nil. }
  cbv zeta. unfold sw_fetch, fetch_route. destruct net as [r|]; [|by repeat case_match; apply Hnone].
  unfold good_response in *.
  destruct (String.eqb (rq_method req) "GET"); cbn [negb andb] in *; [|by apply Hnone].
  destruct (String.eqb (u_origin (rq_url req)) origin); cbn [negb andb] in *; [|by apply Hnone].
  destruct (starts_with "/api/stream" _) eqn:Es; [rewrite (stream_is_api _ Es) in *; by apply Hnone|].
  destruct (starts_with "/api/" _); cbn [orb negb andb] in *; [by apply Hnone|].
  destruct (String.eqb _ "/release.txt"); cbn [orb negb andb] in *; [by apply Hnone|].
  unfold nf_online. destruct (r_ok r && String.eqb (r_type r) "basic"); cbn [andb] in *; [|by apply Hnone].
  split; [done|]. split; [done|]. exists [Job (rq_url req) r]. split; [done|]. split.
  - intros u old. cbn. case_decide as E; [by rewrite bool_decide_true|by rewrite bool_decide_false].
  - intros j ->%list_elem_of_singleton. cbn. by rewrite bool_decide_true.
Qed.

Lemma promised_step e s u : inv s -> operations_succeed e ->
  promised (step e s) u = match good_response u e with Some r => Some r | None => promised s u end.
Proof.
  intros Hi He. destruct e as [req net|ok|ok|d]; cbn [step good_response]; [| | |].
  - destruct (fetch_enqueues req net s) as (H1 & H2 & js & H3 & H4 & _). unfold promised, under_way, shell.
    rewrite H1, H2, H3, app_assoc. unfold last_copy at 1. rewrite fold_left_app. fold (last_copy u).
    apply H4.
  - cbn in He. subst ok. unfold promised, under_way, queue_delete. destruct (sw_running s) as [j|] eqn:E; [by rewrite E|].
    destruct (sw_queue s) as [|j q] eqn:Eq; [by rewrite E, Eq|]. cbn [option_list app sw_running sw_queue].
    change (shell (Sw (sw_caches ?x) _ _)) with (shell x). rewrite shell_with_shell, match_path_delete.
    unfold last_copy. cbn [option_list from_option id app fold_left]. cbn. by case_decide.
  - cbn in He. subst ok. unfold promised, under_way. destruct (sw_running s) as [j|] eqn:E.
    + destruct (put_settled j s E Hi) as (-> & -> & _ & H). cbn [option_list app]. rewrite H. done.
    + unfold queue_put. rewrite E. cbn. by rewrite E.
  - unfold promised, under_way. by rewrite shell_activate.
Qed.

Lemma promised_run es s u : inv s -> Forall operations_succeed es ->
  promised (run es s) u = last_good u es (promised s u).
Proof.
  intros Hi Hes. revert s Hi. induction Hes as [|e es He Hes IH]; intros s Hi; [done|].
  cbn [run fold_left]. fold (run es (step e s)). rewrite IH by (by apply inv_step). unfold last_good at 2. cbn [fold_left].
  fold (last_good u es). by rewrite promised_step.
Qed.

Lemma drain_applies s : inv s -> sw_queue (drain s) = [] /\ forall u, cache_match_path u (shell (drain s)) = promised s u.
Proof.
  intros Hi. unfold drain. cbn. unfold promised, under_way. destruct (sw_running s) as [j|] eqn:E.
  - destruct (put_settled j s E Hi) as (H1 & H2 & H3 & H4).
    destruct (queue_settled (sw_queue s) (queue_put true s) H1 H2 H3) as (_ & Q1 & Q2).
    split; [done|]. intros u. rewrite Q2, H4. done.
  - assert (E' : queue_put true s = s) by (unfold queue_put; by rewrite E). rewrite E'.
    destruct (queue_settled (sw_queue s) s E eq_refl Hi) as (_ & Q1 & Q2). split; [done|]. apply Q2.
Qed.

(** Every copy of the path of [u], stored or on its way, has the property. *)
Definition offered (u : url) (P : resp -> Prop) (s : sw) : Prop :=
  (forall r, cache_match_path u (shell s) = Some r -> P r) /\
  Forall (fun j => path_key (j_url j) = path_key u -> P (j_resp j)) (under_way s).

Lemma offered_step e s u P : inv s -> (forall r, good_response u e = Some r -> P r) -> offered u P s -> offered u P (step e s).
Proof.
  intros Hi Hg [H1 H2]. unfold under_way in H2. destruct e as [req net|ok|ok|d]; cbn [step].
  - destruct (fetch_enqueues req net s) as (E1 & E2 & js & E3 & _ & E4). split; [unfold shell; by rewrite E1|].
    unfold under_way. rewrite E2, E3, app_assoc. apply Forall_app. split; [done|]. apply Forall_forall. intros j Hj Hk.
    apply Hg. apply E4 in Hj. cbn in Hj |- *. destruct net; [|done]. by rewrite <- Hk.
  - unfold queue_delete. destruct (sw_running s) as [j|] eqn:E; [by split; unfold under_way; rewrite ?E|].
    destruct (sw_queue s) as [|j q] eqn:Eq; [by split; unfold under_way; rewrite ?E, ?Eq|]. cbn [option_list app] in H2.
    destruct ok; [|split; [done|]; by apply Forall_cons in H2 as [_ ?]].
    split; [|done]. change (shell (Sw (sw_caches ?x) _ _)) with (shell x). rewrite shell_with_shell, match_path_delete.
    intros r. case_decide; [done|auto].
  - unfold queue_put. destruct (sw_running s) as [j|] eqn:E; [|by split; unfold under_way; rewrite ?E].
    cbn [option_list app] in H2. apply Forall_cons in H2 as [Hj Hq]. destruct ok; [|done]. split; [|done].
    change (shell (Sw (sw_caches ?x) _ _)) with (shell x). rewrite shell_with_shell, match_path_put by (by apply Hi).
    intros r. case_decide as Ek; [intros [= <-]; auto|auto].
  - split; [by rewrite shell_activate|done].
Qed.

Lemma offered_run es s u P :
  inv s -> (forall e r, e ∈ es -> good_response u e = Some r -> P r) -> offered u P s -> offered u P (run es s).
Proof.
  revert s. induction es as [|e es IH]; intros s Hi Hg H; [done|]. cbn [run fold_left]. fold (run es (step e s)).
  apply IH; [by apply inv_step|intros e' r He'; apply Hg; by right|]. apply offered_step; [done| |done].
  intros r. apply Hg. left.
Qed.

(** ** Properties *)

(** C20: API reads, the release probe, mutations, cross-origin requests and the
    event stream never touch CacheStorage in either direction: the page gets
    exactly what the network answered (a failure included), and the worker's
    caches and its queue are unchanged. *)
Theorem session_data_never_cached (req : request) (net : option resp) (s : sw) :
  rq_method req ≠ "GET" \/ u_origin (rq_url req) ≠ origin \/
  starts_with "/api/" (u_path (rq_url req)) = true \/ u_path (rq_url req) = "/release.txt" ->
  sw_fetch req net s = (s, net).
Proof.
  intros H. unfold sw_fetch, fetch_route.
  destruct (String.eqb_spec (rq_method req) "GET"); cbn [negb]; [|done].
  destruct (String.eqb_spec (u_origin (rq_url req)) origin); cbn [negb]; [|done].
  destruct (starts_with "/api/stream" _); [done|].
  by destruct H as [H | [H | [-> | ->]]].
Qed.

(** A deploy cannot be masked by a cached copy.  Whenever the network
    answers, the page receives that answer whatever the caches hold, and the
    caches themselves are not yet modified when the answer is handed over. *)
Theorem network_answer_wins (req : request) (r : resp) (s : sw) :
  (sw_fetch req (Some r) s).2 = Some r /\
  sw_caches (sw_fetch req (Some r) s).1 = sw_caches s.
Proof.
  unfold sw_fetch. destruct (fetch_route req); [done..|]. unfold nf_online.
  by destruct (_ && _).
Qed.

(** C1: The shell cache never holds two copies of one path, from the install
    (whatever order its adds settle in and whichever of them fail) through any
    interleaving of fetches, queue operations that succeed or fail, and
    activations; the offline lookup that ignores the query string is therefore
    unambiguous. *)
Theorem shell_one_copy_per_path (settled : list (string * option resp)) (es : list event) :
  map fst settled ≡ₚ SHELL_ASSETS ->
  one_copy (shell (run es (install settled fresh))).
Proof. intros Hp. apply inv_run, installed_inv, Hp. Qed.

(** C19: the offline copy of a path is the newest good response.  From the install
    on, whatever fetches, refreshes and activations interleave, as long as no
    cache operation of a refresh fails, the copy a path has once the queue has
    drained is the last response that a same-origin GET outside [/api/] and
    [/release.txt] received for it with a success status and type basic, or the
    precached one when there was none: an error, an opaque or an API response is
    never stored and an older response never replaces a newer one.  When cache
    operations do fail, a copy may be missing or older, but whatever is found is
    still the precached copy or such a response. *)
Theorem offline_copy_is_latest settled es (u : url) :
  map fst settled ≡ₚ SHELL_ASSETS ->
  let s0 := install settled fresh in
  (Forall operations_succeed es ->
     sw_queue (drain (run es s0)) = [] /\
     cache_match_path u (shell (drain (run es s0))) = last_good u es (cache_match_path u (shell s0))) /\
  (forall r, cache_match_path u (shell (run es s0)) = Some r ->
     cache_match_path u (shell s0) = Some r \/ exists e, e ∈ es /\ good_response u e = Some r).
Proof.
  intros Hp s0. pose proof (installed_inv settled Hp) as Hi0. fold s0 in Hi0.
  assert (Hq : sw_running s0 = None /\ sw_queue s0 = []) by apply install_queue.
  split.
  - intros Hes. destruct (drain_applies (run es s0) (inv_run es _ Hi0)) as [H1 H2]. split; [done|].
    rewrite H2, (promised_run es s0 u Hi0 Hes). unfold promised, under_way. destruct Hq as [-> ->]. done.
  - refine (proj1 (offered_run es s0 u _ Hi0 _ _)); [by eauto|]. split; [by left|].
    unfold under_way. destruct Hq as [-> ->]. by constructor.
Qed.

(** Activation drops exactly the caches of other versions (those whose
    deletion succeeds) and leaves this version's shell and the compiled-JSX
    cache as they are. *)
Theorem activate_keeps_current (deleted : string -> bool) (s : sw) (k : string) (c : cache) :
  (k, c) ∈ sw_caches (activate deleted s) <->
  (k, c) ∈ sw_caches s /\
  (starts_with CACHE_VERSION k = true \/ k = TRANSFORM_CACHE \/ deleted k = false).
Proof.
  unfold activate. cbn. rewrite list_elem_of_filter. unfold keep_cache. cbn [fst].
  rewrite orb_true_iff, String.eqb_eq. tauto.
Qed.

End Worker.

(** ** Witnesses *)

Module Demo.

Definition host : string := "https://c2.lan".

(** An install in which every add succeeds, except the Babel bundle. *)
Definition settled : list (string * option resp) :=
  map (fun a => (a, if String.eqb a "vendor/babel.min.js" then None
                    else Some (Resp 200 "basic" ("v1 of " +:+ a)))) SHELL_ASSETS.

Definition app (q : string) : request := Req "GET" (Url host "/app.jsx" q) "cors".
Definition v (n : string) : resp := Resp 200 "basic" n.

(** Two deploys and an error arrive before the queue moves, then the first refresh starts. *)
Definition trace : list event :=
  [EFetch (app "?v=2") (Some (v "v2")); EFetch (app "?v=3") (Some (v "v3"));
   EFetch (app "?v=4") (Some (Resp 500 "basic" "oops")); EDelete true].

End Demo.

Lemma session_data_never_cached_witness :
  sw_fetch Demo.host "/" (Req "GET" (Url Demo.host "/api/nodes" "") "cors") None fresh
  = (fresh, None).
Proof. apply session_data_never_cached. right; right; left. reflexivity. Defined.

Lemma shell_one_copy_per_path_witness :
  one_copy (shell (run Demo.host "/" Demo.trace (install Demo.host "/" Demo.settled fresh))).
Proof. apply shell_one_copy_per_path. reflexivity. Defined.

Lemma offline_copy_is_latest_witness :
  let s := run Demo.host "/" Demo.trace (install Demo.host "/" Demo.settled fresh) in
  cache_match_path (rq_url (Demo.app "?v=9")) (shell (drain Demo.host "/" s)) = Some (Demo.v "v3").
Proof.
  intros s.
  destruct (offline_copy_is_latest Demo.host "/" Demo.settled Demo.trace
              (rq_url (Demo.app "?v=9")) (reflexivity _)) as [H _].
  destruct H as [_ H]; [by repeat constructor|]. subst s. rewrite H. vm_compute. reflexivity.
Defined.
