(* ===== verification/ApiClient.v ===== *)
(** * The API client core (dashboard/public/api.jsx, lines 22-231 and 389-394)

    Where the API lives, the conversions of wire scalars, the request and
    response paths of [getJSON] (write gate, CSRF header, envelope), and the
    independent degradation of optional reads ([getOptionalJSON]).

    [client] is the adapter's mutable state: the CSRF token, [window.SOLARI],
    and the inventory snapshot a successful inventory write invalidates.  A
    promise chain is split where it suspends: [getJSON_request] is what runs up
    to [fetch], [getJSON_settle] what runs when the response arrives. *)

From Stdlib Require Import ZArith Lia Ascii.
From Corelib Require Import SpecFloat.
From stdpp Require Import strings pretty list.
From S2P Require Import Prelude JsNum JsValue.

Local Open Scope string_scope.
Local Open Scope list_scope.

(** The clock and the date parser of the host: [Date.now()] and [Date.parse]. *)
Record host := Host { h_now : num; h_parse : string -> num }.

(** ** Location of the API *)

(** [s.replace(/\/+$/, "")]. *)
Fixpoint strip_slashes (s : string) : string :=
  match s with
  | EmptyString => EmptyString
  | String c r =>
      let t := strip_slashes r in
      if Ascii.eqb c "/" && String.eqb t "" then "" else String c t
  end.

(** [meta] is the content of the meta element, if there is one. *)
Definition apiBase (meta : option string) (global : value) : string :=
  match meta with
  | Some (String c r) => strip_slashes (String c r)
  | _ => if truthy global then strip_slashes (vstr global) else "/api"
  end.

Definition modeHint (meta : option string) (offline : value) : string :=
  match meta with
  | Some (String c r) => toLowerCase (trim (String c r))
  | _ => match offline with
         | VBool true => "offline"
         | VBool false => "live"
         | _ => "auto"
         end
  end.

(** ** Wire scalars *)

Definition since (h : host) (unit : Z) (iso : value) : value :=
  if truthy iso then
    let t := h_parse h (vstr iso) in
    if is_nan t then VNull
    else VNum (nmax n0 (nround (ndiv (nsub (h_now h) t) (ofZ unit))))
  else VNull.

Definition minsSince (h : host) (iso : value) : value := since h 60000 iso.
Definition secsSince (h : host) (iso : value) : value := since h 1000 iso.

Definition daysSince (h : host) (iso : value) : value :=
  let m := minsSince h iso in
  if nullish m then VNull else VNum (nfloor (ndiv (vnum m) (ofZ 1440))).

Definition pct (used total : value) : num :=
  if truthy total
  then nround (nmul (ndiv (vnum used) (vnum total)) (ofZ 100))
  else n0.

Definition milliToPct (milli : value) : num :=
  if nullish milli then n0
  else nmax n0 (nmin (ofZ 100) (nround (ndiv (vnum milli) (ofZ 10)))).

(** ** Errors *)

(** [ApiError(code, message)]. *)
Definition ApiError (code : value) (message : value) : jserr :=
  JsErr (v_or code (VStr "ERR")) (vstr (v_or message (VStr "api error"))) true.

(** ** Adapter state *)

(** The cached inventory snapshot, its time, the load in flight (a promise
    number) and the generation an invalidation advances. *)
Record snapshot := Snap {
  sn_value : option value;
  sn_at : num;
  sn_load : option nat;
  sn_gen : nat;
}.

Definition invalidateInventorySnapshot (s : snapshot) : snapshot :=
  Snap None n0 None (S (sn_gen s)).

Record client := Client { csrf : value; solari : value; inv : snapshot }.

(** ** Endpoints named by the gate *)

Definition EP_login : string := "/api/auth/login".
Definition EP_logout : string := "/api/auth/logout".

(** ** The envelope *)

(** ["ok" in json]: a primitive operand is a TypeError. *)
Definition ok_in (j : value) : res bool :=
  if is_obj j then Ok (has_key j "ok") else Throw TypeError.

(** The token the envelope carries replaces the cached one. *)
Definition capture_csrf (data : value) (c : client) : client :=
  if truthy data && is_obj data && truthy (fld data "csrfToken")
  then Client (fld data "csrfToken") (solari c) (inv c) else c.

Definition unwrap (json : value) (c : client) : client * res value :=
  if truthy json && is_obj json && has_key json "ok" then
    match fld json "ok" with
    | VBool false =>
        let err := v_or (fld json "error") (VObj []) in
        (c, Throw (ApiError (fld err "code") (fld err "message")))
    | _ => (capture_csrf (fld json "data") c, Ok (fld json "data"))
    end
  else (c, Ok json).

(** ** getJSON *)

(** The [opts] argument: [body] is the JSON body, [undefined] when absent. *)
Record opts := Opts {
  o_method : string;                    (** the empty string when absent *)
  o_body : value;
  o_headers : list (string * string);
}.

Record wire := Wire {
  w_method : string;
  w_url : string;
  w_headers : list (string * string);
  w_body : option string;
}.

Definition method_of (o : opts) : string :=
  if String.eqb (o_method o) "" then "GET" else o_method o.

Definition isWrite (o : opts) : bool :=
  negb (String.eqb (method_of o) "GET") && negb (String.eqb (method_of o) "HEAD").

(** [window.SOLARI && window.SOLARI.source !== "live"]. *)
Definition not_live (s : value) : bool :=
  truthy s && negb (match fld s "source" with VStr x => String.eqb x "live" | _ => false end).

Definition data_stale : jserr :=
  ApiError (VStr "DATA_STALE") (VStr "Live data is unavailable; actions are paused.").

(** [Object.assign] of header objects. *)
Definition assign_headers (a b : list (string * string)) : list (string * string) :=
  fold_left (fun acc kv => assoc_set kv.1 kv.2 acc) b a.

Definition getJSON_request (base path : string) (o : opts) (c : client) : res wire :=
  let u := if starts_with "/api" path then path else base +:+ path in
  if isWrite o && negb (String.eqb path EP_login) && negb (String.eqb path EP_logout)
     && not_live (solari c)
  then Throw data_stale
  else Ok (Wire (method_of o) u
    (assign_headers
       (assign_headers
          (assign_headers [("Accept", "application/json")]
             (if truthy (o_body o) then [("Content-Type", "application/json")] else []))
          (o_headers o))
       (if isWrite o && truthy (csrf c) then [("X-Solari-CSRF", vstr (csrf c))] else []))
    (if truthy (o_body o) then Some (json_str (o_body o)) else None)).

(** A response: its status and its body, [None] when it is not JSON. *)
Record http := Http { hr_status : Z; hr_json : option value }.

Definition hr_ok (r : http) : bool := (200 <=? hr_status r)%Z && (hr_status r <=? 299)%Z.

Definition bad_json (r : http) : jserr :=
  ApiError (VStr "BAD_JSON")
           (VStr ("HTTP " +:+ pretty (hr_status r) +:+ " — non-JSON response")).

Definition http_error (r : http) : jserr :=
  let s := pretty (hr_status r) in ApiError (VStr ("HTTP_" +:+ s)) (VStr ("HTTP " +:+ s)).

(** [!r.ok && !(j && "ok" in j)]. *)
Definition bare_failure (r : http) (j : value) : res bool :=
  if hr_ok r then Ok false
  else if truthy j then bind (ok_in j) (fun b => Ok (negb b)) else Ok true.

Definition getJSON_settle (path : string) (o : opts) (r : http) (c : client)
    : client * res value :=
  match hr_json r with
  | None => (c, Throw (bad_json r))
  | Some j =>
      match bare_failure r j with
      | Throw e => (c, Throw e)
      | Ok true => (c, Throw (http_error r))
      | Ok false =>
          match unwrap j c with
          | (c', Ok v) =>
              if isWrite o && starts_with "/api/inventory/" path
              then (Client (csrf c') (solari c') (invalidateInventorySnapshot (inv c')), Ok v)
              else (c', Ok v)
          | (c', Throw e) => (c', Throw e)
          end
      end
  end.

(** [post(path, body, headers)]. *)
Definition post_opts (body : value) (headers : list (string * string)) : opts :=
  Opts "POST" (v_or body (VObj [])) headers.

(** ** getOptionalJSON *)

(** The last good payload of a key and when it arrived. *)
Record last := Last { l_value : value; l_at : num }.

Abbreviation optionals := (list (string * last)).

Record freshness := Fresh {
  f_state : string;
  f_lastSuccess : option num;
  f_lastAttempt : num;
}.

(** [lastSuccess || null]: a success at time 0 does not count. *)
Definition remembered (key : string) (m : optionals) : option last :=
  match assoc key m with
  | Some l => if truthy (VNum (l_at l)) then Some l else None
  | None => None
  end.

(** The read settles: [succeededAt] is the clock when it succeeded. *)
Definition getOptionalJSON (key : string) (fallback : value) (attemptedAt succeededAt : num)
    (outcome : res value) (m : optionals) : optionals * (value * freshness) :=
  match outcome with
  | Ok v =>
      (assoc_set key (Last v succeededAt) m,
       (v, Fresh "fresh" (Some succeededAt) attemptedAt))
  | Throw _ =>
      match remembered key m with
      | Some l => (m, (l_value l, Fresh "stale" (Some (l_at l)) attemptedAt))
      | None => (m, (fallback, Fresh "unknown" None attemptedAt))
      end
  end.

(** A session's reads of optional endpoints, in the order they settle. *)
Record attempt := Attempt {
  at_key : string; at_fallback : value; at_started : num; at_done : num; at_outcome : res value }.

Definition settle_optional (m : optionals) (a : attempt) : optionals :=
  (getOptionalJSON (at_key a) (at_fallback a) (at_started a) (at_done a) (at_outcome a) m).1.

Definition optional_run (l : list attempt) : optionals := fold_left settle_optional l [].

(** ** Lemmas *)

Lemma assign_headers_other (a b : list (string * string)) k :
  assoc k b = None -> assoc k (assign_headers a b) = assoc k a.
Proof.
  unfold assign_headers. revert a. induction b as [|[k' x] r IH]; cbn; intros a Hb; [done|].
  destruct (String.eqb_spec k k'); [done|].
  rewrite IH by done. by apply assoc_set_other.
Qed.

Lemma assign_headers_last (a : list (string * string)) k x :
  assoc k (assign_headers a [(k, x)]) = Some x.
Proof. cbn. apply assoc_set_same. Qed.

Lemma getJSON_request_ok base path o c w :
  getJSON_request base path o c = Ok w ->
  (isWrite o = true -> path ≠ EP_login -> path ≠ EP_logout -> not_live (solari c) = false).
Proof.
  unfold getJSON_request. intros H Hw H1%String.eqb_neq H2%String.eqb_neq.
  rewrite Hw, H1, H2 in H. cbn in H. by destruct (not_live (solari c)).
Qed.

Lemma unwrap_inv json c : inv (unwrap json c).1 = inv c.
Proof.
  unfold unwrap. destruct (_ && _); [|done].
  assert (H : forall d, inv (capture_csrf d c) = inv c)
    by (intros d; unfold capture_csrf; by destruct (_ && _)).
  destruct (fld json "ok") as [| |[]| | | |]; cbn; auto.
Qed.

(** The last successful read of a key: its payload and its time. *)
Definition last_good (key : string) (l : list attempt) : option last :=
  fold_left (fun acc a =>
    match at_outcome a with
    | Ok v => if String.eqb key (at_key a) then Some (Last v (at_done a)) else acc
    | Throw _ => acc
    end) l None.

Lemma settle_optional_assoc m a key :
  assoc key (settle_optional m a) =
  match at_outcome a with
  | Ok v => if String.eqb key (at_key a) then Some (Last v (at_done a)) else assoc key m
  | Throw _ => assoc key m
  end.
Proof.
  unfold settle_optional, getOptionalJSON. destruct (at_outcome a) as [v|e]; cbn.
  - destruct (String.eqb_spec key (at_key a)) as [->|Hne]; [apply assoc_set_same|].
    by apply assoc_set_other.
  - by destruct (remembered _ _).
Qed.

Lemma optional_run_assoc key l : assoc key (optional_run l) = last_good key l.
Proof.
  unfold optional_run, last_good. induction l as [|a l IH] using rev_ind; [done|].
  rewrite !fold_left_app. cbn. rewrite settle_optional_assoc, IH. done.
Qed.

Lemma remembered_run key l :
  Forall (fun a => truthy (VNum (at_done a)) = true) l ->
  remembered key (optional_run l) = last_good key l.
Proof.
  intros Hf. unfold remembered. rewrite optional_run_assoc.
  assert (H : forall x, last_good key l = Some x -> truthy (VNum (l_at x)) = true).
  { unfold last_good. induction l as [|a l IH] using rev_ind; [done|].
    apply Forall_app in Hf as [Hf [Ha _]%Forall_cons]. intros x.
    rewrite fold_left_app. cbn. destruct (at_outcome a); [|by apply IH].
    destruct (String.eqb _ _); [|by apply IH]. by intros [= <-]. }
  destruct (last_good key l) as [x|]; [|done]. by rewrite (H x eq_refl).
Qed.

(** ** Properties *)

(** While the dashboard's data is not live [getJSON] refuses every state-changing
    request other than login and logout before anything is sent; a request
    that does go out as a write was issued against live data (or is one of the
    two session calls), and it carries the session's CSRF token whatever
    headers the caller supplied. *)
Theorem getJSON_gate_and_csrf (base path : string) (o : opts) (c : client) :
  isWrite o = true ->
  (not_live (solari c) = true -> path ≠ EP_login -> path ≠ EP_logout ->
   getJSON_request base path o c = Throw data_stale) /\
  (forall w, getJSON_request base path o c = Ok w ->
     (path = EP_login \/ path = EP_logout \/ not_live (solari c) = false) /\
     w_method w = method_of o /\
     (truthy (csrf c) = true -> assoc "X-Solari-CSRF" (w_headers w) = Some (vstr (csrf c)))).
Proof.
  intros Hw. split.
  - intros Hl H1%String.eqb_neq H2%String.eqb_neq. unfold getJSON_request.
    by rewrite Hw, Hl, H1, H2.
  - intros w H. pose proof (getJSON_request_ok _ _ _ _ _ H Hw) as Hl.
    unfold getJSON_request in H. destruct (_ && _); [done|]. injection H as <-. cbn.
    split; [|split; [done|]].
    + destruct (String.eqb_spec path EP_login); [auto|].
      destruct (String.eqb_spec path EP_logout); auto.
    + intros ->. rewrite Hw. cbn. apply assoc_set_same.
Qed.

(** The inventory snapshot is invalidated exactly by a successful write
    below [/api/inventory/]: such a settlement advances the generation, and any
    other settlement (a read, a failed or rejected write, a write elsewhere)
    leaves the snapshot, its load and its generation alone. *)
Theorem inventory_invalidation (path : string) (o : opts) (r : http) (c : client) :
  let '(c', out) := getJSON_settle path o r c in
  match out with
  | Ok _ =>
      if isWrite o && starts_with "/api/inventory/" path
      then inv c' = invalidateInventorySnapshot (inv c) else inv c' = inv c
  | Throw _ => c' = c
  end.
Proof.
  unfold getJSON_settle. destruct (hr_json r) as [j|]; [|done].
  destruct (bare_failure r j) as [[]|]; try done.
  pose proof (unwrap_inv j c) as Hi.
  destruct (unwrap j c) as [c' [v|e]] eqn:E; cbn in Hi.
  - destruct (_ && _); cbn; by rewrite ?Hi.
  - unfold unwrap in E. destruct (_ && _); [|done].
    destruct (fld j "ok") as [| |[]| | | |]; by simplify_eq.
Qed.

(** Optional integrations degrade independently and honestly.  After any
    history of settled reads (at clock values other than 0), a failing read of
    a key reports the last payload that key ever returned, labelled stale with
    its time, and only a key that never succeeded reports the fallback, labelled
    unknown; "fresh" is reported exactly by a read that succeeded. *)
Theorem optional_failure_keeps_last_good
    (l : list attempt) key fallback t0 t1 (e : jserr) :
  Forall (fun a => truthy (VNum (at_done a)) = true) l ->
  (getOptionalJSON key fallback t0 t1 (Throw e) (optional_run l)).2 =
  match last_good key l with
  | Some x => (l_value x, Fresh "stale" (Some (l_at x)) t0)
  | None => (fallback, Fresh "unknown" None t0)
  end /\
  (forall v, (getOptionalJSON key fallback t0 t1 (Ok v) (optional_run l)).2 =
             (v, Fresh "fresh" (Some t1) t0)).
Proof.
  intros Hf. split; [|done]. unfold getOptionalJSON. rewrite remembered_run by done.
  by destruct (last_good key l).
Qed.

(** A per-core load in milli-units is reported as a percentage between 0
    and 100 for every input that is a number (and never escapes that range
    otherwise: an input that is not a number gives NaN). *)
Theorem milliToPct_range (milli : value) :
  is_nan (milliToPct milli) = true \/
  nle n0 (milliToPct milli) = true /\ nle (milliToPct milli) (ofZ 100) = true.
Proof.
  unfold milliToPct. destruct (nullish milli); [by right|].
  set (x := nround _). destruct (is_nan x) eqn:E.
  - left. rewrite (is_nan_true _ E), nmin_nan_r, nmax_nan_r. done.
  - right. assert (Hm : is_nan (nmin (ofZ 100) x) = false) by (by apply nmin_not_nan).
    assert (Hl : nle (nmin (ofZ 100) x) (ofZ 100) = true) by (by apply nmin_le_l).
    generalize dependent (nmin (ofZ 100) x). intros y Hm Hl.
    split; [by apply nmax_ge_l|]. destruct (nmax_zero_l y Hm) as [-> | [s ->]]; done.
Qed.

(** ** Witnesses *)

Module DemoClient.

Definition stale : client :=
  Client (VStr "tok") (VObj [("source", VStr "stale")]) (Snap None n0 None 0).
Definition live : client :=
  Client (VStr "tok") (VObj [("source", VStr "live")]) (Snap None n0 None 0).
Definition ack : opts := post_opts (VObj [("eventId", vz 7)]) [("X-Solari-CSRF", "forged")].

(** Two good reads of the pools, one of the assets, then failures. *)
Definition history : list attempt :=
  [ Attempt "pools" (VArr []) (ofZ 10) (ofZ 11) (Ok (VArr [VStr "a"]));
    Attempt "assets" (VArr []) (ofZ 12) (ofZ 13) (Ok (VArr []));
    Attempt "pools" (VArr []) (ofZ 14) (ofZ 15) (Ok (VArr [VStr "b"]));
    Attempt "pools" (VArr []) (ofZ 16) (ofZ 17) (Throw TypeError) ].

End DemoClient.

Lemma getJSON_gate_and_csrf_witness :
  getJSON_request "/api" "/api/alerts/ack" DemoClient.ack DemoClient.stale = Throw data_stale /\
  exists w, getJSON_request "/api" "/api/alerts/ack" DemoClient.ack DemoClient.live = Ok w /\
            assoc "X-Solari-CSRF" (w_headers w) = Some "tok".
Proof.
  split.
  - apply (getJSON_gate_and_csrf "/api" "/api/alerts/ack" DemoClient.ack DemoClient.stale);
      [reflexivity|reflexivity|discriminate|discriminate].
  - destruct (getJSON_gate_and_csrf "/api" "/api/alerts/ack" DemoClient.ack DemoClient.live eq_refl)
      as [_ H].
    eexists. split; [reflexivity|]. apply (H _ eq_refl). reflexivity.
Defined.

Lemma optional_failure_keeps_last_good_witness :
  (getOptionalJSON "pools" (VArr []) (ofZ 20) (ofZ 21) (Throw TypeError)
     (optional_run DemoClient.history)).2
  = (VArr [VStr "b"], Fresh "stale" (Some (ofZ 15)) (ofZ 20)).
Proof.
  destruct (optional_failure_keeps_last_good DemoClient.history "pools" (VArr []) (ofZ 20) (ofZ 21)
              TypeError) as [H _].
  - repeat constructor.
  - rewrite H. reflexivity.
Defined.
