(* ===== verification/Endpoints.v ===== *)
(** * Endpoint paths and the API call table (api.jsx, lines 262-378 and 1152-1480)

    [ep] has one constructor per entry of the source's [EP] table and
    [ep_path] builds its path; the call types below have one constructor per
    method of the [API] object that issues a request, and [*_call] gives the
    arguments it hands to [getJSON].  [uploadReceipt] is the one method that
    calls [fetch] itself. *)

From Stdlib Require Import ZArith Lia Ascii.
From stdpp Require Import strings list.
From S2P Require Import Prelude JsNum JsValue ApiClient.

Local Open Scope string_scope.
Local Open Scope list_scope.

(** [encodeURIComponent(x)] of any value. *)
Definition enc (v : value) : string := encodeURIComponent (vstr v).

(** The literal last segment of a location operation. *)
Inductive loc_op := OpMove | OpMerge | OpMergePreview | OpProject.

Definition loc_op_str (o : loc_op) : string :=
  match o with
  | OpMove => "move" | OpMerge => "merge" | OpMergePreview => "merge-preview" | OpProject => "project"
  end.

Inductive ep :=
  | Esummary | Enodes | Enode (id : value) | EnodeHistory (id metric : value) | EnodeConfig (id : value)
  | Ealerts | EalertAck | EalertAckAll | Eopie | EopieReport (id : value)
  | Erules | Erule (id : value) | Eprobes | Esegments | Etopology (view : value)
  | Enetgear | Egear | EgearInterfaces (id : value) | EgearHistory (id ifIndex metric : value)
  | Ediscovery | EdiscScan | EdiscManualScan | EdiscScanJobs
  | EdiscScanRequest (id : value) | EdiscScanStatus (id : value)
  | EdiscAdopt (id : value) | EdiscIgnore (id : value)
  | Eenrollments | EenrApprove (id : value) | EenrReject (id : value)
  | Ebuilds | Econfig | Epools | Epool (id : value) | Eassets | EallocatorNetworks | Easset (id : value)
  | Eprovision | Edecommission | Esurvey | Edeploy | EfleetProvision | Eimage
  | Elogin | Elogout | Ewhoami | EauthConfig
  | Emaintenance | EmaintCancel (id : value) | Eforgejo | Eca
  | EdnsQuery | EdnsHealth | EdnsZones | EdnsZoneRecords | EdnsHosts | EdnsRpz
  | Eprov | EprovPath (segs : list value)
  | Einventory | EinvComponents | EinvEntityLink (id : value) | EinvComponent (id : value)
  | EinvModels | EinvModel (id : value) | EinvLocations | EinvFlatLocations
  | EinvLocation (id : value) | EinvLocationOp (id : value) (op : loc_op) | EinvBulkStorage
  | EinvContainerTypes | EinvContainerType (id : value)
  | EinvProductTypes | EinvProductType (id : value)
  | EinvProductBarcodes | EinvProductBarcode (id : value)
  | EinvReceipts | EinvProjects | EinvProject (id : value)
  | EinvAllocations | EinvAllocation (id : value) | EinvShopping (pid : value)
  | Ecodes | Ecode (id : value) | EcodeLookup | EcodeReceive | EcodeMove | EcodeAssoc | EcodeHistory
  | EcodeLabel (id : value) | EcodePrinted (id : value)
  | ElocContents (id : value) | EprojRollup (id : value).

Definition ep_path (e : ep) : string :=
  match e with
  | Esummary => "/api/summary"
  | Enodes => "/api/nodes"
  | Enode id => "/api/nodes/" +:+ enc id
  | EnodeHistory id metric => "/api/nodes/" +:+ enc id +:+ "/history?metric=" +:+ enc metric
  | EnodeConfig id => "/api/nodes/" +:+ enc id +:+ "/config"
  | Ealerts => "/api/alerts"
  | EalertAck => "/api/alerts/ack"
  | EalertAckAll => "/api/alerts/ack-all"
  | Eopie => "/api/opie"
  | EopieReport id => "/api/opie/" +:+ enc id
  | Erules => "/api/rules"
  | Erule id => "/api/rules/" +:+ enc id
  | Eprobes => "/api/probes"
  | Esegments => "/api/segments"
  | Etopology view => "/api/topology?view=" +:+ enc (v_or view (VStr "monitoring"))
  | Enetgear => "/api/netgear"
  | Egear => "/api/gear"
  | EgearInterfaces id => "/api/gear/" +:+ enc id +:+ "/interfaces"
  | EgearHistory id ifIndex metric =>
      "/api/gear/" +:+ enc id +:+ "/history?ifIndex=" +:+ enc ifIndex +:+
      "&metric=" +:+ enc (v_or metric (VStr "inRateKbps"))
  | Ediscovery => "/api/discovery"
  | EdiscScan => "/api/discovery/scan"
  | EdiscManualScan => "/api/discovery/manual-scan"
  | EdiscScanJobs => "/api/discovery/scan-jobs"
  | EdiscScanRequest id => "/api/discovery/scan-requests/" +:+ enc id
  | EdiscScanStatus id => "/api/discovery/scans/" +:+ enc id
  | EdiscAdopt id => "/api/discovery/" +:+ enc id +:+ "/adopt"
  | EdiscIgnore id => "/api/discovery/" +:+ enc id +:+ "/ignore"
  | Eenrollments => "/api/enrollments"
  | EenrApprove id => "/api/enrollments/" +:+ enc id +:+ "/approve"
  | EenrReject id => "/api/enrollments/" +:+ enc id +:+ "/reject"
  | Ebuilds => "/api/builds"
  | Econfig => "/api/config"
  | Epools => "/api/pools"
  | Epool id => "/api/pools/" +:+ enc id
  | Eassets => "/api/assets"
  | EallocatorNetworks => "/api/networks/allocator-eligibility"
  | Easset id => "/api/assets/" +:+ enc id
  | Eprovision => "/api/control/provision"
  | Edecommission => "/api/control/decommission"
  | Esurvey => "/api/control/survey"
  | Edeploy => "/api/control/deploy"
  | EfleetProvision => "/api/control/fleet-provision"
  | Eimage => "/api/control/fleet-image"
  | Elogin => EP_login
  | Elogout => EP_logout
  | Ewhoami => "/api/auth/whoami"
  | EauthConfig => "/api/auth/config"
  | Emaintenance => "/api/maintenance"
  | EmaintCancel id => "/api/maintenance/" +:+ enc id +:+ "/cancel"
  | Eforgejo => "/api/forgejo"
  | Eca => "/api/ca"
  | EdnsQuery => "/api/dns/query"
  | EdnsHealth => "/api/dns/health"
  | EdnsZones => "/api/dns/zones"
  | EdnsZoneRecords => "/api/dns/zones"
  | EdnsHosts => "/api/dns/hosts"
  | EdnsRpz => "/api/dns/rpz"
  | Eprov => "/api/provisioning"
  | EprovPath segs => "/api/provisioning/" +:+ String.concat "/" (map enc segs)
  | Einventory => "/api/inventory"
  | EinvComponents => "/api/inventory/components"
  | EinvEntityLink id => "/api/inventory/components/" +:+ enc id +:+ "/entity-link"
  | EinvComponent id => "/api/inventory/components/" +:+ enc id
  | EinvModels => "/api/inventory/models"
  | EinvModel id => "/api/inventory/models/" +:+ enc id
  | EinvLocations => "/api/inventory/locations"
  | EinvFlatLocations => "/api/inventory/locations?flat=1"
  | EinvLocation id => "/api/inventory/locations/" +:+ enc id
  | EinvLocationOp id op => "/api/inventory/locations/" +:+ enc id +:+ "/" +:+ loc_op_str op
  | EinvBulkStorage => "/api/inventory/locations/bulk-storage-units"
  | EinvContainerTypes => "/api/inventory/container-types"
  | EinvContainerType id => "/api/inventory/container-types/" +:+ enc id
  | EinvProductTypes => "/api/inventory/product-types"
  | EinvProductType id => "/api/inventory/product-types/" +:+ enc id
  | EinvProductBarcodes => "/api/inventory/product-barcodes"
  | EinvProductBarcode id => "/api/inventory/product-barcodes/" +:+ enc id
  | EinvReceipts => "/api/inventory/receipts"
  | EinvProjects => "/api/inventory/projects"
  | EinvProject id => "/api/inventory/projects/" +:+ enc id
  | EinvAllocations => "/api/inventory/allocations"
  | EinvAllocation id => "/api/inventory/allocations/" +:+ enc id
  | EinvShopping pid => "/api/inventory/projects/" +:+ enc pid +:+ "/shopping"
  | Ecodes => "/api/inventory/codes"
  | Ecode id => "/api/inventory/codes/" +:+ enc id
  | EcodeLookup => "/api/inventory/codes/lookup"
  | EcodeReceive => "/api/inventory/codes/receive"
  | EcodeMove => "/api/inventory/codes/move"
  | EcodeAssoc => "/api/inventory/codes/associate"
  | EcodeHistory => "/api/inventory/codes/history"
  | EcodeLabel id => "/api/inventory/codes/" +:+ enc id +:+ "/label"
  | EcodePrinted id => "/api/inventory/codes/" +:+ enc id +:+ "/printed"
  | ElocContents id => "/api/inventory/locations/" +:+ enc id +:+ "/contents"
  | EprojRollup id => "/api/inventory/projects/" +:+ enc id +:+ "/rollup"
  end.

(** ** Calls *)

(** What a method hands to [getJSON]. *)
Record call := Call { k_path : string; k_opts : opts }.

Definition GET (p : string) : call := Call p (Opts "" VUndef []).
Definition POST (p : string) (b : value) : call := Call p (post_opts b []).
Definition POSTH (p : string) (b : value) (h : list (string * string)) : call := Call p (post_opts b h).
Definition PUT (p : string) (b : value) : call := Call p (Opts "PUT" (v_or b (VObj [])) []).
Definition DELETE (p : string) : call := Call p (Opts "DELETE" VUndef []).

Definition confirm : string * value := ("confirm", VBool true).
Definition idem (key : value) : list (string * string) := [("Idempotency-Key", vstr key)].
Definition idem_opt (key : value) : list (string * string) := if truthy key then idem key else [].
(** [x == null ? null : Number(x)]. *)
Definition num_or_null (v : value) : value := if nullish v then VNull else VNum (vnum v).
(** [x || null]. *)
Definition or_null (v : value) : value := v_or v VNull.

(** *** Fleet, discovery, configuration and lifecycle (lines 1158-1247) *)

Definition historyMetric (metric : value) : value :=
  let mapped :=
    match metric with
    | VStr "cpu" => Some "cpuAvgMilli"
    | VStr "ram" => Some "ramUsedKb"
    | VStr "swap" => Some "swapUsedKb"
    | VStr "disk" => Some "diskMinFreePct"
    | VStr "net" => Some "netKbps"
    | _ => None
    end in
  match mapped with
  | Some m => VStr m
  | None => v_or metric (VStr "cpuAvgMilli")
  end.

Inductive fleet_call :=
  | Cnode (id : value) | CnodeHistory (id metric : value) | Ctopology (view : value)
  | CgearList | CgearInterfaces (id : value) | CgearHistory (id ifIndex metric : value)
  | ClistDiscovered (status : value) | CdiscoverScan (body key : value)
  | CscanManualAsset (target : value) | CcreateAsset (body : value)
  | ClistDiscoveryScanJobs | CdiscoverScanRequest (id : value) | CdiscoverScanStatus (id : value)
  | CadoptDiscovered (discId body : value) | CignoreDiscovered (discId : value)
  | Cpools | CcreatePool (body : value) | CupdatePool (id body : value)
  | Cassets | CallocatorNetworks | CsetAllocatorEligibility (id eligible : value)
  | Casset (id : value) | CupdateAsset (id body : value)
  | CremoveAsset (id : value) | CremoveTarget (assetId targetId : value)
  | CretireNode (id : value) | CdeletePool (id : value) | CdeleteRule (id : value)
  | CapproveEnrollment (enrId : value) | CrejectEnrollment (enrId : value)
  | Cprovision (body : value) | Cdecommission (nodeId wipeScope : value)
  | CsaveConfig (config : value) | CgetNodeConfig (id : value) | CsetNodeConfig (id cfg : value)
  | CdeployClient (body : value) | CdeployLog (h : value)
  | CfleetProvision (body : value) | CbuildImage (body : value)
  | CprovisionLog (hostname isImage : value)
  | CsaveRule (ruleId patch : value) | CtoggleRule (ruleId enabled : value)
  | Csurvey (scope : value).

Definition default_wipe : value :=
  VArr [VStr "config"; VStr "certs"; VStr "spool"; VStr "logs"; VStr "unit"].

Definition fleet_request (c : fleet_call) : call :=
  match c with
  | Cnode id => GET (ep_path (Enode id))
  | CnodeHistory id metric => GET (ep_path (EnodeHistory id (historyMetric metric)))
  | Ctopology view => GET (ep_path (Etopology view))
  | CgearList => GET (ep_path Egear)
  | CgearInterfaces id => GET (ep_path (EgearInterfaces id))
  | CgearHistory id i m => GET (ep_path (EgearHistory id i m))
  | ClistDiscovered st => GET (ep_path Ediscovery +:+ "?status=" +:+ enc (v_or st (VStr "all")))
  | CdiscoverScan body key => POSTH (ep_path EdiscScan) body (idem key)
  | CscanManualAsset t => POST (ep_path EdiscManualScan) (VObj [("target", t)])
  | CcreateAsset b => POST (ep_path Eassets) b
  | ClistDiscoveryScanJobs => GET (ep_path EdiscScanJobs)
  | CdiscoverScanRequest id => GET (ep_path (EdiscScanRequest id))
  | CdiscoverScanStatus id => GET (ep_path (EdiscScanStatus id))
  | CadoptDiscovered id b => POST (ep_path (EdiscAdopt id)) b
  | CignoreDiscovered id => POST (ep_path (EdiscIgnore id)) (VObj [])
  | Cpools => GET (ep_path Epools)
  | CcreatePool b => POST (ep_path Epools) b
  | CupdatePool id b => POST (ep_path (Epool id)) b
  | Cassets => GET (ep_path Eassets)
  | CallocatorNetworks => GET (ep_path EallocatorNetworks)
  | CsetAllocatorEligibility id eligible =>
      POST ("/api/networks/" +:+ enc id +:+ "/allocator-eligibility")
           (VObj [("eligible", VBool (truthy eligible)); confirm])
  | Casset id => GET (ep_path (Easset id))
  | CupdateAsset id b => POST (ep_path (Easset id)) b
  | CremoveAsset id => POST (ep_path (Easset id) +:+ "/remove") (VObj [confirm])
  | CremoveTarget a t =>
      POST (ep_path (Easset a) +:+ "/targets/" +:+ enc t +:+ "/remove") (VObj [confirm])
  | CretireNode id => POST (ep_path (Enode id) +:+ "/retire") (VObj [confirm])
  | CdeletePool id => POST (ep_path (Epool id) +:+ "/delete") (VObj [confirm])
  | CdeleteRule id => POST (ep_path (Erule id) +:+ "/delete") (VObj [confirm])
  | CapproveEnrollment id => POST (ep_path (EenrApprove id)) (VObj [confirm])
  | CrejectEnrollment id => POST (ep_path (EenrReject id)) (VObj [])
  | Cprovision b => POST (ep_path Eprovision) b
  | Cdecommission id w =>
      POST (ep_path Edecommission)
           (VObj [("nodeId", id); ("wipeScope", v_or w default_wipe); confirm])
  | CsaveConfig cfg => POST (ep_path Econfig) cfg
  | CgetNodeConfig id => GET (ep_path (EnodeConfig id))
  | CsetNodeConfig id cfg => POST (ep_path (EnodeConfig id)) (VObj [("config", cfg)])
  | CdeployClient b => POST (ep_path Edeploy) b
  | CdeployLog h => GET (ep_path Edeploy +:+ "?host=" +:+ enc h)
  | CfleetProvision b => POST (ep_path EfleetProvision) b
  | CbuildImage b => POST (ep_path Eimage) b
  | CprovisionLog h img =>
      GET (ep_path EfleetProvision +:+ "?hostname=" +:+ enc h +:+
           (if truthy img then "&image=1" else ""))
  | CsaveRule id patch => POST (ep_path (Erule id)) patch
  | CtoggleRule id en => POST (ep_path (Erule id)) (VObj [("enabled", en)])
  | Csurvey sc => POST (ep_path Esurvey) (VObj [("scope", v_or sc (VStr "all"))])
  end.

(** *** Provisioning catalog (lines 1249-1292) *)

Inductive prov_call :=
  | PfleetUpdates (mode confirmed key : value) | PfleetUpdatesLog (run : value)
  | Pimages | PimageCreate (body : value) | PimageUpdate (id body : value) | PimageDelete (id : value)
  | Psoftware (type : value) | PsoftwareGet (id : value) | PsoftwareCreate (body : value)
  | PsoftwareUpdate (id body : value) | PsoftwareDelete (id : value)
  | PartifactAdd (id body : value) | PartifactDelete (id artifactId : value)
  | PrequireAdd (id reqId notes : value) | PrequireDelete (id reqId : value)
  | PconflictAdd (id otherId notes : value) | PconflictDelete (id otherId : value)
  | Pstacks | PstackGet (id : value) | PstackCreate (body : value)
  | PstackUpdate (id body : value) | PstackDelete (id : value)
  | PmemberAdd (id body : value) | PmemberUpdate (id swId body : value) | PmemberDelete (id swId : value)
  | PdepAdd (id onId : value) | PdepDelete (id onId : value)
  | Ptargets | Pruns (qs : string) | Pstore | Plog (kind id : value)
  | PimageRefresh (imageId key : value) | Pstage (body key : value) | Papply (body key : value).

Definition pp (segs : list value) : string := ep_path (EprovPath segs).

Definition prov_request (c : prov_call) : call :=
  match c with
  | PfleetUpdates mode cf key =>
      POSTH (pp [VStr "updates"]) (VObj [("mode", mode); ("confirm", VBool (truthy cf))]) (idem key)
  | PfleetUpdatesLog r => GET (pp [VStr "log"] +:+ "?kind=fleet-updates&id=" +:+ enc r)
  | Pimages => GET (pp [VStr "images"])
  | PimageCreate b => POST (pp [VStr "images"]) b
  | PimageUpdate id b => PUT (pp [VStr "images"; id]) b
  | PimageDelete id => DELETE (pp [VStr "images"; id])
  | Psoftware ty =>
      GET (pp [VStr "software"] +:+ (if truthy ty then "?type=" +:+ enc ty else ""))
  | PsoftwareGet id => GET (pp [VStr "software"; id])
  | PsoftwareCreate b => POST (pp [VStr "software"]) b
  | PsoftwareUpdate id b => PUT (pp [VStr "software"; id]) b
  | PsoftwareDelete id => DELETE (pp [VStr "software"; id])
  | PartifactAdd id b => POST (pp [VStr "software"; id; VStr "artifacts"]) b
  | PartifactDelete id a => DELETE (pp [VStr "software"; id; VStr "artifacts"; a])
  | PrequireAdd id r notes =>
      POST (pp [VStr "software"; id; VStr "requires"])
           (VObj [("requires_software_id", VNum (vnum r)); ("notes", or_null notes)])
  | PrequireDelete id r => DELETE (pp [VStr "software"; id; VStr "requires"; r])
  | PconflictAdd id o notes =>
      POST (pp [VStr "software"; id; VStr "conflicts"])
           (VObj [("software_id", VNum (vnum o)); ("notes", or_null notes)])
  | PconflictDelete id o => DELETE (pp [VStr "software"; id; VStr "conflicts"; o])
  | Pstacks => GET (pp [VStr "stacks"])
  | PstackGet id => GET (pp [VStr "stacks"; id])
  | PstackCreate b => POST (pp [VStr "stacks"]) b
  | PstackUpdate id b => PUT (pp [VStr "stacks"; id]) b
  | PstackDelete id => DELETE (pp [VStr "stacks"; id])
  | PmemberAdd id b => POST (pp [VStr "stacks"; id; VStr "members"]) b
  | PmemberUpdate id sw b => PUT (pp [VStr "stacks"; id; VStr "members"; sw]) b
  | PmemberDelete id sw => DELETE (pp [VStr "stacks"; id; VStr "members"; sw])
  | PdepAdd id on =>
      POST (pp [VStr "stacks"; id; VStr "deps"]) (VObj [("depends_on_stack_id", VNum (vnum on))])
  | PdepDelete id on => DELETE (pp [VStr "stacks"; id; VStr "deps"; on])
  | Ptargets => GET (pp [VStr "targets"])
  | Pruns qs => GET (pp [VStr "runs"] +:+ qs)
  | Pstore => GET (pp [VStr "store"])
  | Plog kind id => GET (pp [VStr "log"] +:+ "?kind=" +:+ enc kind +:+ "&id=" +:+ enc id)
  | PimageRefresh i key =>
      POSTH (pp [VStr "image-refresh"]) (VObj [("image", VNum (vnum i))]) (idem_opt key)
  | Pstage b key => POSTH (pp [VStr "stage"]) b (idem_opt key)
  | Papply b key => POSTH (pp [VStr "apply"]) b (idem_opt key)
  end.

(** *** Inventory (lines 1289-1370) *)

Inductive inv_call :=
  | IentityLink (unitId query : value) | IlinkEntity (unitId entityId : value) | IunlinkEntity (unitId : value)
  | IrackwireLibrary | IsaveRackwireProfile (modelId body : value)
  | IcreateUnit (body : value) | IupdateUnit (id body : value)
  | IcreateModel (body : value) | IupdateModel (id body : value)
  | IcreateLocation (body : value) | IgetLocation (id : value) | IupdateLocation (id body : value)
  | ImoveLocation (id parentId : value) | ImergePreview (id targetId : value)
  | ImergeLocation (id targetId fingerprint : value) | IbulkStorage (body : value)
  | IsetLocationProject (id projectId : value)
  | IcontainerTypes (includeRetired : value) | IcreateContainerType (name : value)
  | IrenameContainerType (id name updatedAt : value) | IretireContainerType (id : value)
  | IproductTypes (o : value) | IgetProductType (id : value) | IcreateProductType (body : value)
  | IupdateProductType (id body : value) | IretireProductType (id : value)
  | IlookupBarcode (code : value) | IaddBarcode (typeId code codeType : value) | IremoveBarcode (id : value)
  | IcreateReceipt (body : value)
  | IcreateProject (body : value) | IupdateProject (id body : value)
  | IcreateAllocation (body : value) | IupdateAllocation (id body : value) | Ishopping (projectId : value).

(** The query string of [productTypes]; [o] is its options object. *)
Definition product_query (o : value) : string :=
  let o := v_or o (VObj []) in
  let qs :=
    ((if truthy (fld o "q") then ["q=" +:+ enc (fld o "q")] else []) ++
    (if truthy (fld o "kind") then ["kind=" +:+ enc (fld o "kind")] else []) ++
    (if nullish (fld o "limit") then [] else ["limit=" +:+ enc (fld o "limit")]) ++
    (if truthy (fld o "offset") then ["offset=" +:+ enc (fld o "offset")] else []))%list in
  match qs with [] => "" | _ => "?" +:+ String.concat "&" qs end.

Definition inv_request (c : inv_call) : call :=
  match c with
  | IentityLink u q =>
      GET (ep_path (EinvEntityLink u) +:+ (if truthy q then "?q=" +:+ enc q else ""))
  | IlinkEntity u e => POST (ep_path (EinvEntityLink u)) (VObj [("entity_id", VNum (vnum e))])
  | IunlinkEntity u => DELETE (ep_path (EinvEntityLink u))
  | IrackwireLibrary => GET "/api/rackwire/library"
  | IsaveRackwireProfile m b => POST ("/api/rackwire/library/" +:+ enc m +:+ "/groups") b
  | IcreateUnit b => POST (ep_path EinvComponents) b
  | IupdateUnit id b => PUT (ep_path (EinvComponent id)) b
  | IcreateModel b => POST (ep_path EinvModels) b
  | IupdateModel id b => PUT (ep_path (EinvModel id)) b
  | IcreateLocation b => POST (ep_path EinvLocations) b
  | IgetLocation id => GET (ep_path (EinvLocation id))
  | IupdateLocation id b => PUT (ep_path (EinvLocation id)) b
  | ImoveLocation id p =>
      POST (ep_path (EinvLocationOp id OpMove)) (VObj [("parent_id", num_or_null p)])
  | ImergePreview id t =>
      GET (ep_path (EinvLocationOp id OpMergePreview) +:+ "?target_id=" +:+ enc t)
  | ImergeLocation id t fp =>
      POST (ep_path (EinvLocationOp id OpMerge))
           (VObj [("target_id", VNum (vnum t)); ("fingerprint", fp)])
  | IbulkStorage b => POST (ep_path EinvBulkStorage) b
  | IsetLocationProject id p =>
      PUT (ep_path (EinvLocationOp id OpProject)) (VObj [("project_id", num_or_null p)])
  | IcontainerTypes r =>
      GET (ep_path EinvContainerTypes +:+ (if truthy r then "?include_deleted=1" else ""))
  | IcreateContainerType n => POST (ep_path EinvContainerTypes) (VObj [("name", n)])
  | IrenameContainerType id n u =>
      PUT (ep_path (EinvContainerType id)) (VObj [("name", n); ("updated_at", u)])
  | IretireContainerType id => DELETE (ep_path (EinvContainerType id))
  | IproductTypes o => GET (ep_path EinvProductTypes +:+ product_query o)
  | IgetProductType id => GET (ep_path (EinvProductType id))
  | IcreateProductType b => POST (ep_path EinvProductTypes) b
  | IupdateProductType id b => PUT (ep_path (EinvProductType id)) b
  | IretireProductType id => DELETE (ep_path (EinvProductType id))
  | IlookupBarcode code => GET (ep_path EinvProductBarcodes +:+ "?code=" +:+ enc code)
  | IaddBarcode ty code ct =>
      POST (ep_path EinvProductBarcodes)
           (VObj [("product_type_id", VNum (vnum ty)); ("code", code);
                  ("code_type", v_or ct (VStr "other"))])
  | IremoveBarcode id => DELETE (ep_path (EinvProductBarcode id))
  | IcreateReceipt b => POST (ep_path EinvReceipts) b
  | IcreateProject b => POST (ep_path EinvProjects) b
  | IupdateProject id b => POST (ep_path (EinvProject id)) b
  | IcreateAllocation b => POST (ep_path EinvAllocations) b
  | IupdateAllocation id b => POST (ep_path (EinvAllocation id)) b
  | Ishopping p => GET (ep_path (EinvShopping p))
  end.

(** [uploadReceipt]: a multipart POST that goes to [fetch] directly. *)
Definition uploadReceipt_request (base : string) (c : client) : res wire :=
  let p := ep_path EinvReceipts in
  Ok (Wire "POST" (if starts_with "/" p then p else base +:+ p)
           (if truthy (csrf c) then [("X-Solari-CSRF", vstr (csrf c))] else []) None).

Definition uploadReceipt_settle (r : http) (c : client) : client * res value :=
  match hr_json r with
  | None => (c, Throw (JsErr VUndef "SyntaxError" false))
  | Some j => unwrap j c
  end.

(** *** Barcodes, integrations, alerts, maintenance, session (lines 1375-1486) *)

Inductive misc_call :=
  | Mcodes (qs : string) | McodeLookup (code : value) | McodeCreate (body : value) | McodeDelete (id : value)
  | McodeReceive (body : value) | McodeMove (body : value) | McodeAssociate (body : value)
  | McodeMarkPrinted (id : value) | McodeHistory (qs : string)
  | MlocationContents (id : value) | MprojectRollup (id : value)
  | MforgejoInfo | McaInfo
  | MdnsQuery (name type : value) (servers : list value) | MdnsHealth | MdnsZones
  | MdnsZoneRecords (id : value) (qs : string) | MdnsHosts | MdnsRpz
  | MackAlert (eventId : value) | MackAllAlerts
  | MopieList (status : value) | MopieReport (reportId : value)
  | MmaintenanceList (status : value) | MscheduleMaintenance (body : value) | McancelMaintenance (id : value)
  | Mwhoami | MauthConfig | Mlogin (username password : value) | Mlogout.

Definition misc_request (c : misc_call) : call :=
  match c with
  | Mcodes qs => GET (ep_path Ecodes +:+ qs)
  | McodeLookup code => POST (ep_path EcodeLookup) (VObj [("code", code)])
  | McodeCreate b => POST (ep_path Ecodes) b
  | McodeDelete id => DELETE (ep_path (Ecode id))
  | McodeReceive b => POST (ep_path EcodeReceive) b
  | McodeMove b => POST (ep_path EcodeMove) b
  | McodeAssociate b => POST (ep_path EcodeAssoc) b
  | McodeMarkPrinted id => POST (ep_path (EcodePrinted id)) (VObj [])
  | McodeHistory qs => GET (ep_path EcodeHistory +:+ qs)
  | MlocationContents id => GET (ep_path (ElocContents id))
  | MprojectRollup id => GET (ep_path (EprojRollup id))
  | MforgejoInfo => GET (ep_path Eforgejo)
  | McaInfo => GET (ep_path Eca)
  | MdnsQuery n ty sv =>
      GET (ep_path EdnsQuery +:+ "?name=" +:+ enc n +:+ "&type=" +:+ enc ty +:+
           "&servers=" +:+ vstr (VArr sv))
  | MdnsHealth => GET (ep_path EdnsHealth)
  | MdnsZones => GET (ep_path EdnsZones)
  | MdnsZoneRecords id qs => GET (ep_path EdnsZoneRecords +:+ "/" +:+ enc id +:+ "/records" +:+ qs)
  | MdnsHosts => GET (ep_path EdnsHosts)
  | MdnsRpz => GET (ep_path EdnsRpz)
  | MackAlert id => POST (ep_path EalertAck) (VObj [("eventId", id)])
  | MackAllAlerts => POST (ep_path EalertAckAll) (VObj [])
  | MopieList st => GET (ep_path Eopie +:+ "?status=" +:+ enc (v_or st (VStr "all")))
  | MopieReport id => GET (ep_path (EopieReport id))
  | MmaintenanceList st => GET (ep_path Emaintenance +:+ "?status=" +:+ enc (v_or st (VStr "all")))
  | MscheduleMaintenance b => POST (ep_path Emaintenance) b
  | McancelMaintenance id => POST (ep_path (EmaintCancel id)) (VObj [])
  | Mwhoami => GET (ep_path Ewhoami)
  | MauthConfig => GET (ep_path EauthConfig)
  | Mlogin u p => POST (ep_path Elogin) (VObj [("username", u); ("password", p)])
  | Mlogout => POST (ep_path Elogout) (VObj [])
  end.

(** Every method that goes through [getJSON]. *)
Inductive api_call :=
  | Afleet (c : fleet_call) | Aprov (c : prov_call) | Ainv (c : inv_call) | Amisc (c : misc_call).

Definition api_request (a : api_call) : call :=
  match a with
  | Afleet c => fleet_request c
  | Aprov c => prov_request c
  | Ainv c => inv_request c
  | Amisc c => misc_request c
  end.

Definition session_call (a : api_call) : bool :=
  match a with Amisc (Mlogin _ _) | Amisc Mlogout => true | _ => false end.

Definition send (base : string) (a : api_call) (c : client) : res wire :=
  getJSON_request base (k_path (api_request a)) (k_opts (api_request a)) c.

(** Every method of the API object: those that go through [getJSON], and the upload. *)
Inductive api_method := Through (a : api_call) | UploadReceipt.

Definition writes (m : api_method) : bool :=
  match m with Through a => isWrite (k_opts (api_request a)) | UploadReceipt => true end.

(** What the method hands to [fetch], or the error it rejects with. *)
Definition request_of (base : string) (m : api_method) (c : client) : res wire :=
  match m with Through a => send base a c | UploadReceipt => uploadReceipt_request base c end.

(** ** Lemmas *)

(** The characters of a path that structure a URL, in order. *)
Fixpoint structure (s : string) : string :=
  match s with
  | EmptyString => ""
  | String c r => if segment_char c then structure r else String c (structure r)
  end.

Lemma structure_app (s t : string) : structure (s +:+ t) = structure s +:+ structure t.
Proof.
  induction s as [|c r IH]; [done|].
  change (structure (String c r +:+ t)) with
    (if segment_char c then structure (r +:+ t) else String c (structure (r +:+ t))).
  rewrite IH. cbn [structure]. by destruct (segment_char c).
Qed.

Lemma structure_segment (s : string) : sall segment_char s = true -> structure s = "".
Proof. induction s as [|c r IH]; cbn; [done|]. intros [-> H]%andb_prop. auto. Qed.

Lemma structure_enc (v : value) : structure (enc v) = "".
Proof. apply structure_segment, encode_segment. Qed.

Lemma structure_concat (l l' : list value) :
  length l = length l' ->
  structure (String.concat "/" (map enc l)) = structure (String.concat "/" (map enc l')).
Proof.
  revert l'. induction l as [|a l IH]; intros [|b l']; try done. cbn [length]. intros [= H].
  specialize (IH l' H).
  destruct l as [|a2 l], l' as [|b2 l']; try discriminate; cbn [map String.concat] in *.
  - by rewrite !structure_enc.
  - rewrite !structure_app, !structure_enc. by rewrite IH.
Qed.

(** The endpoint with its arguments replaced by empty strings. *)
Definition erase (e : ep) : ep :=
  let z := VStr "" in
  match e with
  | Enode _ => Enode z | EnodeHistory _ _ => EnodeHistory z z | EnodeConfig _ => EnodeConfig z
  | EopieReport _ => EopieReport z | Erule _ => Erule z | Etopology _ => Etopology z
  | EgearInterfaces _ => EgearInterfaces z | EgearHistory _ _ _ => EgearHistory z z z
  | EdiscScanRequest _ => EdiscScanRequest z | EdiscScanStatus _ => EdiscScanStatus z
  | EdiscAdopt _ => EdiscAdopt z | EdiscIgnore _ => EdiscIgnore z
  | EenrApprove _ => EenrApprove z | EenrReject _ => EenrReject z
  | Epool _ => Epool z | Easset _ => Easset z | EmaintCancel _ => EmaintCancel z
  | EprovPath segs => EprovPath (map (fun _ => z) segs)
  | EinvEntityLink _ => EinvEntityLink z | EinvComponent _ => EinvComponent z
  | EinvModel _ => EinvModel z | EinvLocation _ => EinvLocation z
  | EinvLocationOp _ op => EinvLocationOp z op
  | EinvContainerType _ => EinvContainerType z | EinvProductType _ => EinvProductType z
  | EinvProductBarcode _ => EinvProductBarcode z | EinvProject _ => EinvProject z
  | EinvAllocation _ => EinvAllocation z | EinvShopping _ => EinvShopping z
  | Ecode _ => Ecode z | EcodeLabel _ => EcodeLabel z | EcodePrinted _ => EcodePrinted z
  | ElocContents _ => ElocContents z | EprojRollup _ => EprojRollup z
  | _ => e
  end.

Lemma enc_inj (a b : value) : enc a = enc b -> vstr a = vstr b.
Proof.
  unfold enc. intros H. apply (f_equal decodeURI) in H. by rewrite !decodeURI_encode in H.
Qed.

(** The two paths the write gate exempts. *)
Definition exempt (p : string) : bool := String.eqb p EP_login || String.eqb p EP_logout.

Lemma request_not_exempt (a : api_call) :
  session_call a = false -> exempt (k_path (api_request a)) = false.
Proof.
  destruct a as [c|c|c|c]; destruct c; intros H; try discriminate H; reflexivity.
Qed.

Lemma api_gate (base : string) (a : api_call) (c : client) :
  isWrite (k_opts (api_request a)) = true -> session_call a = false ->
  not_live (solari c) = true -> send base a c = Throw data_stale.
Proof.
  intros Hw Hs Hl. unfold send, getJSON_request.
  pose proof (request_not_exempt a Hs) as [H1 H2]%orb_false_iff.
  by rewrite Hw, H1, H2, Hl.
Qed.

(** ** Properties *)

(** An identifier can never change which endpoint a request reaches.  For
    every endpoint and every argument value the separators of the path and of
    the query are the ones of the endpoint's own template: an id, metric or
    catalogue segment cannot add a path segment or a parameter. *)
Theorem endpoint_arguments_confined (e : ep) :
  structure (ep_path e) = structure (ep_path (erase e)).
Proof.
  destruct e; cbn [erase]; try (match goal with |- ?x = ?x => reflexivity end); cbn [ep_path];
    rewrite ?structure_app, ?structure_enc; try (match goal with |- ?x = ?x => reflexivity end).
  f_equal. apply structure_concat. by rewrite length_map.
Qed.

(** The writes that pass while the data is not live. *)
Definition passes_gate (m : api_method) : bool :=
  match m with Through a => session_call a | UploadReceipt => true end.

Lemma session_sent (base : string) (a : api_call) (c : client) :
  session_call a = true -> exists w, send base a c = Ok w.
Proof.
  destruct a as [f|f|f|f]; destruct f; intros H; try discriminate H; unfold send, getJSON_request; cbn; eauto.
Qed.

Lemma live_sent (base : string) (a : api_call) (c : client) :
  not_live (solari c) = false -> exists w, send base a c = Ok w.
Proof. intros H. unfold send, getJSON_request. rewrite H, andb_false_r. eauto. Qed.


(** The receipt upload is the exception: it is sent while every other
    inventory write is paused, and its success leaves the cached inventory
    snapshot in place, while the same receipt created through [createReceipt]
    invalidates it. *)
Theorem upload_receipt_bypasses_gate (base : string) (c : client) (r : http) (v form : value) :
  not_live (solari c) = true ->
  send base (Ainv (IcreateReceipt form)) c = Throw data_stale /\
  (exists w, uploadReceipt_request base c = Ok w /\ w_method w = "POST") /\
  (hr_ok r = true -> hr_json r = Some (VObj [("ok", VBool true); ("data", v)]) ->
   inv (uploadReceipt_settle r c).1 = inv c /\
   inv (getJSON_settle (ep_path EinvReceipts) (k_opts (inv_request (IcreateReceipt form))) r c).1
   = invalidateInventorySnapshot (inv c)).
Proof.
  intros Hl. split; [|split].
  - apply api_gate; [|reflexivity|done]. reflexivity.
  - eexists. split; reflexivity.
  - intros Hok Hj. unfold uploadReceipt_settle, getJSON_settle, bare_failure. rewrite Hj, Hok.
    split; [apply unwrap_inv|].
    cbn. unfold unwrap. cbn. unfold capture_csrf. by destruct (_ && _).
Qed.

(** ** Witnesses *)


Lemma upload_receipt_bypasses_gate_witness :
  (exists w, uploadReceipt_request "/api" DemoClient.stale = Ok w /\ w_method w = "POST") /\
  inv (uploadReceipt_settle (Http 200 (Some (VObj [("ok", VBool true); ("data", VNull)])))
         DemoClient.stale).1 = inv DemoClient.stale.
Proof.
  destruct (upload_receipt_bypasses_gate "/api" DemoClient.stale
              (Http 200 (Some (VObj [("ok", VBool true); ("data", VNull)]))) VNull (VObj [])
              eq_refl) as (_ & H & H').
  split; [exact H|]. apply (H' eq_refl eq_refl).
Defined.
