(* ===== verification/ScanKeys.v ===== *)
(** * Idempotency keys of discovery scans (api.jsx, lines 98-148 and 233-257)

    A scan that is submitted but whose answer is lost must be retried under the
    same key.  The state is the map from a scan's fingerprint to its key
    ([pendingDiscoveryScanKeys], an object without prototype), the order the
    fingerprints were added in, and the copy in session storage.  [submit] is
    what [discoverScan] does before it posts, [admit] what it does when the
    post succeeds; a failed post changes nothing.  [restore] runs at load. *)

From Stdlib Require Import ZArith Lia Ascii.
From Corelib Require Import SpecFloat.
From stdpp Require Import strings pretty gmap list.
From S2P Require Import Prelude JsNum JsValue.

Local Open Scope string_scope.
Local Open Scope list_scope.

(** The most scans a tab remembers. *)
Definition MAX_PENDING : nat := 16.

Record scans := Scans {
  pending : gmap string string;   (** fingerprint to key *)
  order : list string;            (** fingerprints, oldest first *)
}.

(** Session storage under [solari.pendingDiscoveryScanKeys]: the parsed JSON. *)
Abbreviation stored := (option value).

(** ** Persistence *)

(** [!!pending[f]]: present and not the empty string. *)
Definition live_key (s : scans) (f : string) : bool :=
  match pending s !! f with Some k => negb (String.eqb k "") | None => false end.

Definition entries_of (s : scans) : list (string * string) :=
  omap (fun f => if live_key s f then option_map (pair f) (pending s !! f) else None) (order s).

Definition persist (s : scans) : stored :=
  match entries_of s with
  | [] => None
  | l => Some (VArr (map (fun fk => VArr [VStr fk.1; VStr fk.2]) l))
  end.

(** [/^scan-[0-9a-f]{32}$/.test(k)]. *)
Definition valid_key (k : string) : bool :=
  starts_with "scan-" k && (String.length k =? 37)%nat && sall is_lower_hex (sdrop 5 k).

(** An entry of the stored array that passes the checks. *)
Definition valid_entry (e : value) : option (string * string) :=
  match e with
  | VArr (VStr f :: VStr k :: _) =>
      if (String.length f <=? 1024)%nat && valid_key k then Some (f, k) else None
  | _ => None
  end.

Definition restore_entry (s : scans) (e : value) : scans :=
  match valid_entry e with
  | Some (f, k) =>
      if live_key s f then s
      else Scans (<[f := k]> (pending s)) (order s ++ [f])
  | None => s
  end.

(** [while (order.length > 16) delete pending[order.shift()]], with the
    order's length as fuel: every turn shortens it. *)
Fixpoint evict (fuel : nat) (s : scans) : scans :=
  match fuel, order s with
  | S n, f :: r =>
      if (MAX_PENDING <? length (order s))%nat then evict n (Scans (delete f (pending s)) r) else s
  | _, _ => s
  end.

Definition trim_pending (s : scans) : scans := evict (length (order s)) s.

Definition restore (st : stored) (s : scans) : scans :=
  match st with
  | Some (VArr l) => trim_pending (fold_left restore_entry l s)
  | _ => s
  end.

(** ** Keys *)

(** [newDiscoveryScanKey] for the sixteen random bytes. *)
Definition newKey (bytes : list nat) : string := "scan-" +:+ String.concat "" (map hex2 bytes).

(** [provIdemKey]: the same random part under another prefix. *)
Definition provIdemKey (bytes : list nat) : string := "prov-" +:+ sdrop 5 (newKey bytes).

(** ** discoverScan *)

Definition body (cidr ports : value) : value :=
  VObj [("cidr", cidr); ("ports", v_or ports (VStr ""))].

Definition fingerprint (cidr ports : value) : string := json_str (body cidr ports).

(** The part before the post: the key sent and the state with its copy in
    session storage, [None] when the storage is left as it is. *)
Definition submit (f : string) (bytes : list nat) (s : scans) : string * scans * option stored :=
  if live_key s f
  then (default "" (pending s !! f), s, None)
  else
    let k := newKey bytes in
    let s' := trim_pending (Scans (<[f := k]> (pending s)) (order s ++ [f])) in
    (k, s', Some (persist s')).

(** The post for fingerprint [f] under key [k] succeeded. *)
Definition admit_scan (f k : string) (s : scans) : scans * option stored :=
  if decide (pending s !! f = Some k)
  then let s' := Scans (delete f (pending s)) (filter (fun g => g ≠ f) (order s)) in
       (s', Some (persist s'))
  else (s, None).

(** ** A tab's session *)

(** Memory and session storage of one tab. *)
Record tab := Tab { mem : scans; store : stored }.

Definition no_scans : scans := Scans ∅ [].

Inductive op :=
  | OSubmit (f : string) (bytes : list nat)  (** a scan is submitted; its post may fail *)
  | OAdmit (f k : string)                    (** a post sent under key [k] succeeds *)
  | OReload.                                 (** the page is reloaded *)

Definition step (w : tab) (o : op) : tab :=
  match o with
  | OSubmit f bytes =>
      let '(_, s, st) := submit f bytes (mem w) in Tab s (default (store w) st)
  | OAdmit f k => let '(s, st) := admit_scan f k (mem w) in Tab s (default (store w) st)
  | OReload => Tab (restore (store w) no_scans) (store w)
  end.

(** The page loads over whatever session storage holds. *)
Definition load (st : stored) : tab := Tab (restore st no_scans) st.

Definition run (st : stored) (ops : list op) : tab := fold_left step ops (load st).

(** ** Invariant *)

Record wf (s : scans) : Prop := {
  wf_nodup : NoDup (order s);
  wf_dom : forall f, f ∈ order s <-> is_Some (pending s !! f);
  wf_keys : forall f k, pending s !! f = Some k -> valid_key k = true;
}.

(** ** Lemmas *)

Lemma valid_key_nonempty k : valid_key k = true -> String.eqb k "" = false.
Proof. by destruct k. Qed.

Lemma live_key_wf s f : wf s -> live_key s f = true <-> is_Some (pending s !! f).
Proof.
  intros H. unfold live_key. destruct (pending s !! f) as [k|] eqn:E.
  - rewrite (valid_key_nonempty k) by (by eapply wf_keys). by split.
  - by split; [|intros []].
Qed.

Lemma evict_order n s :
  length (order s) - MAX_PENDING <= n ->
  order (evict n s) = drop (length (order s) - MAX_PENDING) (order s).
Proof.
  revert s. induction n as [|n IH]; intros [p l]; cbn [order]; intros Hn.
  - replace (length l - MAX_PENDING) with 0 by lia. by destruct l.
  - cbn [evict order]. destruct l as [|f r]; [done|].
    destruct (Nat.ltb_spec MAX_PENDING (length (f :: r))).
    + rewrite IH; cbn [order length] in *; [|lia].
      by replace (S (length r) - MAX_PENDING) with (S (length r - MAX_PENDING)) by lia.
    + by replace (length (f :: r) - MAX_PENDING) with 0 by lia.
Qed.

Lemma evict_wf n s : wf s -> wf (evict n s).
Proof.
  revert s. induction n as [|n IH]; intros [p l] H; [done|]. cbn [evict order].
  destruct l as [|f r]; [done|]. destruct (_ <? _)%nat; [|done]. apply IH.
  destruct H as [Hn Hd Hk]. cbn in *. apply NoDup_cons in Hn as [Hf Hr]. split; cbn; [done| |].
  - intros g. specialize (Hd g). rewrite lookup_delete. case_decide as E; [subst g|].
    + split; [done|intros []; done].
    + rewrite <- Hd, elem_of_cons. naive_solver.
  - intros g k. rewrite lookup_delete. case_decide; naive_solver.
Qed.

(** A fingerprint that stays in the order keeps its key. *)
Lemma evict_lookup n s f : wf s -> f ∈ order (evict n s) -> pending (evict n s) !! f = pending s !! f.
Proof.
  revert s. induction n as [|n IH]; intros [p l] H Hf; [done|]. cbn [evict order] in *.
  destruct l as [|g r]; [done|]. destruct (_ <? _)%nat eqn:E; [|done].
  assert (Hw : wf (Scans (delete g p) r)).
  { pose proof (evict_wf 1 _ H) as H1. cbn [evict order] in H1. by rewrite E in H1. }
  rewrite IH by done. cbn. apply lookup_delete_ne. intros ->.
  assert (Hin : f ∈ order (Scans (delete f p) r)).
  { apply (wf_dom _ Hw). cbn. apply (wf_dom _ (evict_wf n _ Hw)) in Hf.
    rewrite IH in Hf; [done|done|]. by apply (wf_dom _ (evict_wf n _ Hw)). }
  destruct H as [[Hn _]%NoDup_cons _ _]. done.
Qed.

Lemma wf_insert s f k :
  wf s -> f ∉ order s -> valid_key k = true -> wf (Scans (<[f := k]> (pending s)) (order s ++ [f])).
Proof.
  intros [Hn Hd Hk] Hf Hv. split; cbn.
  - apply NoDup_app. split; [done|]. split; [|apply NoDup_singleton].
    intros g Hg ->%list_elem_of_singleton. done.
  - intros g. rewrite elem_of_app, list_elem_of_singleton, lookup_insert, Hd.
    case_decide; naive_solver.
  - intros g k'. rewrite lookup_insert. case_decide; naive_solver.
Qed.

Lemma restore_entry_wf s e : wf s -> wf (restore_entry s e).
Proof.
  intros H. unfold restore_entry, valid_entry.
  destruct e as [| | | | |[|[] [|[] ]]|]; try done.
  destruct (_ && _) eqn:E; [|done]. apply andb_prop in E as [_ Hv].
  destruct (live_key s s0) eqn:El; [done|]. apply wf_insert; [done| |done].
  rewrite (wf_dom _ H). rewrite <- live_key_wf by done. by rewrite El.
Qed.

Lemma wf_empty : wf no_scans.
Proof. split; cbn; [constructor| |done]. intros f. rewrite lookup_empty. split; [intros ?%not_elem_of_nil; done|intros []; done]. Qed.

Lemma restore_wf st : wf (restore st no_scans).
Proof.
  destruct st as [[| | | | |l|]|]; try apply wf_empty. apply evict_wf.
  assert (forall s, wf s -> wf (fold_left restore_entry l s)) as H; [|apply H, wf_empty].
  induction l; cbn; auto using restore_entry_wf.
Qed.

Lemma hex2_valid n : (n < 256)%nat -> sall is_lower_hex (hex2 n) = true /\ String.length (hex2 n) = 2.
Proof.
  intros H. split; [|done].
  assert (Hall : forallb (fun i => sall is_lower_hex (hex2 i)) (seq 0 256) = true) by (vm_compute; done).
  rewrite forallb_forall in Hall. apply Hall, in_seq. lia.
Qed.

Lemma concat_nil_cons (a : string) l : String.concat "" (a :: l) = a +:+ String.concat "" l.
Proof.
  destruct l as [|b l]; cbn [String.concat]; [|done]. by rewrite string_app_nil_r.
Qed.

Lemma newKey_valid bytes :
  length bytes = 16 -> Forall (fun b => b < 256)%nat bytes -> valid_key (newKey bytes) = true.
Proof.
  intros Hl Hb. unfold valid_key, newKey.
  assert (H : sall is_lower_hex (String.concat "" (map hex2 bytes)) = true /\
              String.length (String.concat "" (map hex2 bytes)) = 2 * length bytes).
  { clear Hl. induction Hb as [|b l Hb Hl IH]; [done|]. destruct IH as [I1 I2].
    destruct (hex2_valid b Hb) as [H1 H2]. cbn [map]. rewrite concat_nil_cons, sall_app, H1, I1.
    split; [done|]. rewrite string_app_length, H2, I2. cbn [length]. lia. }
  destruct H as [H1 H2]. rewrite Hl in H2.
  set (t := String.concat "" (map hex2 bytes)) in *.
  change (sdrop 5 ("scan-" +:+ t)) with t.
  change (String.length ("scan-" +:+ t)) with (5 + String.length t). rewrite H1, H2. reflexivity.
Qed.

(** *** The stored copy reads back *)

(** The state with only the fingerprints of [l]. *)
Definition restrict (s : scans) (l : list string) : scans :=
  Scans (filter (fun kv => kv.1 ∈ l) (pending s)) l.

Lemma restrict_all s : wf s -> restrict s (order s) = s.
Proof.
  intros H. destruct s as [p l]. unfold restrict. f_equal. apply map_eq. intros f.
  cbn [pending order]. destruct (p !! f) as [k|] eqn:E.
  - rewrite map_lookup_filter_Some_2 with (x := k); [done|done|].
    apply (wf_dom _ H). by exists k.
  - by apply map_lookup_filter_None_2; left.
Qed.

Lemma restrict_step s l f k :
  f ∉ l -> pending s !! f = Some k ->
  Scans (<[f := k]> (pending (restrict s l))) (l ++ [f]) = restrict s (l ++ [f]).
Proof.
  intros Hf Hk. unfold restrict. f_equal. apply map_eq. intros g. cbn [pending].
  rewrite lookup_insert, !map_lookup_filter. case_decide as E; [subst g|].
  - rewrite Hk. cbn. rewrite option_guard_True; [done|]. apply elem_of_app. right. by apply list_elem_of_singleton.
  - destruct (pending s !! g) as [x|]; [cbn|done]. apply option_guard_iff.
    rewrite elem_of_app, list_elem_of_singleton. naive_solver.
Qed.

Lemma entries_of_wf s l :
  wf s -> (forall f, f ∈ l -> f ∈ order s) ->
  omap (fun f => if live_key s f then option_map (pair f) (pending s !! f) else None) l =
  map (fun f => (f, default "" (pending s !! f))) l.
Proof.
  intros H Hl. induction l as [|f l IH]; [done|].
  assert (Hs : is_Some (pending s !! f)) by (apply (wf_dom _ H), Hl; left).
  cbn. rewrite (proj2 (live_key_wf s f H) Hs). destruct Hs as [k ->]. cbn. f_equal.
  apply IH. intros g Hg. apply Hl. by right.
Qed.

Lemma restore_fold s l1 l2 :
  wf s -> order s = l1 ++ l2 -> Forall (fun f => String.length f <= 1024)%nat l2 ->
  fold_left restore_entry
    (map (fun fk => VArr [VStr fk.1; VStr fk.2]) (map (fun f => (f, default "" (pending s !! f))) l2))
    (restrict s l1) = restrict s (order s).
Proof.
  intros H. revert l1. induction l2 as [|f l2 IH]; intros l1 E Hf; [by rewrite E, app_nil_r|].
  apply Forall_cons in Hf as [Hlen Hf].
  assert (Hk : exists k, pending s !! f = Some k).
  { apply (wf_dom _ H). rewrite E. apply elem_of_app. right. left. }
  destruct Hk as [k Hk].
  assert (Hn : f ∉ l1).
  { pose proof (wf_nodup _ H) as Hnd. rewrite E in Hnd. apply NoDup_app in Hnd as (_ & Hd & _).
    intros Hin. apply (Hd f Hin). left. }
  assert (Hl : live_key (restrict s l1) f = false).
  { unfold live_key. cbn. by rewrite map_lookup_filter_None_2 by (right; naive_solver). }
  assert (Hstep : restore_entry (restrict s l1) (VArr [VStr f; VStr k]) = restrict s (l1 ++ [f])).
  { unfold restore_entry, valid_entry.
    rewrite (proj2 (Nat.leb_le _ _) Hlen), (wf_keys _ H _ _ Hk). cbn [andb].
    rewrite Hl. by apply restrict_step. }
  cbn [map fold_left]. rewrite Hk. cbn [from_option id fst snd]. rewrite Hstep. apply IH; [|done].
  by rewrite <- app_assoc.
Qed.

Lemma restore_persist s :
  wf s -> (length (order s) <= MAX_PENDING)%nat ->
  Forall (fun f => String.length f <= 1024)%nat (order s) ->
  restore (persist s) no_scans = s.
Proof.
  intros H Hlen Hs. unfold persist, entries_of. rewrite entries_of_wf by done.
  pose proof (restore_fold s [] (order s) H eq_refl Hs) as Hr.
  replace (restrict s []) with no_scans in Hr.
  2:{ unfold restrict, no_scans. f_equal. symmetry. apply map_eq. intros f. rewrite lookup_empty.
      apply map_lookup_filter_None_2. right. intros x _ Hx. by apply not_elem_of_nil in Hx. }
  rewrite restrict_all in Hr by done.
  destruct (order s) as [|f l] eqn:E; cbn [map] in *; [done|].
  unfold restore. rewrite Hr. unfold trim_pending. clear Hr. rewrite E in *.
  destruct s as [p o]. cbn [order] in *. subst o. cbn [length evict order].
  cbn [length] in Hlen. destruct (Nat.ltb_spec MAX_PENDING (S (length l))); [lia|done].
Qed.

(** *** Preservation *)

Record good (w : tab) : Prop := {
  g_wf : wf (mem w);
  g_len : (length (order (mem w)) <= MAX_PENDING)%nat;
  g_short : Forall (fun f => String.length f <= 1024)%nat (order (mem w));
  g_sync : restore (store w) no_scans = mem w;
}.

(** Sixteen random bytes, and a fingerprint the storage can take back. *)
Definition good_op (o : op) : Prop :=
  match o with
  | OSubmit f bytes =>
      length bytes = 16 /\ Forall (fun b => b < 256)%nat bytes /\ (String.length f <= 1024)%nat
  | _ => True
  end.

Lemma trim_order s : order (trim_pending s) = drop (length (order s) - MAX_PENDING) (order s).
Proof. apply evict_order. lia. Qed.

Lemma trim_len s : (length (order (trim_pending s)) <= MAX_PENDING)%nat.
Proof. rewrite trim_order, length_drop. lia. Qed.

Lemma restore_short st : Forall (fun f => String.length f <= 1024)%nat (order (restore st no_scans)).
Proof.
  destruct st as [[| | | | |l|]|]; try constructor. cbn [restore].
  rewrite trim_order. apply Forall_drop.
  assert (forall s, Forall (fun f => String.length f <= 1024)%nat (order s) ->
    Forall (fun f => String.length f <= 1024)%nat (order (fold_left restore_entry l s))) as H.
  { induction l as [|e l IH]; cbn; [done|]. intros s Hs. apply IH. unfold restore_entry, valid_entry.
    destruct e as [| | | | |[|[] [|[] ]]|]; try done.
    destruct (_ && _) eqn:E; [|done]. apply andb_prop in E as [E%Nat.leb_le _].
    destruct (live_key _ _); [done|]. cbn. apply Forall_app. split; [done|]. by apply Forall_singleton. }
  apply H. constructor.
Qed.

Lemma restore_len st : (length (order (restore st no_scans)) <= MAX_PENDING)%nat.
Proof. destruct st as [[| | | | |l|]|]; cbn [restore]; try (cbn; lia). apply trim_len. Qed.

Lemma load_good st : good (load st).
Proof. split; cbn; auto using restore_wf, restore_short, restore_len. Qed.

Lemma good_persisted s st :
  wf s -> (length (order s) <= MAX_PENDING)%nat ->
  Forall (fun f => String.length f <= 1024)%nat (order s) ->
  st = persist s -> good (Tab s st).
Proof. intros H1 H2 H3 ->. split; cbn; auto using restore_persist. Qed.

Lemma live_not_in s f : wf s -> live_key s f = false -> f ∉ order s.
Proof. intros H E Hf. apply (wf_dom _ H), (live_key_wf s f H) in Hf. congruence. Qed.

Lemma submit_good w f bytes : good_op (OSubmit f bytes) -> good w -> good (step w (OSubmit f bytes)).
Proof.
  intros (Hl & Hb & Hf) [H1 H2 H3 H4]. cbn [step]. unfold submit.
  destruct (live_key (mem w) f) eqn:E; [by split|]. cbv beta iota zeta. cbn [from_option id].
  apply good_persisted; [|apply trim_len| |done].
  - apply evict_wf, wf_insert; auto using newKey_valid, live_not_in.
  - rewrite trim_order. apply Forall_drop. cbn [order]. apply Forall_app. split; [done|]. by apply Forall_singleton.
Qed.

Lemma wf_delete s f : wf s -> wf (Scans (delete f (pending s)) (filter (fun g => g ≠ f) (order s))).
Proof.
  intros [Hn Hd Hk]. split; cbn.
  - by apply NoDup_filter.
  - intros g. rewrite list_elem_of_filter, lookup_delete, Hd. case_decide; naive_solver.
  - intros g k. rewrite lookup_delete. case_decide; naive_solver.
Qed.

Lemma admit_good w f k : good w -> good (step w (OAdmit f k)).
Proof.
  intros [H1 H2 H3 H4]. cbn. unfold admit_scan. case_decide; [|by split]. cbn.
  apply good_persisted; [by apply wf_delete| | |done]; cbn.
  - pose proof (length_filter (fun g => g ≠ f) (order (mem w))). lia.
  - rewrite Forall_forall in H3 |- *. intros g [_ Hg]%list_elem_of_filter. auto.
Qed.

Lemma step_good w o : good_op o -> good w -> good (step w o).
Proof.
  intros Ho Hw. destruct o as [f bytes|f k|]; [by apply submit_good|by apply admit_good|].
  destruct w as [m st], Hw as [H1 H2 H3 H4]. cbn in *. by rewrite H4.
Qed.

Lemma fold_good ops w : Forall good_op ops -> good w -> good (fold_left step ops w).
Proof.
  intros H. revert w. induction H as [|o l Ho Hl IH]; intros w Hw; cbn; [done|].
  apply IH, step_good; auto.
Qed.

#[export] Hint Resolve load_good step_good fold_good : js.

(** *** How long a key survives *)

(** The submits of other scans among [ops]. *)
Definition other_submits (f : string) (ops : list op) : nat :=
  list_sum (map (fun o => match o with OSubmit g _ => if decide (g = f) then 0 else 1 | _ => 0 end) ops).

(** The key [f]'s next post carries. *)
Definition sent_key (w : tab) (f : string) (bytes : list nat) : string :=
  (submit f bytes (mem w)).1.1.

(** [f] is pending under [k] with at most [n] younger entries. *)
Definition held (f k : string) (n : nat) (w : tab) : Prop :=
  pending (mem w) !! f = Some k /\
  exists l1 l2, order (mem w) = l1 ++ f :: l2 /\ (length l2 <= n)%nat.

Lemma held_sent f k n w bytes : good w -> held f k n w -> sent_key w f bytes = k.
Proof.
  intros Hg [Hp _]. unfold sent_key, submit.
  rewrite (proj2 (live_key_wf _ f (g_wf _ Hg))) by eauto. cbn. by rewrite Hp.
Qed.

Lemma held_weaken f k n m w : (n <= m)%nat -> held f k n w -> held f k m w.
Proof. intros Hn [Hp (l1 & l2 & E & Hl)]. split; [done|]. exists l1, l2. split; [done|lia]. Qed.

Lemma trim_pending_held s f k l1 l2 :
  wf s -> order s = l1 ++ f :: l2 -> (length l2 < MAX_PENDING)%nat -> pending s !! f = Some k ->
  pending (trim_pending s) !! f = Some k /\
  exists l1', order (trim_pending s) = l1' ++ f :: l2.
Proof.
  intros H E Hl Hp.
  assert (Ho : order (trim_pending s) = drop (length (order s) - MAX_PENDING) l1 ++ f :: l2).
  { rewrite trim_order, E, length_app. cbn [length]. rewrite drop_app_le by lia. done. }
  split; [|by eexists]. unfold trim_pending in *. rewrite evict_lookup; [done|done|].
  rewrite Ho. apply elem_of_app. right. left.
Qed.

Lemma submit_other_held f k g bytes n w :
  good w -> good_op (OSubmit g bytes) -> g ≠ f -> (S n < MAX_PENDING)%nat ->
  held f k n w -> held f k (S n) (step w (OSubmit g bytes)).
Proof.
  intros Hg (Hb1 & Hb2 & _) Hne Hn Hh. cbn [step]. unfold submit.
  destruct (live_key (mem w) g) eqn:E; [by apply (held_weaken _ _ n); [lia|]|].
  cbv beta iota zeta. cbn [from_option id].
  destruct Hh as [Hp (l1 & l2 & Ho & Hl)]. unfold held. cbn [mem].
  destruct (trim_pending_held (Scans (<[g := newKey bytes]> (pending (mem w))) (order (mem w) ++ [g]))
              f k l1 (l2 ++ [g])) as [H1 [l1' H2]].
  - apply wf_insert; auto using newKey_valid, live_not_in, g_wf.
  - cbn. by rewrite Ho, <- app_assoc.
  - rewrite length_app. cbn. unfold MAX_PENDING in *. lia.
  - cbn. by rewrite lookup_insert_ne.
  - split; [exact H1|]. exists l1', (l2 ++ [g]). split; [exact H2|]. rewrite length_app. cbn. lia.
Qed.

Lemma admit_other_held f k g k' n w :
  (g, k') ≠ (f, k) -> held f k n w -> held f k n (step w (OAdmit g k')).
Proof.
  intros Hne [Hp (l1 & l2 & Ho & Hl)]. cbn [step]. unfold admit_scan.
  case_decide as E; [|by split; eauto]. assert (g ≠ f) by (intros ->; congruence).
  split; cbn.
  - by rewrite lookup_delete_ne.
  - exists (filter (fun h => h ≠ g) l1), (filter (fun h => h ≠ g) l2). split.
    + by rewrite Ho, filter_app, filter_cons_True by done.
    + pose proof (length_filter (fun h => h ≠ g) l2). lia.
Qed.

Lemma step_held f k o n w :
  good w -> good_op o -> o ≠ OAdmit f k -> (other_submits f [o] + n < MAX_PENDING)%nat ->
  held f k n w -> held f k (other_submits f [o] + n) (step w o).
Proof.
  intros Hg Ho Hne Hn Hh. unfold other_submits in *. cbn [map list_sum foldr] in *.
  destruct o as [g b|g k'|]; [case_decide as E; [subst g|]| |]; cbn [Nat.add] in *.
  - cbn [step]. unfold submit. rewrite (proj2 (live_key_wf _ f (g_wf _ Hg))) by (destruct Hh; eauto).
    done.
  - by apply submit_other_held.
  - apply admit_other_held; [congruence|done].
  - unfold held. cbn [mem step]. by rewrite (g_sync _ Hg).
Qed.

Lemma fold_held f k ops n w :
  good w -> Forall good_op ops -> OAdmit f k ∉ ops -> (other_submits f ops + n < MAX_PENDING)%nat ->
  held f k n w -> held f k (other_submits f ops + n) (fold_left step ops w).
Proof.
  intros Hg Hops. revert n w Hg. induction Hops as [|o ops Ho Hops IH]; intros n w Hg Hin Hn Hh; [done|].
  assert (E : other_submits f (o :: ops) = (other_submits f [o] + other_submits f ops)%nat).
  { unfold other_submits, list_sum. cbn [map foldr]. lia. }
  rewrite E in *. cbn [fold_left]. apply not_elem_of_cons in Hin as [Hne Hin].
  replace (other_submits f [o] + other_submits f ops + n)%nat
    with (other_submits f ops + (other_submits f [o] + n))%nat by lia.
  apply IH; auto with js; [lia|]. apply step_held; auto. lia.
Qed.

(** A scan that was not pending is, once submitted. *)
Lemma submit_held f bytes w :
  good w -> good_op (OSubmit f bytes) -> live_key (mem w) f = false ->
  held f (newKey bytes) 0 (step w (OSubmit f bytes)).
Proof.
  intros Hg (Hb1 & Hb2 & _) E. cbn [step]. unfold submit. rewrite E.
  cbv beta iota zeta. cbn [from_option id]. unfold held. cbn [mem].
  destruct (trim_pending_held (Scans (<[f := newKey bytes]> (pending (mem w))) (order (mem w) ++ [f]))
              f (newKey bytes) (order (mem w)) []) as [H1 [l H2]]; try done.
  - apply wf_insert; auto using newKey_valid, live_not_in, g_wf.
  - unfold MAX_PENDING. cbn. lia.
  - cbn. by rewrite lookup_insert_eq.
  - split; [exact H1|]. exists l, []. by split.
Qed.

(** ** Properties *)

(** The table of pending scan keys is bounded and durable.  Whatever
    session storage holds when the page loads, after any sequence of submits,
    admissions and reloads at most sixteen scans are pending, the order lists
    each pending fingerprint exactly once, every key is a well-formed scan key,
    and a further reload changes nothing: the copy in session storage restores
    the table as it is. *)
Theorem scan_keys_bounded_and_durable (st : stored) (ops : list op) :
  Forall good_op ops ->
  let w := run st ops in
  (length (order (mem w)) <= MAX_PENDING)%nat /\
  NoDup (order (mem w)) /\
  (forall f, f ∈ order (mem w) <-> is_Some (pending (mem w) !! f)) /\
  (forall f k, pending (mem w) !! f = Some k -> valid_key k = true) /\
  step w OReload = w.
Proof.
  intros H w. assert (Hg : good w) by (unfold w, run; auto with js).
  pose proof (g_sync _ Hg) as Hs. destruct (g_wf _ Hg) as [H1 H2 H3].
  split; [apply Hg|]. split; [done|]. split; [done|]. split; [done|].
  cbn [step]. rewrite Hs. by destruct w.
Qed.

(** *** When a key is forgotten *)

(** A fingerprint that is not pending is sent under a new key. *)
Lemma sent_new w f bytes : good w -> f ∉ order (mem w) -> sent_key w f bytes = newKey bytes.
Proof.
  intros Hg Hf. unfold sent_key, submit. destruct (live_key (mem w) f) eqn:E; [|done].
  exfalso. apply Hf, (wf_dom _ (g_wf _ Hg)), (live_key_wf _ f (g_wf _ Hg)), E.
Qed.

(** A scan that was not pending goes to the end of the order, the oldest leaving. *)
Lemma submit_new_order w g bytes : good w -> g ∉ order (mem w) ->
  order (mem (step w (OSubmit g bytes))) = drop (S (length (order (mem w))) - MAX_PENDING) (order (mem w) ++ [g]).
Proof.
  intros Hg Hn. cbn [step]. unfold submit. destruct (live_key (mem w) g) eqn:E.
  { exfalso. apply Hn, (wf_dom _ (g_wf _ Hg)), (live_key_wf _ g (g_wf _ Hg)), E. }
  cbv beta iota zeta. cbn [mem]. rewrite trim_order. cbn [order]. rewrite length_app. cbn [length]. by rewrite Nat.add_1_r.
Qed.

Lemma submits_new_order gs bytes w :
  good w -> Forall good_op (map (fun g => OSubmit g bytes) gs) -> NoDup gs -> (forall g, g ∈ gs -> g ∉ order (mem w)) ->
  order (mem (fold_left step (map (fun g => OSubmit g bytes) gs) w)) =
  drop (length (order (mem w)) + length gs - MAX_PENDING) (order (mem w) ++ gs).
Proof.
  revert w. induction gs as [|g gs IH]; intros w Hg Ho Hn Hd; cbn [map fold_left length].
  { pose proof (g_len _ Hg). replace (length (order (mem w)) + 0 - MAX_PENDING) with 0 by lia. by rewrite app_nil_r. }
  apply Forall_cons in Ho as [Ho1 Ho]. apply NoDup_cons in Hn as [Hn1 Hn].
  pose proof (submit_new_order w g bytes Hg (Hd g ltac:(left))) as E. pose proof (g_len _ Hg) as Hlen.
  rewrite IH; auto with js.
  - rewrite E, length_drop, length_app. cbn [length].
    set (o := order (mem w)) in *. rewrite <- (drop_app_le (o ++ [g]) gs) by (rewrite length_app; cbn; lia).
    rewrite drop_drop, <- app_assoc. cbn [app]. f_equal. lia.
  - intros h Hh. rewrite E. intros Hin%subseteq_drop. apply elem_of_app in Hin as [Hin|Hin%list_elem_of_singleton].
    + apply (Hd h); [by right|done].
    + by subst h.
Qed.


Module ScanDemo.
Definition fp : string := "a".
Definition bytes : list nat := repeat 7 16.
Definition other : op := OSubmit "b" (repeat 9 16).

Lemma bytes_ok : good_op (OSubmit fp bytes).
Proof. repeat split; [repeat constructor; lia|cbn; lia]. Qed.

Lemma other_ok : good_op other.
Proof. repeat split; [repeat constructor; lia|cbn; lia]. Qed.
End ScanDemo.

Lemma scan_keys_bounded_and_durable_witness :
  step (run None [OSubmit ScanDemo.fp ScanDemo.bytes; ScanDemo.other]) OReload
  = run None [OSubmit ScanDemo.fp ScanDemo.bytes; ScanDemo.other].
Proof.
  refine (proj2 (proj2 (proj2 (proj2 (scan_keys_bounded_and_durable None _ _))))).
  repeat (apply Forall_cons_2 || apply Forall_nil_2); [apply ScanDemo.bytes_ok|apply ScanDemo.other_ok].
Defined.

