(* ===== verification/Inventory.v ===== *)
(** * Complete inventory reads (api.jsx, lines 383-472)

    [getInventoryList] reads a collection page by page and refuses any answer
    whose pagination metadata does not add up; [fetchInventorySnapshot] shares
    one load of the six collections between callers and caches its result
    until it is older than five seconds or an inventory write invalidates it.
    The pages come from the network: [fetch i path] is the settled [getJSON] of
    the [i]-th request of a read.  The guard on the number of pages is the
    structural argument of [readPage], so the loop's termination is visible in
    the definition. *)

From Stdlib Require Import ZArith Lia Ascii.
From Corelib Require Import SpecFloat.
From stdpp Require Import strings pretty gmap list.
From S2P Require Import Prelude JsNum JsValue ApiClient Endpoints.

Local Open Scope string_scope.
Local Open Scope list_scope.

Definition INVENTORY_PAGE_SIZE : nat := 1000.
Definition INVENTORY_MAX_ROWS : Z := 100000.

(** [Math.ceil(INVENTORY_MAX_ROWS / INVENTORY_PAGE_SIZE)]. *)
Definition MAX_PAGES : nat := 100.

Definition too_large : jserr :=
  ApiError (VStr "INVENTORY_TOO_LARGE") (VStr "Inventory exceeds the dashboard’s 100,000-row collection limit.").
Definition bad_page (msg : string) : jserr := ApiError (VStr "BAD_INVENTORY_PAGE") (VStr msg).
Definition changed : jserr :=
  ApiError (VStr "INVENTORY_CHANGED") (VStr "Inventory changed during paging. Reload to retry.").

(** [v === n] for a number [n]. *)
Definition is_number (v : value) (n : num) : bool :=
  match v with VNum m => nequ m n | _ => false end.

Definition page_path (path : string) (offset : nat) : string :=
  path +:+ (if contains "?" path then "&" else "?") +:+ "limit=" +:+ num_str (ofZ (Z.of_nat INVENTORY_PAGE_SIZE))
    +:+ "&offset=" +:+ num_str (ofZ (Z.of_nat offset)).

(** The metadata of a page, once its types are right: [page.limit] is the page
    size, [page.offset] the offset asked for, [page.total] a non-negative
    integer and [page.hasMore] a boolean. *)
Definition page_meta (result : value) (offset : nat) : option (list value * num * bool * value) :=
  let page := if truthy result then fld result "page" else result in
  let items := if truthy result then fld result "items" else result in
  match items with
  | VArr l =>
      if truthy page && is_number (fld page "limit") (ofZ (Z.of_nat INVENTORY_PAGE_SIZE))
         && is_number (fld page "offset") (ofZ (Z.of_nat offset))
      then match fld page "total", fld page "hasMore" with
           | VNum t, VBool more =>
               if is_integer t && negb (nlt t n0) then Some (l, t, more, fld page "nextOffset") else None
           | _, _ => None
           end
      else None
  | _ => None
  end.

(** The second group of checks: the page is not longer than asked for,
    [hasMore] and [nextOffset] say what the counts say, and progress is made. *)
Definition page_consistent (offset : nat) (items : list value) (total : num) (more : bool) (next : value) : bool :=
  let upto := ofZ (Z.of_nat (offset + length items)) in
  (length items <=? INVENTORY_PAGE_SIZE)%nat
  && Bool.eqb more (nlt upto total)
  && (if more then is_number next upto else match next with VNull => true | _ => false end)
  && negb (more && (length items =? 0)%nat).

(** The id an item is deduplicated by. *)
Definition item_id (item : value) : option string :=
  if truthy item && negb (nullish (fld item "id")) then Some (vstr (fld item "id")) else None.

(** [items.forEach]: push every item, refuse an id seen before. *)
Fixpoint push_items (items : list value) (rows : list value) (seen : gset string)
    : res (list value * gset string) :=
  match items with
  | [] => Ok (rows, seen)
  | item :: r =>
      match item_id item with
      | Some id =>
          if decide (id ∈ seen) then Throw changed
          else push_items r (rows ++ [item]) ({[id]} ∪ seen)
      | None => push_items r (rows ++ [item]) seen
      end
  end.

Section Paging.
Context (path : string) (fetch : nat -> string -> res value).

(** One page: its items are pushed; the outcome says whether to go on.  The
    total is the one of the first page. *)
Definition take_page (result : value) (expected : option num) (offset : nat)
    (rows : list value) (seen : gset string) : res (num * list value * gset string * bool * nat) :=
  match page_meta result offset with
  | None => Throw (bad_page "Inventory returned invalid pagination metadata.")
  | Some (items, total, more, next) =>
      if nlt (ofZ INVENTORY_MAX_ROWS) total then Throw too_large
      else if match expected with Some t => negb (nequ t total) | None => false end then Throw changed
      else if negb (page_consistent offset items total more next)
      then Throw (bad_page "Inventory returned inconsistent pagination metadata.")
      else match push_items items rows seen with
           | Throw e => Throw e
           | Ok (rows', seen') =>
               if negb more && negb (nequ (ofZ (Z.of_nat (length rows'))) total) then Throw changed
               else Ok (default total expected, rows', seen', more, offset + length items)
           end
  end.

(** The read from its [i]-th request on, with [left] requests allowed; the
    paths requested come with the outcome. *)
Fixpoint readPage (left i : nat) (expected : option num) (offset : nat)
    (rows : list value) (seen : gset string) : res (list value) * list string :=
  match left with
  | O => (Throw too_large, [])
  | S left' =>
      let p := page_path path offset in
      match fetch i p with
      | Throw e => (Throw e, [p])
      | Ok result =>
          match take_page result expected offset rows seen with
          | Throw e => (Throw e, [p])
          | Ok (total, rows', seen', true, offset') =>
              let '(r, ps) := readPage left' (S i) (Some total) offset' rows' seen' in (r, p :: ps)
          | Ok (_, rows', _, false, _) => (Ok rows', [p])
          end
      end
  end.

Definition getInventoryList : res (list value) * list string :=
  readPage MAX_PAGES 0 None 0 [] ∅.
End Paging.

(** ** Lemmas on one page *)

Abbreviation ids := (omap item_id).

(** The set of ids seen is that of the rows collected, each once. *)
Record tracked (rows : list value) (seen : gset string) : Prop := {
  tr_seen : forall x, x ∈ seen <-> x ∈ ids rows;
  tr_nodup : NoDup (ids rows);
}.

Lemma ids_app (a b : list value) : ids (a ++ b) = ids a ++ ids b.
Proof. apply omap_app. Qed.

Lemma tracked_push rows seen item :
  tracked rows seen ->
  match item_id item with
  | Some id => id ∉ seen -> tracked (rows ++ [item]) ({[id]} ∪ seen)
  | None => tracked (rows ++ [item]) seen
  end.
Proof.
  intros [H1 H2]. destruct (item_id item) as [id|] eqn:E; [intros Hid|]; split; rewrite ids_app; cbn; rewrite E.
  - intros x. rewrite elem_of_union, elem_of_singleton, elem_of_app, list_elem_of_singleton, H1. tauto.
  - apply NoDup_app. split; [done|]. split; [|apply NoDup_singleton].
    intros x Hx ->%list_elem_of_singleton. by apply Hid, H1.
  - intros x. by rewrite app_nil_r, H1.
  - by rewrite app_nil_r.
Qed.

(** The items are all pushed, or an id repeats. *)
Lemma push_items_spec items rows seen :
  tracked rows seen ->
  match push_items items rows seen with
  | Ok (rows', seen') => rows' = rows ++ items /\ tracked rows' seen'
  | Throw e => e = changed /\ ~ NoDup (ids (rows ++ items))
  end.
Proof.
  revert rows seen. induction items as [|item r IH]; intros rows seen H; cbn [push_items].
  { by rewrite app_nil_r. }
  pose proof (tracked_push rows seen item H) as Hp.
  assert (E : rows ++ item :: r = (rows ++ [item]) ++ r) by (by rewrite <- app_assoc).
  destruct (item_id item) as [id|] eqn:Eid; [case_decide as Hd|].
  - split; [done|]. rewrite ids_app. cbn. rewrite Eid. intros (_ & Hn & _)%NoDup_app.
    apply (Hn id); [by apply (tr_seen _ _ H)|left].
  - rewrite E. by apply IH, Hp.
  - rewrite E. by apply IH, Hp.
Qed.

(** What an accepted page says. *)
Lemma take_page_ok result expected offset rows seen total rows' seen' more offset' :
  tracked rows seen ->
  take_page result expected offset rows seen = Ok (total, rows', seen', more, offset') ->
  exists items t next,
    page_meta result offset = Some (items, t, more, next) /\
    (length items <= INVENTORY_PAGE_SIZE)%nat /\
    rows' = rows ++ items /\ offset' = offset + length items /\ tracked rows' seen' /\
    total = default t expected /\
    match expected with Some x => nequ x t = true | None => True end /\
    (more = false -> nequ (ofZ (Z.of_nat (length rows'))) t = true).
Proof.
  intros Ht. unfold take_page.
  destruct (page_meta result offset) as [[[[items t] m] next]|] eqn:Em; [|done].
  destruct (nlt _ t); [done|].
  destruct (match expected with Some x => negb (nequ x t) | None => false end) eqn:Ee; [done|].
  destruct (page_consistent offset items t m next) eqn:Ec; [|done]. cbn [negb].
  pose proof (push_items_spec items rows seen Ht) as Hp.
  destruct (push_items items rows seen) as [[r s]|e]; [|done]. destruct Hp as [-> Hs].
  destruct (negb m && _) eqn:El; [done|]. intros [= <- <- <- <- <-].
  exists items, t, next. unfold page_consistent in Ec.
  apply andb_prop in Ec as [Ec _]. apply andb_prop in Ec as [Ec _]. apply andb_prop in Ec as [Ec _].
  split; [done|]. split; [by apply Nat.leb_le|]. split; [done|]. split; [done|]. split; [done|].
  split; [done|]. split.
  - destruct expected; [|done]. by apply negb_false_iff.
  - intros ->. cbn in El. by apply negb_false_iff.
Qed.

(** ** Whole reads *)

Section Reads.
Context (path : string) (fetch : nat -> string -> res value).

(** The [i]-th request asks for the rows after those of the pages before it
    and its answer is the page [items], of a collection of [total] rows. *)
Definition served (total : num) (i offset : nat) (items : list value) : Prop :=
  exists result t more next,
    fetch i (page_path path offset) = Ok result /\
    page_meta result offset = Some (items, t, more, next) /\ nequ t total = true.

(** The pages read from offset [offset] on, in order. *)
Fixpoint pages_served (total : num) (i offset : nat) (pages : list (list value)) (ps : list string) : Prop :=
  match pages, ps with
  | [], [] => True
  | items :: pages', p :: ps' =>
      p = page_path path offset /\ (length items <= INVENTORY_PAGE_SIZE)%nat /\
      served total i offset items /\ pages_served total (S i) (offset + length items) pages' ps'
  | _, _ => False
  end.

Lemma readPage_sound left i expected offset rows seen rows' ps :
  tracked rows seen -> readPage path fetch left i expected offset rows seen = (Ok rows', ps) ->
  exists pages total,
    rows' = rows ++ concat pages /\ NoDup (ids rows') /\ (length ps <= left)%nat /\
    match expected with Some x => nequ x total = true | None => True end /\
    nequ (ofZ (Z.of_nat (length rows'))) total = true /\
    pages_served total i offset pages ps.
Proof.
  revert i expected offset rows seen ps. induction left as [|left IH];
    intros i expected offset rows seen ps Ht; cbn [readPage]; [done|].
  destruct (fetch i (page_path path offset)) as [result|] eqn:Ef; [|done].
  destruct (take_page result expected offset rows seen) as [[[[[total r] s] more] off]|] eqn:Ep; [|done].
  apply take_page_ok in Ep as (items & t & next & Em & Hl & -> & -> & Hs & -> & He & Hlast); [|done].
  destruct more.
  - destruct (readPage path fetch left (S i) _ _ _ _) as [rr ps'] eqn:Er. intros [= -> <-].
    apply IH in Er as (pages & total & -> & Hn & Hps & Hx & Hlen & Hserved); [|done].
    exists (items :: pages), total. cbn [concat length pages_served].
    assert (Hd : nequ t total = true) by (destruct expected; cbn in Hx; eauto with js).
    rewrite app_assoc. repeat (split; [done || lia|]). split; [destruct expected; done|].
    split; [done|]. split; [done|]. split; [done|]. split; [|done].
    exists result, t, true, next. done.
  - intros [= <- <-]. exists [items], t. cbn [concat length pages_served]. rewrite app_nil_r.
    split; [done|]. split; [apply Hs|]. split; [lia|]. split; [done|]. split; [by apply Hlast|].
    split; [done|]. split; [done|]. split; [|done]. exists result, t, false, next.
    repeat (split; [done|]). specialize (Hlast eq_refl). eauto with js.
Qed.

Lemma pages_served_len total i offset pages ps :
  pages_served total i offset pages ps ->
  (length (concat pages) <= INVENTORY_PAGE_SIZE * length ps)%nat.
Proof.
  revert i offset ps. induction pages as [|p l IH]; intros i offset [|q ps]; try done.
  intros (_ & H1 & _ & H2). apply IH in H2. cbn [concat]. rewrite length_app.
  change (length (q :: ps)) with (S (length ps)). lia.
Qed.
(** The total may be replaced by an equal number. *)
Lemma pages_served_total total total' i offset pages ps :
  nequ total' total = true -> pages_served total i offset pages ps -> pages_served total' i offset pages ps.
Proof.
  intros Hq. revert i offset ps. induction pages as [|p l IH]; intros i offset [|q ps]; try done.
  intros (H1 & H2 & (r & t & m & n & H3 & H4 & H5) & H6). split; [done|]. split; [done|].
  split; [exists r, t, m, n; eauto with js|auto].
Qed.
End Reads.

(** ** A server that pages a fixed collection *)

Section Honest.
Context (path : string) (l : list value) (fetch : nat -> string -> res value).

(** The answer to a request at [offset]: at most a page of rows and the
    metadata of the collection. *)
Definition page_of (l : list value) (offset : nat) : value :=
  let items := take INVENTORY_PAGE_SIZE (drop offset l) in
  let upto := offset + length items in
  let more := (upto <? length l)%nat in
  VObj [("items", VArr items);
        ("page", VObj [("limit", vz (Z.of_nat INVENTORY_PAGE_SIZE)); ("offset", vz (Z.of_nat offset));
                       ("total", vz (Z.of_nat (length l))); ("hasMore", VBool more);
                       ("nextOffset", if more then vz (Z.of_nat upto) else VNull)])].

Context (Hsize : (Z.of_nat (length l) <= INVENTORY_MAX_ROWS)%Z) (Hids : NoDup (ids l)).
Context (Hfetch : forall i, (i = 0 \/ INVENTORY_PAGE_SIZE * i < length l)%nat ->
  fetch i (page_path path (INVENTORY_PAGE_SIZE * i)) = Ok (page_of l (INVENTORY_PAGE_SIZE * i))).

Lemma nequ_ofZ_same (z : Z) : (0 <= z < 2 ^ 53)%Z -> nequ (ofZ z) (ofZ z) = true.
Proof. intros H. by rewrite nequ_ofZ, Z.eqb_refl. Qed.

Lemma page_meta_of offset :
  (offset <= length l)%nat ->
  page_meta (page_of l offset) offset =
    let items := take INVENTORY_PAGE_SIZE (drop offset l) in
    let upto := offset + length items in
    let more := (upto <? length l)%nat in
    Some (items, ofZ (Z.of_nat (length l)), more, if more then vz (Z.of_nat upto) else VNull).
Proof.
  intros Ho. unfold INVENTORY_MAX_ROWS in Hsize. unfold page_meta, page_of.
  cbn -[ofZ nequ INVENTORY_PAGE_SIZE take drop is_integer nlt Nat.ltb Nat.add].
  rewrite !nequ_ofZ_same by (unfold INVENTORY_PAGE_SIZE; lia).
  cbn [andb]. rewrite is_integer_ofZ by lia. change n0 with (ofZ 0). rewrite nlt_ofZ by lia.
  rewrite (proj2 (Z.ltb_ge _ _)) by lia. reflexivity.
Qed.

(** The metadata of a served page passes the checks. *)
Lemma page_consistent_of offset :
  (offset = 0 \/ offset < length l)%nat ->
  let items := take INVENTORY_PAGE_SIZE (drop offset l) in
  let upto := offset + length items in
  page_consistent offset items (ofZ (Z.of_nat (length l))) (upto <? length l)%nat
    (if (upto <? length l)%nat then vz (Z.of_nat upto) else VNull) = true.
Proof.
  intros Ho items upto. pose proof Hsize as Hs. unfold INVENTORY_MAX_ROWS in Hs.
  assert (Hl : length items = Nat.min INVENTORY_PAGE_SIZE (length l - offset))
    by (unfold items; by rewrite length_take, length_drop).
  unfold page_consistent. fold upto. rewrite nlt_ofZ by lia.
  rewrite (proj2 (Nat.leb_le (length items) _)) by lia.
  replace (Z.of_nat upto <? Z.of_nat (length l))%Z with (upto <? length l)%nat
    by (apply Bool.eq_iff_eq_true; rewrite Nat.ltb_lt, Z.ltb_lt; lia).
  rewrite Bool.eqb_reflx. cbn [andb]. destruct (Nat.ltb_spec upto (length l)); [|done].
  unfold vz, is_number. rewrite nequ_ofZ_same by lia. cbn [andb].
  apply negb_true_iff, Nat.eqb_neq. unfold INVENTORY_PAGE_SIZE in *. lia.
Qed.

(** One page of the read: the next [INVENTORY_PAGE_SIZE] rows are taken. *)
Lemma take_page_of offset expected seen :
  (offset = 0 \/ offset < length l)%nat ->
  expected = None \/ expected = Some (ofZ (Z.of_nat (length l))) ->
  tracked (take offset l) seen ->
  let upto := offset + length (take INVENTORY_PAGE_SIZE (drop offset l)) in
  exists seen', tracked (take upto l) seen' /\
  take_page (page_of l offset) expected offset (take offset l) seen
    = Ok (ofZ (Z.of_nat (length l)), take upto l, seen', (upto <? length l)%nat, upto).
Proof.
  intros Ho He Ht upto. pose proof Hsize as Hs. unfold INVENTORY_MAX_ROWS in Hs.
  unfold take_page. rewrite page_meta_of by lia. cbv zeta iota. fold upto.
  set (items := take INVENTORY_PAGE_SIZE (drop offset l)) in *.
  assert (Hupto : (upto <= length l)%nat) by (unfold upto, items; rewrite length_take, length_drop; lia).
  assert (Hit : take upto l = take offset l ++ items).
  { unfold upto, items. rewrite length_take, length_drop. rewrite <- take_take_drop.
    f_equal. destruct (decide (INVENTORY_PAGE_SIZE <= length l - offset)%nat).
    - by rewrite Nat.min_l by lia.
    - rewrite Nat.min_r by lia. rewrite !take_ge; rewrite ?length_drop; lia || done. }
  rewrite nlt_ofZ by (unfold INVENTORY_MAX_ROWS; lia). rewrite (proj2 (Z.ltb_ge _ _)) by (unfold INVENTORY_MAX_ROWS; lia).
  replace (match expected with Some t => negb (nequ t (ofZ (Z.of_nat (length l)))) | None => false end) with false
    by (destruct He as [-> | ->]; [done|]; by rewrite nequ_ofZ_same by lia).
  assert (Hc := page_consistent_of offset Ho). cbv zeta in Hc. fold items upto in Hc.
  rewrite Hc. cbn [negb].
  pose proof (push_items_spec items (take offset l) seen Ht) as Hp.
  destruct (push_items items (take offset l) seen) as [[r s]|e].
  - destruct Hp as [-> Hs']. rewrite <- Hit in *. exists s. split; [done|].
    rewrite length_take, Nat.min_l by done.
    replace (default (ofZ (Z.of_nat (length l))) expected) with (ofZ (Z.of_nat (length l)))
      by (destruct He as [-> | ->]; done).
    destruct (Nat.ltb_spec upto (length l)); [done|]. cbn [negb andb].
    rewrite nequ_ofZ by lia. rewrite (proj2 (Z.eqb_eq _ _)) by lia. done.
  - destruct Hp as [_ Hn]. exfalso. apply Hn. rewrite <- Hit. rewrite <- (take_drop upto l), ids_app in Hids.
    by apply NoDup_app in Hids as [? _].
Qed.
Lemma readPage_of left i expected seen :
  (i = 0 \/ INVENTORY_PAGE_SIZE * i < length l)%nat ->
  (length l <= INVENTORY_PAGE_SIZE * (i + S left))%nat ->
  expected = None \/ expected = Some (ofZ (Z.of_nat (length l))) ->
  tracked (take (INVENTORY_PAGE_SIZE * i) l) seen ->
  (readPage path fetch (S left) i expected (INVENTORY_PAGE_SIZE * i)
     (take (INVENTORY_PAGE_SIZE * i) l) seen).1 = Ok l.
Proof.
  revert i expected seen. induction left as [|left IH]; intros i expected seen Hi Hl He Ht.
  all: destruct (take_page_of (INVENTORY_PAGE_SIZE * i) expected seen) as (seen' & Ht' & Hp);
    [destruct Hi as [-> |]; lia|done|done|].
  all: assert (Hlen : length (take INVENTORY_PAGE_SIZE (drop (INVENTORY_PAGE_SIZE * i) l))
      = Nat.min INVENTORY_PAGE_SIZE (length l - INVENTORY_PAGE_SIZE * i))
      by (by rewrite length_take, length_drop).
  all: remember (S left) as k eqn:Ek || remember 0 as k eqn:Ek; cbn [readPage]; rewrite Hfetch, Hp by done.
  all: rewrite Hlen in *.
  all: destruct (Nat.ltb_spec (INVENTORY_PAGE_SIZE * i + Nat.min INVENTORY_PAGE_SIZE
         (length l - INVENTORY_PAGE_SIZE * i)) (length l)) as [Hlt|Hge];
    [|cbn [fst]; rewrite take_ge by lia; done].
  - exfalso. unfold INVENTORY_PAGE_SIZE in *. lia.
  - replace (INVENTORY_PAGE_SIZE * i + Nat.min INVENTORY_PAGE_SIZE (length l - INVENTORY_PAGE_SIZE * i))
      with (INVENTORY_PAGE_SIZE * S i) in * by lia.
    specialize (IH (S i) (Some (ofZ (Z.of_nat (length l)))) seen').
    destruct (readPage path fetch k (S i) _ _ _ _) as [r ps].
    apply IH; [by right|lia|by right|done].
Qed.
End Honest.

(** ** Properties of a read *)

(** A collection is read completely or not at all.  Whatever the network
    answers, when the read succeeds at most 100 requests were made and at most
    100,000 rows collected, no id occurs twice, and the rows are the
    concatenation of the pages served for consecutive offsets, every one of
    which reported a total equal to the number of rows returned. *)
Theorem inventory_read_sound (path : string) (fetch : nat -> string -> res value) (rows : list value) (ps : list string) :
  getInventoryList path fetch = (Ok rows, ps) ->
  (length ps <= MAX_PAGES)%nat /\ (Z.of_nat (length rows) <= INVENTORY_MAX_ROWS)%Z /\
  NoDup (omap item_id rows) /\
  exists pages, rows = concat pages /\
    pages_served path fetch (ofZ (Z.of_nat (length rows))) 0 0 pages ps.
Proof.
  intros H. apply readPage_sound in H as (pages & total & -> & Hn & Hl & _ & He & Hp).
  2:{ split; [|constructor]. intros x. cbn. by rewrite elem_of_nil, elem_of_empty. }
  pose proof (pages_served_len _ _ _ _ _ _ _ Hp) as Hlen. cbn [app] in *.
  split; [done|]. split.
  { unfold INVENTORY_MAX_ROWS. unfold INVENTORY_PAGE_SIZE, MAX_PAGES in *. lia. }
  split; [done|]. exists pages. split; [done|]. by eapply pages_served_total.
Qed.

(** A server that pages a fixed collection is read back exactly.  For every
    collection of at most 100,000 rows with distinct ids, served in pages of
    1,000 with truthful metadata, the read succeeds and returns the collection:
    the page limit is never hit and no check misfires. *)
Theorem inventory_read_complete (path : string) (l : list value) (fetch : nat -> string -> res value) :
  (Z.of_nat (length l) <= INVENTORY_MAX_ROWS)%Z -> NoDup (omap item_id l) ->
  (forall i, (i = 0 \/ INVENTORY_PAGE_SIZE * i < length l)%nat ->
     fetch i (page_path path (INVENTORY_PAGE_SIZE * i)) = Ok (page_of l (INVENTORY_PAGE_SIZE * i))) ->
  (getInventoryList path fetch).1 = Ok l.
Proof.
  intros H1 H2 H3.
  replace (getInventoryList path fetch) with
    (readPage path fetch MAX_PAGES 0 None (INVENTORY_PAGE_SIZE * 0) (take (INVENTORY_PAGE_SIZE * 0) l) ∅)
    by (by rewrite Nat.mul_0_r).
  apply readPage_of; auto.
  - unfold INVENTORY_MAX_ROWS, INVENTORY_PAGE_SIZE in *. lia.
  - rewrite Nat.mul_0_r. split; [|constructor]. intros x. cbn. by rewrite elem_of_nil, elem_of_empty.
Qed.

Module InventoryDemo.
Definition row (id : string) : value := VObj [("id", VStr id)].
Definition rows : list value := [row "a"; row "b"; row "c"].
Definition fetch (i : nat) (_ : string) : res value := Ok (page_of rows (INVENTORY_PAGE_SIZE * i)).
End InventoryDemo.

Lemma inventory_read_complete_witness :
  (getInventoryList "/api/inv" InventoryDemo.fetch).1 = Ok InventoryDemo.rows.
Proof.
  apply (inventory_read_complete "/api/inv" InventoryDemo.rows InventoryDemo.fetch).
  - vm_compute. discriminate.
  - apply (bool_decide_unpack _). vm_compute. exact I.
  - reflexivity.
Defined.

Lemma inventory_read_sound_witness :
  NoDup (omap item_id InventoryDemo.rows).
Proof.
  assert (H : getInventoryList "/api/inv" InventoryDemo.fetch
    = (Ok InventoryDemo.rows, [page_path "/api/inv" 0])) by (vm_compute; reflexivity).
  exact (proj1 (proj2 (proj2 (inventory_read_sound _ _ _ _ H)))).
Defined.

(** ** The shared snapshot *)

(** The adapter's snapshot variables, the loads in flight with the generation
    each captured when it began, and the number of the next load. *)
Record loads := Loads { sn : snapshot; flying : list (nat * nat); fresh_id : nat }.

Definition no_loads : loads := Loads (Snap None n0 None 0) [] 0.

(** What [fetchInventorySnapshot] hands its caller. *)
Inductive handed :=
  | Cached (v : value)
  | Pending (id : nat).

Definition fetchInventorySnapshot (force : bool) (now : num) (s : loads) : handed * loads :=
  match sn_load (sn s) with
  | Some id => (Pending id, s)
  | None =>
      let start :=
        (Pending (fresh_id s),
         Loads (Snap (sn_value (sn s)) (sn_at (sn s)) (Some (fresh_id s)) (sn_gen (sn s)))
           ((fresh_id s, sn_gen (sn s)) :: flying s) (S (fresh_id s))) in
      match sn_value (sn s) with
      | Some v => if negb force && nlt (nsub now (sn_at (sn s))) (ofZ 5000) then (Cached v, s) else start
      | None => start
      end
  end.

Fixpoint lookup_load (id : nat) (l : list (nat * nat)) : option nat :=
  match l with
  | [] => None
  | (i, g) :: r => if (i =? id)%nat then Some g else lookup_load id r
  end.

(** Load [id] settles: the two handlers of [inventorySnapshotLoad]. *)
Definition settle_load (id : nat) (out : res value) (now : num) (s : loads) : loads :=
  match lookup_load id (flying s) with
  | None => s
  | Some g =>
      let rest := List.filter (fun x => negb (x.1 =? id)%nat) (flying s) in
      let sn' :=
        if (g =? sn_gen (sn s))%nat
        then match out with
             | Ok v => Snap (Some v) now None (sn_gen (sn s))
             | Throw _ => Snap (sn_value (sn s)) (sn_at (sn s)) None (sn_gen (sn s))
             end
        else sn s in
      Loads sn' rest (fresh_id s)
  end.

(** The six collections of a load, in the order of [Promise.all]'s array. *)
Definition snapshot_of (lists : list (list value)) : value :=
  VObj (combine ["models"; "units"; "locations"; "receipts"; "projects"; "allocations"] (map VArr lists)).

Inductive event :=
  | EFetch (force : bool) (now : num)
  | ESettle (id : nat) (out : res value) (now : num)
  | EAnswered (path : string) (o : opts) (r : http)  (** a request of [getJSON] is answered *)
  | EUploaded (r : http).                            (** a receipt upload is answered *)

(** An answer's effect on the snapshot variables; the rest of the client is not theirs. *)
Definition on_client (f : client -> client * res value) (s : loads) : loads :=
  Loads (inv (f (Client VUndef VUndef (sn s))).1) (flying s) (fresh_id s).

Definition sstep (s : loads) (e : event) : loads :=
  match e with
  | EFetch force now => (fetchInventorySnapshot force now s).2
  | ESettle id out now => settle_load id out now s
  | EAnswered path o r => on_client (getJSON_settle path o r) s
  | EUploaded r => on_client (uploadReceipt_settle r) s
  end.

Definition srun (evs : list event) : loads := fold_left sstep evs no_loads.

Lemma srun_snoc evs e : srun (evs ++ [e]) = sstep (srun evs) e.
Proof. unfold srun. by rewrite fold_left_app. Qed.

(** A write below [/api/inventory/] is answered with success. *)
Definition is_write (e : event) : bool :=
  match e with
  | EAnswered path o r =>
      isWrite o && starts_with "/api/inventory/" path
      && match (getJSON_settle path o r (Client VUndef VUndef (sn no_loads))).2 with Ok _ => true | Throw _ => false end
  | _ => false
  end.

Definition no_write (evs : list event) : Prop := Forall (fun e => is_write e = false) evs.

(** Load [id] began after the last write of the trace. *)
Definition begun_since_write (evs : list event) (id : nat) : Prop :=
  exists a force now b, evs = a ++ EFetch force now :: b /\ no_write b /\
    sn_load (sn (srun a)) = None /\ fresh_id (srun a) = id.

(** The value was loaded by a load that began after the last write. *)
Definition loaded_since_write (evs : list event) (v : value) : Prop :=
  exists a id now b, evs = a ++ ESettle id (Ok v) now :: b /\ no_write b /\ begun_since_write a id.

Record snapshot_inv (evs : list event) (s : loads) : Prop := {
  si_value : forall v, sn_value (sn s) = Some v -> loaded_since_write evs v;
  si_load : forall id, sn_load (sn s) = Some id <-> lookup_load id (flying s) = Some (sn_gen (sn s));
  si_begun : forall id, lookup_load id (flying s) = Some (sn_gen (sn s)) -> begun_since_write evs id;
  si_past : forall id g, lookup_load id (flying s) = Some g -> (g <= sn_gen (sn s))%nat /\ (id < fresh_id s)%nat;
}.

Lemma begun_snoc evs e id : is_write e = false -> begun_since_write evs id -> begun_since_write (evs ++ [e]) id.
Proof.
  intros He (a & f & n & b & -> & Hb & H1 & H2). exists a, f, n, (b ++ [e]).
  rewrite <- app_assoc. split; [done|]. split; [|done]. apply Forall_app. split; [done|]. by apply Forall_singleton.
Qed.

Lemma loaded_snoc evs e v : is_write e = false -> loaded_since_write evs v -> loaded_since_write (evs ++ [e]) v.
Proof.
  intros He (a & id & n & b & -> & Hb & H). exists a, id, n, (b ++ [e]).
  rewrite <- app_assoc. split; [done|]. split; [|done]. apply Forall_app. split; [done|]. by apply Forall_singleton.
Qed.

(** An event that changes nothing and is not a write. *)
Lemma inert_inv evs e s : is_write e = false -> s = srun evs -> snapshot_inv evs s -> snapshot_inv (evs ++ [e]) s.
Proof.
  intros He -> [H1 H2 H3 H4]. split; [|done| |done].
  - intros v Hv. apply loaded_snoc; [done|]. auto.
  - intros id Hl. apply begun_snoc; [done|]. auto.
Qed.

Lemma begun_now evs force now :
  sn_load (sn (srun evs)) = None -> begun_since_write (evs ++ [EFetch force now]) (fresh_id (srun evs)).
Proof. intros H. exists evs, force, now, []. split; [done|]. split; [constructor|done]. Qed.

Lemma lookup_load_filter id i l :
  lookup_load i (List.filter (fun x => negb (x.1 =? id)%nat) l) = if (i =? id)%nat then None else lookup_load i l.
Proof.
  induction l as [|[j g] l IH]; [by destruct (i =? id)%nat|]. cbn [List.filter fst].
  destruct (Nat.eqb_spec j id) as [->|]; cbn [negb lookup_load].
  - rewrite IH. destruct (Nat.eqb_spec i id) as [->|]; [done|]. by rewrite (proj2 (Nat.eqb_neq id i)).
  - rewrite IH. destruct (Nat.eqb_spec j i) as [->|]; [|done]. by rewrite (proj2 (Nat.eqb_neq i id)).
Qed.

Lemma start_inv evs force now :
  snapshot_inv evs (srun evs) -> sn_load (sn (srun evs)) = None ->
  let s := srun evs in
  snapshot_inv (evs ++ [EFetch force now])
    (Loads (Snap (sn_value (sn s)) (sn_at (sn s)) (Some (fresh_id s)) (sn_gen (sn s)))
       ((fresh_id s, sn_gen (sn s)) :: flying s) (S (fresh_id s))).
Proof.
  intros [H1 H2 H3 H4] Hl s. fold s in H1, H2, H3, H4, Hl.
  assert (Hn : forall id, lookup_load id (flying s) ≠ Some (sn_gen (sn s))).
  { intros id Hid. apply H2 in Hid. congruence. }
  split; cbn [sn sn_value sn_load sn_gen flying fresh_id lookup_load].
  - intros v Hv. apply loaded_snoc; [done|]. auto.
  - intros id. destruct (Nat.eqb_spec (fresh_id s) id) as [->|Hne]; [done|].
    split; [congruence|]. intros Hid. by apply Hn in Hid.
  - intros id. destruct (Nat.eqb_spec (fresh_id s) id) as [<-|Hne]; [|intros Hid; by apply Hn in Hid].
    intros _. by apply begun_now.
  - intros id g. destruct (Nat.eqb_spec (fresh_id s) id) as [<-|Hne]; [intros [= <-]; lia|].
    intros Hid. apply H4 in Hid. lia.
Qed.

Lemma fetch_inv evs force now :
  snapshot_inv evs (srun evs) ->
  snapshot_inv (evs ++ [EFetch force now]) (sstep (srun evs) (EFetch force now)).
Proof.
  intros H. assert (Hid : snapshot_inv (evs ++ [EFetch force now]) (srun evs)) by (by apply inert_inv).
  cbn [sstep]. unfold fetchInventorySnapshot.
  destruct (sn_load (sn (srun evs))) eqn:El; [done|].
  pose proof (start_inv evs force now H El) as Hs. cbn zeta in *.
  destruct (sn_value (sn (srun evs))) eqn:Ev; [|done]. by destruct (negb force && _).
Qed.

Lemma settle_inv evs id out now :
  snapshot_inv evs (srun evs) ->
  snapshot_inv (evs ++ [ESettle id out now]) (sstep (srun evs) (ESettle id out now)).
Proof.
  intros [H1 H2 H3 H4]. cbn [sstep]. unfold settle_load. set (s := srun evs) in *.
  assert (Hv : forall v, sn_value (sn s) = Some v -> loaded_since_write (evs ++ [ESettle id out now]) v).
  { intros v Hv. apply loaded_snoc; [done|]. auto. }
  assert (Hb : forall i, lookup_load i (flying s) = Some (sn_gen (sn s)) ->
    begun_since_write (evs ++ [ESettle id out now]) i).
  { intros i Hi. apply begun_snoc; [done|]. auto. }
  destruct (lookup_load id (flying s)) as [g|] eqn:El; [|by split].
  destruct (Nat.eqb_spec g (sn_gen (sn s))) as [->|Hne].
  - assert (Hid : sn_load (sn s) = Some id) by (by apply H2).
    split; cbn [sn flying fresh_id].
    + destruct out as [v|e]; cbn [sn_value]; [|done]. intros v' [= <-].
      exists evs, id, now, []. split; [done|]. split; [constructor|auto].
    + intros i. rewrite lookup_load_filter.
      replace (sn_load _) with (@None nat) by (by destruct out).
      replace (sn_gen _) with (sn_gen (sn s)) by (by destruct out).
      destruct (Nat.eqb_spec i id) as [->|Hn]; [done|].
      split; [done|]. intros Hi. apply H2 in Hi. congruence.
    + intros i. rewrite lookup_load_filter. replace (sn_gen _) with (sn_gen (sn s)) by (by destruct out).
      destruct (i =? id)%nat; [done|auto].
    + intros i g. rewrite lookup_load_filter. replace (sn_gen _) with (sn_gen (sn s)) by (by destruct out).
      destruct (i =? id)%nat; [done|auto].
  - split; cbn [sn flying fresh_id]; [done| | |].
    + intros i. rewrite lookup_load_filter. destruct (Nat.eqb_spec i id) as [->|Hn]; [|auto].
      rewrite H2, El. split; [congruence|done].
    + intros i. rewrite lookup_load_filter. destruct (i =? id)%nat; [done|auto].
    + intros i g'. rewrite lookup_load_filter. destruct (i =? id)%nat; [done|auto].
Qed.

Lemma invalidated_inv evs e :
  sstep (srun evs) e = Loads (invalidateInventorySnapshot (sn (srun evs))) (flying (srun evs)) (fresh_id (srun evs)) ->
  snapshot_inv evs (srun evs) -> snapshot_inv (evs ++ [e]) (sstep (srun evs) e).
Proof.
  intros -> [H1 H2 H3 H4]. split; cbn [sn flying fresh_id invalidateInventorySnapshot sn_value sn_load sn_gen].
  - done.
  - intros id. split; [done|]. intros Hid. apply H4 in Hid. lia.
  - intros id Hid. apply H4 in Hid. lia.
  - intros id g Hid. apply H4 in Hid. lia.
Qed.

(** Whether an answer is a success does not depend on the client. *)
Lemma settle_outcome path o r c c' : (getJSON_settle path o r c).2 = (getJSON_settle path o r c').2.
Proof.
  unfold getJSON_settle. destruct (hr_json r) as [j|]; [|done]. destruct (bare_failure r j) as [[]|]; try done.
  unfold unwrap. destruct (isWrite o && starts_with "/api/inventory/" path), (truthy j && is_obj j && has_key j "ok"); try done;
    by destruct (fld j "ok") as [| |[]| | | |].
Qed.

Lemma loads_same s : Loads (sn s) (flying s) (fresh_id s) = s.
Proof. by destruct s. Qed.

Lemma answered_inv evs path o r :
  snapshot_inv evs (srun evs) -> snapshot_inv (evs ++ [EAnswered path o r]) (sstep (srun evs) (EAnswered path o r)).
Proof.
  intros H. set (s := srun evs) in *. pose proof (inventory_invalidation path o r (Client VUndef VUndef (sn s))) as Hi.
  pose proof (settle_outcome path o r (Client VUndef VUndef (sn s)) (Client VUndef VUndef (sn no_loads))) as Ho.
  assert (Hw : is_write (EAnswered path o r) = isWrite o && starts_with "/api/inventory/" path
    && match (getJSON_settle path o r (Client VUndef VUndef (sn s))).2 with Ok _ => true | Throw _ => false end)
    by (by rewrite Ho).
  destruct (is_write (EAnswered path o r)) eqn:Ew.
  - apply invalidated_inv; [|done]. cbn [sstep]. unfold on_client. fold s.
    destruct (getJSON_settle path o r _) as [c' [v|e]]; cbn [fst snd] in *.
    + destruct (isWrite o && starts_with "/api/inventory/" path); [|done]. by rewrite Hi.
    + by rewrite andb_false_r in Hw.
  - replace (sstep s (EAnswered path o r)) with s; [by apply inert_inv|].
    cbn [sstep]. unfold on_client. destruct (getJSON_settle path o r _) as [c' [v|e]]; cbn [fst snd] in *.
    + destruct (isWrite o && starts_with "/api/inventory/" path); [done|]. rewrite Hi. by destruct s.
    + rewrite Hi. by destruct s.
Qed.

(** The upload's answer leaves the snapshot as it is. *)
Lemma uploaded_same s r : sstep s (EUploaded r) = s.
Proof.
  cbn [sstep]. unfold on_client, uploadReceipt_settle. destruct (hr_json r) as [j|]; [rewrite unwrap_inv|]; apply loads_same.
Qed.

Lemma srun_inv evs : snapshot_inv evs (srun evs).
Proof.
  induction evs as [|e evs IH] using rev_ind; [by split|]. rewrite srun_snoc.
  destruct e; auto using fetch_inv, settle_inv, answered_inv. rewrite uploaded_same. by apply inert_inv.
Qed.

(** C36: which inventory a caller is handed.  After any interleaving of fetches, settled
    loads, answers to [getJSON] and receipt uploads, a call of [fetchInventorySnapshot]
    is handed either a cached value, which then was not forced and comes from a load
    that began after the last write below [/api/inventory/] that [getJSON] saw succeed,
    or a load in flight that began after it; a load overtaken by such a write never
    reaches the cache.  The upload of a receipt is no such write: it goes past [getJSON]
    and leaves the snapshot alone, so that for up to five seconds a caller is still
    handed what was loaded before it. *)
Theorem snapshot_never_predates_write (evs : list event) (force : bool) (now : num) :
  match (fetchInventorySnapshot force now (srun evs)).1 with
  | Cached v => force = false /\ loaded_since_write evs v
  | Pending id => begun_since_write (evs ++ [EFetch force now]) id
  end /\
  (forall r, fetchInventorySnapshot force now (srun (evs ++ [EUploaded r])) = fetchInventorySnapshot force now (srun evs)).
Proof.
  split; [|intros r; by rewrite srun_snoc, uploaded_same].
  pose proof (srun_inv evs) as H. unfold fetchInventorySnapshot.
  destruct (sn_load (sn (srun evs))) as [id|] eqn:El.
  - cbn. apply begun_snoc; [done|]. apply (si_begun _ _ H). by apply (si_load _ _ H).
  - destruct (sn_value (sn (srun evs))) as [v|] eqn:Ev; [|by apply begun_now].
    destruct (negb force && _) eqn:Ef; [|by apply begun_now].
    cbn. split; [by destruct force|]. by apply (si_value _ _ H).
Qed.

(** A snapshot is loaded, a unit is created, another snapshot is loaded, a receipt is uploaded. *)
Example upload_is_not_seen :
  let ok := Http 200 (Some (VObj [("ok", VBool true); ("data", VNull)])) in
  let before := [EFetch false (ofZ 0); ESettle 0 (Ok (VStr "first")) (ofZ 10)] in
  let written := before ++ [EAnswered "/api/inventory/components" (post_opts (VObj []) []) ok] in
  let loaded := written ++ [EFetch false (ofZ 20); ESettle 1 (Ok (VStr "second")) (ofZ 30); EUploaded ok] in
  (fetchInventorySnapshot false (ofZ 15) (srun before)).1 = Cached (VStr "first") /\
  (fetchInventorySnapshot false (ofZ 15) (srun written)).1 = Pending 1 /\
  (fetchInventorySnapshot false (ofZ 40) (srun loaded)).1 = Cached (VStr "second").
Proof. vm_compute. auto. Qed.
