(* ===== verification/Mappers.v ===== *)
(** * Wire rows to the dashboard's shapes (api.jsx, lines 481-853)

    One definition per mapper.  A wire row is an arbitrary JSON value: reading a
    property of [null] or mapping over something that is not an array throws a
    TypeError in JavaScript, and the definitions return [Throw TypeError]
    there.  The indexes [segIndex] and [nodeIndex] are plain objects used as
    maps from the string form of an id; ids named like a member of
    [Object.prototype] are outside the model. *)

From Stdlib Require Import ZArith Lia Ascii.
From Corelib Require Import SpecFloat.
From stdpp Require Import strings pretty list.
From S2P Require Import Prelude JsNum JsValue ApiClient.

Local Open Scope string_scope.
Local Open Scope list_scope.
Local Open Scope js_scope.

(** ** Operators on values *)

(** [w.k] of a non-null [w], [w.k || d] and [w.k != null ? w.k : d]. *)
Abbreviation orv w k d := (v_or (fld w k) d).
Abbreviation nnv w k d := (v_nn (fld w k) d).

(** [a + b]: concatenation when an operand is a string or an object. *)
Definition js_add (a b : value) : value :=
  let textual v := match v with VStr _ | VArr _ | VObj _ => true | _ => false end in
  if textual a || textual b then VStr (vstr a +:+ vstr b) else VNum (nadd (vnum a) (vnum b)).

(** [a === b]; two different arrays or objects are never identical. *)
Definition strict_eq (a b : value) : bool :=
  match a, b with
  | VUndef, VUndef | VNull, VNull => true
  | VBool x, VBool y => Bool.eqb x y
  | VNum x, VNum y => nequ x y
  | VStr x, VStr y => String.eqb x y
  | _, _ => false
  end.

(** [v.map(f)] of a value that should be an array. *)
Definition map_arr {B} (f : value -> res B) (v : value) : res (list B) :=
  match v with VArr l => map_res f l | _ => Throw TypeError end.

(** [Array.isArray(v) ? v : []] as a value. *)
Definition A (v : value) : value := VArr (arr v).

Definition vbool (b : bool) : value := VBool b.
Definition vlen {X} (l : list X) : value := vz (Z.of_nat (length l)).

Fixpoint indexed (i : nat) (l : list value) : list (string * value) :=
  match l with [] => [] | x :: r => (pretty i, x) :: indexed (S i) r end.

(** The own enumerable properties [Object.assign] copies. *)
Definition own_props (v : value) : list (string * value) :=
  match v with
  | VObj f => f
  | VArr l => indexed 0 l
  | VStr s => indexed 0 (map (fun c => VStr (String c "")) (chars s))
  | _ => []
  end.

(** The last [n] characters: [s.slice(-n)]. *)
Definition slice_end (n : nat) (s : string) : string := sdrop (String.length s - n) s.

(** An index: ids (as strings) to rows, later assignments win. *)
Abbreviation index := (list (string * value)).
Definition index_get (idx : index) (id : value) : value :=
  match assoc (vstr id) idx with Some v => v | None => VUndef end.

Section Mappers.
Context (h : host).

(** ** Nodes *)

Definition mapDisk (d : value) : res value :=
  if nullish d then Throw TypeError else
  Ok (VObj [("mount", fld d "mount");
            ("totalGb", nnv d "totalGb"
               (if truthy (fld d "totalKb") then VNum (nround (ndiv (vnum (fld d "totalKb")) (ofZ 1048576))) else vz 0));
            ("usedPct", nnv d "usedPct" (VNum (pct (fld d "usedKb") (fld d "totalKb"))));
            ("fs", fld d "fs")]).

Definition kbps (v : value) : value := VNum (nround (ndiv (vnum (v_or v (vz 0))) (ofZ 1000))).

Definition mapIface (f : value) : res value :=
  if nullish f then Throw TypeError else
  Ok (VObj [("name", fld f "name");
            ("capMbps", nnv f "capMbps" (orv f "speedMbps" (vz 0)));
            ("rxMbps", nnv f "rxMbps" (kbps (fld f "rxKbps")));
            ("txMbps", nnv f "txMbps" (kbps (fld f "txKbps")));
            ("errs", orv f "errs" (vz 0))]).

Definition mapProc (p : value) : res value :=
  if nullish p then Throw TypeError else
  Ok (VObj [("name", fld p "name"); ("pid", fld p "pid"); ("runState", fld p "runState");
            ("nFiles", fld p "nFiles"); ("nSockets", fld p "nSockets");
            ("rssKb", nnv p "rssKb" (vz 0))]).

(** The short name: [w.name || (w.hostFqdn ? w.hostFqdn.split(".")[0] : String(w.nodeId))]. *)
Definition node_name (w : value) : res value :=
  if truthy (fld w "name") then Ok (fld w "name")
  else if truthy (fld w "hostFqdn")
  then match fld w "hostFqdn" with
       | VStr s => Ok (VStr (hd "" (split_char "." s)))
       | _ => Throw TypeError
       end
  else Ok (VStr (vstr (fld w "nodeId"))).

Definition empty_hist : value :=
  VObj [("cpu", VArr []); ("ram", VArr []); ("net", VArr []); ("disk", VArr [])].

Definition node_cores (w : value) : res (list value) :=
  map_arr (fun c => Ok (if truthy (fld w "cpuLoadMilli") then VNum (milliToPct c) else c))
    (v_or (fld w "cpuLoadMilli") (orv w "cores" (VArr []))).

Definition node_cpuPct (w : value) (cores : list value) : value :=
  nnv w "cpuPct"
    (match cores with
     | [] => VNum (milliToPct (fld w "cpuAvgMilli"))
     | _ => VNum (nround (ndiv (vnum (fold_left js_add cores (vz 0))) (ofZ (Z.of_nat (length cores)))))
     end).

Definition diskMax (disks : list value) : value :=
  fold_left (fun m d => VNum (nmax (vnum m) (vnum (fld d "usedPct")))) disks (vz 0).

Definition netTotal (ifaces : list value) : value :=
  fold_left (fun a b => js_add (js_add a (fld b "rxMbps")) (fld b "txMbps")) ifaces (vz 0).

Definition netCap (ifaces : list value) : value :=
  fold_left (fun a b => js_add a (fld b "capMbps")) ifaces (vz 0).

Definition mapNode (w : value) (segIndex : index) : res value :=
  if nullish w then Throw TypeError else
  let seg := v_or (index_get segIndex (fld w "segId")) (VObj []) in
  let ramTotalKb := orv w "ramTotalKb" (vz 0) in
  let ramUsedKb := orv w "ramUsedKb" (vz 0) in
  let swapTotalKb := orv w "swapTotalKb" (vz 0) in
  let swapUsedKb := orv w "swapUsedKb" (vz 0) in
  let lastSeenMin := v_nn (nnv w "lastSeenMin" (minsSince h (fld w "lastSeenAt"))) (vz 0) in
  cores <- node_cores w ;;
  disks <- map_arr mapDisk (orv w "disks" (VArr [])) ;;
  ifaces <- map_arr mapIface (orv w "ifaces" (VArr [])) ;;
  procs <- map_arr mapProc (orv w "procs" (VArr [])) ;;
  name <- node_name w ;;
  Ok (VObj
    [("nodeId", fld w "nodeId"); ("sym", orv w "sym" (VStr "")); ("name", name);
     ("hostFqdn", fld w "hostFqdn"); ("ip", fld w "ip"); ("role", fld w "role");
     ("segId", fld w "segId");
     ("segName", v_or (fld seg "name") (orv w "segName" (VStr "")));
     ("cidr", v_or (fld seg "cidr") (orv w "cidr" (VStr "")));
     ("osName", fld w "osName"); ("arch", fld w "arch"); ("state", fld w "state");
     ("criticality", nnv w "criticality" VNull); ("lifecycle", orv w "lifecycle" VNull);
     ("lastSeenMin", lastSeenMin);
     ("enrolledDaysAgo", nnv w "enrolledDaysAgo" (daysSince h (fld w "enrolledAt")));
     ("configEpoch", nnv w "configEpoch" (orv w "appliedEpoch" (vz 0)));
     ("converged", nnv w "converged" (VBool true));
     ("cpuPct", node_cpuPct w cores); ("cores", VArr cores);
     ("ramPct", nnv w "ramPct" (VNum (pct ramUsedKb ramTotalKb)));
     ("ramUsedKb", ramUsedKb); ("ramTotalKb", ramTotalKb);
     ("swapPct", nnv w "swapPct" (VNum (pct swapUsedKb swapTotalKb)));
     ("swapUsedKb", swapUsedKb); ("swapTotalKb", swapTotalKb);
     ("disks", VArr disks); ("ifaces", VArr ifaces); ("procs", VArr procs);
     ("diskMaxPct", diskMax disks);
     ("netTotalMbps", netTotal ifaces); ("netCapMbps", netCap ifaces);
     ("alertsCount", nnv w "alertsCount" (vz 0));
     ("hist", orv w "hist" empty_hist);
     ("uptimeDays", nnv w "uptimeDays" (daysSince h (fld w "bootAt")));
     ("uplink", orv w "uplinkGearId" (orv w "uplink" VNull));
     ("uplinkPort", orv w "uplinkPort" (orv w "localIf" VNull));
     ("linkType", orv w "linkType" VNull);
     ("linkSpeedMbps", nnv w "linkSpeedMbps"
        (orv w "speedMbps" (v_or (match ifaces with f :: _ => fld f "capMbps" | [] => VUndef end) (vz 1000))));
     ("lldp", nnv w "lldp" (orv w "viaLldp" (VBool false)));
     ("rssi", fld w "rssi"); ("label", fld w "label")]).

(** ** Probes *)

Definition mapVantage (v : value) : res value :=
  if nullish v then Throw TypeError else
  Ok (VObj
    [("monitorNode", fld v "monitorNode");
     ("monitorName", orv v "monitorName"
        (if nullish (fld v "monitorNode") then VStr "monitor"
         else VStr ("mon-" +:+ slice_end 4 (vstr (fld v "monitorNode")))));
     ("outcome", fld v "outcome");
     ("rttMicros", orv v "rttMicros" (vz 0)); ("jitterMicros", orv v "jitterMicros" (vz 0));
     ("lossPermille", nnv v "lossPermille" (vz 0));
     ("throughputKbps", orv v "throughputKbps" (vz 0));
     ("sampledMin", nnv v "sampledMin" (v_or (minsSince h (fld v "sampledAt")) (vz 0)))]).

Definition bad_outcome (v : value) : bool := negb (strict_eq (fld v "outcome") (VStr "ok")).

Definition probe_state (vantages : list value) : string :=
  let anyBad := existsb bad_outcome vantages in
  let allBad := (0 <? length vantages)%nat && forallb bad_outcome vantages in
  if allBad then "down" else if anyBad then "degraded" else "up".

Definition mapProbe (w : value) : res value :=
  if nullish w then Throw TypeError else
  vantages <- map_arr mapVantage (orv w "vantages" (VArr [])) ;;
  Ok (VObj
    [("targetId", fld w "targetId"); ("host", fld w "host"); ("hostNode", fld w "hostNode");
     ("hostName", orv w "hostName" VNull); ("assetId", fld w "assetId"); ("port", fld w "port");
     ("proto", fld w "proto"); ("label", fld w "label");
     ("replFactor", nnv w "replFactor" (vlen vantages)); ("vantages", VArr vantages);
     ("state", orv w "state" (VStr (probe_state vantages)))]).

(** ** Alerts and reports *)

Definition alert_status (w cleared : value) : value :=
  orv w "status" (VStr (if truthy (fld w "ackedAt") then "acked" else if truthy cleared then "cleared" else "active")).

Definition mapAlert (w : value) (nodeIndex : index) : res value :=
  if nullish w then Throw TypeError else
  let n := if nullish (fld w "nodeId") then VNull else index_get nodeIndex (fld w "nodeId") in
  let of_node k := if truthy n then fld n k else VNull in
  let cleared := nnv w "cleared" (VBool (truthy (fld w "clearedAt"))) in
  Ok (VObj
    [("eventId", fld w "eventId"); ("ruleId", fld w "ruleId"); ("ruleName", fld w "ruleName");
     ("node", orv w "node" (of_node "name"));
     ("nodeId", nnv w "nodeId" VNull);
     ("segName", orv w "segName" (of_node "segName"));
     ("severity", fld w "severity"); ("detail", fld w "detail");
     ("firedMinAgo", nnv w "firedMinAgo" (v_or (minsSince h (fld w "firedAt")) (vz 0)));
     ("cleared", cleared);
     ("clearedMinAgo", nnv w "clearedMinAgo" (minsSince h (fld w "clearedAt")));
     ("ackedAt", orv w "ackedAt" VNull); ("ackedBy", orv w "ackedBy" VNull);
     ("ackedMinAgo", nnv w "ackedMinAgo" (minsSince h (fld w "ackedAt")));
     ("status", alert_status w cleared);
     ("opieReportId", nnv w "opieReportId" VNull)]).

Definition mapOpie (w : value) : res value :=
  if nullish w then Throw TypeError else
  Ok (VObj
    [("reportId", fld w "reportId"); ("incidentKey", orv w "incidentKey" VNull);
     ("triggerKind", orv w "triggerKind" VNull); ("firstEventId", nnv w "firstEventId" VNull);
     ("nodeId", nnv w "nodeId" VNull); ("hostFqdn", orv w "hostFqdn" VNull);
     ("severity", orv w "severity" (VStr "warn")); ("status", orv w "status" (VStr "investigating"));
     ("summary", orv w "summary" (VStr "")); ("analysis", nnv w "analysis" VNull);
     ("model", orv w "model" VNull); ("durationSec", nnv w "durationSec" VNull);
     ("startedAt", orv w "startedAt" VNull); ("finishedAt", orv w "finishedAt" VNull);
     ("startedMinAgo", minsSince h (fld w "startedAt"));
     ("finishedMinAgo", minsSince h (fld w "finishedAt"))]).

(** ** Discovery, maintenance, enrolment, builds, gear *)

Definition mdns_services (v : value) : value :=
  match v with
  | VArr l => VArr l
  | VStr s => VArr (map VStr (List.filter (fun x => negb (String.eqb x "")) (map trim (split_char "," s))))
  | _ => VArr []
  end.

Definition mapDiscovered (w : value) : res value :=
  if nullish w then Throw TypeError else
  Ok (VObj
    [("discId", fld w "discId"); ("host", orv w "host" (fld w "ip")); ("ip", fld w "ip");
     ("via", fld w "via"); ("kind", fld w "kind"); ("services", orv w "services" (VArr []));
     ("seen", nnv w "seen" (v_or (minsSince h (fld w "lastSeenAt")) (vz 0)));
     ("seenCount", fld w "seenCount"); ("seg", orv w "segId" (fld w "seg")); ("arch", fld w "arch");
     ("status", fld w "status"); ("lastSeenAt", orv w "lastSeenAt" VNull);
     ("firstSeenAt", orv w "firstSeenAt" VNull); ("mac", orv w "mac" VNull);
     ("vendor", orv w "vendor" VNull); ("osName", orv w "osName" VNull);
     ("deviceRole", orv w "deviceRole" VNull); ("sysDescr", orv w "sysDescr" VNull);
     ("enrichedAt", orv w "enrichedAt" VNull); ("mdnsName", orv w "mdnsName" VNull);
     ("mdnsServices", mdns_services (fld w "mdnsServices")); ("osGuess", orv w "osGuess" VNull);
     ("openPorts", A (fld w "openPorts")); ("neighbor", orv w "neighbor" VNull);
     ("tombstone", orv w "tombstone" VNull)]).

Definition mapMaintenance (w : value) : res value :=
  if nullish w then Throw TypeError else
  Ok (VObj
    [("windowId", fld w "windowId");
     ("scope", orv w "scope"
        (VStr (if nullish (fld w "nodeId") && negb (truthy (fld w "hostFqdn")) then "all" else "node")));
     ("nodeId", nnv w "nodeId" VNull); ("hostFqdn", orv w "hostFqdn" VNull);
     ("ipAddr", orv w "ipAddr" (orv w "ip" VNull)); ("reason", orv w "reason" (VStr ""));
     ("startsAt", orv w "startsAt" VNull); ("endsAt", orv w "endsAt" VNull);
     ("status", orv w "status" (VStr "scheduled")); ("createdBy", orv w "createdBy" VNull);
     ("live", if nullish (fld w "live") then VBool (strict_eq (fld w "status") (VStr "active"))
              else VBool (truthy (fld w "live")))]).

Definition mapEnrollment (w : value) : res value :=
  if nullish w then Throw TypeError else
  Ok (VObj
    [("enrId", fld w "enrId"); ("host", fld w "host"); ("ip", fld w "ip"); ("role", fld w "role");
     ("fp", orv w "certFp" (fld w "fp"));
     ("requestedMin", nnv w "requestedMin" (v_or (minsSince h (fld w "requestedAt")) (vz 0)));
     ("status", fld w "status")]).

Definition mapBuild (w : value) : res value :=
  if nullish w then Throw TypeError else
  Ok (VObj
    [("buildId", fld w "buildId"); ("arch", fld w "arch"); ("os", fld w "os");
     ("version", fld w "version"); ("channel", fld w "channel");
     ("nodes", nnv w "nodes" (orv w "nodeCount" (vz 0)));
     ("status", orv w "status" (VStr (if truthy (fld w "updateAvailable") then "update" else "current")))]).

Definition mapGear (w : value) : res value :=
  if nullish w then Throw TypeError else
  Ok (VObj
    [("id", orv w "gearId" (fld w "id")); ("name", fld w "name"); ("kind", fld w "kind");
     ("model", fld w "model"); ("seg", orv w "segId" (fld w "seg")); ("ports", fld w "ports");
     ("uplink", orv w "uplinkGearId" (orv w "uplink" VNull)); ("wireless", VBool (truthy (fld w "wireless")));
     ("attached", nnv w "attached" (orv w "attachedCount" (vz 0)))]).

Definition mapAssetNode (a : value) : res value :=
  if nullish a then Throw TypeError else
  Ok (VObj
    [("nodeId", VStr ("asset-" +:+ vstr (fld a "assetId"))); ("assetId", fld a "assetId");
     ("isAsset", VBool true); ("sym", VStr ""); ("name", orv a "displayName" (fld a "ip"));
     ("hostFqdn", orv a "host" (fld a "ip")); ("ip", fld a "ip"); ("role", VStr "system");
     ("segId", fld a "poolId"); ("segName", orv a "poolName" (VStr "Unassigned")); ("cidr", VStr "");
     ("osName", fld a "class"); ("arch", VStr ""); ("state", orv a "state" (VStr "unknown"));
     ("criticality", nnv a "criticality" VNull); ("lifecycle", orv a "lifecycle" VNull);
     ("lastSeenMin", if nullish (fld a "lastSeenAt") then nnv a "lastSeenMin" VNull
                     else minsSince h (fld a "lastSeenAt"));
     ("enrolledDaysAgo", vz 0); ("configEpoch", vz 0); ("converged", VBool true);
     ("cpuPct", vz 0); ("cores", VArr []); ("ramPct", vz 0); ("ramUsedKb", vz 0); ("ramTotalKb", vz 0);
     ("swapPct", vz 0); ("swapUsedKb", vz 0); ("swapTotalKb", vz 0);
     ("disks", VArr []); ("ifaces", VArr []); ("procs", VArr []); ("diskMaxPct", vz 0);
     ("netTotalMbps", vz 0); ("netCapMbps", vz 0); ("alertsCount", vz 0);
     ("hist", empty_hist); ("uptimeDays", vz 0);
     ("uplink", VNull); ("uplinkPort", VNull); ("linkType", VNull); ("linkSpeedMbps", vz 0);
     ("lldp", VBool false); ("targetCount", fld a "targetCount"); ("tags", orv a "tags" (VArr []));
     ("pool", fld a "poolName")]).
End Mappers.

(** ** Integrations *)

(** [w = w || {}]. *)
Definition or_empty (w : value) : value := v_or w (VObj []).

Definition mapForgejo (w0 : value) : value :=
  let w := or_empty w0 in
  VObj
    [("available", VBool (truthy (fld w "available"))); ("reason", orv w "reason" VNull);
     ("baseUrl", orv w "baseUrl" VNull); ("version", orv w "version" (VStr "—"));
     ("counts", orv w "counts"
        (VObj [("repos", vlen (arr (fld w "repos"))); ("openIssues", vz 0); ("openPrs", vlen (arr (fld w "prs")))]));
     ("repos", A (fld w "repos")); ("commits", A (fld w "commits")); ("prs", A (fld w "prs"))].

Definition mapGeneration (g0 : value) : value :=
  let g := or_empty g0 in
  VObj (assign (own_props g)
    [("counts", orv g "counts"
        (VObj [("current", vz 0); ("stale", vz 0); ("pending", vz 0); ("offline", vz 0); ("expired", vz 0)]));
     ("peers", A (fld g "peers")); ("excludedPeers", A (fld g "excludedPeers"))]).

Definition mapCa (w0 : value) : value :=
  let w := or_empty w0 in
  let crl := orv w "crl" (VObj []) in
  VObj
    [("stepCa", orv w "stepCa"
        (VObj [("available", VBool false); ("status", VNull); ("reason", VStr "unavailable"); ("url", VNull)]));
     ("roots", A (fld w "roots")); ("provisioners", A (fld w "provisioners")); ("nodeCerts", A (fld w "nodeCerts"));
     ("crl", VObj (assign (own_props crl)
        [("available", VBool (truthy (fld crl "available")));
         ("generations", VArr (map mapGeneration (arr (fld crl "generations"))))]));
     ("warnDays", nnv w "warnDays" (vz 60))].

Definition mapDnsResult (r0 : value) : value :=
  let r := or_empty r0 in
  VObj
    [("server", orv r "server"
        (VObj [("id", VStr "?"); ("label", VStr "?"); ("ip", VStr ""); ("kind", VStr "internal")]));
     ("status", orv r "status" (VStr "TIMEOUT"));
     ("flags", orv r "flags" (VObj [("aa", VBool false); ("ra", VBool false)]));
     ("answers", A (fld r "answers")); ("authority", A (fld r "authority"));
     ("queryTimeMs", nnv r "queryTimeMs" VNull); ("rpzBlocked", VBool (truthy (fld r "rpzBlocked")));
     ("error", orv r "error" VNull)].

Definition mapDnsQuery (w0 : value) : value :=
  let w := or_empty w0 in
  VObj [("name", orv w "name" (VStr "")); ("type", orv w "type" (VStr "A")); ("ts", orv w "ts" VNull);
        ("results", VArr (map mapDnsResult (arr (fld w "results"))))].

Definition mapZone (z0 : value) : value :=
  let z := or_empty z0 in
  VObj [("name", orv z "name" (VStr "")); ("kind", orv z "kind" VNull); ("authority", orv z "authority" VNull);
        ("expectedServers", A (fld z "expectedServers")); ("soa", orv z "soa" (VObj []));
        ("parity", VBool (truthy (fld z "parity")))].

Definition mapDnsHealth (w0 : value) : value :=
  let w := or_empty w0 in
  VObj [("sorAvailable", VBool (negb (strict_eq (fld w "sorAvailable") (VBool false))));
        ("servers", A (fld w "servers")); ("zones", VArr (map mapZone (arr (fld w "zones"))));
        ("rpz", orv w "rpz" VNull)].

(** ** Rollups *)

(** The counters of a rollup, by property name. *)
Abbreviation counters := (list (string * Z)).

(** [if (r[n.state] != null) r[n.state]++]. *)
Definition count_state (r : counters) (n : value) : counters :=
  let k := vstr (fld n "state") in
  match assoc k r with Some c => assoc_set k (c + 1)%Z r | None => r end.

Definition rollup_counts (l : list value) : counters :=
  fold_left count_state l
    [("total", Z.of_nat (length l)); ("up", 0%Z); ("degraded", 0%Z); ("down", 0%Z); ("unknown", 0%Z); ("retired", 0%Z)].

Definition rollup (l : list value) : value :=
  VObj (map (fun kc => (kc.1, vz kc.2)) (rollup_counts l)).
