(* ===== verification/LiveModel.v ===== *)
(** * Assembling the live model (api.jsx, lines 860-1150)

    [loadLive] is the continuation of [Promise.all]: the settled core reads and
    optional reads in, the object that becomes [window.SOLARI] out (its two
    members that are functions, [fmt] and [api], are left out).  A throw inside
    it rejects the whole load, and the dashboard falls back to its fixture.
    Also the late integration update, the detail and history loaders. *)

From Stdlib Require Import ZArith Lia Ascii Sorted.
From Corelib Require Import SpecFloat.
From stdpp Require Import strings pretty list.
From S2P Require Import Prelude JsNum JsValue ApiClient Mappers.

Local Open Scope string_scope.
Local Open Scope list_scope.
Local Open Scope js_scope.

(** ** The settled reads *)

Record opt_read := Opt { o_value : value; o_fresh : freshness }.

Record reads := Reads {
  r_summary : value; r_nodes : value; r_segments : value; r_probes : value; r_alerts : value;
  r_rules : value; r_discovery : value; r_enrollments : value; r_builds : value; r_config : value;
  r_netgear : value;
  r_pools : opt_read; r_assets : opt_read; r_whoami : opt_read; r_opie : opt_read;
  r_inventory : opt_read; r_maintenance : opt_read;
}.

(** The freshness record as the object kept beside the value. *)
Definition fresh_entries (f : freshness) : list (string * value) :=
  [("state", VStr (f_state f));
   ("lastSuccess", match f_lastSuccess f with Some t => VNum t | None => VNull end);
   ("lastAttempt", VNum (f_lastAttempt f))].

Definition labelled (label : string) (f : freshness) : value :=
  VObj (assign [("label", VStr label)] (fresh_entries f)).

(** ** Ordering *)

(** [sev[s]] for the literal [{crit: 0, warn: 1, info: 2}]. *)
Definition sev_rank (s : value) : value :=
  let k := vstr s in
  if String.eqb k "crit" then vz 0 else if String.eqb k "warn" then vz 1
  else if String.eqb k "info" then vz 2 else VUndef.

(** The alert comparator. *)
Definition alert_cmp (a b : value) : num :=
  if negb (strict_eq (fld a "cleared") (fld b "cleared"))
  then (if truthy (fld a "cleared") then ofZ 1 else ofZ (-1))
  else if negb (strict_eq (sev_rank (fld a "severity")) (sev_rank (fld b "severity")))
  then nsub (vnum (sev_rank (fld a "severity"))) (vnum (sev_rank (fld b "severity")))
  else nsub (vnum (fld a "firedMinAgo")) (vnum (fld b "firedMinAgo")).

(** [sort] with a comparator: [a] stays before [b] unless [cmp(a, b) > 0]. *)
Definition sort_cmp (cmp : value -> value -> num) : list value -> list value :=
  sort_by (fun a b => negb (ngt (cmp a b) n0)).

Section Live.
Context (h : host) (fixture : value).

(** [Date.parse(v) || 0]. *)
Definition parse0 (v : value) : num :=
  let t := h_parse h (vstr v) in if is_nan t then n0 else t.

Definition opie_cmp (a b : value) : num :=
  nsub (parse0 (fld b "startedAt")) (parse0 (fld a "startedAt")).

(** [s.replace(c, d)] for one-character strings: the first occurrence. *)
Fixpoint replace_first (c d : ascii) (s : string) : string :=
  match s with
  | EmptyString => EmptyString
  | String x r => if Ascii.eqb x c then String d r else String x (replace_first c d r)
  end.

(** [(startsAt || "").replace(" ", "T") + "Z"]; only strings have [replace]. *)
Definition starts_key (m : value) : option string :=
  match v_or (fld m "startsAt") (VStr "") with
  | VStr s => Some (replace_first " " "T" s +:+ "Z")
  | _ => None
  end.

Definition maint_time (m : value) : num :=
  match starts_key m with Some s => parse0 (VStr s) | None => nan end.

Definition maint_cmp (a b : value) : num := nsub (maint_time a) (maint_time b).

(** The sort throws as soon as the comparator runs on a start that has no
    [replace]; it does not run for fewer than two windows. *)
Definition sort_maintenance (l : list value) : res (list value) :=
  if (2 <=? length l)%nat && existsb (fun m => match starts_key m with None => true | _ => false end) l
  then Throw TypeError else Ok (sort_cmp maint_cmp l).

(** ** Sections of the model *)

(** The integer part of [sec / 86400] and the hours left, as ["3d 07h"]. *)
Definition fmtUptime (sec : num) : string :=
  let d := nfloor (ndiv sec (ofZ 86400)) in
  let hh := nfloor (ndiv (nrem sec (ofZ 86400)) (ofZ 3600)) in
  num_str d +:+ "d " +:+ padStart (num_str hh) 2 "0" +:+ "h".

Definition mapSegment (s : value) : res value :=
  if nullish s then Throw TypeError else
  Ok (VObj [("id", fld s "segId"); ("name", fld s "label"); ("cidr", fld s "cidr");
            ("desc", orv s "notes" (VStr "")); ("wireless", VBool (truthy (fld s "wireless")))]).

(** [forEach(x => { idx[x[key]] = x })]. *)
Definition index_by (key : string) (l : list value) : index :=
  fold_left (fun idx x => assoc_set (vstr (fld x key)) x idx) l [].

Definition mapOperator (who : value) : value :=
  if truthy who && truthy (fld who "operator") then
    VObj [("name", fld who "operator"); ("role", orv who "role" (VStr "viewer"));
          ("displayName", orv who "displayName" (fld who "operator"));
          ("source", orv who "source" (VStr "local"));
          ("directoryEnabled", VBool (truthy (fld who "directoryEnabled")))]
  else VNull.

Definition default_seq : value :=
  VObj [("unit", vz 100); ("location", vz 100); ("receipt", vz 100); ("project", vz 100);
        ("allocation", vz 100); ("model", vz 100)].

Definition mapInventory (v : value) : value :=
  let w := if truthy v && is_obj v then v else VObj [] in
  let fi := fld fixture "inventory" in
  VObj [("models", A (fld w "models")); ("units", A (fld w "units")); ("locations", A (fld w "locations"));
        ("receipts", A (fld w "receipts")); ("projects", A (fld w "projects"));
        ("allocations", A (fld w "allocations"));
        ("seq", v_or (if truthy fi then fld fi "seq" else fi) default_seq)].

Definition role_is (r : string) (n : value) : bool := strict_eq (fld n "role") (VStr r).

(** The procs of every mapped node are an array. *)
Definition procs_count (nodes : list value) : value :=
  vz (fold_left (fun a n => a + Z.of_nat (length (arr (fld n "procs"))))%Z nodes 0%Z).

Definition count_if (p : value -> bool) (l : list value) : value := vlen (List.filter p l).

Definition mapSummary (summaryW countsW : value) (nodes probes allFleet : list value) : value :=
  VObj
    [("systems", count_if (fun n => negb (strict_eq (fld n "state") (VStr "retired"))) allFleet);
     ("hosts", nnv countsW "clients" (count_if (role_is "client") nodes));
     ("servers", nnv countsW "servers" (count_if (role_is "server") nodes));
     ("monitors", nnv countsW "monitors" (count_if (role_is "monitor") nodes));
     ("applications", nnv countsW "applications" (procs_count nodes));
     ("probes", nnv countsW "probes" (vlen probes));
     ("version", orv summaryW "version" (VStr "—"));
     ("uptimeStr", orv summaryW "uptimeStr"
        (if truthy (fld summaryW "uptimeSec") then VStr (fmtUptime (vnum (fld summaryW "uptimeSec"))) else VStr "—"))].

(** The human name of the lease holder. *)
Definition primary_name (leaseHolder : value) (nodes : list value) (nodeIndex : index) : value :=
  let primary :=
    v_or (index_get nodeIndex leaseHolder)
      (match List.find (fun n => String.eqb (vstr (fld n "nodeId")) (vstr leaseHolder)) nodes with
       | Some n => n | None => VNull end) in
  let all_digits := negb (String.eqb (vstr leaseHolder) "") && sall is_digit (vstr leaseHolder) in
  if truthy primary then fld primary "name"
  else if negb (nullish leaseHolder) && negb all_digits
  then VStr (hd "" (split_char "." (vstr leaseHolder)))
  else match List.find (role_is "server") nodes with Some n => fld n "name" | None => VStr "controller" end.

Definition mapServer (leaseW configW : value) (nodes : list value) (nodeIndex : index) : value :=
  let holder := fld leaseW "leaseHolder" in
  let expires := fld leaseW "expiresAt" in
  let ttlSec := if truthy (fld configW "lease") then fld (fld configW "lease") "ttlSec" else vz 15 in
  let parsed := h_parse h (vstr expires) in
  let ageSec :=
    if truthy expires
    then nmax n0 (nsub (vnum ttlSec) (ndiv (nsub parsed (h_now h)) (ofZ 1000)))
    else n0 in
  VObj
    [("primary", primary_name holder nodes nodeIndex); ("primaryId", holder);
     ("failover", VNull); ("failoverId", VNull); ("leaseEpoch", fld leaseW "leaseEpoch");
     ("leaseHealthy", VBool (truthy expires && ngt parsed (h_now h)));
     ("leaseTtlSec", ttlSec);
     ("leaseAgeSec", v_or (VNum (nround ageSec)) (vz 0));
     ("dbHost", orv configW "dbHost" (VStr "—"));
     ("historyDays", v_or (if truthy (fld configW "retention") then fld (fld configW "retention") "historyDays"
                           else fld configW "retention") (vz 90))].

Definition active (sev : string) (a : value) : bool :=
  negb (truthy (fld a "ackedAt")) && negb (truthy (fld a "cleared")) && strict_eq (fld a "severity") (VStr sev).

Definition segRollups (segments nodes : list value) : value :=
  VObj (fold_left (fun acc s =>
    assoc_set (vstr (fld s "id"))
      (rollup (List.filter (fun n => strict_eq (fld n "segId") (fld s "id")) nodes)) acc) segments []).

(** The rows of [/api/builds]: [{builds: [...]}] or a bare array. *)
Definition builds_rows (v : value) : list value :=
  if truthy v && is_arr (fld v "builds") then arr (fld v "builds") else arr v.

Definition not_loaded : freshness := Fresh "unknown" None (h_now h).

Definition loadLive (r : reads) : res value :=
  let summaryW := or_empty (r_summary r) in
  let configW := or_empty (r_config r) in
  let leaseW := orv summaryW "lease" (VObj []) in
  let countsW := orv summaryW "counts" (VObj []) in
  segments <- map_res mapSegment (arr (r_segments r)) ;;
  let segIndex := index_by "id" segments in
  nodes <- map_res (fun w => mapNode h w segIndex) (arr (r_nodes r)) ;;
  let nodeIndex := index_by "nodeId" nodes in
  probes <- map_res (mapProbe h) (arr (r_probes r)) ;;
  alerts0 <- map_res (fun a => mapAlert h a nodeIndex) (arr (r_alerts r)) ;;
  let alerts := sort_cmp alert_cmp alerts0 in
  opie0 <- map_res (mapOpie h) (arr (o_value (r_opie r))) ;;
  maintenance0 <- map_res mapMaintenance (arr (o_value (r_maintenance r))) ;;
  maintenance <- sort_maintenance maintenance0 ;;
  let rules := map (fun x => VObj (own_props x)) (arr (r_rules r)) in
  discovered <- map_res (mapDiscovered h) (arr (r_discovery r)) ;;
  enrollments <- map_res (mapEnrollment h) (arr (r_enrollments r)) ;;
  builds <- map_res mapBuild (builds_rows (r_builds r)) ;;
  netgear <- map_res mapGear (arr (r_netgear r)) ;;
  systemNodes <- map_res (mapAssetNode h) (arr (o_value (r_assets r))) ;;
  let allFleet := nodes ++ systemNodes in
  Ok (VObj
    [("nodes", VArr nodes); ("segments", VArr segments); ("segRollups", segRollups segments nodes);
     ("fleetRoll", rollup allFleet); ("summary", mapSummary summaryW countsW nodes probes allFleet);
     ("probes", VArr probes); ("rules", VArr rules); ("alerts", VArr alerts);
     ("opie", VArr (sort_cmp opie_cmp opie0)); ("discovered", VArr discovered);
     ("maintenance", VArr maintenance); ("builds", VArr builds); ("enrollments", VArr enrollments);
     ("config", configW); ("netgear", VArr netgear);
     ("pools", A (o_value (r_pools r))); ("assets", A (o_value (r_assets r)));
     ("inventory", mapInventory (o_value (r_inventory r)));
     ("git", mapForgejo VNull); ("ca", mapCa VNull);
     ("freshness", VObj
        [("pools", labelled "Network pools" (o_fresh (r_pools r)));
         ("assets", labelled "Monitored assets" (o_fresh (r_assets r)));
         ("operator", labelled "Operator identity" (o_fresh (r_whoami r)));
         ("analysis", labelled "Analysis reports" (o_fresh (r_opie r)));
         ("inventory", labelled "Inventory" (o_fresh (r_inventory r)));
         ("maintenance", labelled "Maintenance windows" (o_fresh (r_maintenance r)));
         ("forgejo", labelled "Forgejo" not_loaded);
         ("certificates", labelled "Certificates" not_loaded)]);
     ("systemNodes", VArr systemNodes); ("fleet", VArr allFleet);
     ("monitors", VArr (List.filter (role_is "monitor") nodes));
     ("server", mapServer leaseW configW nodes nodeIndex);
     ("operator", mapOperator (o_value (r_whoami r)));
     ("activeCrit", count_if (active "crit") alerts); ("activeWarn", count_if (active "warn") alerts);
     ("source", VStr "live")]).

(** The late update from the integration reads, on whatever [window.SOLARI] is
    by then; an offline model is left alone. *)
Definition applyIntegrations (git ca : opt_read) (target : value) : value :=
  if truthy target && negb (strict_eq (fld target "source") (VStr "offline"))
  then VObj (assign (own_props target)
    [("git", mapForgejo (o_value git)); ("ca", mapCa (o_value ca));
     ("freshness", VObj (assign (own_props (orv target "freshness" (VObj [])))
        [("forgejo", labelled "Forgejo" (o_fresh git));
         ("certificates", labelled "Certificates" (o_fresh ca))]))])
  else target.

(** ** On-demand loaders *)

(** The answer of [/api/nodes/{id}] merged and mapped. *)
Definition loadNode (segments : list value) (w : value) : res value :=
  if nullish w then Throw TypeError else
  let flat := assign (own_props (orv w "node" (VObj []))) (own_props (orv w "host" (VObj []))) in
  let flat' := if truthy (fld w "procs") then assoc_set "procs" (fld w "procs") flat else flat in
  mapNode h (VObj flat') (index_by "id" segments).

Definition historyValue (raw : value) (metric : string) (opts0 : value) : num :=
  let v := vnum (v_or raw (vz 0)) in
  let opts := or_empty opts0 in
  if String.eqb metric "cpuAvgMilli" then milliToPct (VNum v)
  else if String.eqb metric "ramUsedKb" then pct (VNum v) (orv opts "totalKb" (orv opts "ramTotalKb" (vz 0)))
  else if String.eqb metric "swapUsedKb" then pct (VNum v) (orv opts "totalKb" (orv opts "swapTotalKb" (vz 0)))
  else if String.eqb metric "diskMinFreePct" then nmax n0 (nmin (ofZ 100) (nsub (ofZ 100) v))
  else if String.eqb metric "netKbps" then ndiv (nround (nmul (ndiv v (ofZ 1000)) (ofZ 10))) (ofZ 10)
  else v.

(** The value of a history point: [p.value] of an object that has one. *)
Definition point_raw (p : value) : value :=
  if truthy p && is_obj p && has_key p "value" then fld p "value" else p.

Definition loadNodeHistory (w : value) (wireMetric : string) (opts : value) : res (list num) :=
  let series :=
    if is_arr w then w
    else v_or (if truthy w then v_or (fld w "series") (fld w "points") else w) (VArr []) in
  map_arr (fun p => Ok (historyValue (point_raw p) wireMetric opts)) series.
End Live.

(** ** When the load fails *)

Definition is_ok {X} (r : res X) : bool := match r with Ok _ => true | Throw _ => false end.

Lemma is_ok_map_res {X Y} (f : X -> res Y) (l : list X) : is_ok (map_res f l) = forallb (fun x => is_ok (f x)) l.
Proof.
  induction l as [|x r IH]; [done|]. cbn. rewrite <- IH. destruct (f x); [|done].
  cbn. by destruct (map_res f r).
Qed.

Lemma map_res_length {X Y} (f : X -> res Y) (l : list X) ys : map_res f l = Ok ys -> length ys = length l.
Proof.
  revert ys. induction l as [|x r IH]; cbn; [by intros ys [= <-]|]. intros ys.
  destruct (f x); [cbn|done]. destruct (map_res f r); [cbn|done]. intros [= <-]. cbn. f_equal. auto.
Qed.

Lemma map_res_ok {X Y} (f : X -> res Y) (p : X -> bool) (l : list X) :
  (forall x, is_ok (f x) = p x) -> is_ok (map_res f l) = forallb p l.
Proof. intros H. rewrite is_ok_map_res. induction l as [|x r IH]; [done|]. cbn. by rewrite H, IH. Qed.

(** A bind succeeds when both parts do. *)
Lemma is_ok_bind {X Y} (r : res X) (f : X -> res Y) (p q : bool) :
  is_ok r = p -> (forall x, r = Ok x -> is_ok (f x) = q) -> is_ok (bind r f) = p && q.
Proof. intros <- H. destruct r; [by apply H|done]. Qed.

Definition present (v : value) : bool := negb (nullish v).

(** A value that is absent (falsy) or an array of rows satisfying [p]. *)
Definition list_field (p : value -> bool) (v : value) : bool :=
  match v_or v (VArr []) with VArr l => forallb p l | _ => false end.

Definition node_row_ok (w : value) : bool :=
  present w
  && (list_field (fun _ => true) (v_or (fld w "cpuLoadMilli") (fld w "cores"))
  && (list_field present (fld w "disks") && (list_field present (fld w "ifaces")
  && (list_field present (fld w "procs")
  && (truthy (fld w "name") || match fld w "hostFqdn" with VStr _ => true | v => negb (truthy v) end))))).

Definition probe_row_ok (w : value) : bool := present w && list_field present (fld w "vantages").

Definition maintenance_ok (l : list value) : bool :=
  forallb present l
  && negb ((2 <=? length l)%nat
           && existsb (fun w => match v_or (fld w "startsAt") (VStr "") with VStr _ => false | _ => true end) l).

(** Every row of every list that was answered is usable. *)
Definition rows_ok (r : reads) : bool :=
  forallb present (arr (r_segments r)) && (forallb node_row_ok (arr (r_nodes r))
  && (forallb probe_row_ok (arr (r_probes r)) && (forallb present (arr (r_alerts r))
  && (forallb present (arr (o_value (r_opie r))) && (maintenance_ok (arr (o_value (r_maintenance r)))
  && (forallb present (arr (r_discovery r)) && (forallb present (arr (r_enrollments r))
  && (forallb present (builds_rows (r_builds r)) && (forallb present (arr (r_netgear r))
  && forallb present (arr (o_value (r_assets r)))))))))))).

Lemma is_ok_map_arr {Y} (f : value -> res Y) (p : value -> bool) (v : value) :
  (forall x, is_ok (f x) = p x) -> is_ok (map_arr f (v_or v (VArr []))) = list_field p v.
Proof. intros H. unfold list_field, map_arr. destruct (v_or v (VArr [])); try done. by apply map_res_ok. Qed.

Lemma v_or_assoc a b c : v_or a (v_or b c) = v_or (v_or a b) c.
Proof. unfold v_or. destruct (truthy a) eqn:E; by rewrite ?E. Qed.

Ltac solve_present := intros; unfold present;
  match goal with |- is_ok (?f _) = _ => unfold f | |- is_ok (?f _ _) = _ => unfold f | |- is_ok (?f _ _ _) = _ => unfold f end;
  by destruct (nullish _).

Lemma node_name_ok w :
  is_ok (node_name w) = truthy (fld w "name") || match fld w "hostFqdn" with VStr _ => true | v => negb (truthy v) end.
Proof.
  unfold node_name. destruct (truthy (fld w "name")); [done|].
  destruct (fld w "hostFqdn") as [| |[]|n|s|l|f]; try done; cbn [truthy orb].
  - by destruct (negb (is_nan n || nequ n n0)).
  - by destruct (negb (String.eqb s "")).
Qed.

Lemma mapNode_ok h w idx : is_ok (mapNode h w idx) = node_row_ok w.
Proof.
  unfold mapNode, node_row_ok, present. destruct (nullish w); [done|]. cbn [negb andb].
  apply is_ok_bind.
  { unfold node_cores. rewrite v_or_assoc. by apply is_ok_map_arr. }
  intros cores _. apply is_ok_bind; [apply is_ok_map_arr; solve_present|].
  intros disks _. apply is_ok_bind; [apply is_ok_map_arr; solve_present|].
  intros ifaces _. apply is_ok_bind; [apply is_ok_map_arr; solve_present|].
  intros procs _. rewrite <- node_name_ok. by destruct (node_name w).
Qed.

Lemma mapProbe_ok h w : is_ok (mapProbe h w) = probe_row_ok w.
Proof.
  unfold mapProbe, probe_row_ok, present. destruct (nullish w); [done|]. cbn [negb andb].
  rewrite <- (is_ok_map_arr (mapVantage h) present) by solve_present. by destruct (map_arr _ _).
Qed.

(** The start of a mapped window is the row's, or null. *)
Lemma starts_key_mapped w m :
  mapMaintenance w = Ok m ->
  match starts_key m with None => true | _ => false end
  = match v_or (fld w "startsAt") (VStr "") with VStr _ => false | _ => true end.
Proof.
  unfold mapMaintenance. destruct (nullish w); [done|]. intros [= <-]. unfold starts_key.
  change (fld (VObj _) "startsAt") with (orv w "startsAt" VNull).
  unfold v_or. destruct (truthy (fld w "startsAt")) eqn:E; rewrite ?E; [|done]. by destruct (fld w "startsAt").
Qed.

Lemma sort_maintenance_ok h l l' :
  map_res mapMaintenance l = Ok l' ->
  is_ok (sort_maintenance h l') =
  negb ((2 <=? length l)%nat
        && existsb (fun w => match v_or (fld w "startsAt") (VStr "") with VStr _ => false | _ => true end) l).
Proof.
  intros H. unfold sort_maintenance. rewrite (map_res_length _ _ _ H).
  assert (E : existsb (fun m => match starts_key m with None => true | _ => false end) l'
    = existsb (fun w => match v_or (fld w "startsAt") (VStr "") with VStr _ => false | _ => true end) l).
  { revert l' H. induction l as [|w r IH]; cbn [map_res]; [by intros ? [= <-]|]. intros l'.
    destruct (mapMaintenance w) as [m|] eqn:Em; [cbn [bind]|done].
    destruct (map_res mapMaintenance r) as [ms|] eqn:Er; [cbn [bind]|done]. intros [= <-].
    cbn [existsb]. by rewrite (starts_key_mapped w m Em), (IH ms). }
  rewrite E. by destruct (_ && _).
Qed.

(** The live model is built unless a row itself is unusable.  The load
    succeeds exactly when every row of the lists that arrived is an object whose
    own list fields are absent or lists of objects (and a node without a name has
    a textual host name, and start times to be sorted are texts); an endpoint that
    answers with something other than a list never makes it fail. *)
Theorem live_load_fails_only_on_bad_rows (h : host) (fixture : value) (r : reads) :
  is_ok (loadLive h fixture r) = rows_ok r.
Proof.
  unfold loadLive, rows_ok.
  apply is_ok_bind; [apply map_res_ok; solve_present|intros segments _].
  apply is_ok_bind; [apply map_res_ok; intros; apply mapNode_ok|intros nodes _].
  apply is_ok_bind; [apply map_res_ok; intros; apply mapProbe_ok|intros probes _].
  apply is_ok_bind; [apply map_res_ok; solve_present|intros alerts _].
  apply is_ok_bind; [apply map_res_ok; solve_present|intros opie _].
  unfold maintenance_ok. rewrite <- andb_assoc.
  apply is_ok_bind; [apply map_res_ok; solve_present|intros maint Hm].
  apply is_ok_bind; [by apply sort_maintenance_ok|intros maint' _].
  apply is_ok_bind; [apply map_res_ok; solve_present|intros disc _].
  apply is_ok_bind; [apply map_res_ok; solve_present|intros enr _].
  apply is_ok_bind; [apply map_res_ok; solve_present|intros builds _].
  apply is_ok_bind; [apply map_res_ok; solve_present|intros gear _].
  rewrite <- (map_res_ok (mapAssetNode h) present) by solve_present. destruct (map_res (mapAssetNode h) _); reflexivity.
Qed.

(** ** What the model contains *)

(** The parts of a model that was built. *)
Lemma loadLive_inv h fixture r live :
  loadLive h fixture r = Ok live ->
  exists nodes nodeIndex alerts systemNodes,
    map_res (fun w => mapNode h w (index_by "id" (arr (fld live "segments")))) (arr (r_nodes r)) = Ok nodes /\
    map_res (fun a => mapAlert h a nodeIndex) (arr (r_alerts r)) = Ok alerts /\
    map_res (mapAssetNode h) (arr (o_value (r_assets r))) = Ok systemNodes /\
    nodeIndex = index_by "nodeId" nodes /\
    fld live "nodes" = VArr nodes /\ fld live "fleet" = VArr (nodes ++ systemNodes) /\
    fld live "fleetRoll" = rollup (nodes ++ systemNodes) /\
    fld (fld live "summary") "systems"
      = count_if (fun n => negb (strict_eq (fld n "state") (VStr "retired"))) (nodes ++ systemNodes) /\
    fld live "alerts" = VArr (sort_cmp alert_cmp alerts) /\
    fld live "activeCrit" = count_if (active "crit") (sort_cmp alert_cmp alerts) /\
    fld live "activeWarn" = count_if (active "warn") (sort_cmp alert_cmp alerts).
Proof.
  unfold loadLive. intros H.
  apply bind_ok in H as (segments & Hs & H). apply bind_ok in H as (nodes & Hn & H).
  apply bind_ok in H as (probes & Hp & H). apply bind_ok in H as (alerts & Ha & H).
  apply bind_ok in H as (opie & Ho & H). apply bind_ok in H as (maint & Hm & H).
  apply bind_ok in H as (maint' & Hm' & H). apply bind_ok in H as (disc & Hd & H).
  apply bind_ok in H as (enr & He & H). apply bind_ok in H as (builds & Hb & H).
  apply bind_ok in H as (gear & Hg & H). apply bind_ok in H as (assets & Has & H).
  injection H as <-.
  exists nodes, (index_by "nodeId" nodes), alerts, assets.
  repeat (split; [first [exact Hn | exact Ha | exact Has | reflexivity]|]). reflexivity.
Qed.

(** A state the rollup counts, and the number of rows in it. *)
Definition counted : list string := ["up"; "degraded"; "down"; "unknown"; "retired"].
Definition in_state (k : string) (n : value) : bool := String.eqb (vstr (fld n "state")) k.

Lemma count_state_assoc r n k c :
  assoc k r = Some c -> assoc k (count_state r n) = Some (c + if in_state k n then 1 else 0)%Z.
Proof.
  intros H. unfold count_state, in_state. destruct (String.eqb_spec (vstr (fld n "state")) k) as [->|Hne].
  - rewrite H. apply assoc_set_same.
  - rewrite Z.add_0_r. destruct (assoc (vstr (fld n "state")) r); [|done]. by rewrite assoc_set_other.
Qed.

Lemma fold_count_assoc l r k c :
  assoc k r = Some c ->
  assoc k (fold_left count_state l r) = Some (c + Z.of_nat (length (List.filter (in_state k) l)))%Z.
Proof.
  revert r c. induction l as [|n l IH]; intros r c H; cbn [fold_left List.filter].
  - rewrite H. f_equal. cbn. lia.
  - rewrite (IH _ _ (count_state_assoc r n k c H)). f_equal. destruct (in_state k n); cbn [length]; lia.
Qed.

Lemma assoc_map {X Y} (f : X -> Y) k l :
  assoc k (map (fun kc => (kc.1, f kc.2)) l) = option_map f (assoc k l).
Proof. induction l as [|[k' x] l IH]; [done|]. cbn. by destruct (String.eqb k k'). Qed.

Lemma rollup_fld l k c :
  assoc k (rollup_counts l) = Some c -> fld (rollup l) k = vz c.
Proof. intros H. unfold rollup, fld. by rewrite (assoc_map vz), H. Qed.

Lemma filter_none {X} (p : X -> bool) l : forallb (fun x => negb (p x)) l = true -> List.filter p l = [].
Proof.
  induction l as [|x l IH]; [done|]. cbn. intros [H1 H2]%andb_prop. apply negb_true_iff in H1. rewrite H1. auto.
Qed.

(** The fleet tiles count every system once.  In a model that was built the
    fleet is the mapped nodes followed by the adopted systems, one row per wire
    row; each state's tile is the number of fleet rows in that state, the total
    tile is the number of rows (for states other than the reserved word total),
    and the systems figure counts those not retired. *)
Theorem fleet_tiles_count_fleet (h : host) (fixture : value) (r : reads) (live : value) :
  loadLive h fixture r = Ok live ->
  let fleet := arr (fld live "fleet") in
  forallb (fun n => negb (in_state "total" n)) fleet = true ->
  length fleet = (length (arr (r_nodes r)) + length (arr (o_value (r_assets r))))%nat /\
  fld (fld live "fleetRoll") "total" = vlen fleet /\
  Forall (fun k => fld (fld live "fleetRoll") k = count_if (in_state k) fleet) counted /\
  fld (fld live "summary") "systems"
    = count_if (fun n => negb (strict_eq (fld n "state") (VStr "retired"))) fleet.
Proof.
  intros H fleet Ht. apply loadLive_inv in H
    as (nodes & idx & alerts & assets & Hn & _ & Ha & _ & _ & Hf & Hr & Hs & _).
  assert (Ef : fleet = nodes ++ assets) by (unfold fleet; by rewrite Hf). rewrite Hr, Hs, <- Ef. split.
  { by rewrite Ef, length_app, (map_res_length _ _ _ Hn), (map_res_length _ _ _ Ha). }
  split.
  { erewrite rollup_fld; [|by apply fold_count_assoc]. unfold vlen. f_equal.
    rewrite (filter_none _ _ Ht). cbn. lia. }
  split; [|done].
  repeat (apply Forall_cons_2; [erewrite rollup_fld; [|by apply fold_count_assoc]; done|]).
  apply Forall_nil_2.
Qed.

Module LiveDemo.
Definition clock : host := Host (ofZ 1000000) (fun _ => nan).
Definition none : opt_read := Opt VNull (Fresh "unknown" None (ofZ 1)).
Definition node (id st : string) : value := VObj [("nodeId", VStr id); ("name", VStr id); ("state", VStr st)].
Definition alert (sev : string) (cleared : bool) (m : Z) : value :=
  VObj [("severity", VStr sev); ("cleared", VBool cleared); ("firedMinAgo", vz m)].
Definition wire : reads :=
  Reads VNull (VArr [node "a" "up"; node "b" "down"; node "c" "retired"]) VNull VNull
    (VArr [alert "info" false 1; alert "crit" false 9; alert "crit" true 2; alert "crit" false 3])
    VNull VNull VNull VNull VNull VNull
    none (Opt (VArr [VObj [("assetId", vz 7); ("state", VStr "up")]]) (Fresh "fresh" None (ofZ 1)))
    none none none none.
Definition live : value := match loadLive clock (VObj []) wire with Ok v => v | Throw _ => VNull end.

Lemma live_ok : loadLive clock (VObj []) wire = Ok live.
Proof. vm_compute. reflexivity. Qed.
End LiveDemo.

Lemma fleet_tiles_count_fleet_witness :
  fld (fld LiveDemo.live "fleetRoll") "total" = vlen (arr (fld LiveDemo.live "fleet"))
  /\ vlen (arr (fld LiveDemo.live "fleet")) = vz 4.
Proof.
  split; [|vm_compute; reflexivity].
  refine (proj1 (proj2 (fleet_tiles_count_fleet _ _ _ _ LiveDemo.live_ok _))). vm_compute. reflexivity.
Defined.

(** ** The order of the alerts *)

(** An alert whose flag, severity and age are of the expected kinds. *)
Definition fine_alert (a : value) : Prop :=
  (exists c, fld a "cleared" = VBool c) /\
  (exists s, sev_rank (fld a "severity") = vz s /\ (0 <= s < 2 ^ 53)%Z) /\
  (exists m, fld a "firedMinAgo" = vz m /\ (0 <= m < 2 ^ 53)%Z).

(** Cleared, severity rank, minutes since it fired. *)
Definition alert_key (a : value) : bool * Z * Z :=
  (truthy (fld a "cleared"), floorZ (vnum (sev_rank (fld a "severity"))), floorZ (vnum (fld a "firedMinAgo"))).

(** Active before cleared, then by severity, then the most recent first. *)
Definition alert_le (a b : value) : bool :=
  let '(c, s, m) := alert_key a in
  let '(c', s', m') := alert_key b in
  (negb c && c') || (Bool.eqb c c' && ((s <? s')%Z || ((s =? s')%Z && (m <=? m')%Z))).

Lemma alert_le_total a b : alert_le a b = false -> alert_le b a = true.
Proof.
  unfold alert_le. destruct (alert_key a) as [[c s] m], (alert_key b) as [[c' s'] m'].
  destruct c, c'; cbn; try done; lia.
Qed.

Lemma alert_le_trans a b c : alert_le a b = true -> alert_le b c = true -> alert_le a c = true.
Proof.
  unfold alert_le. destruct (alert_key a) as [[x1 s1] m1], (alert_key b) as [[x2 s2] m2], (alert_key c) as [[x3 s3] m3].
  destruct x1, x2, x3; cbn; try done; lia.
Qed.

Lemma alert_cmp_le a b :
  fine_alert a -> fine_alert b -> negb (ngt (alert_cmp a b) n0) = alert_le a b.
Proof.
  intros ((c & Hc) & (s & Hs & Hsb) & (m & Hm & Hmb)) ((c' & Hc') & (s' & Hs' & Hsb') & (m' & Hm' & Hmb')).
  unfold alert_cmp, alert_le, alert_key. rewrite Hc, Hs, Hm, Hc', Hs', Hm'. cbn [truthy strict_eq vz vnum].
  rewrite nequ_ofZ, !floorZ_ofZ by done.
  destruct (Bool.eqb c c') eqn:Ec; cbn [negb]; [|by destruct c, c'].
  apply Bool.eqb_prop in Ec as ->. replace (negb c' && c') with false by (by destruct c'). cbn [orb andb].
  destruct (Z.eqb_spec s s') as [->|Hne]; cbn [negb]; rewrite nsub_pos by done.
  - rewrite Z.ltb_irrefl. cbn. lia.
  - lia.
Qed.

Lemma sort_alerts_sorted l :
  Forall fine_alert l -> StronglySorted (fun a b => alert_le a b = true) (sort_cmp alert_cmp l).
Proof.
  intros H. unfold sort_cmp. rewrite (sort_by_ext _ alert_le).
  - apply sort_by_sorted; [apply alert_le_total|apply alert_le_trans].
  - rewrite Forall_forall in H. intros x y Hx Hy. apply alert_cmp_le; auto.
Qed.

Lemma sort_cmp_perm cmp l : sort_cmp cmp l ≡ₚ l.
Proof. apply sort_by_perm. Qed.

Lemma filter_perm {X} (p : X -> bool) (l l' : list X) :
  l ≡ₚ l' -> length (List.filter p l) = length (List.filter p l').
Proof. induction 1; cbn; repeat (destruct (p _); cbn); try lia; congruence. Qed.

(** The alert list is in triage order and nothing is lost.  The alerts of a
    model that was built are exactly the mapped wire rows, and when their flags,
    severities and ages are of the expected kinds they stand active before
    cleared, then by severity (critical, warning, info), then most recent first;
    the badge counters are the numbers of rows neither acknowledged nor cleared
    at that severity. *)
Theorem alerts_in_triage_order (h : host) (fixture : value) (r : reads) (live : value) :
  loadLive h fixture r = Ok live ->
  Forall fine_alert (arr (fld live "alerts")) ->
  exists mapped,
    map_res (fun a => mapAlert h a (index_by "nodeId" (arr (fld live "nodes")))) (arr (r_alerts r)) = Ok mapped /\
    arr (fld live "alerts") ≡ₚ mapped /\
    StronglySorted (fun a b => alert_le a b = true) (arr (fld live "alerts")) /\
    fld live "activeCrit" = count_if (active "crit") mapped /\
    fld live "activeWarn" = count_if (active "warn") mapped.
Proof.
  intros H Hf. apply loadLive_inv in H
    as (nodes & idx & alerts & assets & _ & Ha & _ & -> & Hn & _ & _ & _ & Hal & Hc & Hw).
  rewrite Hal, Hn, Hc, Hw in *. cbn [arr] in *. exists alerts. split; [done|].
  split; [apply sort_cmp_perm|]. split.
  - apply sort_alerts_sorted. by rewrite sort_cmp_perm in Hf.
  - unfold count_if, vlen. by rewrite !(filter_perm _ _ _ (sort_cmp_perm alert_cmp alerts)).
Qed.

Lemma alerts_in_triage_order_witness :
  StronglySorted (fun a b => alert_le a b = true) (arr (fld LiveDemo.live "alerts"))
  /\ map (fun a => fld a "firedMinAgo") (arr (fld LiveDemo.live "alerts")) = [vz 3; vz 9; vz 1; vz 2].
Proof.
  split; [|vm_compute; reflexivity].
  assert (Hf : Forall fine_alert (arr (fld LiveDemo.live "alerts"))).
  { repeat (apply Forall_cons_2 || apply Forall_nil_2).
    all: split; [eexists; vm_compute; reflexivity|].
    all: split.
    1,3,5,7: first [exists 0%Z; split; [vm_compute; reflexivity|lia] | exists 1%Z; split; [vm_compute; reflexivity|lia]
                  | exists 2%Z; split; [vm_compute; reflexivity|lia]].
    all: first [exists 3%Z; split; [vm_compute; reflexivity|lia] | exists 9%Z; split; [vm_compute; reflexivity|lia]
              | exists 1%Z; split; [vm_compute; reflexivity|lia] | exists 2%Z; split; [vm_compute; reflexivity|lia]]. }
  destruct (alerts_in_triage_order _ _ _ _ LiveDemo.live_ok Hf) as (? & _ & _ & Hs & _). exact Hs.
Defined.

(** ** The late integration update *)

(** A late integration answer changes only its own sections.  It never
    touches an offline model; on a live one it replaces the two integration
    sections and their two freshness entries and leaves every other section and
    every other freshness entry as they are. *)
Theorem integrations_update_is_framed (git ca : opt_read) (target : value) (k : string) :
  (strict_eq (fld target "source") (VStr "offline") = true -> applyIntegrations git ca target = target) /\
  (k ∉ ["git"; "ca"; "freshness"] -> is_obj target = true -> is_arr target = false ->
     fld (applyIntegrations git ca target) k = fld target k) /\
  (k ∉ ["forgejo"; "certificates"] -> forall fr, fld target "freshness" = VObj fr ->
     fld (fld (applyIntegrations git ca target) "freshness") k = fld (VObj fr) k).
Proof.
  unfold applyIntegrations. split; [|split].
  - intros ->. by rewrite andb_false_r.
  - intros Hk Ho Ha. destruct target as [| | | | | |f]; try done. cbn [truthy andb own_props].
    destruct (negb _); [|done]. rewrite !not_elem_of_cons in Hk. destruct Hk as (H1 & H2 & H3 & _).
    unfold assign. cbn [fold_left fst snd fld]. by rewrite !assoc_set_other by done.
  - intros Hk fr Hfr. destruct target as [| | | | | |f]; try done. cbn [truthy andb own_props].
    destruct (negb _); [|by rewrite Hfr]. rewrite !not_elem_of_cons in Hk. destruct Hk as (H1 & H2 & _).
    rewrite Hfr. unfold assign. cbn [fold_left fst snd]. unfold fld at 2.
    rewrite assoc_set_same. cbn [v_or truthy own_props fld]. by rewrite !assoc_set_other by done.
Qed.

Lemma integrations_update_is_framed_witness :
  fld (applyIntegrations LiveDemo.none LiveDemo.none LiveDemo.live) "alerts" = fld LiveDemo.live "alerts".
Proof.
  apply (proj1 (proj2 (integrations_update_is_framed LiveDemo.none LiveDemo.none LiveDemo.live "alerts"))).
  - rewrite !not_elem_of_cons. repeat split; try discriminate. apply not_elem_of_nil.
  - vm_compute. reflexivity.
  - vm_compute. reflexivity.
Defined.
