(* ===== verification/Refresh.v ===== *)
(** * Refreshing and booting the model (api.jsx, lines 1390-1437 and 1491-1597)

    [API.refresh] with its two variables, [refreshInFlight] and
    [refreshQueued], as a transition system: calls, settling loads and the
    microtasks the promises schedule may interleave in any order the runtime
    allows, calls between two microtasks included.  Loads and queued follow-ups
    are numbered from one counter, so a larger number began later.
    Then the effect of a settled load on [window.SOLARI], the boot decision and
    the release check. *)

From Stdlib Require Import ZArith Lia Ascii.
From Corelib Require Import SpecFloat.
From stdpp Require Import strings pretty list.
From S2P Require Import Prelude JsNum JsValue ApiClient Mappers LiveModel.

Local Open Scope string_scope.
Local Open Scope list_scope.
Local Open Scope js_scope.

(** ** The refresh queue *)

(** A promise handed to a caller: a load, or a follow-up not yet begun. *)
Inductive handle :=
  | HLoad (n : nat)
  | HQueued (q : nat).

Definition handle_id (h : handle) : nat := match h with HLoad n => n | HQueued q => q end.

(** A reaction scheduled when the promise in flight settles. *)
Inductive reaction :=
  | RSettle             (** [refreshInFlight = null] *)
  | RRerun (q : nat).   (** [refreshQueued = null; return API.refresh()] *)

Record queue := Queue {
  inFlight : option nat;               (** [refreshInFlight], the load behind it *)
  queued : option nat;                 (** [refreshQueued] *)
  running : list nat;                  (** loads whose reads have not settled *)
  waiting : list nat;                  (** follow-ups registered on an unsettled load *)
  micro : list reaction;               (** the microtask queue *)
  links : list (nat * handle);         (** what a follow-up that ran resolved to *)
  counter : nat;
}.

Definition idle : queue := Queue None None [] [] [] [] 0.

(** [API.refresh()]. *)
Definition refresh (s : queue) : handle * queue :=
  match inFlight s with
  | Some p =>
      match queued s with
      | Some q => (HQueued q, s)
      | None =>
          let q := counter s in
          (HQueued q,
           if decide (p ∈ running s)
           then Queue (inFlight s) (Some q) (running s) (waiting s ++ [q]) (micro s) (links s) (S q)
           else Queue (inFlight s) (Some q) (running s) (waiting s) (micro s ++ [RRerun q]) (links s) (S q))
      end
  | None =>
      let n := counter s in
      (HLoad n, Queue (Some n) (queued s) (n :: running s) (waiting s) (micro s) (links s) (S n))
  end.

Inductive revent :=
  | RCall           (** somebody calls [API.refresh] *)
  | RDone (n : nat) (** the reads of load [n] settle, well or badly *)
  | RMicro.         (** the next microtask runs *)

Definition rstep (s : queue) (e : revent) : queue :=
  match e with
  | RCall => (refresh s).2
  | RDone n =>
      if decide (n ∈ running s)
      then Queue (inFlight s) (queued s) (List.filter (fun x => negb (x =? n)%nat) (running s)) []
             (micro s ++ RSettle :: map RRerun (waiting s)) (links s) (counter s)
      else s
  | RMicro =>
      match micro s with
      | [] => s
      | RSettle :: r => Queue None (queued s) (running s) (waiting s) r (links s) (counter s)
      | RRerun q :: r =>
          let s0 := Queue (inFlight s) None (running s) (waiting s) r (links s) (counter s) in
          let '(h, s') := refresh s0 in
          Queue (inFlight s') (queued s') (running s') (waiting s') (micro s') ((q, h) :: links s') (counter s')
      end
  end.

Definition rrun (s : queue) (evs : list revent) : queue := fold_left rstep evs s.

(** A handle resolves to load [n]: follow the links of follow-ups. *)
Inductive resolves (s : queue) : handle -> nat -> Prop :=
  | resolves_load n : resolves s (HLoad n) n
  | resolves_link q h n : (q, h) ∈ links s -> resolves s h n -> resolves s (HQueued q) n.

(** Follow-ups that were handed out and have not run yet. *)
Definition pending_reruns (s : queue) : list nat :=
  omap (fun r => match r with RRerun q => Some q | RSettle => None end) (micro s).

Definition settles (s : queue) : nat :=
  length (List.filter (fun r => match r with RSettle => true | _ => false end) (micro s)).

(** [refreshInFlight] is a load that runs, or one that has settled and whose
    reset is the one scheduled; [refreshQueued] is the one follow-up that has
    not run. *)
Record queue_inv (s : queue) : Prop := {
  qi_flight : match inFlight s with
              | Some p => (running s = [p] /\ settles s = 0) \/ (running s = [] /\ settles s = 1)
              | None => running s = [] /\ settles s = 0
              end;
  qi_queued : waiting s ++ pending_reruns s = match queued s with Some q => [q] | None => [] end;
  qi_wait : running s = [] -> waiting s = [];
  qi_bound : (forall p, inFlight s = Some p -> p < counter s)%nat /\
             (forall q, queued s = Some q -> q < counter s)%nat;
  qi_links : forall q h, (q, h) ∈ links s -> (q < handle_id h < counter s)%nat /\ queued s ≠ Some q;
}.

(** A handle that has been given out: a load, or a follow-up that is queued or
    has run. *)
Definition known (s : queue) (h : handle) : Prop :=
  match h with
  | HLoad _ => True
  | HQueued q => queued s = Some q \/ exists h', (q, h') ∈ links s
  end.

Definition all_known (s : queue) : Prop := forall q h, (q, h) ∈ links s -> known s h.

(** ** Lemmas *)

Lemma pending_reruns_snoc m q :
  omap (fun r => match r with RRerun q => Some q | RSettle => None end) (m ++ [RRerun q])
  = omap (fun r => match r with RRerun q => Some q | RSettle => None end) m ++ [q].
Proof. by rewrite omap_app. Qed.

Lemma pending_reruns_done m w :
  omap (fun r => match r with RRerun q => Some q | RSettle => None end) (m ++ RSettle :: map RRerun w)
  = omap (fun r => match r with RRerun q => Some q | RSettle => None end) m ++ w.
Proof. rewrite omap_app. f_equal. cbn. induction w as [|x w IH]; [done|]. cbn. by rewrite IH. Qed.

Lemma settles_app m m' :
  length (List.filter (fun r => match r with RSettle => true | _ => false end) (m ++ m'))
  = length (List.filter (fun r => match r with RSettle => true | _ => false end) m)
    + length (List.filter (fun r => match r with RSettle => true | _ => false end) m').
Proof. by rewrite List.filter_app, length_app. Qed.

Lemma settles_reruns w :
  length (List.filter (fun r => match r with RSettle => true | _ => false end) (map RRerun w)) = 0.
Proof. induction w; [done|]. by cbn. Qed.

(** The handle a call returns: shared, or numbered by the counter. *)
Lemma refresh_handle s :
  (exists q, queued s = Some q /\ (refresh s).1 = HQueued q /\ (refresh s).2 = s) \/
  (handle_id (refresh s).1 = counter s /\ counter (refresh s).2 = S (counter s)).
Proof.
  unfold refresh. destruct (inFlight s); [|by right]. destruct (queued s) as [q|]; [left; eauto|].
  right. by case_decide.
Qed.

Lemma refresh_links s : links (refresh s).2 = links s.
Proof. unfold refresh. destruct (inFlight s); [|done]. destruct (queued s); [done|]. by case_decide. Qed.

Lemma refresh_inv s : queue_inv s -> queue_inv (refresh s).2.
Proof.
  intros H. pose proof H as [Hf Hq Hw [Hb1 Hb2] Hl]. unfold refresh.
  destruct (inFlight s) as [p|] eqn:Ef.
  - destruct (queued s) as [q|] eqn:Eq; [exact H|].
    assert (Hl' : forall q0 h, (q0, h) ∈ links s -> (q0 < handle_id h < S (counter s))%nat /\ Some (counter s) ≠ Some q0).
    { intros q0 h Hin. destruct (Hl q0 h Hin) as [? _]. split; [lia|]. intros [= <-]. lia. }
    apply app_eq_nil in Hq as [Hq1 Hq2].
    case_decide as Hd; split; cbn [inFlight queued running waiting micro links counter snd]; rewrite ?Ef; try done.
    + unfold pending_reruns in *. cbn [micro]. by rewrite Hq1, Hq2.
    + intros Hr. rewrite Hr in Hd. by apply not_elem_of_nil in Hd.
    + split; [intros x [= <-]; specialize (Hb1 _ eq_refl); lia|]. intros x [= <-]. lia.
    + unfold settles in *. cbn [micro]. rewrite settles_app. cbn. by rewrite Nat.add_0_r.
    + unfold pending_reruns in *. cbn [micro]. by rewrite pending_reruns_snoc, Hq1, Hq2.
    + split; [intros x [= <-]; specialize (Hb1 _ eq_refl); lia|]. intros x [= <-]. lia.
  - destruct Hf as [Hr Hs]. split; cbn [inFlight queued running waiting micro links counter snd].
    + left. by rewrite Hr.
    + done.
    + done.
    + split; [intros x [= <-]; lia|]. intros x Hx. specialize (Hb2 _ Hx). lia.
    + intros q h Hin. destruct (Hl q h Hin). split; [lia|done].
Qed.

Lemma rdone_inv s n : queue_inv s -> queue_inv (rstep s (RDone n)).
Proof.
  intros [Hf Hq Hw Hb Hl]. cbn [rstep]. case_decide as Hd; [|by split].
  destruct (inFlight s) as [p|] eqn:Ef.
  2:{ destruct Hf as [Hr _]. rewrite Hr in Hd. by apply not_elem_of_nil in Hd. }
  destruct Hf as [[Hr Hs]|[Hr _]]; rewrite Hr in Hd; [|by apply not_elem_of_nil in Hd].
  apply list_elem_of_singleton in Hd as ->.
  split; cbn [inFlight queued running waiting micro links counter]; rewrite ?Ef; try done.
  - right. rewrite Hr. cbn. rewrite Nat.eqb_refl. cbn. split; [done|].
    unfold settles in *. cbn [micro]. rewrite settles_app. cbn. rewrite settles_reruns. lia.
  - cbn [app]. unfold pending_reruns in *. cbn [micro]. rewrite pending_reruns_done. rewrite <- Hq.
    destruct (queued s) as [q|]; destruct (waiting s) as [|w ws]; rewrite ?app_nil_r; try done.
    injection Hq as -> Hq. apply app_eq_nil in Hq as [-> ->]. done.
Qed.

(** Before its microtask: the follow-up at the head of the queue is the one
    pending, and dropping it leaves a state in order. *)
Lemma rerun_head s q r :
  queue_inv s -> micro s = RRerun q :: r ->
  queued s = Some q /\ queue_inv (Queue (inFlight s) None (running s) (waiting s) r (links s) (counter s)).
Proof.
  intros [Hf Hq Hw [Hb1 Hb2] Hl] Em. unfold pending_reruns, settles in *. rewrite Em in *. cbn in Hq, Hf.
  destruct (queued s) as [q'|] eqn:Eq.
  2:{ apply app_eq_nil in Hq as [_ Hq]. done. }
  assert (Hnil : waiting s = [] /\ q' = q /\ omap (fun r => match r with RRerun q => Some q | RSettle => None end) r = []).
  { destruct (waiting s) as [|w ws]; [by injection Hq as -> ->|].
    injection Hq as _ Hq. apply app_eq_nil in Hq as [_ Hq]. done. }
  destruct Hnil as (Hw0 & -> & Hr0). split; [done|].
  split; cbn [inFlight queued running waiting micro links counter]; try done.
  - unfold pending_reruns. cbn [micro]. by rewrite Hw0, Hr0.
  - intros q0 h Hin. by destruct (Hl q0 h Hin).
Qed.

Lemma rmicro_inv s : queue_inv s -> queue_inv (rstep s RMicro).
Proof.
  intros H. cbn [rstep]. destruct (micro s) as [|[|q] r] eqn:Em; [done| |].
  - destruct H as [Hf Hq Hw [Hb1 Hb2] Hl]. unfold settles, pending_reruns in *. rewrite Em in *.
    split; cbn [inFlight queued running waiting micro links counter]; try done.
    unfold settles. cbn [micro]. cbn in Hf.
    destruct (inFlight s); [|destruct Hf; lia]. destruct Hf as [[? ?]|[? ?]]; [lia|]. split; [done|lia].
  - destruct (rerun_head s q r H Em) as [Eq H0].
    set (s0 := Queue (inFlight s) None (running s) (waiting s) r (links s) (counter s)) in *.
    pose proof (refresh_inv s0 H0) as H1. pose proof (refresh_handle s0) as Hh. pose proof (refresh_links s0) as Hk.
    destruct (refresh s0) as [h s'] eqn:Er. cbn [fst snd] in *.
    destruct H1 as [Hf1 Hq1 Hw1 Hb1 Hl1]. split; cbn [inFlight queued running waiting micro links counter]; try done.
    intros q1 h1 [[= -> ->]|Hin]%elem_of_cons; [|by apply Hl1].
    pose proof (proj2 (qi_bound _ H) q Eq) as Hlt.
    destruct Hh as [(q' & Hc & _)|[Hid Hc]]; [done|]. cbn [counter s0] in Hid, Hc. split; [lia|].
    intros E. destruct h as [n|q2]; cbn [handle_id] in Hid.
    + unfold refresh, s0 in Er. cbn in Er. destruct (inFlight s); [by case_decide|].
      injection Er as _ <-. cbn in E. congruence.
    + unfold refresh, s0 in Er. cbn in Er. destruct (inFlight s); [|done].
      case_decide; injection Er as _ <-; cbn in E; injection E as E; lia.
Qed.

Lemma rstep_inv s e : queue_inv s -> queue_inv (rstep s e).
Proof. destruct e; [apply refresh_inv|apply rdone_inv|apply rmicro_inv]. Qed.

Lemma rrun_inv s evs : queue_inv s -> queue_inv (rrun s evs).
Proof. revert s. induction evs as [|e evs IH]; intros s H; [exact H|]. apply IH, rstep_inv, H. Qed.

Lemma idle_inv : queue_inv idle.
Proof. split; cbn; try done. intros q h Hin. by apply not_elem_of_nil in Hin. Qed.

#[export] Hint Resolve rstep_inv rrun_inv idle_inv refresh_inv : js.

Lemma refresh_counter s : (counter s <= counter (refresh s).2)%nat.
Proof. destruct (refresh_handle s) as [(q & _ & _ & ->)|[_ ->]]; lia. Qed.

Lemma rerun_links s q r :
  micro s = RRerun q :: r ->
  exists h, links (rstep s RMicro) = (q, h) :: links s /\ handle_id h = counter s /\
    (counter s <= counter (rstep s RMicro))%nat /\
    (h = HQueued (counter s) -> queued (rstep s RMicro) = Some (counter s)).
Proof.
  intros Em. cbn [rstep]. rewrite Em.
  set (s0 := Queue (inFlight s) None (running s) (waiting s) r (links s) (counter s)).
  pose proof (refresh_handle s0) as Hh. pose proof (refresh_links s0) as Hk.
  destruct (refresh s0) as [h s'] eqn:Er. cbn [fst snd] in *.
  destruct Hh as [(q' & Hq & _)|[Hid Hc]]; [done|].
  exists h. cbn [links counter queued]. rewrite Hk. split; [done|]. split; [done|]. split; [cbn in Hc; lia|].
  intros ->. unfold refresh, s0 in Er. cbn in Er.
  destruct (inFlight s); [|done]. by case_decide; injection Er as <-.
Qed.

(** A step keeps the links and adds at most one, to a handle numbered by the
    counter. *)
Lemma rstep_links s e :
  (counter s <= counter (rstep s e))%nat /\
  (forall q h, (q, h) ∈ links s -> (q, h) ∈ links (rstep s e)) /\
  (forall q h, (q, h) ∈ links (rstep s e) -> (q, h) ∈ links s \/ handle_id h = counter s).
Proof.
  destruct e as [|n|].
  - cbn [rstep]. rewrite refresh_links. split; [apply refresh_counter|]. auto.
  - cbn [rstep]. case_decide; cbn; auto.
  - destruct (micro s) as [|[|q] r] eqn:Em.
    + cbn [rstep]. rewrite Em. auto.
    + cbn [rstep]. rewrite Em. cbn. auto.
    + destruct (rerun_links s q r Em) as (h & -> & Hh & Hc & _). split; [done|]. split.
      * intros q0 h0 Hin. by right.
      * intros q0 h0 [[= -> ->]|Hin]%elem_of_cons; auto.
Qed.

(** A follow-up that is not linked yet will only be linked to later work. *)
Lemma rrun_links s evs q c :
  (c <= counter s)%nat -> (forall h, (q, h) ∈ links s -> (c <= handle_id h)%nat) ->
  forall h, (q, h) ∈ links (rrun s evs) -> (c <= handle_id h)%nat.
Proof.
  revert s. induction evs as [|e evs IH]; intros s Hc Hl; [done|].
  destruct (rstep_links s e) as (H1 & _ & H2). apply IH; [lia|].
  intros h [Hin|Hid]%H2; [auto|lia].
Qed.

Lemma resolves_ge s h n : queue_inv s -> resolves s h n -> (handle_id h <= n)%nat.
Proof.
  intros Hi. induction 1 as [n|q h n Hin _ IH]; [done|].
  destruct (qi_links _ Hi _ _ Hin) as [Hlt _]. cbn. lia.
Qed.

(** *** Progress *)

Lemma known_step s e h : queue_inv s -> known s h -> known (rstep s e) h.
Proof.
  intros Hi. destruct h as [n|q]; [done|]. cbn [known].
  destruct (rstep_links s e) as (_ & Hk & _). intros [Hq|[h' Hin]]; [|right; eauto].
  destruct e as [|n|].
  - left. cbn [rstep]. unfold refresh. rewrite Hq. by destruct (inFlight s).
  - left. cbn [rstep]. by case_decide.
  - destruct (micro s) as [|[|q1] r] eqn:Em; [left; cbn [rstep]; by rewrite Em|left; cbn [rstep]; by rewrite Em|].
    destruct (rerun_head s q1 r Hi Em) as [Hq1 _]. rewrite Hq in Hq1. injection Hq1 as <-.
    destruct (rerun_links s q r Em) as (h & E & _). right. exists h. rewrite E. left.
Qed.

Lemma all_known_step s e : queue_inv s -> all_known s -> all_known (rstep s e).
Proof.
  intros Hi Ha q h Hin. destruct e as [|n|].
  - apply known_step; [done|]. apply (Ha q). cbn [rstep] in Hin. by rewrite refresh_links in Hin.
  - apply known_step; [done|]. apply (Ha q). cbn [rstep] in Hin. by case_decide.
  - destruct (micro s) as [|[|q1] r] eqn:Em.
    + apply known_step; [done|]. apply (Ha q). cbn [rstep] in Hin. by rewrite Em in Hin.
    + apply known_step; [done|]. apply (Ha q). cbn [rstep] in Hin. by rewrite Em in Hin.
    + destruct (rerun_links s q1 r Em) as (h1 & E & Hid & _ & Hq). rewrite E in Hin.
      apply elem_of_cons in Hin as [[= -> ->]|Hin]; [|apply known_step; [done|]; eauto].
      destruct h1 as [n|q2]; [done|]. left. cbn in Hid. subst q2. by apply Hq.
Qed.

Lemma all_known_run s evs : queue_inv s -> all_known s -> all_known (rrun s evs).
Proof.
  revert s. induction evs as [|e evs IH]; intros s Hi Ha; [done|].
  apply IH; auto using all_known_step with js.
Qed.

Lemma known_run s evs h : queue_inv s -> known s h -> known (rrun s evs) h.
Proof.
  revert s. induction evs as [|e evs IH]; intros s Hi Hk; [done|]. apply IH; auto using known_step with js.
Qed.

Lemma refresh_known s : known (refresh s).2 (refresh s).1.
Proof.
  unfold refresh. destruct (inFlight s); [|done]. destruct (queued s) eqn:Eq; [by left|].
  by case_decide; left.
Qed.

(** With nothing queued a handle's links lead to a load. *)
Lemma known_resolves s h : queue_inv s -> all_known s -> queued s = None -> known s h -> exists n, resolves s h n.
Proof.
  intros Hi Ha Hq. remember (counter s - handle_id h)%nat as d eqn:Ed. revert h Ed.
  induction (lt_wf d) as [d _ IH]. intros [n|q] -> Hk; [by exists n; constructor|].
  destruct Hk as [Hk|[h' Hin]]; [congruence|].
  destruct (qi_links _ Hi _ _ Hin) as [Hlt _].
  destruct (IH (counter s - handle_id h')%nat) with (h := h') as [n Hn]; [cbn in *; lia|done|by eapply Ha|].
  exists n. by econstructor.
Qed.

(** C3: overlapping refreshes neither pile up nor serve data that predates the
    call.  From a state reached by any interleaving of calls, settling loads and
    microtasks: at most one load runs and at most one follow-up waits; whatever
    happens after a call, the load its promise resolves to began at or after
    that call (its number is not below the counter at the call). *)
Theorem refresh_bounded_and_fresh (before after : list revent) :
  let s := rrun idle before in
  let t := rrun (refresh s).2 after in
  (length (running t) <= 1)%nat /\ (length (waiting t ++ pending_reruns t) <= 1)%nat /\
  forall n, resolves t (refresh s).1 n -> (counter s <= n)%nat.
Proof.
  intros s t. assert (Hs : queue_inv s) by (unfold s; auto with js).
  assert (Ht : queue_inv t) by (unfold t; auto with js).
  split; [|split].
  - pose proof (qi_flight _ Ht) as Hf. destruct (inFlight t); [destruct Hf as [[-> _]|[-> _]]|destruct Hf as [-> _]]; cbn; lia.
  - rewrite (qi_queued _ Ht). destruct (queued t); cbn; lia.
  - intros n Hr. destruct (refresh_handle s) as [(q & Hq & Hh & Hst)|[Hid _]].
    + rewrite Hh in Hr. inversion Hr as [|q' h n' Hin Hres]; subst.
      pose proof (resolves_ge _ _ _ Ht Hres) as Hge.
      assert (counter s <= handle_id h)%nat; [|lia].
      apply (rrun_links (refresh s).2 after q); [apply refresh_counter| |exact Hin].
      intros h0 Hin0. rewrite Hst in Hin0. by destruct (qi_links _ Hs _ _ Hin0).
    + pose proof (resolves_ge _ _ _ Ht Hr). lia.
Qed.

(** C37: no refresh caller is left waiting.  Once no load is running and the
    microtasks are drained, both variables are reset and the promise of every
    call made before has been resolved by a load. *)
Theorem refresh_callers_served (before after : list revent) :
  let s := rrun idle before in
  let t := rrun (refresh s).2 after in
  running t = [] -> micro t = [] ->
  inFlight t = None /\ queued t = None /\ exists n, resolves t (refresh s).1 n.
Proof.
  intros s t Hr Hm. assert (Hs : queue_inv s) by (unfold s; auto with js).
  assert (Ht : queue_inv t) by (unfold t; auto with js).
  assert (Hf : inFlight t = None).
  { pose proof (qi_flight _ Ht) as Hf. unfold settles in Hf. rewrite Hm, Hr in Hf.
    destruct (inFlight t); [|done]. by destruct Hf as [[? _]|[_ ?]]. }
  assert (Hq : queued t = None).
  { pose proof (qi_queued _ Ht) as Hq. unfold pending_reruns in Hq. rewrite Hm, (qi_wait _ Ht Hr) in Hq.
    by destruct (queued t). }
  split; [done|]. split; [done|]. apply known_resolves; [done| |done|].
  - apply all_known_run; [auto with js|]. intros q h Hin. rewrite refresh_links in Hin.
    assert (Ha : all_known s).
    { apply all_known_run; [auto with js|]. intros q0 h0 H0. by apply not_elem_of_nil in H0. }
    apply (known_step s RCall); [done|]. by eapply Ha.
  - apply known_run; [auto with js|]. apply refresh_known.
Qed.

(** Two calls while a load runs share one follow-up, which starts when the load
    has settled. *)
Lemma refresh_callers_served_witness :
  exists n, resolves (rrun (refresh (rrun idle [RCall; RCall])).2 [RDone 0; RMicro; RMicro; RDone 2; RMicro])
    (refresh (rrun idle [RCall; RCall])).1 n.
Proof.
  refine (proj2 (proj2 (refresh_callers_served [RCall; RCall] [RDone 0; RMicro; RMicro; RDone 2; RMicro] _ _)));
    vm_compute; reflexivity.
Defined.

(** ** The effect on the model *)

(** The own properties of [window.SOLARI]. *)
Abbreviation model := (list (string * value)).

Definition set_all (kvs : model) (m : model) : model := assign m kvs.

(** The reads of a refresh succeeded with [live]. *)
Definition refresh_applied (live : model) (attemptedAt now : num) (m : model) : model :=
  let copied := set_all (List.filter (fun kv =>
    negb (String.eqb kv.1 "git") && negb (String.eqb kv.1 "ca") && negb (String.eqb kv.1 "freshness")) live) m in
  let previous := v_or (fld (VObj copied) "freshness") (VObj []) in
  set_all
    [("freshness", VObj (assign (own_props (fld (VObj live) "freshness"))
        [("forgejo", fld previous "forgejo"); ("certificates", fld previous "certificates")]));
     ("lastAttemptAt", VNum attemptedAt); ("source", VStr "live"); ("lastLiveAt", VNum now);
     ("staleReason", VNull)] copied.

(** They failed with an error whose message is [message]. *)
Definition refresh_failed (message : string) (attemptedAt : num) (m : model) : model :=
  let m1 := assoc_set "lastAttemptAt" (VNum attemptedAt) m in
  if strict_eq (fld (VObj m1) "source") (VStr "offline") then m1
  else set_all [("source", VStr "stale");
                ("staleReason", v_or (VStr message) (VStr "refresh failed"))] m1.

(** ** Boot *)

Definition useFixture (reason : value) (fixture : model) : model :=
  let m := set_all [("source", VStr "offline"); ("offlineReason", v_or reason VNull)] fixture in
  if is_undef (fld (VObj m) "operator") then assoc_set "operator" VNull m else m.

(** [lastLiveAt] is read from the clock once; [lastAttemptAt] copies it. *)
Definition applyLive (live : model) (now : num) (target : model) : model :=
  set_all [("source", VStr "live"); ("lastLiveAt", VNum now); ("lastAttemptAt", VNum now);
           ("staleReason", VNull)] (set_all live target).

Definition isAuthErr (e : jserr) : bool :=
  existsb (fun c => strict_eq (err_code e) (VStr c)) ["unauthorized"; "invalid_credentials"; "HTTP_401"].

(** The model after boot and, when it was assigned, [SOLARI_NEEDS_AUTH].  The
    seeded fixture is [window.SOLARI] itself, so the live model is applied onto
    it. *)
Definition boot (hint : string) (outcome : res model) (now : num) (fixture : model) : option bool * model :=
  if String.eqb hint "offline" then (None, useFixture (VStr "forced offline") fixture)
  else match outcome with
       | Ok live => (Some false, applyLive live now fixture)
       | Throw e =>
           if isAuthErr e then (Some true, useFixture (VStr "authentication required") fixture)
           else (None, useFixture (VStr (err_message e)) fixture)
       end.

(** ** Deploy detection *)

(** [/^[A-Za-z0-9._-]{1,128}$/]. *)
Definition release_char (c : ascii) : bool :=
  let n := Ascii.nat_of_ascii c in
  is_digit c || ((65 <=? n)%nat && (n <=? 90)%nat) || ((97 <=? n)%nat && (n <=? 122)%nat)
  || Ascii.eqb c "." || Ascii.eqb c "_" || Ascii.eqb c "-".

Definition valid_release (s : string) : bool :=
  (1 <=? String.length s)%nat && (String.length s <=? 128)%nat && sall release_char s.

(** One check: the page's visibility, the answer to the fetch ([None] when it
    fails, else [r.ok] and the text) and whether the focus is in a field.  The
    release first seen is the one loaded; the flag says to reload. *)
Definition checkRelease (hidden : bool) (answer : option (bool * string)) (typing : bool)
    (loaded : option string) : option string * bool :=
  if hidden then (loaded, false)
  else match answer with
       | None => (loaded, false)
       | Some (ok, text) =>
           let release := trim (if ok then text else "") in
           if negb (valid_release release) then (loaded, false)
           else match loaded with
                | None => (Some release, false)
                | Some r => if String.eqb release r then (loaded, false) else (loaded, negb typing)
                end
       end.

Record check := Check_ { ck_hidden : bool; ck_answer : option (bool * string); ck_typing : bool }.

(** Checks in order until one reloads the page. *)
Fixpoint checks (l : list check) (loaded : option string) : option string * bool :=
  match l with
  | [] => (loaded, false)
  | c :: r =>
      let '(loaded', reload) := checkRelease (ck_hidden c) (ck_answer c) (ck_typing c) loaded in
      if reload then (loaded', true) else checks r loaded'
  end.

(** The release a check sees, if it sees one. *)
Definition seen_release (c : check) : option string :=
  if ck_hidden c then None
  else match ck_answer c with
       | Some (true, text) => if valid_release (trim text) then Some (trim text) else None
       | _ => None
       end.

(** The releases seen, in order. *)
Definition seen_releases (l : list check) : list string := omap seen_release l.

Lemma checkRelease_seen c loaded :
  checkRelease (ck_hidden c) (ck_answer c) (ck_typing c) loaded =
  match seen_release c, loaded with
  | None, _ => (loaded, false)
  | Some x, None => (Some x, false)
  | Some x, Some r => (Some r, negb (String.eqb x r) && negb (ck_typing c))
  end.
Proof.
  unfold checkRelease, seen_release. destruct (ck_hidden c); [done|].
  destruct (ck_answer c) as [[[] text]|]; [|done|done].
  destruct (valid_release (trim text)); cbn [negb]; [|done].
  destruct loaded as [r|]; [|done]. by destruct (String.eqb _ _).
Qed.

(** Once a release is loaded, the page reloads at the first check that sees
    another one while nobody types. *)
Lemma checks_loaded l r :
  (checks l (Some r)).2 = existsb (fun c =>
    negb (ck_typing c) && match seen_release c with Some x => negb (String.eqb x r) | None => false end) l.
Proof.
  induction l as [|c l IH]; [done|]. cbn [checks existsb]. rewrite checkRelease_seen.
  destruct (seen_release c) as [x|]; [|by rewrite andb_false_r].
  rewrite andb_comm. by destruct (_ && _).
Qed.

(** A page reloads for a new release, and only then.  With no baseline the
    first release seen becomes the baseline without a reload; from then on the
    page reloads exactly when some check, on a visible page and with no field
    focused, sees a well-formed release other than the baseline.  A failed
    fetch, an error page or a malformed answer changes nothing. *)
Theorem reload_iff_new_release (l : list check) :
  (checks l None).2 = true <->
  exists l1 c0 l2 base c,
    l = l1 ++ c0 :: l2 /\ Forall (fun x => seen_release x = None) l1 /\ seen_release c0 = Some base /\
    c ∈ l2 /\ ck_typing c = false /\ exists x, seen_release c = Some x /\ x ≠ base.
Proof.
  split.
  - induction l as [|c0 l IH]; [done|]. cbn [checks]. rewrite checkRelease_seen.
    destruct (seen_release c0) as [base|] eqn:E0.
    + rewrite checks_loaded. intros (c & Hin & Hc)%existsb_exists. apply andb_prop in Hc as [Ht Hx].
      destruct (seen_release c) as [x|] eqn:Ec; [|done].
      exists [], c0, l, base, c. repeat (split; [done || constructor|]).
      split; [by apply list_elem_of_In|]. split; [by destruct (ck_typing c)|].
      exists x. split; [done|]. by apply negb_true_iff, String.eqb_neq in Hx.
    + intros (l1 & c1 & l2 & base & c & -> & H1 & H2)%IH.
      exists (c0 :: l1), c1, l2, base, c. split; [done|]. split; [by constructor|done].
  - intros (l1 & c0 & l2 & base & c & -> & H1 & H0 & Hin & Ht & x & Hx & Hne).
    induction H1 as [|y l1 Hy _ IH]; cbn [app checks]; rewrite checkRelease_seen.
    + rewrite H0, checks_loaded. apply existsb_exists. exists c.
      split; [by apply list_elem_of_In|]. rewrite Ht, Hx. by apply String.eqb_neq in Hne as ->.
    + by rewrite Hy.
Qed.

(** ** Freshness of the model and the write gate *)

Lemma assign_other k kvs m : k ∉ map fst kvs -> assoc k (assign m kvs) = assoc k m.
Proof.
  unfold assign. revert m. induction kvs as [|[k' x] r IH]; intros m H; [done|].
  cbn in *. apply not_elem_of_cons in H as [H1 H2]. rewrite IH by done. by apply assoc_set_other.
Qed.

Lemma set_fld_other k x k' m : k' ≠ k -> fld (VObj (assoc_set k x m)) k' = fld (VObj m) k'.
Proof. intros H. unfold fld. by rewrite assoc_set_other. Qed.

Lemma set_fld_same k x m : fld (VObj (assoc_set k x m)) k = x.
Proof. unfold fld. by rewrite assoc_set_same. Qed.

Ltac set_fields := unfold set_all, assign; cbn [fold_left fst snd];
  repeat first [rewrite set_fld_same | rewrite set_fld_other by done].

Lemma copied_other k live m :
  k = "git" \/ k = "ca" \/ k = "freshness" ->
  fld (VObj (set_all (List.filter (fun kv =>
    negb (String.eqb kv.1 "git") && negb (String.eqb kv.1 "ca") && negb (String.eqb kv.1 "freshness")) live) m)) k
  = fld (VObj m) k.
Proof.
  intros Hk. unfold fld, set_all. rewrite assign_other; [done|].
  rewrite list_elem_of_In, in_map_iff. intros ([k' x] & <- & [_ H]%filter_In).
  cbn in *. by destruct Hk as [-> | [-> | ->]].
Qed.

(** The outcome of a refresh opens or closes the write gate and never loses
    data.  After a success the gate is open, the two slow integrations and their
    freshness are as they were, and the attempt is stamped; after a failure the
    gate is closed whatever the model was, a model that was live is marked stale
    with a reason, an offline one stays offline, and every other section keeps
    the last good data. *)
Theorem refresh_outcome_sets_gate (live m : model) (msg : string) (at_ now : num) :
  (let s := VObj (refresh_applied live at_ now m) in
   not_live s = false /\ fld s "git" = fld (VObj m) "git" /\ fld s "ca" = fld (VObj m) "ca" /\
   fld (fld s "freshness") "forgejo" = fld (v_or (fld (VObj m) "freshness") (VObj [])) "forgejo" /\
   fld s "lastAttemptAt" = VNum at_) /\
  (let s := VObj (refresh_failed msg at_ m) in
   not_live s = true /\ fld s "lastAttemptAt" = VNum at_ /\
   (fld s "source" = VStr (if strict_eq (fld (VObj m) "source") (VStr "offline") then "offline" else "stale")) /\
   forall k, k ∉ ["lastAttemptAt"; "source"; "staleReason"] -> fld s k = fld (VObj m) k).
Proof.
  split; cbv zeta.
  - unfold refresh_applied. set (copied := set_all _ m).
    assert (Hg : fld (VObj copied) "git" = fld (VObj m) "git") by (by apply copied_other; auto).
    assert (Hc : fld (VObj copied) "ca" = fld (VObj m) "ca") by (by apply copied_other; auto).
    assert (Hf : fld (VObj copied) "freshness" = fld (VObj m) "freshness") by (by apply copied_other; auto).
    rewrite Hf. clearbody copied. unfold not_live. split; [by set_fields|]. split; [by set_fields|].
    split; [by set_fields|]. split; [|by set_fields]. by set_fields.
  - unfold refresh_failed. rewrite set_fld_other by done.
    destruct (strict_eq (fld (VObj m) "source") (VStr "offline")) eqn:E.
    + assert (Es : fld (VObj m) "source" = VStr "offline").
      { destruct (fld (VObj m) "source"); try done. by apply String.eqb_eq in E as ->. }
      unfold not_live. rewrite set_fld_other, Es, set_fld_same by done.
      repeat (split; [done|]). intros k Hk. apply set_fld_other. intros ->. apply Hk. left.
    + unfold not_live. split; [by set_fields|]. split; [by set_fields|]. split; [by set_fields|].
      intros k Hk. rewrite !not_elem_of_cons in Hk. destruct Hk as (H1 & H2 & H3 & _).
      unfold set_all, assign. cbn [fold_left fst snd]. by rewrite !set_fld_other by done.
Qed.

Lemma refresh_outcome_sets_gate_witness :
  fld (VObj (refresh_failed "" (ofZ 5) [("nodes", VArr []); ("source", VStr "live")])) "nodes" = VArr [].
Proof.
  refine (proj2 (proj2 (proj2 (proj2
    (refresh_outcome_sets_gate [] [("nodes", VArr []); ("source", VStr "live")] "" (ofZ 5) (ofZ 6))))) "nodes" _).
  rewrite !not_elem_of_cons. repeat split; try discriminate. apply not_elem_of_nil.
Defined.

(** Boot always ends with a labelled model, and asks for a login exactly on
    an authentication failure.  Whatever the load does the model is live or
    offline; it is live exactly when the load succeeded and the page was not
    forced offline, the login gate is raised exactly when the load failed with an
    authentication error, and an offline boot keeps every section of the
    fixture. *)
Theorem boot_decides (hint : string) (outcome : res model) (now : num) (fixture : model) :
  let '(needs, m) := boot hint outcome now fixture in
  let forced := String.eqb hint "offline" in
  fld (VObj m) "source" = VStr (if negb forced && is_ok outcome then "live" else "offline") /\
  (needs = Some true <-> forced = false /\ exists e, outcome = Throw e /\ isAuthErr e = true) /\
  (not_live (VObj m) = true -> forall k, k ∉ ["source"; "offlineReason"; "operator"] ->
     fld (VObj m) k = fld (VObj fixture) k).
Proof.
  assert (Hu : forall reason, fld (VObj (useFixture reason fixture)) "source" = VStr "offline" /\
    forall k, k ∉ ["source"; "offlineReason"; "operator"] ->
      fld (VObj (useFixture reason fixture)) k = fld (VObj fixture) k).
  { intros reason. unfold useFixture. cbv zeta. destruct (is_undef _).
    - split; [by set_fields|]. intros k Hk. rewrite !not_elem_of_cons in Hk. destruct Hk as (H1 & H2 & H3 & _).
      unfold set_all, assign. cbn [fold_left fst snd]. by rewrite !set_fld_other by done.
    - split; [by set_fields|]. intros k Hk. rewrite !not_elem_of_cons in Hk. destruct Hk as (H1 & H2 & H3 & _).
      unfold set_all, assign. cbn [fold_left fst snd]. by rewrite !set_fld_other by done. }
  unfold boot. destruct (String.eqb hint "offline") eqn:Eh; cbn [negb andb].
  - destruct (Hu (VStr "forced offline")) as [H1 H2]. repeat split; try done. by intros [? _].
  - destruct outcome as [live|e]; cbn [is_ok].
    + assert (Hs : fld (VObj (applyLive live now fixture)) "source" = VStr "live").
      { unfold applyLive. set (m := set_all live fixture). clearbody m. by set_fields. }
      split; [done|]. split; [split; [done|intros (_ & e & ? & _); done]|].
      unfold not_live. by rewrite Hs.
    + destruct (isAuthErr e) eqn:Ea.
      * destruct (Hu (VStr "authentication required")) as [H1 H2]. repeat split; eauto.
      * destruct (Hu (VStr (err_message e))) as [H1 H2]. repeat split; try done.
        intros (_ & e' & [= ->] & ?). congruence.
Qed.

Lemma boot_decides_witness :
  (boot "auto" (Throw (JsErr (VStr "HTTP_401") "HTTP 401" true)) (ofZ 1) []).1 = Some true.
Proof.
  refine (proj2 (proj1 (proj2 (boot_decides "auto" (Throw (JsErr (VStr "HTTP_401") "HTTP 401" true)) (ofZ 1) []))) _).
  split; [reflexivity|]. eexists. split; reflexivity.
Defined.
