(* ===== verification/BootLoader.v ===== *)
(** * The module loader (boot.js and transform-worker.js)

    The page declares its JSX modules as script elements; the loader fetches
    their sources, takes a compiled copy from the transform cache when there is
    one for exactly this source and pipeline, has the rest compiled by a worker
    (or by Babel on the page when the worker cannot be used), runs every module
    in declared order and stores what it compiled.  Babel, SHA-256 and the
    evaluation of a module are code of others: parameters of the section, with
    what the loader relies on as hypotheses of the theorems that need it. *)

From Stdlib Require Import ZArith Lia Ascii.
From Corelib Require Import SpecFloat.
From stdpp Require Import strings pretty list.
From S2P Require Import Prelude JsNum JsValue ServiceWorker.

Local Open Scope string_scope.
Local Open Scope list_scope.
Local Open Scope js_scope.

(** ** Declared modules *)

(** A script element: its source URL and its two optional attributes. *)
Record node := Node { n_src : url; n_presets : option string; n_plugins : option string }.

Record options := Options { presets : list string; plugins : list string }.

Definition list_attr (raw : option string) (fallback : list string) : list string :=
  let l := match raw with Some (String c r) => split_char "," (String c r) | _ => fallback end in
  List.filter (fun s => negb (String.eqb s "")) (map trim l).

Definition transformOptions (n : node) : options :=
  Options (list_attr (n_presets n) ["react"; "env"])
          (list_attr (n_plugins n) ["transform-class-properties"; "transform-object-rest-spread"; "transform-flow-strip-types"]).

Definition BABEL_REVISION : string := "7.29.0".
Definition TRANSFORM_KEY : string := "__solari_compiled".

(** What is digested: the source with everything that shapes its transform. *)
Definition material (source : string) (o : options) : string :=
  json_str (VObj [("babel", VStr BABEL_REVISION); ("source", VStr source);
                  ("presets", VArr (map VStr (presets o))); ("plugins", VArr (map VStr (plugins o)))]).

(** The cache key: the module's URL without its query, with the digest. *)
Definition requestFor (n : node) (digest : string) : option url :=
  if String.eqb digest "" then None
  else Some (Url (u_origin (n_src n)) (u_path (n_src n)) ("?" +:+ TRANSFORM_KEY +:+ "=v2-" +:+ digest)).

(** [url.searchParams.has(TRANSFORM_KEY)], on the names as they are written. *)
Definition has_transform_key (u : url) : bool :=
  existsb (fun p => String.eqb (hd "" (split_char "=" p)) TRANSFORM_KEY)
    (split_char "&" (match u_search u with String "?" r => r | s => s end)).

(** ** The transform cache *)

Abbreviation ccache := (list (url * string)).

Fixpoint ccache_match (k : url) (c : ccache) : option string :=
  match c with
  | [] => None
  | (u, code) :: r => if decide (u = k) then Some code else ccache_match k r
  end.

Definition ccache_delete (k : url) (c : ccache) : ccache := List.filter (fun e => negb (bool_decide (e.1 = k))) c.

Definition ccache_put (k : url) (code : string) (c : ccache) : ccache := ccache_delete k c ++ [(k, code)].

(** The keys of other transforms of the same path. *)
Definition obsolete (current old : url) : bool :=
  String.eqb (u_origin old) (u_origin current) && String.eqb (u_path old) (u_path current)
  && has_transform_key old && negb (bool_decide (old = current)).

(** Which operations on the cache succeed: the listing of its keys, the deletion of
    an entry and the storing of one; each may fail at any time. *)
Record cache_io := CacheIO { keys_ok : bool; delete_ok : url -> bool; put_ok : url -> bool }.

Section Writes.
Context (io : cache_io).

(** [removeObsolete]: [keys] are those the cache held before the writes.  All
    deletions are started; one that fails leaves its entry, and the failure is
    swallowed. *)
Definition removeObsolete (current : url) (keys : list url) (c : ccache) : ccache :=
  fold_left (fun c k => if obsolete current k && delete_ok io k then ccache_delete k c else c) keys c.

(** [persist]; a failing [put] is logged and changes nothing. *)
Definition persist (key : option url) (code : string) (keys : list url) (c : ccache) : ccache :=
  match key with
  | None => c
  | Some k =>
      let c' := removeObsolete k keys c in
      if put_ok io k then ccache_put k code c' else c'
  end.
End Writes.

(** ** Errors *)

(** An error with its [solariStage]. *)
Definition staged (stage message : string) : jserr := JsErr (VStr stage) message false.

Definition stage_is (s : string) (e : jserr) : bool :=
  match err_code e with VStr x => String.eqb x s | _ => false end.

(** [Object.assign(error, {solariStage})]. *)
Definition restage (s : string) (e : jserr) : jserr := JsErr (VStr s) (err_message e) (err_api e).

(** The text shown when startup fails. *)
Definition showFailure (e : jserr) : string :=
  if stage_is "transform" e then "Dashboard code could not be compiled. Check the latest local app edits, then reload."
  else if stage_is "runtime" e then "Dashboard modules loaded, but no view appeared. Check the browser console, then reload."
  else "Dashboard files could not be loaded. Check the intranet connection, then reload.".

(** ** The worker's protocol, on the page's side *)

(** What reaches [transformInWorker]: a message (its data), an error event, or
    the idle timer. *)
Inductive wevent :=
  | WMessage (data : value)
  | WError (message : string)
  | WTimer.

(** The promise's outcome once settled, whether the timer is armed, and how many
    times the worker was terminated. *)
Record wstate := WState { settled : option (res (list value)); armed : bool; terminated : nat }.

Definition finish (r : res (list value)) (s : wstate) : wstate :=
  match settled s with
  | Some _ => s
  | None => WState (Some r) false (S (terminated s))
  end.

Definition worker_reply (n : nat) (data : value) : res (list value) :=
  let result := v_or data (VObj []) in
  let bad := Throw (staged (match fld result "kind" with VStr "transform" => "transform" | _ => "worker" end)
    (vstr (v_or (fld result "error") (VStr "The JSX transform worker returned an invalid response")))) in
  match fld result "codes" with
  | VArr codes => if truthy (fld result "ok") && (length codes =? n)%nat then Ok codes else bad
  | _ => bad
  end.

Definition is_progress (data : value) : bool :=
  match fld (v_or data (VObj [])) "progress" with VBool true => true | _ => false end.

(** The three handlers, for [n] modules sent. *)
Definition won (n : nat) (s : wstate) (e : wevent) : wstate :=
  match e with
  | WMessage data =>
      if is_progress data then WState (settled s) true (terminated s) else finish (worker_reply n data) s
  | WError m =>
      finish (Throw (staged "worker" (if String.eqb m "" then "The JSX transform worker failed" else m))) s
  | WTimer =>
      if armed s then finish (Throw (staged "worker" "The JSX transform worker stopped reporting progress"))
                        (WState (settled s) false (terminated s))
      else s
  end.

Definition wrun (n : nat) (evs : list wevent) : wstate := fold_left (won n) evs (WState None true 0).

(** ** Loading *)

Definition href (u : url) : string := u_origin u +:+ u_path u +:+ u_search u.

(** A fetched module. *)
Record module := Module_ { m_node : node; m_source : string; m_options : options; m_key : option url }.

Section Loader.
(** [Babel.transform(source, {filename, presets, plugins}).code]; the hex digest
    of a text, empty when WebCrypto is missing or fails; what running a module
    throws, if it does. *)
Context (babel : string -> options -> string -> res string).
Context (sha : string -> string).
Context (evaluate : string -> string -> option jserr).
Context (io : cache_io).

Definition sourceDigest (source : string) (o : options) : string := sha (material source o).

(** [answer] is the status and text, or the error the fetch rejects with. *)
Definition fetchModule (n : node) (answer : res (Z * string)) : res module :=
  match answer with
  | Throw e => Throw (restage "source" e)
  | Ok (status, source) =>
      if (200 <=? status)%Z && (status <=? 299)%Z
      then let o := transformOptions n in
           Ok (Module_ n source o (requestFor n (sourceDigest source o)))
      else Throw (staged "source" ("Could not load " +:+ href (n_src n) +:+ " (HTTP " +:+ pretty status +:+ ")"))
  end.

(** [transformed]: Babel on the page. *)
Definition transformed (m : module) : res string :=
  match babel (m_source m) (m_options m) (href (n_src (m_node m))) with
  | Ok code => Ok code
  | Throw e => Throw (restage "transform" e)
  end.

(** *** The worker (transform-worker.js) *)

Definition error_message (e : jserr) : string :=
  if String.eqb (err_message e) "" then "Error" else err_message e.

Definition worker_failure (kind message : string) : value :=
  VObj [("ok", VBool false); ("kind", VStr kind); ("error", VStr message)].

Definition progress (done total : nat) : value :=
  VObj [("progress", VBool true); ("completed", vz (Z.of_nat done)); ("total", vz (Z.of_nat total))].

(** The messages for [rest], [codes] of [total] being done. *)
Fixpoint worker_loop (total : nat) (codes : list string) (rest : list module) : list value :=
  match rest with
  | [] => [VObj [("ok", VBool true); ("codes", VArr (map VStr codes))]]
  | m :: r =>
      match babel (m_source m) (m_options m) (href (n_src (m_node m))) with
      | Throw e => [worker_failure "transform" (error_message e)]
      | Ok code => progress (S (length codes)) total :: worker_loop total (codes ++ [code]) r
      end
  end.

(** The messages the worker posts for a request; [import] is the failure of
    [importScripts], if it fails, and [None] for a request without modules. *)
Definition worker_messages (import : option jserr) (request : option (list module)) : list value :=
  match request with
  | None => [worker_failure "worker" "The JSX transform worker received an invalid request"]
  | Some ms =>
      match import with
      | Some e => [worker_failure "transform" (error_message e)]
      | None => worker_loop (length ms) [] ms
      end
  end.

(** *** Boot *)

Definition missing (code : option string) : bool :=
  match code with Some (String _ _) => false | _ => true end.

(** The codes of the modules without a cached transform: from the worker, or
    from Babel on the page unless a source itself does not compile.  [worker] is
    the outcome of [transformInWorker], [babel_loads] that of [loadBabel]. *)
Definition missing_codes (worker : list module -> res (list string)) (babel_loads : bool) (ms : list module)
    : res (list string) :=
  match ms with
  | [] => Ok []
  | _ =>
      match worker ms with
      | Ok codes => Ok codes
      | Throw e =>
          if stage_is "transform" e then Throw e
          else if babel_loads then map_res transformed ms
          else Throw (JsErr VUndef "Could not load the local Babel fallback" false)
      end
  end.

(** What a boot leaves: modules run (code and URL, in order) and the cache. *)
Record effects := Effects { ran : list (string * string); stored : option ccache }.

(** The loop over the modules: run each, store what was compiled. *)
Fixpoint run_modules (ms : list module) (cached : list (option string)) (codes : list string)
    (keys : list url) (fx : effects) : effects * res unit :=
  match ms, cached with
  | m :: ms', c :: cached' =>
      let '(code, codes') :=
        if missing c then (hd "" codes, tl codes) else (default "" c, codes) in
      match evaluate code (href (n_src (m_node m))) with
      | Some e => (fx, Throw (restage "runtime" e))
      | None =>
          let write := match c with Some x => negb (String.eqb x code) | None => true end in
          let st := if write then option_map (persist io (m_key m) code keys) (stored fx) else stored fx in
          run_modules ms' cached' codes' keys (Effects (ran fx ++ [(code, href (n_src (m_node m)))]) st)
      end
  | _, _ => (fx, Ok tt)
  end.

(** The text cached for a module, [readable] telling which reads succeed. *)
Definition cached_code (readable : url -> bool) (cache : option ccache) (m : module) : option string :=
  match cache, m_key m with
  | Some c, Some k => if readable k then ccache_match k c else None
  | _, _ => None
  end.

Definition boot (nodes : list node) (answers : list (res (Z * string))) (cache : option ccache)
    (readable : url -> bool) (worker : list module -> res (list string)) (babel_loads : bool)
    : effects * res unit :=
  let fx := Effects [] cache in
  match nodes with
  | [] => (fx, Throw (JsErr VUndef "No dashboard JSX modules were declared" false))
  | _ =>
      match map_res (fun na => fetchModule na.1 na.2) (combine nodes answers) with
      | Throw e => (fx, Throw e)
      | Ok ms =>
          let cached := map (cached_code readable cache) ms in
          let todo := map fst (List.filter (fun mc => missing mc.2) (combine ms cached)) in
          match missing_codes worker babel_loads todo with
          | Throw e => (fx, Throw e)
          | Ok codes =>
              let keys := match todo, cache with _ :: _, Some c => if keys_ok io then map fst c else [] | _, _ => [] end in
              run_modules ms cached codes keys fx
          end
      end
  end.
End Loader.

(** ** The digest input is unambiguous *)

Lemma material_inj s o s' o' : material s o = material s' o' -> s = s' /\ o = o'.
Proof.
  unfold material. cbn [json_str flat_map is_undef app snd fst]. intros E.
  cbn [String.concat] in E. rewrite !string_app_assoc in E.
  repeat apply string_app_cancel in E. apply json_quote_inj in E as [-> E].
  do 3 apply string_app_cancel in E. apply json_strs_inj in E as [H1 E].
  do 3 apply string_app_cancel in E.
  apply json_strs_inj in E as [H2 _]. destruct o, o'. cbn in *. by subst.
Qed.

(** ** Lemmas on the cache *)

Lemma ccache_match_in k c code : ccache_match k c = Some code -> (k, code) ∈ c.
Proof.
  induction c as [|[u x] c IH]; cbn; [done|]. case_decide as E; [intros [= ->]; subst; left|].
  intros H. right. auto.
Qed.

Lemma in_delete e k c : e ∈ ccache_delete k c <-> e ∈ c /\ e.1 ≠ k.
Proof.
  unfold ccache_delete. rewrite !list_elem_of_In, filter_In.
  rewrite negb_true_iff, bool_decide_eq_false. done.
Qed.

Lemma in_removeObsolete io e k keys c :
  e ∈ removeObsolete io k keys c <-> e ∈ c /\ ~ (e.1 ∈ keys /\ obsolete k e.1 && delete_ok io e.1 = true).
Proof.
  unfold removeObsolete. revert c. induction keys as [|x keys IH]; intros c; cbn [fold_left].
  - split; [intros H; split; [done|intros [Hx _]; by apply not_elem_of_nil in Hx]|by intros [H _]].
  - rewrite IH, elem_of_cons. destruct (obsolete k x && delete_ok io x) eqn:Ex.
    + rewrite in_delete. split; [intros [[H1 H2] H3]; split; [done|]|intros [H1 H2]].
      * intros [[E|H4] H5]; [congruence|]. by apply H3.
      * split; [split; [done|]|].
        -- intros <-. apply H2. split; [by left|done].
        -- intros [H4 H5]. apply H2. split; [by right|done].
    + split; [intros [H1 H2]; split; [done|]|intros [H1 H2]; split; [done|]].
      * intros [[E | H4] H5]; [congruence|]. by apply H2.
      * intros [H4 H5]. apply H2. split; [by right|done].
Qed.

(** What a write may leave: the new entry and entries there were. *)
Lemma in_persist io e k code keys c :
  e ∈ persist io (Some k) code keys c -> e = (k, code) \/ e ∈ removeObsolete io k keys c.
Proof.
  unfold persist, ccache_put. destruct (put_ok io k); [|by right].
  rewrite elem_of_app, in_delete, list_elem_of_singleton. naive_solver.
Qed.

Lemma in_persist_old io e k code keys c : e ∈ persist io (Some k) code keys c -> e = (k, code) \/ e ∈ c.
Proof. intros [->|[H _]%in_removeObsolete]%in_persist; auto. Qed.

Lemma NoDup_map_delete {B} (f : url * string -> B) k c : NoDup (map f c) -> NoDup (map f (ccache_delete k c)).
Proof.
  unfold ccache_delete. induction c as [|e c IH]; [done|]. cbn. rewrite NoDup_cons. intros [H1 H2].
  destruct (negb _); [|auto]. cbn. rewrite NoDup_cons. split; [|auto].
  intros Hin. apply H1. rewrite list_elem_of_In, in_map_iff in Hin |- *.
  destruct Hin as (x & E & [Hx _]%filter_In). eauto.
Qed.

Lemma NoDup_map_remove {B} io (f : url * string -> B) k keys c :
  NoDup (map f c) -> NoDup (map f (removeObsolete io k keys c)).
Proof.
  unfold removeObsolete. revert c. induction keys as [|x keys IH]; intros c H; [done|]. cbn [fold_left].
  apply IH. destruct (obsolete k x && _); [by apply NoDup_map_delete|done].
Qed.

(** One compiled copy per path, all under transform keys. *)
Record single (c : ccache) : Prop := {
  si_nodup : NoDup (map (fun e => path_key e.1) c);
  si_keyed : forall e, e ∈ c -> has_transform_key e.1 = true;
}.

Lemma split_char_cons sep s : exists h t, split_char sep s = h :: t.
Proof.
  induction s as [|c r IH]; [by exists "", []|]. cbn. destruct IH as (h & t & ->). destruct (Ascii.eqb c sep); eauto.
Qed.

Lemma requestFor_keyed n d k : requestFor n d = Some k -> has_transform_key k = true /\ path_key k = path_key (n_src n).
Proof.
  unfold requestFor. destruct (String.eqb d ""); [done|]. intros [= <-]. split; [|done].
  unfold has_transform_key. cbn [u_search].
  change ("?" +:+ TRANSFORM_KEY +:+ "=v2-" +:+ d)%string with (String "?" (TRANSFORM_KEY +:+ "=v2-" +:+ d)).
  cbn match.
  assert (H : exists h t, split_char "&" (TRANSFORM_KEY +:+ "=v2-" +:+ d) = (TRANSFORM_KEY +:+ "=v2-" +:+ h) :: t).
  { destruct (split_char_cons "&" d) as (h & t & E). exists h, t.
    change (TRANSFORM_KEY +:+ "=v2-" +:+ d)%string with ("__solari_compiled=v2-" +:+ d)%string.
    change (TRANSFORM_KEY +:+ "=v2-" +:+ h)%string with ("__solari_compiled=v2-" +:+ h)%string.
    cbv -[split_char]. cbn [split_char]. rewrite E. reflexivity. }
  destruct H as (h & t & ->). cbn [existsb].
  assert (H2 : exists x u, split_char "=" (TRANSFORM_KEY +:+ "=v2-" +:+ h) = TRANSFORM_KEY :: x :: u).
  { destruct (split_char_cons "=" h) as (x & u & E). exists ("v2-" +:+ x), u.
    change (TRANSFORM_KEY +:+ "=v2-" +:+ h)%string with ("__solari_compiled=v2-" +:+ h)%string.
    cbv -[split_char]. cbn [split_char]. rewrite E. reflexivity. }
  destruct H2 as (x & u & ->). reflexivity.
Qed.

Lemma obsolete_same k u :
  path_key u = path_key k -> has_transform_key u = true -> u ≠ k -> obsolete k u = true.
Proof.
  unfold path_key, obsolete. intros [= -> ->] -> H. rewrite !String.eqb_refl. cbn.
  by rewrite bool_decide_eq_false_2.
Qed.

Lemma persist_single io k code keys c :
  single c -> has_transform_key k = true -> (forall u, delete_ok io u = true) ->
  (forall e, e ∈ c -> path_key e.1 = path_key k -> e.1 ∈ keys) ->
  single (persist io (Some k) code keys c).
Proof.
  intros [H1 H2] Hk Hdel Hkeys. split.
  - unfold persist, ccache_put. destruct (put_ok io k); [|by apply NoDup_map_remove].
    rewrite map_app. apply NoDup_app. split; [|split; [|apply NoDup_singleton]].
    + by apply NoDup_map_delete, NoDup_map_remove.
    + intros p Hp. cbn. rewrite list_elem_of_singleton. intros ->.
      rewrite list_elem_of_In, in_map_iff in Hp. destruct Hp as (e & Ep & He%list_elem_of_In).
      apply in_delete in He as [He Hne]. apply in_removeObsolete in He as [He Hno].
      apply Hno. split; [by apply Hkeys|]. rewrite Hdel, andb_true_r. by apply obsolete_same; auto.
  - intros e [-> |He]%in_persist_old; auto.
Qed.

Section LoaderProofs.
Context (babel : string -> options -> string -> res string) (sha : string -> string).
Context (evaluate : string -> string -> option jserr) (io : cache_io).
(** The texts ever digested: SHA-256 does not collide on them.  Without source maps
    the code of a module that compiles does not depend on the query of its file name
    (the message of one that does not may). *)
Context (digested : string -> Prop).
Context (Hsha : forall a b, digested a -> digested b -> sha a = sha b -> sha a ≠ "" -> a = b).
Context (Hfile : forall s o u u' code, path_key u = path_key u' -> babel s o (href u) = Ok code -> babel s o (href u') = Ok code).

(** Every entry is what Babel makes of the sources its key stands for. *)
Definition sound (c : ccache) : Prop :=
  forall k code n s, (k, code) ∈ c -> digested (material s (transformOptions n)) ->
    requestFor n (sourceDigest sha s (transformOptions n)) = Some k ->
    babel s (transformOptions n) (href (n_src n)) = Ok code.

(** A module as [fetchModule] makes it. *)
Definition fetched (m : module) : Prop :=
  digested (material (m_source m) (m_options m)) /\
  m_options m = transformOptions (m_node m) /\
  m_key m = requestFor (m_node m) (sourceDigest sha (m_source m) (m_options m)).

Abbreviation compile := (transformed babel).

Lemma transformed_babel m code : compile m = Ok code <-> babel (m_source m) (m_options m) (href (n_src (m_node m))) = Ok code.
Proof. unfold transformed. by destruct (babel _ _ _). Qed.

Lemma persist_sound m k code keys c :
  fetched m -> m_key m = Some k -> compile m = Ok code -> sound c -> sound (persist io (Some k) code keys c).
Proof.
  intros (Hdig & Ho & Hk) Ek Hc Hs k' code' n s [[= -> ->] |Hin]%in_persist_old Hd Hreq; [|by eapply Hs].
  apply transformed_babel in Hc. rewrite Ek in Hk.
  destruct (requestFor_keyed _ _ _ (eq_sym Hk)) as [_ Hp1]. destruct (requestFor_keyed _ _ _ Hreq) as [_ Hp2].
  assert (Heq : sourceDigest sha s (transformOptions n) = sourceDigest sha (m_source m) (m_options m)).
  { unfold requestFor in *. destruct (String.eqb _ "") ; [done|]. destruct (String.eqb _ ""); [done|].
    injection Hk as -> . injection Hreq as _ _ E.
    exact E. }
  assert (Hne : sourceDigest sha s (transformOptions n) ≠ "").
  { unfold requestFor in Hreq. destruct (String.eqb_spec (sourceDigest sha s (transformOptions n)) ""); done. }
  apply Hsha in Heq; [|done..]. apply material_inj in Heq as [-> ->]. eapply Hfile; [|exact Hc]. congruence.
Qed.

(** The modules whose code is not cached. *)
Definition todo (ms : list module) (cached : list (option string)) : list module :=
  map fst (List.filter (fun mc => missing mc.2) (combine ms cached)).

(** A cached code that will be used is the module's code. *)
Definition usable (m : module) (c : option string) : Prop := missing c = false -> compile m = Ok (default "" c).

Lemma run_modules_ran ms cached codes keys fx :
  Forall2 usable ms cached -> map_res compile (todo ms cached) = Ok codes ->
  let '(fx', r) := run_modules evaluate io ms cached codes keys fx in
  r = Ok tt -> exists all, map_res compile ms = Ok all /\
    ran fx' = ran fx ++ combine all (map (fun m => href (n_src (m_node m))) ms).
Proof.
  intros Hu. revert codes fx. induction Hu as [|m c ms cached Hmc Hu IH]; intros codes fx Hc; cbn [run_modules].
  { intros _. exists []. split; [done|]. cbn. by rewrite app_nil_r. }
  unfold todo in Hc. cbn [combine List.filter snd] in Hc.
  assert (Hstep : exists code codes',
    (if missing c then (hd "" codes, tl codes) else (default "" c, codes)) = (code, codes') /\
    compile m = Ok code /\ map_res compile (todo ms cached) = Ok codes').
  { destruct (missing c) eqn:Em.
    - cbn [map fst map_res] in Hc. destruct (compile m) as [x|] eqn:Ex; [|done].
      unfold todo. destruct (map_res compile (map fst _)) as [xs|]; [|done].
      injection Hc as <-. exists x, xs. done.
    - exists (default "" c), codes. split; [done|]. split; [by apply Hmc|done]. }
  destruct Hstep as (code & codes' & -> & Hm & Hrest). destruct (evaluate code _); [done|].
  match goal with |- context [run_modules _ _ ms cached codes' keys ?f] => specialize (IH codes' f Hrest) end.
  destruct (run_modules _ _ ms cached codes' keys _) as [fx' r]. intros Hr.
  destruct (IH Hr) as (all & Hall & Hran). exists (code :: all). split; [by cbn; rewrite Hm, Hall|].
  rewrite Hran. cbn. by rewrite <- app_assoc.
Qed.

(** The listing of the keys and every deletion succeed. *)
Definition clean : Prop := keys_ok io = true /\ forall u, delete_ok io u = true.

(** The cache along the loop. *)
Lemma run_modules_stored (A : Prop) ms cached codes keys fx c0 :
  Forall2 usable ms cached -> Forall fetched ms -> map_res compile (todo ms cached) = Ok codes ->
  NoDup (map (fun m => path_key (n_src (m_node m))) ms) ->
  stored fx = Some c0 -> sound c0 -> (clean /\ A -> single c0) ->
  (clean /\ A -> todo ms cached ≠ [] ->
     forall e, e ∈ c0 -> path_key e.1 ∈ map (fun m => path_key (n_src (m_node m))) ms -> e.1 ∈ keys) ->
  exists c1, stored (run_modules evaluate io ms cached codes keys fx).1 = Some c1 /\ sound c1 /\ (clean /\ A -> single c1).
Proof.
  intros Hu. revert codes fx c0. induction Hu as [|m c ms cached Hmc Hu IH]; intros codes fx c0 Hf Hc Hnd Hst Hso Hsi Hk.
  { cbn. eauto. }
  cbn [run_modules]. apply Forall_cons in Hf as [Hfm Hf]. cbn [map] in Hnd. apply NoDup_cons in Hnd as [Hnot Hnd].
  unfold todo in Hc, Hk. cbn [combine List.filter snd] in Hc, Hk.
  destruct (missing c) eqn:Em; cbn [map fst] in Hc, Hk.
  - cbn [map_res] in Hc. destruct (compile m) as [code|] eqn:Ex; [|done].
    fold (todo ms cached) in Hc. destruct (map_res compile (todo ms cached)) as [codes'|] eqn:Er; [|done].
    injection Hc as <-. cbn [hd tl]. destruct (evaluate code _); [cbn; eauto|].
    assert (Hnext : exists c', (if match c with Some x => negb (String.eqb x code) | None => true end
        then option_map (persist io (m_key m) code keys) (stored fx) else stored fx) = Some c' /\
        sound c' /\ (clean /\ A -> single c') /\
        (forall e, e ∈ c' -> e ∈ c0 \/ path_key e.1 = path_key (n_src (m_node m)))).
    { destruct (match c with Some x => negb (String.eqb x code) | None => true end); [|exists c0; auto].
      rewrite Hst. cbn [option_map]. destruct (m_key m) as [k|] eqn:Ek; [|exists c0; auto].
      destruct (requestFor_keyed _ _ _ (eq_trans (eq_sym (proj2 (proj2 Hfm))) Ek)) as [Hkk Hkp].
      exists (persist io (Some k) code keys c0). split; [done|]. split; [by eapply persist_sound|]. split.
      - intros Hcl. apply persist_single; [by auto|done|apply Hcl|]. intros e He Hp. apply Hk; [done|done|done|]. rewrite Hp, Hkp. left.
      - intros e [-> |He]%in_persist_old; [right; by rewrite <- Hkp|by left]. }
    destruct Hnext as (c' & Hc' & Hso' & Hsi' & Hsub).
    eapply IH; [done|reflexivity|done|cbn; exact Hc'|done|done|].
    intros Hcl _ e He Hp. destruct (Hsub e He) as [He0|Hpe]; [|exfalso; apply Hnot; by rewrite <- Hpe].
    apply Hk; [done|done|done|]. by right.
  - destruct (evaluate (default "" c) _); [cbn; eauto|].
    replace (match c with Some x => negb (String.eqb x (default "" c)) | None => true end) with false
      by (destruct c as [x|]; [cbn; by rewrite String.eqb_refl|done]).
    eapply IH; [done|exact Hc|done|cbn; exact Hst|done|done|].
    intros Hcl Ht e He Hp. apply Hk; [done|done|done|]. by right.
Qed.
Lemma run_modules_none ms cached codes keys fx :
  stored fx = None -> stored (run_modules evaluate io ms cached codes keys fx).1 = None.
Proof.
  revert cached codes fx. induction ms as [|m ms IH]; intros [|c cached] codes fx H; cbn [run_modules]; try done.
  destruct (if missing c then _ else _) as [code codes']. destruct (evaluate code _); [done|].
  apply IH. cbn. rewrite H. by destruct (match c with Some _ => _ | None => _ end).
Qed.

(** The text digested for a fetched source is one of those known. *)
Definition known (n : node) (a : res (Z * string)) : Prop :=
  match a with Ok (_, source) => digested (material source (transformOptions n)) | Throw _ => True end.

Lemma fetchModule_ok n a m : known n a -> fetchModule sha n a = Ok m -> m_node m = n /\ fetched m.
Proof.
  unfold fetchModule. destruct a as [[st src]|]; [|done]. intros Hd. destruct (_ && _); [|done]. by intros [= <-].
Qed.

Lemma fetch_all nodes answers ms :
  Forall2 known nodes answers ->
  map_res (fun na => fetchModule sha na.1 na.2) (combine nodes answers) = Ok ms ->
  map m_node ms = nodes /\ Forall fetched ms.
Proof.
  intros Hn. revert ms. induction Hn as [|n a nodes answers Ha Hn IH]; intros ms.
  { cbn. intros [= <-]. split; [done|constructor]. }
  cbn [combine map_res fst snd]. destruct (fetchModule sha n a) as [m|] eqn:Em; [|done]. cbn [bind].
  destruct (map_res _ (combine nodes answers)) as [rest|] eqn:Er; [|done]. cbn [bind]. intros [= <-].
  apply fetchModule_ok in Em as [E Hf]; [|done]. destruct (IH _ eq_refl) as [E2 Hr].
  cbn [map]. rewrite E, E2. split; [done|by constructor].
Qed.

Lemma cached_usable readable c m :
  sound c -> fetched m -> usable m (cached_code readable (Some c) m).
Proof.
  intros Hs (Hd & Ho & Hk) Hmiss. unfold cached_code in *. destruct (m_key m) as [k|] eqn:Ek; [|done].
  destruct (readable k); [|done]. destruct (ccache_match k c) as [code|] eqn:Em; [|done]. cbn.
  apply transformed_babel. rewrite Ho. eapply Hs; [by apply ccache_match_in| |]; by rewrite <- Ho.
Qed.

Lemma cached_all_usable readable cache ms :
  (forall c, cache = Some c -> sound c) -> Forall fetched ms ->
  Forall2 usable ms (map (cached_code readable cache) ms).
Proof.
  intros Hc. induction 1 as [|m ms Hm _ IH]; cbn; constructor; [|done].
  destruct cache as [c|]; [by apply cached_usable; auto|]. intros H. done.
Qed.

Lemma missing_codes_ok worker loads ms codes :
  (forall ms codes, worker ms = Ok codes -> map_res compile ms = Ok codes) ->
  missing_codes babel worker loads ms = Ok codes -> map_res compile ms = Ok codes.
Proof.
  intros Hw. unfold missing_codes. destruct ms as [|m ms]; [done|]. destruct (worker (m :: ms)) as [x|e] eqn:E.
  - intros [= <-]. auto.
  - destruct (stage_is "transform" e); [done|]. by destruct loads.
Qed.

(** A boot's loop on a cache: its entries stay true, and single when nothing fails. *)
Lemma kept_entries ms cached codes keys c :
  Forall2 usable ms cached -> Forall fetched ms -> map_res compile (todo ms cached) = Ok codes ->
  NoDup (map (fun m => path_key (n_src (m_node m))) ms) -> sound c ->
  (keys_ok io = true -> todo ms cached ≠ [] -> forall e, e ∈ c -> e.1 ∈ keys) ->
  exists c1, stored (run_modules evaluate io ms cached codes keys (Effects [] (Some c))).1 = Some c1 /\ sound c1 /\
    (keys_ok io = true -> (forall u, delete_ok io u = true) -> single c -> single c1).
Proof.
  intros Hu Hf Hc Hn Hs Hk.
  destruct (run_modules_stored (single c) ms cached codes keys (Effects [] (Some c)) c) as (c1 & E & H1 & H2); try done.
  - by intros [_ ?].
  - intros [[Hok _] _] Ht e He _. by apply Hk.
  - exists c1. split; [done|]. split; [done|]. intros Hok Hd Hsi. by apply H2.
Qed.

(** C5: the loader runs exactly the declared modules' current code, in declared
    order, and keeps the transform cache truthful.  When boot succeeds the
    modules that ran are the sources as fetched, each compiled by Babel with its
    own options, in the order of the page - the same as without any cache -
    whichever of them came from the cache, the worker or the page.  Whether it
    succeeds or fails half way, and whichever reads, listings, deletions and writes
    of the cache fail, every cached entry is still Babel's output for the source its
    key stands for; and when the keys are listed and the deletions succeed there is
    still at most one entry per module path.  Relied on: no two of the texts digested
    have the same SHA-256, and the code Babel gives for a source that compiles does
    not depend on the query of the module's URL. *)
Theorem boot_runs_current_code
    (nodes : list node) (answers : list (res (Z * string))) (cache : option ccache)
    (readable : url -> bool) (worker : list module -> res (list string)) (babel_loads : bool) :
  (forall ms codes, worker ms = Ok codes -> map_res (transformed babel) ms = Ok codes) ->
  Forall2 known nodes answers ->
  NoDup (map (fun n => path_key (n_src n)) nodes) ->
  (forall c, cache = Some c -> sound c) ->
  let '(fx, r) := boot babel sha evaluate io nodes answers cache readable worker babel_loads in
  (r = Ok tt ->
    exists ms codes, map_res (fun na => fetchModule sha na.1 na.2) (combine nodes answers) = Ok ms /\
      map m_node ms = nodes /\ map_res (transformed babel) ms = Ok codes /\
      ran fx = combine codes (map (fun n => href (n_src n)) nodes)) /\
  (forall c', stored fx = Some c' ->
    sound c' /\ (keys_ok io = true -> (forall u, delete_ok io u = true) -> (forall c, cache = Some c -> single c) -> single c')).
Proof.
  intros Hw Hl Hnd Hcache. unfold boot.
  assert (Hkeep : forall c', cache = Some c' -> sound c' /\
    (keys_ok io = true -> (forall u, delete_ok io u = true) -> (forall c, cache = Some c -> single c) -> single c')) by auto.
  destruct nodes as [|n0 nodes0]; [split; [done|exact Hkeep]|].
  set (nodes := n0 :: nodes0) in *. clearbody nodes.
  destruct (map_res _ (combine nodes answers)) as [ms|e] eqn:Ems; [|split; [done|exact Hkeep]].
  destruct (fetch_all _ _ _ Hl Ems) as [Hms Hf].
  assert (Hpaths : map (fun m => path_key (n_src (m_node m))) ms = map (fun n => path_key (n_src n)) nodes)
    by (rewrite <- Hms, map_map; done).
  assert (Hurls : map (fun m => href (n_src (m_node m))) ms = map (fun n => href (n_src n)) nodes)
    by (rewrite <- Hms, map_map; done).
  set (cached := map (cached_code readable cache) ms).
  assert (Hu : Forall2 usable ms cached) by (by apply cached_all_usable).
  change (map fst (List.filter (fun mc => missing mc.2) (combine ms cached))) with (todo ms cached).
  destruct (missing_codes babel worker babel_loads (todo ms cached)) as [codes|e] eqn:Ec; [|split; [done|exact Hkeep]].
  apply missing_codes_ok in Ec; [|done].
  set (keys := match todo ms cached, cache with _ :: _, Some c => if keys_ok io then map fst c else [] | _, _ => [] end).
  pose proof (run_modules_ran ms cached codes keys (Effects [] cache) Hu Ec) as Hran.
  assert (Hst : forall c', stored (run_modules evaluate io ms cached codes keys (Effects [] cache)).1 = Some c' ->
    sound c' /\ (keys_ok io = true -> (forall u, delete_ok io u = true) -> (forall c, cache = Some c -> single c) -> single c')).
  { destruct cache as [c|]; [|intros c' Hc'; by rewrite run_modules_none in Hc'].
    destruct (kept_entries ms cached codes keys c) as (c1 & E & H1 & H2); try done; [by rewrite Hpaths|by apply Hcache| |].
    - intros Hk Ht e He. unfold keys. destruct (todo ms cached); [done|]. rewrite Hk. apply list_elem_of_In, in_map, list_elem_of_In, He.
    - intros c' Hc'. rewrite E in Hc'. injection Hc' as <-. split; [done|]. intros Hk Hd Hs. apply H2; [done..|by apply Hs]. }
  destruct (run_modules evaluate io ms cached codes keys (Effects [] cache)) as [fx r]. split; [|exact Hst].
  intros Hr. destruct (Hran Hr) as (all & Hall & E). exists ms, all. by rewrite E, Hurls.
Qed.
End LoaderProofs.

(** ** The worker's answer *)

Definition messages_of (evs : list wevent) : list value :=
  omap (fun e => match e with WMessage v => Some v | _ => None end) evs.

(** A settled promise stays as it is. *)
Lemma won_settled n s e r : settled s = Some r -> settled (won n s e) = Some r /\ terminated (won n s e) = terminated s.
Proof.
  intros H. destruct e as [data|m|]; cbn [won]; unfold finish.
  - destruct (is_progress data); cbn; [done|]. by rewrite H.
  - by rewrite H.
  - destruct (armed s); [|done]. cbn [settled]. by rewrite H.
Qed.

Lemma wfold_settled n evs s r :
  settled s = Some r -> settled (fold_left (won n) evs s) = Some r /\ terminated (fold_left (won n) evs s) = terminated s.
Proof.
  revert s. induction evs as [|e evs IH]; intros s H; [done|]. cbn [fold_left].
  destruct (won_settled n s e r H) as [H1 H2]. destruct (IH _ H1) as [H3 H4]. split; [done|]. by rewrite H4.
Qed.

Lemma wfold_done n evs r a t : settled (fold_left (won n) evs (WState (Some r) a t)) = Some r.
Proof. by destruct (wfold_settled n evs (WState (Some r) a t) r eq_refl). Qed.

Lemma worker_reply_codes n codes :
  worker_reply n (VObj [("ok", VBool true); ("codes", VArr (map VStr codes))])
  = if (length codes =? n)%nat then Ok (map VStr codes) else Throw (staged "worker" "The JSX transform worker returned an invalid response").
Proof. unfold worker_reply. cbn. by rewrite length_map. Qed.

Section WorkerProofs.
Context (babel : string -> options -> string -> res string).

(** A success the page accepts, from a state that is not settled. *)
Lemma worker_loop_accepted n evs s total codes rest vs :
  settled s = None -> n = (length codes + length rest)%nat ->
  messages_of evs `prefix_of` worker_loop babel total codes rest ->
  settled (fold_left (won n) evs s) = Some (Ok vs) ->
  exists more, map_res (transformed babel) rest = Ok more /\ vs = map VStr (codes ++ more).
Proof.
  intros Hs Hn. revert s codes rest Hs Hn. induction evs as [|e evs IH]; intros s codes rest Hs Hn Hp; [cbn [fold_left]; by rewrite Hs|].
  cbn [fold_left]. destruct e as [data|m|].
  - destruct rest as [|x rest]; cbn [worker_loop] in Hp.
    + apply prefix_cons_inv_1 in Hp as Hd. subst data. cbn [won].
      change (is_progress _) with false. unfold finish. rewrite Hs, worker_reply_codes.
      cbn [length] in Hn. rewrite Nat.add_0_r in Hn. subst n. rewrite Nat.eqb_refl.
      rewrite wfold_done. intros [= <-].
      exists []. split; [done|]. by rewrite app_nil_r.
    + destruct (babel (m_source x) (m_options x) (href (n_src (m_node x)))) as [code|err] eqn:Eb.
      * apply prefix_cons_inv_1 in Hp as Hd. apply prefix_cons_inv_2 in Hp. subst data.
        intros H. apply (IH _ (codes ++ [code]) rest) in H as (more & Hm & ->);
          [|done|rewrite length_app; cbn in *; lia|exact Hp].
        exists (code :: more). cbn [map_res]. unfold transformed at 1. rewrite Eb. cbn [bind].
        rewrite Hm. split; [done|]. by rewrite <- app_assoc.
      * apply prefix_cons_inv_1 in Hp as Hd. subst data. cbn [won]. change (is_progress _) with false.
        unfold finish. rewrite Hs. rewrite wfold_done. done.
  - cbn [won]. unfold finish. rewrite Hs. rewrite wfold_done. done.
  - cbn [won]. destruct (armed s).
    + unfold finish. cbn [settled]. rewrite Hs. by rewrite wfold_done.
    + by apply IH.
Qed.

Lemma worker_loop_runs n total codes rest s :
  settled s = None -> n = (length codes + length rest)%nat ->
  settled (fold_left (won n) (map WMessage (worker_loop babel total codes rest)) s) =
  Some (match map_res (transformed babel) rest with
        | Ok more => Ok (map VStr (codes ++ more))
        | Throw e => Throw (staged "transform" (error_message e))
        end).
Proof.
  revert codes s. induction rest as [|x rest IH]; intros codes s Hs Hn; cbn [worker_loop map map_res fold_left].
  - cbn [won]. change (is_progress _) with false. unfold finish. rewrite Hs, worker_reply_codes.
    cbn [length] in Hn. rewrite Nat.add_0_r in Hn. subst n. rewrite Nat.eqb_refl. cbn. by rewrite app_nil_r.
  - unfold transformed at 1. destruct (babel (m_source x) (m_options x) (href (n_src (m_node x)))) as [code|err].
    + cbn [map fold_left bind]. rewrite IH; [|done|rewrite length_app; cbn in *; lia].
      destruct (map_res (transformed babel) rest); cbn [bind]; [|done]. by rewrite <- app_assoc.
    + cbn [map fold_left won bind]. change (is_progress _) with false. unfold finish. rewrite Hs. cbn [settled].
      f_equal. unfold worker_reply, worker_failure, error_message, restage. cbn.
      by destruct (err_message err).
Qed.

(** The worker answers what the page itself would compile, and the exchange
    settles once.  Whatever errors and idle timeouts interleave with the
    worker's messages, codes the page accepts are exactly those Babel would give
    on the page, in module order; when all messages arrive in time the promise
    settles, with the codes or, when a source does not compile, with an error
    that stops the boot; and no later event changes a settled outcome. *)
Theorem worker_agrees_with_page (ms : list module) (evs later : list wevent) :
  (forall vs, messages_of evs `prefix_of` worker_messages babel None (Some ms) ->
     settled (wrun (length ms) evs) = Some (Ok vs) ->
     exists codes, map_res (transformed babel) ms = Ok codes /\ vs = map VStr codes) /\
  settled (wrun (length ms) (map WMessage (worker_messages babel None (Some ms)))) =
    Some (match map_res (transformed babel) ms with
          | Ok codes => Ok (map VStr codes)
          | Throw e => Throw (staged "transform" (error_message e))
          end) /\
  (forall r, settled (wrun (length ms) evs) = Some r -> settled (wrun (length ms) (evs ++ later)) = Some r).
Proof.
  split; [|split].
  - intros vs Hp H. by apply (worker_loop_accepted (length ms) evs (WState None true 0) (length ms) [] ms vs).
  - by apply (worker_loop_runs (length ms) (length ms) []).
  - intros r Hr. unfold wrun in *. rewrite fold_left_app. by destruct (wfold_settled (length ms) later _ r Hr).
Qed.
End WorkerProofs.

Module BootDemo.
Definition babel (s : string) (_ : options) (_ : string) : res string := Ok ("c:" +:+ s).
Definition sha (s : string) : string := s.
Definition evaluate (_ _ : string) : option jserr := None.
(** The entry of the data module cannot be stored. *)
Definition io : cache_io := CacheIO true (fun _ => true) (fun u => negb (String.eqb (u_path u) "/data.jsx")).
Definition app : node := Node (Url "https://c2.lan" "/app.jsx" "?v=2") None None.
Definition data : node := Node (Url "https://c2.lan" "/data.jsx" "") (Some "react") None.
Definition mod_app : module :=
  Module_ app "x" (transformOptions app) (requestFor app (sourceDigest sha "x" (transformOptions app))).
End BootDemo.

Lemma worker_agrees_with_page_witness :
  exists codes, map_res (transformed BootDemo.babel) [BootDemo.mod_app] = Ok codes /\ [VStr "c:x"] = map VStr codes.
Proof.
  apply (proj1 (worker_agrees_with_page BootDemo.babel [BootDemo.mod_app]
           (map WMessage (worker_messages BootDemo.babel None (Some [BootDemo.mod_app]))) []) [VStr "c:x"]).
  - exists []. vm_compute. reflexivity.
  - vm_compute. reflexivity.
Defined.

Lemma boot_runs_current_code_witness :
  exists ms codes,
    map_res (fun na => fetchModule BootDemo.sha na.1 na.2)
      (combine [BootDemo.data; BootDemo.app] [Ok (200%Z, "y"); Ok (200%Z, "x")]) = Ok ms /\
    map m_node ms = [BootDemo.data; BootDemo.app] /\
    map_res (transformed BootDemo.babel) ms = Ok codes /\
    ran (boot BootDemo.babel BootDemo.sha BootDemo.evaluate BootDemo.io [BootDemo.data; BootDemo.app]
      [Ok (200%Z, "y"); Ok (200%Z, "x")] (Some []) (fun _ => true) (map_res (transformed BootDemo.babel)) true).1
    = combine codes ["https://c2.lan/data.jsx"; "https://c2.lan/app.jsx?v=2"].
Proof.
  assert (H : forall c', Some [] = Some c' -> sound BootDemo.babel BootDemo.sha (fun _ => True) c').
  { intros c' [= <-] k code n s Hin. by apply not_elem_of_nil in Hin. }
  assert (Hnd : NoDup (map (fun n => path_key (n_src n)) [BootDemo.data; BootDemo.app]))
    by (apply (bool_decide_unpack _); vm_compute; exact I).
  assert (Hkn : Forall2 (known (fun _ => True)) [BootDemo.data; BootDemo.app] [Ok (200%Z, "y"); Ok (200%Z, "x")])
    by (repeat constructor).
  exact (proj1 (boot_runs_current_code BootDemo.babel BootDemo.sha BootDemo.evaluate BootDemo.io (fun _ => True)
    (fun a b _ _ E _ => E) (fun s o u u' code _ E => E)
    [BootDemo.data; BootDemo.app] [Ok (200%Z, "y"); Ok (200%Z, "x")] (Some []) (fun _ => true)
    (map_res (transformed BootDemo.babel)) true (fun ms codes E => E) Hkn Hnd H) eq_refl).
Defined.

(** A worker that cannot load Babel stops the boot as if the code were wrong.
    When [importScripts] fails in the worker the page receives a failure of kind
    transform, so the fallback to Babel on the page is not tried and the operator
    is told to check the latest edits, although no source was compiled. *)
Theorem worker_import_failure_blames_code (babel : string -> options -> string -> res string)
    (ms : list module) (err : jserr) (loads : bool) :
  let outcome := settled (wrun (length ms) (map WMessage (worker_messages babel (Some err) (Some ms)))) in
  let e := staged "transform" (error_message err) in
  outcome = Some (Throw e) /\
  (ms ≠ [] -> missing_codes babel (fun _ => Throw e) loads ms = Throw e) /\
  showFailure e = "Dashboard code could not be compiled. Check the latest local app edits, then reload.".
Proof.
  cbv zeta. split; [|split; [|done]].
  - cbn [worker_messages map wrun fold_left won]. change (is_progress _) with false.
    unfold finish, worker_reply, worker_failure, error_message. cbn. by destruct (err_message err).
  - destruct ms; [done|]. intros _. reflexivity.
Qed.

Lemma worker_import_failure_blames_code_witness :
  missing_codes BootDemo.babel (fun _ => Throw (staged "transform" "offline")) true [BootDemo.mod_app]
  = Throw (staged "transform" "offline").
Proof.
  exact (proj1 (proj2 (worker_import_failure_blames_code BootDemo.babel [BootDemo.mod_app]
    (JsErr VUndef "offline" false) true)) ltac:(discriminate)).
Defined.
