(* ===== verification/TopoLayout.v ===== *)
(** * Topology layout (layout.jsx)

    [compute] places the nodes of a graph: the edges are made simple, a minimum
    spanning forest is found by Kruskal's algorithm with union-find, a root is
    chosen, breadth-first depths over the forest give concentric rings, and a
    force pass refines them with the root pinned.  Nodes are addressed by their
    index; [idxOf] is a plain object, so a key may also be found on its
    prototype.  [Math.cos] and [Math.sin] are parameters.  The while loops take
    fuel: the proofs in the next file show that what [compute] gives is enough. *)

From Stdlib Require Import ZArith Lia Ascii.
From Corelib Require Import SpecFloat.
From stdpp Require Import strings pretty list.
From S2P Require Import Prelude JsNum JsValue Mappers.

Local Open Scope string_scope.
Local Open Scope list_scope.
Local Open Scope js_scope.

(** An element that was never assigned reads as [undefined], in arithmetic as
    NaN. *)
#[export] Instance value_inhabited : Inhabited value := populate VUndef.
#[export] Instance num_inhabited : Inhabited num := populate nan.

(** ** Input *)

Record tnode := TNode { t_id : value; t_kind : value; t_gearKind : value; t_role : value }.
Record tedge := TEdge { t_from : value; t_to : value; t_ekind : value }.
Record topts := TOpts { o_rootHint : value; o_view : value }.

(** ** Small functions *)

Definition edgeWeight (kind : value) : nat :=
  if strict_eq kind (VStr "uplink") || strict_eq kind (VStr "attaches") then 1
  else if strict_eq kind (VStr "monitors") then 2 else 3.

Definition idKey (id : value) : string := vstr id.

(** [cmpId(a, b)]: negative, zero or positive, as a comparison. *)
Definition cmpId (a b : value) : comparison := String.compare (idKey a) (idKey b).

Definition PI2 : num := nmul (lit 3141592653589793 15) (ofZ 2).
Definition GOLDEN : num := lit 2399963229728653 15.
Definition RADIUS_STEP : num := ofZ 150.
Definition FR_ITERS : nat := 120.
Definition FR_AREA : num := nmul (ofZ 500) (ofZ 500).

(** The names every plain object inherits. *)
Definition inherited : list string :=
  ["constructor"; "__defineGetter__"; "__defineSetter__"; "hasOwnProperty"; "__lookupGetter__";
   "__lookupSetter__"; "isPrototypeOf"; "propertyIsEnumerable"; "toString"; "valueOf"; "__proto__";
   "toLocaleString"].

(** What [k in idxOf] finds: a node's index, an inherited member, or nothing. *)
Inductive found := Own (i : nat) | Inherited | Absent.

(** [idxOf[idKey(id)] = i] for every node; a number assigned to [__proto__] is
    ignored. *)
Definition index_of (nodes : list tnode) : list (string * nat) :=
  fold_left (fun idx (p : nat * tnode) =>
    let k := idKey (t_id p.2) in
    if String.eqb k "__proto__" then idx else assoc_set k p.1 idx) (imap pair nodes) [].

Definition find_idx (idx : list (string * nat)) (k : string) : found :=
  match assoc k idx with
  | Some i => Own i
  | None => if existsb (String.eqb k) inherited then Inherited else Absent
  end.

(** ** Simple edges *)

Record uedge := UEdge { e_a : nat; e_b : nat; e_w : nat }.

(** Keep the smaller weight of a pair already seen. *)
Fixpoint edge_put (lo hi w : nat) (m : list uedge) : list uedge :=
  match m with
  | [] => [UEdge lo hi w]
  | e :: r =>
      if (e_a e =? lo)%nat && (e_b e =? hi)%nat
      then UEdge lo hi (if (w <? e_w e)%nat then w else e_w e) :: r
      else e :: edge_put lo hi w r
  end.

(** One edge of the input; an inherited endpoint makes the later access to the
    adjacency array throw, unless both endpoints are the same member. *)
Definition edge_step (idx : list (string * nat)) (m : list uedge) (e : tedge) : res (list uedge) :=
  let fk := idKey (t_from e) in
  let tk := idKey (t_to e) in
  match find_idx idx fk, find_idx idx tk with
  | Absent, _ | _, Absent => Ok m
  | Own a, Own b =>
      if (a =? b)%nat then Ok m
      else Ok (edge_put (Nat.min a b) (Nat.max a b) (edgeWeight (t_ekind e)) m)
  | Inherited, Inherited => if String.eqb fk tk then Ok m else Throw TypeError
  | _, _ => Throw TypeError
  end.

(** The edge list; [None] is a falsy entry, which is skipped. *)
Fixpoint simple_edges (idx : list (string * nat)) (m : list uedge) (es : list (option tedge)) : res (list uedge) :=
  match es with
  | [] => Ok m
  | None :: r => simple_edges idx m r
  | Some e :: r => m' <- edge_step idx m e ;; simple_edges idx m' r
  end.

(** [adj[i].push(j)]. *)
Definition push_adj (i j : nat) (adj : list (list nat)) : list (list nat) := <[i := adj !!! i ++ [j]]> adj.

Definition adj_edge (adj : list (list nat)) (e : uedge) : list (list nat) :=
  push_adj (e_b e) (e_a e) (push_adj (e_a e) (e_b e) adj).

Definition adjacency (n : nat) (es : list uedge) : list (list nat) := fold_left adj_edge es (replicate n []).

Definition degree_of (adj : list (list nat)) (i : nat) : nat := length (adj !!! i).

(** ** Union-find *)

Record uf := UF { ufParent : list nat; ufRank : list nat }.

Definition uf_init (n : nat) : uf := UF (seq 0 n) (replicate n 0).

(** [ufFind]: every turn halves the path and moves to the grandparent. *)
Fixpoint ufFind (fuel : nat) (p : list nat) (x : nat) : list nat * nat :=
  match fuel with
  | O => (p, x)
  | S f =>
      if decide (p !!! x = x) then (p, x)
      else let g := p !!! (p !!! x) in ufFind f (<[x := g]> p) g
  end.

Definition ufUnion (fuel : nat) (s : uf) (pa pb : nat) : uf * bool :=
  let '(p1, ra) := ufFind fuel (ufParent s) pa in
  let '(p2, rb) := ufFind fuel p1 pb in
  if (ra =? rb)%nat then (UF p2 (ufRank s), false)
  else if (ufRank s !!! ra <? ufRank s !!! rb)%nat then (UF (<[ra := rb]> p2) (ufRank s), true)
  else if (ufRank s !!! rb <? ufRank s !!! ra)%nat then (UF (<[rb := ra]> p2) (ufRank s), true)
  else (UF (<[rb := ra]> p2) (<[ra := S (ufRank s !!! ra)]> (ufRank s)), true).

(** The Kruskal loop over the sorted edges: the accepted edges, in order. *)
Fixpoint kruskal (n : nat) (s : uf) (order tree : list uedge) : uf * list uedge :=
  match order with
  | [] => (s, tree)
  | e :: r =>
      if (length tree <? n - 1)%nat then
        let '(s', joined) := ufUnion n s (e_a e) (e_b e) in
        kruskal n s' r (if joined then tree ++ [e] else tree)
      else (s, tree)
  end.

(** Weight first, then the ids of the endpoints. *)
Definition edge_le (ids : list value) (x y : uedge) : bool :=
  if (e_w x =? e_w y)%nat then
    match cmpId (ids !!! e_a x) (ids !!! e_a y) with
    | Lt => true
    | Gt => false
    | Eq => match cmpId (ids !!! e_b x) (ids !!! e_b y) with Gt => false | _ => true end
    end
  else (e_w x <? e_w y)%nat.

Definition mst (n : nat) (ids : list value) (es : list uedge) : list uedge :=
  (kruskal n (uf_init n) (sort_by (edge_le ids) es) []).2.

(** ** Root *)

Definition decide_view (o : topts) (nodes : list tnode) : string :=
  match o_view o with
  | VStr "network" => "network"
  | VStr "monitoring" => "monitoring"
  | _ =>
      if existsb (fun nd => negb (nullish (t_gearKind nd)) && negb (strict_eq (t_gearKind nd) (VStr ""))) nodes
      then "network" else "monitoring"
  end.

Definition is_gear (nd : tnode) : bool := strict_eq (t_kind nd) (VStr "gear").
Definition is_gateway (nd : tnode) : bool := is_gear nd && strict_eq (t_gearKind nd) (VStr "gateway").

(** The network loop from index [i] on: a gateway ends it, the gear of highest
    degree is remembered. *)
Fixpoint network_root (ids : list value) (degree : nat -> nat) (i : nat) (best : option nat) (nodes : list tnode)
    : option nat :=
  match nodes with
  | [] => best
  | nd :: r =>
      if is_gateway nd then Some i
      else
        let better :=
          match best with
          | None => true
          | Some b => (degree b <? degree i)%nat ||
                      ((degree i =? degree b)%nat &&
                       match cmpId (ids !!! i) (ids !!! b) with Lt => true | _ => false end)
          end in
        network_root ids degree (S i) (if is_gear nd && better then Some i else best) r
  end.

(** The first node of a role in id order. *)
Fixpoint role_root (ids : list value) (role : string) (i : nat) (best : option nat) (nodes : list tnode) : option nat :=
  match nodes with
  | [] => best
  | nd :: r =>
      let better :=
        match best with
        | None => true
        | Some b => match cmpId (ids !!! i) (ids !!! b) with Lt => true | _ => false end
        end in
      role_root ids role (S i) (if strict_eq (t_role nd) (VStr role) && better then Some i else best) r
  end.

(** Indices in the order of their ids. *)
Definition by_id (ids : list value) : list nat -> list nat :=
  sort_by (fun x y => match cmpId (ids !!! x) (ids !!! y) with Gt => false | _ => true end).

(** The root; [Inherited] when the hint names an inherited member. *)
Definition choose_root (o : topts) (idx : list (string * nat)) (nodes : list tnode) (adj : list (list nat)) : found :=
  let ids := map t_id nodes in
  let picked :=
    if String.eqb (decide_view o nodes) "network"
    then network_root ids (degree_of adj) 0 None nodes
    else match role_root ids "server" 0 None nodes with
         | Some i => Some i
         | None => role_root ids "monitor" 0 None nodes
         end in
  let free := match picked with Some i => Own i | None => Own (hd 0 (by_id ids (seq 0 (length nodes)))) end in
  if nullish (o_rootHint o) then free
  else match find_idx idx (idKey (o_rootHint o)) with Absent => free | f => f end.

(** ** Breadth-first depths *)

(** The neighbours of [cur]: those not seen get a depth and join the queue. *)
Definition visit (cur : nat) (st : list Z * list nat) (nb : nat) : list Z * list nat :=
  let '(depth, queue) := st in
  if decide (depth !!! nb = -1)%Z then (<[nb := (depth !!! cur + 1)%Z]> depth, queue ++ [nb]) else st.

Fixpoint bfs_loop (fuel : nat) (adj : list (list nat)) (depth : list Z) (queue : list nat) : list Z :=
  match fuel, queue with
  | S f, cur :: rest =>
      let '(depth', queue') := fold_left (visit cur) (adj !!! cur) (depth, rest) in bfs_loop f adj depth' queue'
  | _, _ => depth
  end.

Definition bfs (n root : nat) (adj : list (list nat)) : list Z :=
  bfs_loop n adj (<[root := 0%Z]> (replicate n (-1)%Z)) [root].

(** ** Placement *)

Section Placement.
Context (cosf sinf : num -> num).

Definition ofN (i : nat) : num := ofZ (Z.of_nat i).

Definition jitterX (i : nat) : num := nmul (cosf (nmul (ofN i) GOLDEN)) (lit 5 1).
Definition jitterY (i : nat) : num := nmul (sinf (nmul (ofN i) GOLDEN)) (lit 5 1).

(** The two coordinate arrays. *)
Record coords := Coords { xs : list num; ys : list num }.

Definition set_xy (i : nat) (x y : num) (c : coords) : coords := Coords (<[i := x]> (xs c)) (<[i := y]> (ys c)).

(** Put each node where [pos] says, given its place in the list. *)
Definition place (pos : nat -> nat -> num * num) (group : list nat) (c : coords) : coords :=
  fold_left (fun c (p : nat * nat) => set_xy p.2 (pos p.1 p.2).1 (pos p.1 p.2).2 c) (imap pair group) c.

(** The [g]-th of [cnt] nodes of the ring at depth [di]: equal angles. *)
Definition ring_pos (di cnt g idx : nat) : num * num :=
  let rr := nmul (ofN di) RADIUS_STEP in
  let phase := nmul (ofN di) (lit 5 1) in
  if (di =? 0)%nat then (n0, n0)
  else
    let ang := nadd phase (ndiv (nmul PI2 (ofN g)) (ofN cnt)) in
    (nadd (nmul rr (cosf ang)) (jitterX idx), nadd (nmul rr (sinf ang)) (jitterY idx)).

Definition place_group (di : nat) (group : list nat) (c : coords) : coords :=
  place (ring_pos di (length group)) group c.

Definition maxDepth (depth : list Z) : Z := fold_left Z.max depth 0%Z.

(** The nodes at a depth, by id. *)
Definition group_at (ids : list value) (depth : list Z) (d : Z) : list nat :=
  by_id ids (List.filter (fun i => (depth !!! i =? d)%Z) (seq 0 (length depth))).

(** The nodes not reached: an outer ring. *)
Definition outer_pos (ringR : num) (mdisc i idx : nat) : num * num :=
  let da := ndiv (nmul PI2 (ofN i)) (ofN mdisc) in
  (nadd (nmul ringR (cosf da)) (jitterX idx), nadd (nmul ringR (sinf da)) (jitterY idx)).

Definition place_outer (ringR : num) (disc : list nat) (c : coords) : coords :=
  place (outer_pos ringR (length disc)) disc c.

Definition radial (ids : list value) (depth : list Z) : coords :=
  let n := length depth in
  let md := Z.to_nat (maxDepth depth) in
  let c0 := Coords (replicate n nan) (replicate n nan) in
  let c1 := fold_left (fun c di => place_group di (group_at ids depth (Z.of_nat di)) c) (seq 0 (S md)) c0 in
  let disc := by_id ids (List.filter (fun i => (depth !!! i <? 0)%Z) (seq 0 n)) in
  place_outer (nmul (ofN (md + 2)) RADIUS_STEP) disc c1.

(** ** Force refinement *)

(** [d[i] += f] on an array. *)
Definition bump (i : nat) (f : num) (d : list num) : list num := <[i := nadd (d !!! i) f]> d.
Definition drop_by (i : nat) (f : num) (d : list num) : list num := <[i := nsub (d !!! i) f]> d.

Definition at_least_01 (d : num) : num := if nlt d (lit 1 2) then lit 1 2 else d.

Definition norm (x y : num) : num := nsqrt (nadd (nmul x x) (nmul y y)).

(** Repulsion between [i] and [j]. *)
Definition repel (kk : num) (c : coords) (d : coords) (ij : nat * nat) : coords :=
  let '(i, j) := ij in
  let ex := nsub (xs c !!! i) (xs c !!! j) in
  let ey := nsub (ys c !!! i) (ys c !!! j) in
  let dist := at_least_01 (norm ex ey) in
  let force := ndiv (nmul kk kk) dist in
  let fx := nmul (ndiv ex dist) force in
  let fy := nmul (ndiv ey dist) force in
  Coords (drop_by j fx (bump i fx (xs d))) (drop_by j fy (bump i fy (ys d))).

(** Attraction along an edge. *)
Definition attract (kk : num) (c : coords) (d : coords) (e : uedge) : coords :=
  let si := e_a e in
  let di := e_b e in
  let ex := nsub (xs c !!! si) (xs c !!! di) in
  let ey := nsub (ys c !!! si) (ys c !!! di) in
  let dist := at_least_01 (norm ex ey) in
  let force := ndiv (nmul dist dist) kk in
  let fx := nmul (ndiv ex dist) force in
  let fy := nmul (ndiv ey dist) force in
  Coords (bump di fx (drop_by si fx (xs d))) (bump di fy (drop_by si fy (ys d))).

(** Move node [i] by its displacement, limited by the temperature. *)
Definition move (root : nat) (temp : num) (d : coords) (c : coords) (i : nat) : coords :=
  if (i =? root)%nat then c
  else
    let mdist := norm (xs d !!! i) (ys d !!! i) in
    if nlt mdist (lit 1 2) then c
    else
      let scale := if nlt mdist temp then ofZ 1 else ndiv temp mdist in
      Coords (bump i (nmul (nmul (xs d !!! i) scale) (lit 1 1)) (xs c))
             (bump i (nmul (nmul (ys d !!! i) scale) (lit 1 1)) (ys c)).

Definition pairs (n : nat) : list (nat * nat) :=
  flat_map (fun i => map (pair i) (seq (S i) (n - S i))) (seq 0 n).

Definition force_iter (n root : nat) (es : list uedge) (kk : num) (iterations : nat) (c : coords) (iter : nat) : coords :=
  let temp := nmul kk (nsub (ofZ 1) (ndiv (ofN iter) (ofN iterations))) in
  let d0 := Coords (replicate n n0) (replicate n n0) in
  let d1 := fold_left (repel kk c) (pairs n) d0 in
  let d2 := fold_left (attract kk c) es d1 in
  fold_left (move root temp d2) (seq 0 n) c.

Definition forceRefine (n root : nat) (c : coords) (es : list uedge) (iterations : nat) : coords :=
  if (n <? 2)%nat then c
  else
    let kk := nsqrt (ndiv FR_AREA (ofN n)) in
    fold_left (force_iter n root es kk iterations) (seq 0 iterations) c.

(** ** Assembly *)

Record bounds := Bounds { minX : num; minY : num; maxX : num; maxY : num }.

Abbreviation positions := (list (string * (num * num))).

(** [positions[id] = {x, y}]; assigning [__proto__] makes no property. *)
Definition set_pos (id : value) (xy : num * num) (pos : positions) : positions :=
  if String.eqb (idKey id) "__proto__" then pos else assoc_set (idKey id) xy pos.

Definition finite0 (x : num) : num := if is_finite x then x else n0.

Definition assemble_step (acc : positions * bounds) (p : value * (num * num)) : positions * bounds :=
  let '(pos, b) := acc in
  let '(id, (x0, y0)) := p in
  let x := finite0 x0 in
  let y := finite0 y0 in
  (set_pos id (x, y) pos,
   Bounds (if nlt x (minX b) then x else minX b) (if nlt y (minY b) then y else minY b)
          (if ngt x (maxX b) then x else maxX b) (if ngt y (maxY b) then y else maxY b)).

Definition assemble (ids : list value) (c : coords) : positions * bounds :=
  let '(pos, b) := fold_left assemble_step (zip ids (zip (xs c) (ys c))) ([], Bounds inf inf ninf ninf) in
  (pos, if is_finite (minX b) then b else Bounds n0 n0 n0 n0).

(** ** compute *)

Definition zero_bounds : bounds := Bounds n0 n0 n0 n0.

Definition compute (iters : nat) (nodes : list tnode) (edges : list (option tedge)) (o : topts)
    : res (positions * bounds) :=
  let n := length nodes in
  let ids := map t_id nodes in
  match nodes with
  | [] => Ok ([], zero_bounds)
  | [nd] => Ok (set_pos (t_id nd) (n0, n0) [], zero_bounds)
  | _ =>
      let idx := index_of nodes in
      es <- simple_edges idx [] edges ;;
      let adj := adjacency n es in
      let tree := mst n ids es in
      match choose_root o idx nodes adj with
      | Own root =>
          let depth0 := bfs n root (adjacency n tree) in
          let depth := if (length tree =? 0)%nat then bfs n root adj else depth0 in
          Ok (assemble ids (forceRefine n root (radial ids depth) es iters))
      | _ => Throw TypeError
      end
  end.

Definition compute_default := compute FR_ITERS.
End Placement.
