(* ===== verification/TopoForest.v ===== *)
(** * The spanning forest and the depths of the topology layout

    Proofs about the graph part of layout.jsx: union-find with path halving and
    union by rank terminates within the fuel given and represents a partition;
    Kruskal's loop yields a forest that connects exactly what the edges connect,
    also when it stops early; the breadth-first search reaches exactly the root's
    component. *)

From Stdlib Require Import ZArith Lia Ascii.
From Corelib Require Import SpecFloat.
From stdpp Require Import strings pretty relations list.
From S2P Require Import Prelude JsNum JsValue Mappers TopoLayout.

Local Open Scope nat_scope.

(** ** Connectivity *)

Definition link (es : list uedge) (x y : nat) : Prop :=
  exists e, e ∈ es /\ ((e_a e = x /\ e_b e = y) \/ (e_a e = y /\ e_b e = x)).

Definition conn (es : list uedge) : nat -> nat -> Prop := rtc (link es).

Lemma link_sym es x y : link es x y -> link es y x.
Proof. intros (e & H & [?|?]); exists e; auto. Qed.

Lemma conn_sym es x y : conn es x y -> conn es y x.
Proof.
  induction 1 as [|x y z Hl _ IH]; [constructor|]. eapply rtc_r; [exact IH|]. by apply link_sym.
Qed.

Lemma conn_trans es x y z : conn es x y -> conn es y z -> conn es x z.
Proof. intros H1 H2. by transitivity y. Qed.

Lemma link_mono es es' x y : (forall e, e ∈ es -> e ∈ es') -> link es x y -> link es' x y.
Proof. intros H (e & He & Hc). exists e. auto. Qed.

Lemma conn_mono es es' x y : (forall e, e ∈ es -> e ∈ es') -> conn es x y -> conn es' x y.
Proof.
  intros H. induction 1 as [|x y z Hl _ IH]; [constructor|].
  eapply rtc_l; [|exact IH]. by eapply link_mono.
Qed.

Lemma conn_edge es e : e ∈ es -> conn es (e_a e) (e_b e).
Proof. intros H. apply rtc_once. exists e. auto. Qed.

Lemma conn_incl es es' x y :
  (forall e, e ∈ es -> conn es' (e_a e) (e_b e)) -> conn es x y -> conn es' x y.
Proof.
  intros H. induction 1 as [|x y z (e & He & Hc) _ IH]; [constructor|].
  eapply conn_trans; [|exact IH]. destruct Hc as [[<- <-]|[<- <-]]; [|apply conn_sym]; auto.
Qed.

#[export] Hint Resolve conn_sym conn_edge : js.

(** Adding an edge joins two components. *)
Lemma conn_snoc es e x y :
  conn (es ++ [e]) x y <->
  conn es x y \/ (conn es x (e_a e) /\ conn es (e_b e) y) \/ (conn es x (e_b e) /\ conn es (e_a e) y).
Proof.
  assert (Hup : forall u v, conn es u v -> conn (es ++ [e]) u v).
  { intros u v. apply conn_mono. intros f Hf. apply elem_of_app. by left. }
  assert (He : conn (es ++ [e]) (e_a e) (e_b e)) by (apply conn_edge, elem_of_app; right; left).
  split.
  - induction 1 as [|x y z (f & Hf & Hc) _ IH]; [left; constructor|].
    apply elem_of_app in Hf as [Hf|Hf%list_elem_of_singleton].
    + assert (Hxy : conn es x y) by (apply rtc_once; exists f; auto).
      destruct IH as [H|[[H1 H2]|[H1 H2]]]; [left|right; left|right; right]; eauto using conn_trans.
    + subst f. destruct Hc as [[<- <-]|[<- <-]].
      * destruct IH as [H|[[H1 H2]|[H1 H2]]].
        -- right. left. split; [constructor|done].
        -- right. left. split; [constructor|done].
        -- left. exact H2.
      * destruct IH as [H|[[H1 H2]|[H1 H2]]].
        -- right. right. split; [constructor|done].
        -- left. exact H2.
        -- right. right. split; [constructor|done].
  - intros [H|[[H1 H2]|[H1 H2]]]; [auto| |].
    + eapply conn_trans; [by apply Hup|]. eapply conn_trans; [exact He|auto].
    + eapply conn_trans; [by apply Hup|]. eapply conn_trans; [by apply conn_sym|auto].
Qed.

(** No edge joins what the edges before it connect. *)
Inductive forest : list uedge -> Prop :=
  | forest_nil : forest []
  | forest_snoc es e : forest es -> ~ conn es (e_a e) (e_b e) -> forest (es ++ [e]).

(** ** Union-find *)

(** [p] and [rk] are parents and ranks of [n] nodes whose class representatives
    are given by [R]; ranks grow along parents and none exceeds [M]. *)
Record uf_inv (n M : nat) (p rk : list nat) (R : nat -> nat) : Prop := {
  ui_p : length p = n;
  ui_rk : length rk = n;
  ui_lt : forall x, x < n -> p !!! x < n;
  ui_up : forall x, x < n -> p !!! x ≠ x -> rk !!! x < rk !!! (p !!! x);
  ui_max : forall x, x < n -> rk !!! x <= M;
  ui_R : forall x, x < n -> R x < n /\ p !!! (R x) = R x;
  ui_step : forall x, x < n -> R (p !!! x) = R x;
  ui_fix : forall x, x < n -> p !!! x = x -> R x = x;
}.

Lemma insert_total_eq {A} `{Inhabited A} (l : list A) i x : i < length l -> <[i := x]> l !!! i = x.
Proof. apply list_lookup_total_insert_eq. Qed.

Lemma insert_total_ne {A} `{Inhabited A} (l : list A) i j x : i ≠ j -> <[i := x]> l !!! j = l !!! j.
Proof. apply list_lookup_total_insert_ne. Qed.

(** Halving one step keeps the partition. *)
Lemma halve_inv n M p rk R x :
  uf_inv n M p rk R -> x < n -> p !!! x ≠ x ->
  uf_inv n M (<[x := p !!! (p !!! x)]> p) rk R /\ rk !!! x < rk !!! (p !!! (p !!! x)) /\
  p !!! (p !!! x) < n /\ R (p !!! (p !!! x)) = R x.
Proof.
  intros [Hp Hrk Hlt Hup Hmax HR Hst Hfix] Hx Hne.
  set (g := p !!! (p !!! x)).
  assert (Hg : rk !!! x < rk !!! g).
  { pose proof (Hup x Hx Hne). unfold g. destruct (decide (p !!! (p !!! x) = p !!! x)) as [->|Hn]; [done|].
    pose proof (Hup _ (Hlt x Hx) Hn). lia. }
  assert (Hgn : g < n) by (unfold g; auto).
  assert (HRg : R g = R x) by (unfold g; rewrite !Hst; auto).
  split; [|done]. split; auto.
  - by rewrite length_insert.
  - intros y Hy. destruct (decide (x = y)) as [<-|Hn]; [by rewrite insert_total_eq by lia|].
    rewrite insert_total_ne by done. auto.
  - intros y Hy. destruct (decide (x = y)) as [<-|Hn]; [by rewrite insert_total_eq by lia|].
    rewrite insert_total_ne by done. auto.
  - intros y Hy. destruct (HR y Hy) as [H1 H2]. split; [done|].
    rewrite insert_total_ne; [done|]. intros ->. done.
  - intros y Hy. destruct (decide (x = y)) as [<-|Hn]; [by rewrite insert_total_eq by lia|].
    rewrite insert_total_ne by done. auto.
  - intros y Hy. destruct (decide (x = y)) as [<-|Hn].
    + rewrite insert_total_eq by lia. intros E. rewrite E in Hg. lia.
    + rewrite insert_total_ne by done. auto.
Qed.

(** [ufFind] returns the representative and keeps the partition, given more fuel
    than the ranks left to climb. *)
Lemma ufFind_spec n M rk R fuel p x :
  uf_inv n M p rk R -> x < n -> M - rk !!! x < fuel ->
  let '(p', r) := ufFind fuel p x in uf_inv n M p' rk R /\ r = R x.
Proof.
  revert p x. induction fuel as [|f IH]; intros p x Hi Hx Hf; [lia|]. cbn [ufFind]. case_decide as E.
  - split; [done|]. symmetry. by apply (ui_fix _ _ _ _ _ Hi).
  - destruct (halve_inv n M p rk R x Hi Hx E) as (Hi' & Hg & Hgn & HRg).
    pose proof (ui_max _ _ _ _ _ Hi _ Hgn).
    specialize (IH (<[x:=p !!! (p !!! x)]> p) (p !!! (p !!! x)) Hi' Hgn).
    destruct (ufFind f _ _) as [p' r]. destruct IH as [H1 H2]; [lia|]. split; [done|]. by rewrite H2.
Qed.

(** Attaching root [u] to root [v]. *)
Definition attach (R : nat -> nat) (u v : nat) (x : nat) : nat := if decide (R x = u) then v else R x.

Lemma attach_inv n M p rk rk' R u v :
  uf_inv n M p rk R -> u < n -> v < n -> u ≠ v -> R u = u -> R v = v ->
  length rk' = n -> (forall x, x < n -> x ≠ v -> rk' !!! x = rk !!! x) ->
  rk !!! v <= rk' !!! v <= S M -> rk !!! u < rk' !!! v ->
  uf_inv n (S M) (<[u := v]> p) rk' (attach R u v).
Proof.
  intros [Hp Hrk Hlt Hup Hmax HR Hst Hfix] Hu Hv Huv Ru Rv Hl' Hsame Hrv Hur. unfold attach. split; auto.
  - by rewrite length_insert.
  - intros x Hx. destruct (decide (u = x)) as [<-|Hn]; [by rewrite insert_total_eq by lia|].
    rewrite insert_total_ne by done. auto.
  - intros x Hx. destruct (decide (u = x)) as [<-|Hn].
    + rewrite insert_total_eq by lia. intros _. by rewrite (Hsame u Hu Huv).
    + rewrite insert_total_ne by done. intros Hne. specialize (Hup x Hx Hne).
      assert (Hxv : x ≠ v).
      { intros ->. apply Hne. destruct (HR v Hv) as [_ E]. by rewrite Rv in E. }
      rewrite (Hsame x Hx Hxv). destruct (decide (p !!! x = v)) as [Epv|Hpv]; [rewrite Epv in *; lia|]. rewrite Hsame; auto.
  - intros x Hx. destruct (decide (x = v)) as [->|Hn]; [lia|]. rewrite Hsame by done. specialize (Hmax x Hx). lia.
  - intros x Hx. case_decide as E.
    + split; [done|]. rewrite insert_total_ne by done. destruct (HR v Hv) as [_ E']. by rewrite Rv in E'.
    + destruct (HR x Hx) as [H1 H2]. split; [done|]. rewrite insert_total_ne; auto.
  - intros x Hx. destruct (decide (u = x)) as [<-|Hn].
    + rewrite insert_total_eq by lia. rewrite Rv, Ru. by rewrite decide_False, decide_True by auto.
    + rewrite insert_total_ne by done. by rewrite Hst.
  - intros x Hx. destruct (decide (u = x)) as [<-|Hn].
    + rewrite insert_total_eq by lia. intros E. by rewrite E in Huv.
    + rewrite insert_total_ne by done. intros E. specialize (Hfix x Hx E). rewrite decide_False; congruence.
Qed.

(** The classes, counted by their representatives. *)
Definition classes (n : nat) (R : nat -> nat) : nat := length (List.filter (fun x => R x =? x) (seq 0 n)).

Lemma filter_remove (P Q : nat -> bool) (u : nat) (l : list nat) :
  NoDup l -> u ∈ l -> P u = true -> (forall x, Q x = P x && negb (x =? u)) ->
  length (List.filter P l) = S (length (List.filter Q l)).
Proof.
  intros Hnd Hu HP HQ. induction l as [|x l IH]; [by apply not_elem_of_nil in Hu|].
  apply NoDup_cons in Hnd as [Hx Hnd]. cbn [List.filter]. rewrite (HQ x).
  destruct (Nat.eqb_spec x u) as [->|Hne].
  - rewrite HP. cbn. f_equal. clear IH Hu. assert (Hall : forall y, y ∈ l -> y ≠ u) by (intros y Hy ->; done).
    clear Hx Hnd. induction l as [|y l IH]; [done|]. cbn. rewrite (HQ y).
    rewrite (proj2 (Nat.eqb_neq y u)) by (apply Hall; left). cbn. rewrite andb_true_r.
    destruct (P y); cbn; rewrite IH; auto; intros z Hz; apply Hall; by right.
  - apply elem_of_cons in Hu as [->|Hu]; [done|]. cbn. rewrite andb_true_r.
    destruct (P x); cbn; rewrite IH; auto.
Qed.

Lemma classes_attach n R u v :
  u < n -> u ≠ v -> R u = u -> R v = v -> classes n R = S (classes n (attach R u v)).
Proof.
  intros Hu Huv Ru Rv. unfold classes. apply (filter_remove _ _ u).
  - apply NoDup_seq.
  - apply elem_of_seq. lia.
  - by rewrite Ru, Nat.eqb_refl.
  - intros x. unfold attach. case_decide as E.
    + destruct (Nat.eqb_spec v x) as [->|]; [congruence|].
      destruct (Nat.eqb_spec (R x) x); [|done]. by replace (x =? u) with true by (symmetry; apply Nat.eqb_eq; congruence).
    + destruct (Nat.eqb_spec (R x) x) as [Ex|]; [|done]. cbn. symmetry. apply negb_true_iff, Nat.eqb_neq. congruence.
Qed.

Lemma attach_classes R u v a b x y :
  R a = u -> R b = v ->
  attach R u v x = attach R u v y <->
  R x = R y \/ (R x = R a /\ R y = R b) \/ (R x = R b /\ R y = R a).
Proof. intros -> ->. unfold attach. repeat case_decide; naive_solver congruence. Qed.

Lemma ufUnion_spec n M s R fuel a b :
  uf_inv n M (ufParent s) (ufRank s) R -> a < n -> b < n -> M < fuel ->
  let '(s', joined) := ufUnion fuel s a b in
  if joined
  then R a ≠ R b /\ exists R', uf_inv n (S M) (ufParent s') (ufRank s') R' /\ classes n R = S (classes n R') /\
         (forall x y, R' x = R' y <-> R x = R y \/ (R x = R a /\ R y = R b) \/ (R x = R b /\ R y = R a))
  else R a = R b /\ uf_inv n M (ufParent s') (ufRank s') R.
Proof.
  intros Hi Ha Hb Hf. unfold ufUnion.
  pose proof (ufFind_spec n M (ufRank s) R fuel _ a Hi Ha ltac:(lia)) as H1.
  destruct (ufFind fuel (ufParent s) a) as [p1 ra]. destruct H1 as [Hi1 ->].
  pose proof (ufFind_spec n M (ufRank s) R fuel _ b Hi1 Hb ltac:(lia)) as H2.
  destruct (ufFind fuel p1 b) as [p2 rb]. destruct H2 as [Hi2 ->].
  destruct (ui_R _ _ _ _ _ Hi2 a Ha) as [Hra Pra]. destruct (ui_R _ _ _ _ _ Hi2 b Hb) as [Hrb Prb].
  pose proof (ui_fix _ _ _ _ _ Hi2 _ Hra Pra) as Fa. pose proof (ui_fix _ _ _ _ _ Hi2 _ Hrb Prb) as Fb.
  pose proof (ui_max _ _ _ _ _ Hi2 _ Hra) as Ma. pose proof (ui_max _ _ _ _ _ Hi2 _ Hrb) as Mb.
  pose proof (ui_rk _ _ _ _ _ Hi2) as Hl.
  destruct (Nat.eqb_spec (R a) (R b)) as [E|Hne]; [done|].
  destruct (Nat.ltb_spec (ufRank s !!! R a) (ufRank s !!! R b)).
  { split; [done|]. exists (attach R (R a) (R b)). split; [|split].
    - eapply attach_inv; eauto; lia.
    - by apply classes_attach.
    - intros x y. by apply attach_classes. }
  destruct (Nat.ltb_spec (ufRank s !!! R b) (ufRank s !!! R a)).
  { split; [done|]. exists (attach R (R b) (R a)). split; [|split].
    - eapply attach_inv; eauto; lia.
    - by apply classes_attach.
    - intros x y. rewrite (attach_classes R (R b) (R a) b a) by done. naive_solver. }
  split; [done|]. exists (attach R (R b) (R a)). split; [|split].
  - eapply attach_inv; eauto; cbn [ufRank].
    + by rewrite length_insert.
    + intros x Hx Hxa. by rewrite insert_total_ne.
    + rewrite insert_total_eq by lia. lia.
    + rewrite insert_total_eq by lia. lia.
  - by apply classes_attach.
  - intros x y. rewrite (attach_classes R (R b) (R a) b a) by done. naive_solver.
Qed.

(** ** Kruskal *)

Definition in_range (n : nat) (e : uedge) : Prop := e_a e < n /\ e_b e < n.

(** The state of the loop: the partition is the connectivity of the tree. *)
Record kinv (n : nat) (s : uf) (tree : list uedge) : Prop := {
  ki_rep : exists R, uf_inv n (length tree) (ufParent s) (ufRank s) R /\
             (forall x y, x < n -> y < n -> R x = R y <-> conn tree x y) /\
             classes n R + length tree = n;
  ki_forest : forest tree;
  ki_range : Forall (in_range n) tree;
}.

Lemma kinv_init n : kinv n (uf_init n) [].
Proof.
  split; [|constructor|constructor]. exists id.
  assert (Hs : forall x, x < n -> seq 0 n !!! x = x).
  { intros x Hx. apply list_lookup_total_correct. rewrite lookup_seq. lia. }
  split; [|split].
  - cbn. split; try (intros x Hx; rewrite ?Hs by done; auto; try done).
    + by rewrite length_seq.
    + by rewrite length_replicate.
    + by rewrite lookup_total_replicate_2.
  - intros x y _ _. split; [unfold id; intros ->; constructor|]. induction 1 as [|x y z (e & He & _) _ IH]; [done|].
    by apply not_elem_of_nil in He.
  - unfold classes. cbn. rewrite Nat.add_0_r.
    assert (H : forall k m, length (List.filter (fun x => id x =? x) (seq k m)) = m).
    { intros k m. revert k. induction m as [|m IH]; intros k; [done|]. cbn. rewrite Nat.eqb_refl. cbn. by rewrite IH. }
    apply H.
Qed.

Lemma kinv_step n s tree e :
  kinv n s tree -> in_range n e -> length tree < n ->
  let '(s', joined) := ufUnion n s (e_a e) (e_b e) in
  kinv n s' (if joined then tree ++ [e] else tree) /\
  conn (if joined then tree ++ [e] else tree) (e_a e) (e_b e).
Proof.
  intros [(R & Hi & HR & Hc) Hfo Hra] [Ha Hb] Hl.
  pose proof (ufUnion_spec n (length tree) s R n _ _ Hi Ha Hb Hl) as Hu.
  destruct (ufUnion n s (e_a e) (e_b e)) as [s' []].
  - destruct Hu as [Hne (R' & Hi' & Hc' & HR')]. split; [|apply conn_edge, elem_of_app; right; left].
    assert (Hlen : length (tree ++ [e]) = S (length tree)) by (rewrite length_app; cbn; lia).
    split.
    + exists R'. rewrite Hlen. split; [done|]. split; [|lia].
      intros x y Hx Hy. rewrite HR', conn_snoc, !HR by done. split; intros [?|[[? ?]|[? ?]]]; auto with js.
    + constructor; [done|]. by rewrite <- HR.
    + apply Forall_app. split; [done|]. by apply Forall_singleton.
  - destruct Hu as [E Hi']. split; [|by apply HR]. split; [|done|done]. exists R. done.
Qed.

(** One class: everything is connected. *)
Lemma one_class n R x y :
  classes n R = 1 -> (forall z, z < n -> R z < n /\ R (R z) = R z) -> x < n -> y < n -> R x = R y.
Proof.
  unfold classes. intros Hc HR Hx Hy.
  assert (Hin : forall z, z < n -> R z ∈ List.filter (fun x => R x =? x) (seq 0 n)).
  { intros z Hz. destruct (HR z Hz) as [H1 H2]. apply list_elem_of_In, filter_In. split.
    - apply in_seq. lia.
    - by apply Nat.eqb_eq. }
  pose proof (Hin x Hx) as H1. pose proof (Hin y Hy) as H2.
  destruct (List.filter _ _) as [|a [|b l]]; [done| |done].
  apply list_elem_of_singleton in H1, H2. congruence.
Qed.

Lemma kruskal_spec n s order tree :
  kinv n s tree -> Forall (in_range n) order -> length tree < n ->
  let '(s', tree') := kruskal n s order tree in
  kinv n s' tree' /\ (forall e, e ∈ order -> conn tree' (e_a e) (e_b e)) /\
  (forall e, e ∈ tree -> e ∈ tree') /\ (forall e, e ∈ tree' -> e ∈ tree \/ e ∈ order).
Proof.
  intros Hk Ho. revert s tree Hk. induction Ho as [|e order He Ho IH]; intros s tree Hk Hl; cbn [kruskal].
  { split; [done|]. split; [intros e H; by apply not_elem_of_nil in H|]. auto. }
  destruct (Nat.ltb_spec (length tree) (n - 1)) as [Hlt|Hge].
  - pose proof (kinv_step n s tree e Hk He Hl) as Hs.
    destruct (ufUnion n s (e_a e) (e_b e)) as [s1 joined]. destruct Hs as [Hk1 Hc1].
    assert (Hl1 : length (if joined then tree ++ [e] else tree) < n).
    { destruct joined; [rewrite length_app; cbn|]; lia. }
    specialize (IH s1 _ Hk1 Hl1). destruct (kruskal n s1 order _) as [s' tree'].
    destruct IH as (H1 & H2 & H3 & H4). split; [done|]. split; [|split].
    + intros f [->|Hf]%elem_of_cons; [|auto]. eapply conn_mono; [exact H3|exact Hc1].
    + intros f Hf. apply H3. destruct joined; [apply elem_of_app; by left|done].
    + intros f [Hf|Hf]%H4; [|right; by right]. destruct joined; [|by left].
      apply elem_of_app in Hf as [Hf|E%list_elem_of_singleton]; [by left|]. subst f. right. left.
  - split; [done|]. split; [|split; auto].
    destruct Hk as [(R & Hi & HR & Hc) _ _]. intros f Hf.
    assert (Hfr : in_range n f).
    { apply elem_of_cons in Hf as [->|Hf]; [done|]. rewrite Forall_forall in Ho. auto. }
    destruct Hfr as [Hfa Hfb]. apply HR; [done|done|]. apply (one_class n); [lia| |done|done].
    intros z Hz. destruct (ui_R _ _ _ _ _ Hi z Hz) as [H1 H2]. split; [done|]. by apply (ui_fix _ _ _ _ _ Hi).
Qed.

Lemma mst_spec n ids es :
  0 < n -> Forall (in_range n) es ->
  forest (mst n ids es) /\ Forall (in_range n) (mst n ids es) /\
  (forall x y, conn (mst n ids es) x y <-> conn es x y).
Proof.
  intros Hn He. unfold mst.
  assert (Hp : forall e, e ∈ sort_by (edge_le ids) es <-> e ∈ es) by (intros e; by rewrite sort_by_perm).
  pose proof (kruskal_spec n (uf_init n) (sort_by (edge_le ids) es) [] (kinv_init n)) as Hk.
  destruct (kruskal n (uf_init n) _ []) as [s tree]. cbn [snd].
  destruct Hk as (H1 & H2 & _ & H4); [by rewrite sort_by_perm|cbn; lia|].
  split; [apply H1|]. split; [apply H1|]. intros x y. split.
  - apply conn_mono. intros e [Hin|Hin]%H4; [by apply not_elem_of_nil in Hin|by apply Hp].
  - apply conn_incl. intros e Hin. apply H2, Hp, Hin.
Qed.

(** ** Adjacency lists *)

Lemma push_adj_elem i j adj x y :
  i < length adj -> y ∈ push_adj i j adj !!! x <-> y ∈ adj !!! x \/ (x = i /\ y = j).
Proof.
  intros Hi. unfold push_adj. destruct (decide (i = x)) as [<-|Hn].
  - rewrite insert_total_eq by done. rewrite elem_of_app, list_elem_of_singleton. naive_solver.
  - rewrite insert_total_ne by done. naive_solver.
Qed.

Lemma adjacency_spec n es :
  Forall (in_range n) es -> length (adjacency n es) = n /\
  forall x y, x < n -> y ∈ adjacency n es !!! x <-> link es x y.
Proof.
  unfold adjacency. intros He. induction es as [|e es IH] using rev_ind.
  - cbn. split; [by rewrite length_replicate|]. intros x y Hx. rewrite lookup_total_replicate_2 by done.
    split; [intros H; by apply not_elem_of_nil in H|]. intros (e & H & _). by apply not_elem_of_nil in H.
  - apply Forall_app in He as [He [Ha Hb]%Forall_singleton]. destruct (IH He) as [Hl Hs].
    rewrite fold_left_app. cbn [fold_left]. set (adj := fold_left adj_edge es (replicate n [])) in *.
    clearbody adj. unfold adj_edge. split; [unfold push_adj; by rewrite !length_insert|]. intros x y Hx.
    rewrite push_adj_elem by (unfold push_adj; rewrite length_insert, Hl; exact Hb).
    rewrite push_adj_elem by (rewrite Hl; exact Ha). rewrite Hs by done.
    split.
    + intros [[(f & Hf & Hc)|[-> ->]]|[-> ->]].
      * exists f. split; [apply elem_of_app; by left|done].
      * exists e. split; [apply elem_of_app; right; left|auto].
      * exists e. split; [apply elem_of_app; right; left|auto].
    + intros (f & [Hf|E%list_elem_of_singleton]%elem_of_app & Hc); [left; left; by exists f|].
      subst f. destruct Hc as [[<- <-]|[<- <-]]; auto.
Qed.

(** ** Breadth-first search *)

Definition visited (depth : list Z) (v : nat) : Prop := depth !!! v ≠ (-1)%Z.

Definition unvisited (depth : list Z) : nat := length (List.filter (fun z => (z =? -1)%Z) depth).

Lemma unvisited_insert depth i x :
  i < length depth -> depth !!! i = (-1)%Z -> x ≠ (-1)%Z ->
  S (unvisited (<[i := x]> depth)) = unvisited depth.
Proof.
  unfold unvisited. revert i. induction depth as [|z depth IH]; intros i Hi Hz Hx; [cbn in Hi; lia|].
  destruct i as [|i]; cbn in *.
  - subst z. rewrite (proj2 (Z.eqb_neq x (-1))) by done. done.
  - specialize (IH i ltac:(lia) Hz Hx). destruct (z =? -1)%Z; [apply (f_equal S), IH|exact IH].
Qed.

(** The depths seen so far are not negative. *)
Definition depths_ok (n : nat) (depth : list Z) : Prop :=
  length depth = n /\ forall v, v < n -> (depth !!! v = -1 \/ 0 <= depth !!! v)%Z.

Lemma visit_step n cur depth queue nb :
  depths_ok n depth -> visited depth cur -> cur < n -> nb < n ->
  let '(depth', queue') := visit cur (depth, queue) nb in
  depths_ok n depth' /\ visited depth' nb /\
  (forall v, visited depth v -> visited depth' v) /\
  (forall v, visited depth' v -> visited depth v \/ (v = nb /\ v ∈ queue')) /\
  (forall v, v ∈ queue' -> v ∈ queue \/ (v = nb /\ visited depth' v)) /\
  (forall v, v ∈ queue -> v ∈ queue') /\
  unvisited depth' + length queue' = unvisited depth + length queue.
Proof.
  intros [Hl Hd] Hc Hcn Hnb. unfold visit. case_decide as E.
  2:{ repeat split; auto. }
  assert (Hcd : (0 <= depth !!! cur)%Z) by (destruct (Hd cur Hcn); [done|lia]).
  assert (Hv : visited (<[nb := (depth !!! cur + 1)%Z]> depth) nb).
  { unfold visited. rewrite insert_total_eq by lia. lia. }
  split; [|split; [done|]].
  { split; [by rewrite length_insert|]. intros v Hvn. destruct (decide (nb = v)) as [<-|Hn].
    - rewrite insert_total_eq by lia. lia.
    - rewrite insert_total_ne by done. auto. }
  split; [|split; [|split; [|split]]].
  - intros v Hv'. destruct (decide (nb = v)) as [<-|Hn]; [done|]. unfold visited. by rewrite insert_total_ne.
  - intros v Hv'. destruct (decide (nb = v)) as [<-|Hn].
    + right. split; [done|]. apply elem_of_app. right. left.
    + left. unfold visited in *. by rewrite insert_total_ne in Hv'.
  - intros v [Hq|E'%list_elem_of_singleton]%elem_of_app; [by left|]. subst v. auto.
  - intros v Hq. apply elem_of_app. by left.
  - rewrite length_app. cbn. rewrite <- (unvisited_insert depth nb (depth !!! cur + 1)%Z) by (done || lia). lia.
Qed.

Lemma visit_fold n cur nbrs depth queue :
  depths_ok n depth -> visited depth cur -> cur < n -> Forall (fun v => v < n) nbrs ->
  let '(depth', queue') := fold_left (visit cur) nbrs (depth, queue) in
  depths_ok n depth' /\ (forall v, v ∈ nbrs -> visited depth' v) /\
  (forall v, visited depth v -> visited depth' v) /\
  (forall v, visited depth' v -> visited depth v \/ (v ∈ nbrs /\ v ∈ queue')) /\
  (forall v, v ∈ queue' -> v ∈ queue \/ (v ∈ nbrs /\ visited depth' v)) /\
  (forall v, v ∈ queue -> v ∈ queue') /\
  unvisited depth' + length queue' = unvisited depth + length queue.
Proof.
  intros Hd Hc Hcn Hf. revert depth queue Hd Hc. induction Hf as [|nb nbrs Hnb Hf IH]; intros depth queue Hd Hc.
  { cbn. repeat split; auto; try apply Hd. intros v H. by apply not_elem_of_nil in H. }
  cbn [fold_left]. pose proof (visit_step n cur depth queue nb Hd Hc Hcn Hnb) as H1.
  destruct (visit cur (depth, queue) nb) as [d1 q1]. destruct H1 as (A1 & A2 & A3 & A4 & A5 & A6 & A7).
  specialize (IH d1 q1 A1 (A3 _ Hc)). destruct (fold_left (visit cur) nbrs (d1, q1)) as [d2 q2].
  destruct IH as (B1 & B2 & B3 & B4 & B5 & B6 & B7). repeat split; try apply B1; try lia.
  - intros v [->|Hv]%elem_of_cons; auto.
  - auto.
  - intros v Hv. destruct (B4 v Hv) as [H|[H H']]; [|right; split; [by right|done]].
    destruct (A4 v H) as [?|[-> ?]]; [by left|]. right. split; [left|auto].
  - intros v Hv. destruct (B5 v Hv) as [H|[H H']]; [|right; split; [by right|done]].
    destruct (A5 v H) as [?|[-> ?]]; [by left|]. right. split; [left|auto].
  - auto.
Qed.

Section Bfs.
Context (n root : nat) (adj : list (list nat)) (es : list uedge).
Context (Hadj : forall x y, x < n -> y ∈ adj !!! x <-> link es x y) (Hes : Forall (in_range n) es).

Lemma link_range x y : link es x y -> x < n /\ y < n.
Proof.
  intros (e & He & Hc). rewrite Forall_forall in Hes. destruct (Hes e He) as [Ha Hb].
  destruct Hc as [[<- <-]|[<- <-]]; done.
Qed.

(** Whatever was seen is connected to the root and queued unless its neighbours
    were seen; the fuel covers the queue and the nodes still to come. *)
Lemma bfs_loop_spec fuel depth queue :
  depths_ok n depth -> visited depth root ->
  (forall v, v ∈ queue -> v < n /\ visited depth v) ->
  (forall v, v < n -> visited depth v -> conn es root v) ->
  (forall v w, v < n -> visited depth v -> link es v w -> v ∈ queue \/ visited depth w) ->
  unvisited depth + length queue <= fuel ->
  let d := bfs_loop fuel adj depth queue in
  depths_ok n d /\ visited d root /\ (forall v, v < n -> visited d v -> conn es root v) /\
  (forall v w, v < n -> visited d v -> link es v w -> visited d w).
Proof.
  revert depth queue. induction fuel as [|fuel IH]; intros depth queue Hd Hr Hq Hc Hn Hf.
  { assert (queue = []) as -> by (destruct queue; [done|cbn in Hf; lia]). cbn. repeat split; auto; try apply Hd.
    intros v w Hv Hvis Hl. destruct (Hn v w Hv Hvis Hl) as [H|H]; [by apply not_elem_of_nil in H|done]. }
  destruct queue as [|cur queue].
  { cbn. repeat split; auto; try apply Hd.
    intros v w Hv Hvis Hl. destruct (Hn v w Hv Hvis Hl) as [H|H]; [by apply not_elem_of_nil in H|done]. }
  cbn [bfs_loop]. destruct (Hq cur) as [Hcn Hcv]; [left|].
  assert (Hnb : Forall (fun v => v < n) (adj !!! cur)).
  { rewrite Forall_forall. intros y Hy. apply Hadj in Hy; [|done]. apply link_range in Hy as [_ Hy]. exact Hy. }
  pose proof (visit_fold n cur (adj !!! cur) depth queue Hd Hcv Hcn Hnb) as Hv.
  destruct (fold_left (visit cur) (adj !!! cur) (depth, queue)) as [d1 q1].
  destruct Hv as (B1 & B2 & B3 & B4 & B5 & B6 & B7). apply IH; auto; [| | |cbn in Hf; lia].
  - intros v Hv. destruct (B5 v Hv) as [H|[H H']].
    + destruct (Hq v) as [? ?]; [by right|]. auto.
    + split; [|done]. rewrite Forall_forall in Hnb. auto.
  - intros v Hvn Hv. destruct (B4 v Hv) as [H|[H _]]; [auto|].
    apply Hadj in H; [|done]. eapply rtc_r; [apply (Hc cur); [exact Hcn|exact Hcv]|exact H].
  - intros v w Hvn Hv Hl. destruct (B4 v Hv) as [H|[_ H]]; [|by left].
    destruct (Hn v w Hvn H Hl) as [[->|H']%elem_of_cons|H']; [|left; auto|right; auto].
    right. apply B2. by apply Hadj.
Qed.

Lemma unvisited_replicate k : unvisited (replicate k (-1)%Z) = k.
Proof. unfold unvisited. induction k as [|k IH]; [done|]. cbn. by rewrite IH. Qed.

Lemma bfs_spec :
  root < n -> let d := bfs n root adj in
  depths_ok n d /\ forall v, v < n -> visited d v <-> conn es root v.
Proof.
  intros Hr. unfold bfs. set (d0 := <[root := 0%Z]> (replicate n (-1)%Z)).
  assert (Hl : length (replicate n (-1)%Z) = n) by apply length_replicate.
  assert (H0 : forall v, v < n -> v ≠ root -> d0 !!! v = (-1)%Z).
  { intros v Hv Hne. unfold d0. rewrite insert_total_ne by done. by apply lookup_total_replicate_2. }
  assert (Hroot : d0 !!! root = 0%Z) by (unfold d0; by rewrite insert_total_eq by lia).
  assert (Hd0 : depths_ok n d0).
  { split; [unfold d0; by rewrite length_insert|]. intros v Hv. destruct (decide (v = root)) as [->|]; [lia|].
    left. auto. }
  assert (Hu : unvisited d0 + 1 = n).
  { rewrite <- (unvisited_replicate n) at 1. unfold d0.
    rewrite <- (unvisited_insert (replicate n (-1)%Z) root 0%Z); [lia|lia| |lia].
    by apply lookup_total_replicate_2. }
  assert (Honly : forall v, v < n -> visited d0 v -> v = root).
  { intros v Hv Hvis. destruct (decide (v = root)); [done|]. unfold visited in Hvis. by rewrite H0 in Hvis. }
  destruct (bfs_loop_spec n d0 [root]) as (E1 & E2 & E3 & E4); auto.
  - unfold visited. rewrite Hroot. lia.
  - intros v ->%list_elem_of_singleton. split; [done|]. unfold visited. rewrite Hroot. lia.
  - intros v Hv Hvis. rewrite (Honly v Hv Hvis). constructor.
  - intros v w Hv Hvis _. left. rewrite (Honly v Hv Hvis). left.
  - cbn [length]. lia.
  - split; [done|]. intros v Hv. split; [auto|]. clear Hv.
    assert (Hgen : forall x y, conn es x y -> x < n -> visited (bfs_loop n adj d0 [root]) x -> visited (bfs_loop n adj d0 [root]) y).
    { induction 1 as [|x y z Hxy _ IH]; [done|]. intros Hx Hvx. destruct (link_range _ _ Hxy) as [_ Hy].
      apply IH; eauto. }
    intros Hcv. eapply Hgen; eauto.
Qed.
End Bfs.
