(* ===== verification/TopoPlace.v ===== *)
(** * Where the topology layout puts the nodes

    The theorems about [compute]: which inputs it accepts, that its rings follow
    the connectivity of the graph, that every node gets a finite position inside
    the bounds, and that the root stays at the origin. *)

From Stdlib Require Import ZArith Lia Ascii.
From Corelib Require Import SpecFloat.
From stdpp Require Import strings pretty relations list.
From S2P Require Import Prelude JsNum JsValue Mappers TopoLayout TopoForest.

Local Open Scope string_scope.
Local Open Scope list_scope.
Local Open Scope nat_scope.
Local Open Scope js_scope.

(** ** The index of a node *)

Lemma index_of_range nodes k i : assoc k (index_of nodes) = Some i -> i < length nodes.
Proof.
  unfold index_of.
  assert (H : forall l idx, (forall p, p ∈ l -> p.1 < length nodes) ->
    (forall k i, assoc k idx = Some i -> i < length nodes) ->
    forall k i, assoc k (fold_left (fun idx (p : nat * tnode) =>
      let k := idKey (t_id p.2) in if String.eqb k "__proto__" then idx else assoc_set k p.1 idx) l idx) = Some i ->
      i < length nodes).
  { induction l as [|p l IH]; intros idx Hp Hi; [done|]. cbn [fold_left]. apply IH; [intros q Hq; apply Hp; by right|].
    intros k0 i0. cbv zeta. destruct (String.eqb _ "__proto__"); [apply Hi|].
    destruct (String.eqb_spec k0 (idKey (t_id p.2))) as [->|Hne].
    - rewrite assoc_set_same. intros [= <-]. apply Hp. left.
    - rewrite assoc_set_other by done. apply Hi. }
  apply H; [|done]. intros [j nd] Hin. apply elem_of_lookup_imap in Hin as (j' & nd' & [= -> ->] & Hl).
  by apply lookup_lt_Some in Hl.
Qed.

Lemma find_idx_own nodes k i : find_idx (index_of nodes) k = Own i -> i < length nodes.
Proof.
  unfold find_idx. destruct (assoc k (index_of nodes)) eqn:E.
  - intros [= <-]. by eapply index_of_range.
  - by destruct (existsb _ _).
Qed.

(** ** Simple edges *)

Lemma edge_put_range n lo hi w m :
  lo < n -> hi < n -> Forall (in_range n) m -> Forall (in_range n) (edge_put lo hi w m).
Proof.
  intros H1 H2. induction 1 as [|e m He Hm IH]; cbn; [by apply Forall_singleton|].
  destruct (_ && _); constructor; auto. done.
Qed.

Lemma edge_step_range nodes m e m' :
  Forall (in_range (length nodes)) m -> edge_step (index_of nodes) m e = Ok m' ->
  Forall (in_range (length nodes)) m'.
Proof.
  intros Hm. unfold edge_step.
  destruct (find_idx _ (idKey (t_from e))) as [a| |] eqn:Ea; [| |by intros [= <-]].
  - destruct (find_idx _ (idKey (t_to e))) as [b| |] eqn:Eb; [|done|by intros [= <-]].
    apply find_idx_own in Ea, Eb. destruct (a =? b); intros [= <-]; [done|]. apply edge_put_range; [lia|lia|done].
  - destruct (find_idx _ (idKey (t_to e))); [done| |by intros [= <-]]. destruct (String.eqb _ _); [|done].
    by intros [= <-].
Qed.

Lemma simple_edges_range nodes edges m es :
  Forall (in_range (length nodes)) m -> simple_edges (index_of nodes) m edges = Ok es ->
  Forall (in_range (length nodes)) es.
Proof.
  revert m. induction edges as [|[e|] edges IH]; intros m Hm; cbn [simple_edges]; [by intros [= <-]| |by apply IH].
  destruct (edge_step (index_of nodes) m e) as [m'|] eqn:E; [|done]. cbn [bind]. apply IH. by eapply edge_step_range.
Qed.

(** A name that is a node's or that no plain object inherits. *)
Definition plain_name (nodes : list tnode) (v : value) : Prop :=
  find_idx (index_of nodes) (idKey v) ≠ Inherited.

Definition plain_edge (nodes : list tnode) (e : option tedge) : Prop :=
  match e with Some e => plain_name nodes (t_from e) /\ plain_name nodes (t_to e) | None => True end.

Lemma simple_edges_ok nodes edges m :
  Forall (plain_edge nodes) edges -> exists es, simple_edges (index_of nodes) m edges = Ok es.
Proof.
  intros H. revert m. induction H as [|[e|] edges He _ IH]; intros m; cbn [simple_edges]; [eauto| |auto].
  assert (Hs : exists m', edge_step (index_of nodes) m e = Ok m').
  { destruct He as [Hf Ht]. unfold edge_step, plain_name in *.
    destruct (find_idx _ (idKey (t_from e))) as [a| |]; [|done|eauto].
    destruct (find_idx _ (idKey (t_to e))) as [b| |]; [|done|eauto]. destruct (a =? b); eauto. }
  destruct Hs as [m' ->]. cbn [bind]. auto.
Qed.

(** ** The root *)

Lemma network_root_range ids deg i best nodes r :
  (forall b, best = Some b -> b < i) -> network_root ids deg i best nodes = Some r -> r < i + length nodes.
Proof.
  revert i best. induction nodes as [|nd nodes IH]; intros i best Hb; cbn [network_root length].
  - intros H. specialize (Hb r H). lia.
  - destruct (is_gateway nd); [intros [= <-]; lia|]. intros H. apply IH in H; [lia|].
    intros b. destruct (is_gear nd && _); [intros [= <-]; lia|]. intros E. specialize (Hb b E). lia.
Qed.

Lemma role_root_range ids role i best nodes r :
  (forall b, best = Some b -> b < i) -> role_root ids role i best nodes = Some r -> r < i + length nodes.
Proof.
  revert i best. induction nodes as [|nd nodes IH]; intros i best Hb; cbn [role_root length].
  - intros H. specialize (Hb r H). lia.
  - intros H. apply IH in H; [lia|].
    intros b. destruct (strict_eq _ _ && _); [intros [= <-]; lia|]. intros E. specialize (Hb b E). lia.
Qed.

Lemma by_id_perm ids l : by_id ids l ≡ₚ l.
Proof. apply sort_by_perm. Qed.

Lemma first_by_id_range ids n : 0 < n -> hd 0 (by_id ids (seq 0 n)) < n.
Proof.
  intros Hn. destruct (by_id ids (seq 0 n)) as [|x l] eqn:E; [done|]. cbn.
  assert (H : x ∈ seq 0 n) by (rewrite <- (by_id_perm ids), E; left). apply elem_of_seq in H. lia.
Qed.

Lemma choose_root_range o nodes adj r :
  0 < length nodes -> choose_root o (index_of nodes) nodes adj = Own r -> r < length nodes.
Proof.
  intros Hn. unfold choose_root.
  set (picked := if String.eqb _ _ then _ else _).
  assert (Hp : forall i, picked = Some i -> i < length nodes).
  { unfold picked. intros i. destruct (String.eqb _ _); [apply network_root_range; done|].
    destruct (role_root _ "server" _ _ _) eqn:E; [intros [= <-]; by apply role_root_range in E|].
    apply role_root_range. done. }
  assert (Hf : forall i, (match picked with Some i => Own i | None => Own (hd 0 (by_id (map t_id nodes) (seq 0 (length nodes)))) end)
    = Own i -> i < length nodes).
  { intros i. destruct picked; intros [= <-]; [by apply Hp|]. by apply first_by_id_range. }
  destruct (nullish (o_rootHint o)); [apply Hf|].
  destruct (find_idx _ (idKey (o_rootHint o))) eqn:E; [|done|apply Hf]. intros [= <-]. by eapply find_idx_own.
Qed.

Lemma choose_root_own o nodes adj :
  plain_name nodes (o_rootHint o) -> exists r, choose_root o (index_of nodes) nodes adj = Own r.
Proof.
  intros H. unfold choose_root, plain_name in *.
  set (picked := if String.eqb _ _ then _ else _). clearbody picked.
  destruct (nullish (o_rootHint o)); [destruct picked; eauto|].
  destruct (find_idx _ (idKey (o_rootHint o))); [eauto|done|destruct picked; eauto].
Qed.

(** ** Coordinates *)

(** Both arrays keep their length, and the node [r] its coordinates. *)
Definition sized (n : nat) (c : coords) : Prop := length (xs c) = n /\ length (ys c) = n.
Definition at_xy (c : coords) (r : nat) : num * num := (xs c !!! r, ys c !!! r).

Lemma set_xy_sized n i x y c : sized n c -> sized n (set_xy i x y c).
Proof. intros [H1 H2]. split; cbn; by rewrite length_insert. Qed.

Lemma set_xy_other r i x y c : r ≠ i -> at_xy (set_xy i x y c) r = at_xy c r.
Proof. intros H. unfold at_xy, set_xy. cbn. by rewrite !insert_total_ne. Qed.

Lemma set_xy_same n r x y c : sized n c -> r < n -> at_xy (set_xy r x y c) r = (x, y).
Proof. intros [H1 H2] H. unfold at_xy, set_xy. cbn. by rewrite !insert_total_eq by lia. Qed.

Lemma fold_set_spec n r (F : nat * nat -> num * num) l c :
  sized n c ->
  let c' := fold_left (fun c p => set_xy p.2 (F p).1 (F p).2 c) l c in
  sized n c' /\ (r ∉ map snd l -> at_xy c' r = at_xy c r) /\
  ((forall p, p ∈ l -> F p = (n0, n0)) -> r < n -> r ∈ map snd l -> at_xy c' r = (n0, n0)).
Proof.
  revert c. induction l as [|p l IH]; intros c Hs; cbn [fold_left map].
  { split; [done|]. split; [done|]. intros _ _ H. by apply not_elem_of_nil in H. }
  destruct (IH (set_xy p.2 (F p).1 (F p).2 c) (set_xy_sized _ _ _ _ _ Hs)) as (H1 & H2 & H3).
  split; [done|]. split.
  - intros [Hne Hn]%not_elem_of_cons. rewrite H2 by done. by apply set_xy_other.
  - intros HF Hr Hin. destruct (decide (r ∈ map snd l)) as [Hd|Hd].
    + apply H3; [|done|done]. intros q Hq. apply HF. by right.
    + apply elem_of_cons in Hin as [->|Hin]; [|done]. rewrite H2 by done.
      rewrite (HF p) by left. by apply (set_xy_same n).
Qed.

Lemma snd_imap_pair (l : list nat) : map snd (imap pair l) = l.
Proof.
  change (map snd (imap pair l)) with (snd <$> imap pair l). rewrite fmap_imap.
  rewrite <- (list_fmap_id l) at 2. rewrite <- imap_const. done.
Qed.

Lemma place_spec n r pos group c :
  sized n c ->
  sized n (place pos group c) /\ (r ∉ group -> at_xy (place pos group c) r = at_xy c r) /\
  ((forall g i, pos g i = (n0, n0)) -> r < n -> r ∈ group -> at_xy (place pos group c) r = (n0, n0)).
Proof.
  intros Hs. unfold place.
  destruct (fold_set_spec n r (fun p => pos p.1 p.2) (imap pair group) c Hs) as (H1 & H2 & H3).
  rewrite snd_imap_pair in *. split; [done|]. split; [done|]. intros Hp Hr Hin. apply H3; auto.
Qed.

Lemma group_at_elem ids depth d i : i ∈ group_at ids depth d <-> i < length depth /\ depth !!! i = d.
Proof.
  unfold group_at. rewrite by_id_perm, list_elem_of_In, filter_In, in_seq, Z.eqb_eq. split; intros [? ?]; (split; [lia|done]).
Qed.

Section PlaceProofs.
Context (cosf sinf : num -> num).

(** The radial placement puts the node at depth 0 at the origin. *)
Lemma radial_spec ids depth r :
  sized (length depth) (radial cosf sinf ids depth) /\
  (r < length depth -> depth !!! r = 0%Z -> at_xy (radial cosf sinf ids depth) r = (n0, n0)).
Proof.
  unfold radial. set (n := length depth). set (c0 := Coords (replicate n nan) (replicate n nan)).
  assert (Hs0 : sized n c0) by (split; apply length_replicate).
  set (step := fun c di => place_group cosf sinf di (group_at ids depth (Z.of_nat di)) c).
  assert (Hone : forall c di, sized n c -> sized n (step c di) /\
    (r < n -> depth !!! r = 0%Z -> at_xy (step c di) r = if (di =? 0)%nat then (n0, n0) else at_xy c r)).
  { intros c di Hs. unfold step, place_group.
    destruct (place_spec n r (ring_pos cosf sinf di (length (group_at ids depth (Z.of_nat di))))
      (group_at ids depth (Z.of_nat di)) c Hs) as (H1 & H2 & H3). split; [done|].
    intros Hr Hd. destruct (Nat.eqb_spec di 0) as [->|Hne].
    - apply H3; [done|done|]. by apply group_at_elem.
    - apply H2. intros [_ E]%group_at_elem. rewrite Hd in E. lia. }
  assert (Hall : forall l c, sized n c -> sized n (fold_left step l c) /\
    (r < n -> depth !!! r = 0%Z -> 0 ∉ l -> at_xy (fold_left step l c) r = at_xy c r)).
  { induction l as [|di l IH]; intros c Hs; [done|]. cbn [fold_left].
    destruct (Hone c di Hs) as [H1 H2]. destruct (IH _ H1) as [H3 H4]. split; [done|].
    intros Hr Hd [Hne Hn]%not_elem_of_cons. rewrite H4, H2 by done.
    by rewrite (proj2 (Nat.eqb_neq di 0)) by done. }
  cbn [seq fold_left]. destruct (Hone c0 0 Hs0) as [H1 H2]. destruct (Hall (seq 1 (Z.to_nat (maxDepth depth))) _ H1) as [H3 H4].
  change (fold_left (fun c di => place_group cosf sinf di (group_at ids depth (Z.of_nat di)) c)) with (fold_left step).
  change (place_group cosf sinf 0 (group_at ids depth (Z.of_nat 0)) c0) with (step c0 0).
  set (disc := by_id ids _).
  destruct (place_spec n r (outer_pos cosf sinf (nmul (ofN (Z.to_nat (maxDepth depth) + 2)) RADIUS_STEP) (length disc))
    disc (fold_left step (seq 1 (Z.to_nat (maxDepth depth))) (step c0 0)) H3) as (H5 & H6 & _).
  split; [exact H5|]. intros Hr Hd. unfold place_outer. rewrite H6, H4, H2; try done.
  - rewrite elem_of_seq. lia.
  - unfold disc. rewrite by_id_perm, list_elem_of_In, filter_In. intros [_ E]. rewrite Hd in E. done.
Qed.
End PlaceProofs.

(** ** Refinement *)

Lemma move_keeps n root temp d c i :
  sized n c -> sized n (move root temp d c i) /\ at_xy (move root temp d c i) root = at_xy c root.
Proof.
  intros [H1 H2]. unfold move. destruct (Nat.eqb_spec i root) as [|Hne]; [done|].
  destruct (nlt _ _); [done|]. unfold at_xy, bump. cbn [xs ys].
  split; [split; cbn; by rewrite length_insert|]. by rewrite !insert_total_ne by done.
Qed.

Lemma moves_keep n root temp d l c :
  sized n c -> sized n (fold_left (move root temp d) l c) /\ at_xy (fold_left (move root temp d) l c) root = at_xy c root.
Proof.
  revert c. induction l as [|i l IH]; intros c H; [done|]. cbn [fold_left].
  destruct (move_keeps n root temp d c i H) as [H1 H2]. destruct (IH _ H1) as [H3 H4]. split; [done|congruence].
Qed.

(** The refinement never moves the root. *)
Lemma forceRefine_keeps n root es iters c :
  sized n c -> sized n (forceRefine n root c es iters) /\ at_xy (forceRefine n root c es iters) root = at_xy c root.
Proof.
  intros H. unfold forceRefine. destruct (n <? 2); [done|]. set (kk := nsqrt _). clearbody kk.
  generalize (seq 0 iters) as l. intros l. revert c H. induction l as [|k l IH]; intros c H; [done|].
  cbn [fold_left].
  assert (Hk : sized n (force_iter n root es kk iters c k) /\ at_xy (force_iter n root es kk iters c k) root = at_xy c root)
    by (by apply moves_keep).
  destruct Hk as [H1 H2]. destruct (IH _ H1) as [H3 H4]. split; [done|]. by rewrite H4.
Qed.

(** ** Assembly *)

Lemma finite0_finite x : is_finite (finite0 x) = true.
Proof. unfold finite0. by destruct (is_finite x) eqn:E. Qed.

Definition in_bounds (b : bounds) (xy : num * num) : Prop :=
  is_finite xy.1 = true /\ is_finite xy.2 = true /\
  nle (minX b) xy.1 = true /\ nle xy.1 (maxX b) = true /\ nle (minY b) xy.2 = true /\ nle xy.2 (maxY b) = true.

(** No bound is NaN; once a node was placed all are finite. *)
Definition bounds_ok (some : bool) (b : bounds) : Prop :=
  (is_nan (minX b) = false /\ is_nan (minY b) = false /\ is_nan (maxX b) = false /\ is_nan (maxY b) = false) /\
  (some = true -> is_finite (minX b) = true).

Lemma lower_step x lo :
  is_finite x = true -> is_nan lo = false ->
  let lo' := if nlt x lo then x else lo in
  is_nan lo' = false /\ nle lo' x = true /\ nle lo' lo = true /\ (lo = inf \/ is_finite lo = true -> is_finite lo' = true).
Proof.
  intros Hx Hl lo'. pose proof (is_finite_not_nan x Hx) as Hxn. unfold lo'. destruct (nlt x lo) eqn:E.
  - split; [done|]. split; [auto with js|]. split; [auto with js|]. done.
  - split; [done|]. split; [auto with js|]. split; [auto with js|]. intros [->|H]; [|done].
    destruct x as [|[]| |[]]; done.
Qed.

Lemma upper_step x hi :
  is_finite x = true -> is_nan hi = false ->
  let hi' := if ngt x hi then x else hi in
  is_nan hi' = false /\ nle x hi' = true /\ nle hi hi' = true.
Proof.
  intros Hx Hh hi'. pose proof (is_finite_not_nan x Hx) as Hxn. unfold hi', ngt. change (SFltb hi x) with (nlt hi x).
  destruct (nlt hi x) eqn:E; auto with js.
Qed.

Lemma set_pos_elem id xy pos p :
  p ∈ map snd (set_pos id xy pos) -> p = xy \/ p ∈ map snd pos.
Proof.
  unfold set_pos. destruct (String.eqb _ _); [auto|]. generalize (idKey id). intros k.
  induction pos as [|[k' q] pos IH]; cbn.
  - rewrite list_elem_of_singleton. auto.
  - destruct (String.eqb k k'); cbn; rewrite !elem_of_cons; naive_solver.
Qed.

Lemma in_bounds_widen b b' xy :
  bounds_ok false b -> bounds_ok false b' ->
  nle (minX b') (minX b) = true -> nle (maxX b) (maxX b') = true ->
  nle (minY b') (minY b) = true -> nle (maxY b) (maxY b') = true ->
  in_bounds b xy -> in_bounds b' xy.
Proof.
  intros [(A1 & A2 & A3 & A4) _] [(B1 & B2 & B3 & B4) _] H1 H2 H3 H4 (F1 & F2 & C1 & C2 & C3 & C4).
  pose proof (is_finite_not_nan _ F1). pose proof (is_finite_not_nan _ F2).
  split; [done|]. split; [done|]. split; [by eapply nle_trans; [..|exact H1|exact C1]|].
  split; [by eapply nle_trans; [..|exact C2|exact H2]|]. split; [by eapply nle_trans; [..|exact H3|exact C3]|].
  by eapply nle_trans; [..|exact C4|exact H4].
Qed.

(** One node: the bounds widen to include it. *)
Lemma assemble_step_spec some acc p :
  bounds_ok some acc.2 -> (some = false -> minX acc.2 = inf) ->
  (forall xy, xy ∈ map snd acc.1 -> in_bounds acc.2 xy) ->
  let acc' := assemble_step acc p in
  bounds_ok true acc'.2 /\ (forall xy, xy ∈ map snd acc'.1 -> in_bounds acc'.2 xy).
Proof.
  destruct acc as [pos b], p as [id [x0 y0]]. intros [(A1 & A2 & A3 & A4) A5] Hinf Hin acc'. cbn [fst snd] in A1, A2, A3, A4, A5, Hinf, Hin.
  set (x := finite0 x0) in *. set (y := finite0 y0) in *.
  pose proof (finite0_finite x0) as Fx. pose proof (finite0_finite y0) as Fy. fold x in Fx. fold y in Fy.
  destruct (lower_step x (minX b) Fx A1) as (L1 & L2 & L3 & L4).
  destruct (lower_step y (minY b) Fy A2) as (M1 & M2 & M3 & _).
  destruct (upper_step x (maxX b) Fx A3) as (U1 & U2 & U3).
  destruct (upper_step y (maxY b) Fy A4) as (V1 & V2 & V3).
  unfold acc', assemble_step. fold x. fold y. cbn [fst snd].
  assert (Hfin : is_finite (if nlt x (minX b) then x else minX b) = true).
  { apply L4. destruct some; [right; by apply A5|left; by apply Hinf]. }
  split; [split; [done|]; intros _; exact Hfin|].
  intros xy Hxy. apply set_pos_elem in Hxy as [->|Hxy]; [done|].
  eapply (in_bounds_widen b); [done|done|done|done|done|done|]. by apply Hin.
Qed.

Lemma assemble_fold_spec l some acc :
  bounds_ok some acc.2 -> (some = false -> minX acc.2 = inf) ->
  (forall xy, xy ∈ map snd acc.1 -> in_bounds acc.2 xy) ->
  let acc' := fold_left assemble_step l acc in
  (l ≠ [] -> bounds_ok true acc'.2) /\ (forall xy, xy ∈ map snd acc'.1 -> in_bounds acc'.2 xy).
Proof.
  revert some acc. induction l as [|p l IH]; intros some acc H1 H2 H3; [done|]. cbn [fold_left].
  destruct (assemble_step_spec some acc p H1 H2 H3) as [H4 H5].
  destruct (IH true (assemble_step acc p) H4) as [H6 H7]; [done|done|].
  split; [|done]. intros _. destruct l; [done|]. by apply H6.
Qed.

Lemma assemble_bounds ids c :
  zip ids (zip (xs c) (ys c)) ≠ [] ->
  forall xy, xy ∈ map snd (assemble ids c).1 -> in_bounds (assemble ids c).2 xy.
Proof.
  intros Hne. unfold assemble. set (l := zip ids (zip (xs c) (ys c))) in *.
  destruct (assemble_fold_spec l false ([], Bounds inf inf ninf ninf)) as [H1 H2].
  - split; [done|]. done.
  - done.
  - intros xy Hin. by apply not_elem_of_nil in Hin.
  - destruct (fold_left assemble_step l _) as [pos b]. cbn [fst snd] in *.
    destruct (H1 Hne) as [_ Hf]. by rewrite Hf.
Qed.

(** The position stored under a key is that of the last node with it. *)
Lemma assemble_fold_assoc l acc k :
  k ≠ "__proto__" ->
  assoc k (fold_left assemble_step l acc).1 =
  fold_left (fun r (p : value * (num * num)) =>
    if String.eqb k (idKey p.1) then Some (finite0 p.2.1, finite0 p.2.2) else r) l (assoc k acc.1).
Proof.
  intros Hk. revert acc. induction l as [|[id [x y]] l IH]; intros [pos b]; [done|]. cbn [fold_left].
  rewrite IH. f_equal. cbn [assemble_step fst snd]. unfold set_pos.
  destruct (String.eqb_spec (idKey id) "__proto__") as [E|Hne].
  - destruct (String.eqb_spec k (idKey id)); [congruence|done].
  - destruct (String.eqb_spec k (idKey id)) as [->|Hn]; [apply assoc_set_same|by apply assoc_set_other].
Qed.

(** ** The depth of the root *)

Lemma visits_keep cur nbrs depth queue v :
  visited depth v -> (fold_left (visit cur) nbrs (depth, queue)).1 !!! v = depth !!! v.
Proof.
  revert depth queue. induction nbrs as [|nb nbrs IH]; intros depth queue Hv; [done|]. cbn [fold_left].
  unfold visit at 2. case_decide as E; [|auto].
  assert (Hne : nb ≠ v) by (intros ->; done).
  rewrite IH; [by rewrite insert_total_ne|]. unfold visited. by rewrite insert_total_ne.
Qed.

Lemma bfs_loop_keeps fuel adj depth queue v :
  visited depth v -> bfs_loop fuel adj depth queue !!! v = depth !!! v.
Proof.
  revert depth queue. induction fuel as [|fuel IH]; intros depth [|cur queue] Hv; try done. cbn [bfs_loop].
  pose proof (visits_keep cur (adj !!! cur) depth queue v Hv) as H.
  destruct (fold_left (visit cur) (adj !!! cur) (depth, queue)) as [d q]. cbn [fst] in H.
  rewrite IH; [done|]. unfold visited. by rewrite H.
Qed.

Lemma bfs_root n root adj : root < n -> bfs n root adj !!! root = 0%Z.
Proof.
  intros Hr. unfold bfs.
  assert (E : <[root := 0%Z]> (replicate n (-1)%Z) !!! root = 0%Z).
  { rewrite insert_total_eq; [done|]. by rewrite length_replicate. }
  rewrite bfs_loop_keeps; [done|]. unfold visited. by rewrite E.
Qed.

Lemma bfs_loop_length fuel adj depth queue : length (bfs_loop fuel adj depth queue) = length depth.
Proof.
  assert (Hv : forall (cur : nat) (nbrs : list nat) (st : list Z * list nat), length (fold_left (visit cur) nbrs st).1 = length st.1).
  { intros cur. induction nbrs as [|nb nbrs IH]; intros [d q]; [done|]. cbn [fold_left]. rewrite IH.
    unfold visit. case_decide; [by cbn; rewrite length_insert|done]. }
  revert depth queue. induction fuel as [|fuel IH]; intros depth [|cur queue]; try done. cbn [bfs_loop].
  specialize (Hv cur (adj !!! cur) (depth, queue)). destruct (fold_left _ _ _) as [d q]. cbn in Hv. by rewrite IH.
Qed.

Lemma bfs_length n root adj : length (bfs n root adj) = n.
Proof. unfold bfs. by rewrite bfs_loop_length, length_insert, length_replicate. Qed.

(** ** Properties *)

(** The coordinates [compute] assembles. *)
Definition final_coords (cosf sinf : num -> num) (iters : nat) (nodes : list tnode) (es : list uedge) (root : nat) : coords :=
  let n := length nodes in
  let tree := mst n (map t_id nodes) es in
  forceRefine n root
    (radial cosf sinf (map t_id nodes)
       (if (length tree =? 0)%nat then bfs n root (adjacency n es) else bfs n root (adjacency n tree))) es iters.

Lemma compute_eq cosf sinf iters nodes edges o es root :
  2 <= length nodes -> simple_edges (index_of nodes) [] edges = Ok es ->
  choose_root o (index_of nodes) nodes (adjacency (length nodes) es) = Own root ->
  compute cosf sinf iters nodes edges o
  = Ok (assemble (map t_id nodes) (final_coords cosf sinf iters nodes es root)).
Proof.
  intros Hn He Hr. unfold compute, final_coords. destruct nodes as [|a [|b nodes]]; [cbn in Hn; lia|cbn in Hn; lia|].
  rewrite He. cbn [bind]. by rewrite Hr.
Qed.

Lemma final_coords_spec cosf sinf iters nodes es root :
  root < length nodes ->
  sized (length nodes) (final_coords cosf sinf iters nodes es root) /\
  at_xy (final_coords cosf sinf iters nodes es root) root = (n0, n0).
Proof.
  intros Hr. unfold final_coords. cbv zeta. set (depth := if (_ =? _)%nat then _ else _ : list Z).
  assert (Hd : length depth = length nodes /\ depth !!! root = 0%Z).
  { unfold depth. destruct (_ =? 0); by rewrite bfs_length, bfs_root. }
  destruct Hd as [Hl H0]. destruct (radial_spec cosf sinf (map t_id nodes) depth root) as [H1 H2].
  rewrite Hl in H1, H2.
  destruct (forceRefine_keeps (length nodes) root es iters _ H1) as [H3 H4].
  split; [done|]. rewrite H4. by apply H2.
Qed.

Lemma fold_last_some k (l : list (value * (num * num))) r :
  (is_Some r \/ exists p, p ∈ l /\ idKey p.1 = k) ->
  is_Some (fold_left (fun r (p : value * (num * num)) =>
    if String.eqb k (idKey p.1) then Some (finite0 p.2.1, finite0 p.2.2) else r) l r).
Proof.
  revert r. induction l as [|p l IH]; intros r H.
  - destruct H as [H|(p & Hp & _)]; [done|]. by apply not_elem_of_nil in Hp.
  - cbn [fold_left]. apply IH. destruct (String.eqb_spec k (idKey p.1)) as [->|Hne]; [left; eauto|].
    destruct H as [H|(q & [->|Hq]%elem_of_cons & E)]; [by left|congruence|]. right. eauto.
Qed.

Lemma fold_last_unique k (l : list (value * (num * num))) r i p :
  l !! i = Some p -> idKey p.1 = k -> (forall j q, l !! j = Some q -> idKey q.1 = k -> j = i) ->
  fold_left (fun r (p : value * (num * num)) =>
    if String.eqb k (idKey p.1) then Some (finite0 p.2.1, finite0 p.2.2) else r) l r
  = Some (finite0 p.2.1, finite0 p.2.2).
Proof.
  assert (Hskip : forall l r, (forall q, q ∈ l -> idKey q.1 ≠ k) ->
    fold_left (fun r (p : value * (num * num)) =>
      if String.eqb k (idKey p.1) then Some (finite0 p.2.1, finite0 p.2.2) else r) l r = r).
  { clear. induction l as [|q l IH]; intros r H; [done|]. cbn [fold_left].
    destruct (String.eqb_spec k (idKey q.1)) as [E|]; [exfalso; apply (H q); [left|done]|].
    apply IH. intros q' Hq'. apply H. by right. }
  revert i r. induction l as [|q l IH]; intros i r Hl Hk Hu; [done|]. cbn [fold_left]. destruct i as [|i].
  - injection Hl as ->. rewrite (proj2 (String.eqb_eq k (idKey p.1))) by done. apply Hskip.
    intros q [j Hj]%list_elem_of_lookup_1 E. specialize (Hu (S j) q Hj E). lia.
  - apply (IH i); [done|done|]. intros j q' Hj E. specialize (Hu (S j) q' Hj E). lia.
Qed.

(** C7: every node is placed, finitely and inside the bounds.  For any graph whose
    edge endpoints and root hint are not names that every object inherits, the
    layout returns; each node has a position under its id, every coordinate is a
    finite number, and the bounds contain them all. *)
Theorem layout_places_every_node (cosf sinf : num -> num) (iters : nat) (nodes : list tnode)
    (edges : list (option tedge)) (o : topts) :
  2 <= length nodes -> Forall (plain_edge nodes) edges -> plain_name nodes (o_rootHint o) ->
  exists pos b, compute cosf sinf iters nodes edges o = Ok (pos, b) /\
    (forall nd, nd ∈ nodes -> idKey (t_id nd) ≠ "__proto__" -> exists xy, assoc (idKey (t_id nd)) pos = Some xy) /\
    (forall xy, xy ∈ map snd pos -> in_bounds b xy).
Proof.
  intros Hn He Ho. destruct (simple_edges_ok nodes edges [] He) as [es Hes].
  destruct (choose_root_own o nodes (adjacency (length nodes) es) Ho) as [root Hr].
  pose proof (choose_root_range o nodes _ root ltac:(lia) Hr) as Hrn.
  destruct (final_coords_spec cosf sinf iters nodes es root Hrn) as [[Hx Hy] _].
  rewrite (compute_eq cosf sinf iters nodes edges o es root Hn Hes Hr).
  set (c := final_coords cosf sinf iters nodes es root) in *. clearbody c.
  assert (Hz : map fst (zip (map t_id nodes) (zip (xs c) (ys c))) = map t_id nodes).
  { apply fst_zip. rewrite length_map, length_zip. lia. }
  exists (assemble (map t_id nodes) c).1, (assemble (map t_id nodes) c).2.
  split; [by destruct (assemble _ c)|]. split.
  - intros nd Hnd Hk. unfold assemble.
    pose proof (assemble_fold_assoc (zip (map t_id nodes) (zip (xs c) (ys c))) ([], Bounds inf inf ninf ninf)
                  (idKey (t_id nd)) Hk) as Ha.
    destruct (fold_left assemble_step _ _) as [pos b]. cbn [fst] in *. rewrite Ha.
    apply fold_last_some. right.
    assert (Hin : t_id nd ∈ map fst (zip (map t_id nodes) (zip (xs c) (ys c))))
      by (rewrite Hz; apply list_elem_of_In, in_map, list_elem_of_In, Hnd).
    rewrite list_elem_of_In, in_map_iff in Hin. destruct Hin as (p & E & Hp%list_elem_of_In). exists p. by rewrite E.
  - apply assemble_bounds. intros E. rewrite E in Hz. destruct nodes; [cbn in Hn; lia|done].
Qed.

(** The root of the layout is at the origin.  With distinct ids, the node the
    layout chose as its root ends at (0, 0), whatever the forces were. *)
Theorem layout_root_at_origin (cosf sinf : num -> num) (iters : nat) (nodes : list tnode)
    (edges : list (option tedge)) (o : topts) (es : list uedge) (root : nat) (nd : tnode) :
  2 <= length nodes -> NoDup (map (fun nd => idKey (t_id nd)) nodes) ->
  simple_edges (index_of nodes) [] edges = Ok es ->
  choose_root o (index_of nodes) nodes (adjacency (length nodes) es) = Own root ->
  nodes !! root = Some nd -> idKey (t_id nd) ≠ "__proto__" ->
  exists pos b, compute cosf sinf iters nodes edges o = Ok (pos, b) /\
    assoc (idKey (t_id nd)) pos = Some (n0, n0).
Proof.
  intros Hn Hnd Hes Hr Hl Hk. pose proof (lookup_lt_Some _ _ _ Hl) as Hrn.
  destruct (final_coords_spec cosf sinf iters nodes es root Hrn) as [[Hx Hy] Hat].
  rewrite (compute_eq cosf sinf iters nodes edges o es root Hn Hes Hr).
  set (c := final_coords cosf sinf iters nodes es root) in *. clearbody c.
  exists (assemble (map t_id nodes) c).1, (assemble (map t_id nodes) c).2.
  split; [by destruct (assemble _ c)|]. unfold assemble.
  pose proof (assemble_fold_assoc (zip (map t_id nodes) (zip (xs c) (ys c))) ([], Bounds inf inf ninf ninf)
                (idKey (t_id nd)) Hk) as Ha.
  destruct (fold_left assemble_step _ _) as [pos b]. cbn [fst] in *. rewrite Ha. clear Ha.
  unfold at_xy in Hat. injection Hat as Hxr Hyr.
  assert (Hz : zip (map t_id nodes) (zip (xs c) (ys c)) !! root = Some (t_id nd, (n0, n0))).
  { apply lookup_zip_Some. split; [by rewrite list_lookup_fmap, Hl|]. apply lookup_zip_Some. split.
    - rewrite <- Hxr. apply list_lookup_lookup_total_lt. lia.
    - rewrite <- Hyr. apply list_lookup_lookup_total_lt. lia. }
  rewrite (fold_last_unique _ _ _ root _ Hz eq_refl); [done|].
  intros j q Hj E. destruct q as [id xy]. apply lookup_zip_Some in Hj as [Hj _].
  rewrite list_lookup_fmap in Hj. destruct (nodes !! j) as [nd'|] eqn:Ej; [|done]. injection Hj as <-. cbn [fst] in E.
  eapply (NoDup_lookup _ _ _ _ Hnd); [rewrite list_lookup_fmap, Ej; exact (f_equal Some E)|by rewrite list_lookup_fmap, Hl].
Qed.

(** C38: the rings follow the connectivity of the graph.  The spanning tree has no
    cycle and connects exactly the nodes the edges connect; and in the depths the
    layout uses, over the tree or, when that is empty, over the whole graph, a node
    has a depth (rather than a place on the outer ring) exactly when a path of
    edges leads to it from the root.  The loops' fuel is always enough. *)
Theorem layout_rings_follow_connectivity (nodes : list tnode) (edges : list (option tedge))
    (es : list uedge) (root : nat) :
  simple_edges (index_of nodes) [] edges = Ok es -> root < length nodes ->
  let n := length nodes in
  let tree := mst n (map t_id nodes) es in
  let depth := if (length tree =? 0)%nat then bfs n root (adjacency n es) else bfs n root (adjacency n tree) in
  forest tree /\ (forall x y, conn tree x y <-> conn es x y) /\
  (forall v, v < n -> (0 <= depth !!! v)%Z <-> conn es root v).
Proof.
  intros Hes Hr n tree.
  assert (Hra : Forall (in_range n) es) by (by eapply simple_edges_range; [constructor|]).
  destruct (mst_spec n (map t_id nodes) es ltac:(unfold n; lia) Hra) as (H1 & H2 & H3). fold tree in H1, H2, H3.
  assert (Hb : forall g v, Forall (in_range n) g -> v < n ->
    (0 <= bfs n root (adjacency n g) !!! v)%Z <-> conn g root v).
  { intros g v Hg Hv. destruct (adjacency_spec n g Hg) as [_ Ha].
    destruct (bfs_spec n root (adjacency n g) g Ha Hg Hr) as [[_ Hd] Hc].
    rewrite <- (Hc v Hv). unfold visited. destruct (Hd v Hv); lia. }
  split; [done|]. split; [done|]. intros v Hv.
  destruct (length tree =? 0); rewrite Hb by done; [done|apply H3].
Qed.

(** ** Witnesses *)

(** A gateway with a switch behind it, and a camera with no link. *)
Definition demo_nodes : list tnode :=
  [TNode (VStr "sw") (VStr "gear") (VStr "switch") VUndef;
   TNode (VStr "gw") (VStr "gear") (VStr "gateway") VUndef;
   TNode (VStr "cam") (VStr "host") VUndef VUndef].

Definition demo_edges : list (option tedge) :=
  [None; Some (TEdge (VStr "gw") (VStr "sw") (VStr "uplink")); Some (TEdge (VStr "gw") (VStr "ghost") (VStr "uplink"))].

Definition demo_opts : topts := TOpts VUndef (VStr "network").

Lemma layout_places_every_node_witness :
  exists pos b, compute (fun x => x) (fun x => x) 1 demo_nodes demo_edges demo_opts = Ok (pos, b) /\
    (forall nd, nd ∈ demo_nodes -> idKey (t_id nd) ≠ "__proto__" -> exists xy, assoc (idKey (t_id nd)) pos = Some xy) /\
    (forall xy, xy ∈ map snd pos -> in_bounds b xy).
Proof.
  apply (layout_places_every_node (fun x => x) (fun x => x) 1 demo_nodes demo_edges demo_opts).
  - cbn. lia.
  - repeat (apply Forall_cons_2 || apply Forall_nil_2); [exact I|split; discriminate|split; discriminate].
  - discriminate.
Defined.

Lemma layout_root_at_origin_witness :
  exists pos b, compute (fun x => x) (fun x => x) 1 demo_nodes demo_edges demo_opts = Ok (pos, b) /\
    assoc "gw" pos = Some (n0, n0).
Proof.
  apply (layout_root_at_origin (fun x => x) (fun x => x) 1 demo_nodes demo_edges demo_opts [UEdge 0 1 1] 1
           (TNode (VStr "gw") (VStr "gear") (VStr "gateway") VUndef)).
  - cbn. lia.
  - apply (bool_decide_unpack _). reflexivity.
  - reflexivity.
  - reflexivity.
  - reflexivity.
  - discriminate.
Defined.

Lemma layout_rings_follow_connectivity_witness :
  let tree := mst 3 (map t_id demo_nodes) [UEdge 0 1 1] in
  let depth := if (length tree =? 0)%nat then bfs 3 1 (adjacency 3 [UEdge 0 1 1]) else bfs 3 1 (adjacency 3 tree) in
  forest tree /\ (forall x y, conn tree x y <-> conn [UEdge 0 1 1] x y) /\
  (forall v, v < 3 -> (0 <= depth !!! v)%Z <-> conn [UEdge 0 1 1] 1 v).
Proof.
  apply (layout_rings_follow_connectivity demo_nodes demo_edges [UEdge 0 1 1] 1).
  - reflexivity.
  - cbn. lia.
Defined.

(** One edge can lose the whole map.  When an endpoint that is not a node is
    named like a member every object inherits ("constructor", "toString", ...) and
    the other endpoint is a node, the layout throws instead of skipping the edge. *)
Theorem inherited_endpoint_breaks_layout (cosf sinf : num -> num) (iters : nat) (nodes : list tnode)
    (before after : list (option tedge)) (e : tedge) (a : nat) (o : topts) :
  2 <= length nodes -> find_idx (index_of nodes) (idKey (t_from e)) = Own a ->
  find_idx (index_of nodes) (idKey (t_to e)) = Inherited ->
  Forall (plain_edge nodes) before ->
  compute cosf sinf iters nodes (before ++ Some e :: after) o = Throw TypeError.
Proof.
  intros Hn Hf Ht Hb.
  assert (Hs : simple_edges (index_of nodes) [] (before ++ Some e :: after) = Throw TypeError).
  { revert Hb. generalize (@nil uedge) as m. induction before as [|[e'|] before IH]; intros m Hb; cbn [app simple_edges].
    - unfold edge_step. by rewrite Hf, Ht.
    - apply Forall_cons in Hb as [He Hb]. destruct (simple_edges_ok nodes [Some e'] m) as [es E]; [by apply Forall_singleton|].
      cbn [simple_edges] in E. destruct (edge_step _ m e') as [m'|]; [|done]. cbn [bind]. by apply IH.
    - apply Forall_cons in Hb as [_ Hb]. by apply IH. }
  unfold compute. destruct nodes as [|x [|y nodes]]; [cbn in Hn; lia|cbn in Hn; lia|]. by rewrite Hs.
Qed.

Lemma inherited_endpoint_breaks_layout_witness :
  compute (fun x => x) (fun x => x) 1 demo_nodes [Some (TEdge (VStr "gw") (VStr "constructor") (VStr "uplink"))] demo_opts
  = Throw TypeError.
Proof.
  apply (inherited_endpoint_breaks_layout (fun x => x) (fun x => x) 1 demo_nodes [] []
           (TEdge (VStr "gw") (VStr "constructor") (VStr "uplink")) 1 demo_opts).
  - cbn. lia.
  - reflexivity.
  - reflexivity.
  - apply Forall_nil_2.
Defined.
