(* ===== verification/PanelCfg.v ===== *)
(** * The panel page's wire formats (screens-panel.jsx)

    The command arguments of the per-screen controls, the decoder of the
    configuration the panel reports about itself, the role gate, and the small
    conversions of time and brightness.  [Date.parse] is a parameter: for a text
    that is not an ISO date it is the host's. *)

From Stdlib Require Import ZArith Lia Ascii.
From Corelib Require Import SpecFloat.
From stdpp Require Import strings pretty list.
From S2P Require Import Prelude JsNum JsValue Mappers.

Local Open Scope string_scope.
Local Open Scope list_scope.
Local Open Scope Z_scope.

(** ** Numbers *)

(** [num(v)]: a finite number, 0 for anything else. *)
Definition numOf (v : value) : num := let n := vnum v in if is_finite n then n else n0.

Definition clamp01 (v : num) : num := if nlt v n0 then n0 else if ngt v (ofZ 1) then ofZ 1 else v.

(** [ri(v)]: [Math.floor(v + 0.5)]. *)
Definition ri (v : num) : num := nfloor (nadd v (lit 5 1)).

(** [1e11]: above it an epoch is in milliseconds, below in seconds. *)
Definition MS_EPOCH : num := ofZ 100000000000.

Definition sampleMs (d : value) : num :=
  let ts := numOf (fld d "ts") in if ngt ts MS_EPOCH then ts else nmul ts (ofZ 1000).

(** ** Commands *)

Definition CMD_theme := 1.
Definition CMD_screen := 2.
Definition CMD_brightness := 3.
Definition CMD_autoBright := 4.
Definition CMD_ack := 5.
Definition CMD_dwell := 6.
Definition CMD_sleep := 7.
Definition CMD_screenEn := 8.
Definition CMD_screenWt := 9.

Definition CMD_EXPIRY_MS := 120000.
Definition CMD_GIVEUP_MS := 130000.
Definition N_SCREENS : nat := 16.

(** [CMD_GROUP[kind]]; [None] is [undefined]. *)
Definition CMD_GROUP (kind : Z) : option string :=
  match kind with
  | 1 => Some "theme" | 2 => Some "screen" | 3 => Some "brightness" | 4 => Some "brightness"
  | 5 => Some "ack" | 6 => Some "dwell" | 7 => Some "sleep" | _ => None
  end.

Definition CMD_LABEL (kind : Z) : option string :=
  match kind with
  | 1 => Some "theme" | 2 => Some "screen" | 3 => Some "brightness" | 4 => Some "auto-brightness"
  | 5 => Some "acknowledge" | 6 => Some "dwell" | 7 => Some "sleep/wake" | _ => None
  end.

Definition SCREEN_IDS : list string :=
  ["A0"; "A1"; "A2"; "A3"; "B0"; "B1"; "B2"; "B3"; "C0"; "C1"; "C2"; "C3"; "D0"; "D1"; "D2"; "D3"].

(** [SCREENS[i]], read at an integer. *)
Definition screen_id (i : Z) : option string := if i <? 0 then None else SCREEN_IDS !! Z.to_nat i.

(** The codes of [WEIGHTS] with their labels. *)
Definition WEIGHTS : list (Z * string) :=
  [(0, "¼×"); (1, "½×"); (2, "1×"); (3, "2×"); (4, "5×"); (5, "10×")].

Fixpoint weight_in (code : Z) (l : list (Z * string)) : option string :=
  match l with
  | [] => None
  | (c, label) :: r => if c =? code then Some label else weight_in code r
  end.

Definition weightLabel (code : Z) : option string := weight_in code WEIGHTS.

Definition packScreenEn (idx : Z) (enabled : bool) : Z := or32 (shl32 idx 1) (if enabled then 1 else 0).
Definition packScreenWt (idx code : Z) : Z := or32 (shl32 idx 3) (and32 code 7).

(** A number in a text. *)
Definition zstr (z : Z) : string := num_str (ofZ z).

Definition cmdGroup (kind arg : Z) : option string :=
  if kind =? CMD_screenEn then Some ("screenEn:" +:+ zstr (shr32 arg 1))
  else if kind =? CMD_screenWt then Some ("screenWt:" +:+ zstr (shr32 arg 3))
  else CMD_GROUP kind.

Definition screen_name (i : Z) : string :=
  match screen_id i with Some s => s | None => "screen " +:+ zstr i end.

Definition cmdLabel (kind arg : Z) : string :=
  if kind =? CMD_screenEn then screen_name (shr32 arg 1) +:+ " enable"
  else if kind =? CMD_screenWt then screen_name (shr32 arg 3) +:+ " weight"
  else default "command" (CMD_LABEL kind).

(** ** The reported configuration *)

Record scfg := SCfg { enabled : bool; weightCode : Z }.

#[export] Instance scfg_eq_dec : EqDecision scfg.
Proof. solve_decision. Defined.

(** [!isFinite(v) || v < 0 || v > hi || Math.floor(v) !== v], negated. *)
Definition int_upto (hi : Z) (v : num) : bool :=
  is_finite v && negb (nlt v n0) && negb (ngt v (ofZ hi)) && nequ (nfloor v) v.

Definition decodeScreenByte (b : value) : option scfg :=
  let v := vnum b in
  if int_upto 255 v then
    let code := and32 (shr32 (toInt32 v) 1) 7 in
    if 5 <? code then None else Some (SCfg (and32 (toInt32 v) 1 =? 1) code)
  else None.

Definition decodeScreenEntry (e : value) : option scfg :=
  match e with
  | VUndef | VNull => None
  | VNum _ => decodeScreenByte e
  | VArr _ | VObj _ =>
      let code := vnum (v_nn (fld e "weightCode") (fld e "weight")) in
      if int_upto 5 code then
        if is_bool (fld e "enabled") || is_num (fld e "enabled")
        then Some (SCfg (truthy (fld e "enabled")) (truncZ code)) else None
      else None
  | _ => None
  end.

(** What the firmware boots with. *)
Definition factory : scfg := SCfg true 2.

(** [parseInt(hex.substr(i * 2, 2), 16)]. *)
Definition hex_byte (hex : string) (i : nat) : value :=
  vz (List.fold_left (fun acc c => acc * 16 + hex_val c) (chars (stake 2 (sdrop (i * 2) hex))) 0).

Definition read_hex (hex : string) : option (list (option scfg)) :=
  let len := String.length hex in
  if sall is_hex hex && ((len =? 24)%nat || (len =? 32)%nat) then
    Some (map (fun i => if (i <? 12)%nat then decodeScreenByte (hex_byte hex i)
                        else if (len =? 24)%nat then Some factory else decodeScreenByte (hex_byte hex i))
              (seq 0 N_SCREENS))
  else None.

Definition readScreenCfg (raw : value) : option (list (option scfg)) :=
  let src := if truthy raw && negb (is_arr raw) && is_obj raw then fld raw "screenCfg" else raw in
  match src with
  | VStr s => read_hex (trim s)
  | VArr l =>
      if (length l =? N_SCREENS)%nat || (length l =? 12)%nat then
        Some (map (fun i => if (i <? length l)%nat then decodeScreenEntry (nth i l VUndef) else Some factory)
                  (seq 0 N_SCREENS))
      else None
  | _ => None
  end.

Definition readCfgPersisted (raw : value) : bool :=
  if negb (truthy raw) || is_arr raw || negb (is_obj raw) then false
  else
    let f := vnum (fld raw "flags") in
    if negb (is_finite f) || nlt f n0 || ngt f (ofZ 255) then false
    else and32 (toInt32 f) 1 =? 1.

(** ** The role gate *)

(** The role state: [Unresolved] is [undefined], [NoRole] is [null]. *)
Inductive role := Unresolved | NoRole | Role (r : string).

Definition roleFromProfile (op : value) : role :=
  match fld op "role" with
  | VStr s =>
      if truthy op then
        let r := toLowerCase s in
        Role (if String.eqb r "operator" || String.eqb r "admin" then r else "viewer")
      else NoRole
  | _ => NoRole
  end.

(** The role after the effect: parity mode and a missing client are [null]; an
    answer gives the profile's role, a failure [null], silence leaves it open. *)
Definition whoami_role (fixtureMode client : bool) (answer : option (res value)) : role :=
  if fixtureMode then NoRole
  else if negb client then NoRole
  else match answer with
       | None => Unresolved
       | Some (Ok w) => roleFromProfile (VObj [("role", if truthy w then fld w "role" else w)])
       | Some (Throw _) => NoRole
       end.

Definition canControl (fixtureMode : bool) (r : role) : bool :=
  negb fixtureMode && match r with Role r => String.eqb r "operator" || String.eqb r "admin" | _ => false end.

(** ** Time and brightness *)

Definition day_from_year (y : Z) : Z :=
  365 * (y - 1970) + (y - 1969) / 4 - (y - 1901) / 100 + (y - 1601) / 400.

Definition leap (y : Z) : bool := (y mod 4 =? 0) && (negb (y mod 100 =? 0) || (y mod 400 =? 0)).

Definition month_start (m : Z) : Z :=
  match m with
  | 0 => 0 | 1 => 31 | 2 => 59 | 3 => 90 | 4 => 120 | 5 => 151 | 6 => 181 | 7 => 212 | 8 => 243
  | 9 => 273 | 10 => 304 | _ => 334
  end.

(** [Date.UTC(y, m, d, h, mi, s)] of integers: a year below 100 is in the
    twentieth century, a month or a day out of range carries over. *)
Definition DateUTC (y m d h mi s : Z) : Z :=
  let y := if (0 <=? y) && (y <=? 99) then 1900 + y else y in
  let ym := y + m / 12 in
  let mn := m mod 12 in
  let day := day_from_year ym + month_start mn + (if leap ym && (2 <=? mn) then 1 else 0) + (d - 1) in
  day * 86400000 + h * 3600000 + mi * 60000 + s * 1000.

(** [n] digits, and what follows them. *)
Fixpoint take_digits (n : nat) (acc : Z) (l : list ascii) : option (Z * list ascii) :=
  match n, l with
  | O, _ => Some (acc, l)
  | S n, c :: r => if is_digit c then take_digits n (acc * 10 + digit_val c) r else None
  | S _, [] => None
  end.

Definition take_char (ok : list ascii) (l : list ascii) : option (list ascii) :=
  match l with c :: r => if existsb (Ascii.eqb c) ok then Some r else None | [] => None end.

(** [/^(\d{4})-(\d{2})-(\d{2})[ T](\d{2}):(\d{2}):(\d{2})/]. *)
Definition match_datetime (l : list ascii) : option Z :=
  '(y, l) ← take_digits 4 0 l; l ← take_char ["-"%char] l;
  '(mo, l) ← take_digits 2 0 l; l ← take_char ["-"%char] l;
  '(d, l) ← take_digits 2 0 l; l ← take_char [" "%char; "T"%char] l;
  '(h, l) ← take_digits 2 0 l; l ← take_char [":"%char] l;
  '(mi, l) ← take_digits 2 0 l; l ← take_char [":"%char] l;
  '(s, _) ← take_digits 2 0 l;
  Some (DateUTC y (mo - 1) d h mi s).

Definition parseReportedAt (dateParse : string -> num) (s : value) : option num :=
  if negb (truthy s) then None
  else match s with
       | VNum n => Some (if ngt n MS_EPOCH then n else nmul n (ofZ 1000))
       | _ =>
           match match_datetime (chars (vstr s)) with
           | Some ms => Some (ofZ ms)
           | None => let v := dateParse (vstr s) in if is_nan v then None else Some v
           end
       end.

Definition fmtAge (ms : num) : string :=
  let s := nround (ndiv ms (ofZ 1000)) in
  if nlt s (ofZ 90) then num_str s +:+ "s"
  else if nlt s (ofZ 5400) then num_str (nround (ndiv s (ofZ 60))) +:+ "m"
  else num_str (nround (ndiv s (ofZ 3600))) +:+ "h".

Definition driverGain (brightnessPct : value) : num :=
  let g := ndiv (if nullish brightnessPct then ofZ 100 else vnum brightnessPct) (ofZ 100) in
  let g := if nlt g (lit 25 2) then lit 25 2 else g in
  if ngt g (ofZ 1) then ofZ 1 else g.

Lemma sampleMs_not_nan d : is_nan (sampleMs d) = false.
Proof.
  unfold sampleMs, numOf. cbv zeta. set (n := if is_finite _ then _ else _).
  assert (Hn : is_finite n = true) by (unfold n; by destruct (is_finite (vnum _)) eqn:E). clearbody n.
  destruct (ngt n MS_EPOCH); [by apply is_finite_not_nan|by apply nmul_not_nan].
Qed.

(** ** Bytes *)

Lemma wrap32_small z : 0 <= z < 2 ^ 31 -> wrap32 z = z.
Proof. intros H. unfold wrap32. rewrite Z.mod_small by lia. destruct (Z.ltb_spec z (2 ^ 31)); lia. Qed.

Lemma int_upto_ofZ hi b : 0 <= hi < 2 ^ 53 -> 0 <= b <= hi -> int_upto hi (ofZ b) = true.
Proof.
  intros Hh Hb. unfold int_upto, ngt. change (SFltb (ofZ hi) (ofZ b)) with (nlt (ofZ hi) (ofZ b)).
  change n0 with (ofZ 0). rewrite !nlt_ofZ by lia.
  rewrite (proj2 (Z.ltb_ge b 0)), (proj2 (Z.ltb_ge hi b)) by lia.
  pose proof (is_integer_ofZ b ltac:(lia)) as Hi. unfold is_integer in Hi. apply andb_true_iff in Hi as [-> ->]. done.
Qed.

(** What a configuration byte says: bit 0 and bits 1 to 3; codes 6 and 7 say
    nothing, and bits 4 to 7 are ignored. *)
Definition byte_cfg (b : Z) : option scfg :=
  let code := b / 2 mod 8 in if code <=? 5 then Some (SCfg (Z.odd b) code) else None.

Lemma and32_low a k : 0 <= a < 2 ^ 31 -> 0 <= k < 31 -> and32 a (2 ^ k - 1) = a mod 2 ^ k.
Proof.
  intros Ha Hk. assert (0 < 2 ^ k) by (apply Z.pow_pos_nonneg; lia).
  assert (2 ^ k < 2 ^ 31) by (apply Z.pow_lt_mono_r; lia).
  unfold and32. rewrite !wrap32_small by lia. rewrite <- Z.land_ones by lia. f_equal.
  rewrite Z.ones_equiv. lia.
Qed.

Lemma decodeScreenByte_spec b : 0 <= b < 256 -> decodeScreenByte (vz b) = byte_cfg b.
Proof.
  intros Hb. unfold decodeScreenByte, byte_cfg, vz. cbn [vnum]. rewrite int_upto_ofZ by lia.
  unfold toInt32. rewrite truncZ_ofZ by lia. rewrite !(wrap32_small b) by lia.
  assert (Hs : shr32 b 1 = b / 2) by (unfold shr32; by rewrite wrap32_small by lia).
  assert (0 <= b / 2 < 2 ^ 31) by (split; [apply Z.div_pos; lia|apply Z.div_lt_upper_bound; lia]).
  change 7 with (2 ^ 3 - 1). rewrite Hs, and32_low by lia.
  change (and32 b 1) with (and32 b (2 ^ 1 - 1)). rewrite and32_low by lia.
  change (2 ^ 3) with 8. change (2 ^ 1) with 2. rewrite Z.leb_antisym. destruct (5 <? b / 2 mod 8); [done|]. cbn [negb].
  do 2 f_equal. rewrite Zmod_odd. by destruct (Z.odd b).
Qed.

(** Bytes in hexadecimal. *)
Fixpoint hex_of (bs : list Z) : string :=
  match bs with
  | [] => ""
  | b :: r => String (hex_digit (Z.to_nat b / 16 mod 16)) (String (hex_digit (Z.to_nat b mod 16)) (hex_of r))
  end.

Lemma hex_digit_val n : (n < 16)%nat -> hex_val (hex_digit n) = Z.of_nat n /\ is_hex (hex_digit n) = true /\ is_ws (hex_digit n) = false.
Proof. intros H. do 16 (destruct n as [|n]; [done|]). lia. Qed.

Lemma hex_byte_head b r : 0 <= b < 256 -> hex_byte (hex_of (b :: r)) 0 = vz b.
Proof.
  intros Hb. unfold hex_byte. cbn [hex_of Nat.mul sdrop stake chars List.fold_left].
  rewrite (proj1 (hex_digit_val _ (Nat.mod_upper_bound _ 16 ltac:(lia)))).
  rewrite (proj1 (hex_digit_val _ (Nat.mod_upper_bound _ 16 ltac:(lia)))).
  f_equal. rewrite Nat2Z.inj_mod, Nat2Z.inj_mod, Nat2Z.inj_div, Z2Nat.id by lia.
  assert (0 <= b / 16 < 16) by (split; [apply Z.div_pos; lia|apply Z.div_lt_upper_bound; lia]).
  change (Z.of_nat 16) with 16. rewrite (Z.mod_small (b / 16)) by lia. pose proof (Z.div_mod b 16 ltac:(lia)). lia.
Qed.

Lemma hex_byte_spec bs i b :
  Forall (fun b => 0 <= b < 256) bs -> bs !! i = Some b -> hex_byte (hex_of bs) i = vz b.
Proof.
  intros H. revert i. induction H as [|b0 bs Hb H IH]; intros [|i] Hi; try done.
  - injection Hi as ->. by apply hex_byte_head.
  - rewrite <- (IH i Hi). unfold hex_byte. by replace (S i * 2)%nat with (S (S (i * 2)))%nat by lia.
Qed.

Lemma hex_of_length bs : String.length (hex_of bs) = (2 * length bs)%nat.
Proof. induction bs as [|b bs IH]; [done|]. cbn. lia. Qed.

Lemma hex_of_sall (p : ascii -> bool) bs :
  (forall n, (n < 16)%nat -> p (hex_digit n) = true) -> sall p (hex_of bs) = true.
Proof.
  intros Hp. induction bs as [|b bs IH]; [done|]. cbn [hex_of sall]. rewrite IH, !Hp; [done|..];
  apply Nat.mod_upper_bound; lia.
Qed.

Lemma map_seq_lookup {A} (f : nat -> A) (l : list A) :
  (forall i x, l !! i = Some x -> f i = x) -> map f (seq 0 (length l)) = l.
Proof.
  intros H. apply list_eq. intros i. rewrite list_lookup_fmap. destruct (l !! i) as [x|] eqn:E.
  - rewrite lookup_seq_lt by (by apply lookup_lt_Some in E). cbn. f_equal. by apply H.
  - rewrite lookup_seq_ge by (by apply lookup_ge_None in E). done.
Qed.

(** What a report of twelve or sixteen bytes says of the sixteen screens. *)
Definition bytes_cfg (bs : list Z) : list (option scfg) :=
  map byte_cfg bs ++ replicate (16 - length bs) (Some factory).

Lemma bytes_cfg_lookup bs i x :
  bytes_cfg bs !! i = Some x ->
  (exists b, bs !! i = Some b /\ x = byte_cfg b) \/ ((length bs <= i < 16)%nat /\ x = Some factory).
Proof.
  unfold bytes_cfg. rewrite lookup_app_Some, length_map. intros [H|[Hle H]].
  - rewrite list_lookup_fmap in H. destruct (bs !! i) as [b|]; [|done]. injection H as <-. eauto.
  - apply lookup_replicate in H as [-> Hlt]. right. split; [lia|done].
Qed.

Lemma bytes_cfg_length bs : (length bs <= 16)%nat -> length (bytes_cfg bs) = 16%nat.
Proof. intros H. unfold bytes_cfg. rewrite length_app, length_map, length_replicate. lia. Qed.

Lemma readScreenCfg_array bs :
  length bs = 12%nat \/ length bs = 16%nat -> Forall (fun b => 0 <= b < 256) bs ->
  readScreenCfg (VArr (map vz bs)) = Some (bytes_cfg bs).
Proof.
  intros Hl Hb. unfold readScreenCfg. cbn [truthy is_arr negb andb]. rewrite length_map.
  assert (E : ((length bs =? N_SCREENS) || (length bs =? 12))%nat = true)
    by (unfold N_SCREENS; destruct Hl as [-> | ->]; done). rewrite E. f_equal.
  replace N_SCREENS with (length (bytes_cfg bs)) by (apply bytes_cfg_length; lia). apply map_seq_lookup.
  intros i x [(b & Hi & ->)|[Hle ->]]%bytes_cfg_lookup.
  - pose proof (lookup_lt_Some _ _ _ Hi). rewrite (proj2 (Nat.ltb_lt i (length bs))) by done.
    rewrite (nth_lookup_Some (map vz bs) i VUndef (vz b)) by (by rewrite list_lookup_fmap, Hi).
    apply decodeScreenByte_spec. exact (Forall_lookup_1 _ _ _ _ Hb Hi).
  - by rewrite (proj2 (Nat.ltb_ge i (length bs))) by lia.
Qed.

Lemma readScreenCfg_hex bs :
  length bs = 12%nat \/ length bs = 16%nat -> Forall (fun b => 0 <= b < 256) bs ->
  readScreenCfg (VStr (hex_of bs)) = Some (bytes_cfg bs).
Proof.
  intros Hl Hb. unfold readScreenCfg. cbn [is_obj]. rewrite andb_false_r.
  rewrite trim_id by (apply hex_of_sall; intros n Hn; by rewrite (proj2 (proj2 (hex_digit_val n Hn)))).
  unfold read_hex. rewrite hex_of_length.
  rewrite hex_of_sall by (intros n Hn; apply (hex_digit_val n Hn)).
  assert (E : ((2 * length bs =? 24) || (2 * length bs =? 32))%nat = true) by (destruct Hl as [-> | ->]; done).
  rewrite E. cbn [andb]. f_equal.
  replace N_SCREENS with (length (bytes_cfg bs)) by (apply bytes_cfg_length; lia). apply map_seq_lookup.
  assert (Hd : forall i b, bs !! i = Some b -> decodeScreenByte (hex_byte (hex_of bs) i) = byte_cfg b).
  { intros i b Hi. rewrite (hex_byte_spec bs i b) by done. apply decodeScreenByte_spec. exact (Forall_lookup_1 _ _ _ _ Hb Hi). }
  intros i x [(b & Hi & ->)|[Hle ->]]%bytes_cfg_lookup.
  - rewrite (Hd i b Hi). pose proof (lookup_lt_Some _ _ _ Hi). destruct (Nat.ltb_spec i 12); [done|].
    destruct Hl as [Hl|Hl]; [lia|]. by rewrite Hl.
  - destruct (Nat.ltb_spec i 12); [lia|]. destruct Hl as [Hl|Hl]; [by rewrite Hl|lia].
Qed.

Lemma readScreenCfg_wrapped v : readScreenCfg (VObj [("screenCfg", v)]) =
  match v with VObj _ => None | _ => readScreenCfg v end.
Proof. destruct v; try done; unfold readScreenCfg; cbn [is_obj is_arr negb]; by rewrite !andb_false_r. Qed.

(** ** Command arguments *)

(** The sixteen screens. *)
Ltac each_screen idx :=
  assert (idx = 0 \/ idx = 1 \/ idx = 2 \/ idx = 3 \/ idx = 4 \/ idx = 5 \/ idx = 6 \/ idx = 7 \/ idx = 8 \/ idx = 9 \/
          idx = 10 \/ idx = 11 \/ idx = 12 \/ idx = 13 \/ idx = 14 \/ idx = 15) by lia;
  repeat match goal with H : _ \/ _ |- _ => destruct H as [H|H] end; subst idx.

Lemma packScreenEn_eq idx en : 0 <= idx < 16 -> packScreenEn idx en = 2 * idx + Z.b2z en.
Proof. intros H. destruct en; each_screen idx; reflexivity. Qed.

Lemma packScreenWt_eq idx code : 0 <= idx < 16 -> 0 <= code < 8 -> packScreenWt idx code = 8 * idx + code.
Proof.
  intros H Hc. unfold packScreenWt. change 7 with (2 ^ 3 - 1). rewrite and32_low by lia.
  rewrite Z.mod_small by (change (2 ^ 3) with 8; lia).
  assert (Hb : exists b0 b1 b2, code = Z.b2z b0 + 2 * Z.b2z b1 + 4 * Z.b2z b2).
  { assert (code = 0 \/ code = 1 \/ code = 2 \/ code = 3 \/ code = 4 \/ code = 5 \/ code = 6 \/ code = 7) as C by lia.
    exists (Z.odd code), (Z.odd (code / 2)), (Z.odd (code / 4)).
    repeat destruct C as [C|C]; subst; reflexivity. }
  destruct Hb as (b0 & b1 & b2 & ->). clear Hc. destruct b0, b1, b2; each_screen idx; reflexivity.
Qed.

Lemma zstr_inj i j : 0 <= i < 16 -> 0 <= j < 16 -> zstr i = zstr j -> i = j.
Proof.
  intros Hi Hj.
  assert (H : forall i, 0 <= i < 16 -> str_num (zstr i) = ofZ i) by (intros k Hk; each_screen k; reflexivity).
  intros E. apply (f_equal str_num) in E. rewrite !H in E by done.
  apply (f_equal truncZ) in E. by rewrite !truncZ_ofZ in E by lia.
Qed.

Lemma shr32_div a k : 0 <= a < 2 ^ 31 -> 0 <= k < 32 -> shr32 a k = a / 2 ^ k.
Proof. intros Ha Hk. unfold shr32. by rewrite wrap32_small, Z.mod_small by lia. Qed.

(** ** Properties *)

(** The panel's report is read as it is.  Twelve or sixteen configuration
    bytes, as an array, in hexadecimal, or wrapped in an object, give the same
    sixteen entries: bit 0 and bits 1 to 3 of each byte whatever bits 4 to 7 are,
    "unknown" for the reserved weights 6 and 7, and the firmware's defaults only
    for the four screens a twelve-entry report cannot mention. *)
Theorem screen_config_read_as_reported (bs : list Z) :
  length bs = 12%nat \/ length bs = 16%nat -> Forall (fun b => 0 <= b < 256) bs ->
  readScreenCfg (VArr (map vz bs)) = Some (bytes_cfg bs) /\
  readScreenCfg (VStr (hex_of bs)) = Some (bytes_cfg bs) /\
  readScreenCfg (VObj [("screenCfg", VArr (map vz bs))]) = Some (bytes_cfg bs) /\
  readScreenCfg (VObj [("screenCfg", VStr (hex_of bs))]) = Some (bytes_cfg bs) /\
  length (bytes_cfg bs) = N_SCREENS /\
  (forall i c, bytes_cfg bs !! i = Some (Some c) ->
    0 <= weightCode c <= 5 /\ ((i < length bs)%nat \/ (c = factory /\ (12 <= i)%nat))).
Proof.
  intros Hl Hb. rewrite !readScreenCfg_wrapped, readScreenCfg_array, readScreenCfg_hex by done.
  repeat (split; [done|]). split; [apply bytes_cfg_length; lia|].
  intros i c [(b & Hi & E)|[Hle [= ->]]]%bytes_cfg_lookup; [|split; [done|right; split; [done|lia]]].
  split; [|left; by apply lookup_lt_Some in Hi]. unfold byte_cfg in E.
  destruct (Z.leb_spec (b / 2 mod 8) 5); [|done]. injection E as ->. cbn [weightCode].
  pose proof (Z.mod_pos_bound (b / 2) 8 ltac:(lia)). lia.
Qed.

Lemma screen_config_read_as_reported_witness :
  readScreenCfg (VStr "05040d0f0504040404040404f5030201") =
    Some (bytes_cfg [5; 4; 13; 15; 5; 4; 4; 4; 4; 4; 4; 4; 245; 3; 2; 1]) /\
  bytes_cfg [5; 4; 13; 15; 5; 4; 4; 4; 4; 4; 4; 4; 245; 3; 2; 1] !! 12%nat = Some (Some (SCfg true 2)).
Proof.
  split; [|reflexivity].
  apply (screen_config_read_as_reported [5; 4; 13; 15; 5; 4; 4; 4; 4; 4; 4; 4; 245; 3; 2; 1]).
  - by right.
  - repeat (apply Forall_cons_2; [lia|]). apply Forall_nil_2.
Defined.

(** A per-screen command names its screen and its setting.  The two packings
    lose nothing, and two commands share the key under which the page tracks them
    exactly when they address the same control of the same screen. *)
Theorem screen_commands_keep_apart (i j : Z) (en : bool) (code : Z) :
  0 <= i < 16 -> 0 <= j < 16 -> 0 <= code <= 5 ->
  shr32 (packScreenEn i en) 1 = i /\ and32 (packScreenEn i en) 1 = Z.b2z en /\
  shr32 (packScreenWt i code) 3 = i /\ and32 (packScreenWt i code) 7 = code /\
  (forall en', cmdGroup CMD_screenEn (packScreenEn i en) = cmdGroup CMD_screenEn (packScreenEn j en') <-> i = j) /\
  (forall code', 0 <= code' <= 5 ->
    cmdGroup CMD_screenWt (packScreenWt i code) = cmdGroup CMD_screenWt (packScreenWt j code') <-> i = j) /\
  cmdGroup CMD_screenEn (packScreenEn i en) <> cmdGroup CMD_screenWt (packScreenWt j code) /\
  (forall kind, kind <> CMD_screenEn -> kind <> CMD_screenWt ->
    cmdGroup kind 0 <> cmdGroup CMD_screenEn (packScreenEn i en) /\
    cmdGroup kind 0 <> cmdGroup CMD_screenWt (packScreenWt i code)).
Proof.
  intros Hi Hj Hc.
  assert (He : forall k e, 0 <= k < 16 -> shr32 (packScreenEn k e) 1 = k).
  { intros k e Hk. rewrite packScreenEn_eq, shr32_div by (destruct e; cbn; lia). destruct e; cbn [Z.b2z];
      change (2 ^ 1) with 2; [rewrite Z.mul_comm, Z.div_add_l, (Z.div_small 1) by lia|rewrite Z.add_0_r, Z.mul_comm, Z.div_mul by lia]; lia. }
  assert (Hw : forall k c, 0 <= k < 16 -> 0 <= c <= 5 -> shr32 (packScreenWt k c) 3 = k).
  { intros k c Hk Hk'. rewrite packScreenWt_eq, shr32_div by lia. change (2 ^ 3) with 8.
    rewrite Z.mul_comm, Z.div_add_l, Z.div_small by lia. lia. }
  assert (Hg : forall p k, Some (p +:+ zstr i) = Some (p +:+ zstr k) -> 0 <= k < 16 -> i = k).
  { intros p k E Hk. apply (inj Some) in E. apply string_app_cancel in E. by apply zstr_inj in E. }
  split; [by apply He|]. split.
  { rewrite packScreenEn_eq by done. change 1 with (2 ^ 1 - 1) at 1. rewrite and32_low by (destruct en; cbn; lia).
    destruct en; cbn [Z.b2z]; change (2 ^ 1) with 2; rewrite Z.mul_comm, Z.add_comm, Z.mod_add by lia; done. }
  split; [by apply Hw|]. split.
  { rewrite packScreenWt_eq by lia. change 7 with (2 ^ 3 - 1). rewrite and32_low by lia. change (2 ^ 3) with 8.
    rewrite Z.mul_comm, Z.add_comm, Z.mod_add, Z.mod_small by lia. done. }
  unfold cmdGroup. cbn [Z.eqb CMD_screenEn CMD_screenWt Pos.eqb].
  rewrite !He, !Hw by done.
  split; [intros en'; rewrite He by done; split; [intros E; by apply (Hg "screenEn:")|by intros ->]|].
  split; [intros c' Hc'; rewrite Hw by done; split; [intros E; by apply (Hg "screenWt:")|by intros ->]|].
  split; [done|]. intros kind H8 H9. apply Z.eqb_neq in H8, H9. unfold CMD_screenEn, CMD_screenWt in *. rewrite H8, H9.
  unfold CMD_GROUP. destruct kind as [|p|p]; try done. do 4 (try destruct p as [p|p|]); done.
Qed.

Lemma screen_commands_keep_apart_witness :
  cmdGroup CMD_screenEn (packScreenEn 1 true) <> cmdGroup CMD_screenWt (packScreenWt 6 4) /\
  shr32 (packScreenWt 1 4) 3 = 1.
Proof.
  destruct (screen_commands_keep_apart 1 6 true 4) as (_ & _ & H3 & _ & _ & _ & H7 & _); [lia|lia|lia|].
  exact (conj H7 H3).
Defined.

(** The controls fail closed.  They are live exactly when the page is not the
    parity view and the server has answered whoami with an operator's or an
    admin's role; no answer yet, a failure, or any other answer is read-only. *)
Theorem panel_controls_fail_closed (fixtureMode client : bool) (answer : option (res value)) :
  canControl fixtureMode (whoami_role fixtureMode client answer) = true <->
  fixtureMode = false /\ client = true /\
  exists w s, answer = Some (Ok w) /\ truthy w = true /\ fld w "role" = VStr s /\
    (toLowerCase s = "operator" \/ toLowerCase s = "admin").
Proof.
  unfold canControl, whoami_role. destruct fixtureMode; [cbn; naive_solver|]. destruct client; [|cbn; naive_solver].
  cbn [negb andb]. destruct answer as [[w|e]|]; [|naive_solver|naive_solver].
  assert (Hr : forall v, match roleFromProfile (VObj [("role", v)]) with
      Role r => String.eqb r "operator" || String.eqb r "admin" | _ => false end = true <->
      exists s, v = VStr s /\ (toLowerCase s = "operator" \/ toLowerCase s = "admin")).
  { intros v. unfold roleFromProfile. cbn [fld assoc String.eqb Ascii.eqb Bool.eqb truthy].
    destruct v as [| |b|n|s|l|f]; try (split; [done|intros (? & ? & _); done]). rewrite !orb_true_iff, !String.eqb_eq.
    destruct (String.eqb_spec (toLowerCase s) "operator"); cbn [orb]; [naive_solver|].
    destruct (String.eqb_spec (toLowerCase s) "admin"); naive_solver. }
  rewrite Hr. split.
  - intros (s & E & H). split; [done|]. split; [done|]. exists w, s. split; [done|].
    destruct (truthy w) eqn:Et; [done|]. destruct w; try done. injection E as ->. cbn in Et.
    destruct (String.eqb_spec s ""); [subst; cbn in H; destruct H; discriminate|done].
  - intros (_ & _ & w' & s & [= <-] & Ht & E & H). rewrite Ht. eauto.
Qed.

(** The driver's gain is the hardware's.  Whatever brightness is reported, a
    number gives a gain between a quarter and one, so a virtual screen dims but
    never goes out. *)
Theorem driver_gain_bounded (b : value) :
  is_nan (driverGain b) = false ->
  nle (lit 25 2) (driverGain b) = true /\ nle (driverGain b) (ofZ 1) = true.
Proof.
  unfold driverGain. cbv zeta. set (g := ndiv _ _). intros Hn.
  destruct (nlt g (lit 25 2)) eqn:E1; [done|].
  unfold ngt in *. change (SFltb (ofZ 1) g) with (nlt (ofZ 1) g) in *.
  destruct (nlt (ofZ 1) g) eqn:E2; [done|]. split; apply nlt_false_nle; done.
Qed.

Lemma driver_gain_bounded_witness :
  nle (lit 25 2) (driverGain (vz 3)) = true /\ nle (driverGain (vz 3)) (ofZ 1) = true.
Proof. apply (driver_gain_bounded (vz 3)). reflexivity. Defined.
