(* ===== verification/PanelPage.v ===== *)
(** * The panel page: polling and commands (screens-panel.jsx, PanelScreen)

    The page polls the panel's state and sends it commands.  React keeps the map
    of commands: [pend] is what was last rendered (and what [pendRef] holds), the
    updates requested since wait in a queue and are applied, in order, by the next
    render.  The poll keeps one request open at a time, presumes it dead after
    fifteen seconds, and numbers the requests so that a late answer is dropped.
    Clocks are milliseconds; a request's answer, a timeout and a render are events
    that may come in any order. *)

From Stdlib Require Import ZArith Lia Ascii Sorted.
From Corelib Require Import SpecFloat.
From stdpp Require Import strings pretty relations list.
From S2P Require Import Prelude JsNum JsValue Mappers PanelCfg.

Local Open Scope string_scope.
Local Open Scope list_scope.
Local Open Scope Z_scope.
Local Open Scope js_scope.

(** ** Tracked commands *)

Inductive status := Sending | Pending | Applied | Failed.

#[export] Instance status_eq_dec : EqDecision status.
Proof. solve_decision. Defined.

(** [p_cmdId] is [None] when the entry has no [cmdId]. *)
Record pentry := PEntry {
  p_kind : Z; p_arg : Z; p_status : status; p_at : Z; p_cmdId : option num; p_reason : value }.

Abbreviation pmap := (list (string * pentry)).

(** [Object.assign({}, p, { status: "failed", reason })]. *)
Definition fail_with (p : pentry) (reason : value) : pentry :=
  PEntry (p_kind p) (p_arg p) Failed (p_at p) (p_cmdId p) reason.
Definition set_applied (p : pentry) : pentry :=
  PEntry (p_kind p) (p_arg p) Applied (p_at p) (p_cmdId p) (p_reason p).

(** ** reconcile *)

Definition never_completed : string :=
  "the request never completed (connection dropped mid-request) — try again".
Definition expired_reason : string :=
  "expired after " +:+ zstr (CMD_EXPIRY_MS / 1000)
  +:+ " s without the panel collecting it (panel offline, or the daemon is not polling)".
Definition no_confirmation : string :=
  "no confirmation from the panel within " +:+ zstr (CMD_GIVEUP_MS / 1000) +:+ " s".

(** The first row with the command's id. *)
Fixpoint find_row (cmdId : num) (rows : list value) : res value :=
  match rows with
  | [] => Ok VNull
  | r :: rest => id <- get r "id" ;; if nequ (vnum id) cmdId then Ok r else find_row cmdId rest
  end.

(** One command: its entry, and whether it changed. *)
Definition reconcile_entry (rows : option (list value)) (tNow : Z) (p : pentry) : res (pentry * bool) :=
  match p_status p with
  | Sending =>
      Ok (if 15000 <? tNow - p_at p then (fail_with p (VStr never_completed), true) else (p, false))
  | Pending =>
      row <- match rows, p_cmdId p with Some rows, Some id => find_row id rows | _, _ => Ok VNull end ;;
      Ok (if truthy row && strict_eq (fld row "status") (VStr "applied") then (set_applied p, true)
          else if truthy row && strict_eq (fld row "status") (VStr "expired")
          then (fail_with p (v_or (fld row "failureReason") (VStr expired_reason)), true)
          else if CMD_GIVEUP_MS <? tNow - p_at p then (fail_with p (VStr no_confirmation), true)
          else (p, false))
  | Applied | Failed => Ok (p, false)
  end.

Fixpoint reconcile_all (rows : option (list value)) (tNow : Z) (m : pmap) : res (pmap * bool) :=
  match m with
  | [] => Ok ([], false)
  | (k, p) :: r =>
      e <- reconcile_entry rows tNow p ;;
      n <- reconcile_all rows tNow r ;;
      Ok ((k, e.1) :: n.1, e.2 || n.2)
  end.

(** [reconcile(recent)]: the whole map to store, when something changed. *)
Definition reconcile (recent : value) (tNow : Z) (prev : pmap) : res (option pmap) :=
  let rows := match recent with VArr l => Some l | _ => None end in
  n <- reconcile_all rows tNow prev ;; Ok (if n.2 then Some n.1 else None).

(** ** The page *)

(** An update of the map: a function of the latest, or a value. *)
Abbreviation update := (pmap -> pmap).

(** A command that was posted: its key and the entry's kind, argument and stamp. *)
Record post := Post { c_key : string; c_kind : Z; c_arg : Z; c_stamp : Z }.

Record page := Page {
  samples : list value;          (* chronological payloads *)
  err : option string;
  pend : pmap;                   (* as last rendered: pendRef.current *)
  queue : list update;           (* updates since *)
  inFlightAt : Z;
  reqSeq : nat;
  lastMs : num;
  posts : list post }.           (* posted, not settled *)

Definition page0 : page := Page [] None [] [] 0 0 ninf [].

Definition setErr (e : option string) (s : page) : page :=
  Page (samples s) e (pend s) (queue s) (inFlightAt s) (reqSeq s) (lastMs s) (posts s).
Definition setPend (f : update) (s : page) : page :=
  Page (samples s) (err s) (pend s) (queue s ++ [f]) (inFlightAt s) (reqSeq s) (lastMs s) (posts s).
Definition setPosts (l : list post) (s : page) : page :=
  Page (samples s) (err s) (pend s) (queue s) (inFlightAt s) (reqSeq s) (lastMs s) l.
Definition setFlight (at_ : Z) (seq : nat) (s : page) : page :=
  Page (samples s) (err s) (pend s) (queue s) at_ seq (lastMs s) (posts s).

(** What the next render shows. *)
Definition latest (s : page) : pmap := fold_left (fun m f => f m) (queue s) (pend s).

Definition render (s : page) : page :=
  Page (samples s) (err s) (latest s) [] (inFlightAt s) (reqSeq s) (lastMs s) (posts s).

(** ** The poll *)

(** [tick]: open a request unless one is open and young. *)
Definition tick (client : bool) (now : Z) (s : page) : page :=
  if negb client then setErr (Some "The dashboard API client is unavailable.") s
  else if negb (inFlightAt s =? 0) && (now - inFlightAt s <? 15000) then s
  else setFlight now (S (reqSeq s)) s.

(** The last 240 payloads. *)
Definition keep240 (l : list value) : list value :=
  if (240 <? length l)%nat then drop (length l - 240) l else l.

Definition push_sample (ms : num) (d : value) (s : page) : page :=
  Page (keep240 (samples s ++ [d])) (err s) (pend s) (queue s) (inFlightAt s) (reqSeq s) ms (posts s).

(** The rejection handler of a request. *)
Definition poll_failed (my : nat) (msg : string) (s : page) : page :=
  if negb (my =? reqSeq s)%nat then s
  else setErr (Some (if String.eqb msg "" then "Could not reach /api/panel." else msg)) (setFlight 0 (reqSeq s) s).

(** The answer to request [my]; an exception of [reconcile] ends in the
    rejection handler. *)
Definition poll_answered (my : nat) (d : value) (now : Z) (s : page) : page :=
  if negb (my =? reqSeq s)%nat then s
  else
    let s := setFlight 0 (reqSeq s) s in
    if negb (truthy d) then s
    else
      let s := setErr None s in
      let ms := sampleMs d in
      if nlt ms (lastMs s) then s
      else
        let s := if ngt ms (lastMs s) then push_sample ms d s else s in
        match reconcile (fld d "recentCommands") now (pend s) with
        | Ok (Some next) => setPend (fun _ => next) s
        | Ok None => s
        | Throw e => poll_failed my (err_message e) s
        end.

(** ** Commands *)

Definition key_of (kind arg : Z) : string := default "undefined" (cmdGroup kind arg).

Definition send (client : bool) (kind arg stamp : Z) (s : page) : page :=
  let key := key_of kind arg in
  let s := setPend (assoc_set key (PEntry kind arg Sending stamp None VUndef)) s in
  if negb client
  then setPend (assoc_set key (PEntry kind arg Failed stamp None
                                 (VStr "the dashboard API client is unavailable"))) s
  else setPosts (posts s ++ [Post key kind arg stamp]) s.

Definition no_response : string := "no response after 12 s (connection may have dropped) — try again".

(** The twelve-second timer of a command. *)
Definition giveUp (c : post) (s : page) : page :=
  setPend (fun m =>
    match assoc (c_key c) m with
    | Some cur =>
        if decide (p_status cur = Sending) then
          if p_at cur =? c_stamp c then assoc_set (c_key c) (fail_with cur (VStr no_response)) m else m
        else m
    | None => m
    end) s.

(** Both settle paths: only while the entry is this attempt's. *)
Definition settle (c : post) (e : pentry) (m : pmap) : pmap :=
  match assoc (c_key c) m with
  | Some cur => if p_at cur =? c_stamp c then assoc_set (c_key c) e m else m
  | None => assoc_set (c_key c) e m
  end.

(** [Number(d && d.cmdId)]. *)
Definition cmd_id (d : value) : num := vnum (if truthy d then fld d "cmdId" else d).

Definition post_accepted (c : post) (d : value) (s : page) : page :=
  setPend (settle c (PEntry (c_kind c) (c_arg c) Pending (c_stamp c) (Some (cmd_id d)) VUndef)) s.

Definition post_rejected (c : post) (msg : string) (s : page) : page :=
  setPend (settle c (PEntry (c_kind c) (c_arg c) Failed (c_stamp c) None
             (VStr (if String.eqb msg "" then "the request was rejected" else msg)))) s.

(** ** Events *)

Inductive pstep : page -> page -> Prop :=
  | PTick s client now : 0 < now -> pstep s (tick client now s)
  | PAnswer s my d now : (1 <= my <= reqSeq s)%nat -> pstep s (poll_answered my d now s)
  | PFail s my msg : (1 <= my <= reqSeq s)%nat -> pstep s (poll_failed my msg s)
  | PSend s client kind arg now : pstep s (send client kind arg now s)
  | PGiveUp s c : In c (posts s) -> pstep s (giveUp c s)
  | PAccepted s l c r d : posts s = l ++ c :: r -> pstep s (post_accepted c d (setPosts (l ++ r) s))
  | PRejected s l c r msg : posts s = l ++ c :: r -> pstep s (post_rejected c msg (setPosts (l ++ r) s))
  | PRender s : pstep s (render s).

(** ** The history *)

(** Every payload is older than the next, and none is newer than the last applied
    timestamp. *)
Definition history_ok (l : list value) (last : num) : Prop :=
  is_nan last = false /\ (length l <= 240)%nat /\
  StronglySorted (fun a b => nlt (sampleMs a) (sampleMs b) = true) l /\
  Forall (fun d => nle (sampleMs d) last = true) l.

Lemma StronglySorted_snoc {A} (R : A -> A -> Prop) l x :
  StronglySorted R l -> Forall (fun y => R y x) l -> StronglySorted R (l ++ [x]).
Proof.
  induction 1 as [|y l Hl IH Hy]; intros Hx; cbn; [by repeat constructor|].
  apply Forall_cons in Hx as [Hyx Hx]. constructor; [by apply IH|]. apply Forall_app. split; [done|].
  by apply Forall_singleton.
Qed.

Lemma StronglySorted_drop {A} (R : A -> A -> Prop) n l : StronglySorted R l -> StronglySorted R (drop n l).
Proof.
  revert l. induction n as [|n IH]; intros [|x l] H; try done. cbn. apply IH. by inversion H.
Qed.

Lemma push_sample_ok l last d :
  history_ok l last -> nlt last (sampleMs d) = true -> history_ok (keep240 (l ++ [d])) (sampleMs d).
Proof.
  intros (Hn & Hl & Hs & Hf) Hlt. pose proof (sampleMs_not_nan d) as Hd.
  assert (Hb : Forall (fun y => nlt (sampleMs y) (sampleMs d) = true) l).
  { eapply Forall_impl; [exact Hf|]. intros y Hy. eapply nle_nlt_trans; [| | |exact Hy|exact Hlt]; try done.
    apply sampleMs_not_nan. }
  assert (H1 : StronglySorted (fun a b => nlt (sampleMs a) (sampleMs b) = true) (l ++ [d]))
    by (by apply StronglySorted_snoc).
  assert (H2 : Forall (fun x => nle (sampleMs x) (sampleMs d) = true) (l ++ [d])).
  { apply Forall_app. split; [|apply Forall_singleton; by apply nle_refl].
    eapply Forall_impl; [exact Hb|]. intros y Hy. by apply nlt_nle. }
  unfold keep240. destruct (Nat.ltb_spec 240 (length (l ++ [d]))) as [Hg|Hg]; (split; [done|]).
  - split; [rewrite length_drop; lia|]. split; [by apply StronglySorted_drop|by apply Forall_drop].
  - split; [lia|]. done.
Qed.

Lemma pstep_history s s' : pstep s s' -> history_ok (samples s) (lastMs s) -> history_ok (samples s') (lastMs s').
Proof.
  intros H Hs. destruct H as [s client now _|s my d now _|s my msg _|s client kind arg now|s c _|s l c r d _|s l c r msg _|s];
    try exact Hs.
  - unfold tick. destruct client; [|done]. cbn [negb]. by destruct (_ && _).
  - unfold poll_answered. destruct (negb _); [done|]. destruct (negb _); [done|]. cbn [lastMs setErr setFlight].
    destruct (nlt (sampleMs d) (lastMs s)); [done|].
    set (s1 := if ngt _ _ then _ else _).
    assert (H1 : history_ok (samples s1) (lastMs s1)).
    { unfold s1. destruct (ngt (sampleMs d) (lastMs s)) eqn:E; [|done]. exact (push_sample_ok (samples s) (lastMs s) d Hs E). }
    clearbody s1. destruct (reconcile _ _ _) as [[m|]|e]; [done|done|].
    unfold poll_failed. by destruct (negb _).
  - unfold poll_failed. by destruct (negb _).
  - unfold send. by destruct client.
Qed.

(** ** Commands *)

Lemma reconcile_all_assoc rows now m n :
  reconcile_all rows now m = Ok n ->
  map fst n.1 = map fst m /\
  forall k p, assoc k m = Some p -> exists p' b, reconcile_entry rows now p = Ok (p', b) /\ assoc k n.1 = Some p' /\
    (b = true -> n.2 = true).
Proof.
  revert n. induction m as [|[k0 p0] m IH]; intros n; cbn [reconcile_all].
  - intros [= <-]. done.
  - destruct (reconcile_entry rows now p0) as [[p1 b1]|] eqn:E; [|done]. cbn [bind].
    destruct (reconcile_all rows now m) as [[n' b']|]; [|done]. cbn [bind fst snd]. intros [= <-].
    destruct (IH (n', b') eq_refl) as [Hk Ha]. cbn [fst snd map assoc] in *. split; [by rewrite Hk|].
    intros k p. destruct (String.eqb k k0).
    + intros [= <-]. exists p1, b1. split; [done|]. split; [done|]. by intros ->.
    + intros Hp. destruct (Ha k p Hp) as (p' & b & H1 & H2 & H3). exists p', b. split; [done|]. split; [done|].
      intros Hb. rewrite H3 by done. apply orb_true_r.
Qed.

Lemma find_row_in id rows row :
  find_row id rows = Ok row -> truthy row = true -> row ∈ rows /\ nequ (vnum (fld row "id")) id = true.
Proof.
  induction rows as [|r rows IH]; cbn [find_row]; [by intros [= <-]|].
  unfold get. destruct (nullish r); [done|]. cbn [bind]. destruct (nequ (vnum (fld r "id")) id) eqn:E.
  - intros [= <-] _. split; [left|done].
  - intros H Ht. destruct (IH H Ht). split; [by right|done].
Qed.

Definition terminal (p : pentry) : Prop := p_status p = Applied \/ p_status p = Failed.

(** The row of the queue that confirms a command. *)
Definition confirms (rows : option (list value)) (p : pentry) : Prop :=
  exists l id row, rows = Some l /\ p_cmdId p = Some id /\ row ∈ l /\ nequ (vnum (fld row "id")) id = true /\
    strict_eq (fld row "status") (VStr "applied") = true.

(** What reconciling does to one command. *)
Definition settled (rows : option (list value)) (now : Z) (p p' : pentry) : Prop :=
  (p_kind p', p_arg p', p_at p') = (p_kind p, p_arg p, p_at p) /\
  (terminal p -> p' = p) /\
  (CMD_GIVEUP_MS < now - p_at p -> terminal p') /\
  (p_status p' = Applied -> p_status p = Applied \/ confirms rows p) /\
  (~ terminal p' -> p' = p).

Lemma settled_same rows now p :
  (CMD_GIVEUP_MS < now - p_at p -> terminal p) -> settled rows now p p.
Proof. intros H. unfold settled. split; [done|]. split; [done|]. split; [done|]. split; [by left|done]. Qed.

Lemma settled_failed rows now p reason : ~ terminal p -> settled rows now p (fail_with p reason).
Proof.
  intros H. unfold settled, terminal. cbn [p_kind p_arg p_at p_status fail_with].
  split; [done|]. split; [done|]. split; [by right|]. split; [done|]. intros []; by right.
Qed.

Lemma settled_applied rows now p : ~ terminal p -> confirms rows p -> settled rows now p (set_applied p).
Proof.
  intros H Hc. unfold settled, terminal. cbn [p_kind p_arg p_at p_status set_applied].
  split; [done|]. split; [done|]. split; [by left|]. split; [by right|]. intros []; by left.
Qed.

Lemma reconcile_entry_settled rows now p p' b :
  reconcile_entry rows now p = Ok (p', b) -> settled rows now p p' /\ (b = false -> p' = p).
Proof.
  intros H. unfold reconcile_entry in H. destruct (p_status p) eqn:Es.
  - assert (Ht : ~ terminal p) by (unfold terminal; rewrite Es; by intros []).
    destruct (Z.ltb_spec 15000 (now - p_at p)) as [Hl|Hl]; injection H as <- <-; (split; [|done]);
      [by apply settled_failed|apply settled_same; unfold CMD_GIVEUP_MS; lia].
  - assert (Ht : ~ terminal p) by (unfold terminal; rewrite Es; by intros []).
    destruct (match rows with Some _ => _ | None => _ end) as [row|] eqn:Er; [|done]. cbn [bind] in H.
    destruct (truthy row && strict_eq (fld row "status") (VStr "applied")) eqn:E1.
    { injection H as <- <-. split; [|done]. apply settled_applied; [done|]. apply andb_true_iff in E1 as [Htr Ha].
      destruct rows as [l|]; [|by injection Er as <-]. destruct (p_cmdId p) as [id|] eqn:Eid; [|by injection Er as <-].
      destruct (find_row_in id l row Er Htr). by exists l, id, row. }
    destruct (truthy row && strict_eq (fld row "status") (VStr "expired"));
      [injection H as <- <-; split; [by apply settled_failed|done]|].
    destruct (Z.ltb_spec CMD_GIVEUP_MS (now - p_at p)); injection H as <- <-; (split; [|done]);
      [by apply settled_failed|by apply settled_same; lia].
  - injection H as <- <-. split; [apply settled_same; by left|done].
  - injection H as <- <-. split; [apply settled_same; by right|done].
Qed.

Lemma reconcile_all_same rows now m n : reconcile_all rows now m = Ok n -> n.2 = false -> n.1 = m.
Proof.
  revert n. induction m as [|[k p] m IH]; intros n; cbn [reconcile_all]; [by intros [= <-]|].
  destruct (reconcile_entry rows now p) as [[p1 b1]|] eqn:E; [|done]. cbn [bind].
  destruct (reconcile_all rows now m) as [[n' b']|]; [|done]. cbn [bind fst snd]. intros [= <-]. cbn [fst snd].
  intros [-> ->]%orb_false_iff. apply reconcile_entry_settled in E as [_ Ep]. rewrite Ep by done. f_equal. by apply (IH (n', false)).
Qed.

(** Rows the server may send: an array of objects, or no array at all. *)
Definition rows_ok (recent : value) : Prop :=
  match recent with VArr l => Forall (fun r => nullish r = false) l | _ => True end.

Lemma find_row_ok id l : Forall (fun r => nullish r = false) l -> exists row, find_row id l = Ok row.
Proof.
  induction 1 as [|r l Hr _ IH]; cbn [find_row]; [eauto|]. unfold get. rewrite Hr. cbn [bind].
  destruct (nequ _ _); eauto.
Qed.

Definition rows_of (recent : value) : option (list value) := match recent with VArr l => Some l | _ => None end.

Lemma reconcile_total recent now m : rows_ok recent -> exists n, reconcile_all (rows_of recent) now m = Ok n.
Proof.
  intros H. induction m as [|[k p] m [n IH]]; cbn [reconcile_all]; [eauto|].
  assert (He : exists e, reconcile_entry (rows_of recent) now p = Ok e).
  { unfold reconcile_entry. destruct (p_status p); eauto.
    assert (Hr : exists row, match rows_of recent, p_cmdId p with Some rows, Some id => find_row id rows | _, _ => Ok VNull end = Ok row).
    { destruct recent; cbn [rows_of]; eauto. destruct (p_cmdId p); eauto. by apply find_row_ok. }
    destruct Hr as [row ->]. cbn [bind]. eauto. }
  destruct He as [e ->]. cbn [bind]. rewrite IH. cbn [bind]. eauto.
Qed.

(** ** Properties *)

(** C11: the history the screens draw never goes back.  In every reachable state of
    the page the stored payloads are strictly increasing in the server's
    timestamp, none is newer than the newest applied, and at most 240 are kept;
    a superseded or repeated answer never adds one. *)
Theorem panel_history_increases (s : page) :
  rtc pstep page0 s ->
  (length (samples s) <= 240)%nat /\
  StronglySorted (fun a b => nlt (sampleMs a) (sampleMs b) = true) (samples s) /\
  Forall (fun d => nle (sampleMs d) (lastMs s) = true) (samples s) /\
  (forall my d now, my <> reqSeq s -> poll_answered my d now s = s) /\
  (forall my d now, ngt (sampleMs d) (lastMs s) = false -> samples (poll_answered my d now s) = samples s).
Proof.
  intros H. assert (Hh : history_ok (samples s) (lastMs s)).
  { remember page0 as s0. assert (H0 : history_ok (samples s0) (lastMs s0)) by (subst; by repeat constructor).
    clear Heqs0. induction H as [|x y z Hxy Hyz IH]; [done|]. apply IH. by eapply pstep_history. }
  destruct Hh as (_ & H1 & H2 & H3). split; [done|]. split; [done|]. split; [done|]. split.
  - intros my d now Hne. unfold poll_answered. by rewrite (proj2 (Nat.eqb_neq _ _)).
  - intros my d now Hn. unfold poll_answered. destruct (negb _); [done|]. destruct (negb _); [done|].
    cbn [lastMs setErr setFlight]. destruct (nlt _ _); [done|]. rewrite Hn.
    destruct (reconcile _ _ _) as [[m|]|e]; [done|done|]. unfold poll_failed. by destruct (negb _).
Qed.

Lemma latest_setPend f s : latest (setPend f s) = f (latest s).
Proof. unfold latest, setPend. cbn [queue pend]. by rewrite fold_left_app. Qed.

(** The answer that counts: of the newest request, with a payload not older than the
    last, and rows that can be read. *)
Definition current_answer (s : page) (my : nat) (d : value) : Prop :=
  my = reqSeq s /\ truthy d = true /\ nlt (sampleMs d) (lastMs s) = false /\ rows_ok (fld d "recentCommands").

(** What such an answer leaves: the rendered map reconciled, in place of the updates
    that were waiting when anything changed. *)
Lemma answered_latest (s : page) (my : nat) (d : value) (now : Z) :
  current_answer s my d ->
  exists n, reconcile_all (rows_of (fld d "recentCommands")) now (pend s) = Ok n /\
    let s' := poll_answered my d now s in
    latest s' = (if n.2 then n.1 else latest s) /\ err s' = None /\ inFlightAt s' = 0.
Proof.
  intros (-> & Ht & Hl & Hr). destruct (reconcile_total (fld d "recentCommands") now (pend s) Hr) as [n Hn].
  exists n. split; [done|]. cbv zeta. unfold poll_answered. rewrite Nat.eqb_refl, Ht. cbn [negb lastMs setErr setFlight]. rewrite Hl.
  set (s1 := if ngt _ _ then _ else _).
  assert (H1 : pend s1 = pend s /\ latest s1 = latest s /\ err s1 = None /\ inFlightAt s1 = 0)
    by (unfold s1; by destruct (ngt _ _)).
  destruct H1 as (Hp & Hq & He & Hf). clearbody s1.
  unfold reconcile. rewrite Hp. change (match fld d "recentCommands" with VArr l => Some l | _ => None end)
    with (rows_of (fld d "recentCommands")). rewrite Hn. cbn [bind]. destruct n.2; [|done]. by rewrite latest_setPend.
Qed.

(** C12: when a command ends.  The answer to the newest poll, with a payload not older
    than the last one applied and rows that are objects, on a page that has rendered every
    update of its commands: each tracked command keeps its kind, argument and stamp; one
    that had ended stays as it was; one older than the give-up time has ended; it counts
    as applied only when the panel's own queue row says so; and no command appears or
    disappears.  The conditions are needed: a superseded or older answer changes no
    command, and when updates are waiting to be rendered and the answer changes
    any entry, the reconciled map as it was last rendered replaces them. *)
Theorem panel_commands_end (s : page) (d : value) (now : Z) :
  (queue s = [] -> current_answer s (reqSeq s) d ->
   let s' := render (poll_answered (reqSeq s) d now s) in
   map fst (pend s') = map fst (pend s) /\ err s' = None /\ inFlightAt s' = 0 /\
   forall k p, assoc k (pend s) = Some p ->
     exists p', assoc k (pend s') = Some p' /\ settled (rows_of (fld d "recentCommands")) now p p') /\
  (forall my, my <> reqSeq s -> poll_answered my d now s = s) /\
  (nlt (sampleMs d) (lastMs s) = true -> latest (poll_answered (reqSeq s) d now s) = latest s) /\
  (forall n, current_answer s (reqSeq s) d ->
     reconcile (fld d "recentCommands") now (pend s) = Ok (Some n) -> latest (poll_answered (reqSeq s) d now s) = n).
Proof.
  split; [|split; [|split]].
  - intros Hq Hc s'. destruct (answered_latest s _ d now Hc) as (n & Hn & H1 & H2 & H3). unfold s', render. cbn [pend err inFlightAt].
    assert (Hl : latest (poll_answered (reqSeq s) d now s) = n.1).
    { rewrite H1. destruct n.2 eqn:E; [done|]. unfold latest. rewrite Hq. symmetry. by eapply reconcile_all_same. }
    rewrite Hl. destruct (reconcile_all_assoc _ _ _ _ Hn) as [Hk Ha]. split; [done|]. split; [done|]. split; [done|].
    intros k p Hkp. destruct (Ha k p Hkp) as (p' & b & He' & Hp' & _). exists p'. split; [done|].
    by eapply reconcile_entry_settled.
  - intros my Hne. unfold poll_answered. by rewrite (proj2 (Nat.eqb_neq _ _)).
  - intros Hold. unfold poll_answered. rewrite Nat.eqb_refl. cbn [negb lastMs setErr setFlight]. destruct (truthy d); [|done].
    cbn [negb lastMs setErr setFlight]. by rewrite Hold.
  - intros n Hc Hr. destruct (answered_latest s _ d now Hc) as (m & Hm & H1 & _). rewrite H1.
    unfold reconcile in Hr. change (match fld d "recentCommands" with VArr l => Some l | _ => None end)
      with (rows_of (fld d "recentCommands")) in Hr. rewrite Hm in Hr. cbn [bind] in Hr. destruct m.2; [|done]. by injection Hr.
Qed.

(** An attempt speaks only for itself.  When a posted command is accepted,
    rejected or times out, no entry of another control changes; and the entry of
    its own control changes only if it still carries this attempt's stamp (or was
    never there), so a newer click keeps what it wrote. *)
Theorem panel_attempt_is_local (s : page) (c : post) (d : value) (msg : string) (k : string) :
  let after := [latest (post_accepted c d s); latest (post_rejected c msg s); latest (giveUp c s)] in
  (k <> c_key c -> Forall (fun m => assoc k m = assoc k (latest s)) after) /\
  (forall p, assoc (c_key c) (latest s) = Some p -> p_at p <> c_stamp c ->
    Forall (fun m => m = latest s) after) /\
  (forall p, assoc (c_key c) (latest s) = Some p -> p_at p = c_stamp c ->
    exists p1 p2, assoc (c_key c) (latest (post_accepted c d s)) = Some p1 /\ p_status p1 = Pending /\
      p_cmdId p1 = Some (cmd_id d) /\
      assoc (c_key c) (latest (post_rejected c msg s)) = Some p2 /\ p_status p2 = Failed).
Proof.
  intros after. unfold after, post_accepted, post_rejected, giveUp. rewrite !latest_setPend.
  generalize (latest s). intros m. unfold settle. split; [|split].
  - intros Hk. repeat apply Forall_cons_2; [..|apply Forall_nil_2].
    + destruct (assoc (c_key c) m) as [cur|]; [destruct (_ =? _); [|done]|]; by apply assoc_set_other.
    + destruct (assoc (c_key c) m) as [cur|]; [destruct (_ =? _); [|done]|]; by apply assoc_set_other.
    + destruct (assoc (c_key c) m) as [cur|]; [|done]. case_decide; [|done]. destruct (_ =? _); [|done].
      by apply assoc_set_other.
  - intros p -> Hat. apply Z.eqb_neq in Hat. rewrite Hat. repeat apply Forall_cons_2; [done|done| |apply Forall_nil_2].
    by case_decide.
  - intros p -> Hat. apply Z.eqb_eq in Hat. rewrite Hat, !assoc_set_same. by eexists _, _.
Qed.

(** An accepted command can be forgotten.  [reconcile] stores the whole map as
    it was last rendered.  When the server has accepted a command but the page has
    not been rendered since, and the poll's answer changes any other entry, the
    acceptance is overwritten: the command shows as "sending" again without its
    id, and fails after fifteen seconds though the panel may have applied it. *)
Theorem reconcile_forgets_acceptance (s : page) (c : post) (p : pentry) (ack d : value) (now : Z) (n : pmap) :
  assoc (c_key c) (pend s) = Some p -> p_status p = Sending -> p_at p = c_stamp c -> now - p_at p <= 15000 ->
  truthy d = true -> nlt (sampleMs d) (lastMs s) = false ->
  reconcile (fld d "recentCommands") now (pend s) = Ok (Some n) ->
  let s1 := post_accepted c ack s in
  let s2 := render (poll_answered (reqSeq s) d now s1) in
  assoc (c_key c) (pend s2) = Some p /\
  (forall later d', 15000 < later - p_at p ->
     reconcile_entry (rows_of (fld d' "recentCommands")) later p = Ok (fail_with p (VStr never_completed), true)).
Proof.
  intros Hp Hs Hat Hnow Ht Hl Hr s1 s2. split.
  - unfold s2, poll_answered. change (reqSeq s1) with (reqSeq s). rewrite Nat.eqb_refl, Ht.
    cbn [negb lastMs setErr setFlight]. change (lastMs s1) with (lastMs s). rewrite Hl.
    set (s3 := if ngt _ _ then _ else _).
    assert (H3 : pend s3 = pend s) by (unfold s3; by destruct (ngt _ _)). clearbody s3. rewrite H3, Hr.
    cbn [render pend]. rewrite latest_setPend. clear s2.
    unfold reconcile in Hr. destruct (reconcile_all _ now (pend s)) as [r|] eqn:E; [|done]. cbn [bind] in Hr.
    destruct r.2 eqn:E2; [|done]. injection Hr as <-.
    destruct (reconcile_all_assoc _ _ _ _ E) as [_ Ha]. destruct (Ha _ _ Hp) as (p' & b & He & Hp' & _).
    rewrite Hp'. f_equal. unfold reconcile_entry in He. rewrite Hs in He.
    rewrite (proj2 (Z.ltb_ge 15000 (now - p_at p))) in He by lia. by injection He.
  - intros later d' Hlt. unfold reconcile_entry. rewrite Hs. by rewrite (proj2 (Z.ltb_lt 15000 _)).
Qed.

(** ** Witnesses *)

Definition payload (ts : Z) (rows : list value) : value :=
  VObj [("ts", vz ts); ("recentCommands", VArr rows)].

Lemma panel_history_increases_witness :
  let s := poll_answered 1 (payload 100 []) 2 (tick true 1 page0) in
  (length (samples s) <= 240)%nat /\ samples s = [payload 100 []] /\
  samples (poll_answered 1 (payload 100 []) 3 s) = samples s.
Proof.
  pose (s := poll_answered 1 (payload 100 []) 2 (tick true 1 page0)).
  destruct (panel_history_increases s) as (H1 & _ & _ & _ & H5).
  { eapply rtc_l; [apply (PTick page0 true 1); lia|]. eapply rtc_l; [|apply rtc_refl]. apply PAnswer. cbn. lia. }
  split; [exact H1|]. split; [reflexivity|]. apply (H5 1%nat (payload 100 []) 3). reflexivity.
Defined.

(** A theme command waiting for its row, and a screen command being sent. *)
Definition waiting : pentry := PEntry 1 2 Pending 1000 (Some (ofZ 7)) VUndef.
Definition sending : pentry := PEntry 2 3 Sending 1200 None VUndef.
Definition busy_page : page :=
  Page [] None [("theme", waiting); ("screen", sending)] [] 1300 4 n0 [Post "screen" 2 3 1200].
Definition theme_applied : value := payload 100 [VObj [("id", vz 7); ("status", VStr "applied")]].

Lemma panel_commands_end_witness :
  let s' := render (poll_answered 4 theme_applied 1400 busy_page) in
  exists p', assoc "theme" (pend s') = Some p' /\ settled (rows_of (fld theme_applied "recentCommands")) 1400 waiting p'.
Proof.
  destruct (panel_commands_end busy_page theme_applied 1400) as [H _].
  destruct H as (_ & _ & _ & H); [reflexivity| |exact (H "theme" waiting eq_refl)].
  split; [reflexivity|]. split; [reflexivity|]. split; [reflexivity|]. apply Forall_cons_2; [reflexivity|apply Forall_nil_2].
Defined.

Lemma panel_attempt_is_local_witness :
  latest (post_rejected (Post "screen" 2 3 900) "late" busy_page) = latest busy_page.
Proof.
  destruct (panel_attempt_is_local busy_page (Post "screen" 2 3 900) VNull "late" "theme") as (_ & H & _).
  specialize (H sending eq_refl ltac:(discriminate)).
  apply Forall_cons_1 in H as [_ H]. by apply Forall_cons_1 in H as [H _].
Defined.

Lemma reconcile_forgets_acceptance_witness :
  let s1 := post_accepted (Post "screen" 2 3 1200) (VObj [("cmdId", vz 8)]) busy_page in
  assoc "screen" (latest s1) = Some (PEntry 2 3 Pending 1200 (Some (ofZ 8)) VUndef) /\
  assoc "screen" (pend (render (poll_answered 4 theme_applied 1400 s1))) = Some sending.
Proof.
  split; [reflexivity|].
  apply (reconcile_forgets_acceptance busy_page (Post "screen" 2 3 1200) sending (VObj [("cmdId", vz 8)]) theme_applied 1400
           [("theme", set_applied waiting); ("screen", sending)]);
    [reflexivity|reflexivity|reflexivity|cbn; lia|reflexivity|reflexivity|reflexivity].
Defined.
