(* ===== verification/PanelFb.v ===== *)
(** * The panel's framebuffer and fonts (screens-panel.jsx)

    Fifty-three by eleven LEDs, three [Float32Array] cells each, in one flat
    array.  Coordinates are integers; a cell's value is rounded to binary32 when
    it is stored.  The drawing functions read and write the module's current
    framebuffer, here an argument and a result. *)

From Stdlib Require Import ZArith Lia Ascii.
From Corelib Require Import SpecFloat.
From stdpp Require Import strings pretty list.
From S2P Require Import Prelude JsNum JsValue Mappers PanelCfg TopoLayout.

Local Open Scope string_scope.
Local Open Scope list_scope.
Local Open Scope Z_scope.

(** ** Geometry and palette *)

Definition PW : Z := 53.
Definition PH : Z := 11.
Definition HIST_LEN : nat := 53.

Abbreviation color := (Z * Z * Z)%type.

Definition cOk : color := (61, 214, 140).
Definition cWarn : color := (245, 166, 35).
Definition cCrit : color := (255, 77, 94).
Definition cMaint : color := (155, 135, 255).
Definition cAzure : color := (34, 184, 240).
Definition cQuiet : color := (78, 107, 126).
Definition cInk : color := (223, 232, 242).
Definition cUnknown : color := (124, 138, 160).

Definition red (c : color) : num := ofZ c.1.1.
Definition green (c : color) : num := ofZ c.1.2.
Definition blue (c : color) : num := ofZ c.2.

(** ** Framebuffer *)

Abbreviation fb := (list num).

(** [for (let i = lo; i < hi; i++)]. *)
Definition for_range {S} (lo hi : Z) (body : Z -> S -> S) (s : S) : S :=
  fold_left (fun s i => body i s) (seqZ lo (hi - lo)) s.

Definition fbNew : fb := replicate 1749 n0.

(** [FB[i] = v]. *)
Definition store (i : nat) (v : num) (f : fb) : fb := <[i := fround v]> f.

Definition off_panel (x y : Z) : bool := (x <? 0) || (PW <=? x) || (y <? 0) || (PH <=? y).
Definition cell (x y : Z) : nat := Z.to_nat ((y * PW + x) * 3).

Definition fbClear (f : fb) : fb := map (fun _ => n0) f.

(** Store the three cells of a pixel. *)
Definition put3 (x y : Z) (r g b : num) (f : fb) : fb :=
  let i := cell x y in store (i + 2) b (store (i + 1) g (store i r f)).

Definition fbSet (x y : Z) (c : color) (b : num) (f : fb) : fb :=
  if off_panel x y then f
  else put3 x y (nmul (red c) b) (nmul (green c) b) (nmul (blue c) b) f.

Definition fbSetRgb (x y : Z) (r g bl b : num) (f : fb) : fb :=
  if off_panel x y then f else put3 x y (nmul r b) (nmul g b) (nmul bl b) f.

Definition fbAdd (x y : Z) (c : color) (b : num) (f : fb) : fb :=
  if off_panel x y then f
  else
    let i := cell x y in
    put3 x y (nadd (f !!! i) (nmul (red c) b)) (nadd (f !!! (i + 1)%nat) (nmul (green c) b))
         (nadd (f !!! (i + 2)%nat) (nmul (blue c) b)) f.

Definition fbDim (x y : Z) (k : num) (f : fb) : fb :=
  if off_panel x y then f
  else
    let i := cell x y in
    put3 x y (nmul (f !!! i) k) (nmul (f !!! (i + 1)%nat) k) (nmul (f !!! (i + 2)%nat) k) f.

Definition fbDimAll (k : num) (f : fb) : fb := map (fun v => fround (nmul v k)) f.

(** ** Fonts *)

(** Five rows of three bits, the first row in the high bits. *)
Definition FONT_SMALL (c : ascii) : Z :=
  match c with
  | "0" => 0x7B6F | "1" => 0x2C97 | "2" => 0x73E7 | "3" => 0x73CF | "4" => 0x5BC9
  | "5" => 0x79CF | "6" => 0x79EF | "7" => 0x7292 | "8" => 0x7BEF | "9" => 0x7BCF
  | "A" => 0x7BED | "B" => 0x6BAE | "C" => 0x7927 | "D" => 0x6B6E | "E" => 0x79E7
  | "F" => 0x79E4 | "G" => 0x796F | "H" => 0x5BED | "I" => 0x7497 | "J" => 0x126F
  | "K" => 0x5BAD | "L" => 0x4927 | "M" => 0x5FED | "N" => 0x6B6D | "O" => 0x7B6F
  | "P" => 0x7BE4 | "Q" => 0x7B79 | "R" => 0x7BF5 | "S" => 0x79CF | "T" => 0x7492
  | "U" => 0x5B6F | "V" => 0x5B6A | "W" => 0x5BFD | "X" => 0x5AAD | "Y" => 0x5A92
  | "Z" => 0x72A7 | "/" => 0x12A4 | ":" => 0x0410 | "." => 0x0002 | "-" => 0x01C0
  | "%" => 0x52A5 | "+" => 0x05D0 | ">" => 0x4454 | "!" => 0x2482 | " " => 0x0000
  | _ => 0
  end%char.

(** Seven rows of four bits. *)
Definition FONT_BIG (c : ascii) : Z :=
  match c with
  | "0" => 0x6999996 | "1" => 0x2622227 | "2" => 0x691248F | "3" => 0xE11611E
  | "4" => 0x26AAF22 | "5" => 0xF88E196 | "6" => 0x688E996 | "7" => 0xF122444
  | "8" => 0x6996996 | "9" => 0x6997116 | "." => 0x0000006 | "%" => 0x9922499
  | "G" => 0x788B996 | "M" => 0x9FF9999 | "S" => 0x788611E | " " => 0x0000000
  | _ => 0
  end%char.

Definition glyphSmall (ch : ascii) : Z := FONT_SMALL (upper_char ch).
Definition glyphBig (ch : ascii) : Z := FONT_BIG (upper_char ch).

Definition slen (s : string) : Z := Z.of_nat (String.length s).
Definition textW (s : string) : Z := slen s * 4 - 1.
Definition bigW (s : string) : Z := slen s * 5 - 1.

Definition textInk (b : num) : num :=
  if nle b n0 then n0 else if nge b (ofZ 1) then ofZ 1 else nadd (lit 85 2) (nmul (lit 15 2) b).

Definition drawSmall (cx y : Z) (ch : ascii) (c : color) (b : num) (f : fb) : fb :=
  let g := glyphSmall ch in
  let ink := textInk b in
  for_range 0 5 (fun ry => for_range 0 3 (fun rx f =>
    if Z.testbit g (14 - (ry * 3 + rx)) then fbSet (cx + rx) (y + ry) c ink f else f)) f.

(** Draw the characters from [cx] on. *)
Fixpoint text_from (cx y : Z) (l : list ascii) (c : color) (b : num) (f : fb) : fb :=
  match l with [] => f | ch :: r => text_from (cx + 4) y r c b (drawSmall cx y ch c b f) end.

(** The framebuffer, and the column after the text. *)
Definition panelText (x y : Z) (s : string) (c : color) (b : num) (f : fb) : fb := text_from x y (chars s) c b f.
Definition textEnd (x : Z) (s : string) : Z := x + 4 * slen s.

(** Dim the neighbourhood of each lit pixel, then draw. *)
Definition halo (cx y : Z) (ch : ascii) (f : fb) : fb :=
  let g := glyphSmall ch in
  for_range 0 5 (fun ry => for_range 0 3 (fun rx f =>
    if Z.testbit g (14 - (ry * 3 + rx))
    then for_range (-1) 2 (fun dy => for_range (-1) 2 (fun dx => fbDim (cx + rx + dx) (y + ry + dy) (lit 12 2))) f
    else f)) f.

Fixpoint halo_from (cx y : Z) (l : list ascii) (f : fb) : fb :=
  match l with [] => f | ch :: r => halo_from (cx + 4) y r (halo cx y ch f) end.

Definition panelTextOver (x y : Z) (s : string) (c : color) (b : num) (f : fb) : fb :=
  panelText x y s c b (halo_from x y (chars s) f).

Definition drawBig (cx y : Z) (ch : ascii) (c : color) (b : num) (f : fb) : fb :=
  let g := glyphBig ch in
  for_range 0 7 (fun ry => for_range 0 4 (fun rx f =>
    if Z.testbit g (27 - (ry * 4 + rx)) then fbSet (cx + rx) (y + ry) c b f else f)) f.

Fixpoint big_from (cx y : Z) (l : list ascii) (c : color) (b : num) (f : fb) : fb :=
  match l with [] => f | ch :: r => big_from (cx + 5) y r c b (drawBig cx y ch c b f) end.

Definition panelBig (x y : Z) (s : string) (c : color) (b : num) (f : fb) : fb := big_from x y (chars s) c b f.
Definition bigEnd (x : Z) (s : string) : Z := x + 5 * slen s.

(** ** Text helpers *)

(** [while (s.endsWith(" ")) s = s.slice(0, -1)]. *)
Fixpoint drop_blanks (s : string) : string :=
  match s with
  | EmptyString => EmptyString
  | String c r =>
      let t := drop_blanks r in
      if Ascii.eqb c " "%char && String.eqb t "" then EmptyString else String c t
  end.

(** [s.slice(0, n)]; a negative end counts from the back. *)
Definition slice0 (n : Z) (s : string) : string := stake (Z.to_nat (if n <? 0 then slen s + n else n)) s.

Definition textFit (x y : Z) (s : string) (n : Z) (c : color) (b : num) (f : fb) : fb :=
  panelText x y (drop_blanks (slice0 n s)) c b f.

Definition textRight (x y : Z) (s : string) (c : color) (b : num) (f : fb) : fb :=
  panelText (x - textW s + 1) y s c b f.

Definition textCentre (y : Z) (s : string) (c : color) (b : num) (f : fb) : fb :=
  let s := stake 13 s in panelText ((PW - textW s) / 2) y s c b f.

(** ** States *)

Definition ST_OK := 0.
Definition ST_DEGRADED := 1.
Definition ST_DOWN := 2.
Definition ST_UNKNOWN := 3.
Definition ST_MAINT := 4.

Definition STATE_ENUM : list (string * Z) :=
  [("ok", ST_OK); ("up", ST_OK); ("degraded", ST_DEGRADED); ("down", ST_DOWN); ("unknown", ST_UNKNOWN); ("maint", ST_MAINT)].

(** [STATE_ENUM[k]]: a state, an inherited member (not a state), or nothing. *)
Definition stateEnum (s : value) : value :=
  match s with
  | VNum n => if nge n n0 && nle n (ofZ 4) then s else vz ST_UNKNOWN
  | _ =>
      let k := toLowerCase (vstr (v_or s (VStr ""))) in
      match assoc k STATE_ENUM with
      | Some z => vz z
      | None => if existsb (String.eqb k) inherited then VObj [] else vz ST_UNKNOWN
      end
  end.

(** [[cOk, cWarn, cCrit, cUnknown, cMaint][stateEnum(s)] || cUnknown]. *)
Definition stateColor (s : value) : color :=
  match stateEnum s with
  | VNum n =>
      if nequ n (ofZ 0) then cOk else if nequ n (ofZ 1) then cWarn else if nequ n (ofZ 2) then cCrit
      else if nequ n (ofZ 4) then cMaint else cUnknown
  | _ => cUnknown
  end.

Definition state_is (z : Z) (s : value) : bool := strict_eq (stateEnum s) (vz z).

(** ** Pixels *)

Definition on_panel (x y : Z) : Prop := 0 <= x < PW /\ 0 <= y < PH.

Definition pixel (x y : Z) (f : fb) : num * num * num :=
  let i := cell x y in (f !!! i, f !!! (i + 1)%nat, f !!! (i + 2)%nat).

(** A pixel lit with a colour at a brightness, as stored. *)
Definition lit_as (c : color) (b : num) : num * num * num :=
  (fround (nmul (red c) b), fround (nmul (green c) b), fround (nmul (blue c) b)).

Definition full (f : fb) : Prop := length f = 1749%nat.

Lemma off_panel_spec x y : off_panel x y = false <-> on_panel x y.
Proof.
  unfold off_panel, on_panel. rewrite !orb_false_iff, !Z.ltb_ge, !Z.leb_gt. lia.
Qed.

Lemma put3_full x y r g b f : full f -> full (put3 x y r g b f).
Proof. unfold full, put3, store. intros H. by rewrite !length_insert. Qed.

(** Two pixels of the panel are the same or three cells apart. *)
Lemma cell_apart x y px py :
  on_panel x y -> on_panel px py ->
  (cell x y + 2 < 1749)%nat /\
  ((x = px /\ y = py) \/ (~ (x = px /\ y = py) /\ ((cell x y + 3 <= cell px py)%nat \/ (cell px py + 3 <= cell x y)%nat))).
Proof. unfold on_panel, cell, PW, PH. intros [Hx Hy] [Hpx Hpy]. lia. Qed.

Lemma put3_pixel x y px py r g b f :
  full f -> on_panel x y -> on_panel px py ->
  pixel px py (put3 x y r g b f) =
  if decide (x = px /\ y = py) then (fround r, fround g, fround b) else pixel px py f.
Proof.
  intros Hf Hx Hp. destruct (cell_apart x y px py Hx Hp) as [Hlt [[-> ->]|[Hne Hc]]].
  - rewrite decide_True by done. unfold pixel, put3, store, full in *. generalize dependent (cell px py). intros k Hlt.
    rewrite (list_lookup_total_insert_ne _ (k + 2) k), (list_lookup_total_insert_ne _ (k + 1) k) by lia.
    rewrite (list_lookup_total_insert_ne _ (k + 2) (k + 1)) by lia.
    rewrite !list_lookup_total_insert_eq by (rewrite ?length_insert; lia). done.
  - rewrite decide_False by done. unfold pixel, put3, store. generalize dependent (cell px py). intros m Hc.
    by rewrite !list_lookup_total_insert_ne by lia.
Qed.

Lemma fbSet_pixel x y c b px py f :
  full f -> on_panel px py ->
  pixel px py (fbSet x y c b f) = if decide (x = px /\ y = py) then lit_as c b else pixel px py f.
Proof.
  intros Hf Hp. unfold fbSet. destruct (off_panel x y) eqn:E.
  - case_decide as Hd; [|done]. destruct Hd as [-> ->]. apply off_panel_spec in Hp. congruence.
  - apply off_panel_spec in E. by rewrite put3_pixel.
Qed.

Lemma fbSet_full x y c b f : full f -> full (fbSet x y c b f).
Proof. intros H. unfold fbSet. destruct (off_panel x y); [done|by apply put3_full]. Qed.

Lemma fbDim_full x y k f : full f -> full (fbDim x y k f).
Proof. intros H. unfold fbDim. destruct (off_panel x y); [done|by apply put3_full]. Qed.

Lemma fbDimAll_full k f : full f -> full (fbDimAll k f).
Proof. unfold full, fbDimAll. by rewrite length_map. Qed.

Lemma fbClear_full f : full f -> full (fbClear f).
Proof. unfold full, fbClear. by rewrite length_map. Qed.

(** ** Drawing within a region *)

(** The operation keeps the buffer's size and every pixel outside the region. *)
Definition within (P : Z -> Z -> Prop) (op : fb -> fb) : Prop :=
  forall f, full f -> full (op f) /\ forall x y, on_panel x y -> ~ P x y -> pixel x y (op f) = pixel x y f.

Lemma within_id P : within P (fun f => f).
Proof. done. Qed.

Lemma within_comp P op op' : within P op -> within P op' -> within P (fun f => op' (op f)).
Proof.
  intros H H' f Hf. destruct (H f Hf) as [H1 H2]. destruct (H' _ H1) as [H3 H4]. split; [done|].
  intros x y Hp Hn. by rewrite H4, H2.
Qed.

Lemma within_weaken (P Q : Z -> Z -> Prop) op : (forall x y, P x y -> Q x y) -> within P op -> within Q op.
Proof. intros HPQ H f Hf. destruct (H f Hf) as [H1 H2]. split; [done|]. intros x y Hp Hn. apply H2; [done|]. auto. Qed.

Lemma within_fbSet (P : Z -> Z -> Prop) x y c b : P x y -> within P (fbSet x y c b).
Proof.
  intros HP f Hf. split; [by apply fbSet_full|]. intros px py Hp Hn. rewrite fbSet_pixel by done.
  case_decide as Hd; [|done]. by destruct Hd as [-> ->].
Qed.

Lemma within_for P lo hi body :
  (forall i, lo <= i < hi -> within P (body i)) -> within P (for_range lo hi body).
Proof.
  intros H. unfold for_range.
  assert (Hall : Forall (fun i => within P (body i)) (seqZ lo (hi - lo))).
  { apply Forall_forall. intros i Hi%elem_of_seqZ. apply H. lia. }
  induction Hall as [|i l Hi Hl IH]; [apply within_id|]. cbn [fold_left]. by apply (within_comp P (body i)).
Qed.

Lemma within_if P (b : bool) op op' : within P op -> within P op' -> within P (fun f => if b then op f else op' f).
Proof. by destruct b. Qed.

Definition box (x y w h : Z) (px py : Z) : Prop := x <= px < x + w /\ y <= py < y + h.

Lemma within_drawSmall P cx y ch c b :
  (forall px py, box cx y 3 5 px py -> P px py) -> within P (drawSmall cx y ch c b).
Proof.
  intros H. unfold drawSmall. apply within_for. intros ry Hy. apply within_for. intros rx Hx.
  apply (within_if P); [|apply within_id]. apply within_fbSet. apply H. unfold box. lia.
Qed.

Lemma within_text_from P cx y l c b :
  (forall px py, box cx y (4 * Z.of_nat (length l) - 1) 5 px py -> P px py) -> within P (text_from cx y l c b).
Proof.
  revert cx. induction l as [|ch l IH]; intros cx H; [apply within_id|]. cbn [text_from].
  apply (within_comp P (drawSmall cx y ch c b)).
  - apply within_drawSmall. intros px py Hb. apply H. unfold box in *. cbn [length]. lia.
  - apply IH. intros px py Hb. apply H. unfold box in *. cbn [length]. lia.
Qed.

Lemma chars_length s : length (chars s) = String.length s.
Proof. induction s as [|c s IH]; [done|]. cbn. by rewrite IH. Qed.

Lemma within_panelText P x y s c b :
  (forall px py, box x y (textW s) 5 px py -> P px py) -> within P (panelText x y s c b).
Proof.
  intros H. apply within_text_from. intros px py Hb. apply H. unfold box, textW, slen in *.
  rewrite chars_length in Hb. lia.
Qed.

Lemma within_drawBig P cx y ch c b :
  (forall px py, box cx y 4 7 px py -> P px py) -> within P (drawBig cx y ch c b).
Proof.
  intros H. unfold drawBig. apply within_for. intros ry Hy. apply within_for. intros rx Hx.
  apply (within_if P); [|apply within_id]. apply within_fbSet. apply H. unfold box. lia.
Qed.

Lemma within_panelBig P x y s c b :
  (forall px py, box x y (bigW s) 7 px py -> P px py) -> within P (panelBig x y s c b).
Proof.
  intros H. unfold panelBig. assert (Hl : slen s = Z.of_nat (length (chars s))) by (by rewrite chars_length).
  unfold bigW in H. rewrite Hl in H. clear Hl. revert x H. induction (chars s) as [|ch l IH]; intros x H; [apply within_id|].
  cbn [big_from]. apply (within_comp P (drawBig x y ch c b)).
  - apply within_drawBig. intros px py Hb. apply H. unfold box in *. cbn [length]. lia.
  - apply IH. intros px py Hb. apply H. unfold box in *. cbn [length]. lia.
Qed.

Lemma drop_blanks_length s : (String.length (drop_blanks s) <= String.length s)%nat.
Proof. induction s as [|c s IH]; [done|]. cbn. destruct (_ && _); cbn; lia. Qed.

Lemma stake_length n s : String.length (stake n s) = Nat.min n (String.length s).
Proof. revert s. induction n as [|n IH]; intros [|c s]; try done. cbn. by rewrite IH. Qed.

Lemma within_textFit (P : Z -> Z -> Prop) x y s n c b :
  0 <= n -> (forall px py, box x y (4 * n - 1) 5 px py -> P px py) -> within P (textFit x y s n c b).
Proof.
  intros Hn H. unfold textFit. apply within_panelText. intros px py Hb. apply H. unfold box, textW, slen in *.
  pose proof (drop_blanks_length (slice0 n s)) as H1. unfold slice0 in H1 at 2. rewrite stake_length in H1.
  rewrite (proj2 (Z.ltb_ge n 0)) in H1 by lia. lia.
Qed.

Lemma within_textRight (P : Z -> Z -> Prop) x y s c b :
  (forall px py, box (x - textW s + 1) y (textW s) 5 px py -> P px py) -> within P (textRight x y s c b).
Proof. apply within_panelText. Qed.

Lemma within_textCentre (P : Z -> Z -> Prop) y s c b :
  (forall px py, box 0 y PW 5 px py -> P px py) -> within P (textCentre y s c b).
Proof.
  intros H. unfold textCentre. apply within_panelText. intros px py Hb. apply H. revert Hb. unfold box, textW, slen, PW.
  rewrite stake_length. intros [Hx Hy]. split; [|done].
  set (n := Z.of_nat (Nat.min 13 (String.length s))) in *. assert (0 <= n <= 13) by lia.
  pose proof (Z.div_mod (53 - (n * 4 - 1)) 2 ltac:(lia)). pose proof (Z.mod_pos_bound (53 - (n * 4 - 1)) 2 ltac:(lia)). lia.
Qed.
