(* ===== verification/PanelEnv.v ===== *)
(** * What the panel's screens draw from (screens-panel.jsx)

    [resampleRings] lays the received payloads on a fixed grid of fifty-three
    slots ending at the newest, and [buildEnv] collects what the renderers read.
    A payload is a non-null value; a cadence is a number of milliseconds. *)

From Stdlib Require Import ZArith Lia Ascii Sorted.
From Corelib Require Import SpecFloat.
From stdpp Require Import strings pretty list.
From S2P Require Import Prelude JsNum JsValue Mappers TopoLayout PanelCfg PanelFb.

Local Open Scope string_scope.
Local Open Scope list_scope.
Local Open Scope Z_scope.

Definition CADENCE_MS_DEFAULT : num := ofZ 5000.
Definition PEAK_FLOOR_KBPS : num := ofZ 1000.
Definition PEAK_DECAY : num := lit 997 3.

(** [v[i]] of an array; nothing elsewhere. *)
Definition at_idx (v : value) (i : Z) : value :=
  match v with VArr l => if i <? 0 then VUndef else nth (Z.to_nat i) l VUndef | _ => VUndef end.

(** ** The sweep *)

(** [while (j + 1 < samples.length && sampleMs(samples[j + 1]) <= lim) j++], with
    the current sample and those after it. *)
Fixpoint advance (lim : num) (cur : value) (rest : list value) : value * list value :=
  match rest with
  | [] => (cur, [])
  | nx :: r => if nle (sampleMs nx) lim then advance lim nx r else (cur, rest)
  end.

(** The time of slot [i]. *)
Definition slotT (newest cadence : num) (i : nat) : num :=
  nsub newest (nmul (ofZ (Z.of_nat (HIST_LEN - 1 - i))) cadence).

(** The slots from [i] on: the sample picked (or [null]) and whether it is old. *)
Fixpoint sweep (newest cadence : num) (slots : list nat) (cur : value) (rest : list value) : list (value * bool) :=
  match slots with
  | [] => []
  | i :: more =>
      let t := slotT newest cadence i in
      let half := ndiv cadence (ofZ 2) in
      let '(s, rest') := advance (nadd t half) cur rest in
      (if ngt (sampleMs s) (nadd t half) then (VNull, false)
       else (s, ngt (nsub t (sampleMs s)) (nmul (ofZ 2) cadence)))
      :: sweep newest cadence more s rest'
  end.

(** The number of leading slots without a sample, at most all but one. *)
Fixpoint leading_empty (l : list (value * bool)) : nat :=
  match l with (v, _) :: r => if truthy v then 0%nat else S (leading_empty r) | [] => 0%nat end.

Definition firstReal (picks : list (value * bool)) : nat := Nat.min (leading_empty picks) (HIST_LEN - 1).

(** ** The rings *)

Record slot := Slot { thru : num; egress : num; cpuHist : num; rttHist : num }.

(** The adaptive peak after a sample. *)
Definition next_peak (peak rx tx : num) : num :=
  let peak := nmul peak PEAK_DECAY in
  let peak := if ngt (nadd rx tx) peak then nadd rx tx else peak in
  if nlt peak PEAK_FLOOR_KBPS then PEAK_FLOOR_KBPS else peak.

Definition slot_of (peak : num) (s : value) : slot :=
  Slot (fround (clamp01 (ndiv (numOf (fld s "rxKbps")) peak)))
       (fround (clamp01 (ndiv (numOf (fld s "txKbps")) peak)))
       (fround (clamp01 (ndiv (numOf (fld s "meanLoadPct")) (ofZ 100))))
       (fround (clamp01 (ndiv (ndiv (numOf (fld s "rttTenthMs")) (ofZ 10)) (ofZ 100)))).

(** The loop over the filled slots: peak, gaps, and the values. *)
Fixpoint replay (last : value) (peak : num) (gaps : nat) (picks : list (value * bool)) : num * nat * list slot :=
  match picks with
  | [] => (peak, gaps, [])
  | (v, gap) :: r =>
      let s := v_or v last in
      let peak' := next_peak peak (numOf (fld s "rxKbps")) (numOf (fld s "txKbps")) in
      let '(pk, gs, slots) := replay last peak' (if gap then S gaps else gaps) r in
      (pk, gs, slot_of peak' s :: slots)
  end.

Record rings := Rings { r_slots : list slot; histFill : nat; gaps : nat; peakKbps : num }.

Definition resampleRings (s0 : value) (rest : list value) (cadence : num) : rings :=
  let newest := List.last rest s0 in
  let picks := sweep (sampleMs newest) cadence (seq 0 HIST_LEN) s0 rest in
  let first := firstReal picks in
  let '(pk, gs, slots) := replay newest PEAK_FLOOR_KBPS 0 (drop first picks) in
  let head := hd (slot_of pk newest) slots in
  Rings (replicate first head ++ slots) (HIST_LEN - first) gs pk.

(** ** The environment *)

(** The rings the firmware keeps itself. *)
Record local := Local {
  wanDown : list num; wanUp : list num; lanDown : list num; lanUp : list num;
  cpuLocal : list num; rttLocal : list num; probeHist : list (list num) }.

Definition minus1 : num := ofZ (-1).
Definition ring0 : list num := replicate HIST_LEN minus1.
Definition local0 : local := Local ring0 ring0 ring0 ring0 ring0 ring0 (replicate 11 ring0).

(** [a.copyWithin(0, 1); a[HIST_LEN - 1] = v]. *)
Definition push_ring (v : num) (a : list num) : list num := tail a ++ [fround v].

(** [totals.k == null ? -1 : num(totals.k)], -1 without totals. *)
Definition rate_of (totals : value) (k : string) : num :=
  if truthy totals then if nullish (fld totals k) then minus1 else numOf (fld totals k) else minus1.

Definition probe_cell (q : value) (pi : nat) : num :=
  let probe := if truthy (fld q "probes") then at_idx (fld q "probes") (Z.of_nat pi) else fld q "probes" in
  if truthy probe then
    if nge (numOf (fld probe "lossPermille")) (ofZ 500) then ofZ 65535 else numOf (fld probe "rttTenthMs")
  else minus1.

Definition push_local (e : local) (q : value) : local :=
  let totals := fld q "totals" in
  Local (push_ring (rate_of totals "wanDownKbps") (wanDown e)) (push_ring (rate_of totals "wanUpKbps") (wanUp e))
        (push_ring (rate_of totals "lanDownKbps") (lanDown e)) (push_ring (rate_of totals "lanUpKbps") (lanUp e))
        (push_ring (ndiv (numOf (fld q "meanLoadPct")) (ofZ 100)) (cpuLocal e))
        (push_ring (if nge (numOf (fld q "lossPermille")) (ofZ 1000) then minus1
                    else ndiv (numOf (fld q "rttTenthMs")) (ofZ 10)) (rttLocal e))
        (imap (fun pi a => push_ring (probe_cell q pi) a) (probeHist e)).

Record env := Env {
  raw : value; alarmActive : bool; dataStale : bool; score : num; episodeId : num;
  e_up : num; e_deg : num; e_down : num; e_unknown : num; e_maint : num; e_total : num;
  e_histFill : nat; e_gaps : nat; loc : local; hasAlert : bool; subject : string; detail : string }.

Definition buildEnv (s0 : value) (rest : list value) (cadence : num) : env :=
  let d := List.last rest s0 in
  let roll := v_or (fld d "stateRoll") (VObj []) in
  let up := numOf (v_nn (fld roll "up") (fld roll "ok")) in
  let deg := numOf (fld roll "degraded") in
  let down := numOf (fld roll "down") in
  let unknown := numOf (fld roll "unknown") in
  let maint := numOf (fld roll "maint") in
  let r := resampleRings s0 rest cadence in
  let ta := fld d "topAlert" in
  Env d (truthy (fld d "alarmActive")) (truthy (fld d "dataStale")) (numOf (fld d "score")) (numOf (fld d "episodeId"))
      up deg down unknown maint (nadd (nadd (nadd (nadd up deg) down) unknown) maint)
      (histFill r) (gaps r) (fold_left push_local (s0 :: rest) local0) (truthy ta)
      (if truthy ta then vstr (v_or (fld ta "subject") (VStr "")) else "ALL NOMINAL")
      (if truthy ta then vstr (v_or (fld ta "detail") (VStr "")) else "NO FINDINGS").

(** ** Values in the unit interval *)

(** What a ring cell holds: a number between 0 and 1, rounded to binary32. *)
Definition unit_cell (v : num) : Prop :=
  exists u, v = fround u /\ is_nan u = false /\ nle n0 u = true /\ nle u (ofZ 1) = true.

Lemma clamp01_unit v : is_nan v = false -> unit_cell (fround (clamp01 v)).
Proof.
  intros Hn. exists (clamp01 v). split; [done|]. unfold clamp01, ngt. change (SFltb (ofZ 1) v) with (nlt (ofZ 1) v).
  destruct (nlt v n0) eqn:E1; [done|]. destruct (nlt (ofZ 1) v) eqn:E2; [done|].
  split; [done|]. split; apply nlt_false_nle; done.
Qed.

Lemma numOf_finite v : is_finite (numOf v) = true.
Proof. unfold numOf. cbv zeta. by destruct (is_finite (vnum v)) eqn:E. Qed.

Definition peak_ok (p : num) : Prop := is_nan p = false /\ nle PEAK_FLOOR_KBPS p = true.

Lemma next_peak_ok peak rx tx :
  peak_ok peak -> is_finite rx = true -> is_finite tx = true -> peak_ok (next_peak peak rx tx).
Proof.
  intros [Hn _] Hr Ht. unfold next_peak. cbv zeta. set (p1 := nmul peak PEAK_DECAY).
  assert (H1 : is_nan p1 = false).
  { unfold p1. destruct peak as [s|s| |s m e]; try done; by apply nmul_not_nan. }
  set (p2 := if ngt _ _ then _ else _).
  assert (H2 : is_nan p2 = false) by (unfold p2; destruct (ngt _ _); [by apply nadd_not_nan|done]).
  clearbody p2. destruct (nlt p2 PEAK_FLOOR_KBPS) eqn:E; [done|]. split; [done|]. by apply nlt_false_nle.
Qed.

Definition slot_ok (s : slot) : Prop :=
  unit_cell (thru s) /\ unit_cell (egress s) /\ unit_cell (cpuHist s) /\ unit_cell (rttHist s).

Lemma peak_ok_nonzero p : peak_ok p -> nequ p n0 = false.
Proof. intros [Hn Hp]. destruct p as [s|s| |s m e]; try done; by destruct s. Qed.

Lemma slot_of_ok peak s : peak_ok peak -> slot_ok (slot_of peak s).
Proof.
  intros Hp. pose proof (peak_ok_nonzero peak Hp) as Hz. destruct Hp as [Hn _].
  assert (Hd : forall k, is_nan (ndiv (numOf (fld s k)) peak) = false)
    by (intros k; apply ndiv_not_nan; [apply numOf_finite|done|done]).
  split; [|split; [|split]]; apply clamp01_unit; [apply Hd|apply Hd|..]; apply ndiv_by_finite_not_nan; try done.
  - apply is_finite_not_nan, numOf_finite.
  - apply ndiv_by_finite_not_nan; [apply is_finite_not_nan, numOf_finite|done|done].
Qed.

(** ** The shape of the rings *)

Lemma replay_spec last picks peak g :
  peak_ok peak ->
  let '(pk, gs, slots) := replay last peak g picks in
  peak_ok pk /\ (g <= gs <= g + length picks)%nat /\ length slots = length picks /\ Forall slot_ok slots.
Proof.
  revert peak g. induction picks as [|[v gap] picks IH]; intros peak g Hp; cbn [replay].
  { split; [done|]. cbn. split; [lia|]. done. }
  set (pk' := next_peak _ _ _). assert (Hp' : peak_ok pk') by (apply next_peak_ok; [done|apply numOf_finite..]).
  specialize (IH pk' (if gap then S g else g) Hp').
  destruct (replay last pk' _ picks) as [[pk gs] slots]. destruct IH as (H1 & H2 & H3 & H4).
  split; [done|]. cbn [length]. split; [destruct gap; lia|]. split; [lia|]. constructor; [by apply slot_of_ok|done].
Qed.

Lemma sweep_length newest cadence slots cur rest : length (sweep newest cadence slots cur rest) = length slots.
Proof.
  revert cur rest. induction slots as [|i slots IH]; intros cur rest; [done|]. cbn [sweep].
  destruct (advance _ cur rest) as [s rest']. cbn. by rewrite IH.
Qed.

Definition local_ok (e : local) : Prop :=
  Forall (fun r => length r = HIST_LEN) ([wanDown e; wanUp e; lanDown e; lanUp e; cpuLocal e; rttLocal e] ++ probeHist e) /\
  length (probeHist e) = 11%nat.

Lemma push_ring_length v a : length a = HIST_LEN -> length (push_ring v a) = HIST_LEN.
Proof. unfold push_ring. intros H. rewrite length_app. destruct a; [done|]. cbn in *. lia. Qed.

Lemma push_local_ok e q : local_ok e -> local_ok (push_local e q).
Proof.
  intros [H Hp]. apply Forall_app in H as [H H11].
  split; [|unfold push_local; cbn; by rewrite length_imap]. apply Forall_app. split.
  - unfold push_local. cbn [wanDown wanUp lanDown lanUp cpuLocal rttLocal].
    repeat (apply Forall_cons in H as [? H]). repeat (apply Forall_cons_2; [by apply push_ring_length|]). apply Forall_nil_2.
  - unfold push_local. cbn [probeHist]. rewrite Forall_lookup in H11 |- *. intros i r Hr.
    rewrite list_lookup_imap in Hr. destruct (probeHist e !! i) as [a|] eqn:E; [|done]. injection Hr as <-.
    apply push_ring_length. by eapply H11.
Qed.

Lemma pushes_ok l e : local_ok e -> local_ok (fold_left push_local l e).
Proof. revert e. induction l as [|q l IH]; intros e H; [done|]. cbn. apply IH. by apply push_local_ok. Qed.

(** ** The sweep picks the latest sample of each slot *)

Abbreviation before := (fun a b => nlt (sampleMs a) (sampleMs b) = true).

(** [v] is the latest sample up to [lim]; [null] when there is none. *)
Definition latest_upto (all : list value) (lim : num) (v : value) : Prop :=
  (v = VNull /\ Forall (fun s => nlt lim (sampleMs s) = true) all) \/
  (v ∈ all /\ nle (sampleMs v) lim = true /\
   Forall (fun s => nle (sampleMs s) lim = true -> nle (sampleMs s) (sampleMs v) = true) all).

Lemma advance_spec lim cur rest s rest' :
  advance lim cur rest = (s, rest') ->
  exists mid, cur :: rest = mid ++ s :: rest' /\
    (s = cur /\ mid = [] \/ nle (sampleMs s) lim = true) /\
    match rest' with nx :: _ => nle (sampleMs nx) lim = false | [] => True end.
Proof.
  revert cur. induction rest as [|nx rest IH]; intros cur; cbn [advance].
  { intros [= <- <-]. exists []. auto. }
  destruct (nle (sampleMs nx) lim) eqn:E.
  - intros H. destruct (IH nx H) as (mid & E1 & E2 & E3). exists (cur :: mid). cbn. rewrite <- E1.
    split; [done|]. split; [right; by destruct E2 as [[-> _]|E2]|done].
  - intros [= <- <-]. exists []. auto.
Qed.

(** In a sorted list, the elements around a split. *)
Lemma sorted_split pre (s : value) post :
  StronglySorted before (pre ++ s :: post) ->
  Forall (fun x => nlt (sampleMs x) (sampleMs s) = true) pre /\ Forall (fun x => nlt (sampleMs s) (sampleMs x) = true) post.
Proof.
  induction pre as [|x pre IH]; cbn; intros H; inversion H as [|? ? H1 H2]; subst; [done|].
  destruct (IH H1) as [H3 H4]. split; [|done]. constructor; [|done]. rewrite Forall_app in H2. destruct H2 as [_ H2].
  by inversion H2.
Qed.

Section SweepProofs.
Context (newest cadence : num).

(** The end of the slot's window. *)
Definition lim (i : nat) : num := nadd (slotT newest cadence i) (ndiv cadence (ofZ 2)).

(** What the sweep should say of slot [i]. *)
Definition picked (all : list value) (i : nat) (p : value * bool) : Prop :=
  latest_upto all (lim i) p.1 /\
  (p.2 = true <-> p.1 ∈ all /\ nle (sampleMs p.1) (lim i) = true /\
                  ngt (nsub (slotT newest cadence i) (sampleMs p.1)) (nmul (ofZ 2) cadence) = true).

Lemma picked_none all i s :
  is_nan (lim i) = false -> Forall (fun x => nlt (sampleMs s) (sampleMs x) = true) all ->
  nlt (lim i) (sampleMs s) = true -> picked (s :: all) i (VNull, false).
Proof.
  intros Hn Hall Hs.
  assert (Hf : Forall (fun x => nlt (lim i) (sampleMs x) = true) (s :: all)).
  { constructor; [done|]. eapply Forall_impl; [exact Hall|]. intros x Hx.
    eapply nlt_trans; [..|exact Hs|exact Hx]; [done|apply sampleMs_not_nan..]. }
  split; [by left|]. split; [done|]. intros (Hin & Hle & _). rewrite Forall_forall in Hf.
  exfalso. eapply nlt_not_nle; [apply Hf, Hin|exact Hle].
Qed.

Lemma picked_some pre s post i :
  StronglySorted before (pre ++ s :: post) -> is_nan (lim i) = false -> nle (sampleMs s) (lim i) = true ->
  match post with nx :: _ => nle (sampleMs nx) (lim i) = false | [] => True end ->
  picked (pre ++ s :: post) i (s, ngt (nsub (slotT newest cadence i) (sampleMs s)) (nmul (ofZ 2) cadence)).
Proof.
  intros Hs Hn Hle Hp. destruct (sorted_split _ _ _ Hs) as [H1 H2].
  assert (Hin : s ∈ pre ++ s :: post) by (apply elem_of_app; right; left).
  assert (Hpost : Forall (fun x => nlt (lim i) (sampleMs x) = true) post).
  { destruct post as [|nx post]; [done|]. apply nle_false_nlt in Hp; [|apply sampleMs_not_nan|done].
    constructor; [done|]. replace (pre ++ s :: nx :: post) with ((pre ++ [s]) ++ nx :: post) in Hs by (by rewrite <- app_assoc).
    destruct (sorted_split _ _ _ Hs) as [_ H3]. eapply Forall_impl; [exact H3|]. intros x Hx.
    eapply nlt_trans; [..|exact Hp|exact Hx]; [done|apply sampleMs_not_nan..]. }
  split.
  - right. split; [done|]. split; [done|]. apply Forall_app. split; [|constructor].
    + eapply Forall_impl; [exact H1|]. intros x Hx _. by apply nlt_nle.
    + intros _. apply nle_refl, sampleMs_not_nan.
    + eapply Forall_impl; [exact Hpost|]. intros x Hx Hx'. exfalso. exact (nlt_not_nle _ _ Hx Hx').
  - cbn [fst snd]. tauto.
Qed.

Lemma sweep_picks slots pre cur rest :
  StronglySorted before (pre ++ cur :: rest) -> Forall (fun i => is_nan (lim i) = false) slots ->
  StronglySorted (fun i j => nle (lim i) (lim j) = true) slots ->
  pre = [] \/ Forall (fun i => nle (sampleMs cur) (lim i) = true) slots ->
  Forall2 (picked (pre ++ cur :: rest)) slots (sweep newest cadence slots cur rest).
Proof.
  revert pre cur rest. induction slots as [|i slots IH]; intros pre cur rest Hs Hn Hl Hc; [constructor|].
  apply Forall_cons in Hn as [Hni Hn]. inversion Hl as [|? ? Hl' Hli]; subst. cbn [sweep].
  change (nadd (slotT newest cadence i) (ndiv cadence (ofZ 2))) with (lim i).
  destruct (advance (lim i) cur rest) as [s rest'] eqn:E. destruct (advance_spec _ _ _ _ _ E) as (mid & E1 & E2 & E3).
  rewrite E1 in *. rewrite app_assoc in *.
  unfold ngt at 1. change (SFltb (lim i) (sampleMs s)) with (nlt (lim i) (sampleMs s)).
  destruct (nlt (lim i) (sampleMs s)) eqn:Hlt.
  - destruct E2 as [[-> ->]|E2]; [|exfalso; exact (nlt_not_nle _ _ Hlt E2)].
    destruct Hc as [-> |Hc]; [|apply Forall_cons in Hc as [Hc _]; exfalso; exact (nlt_not_nle _ _ Hlt Hc)].
    constructor; [|apply (IH [] cur rest'); auto]. apply picked_none; [done| |done]. by destruct (sorted_split [] _ _ Hs).
  - assert (Hle : nle (sampleMs s) (lim i) = true) by (apply nlt_false_nle; [done|apply sampleMs_not_nan|done]).
    constructor; [by apply picked_some|]. apply IH; [done|done|done|]. right.
    rewrite Forall_forall in *. intros j Hj. eapply nle_trans; [..|exact Hle|by apply Hli]; [apply sampleMs_not_nan|done|by apply Hn].
Qed.
End SweepProofs.

(** ** Properties *)

(** C39: what the screens draw from is well formed for any payloads.  Each history
    ring has fifty-three cells, numbers between 0 and 1; at least one slot holds
    data and no more gaps are counted than slots filled; the peak never falls
    below its floor; and the firmware's own rings keep their length. *)
Theorem panel_rings_well_formed (s0 : value) (rest : list value) (cadence : num) :
  let r := resampleRings s0 rest cadence in
  length (r_slots r) = HIST_LEN /\ Forall slot_ok (r_slots r) /\
  (1 <= histFill r <= HIST_LEN)%nat /\ (gaps r <= histFill r)%nat /\ peak_ok (peakKbps r) /\
  local_ok (loc (buildEnv s0 rest cadence)).
Proof.
  cbv zeta. split; [|split; [|split; [|split; [|split]]]]; cycle 5.
  { apply pushes_ok. split; [|done]. apply Forall_app. split; [|by apply Forall_replicate].
    repeat (apply Forall_cons_2; [done|]). apply Forall_nil_2. }
  all: unfold resampleRings; cbv zeta; set (picks := sweep _ _ _ _ _).
  all: assert (Hf : (firstReal picks <= HIST_LEN - 1)%nat) by (unfold firstReal; lia).
  all: assert (Hl : length picks = HIST_LEN) by (unfold picks; rewrite sweep_length; by rewrite length_seq).
  all: pose proof (replay_spec (List.last rest s0) (drop (firstReal picks) picks) PEAK_FLOOR_KBPS 0 ltac:(done)) as H.
  all: destruct (replay _ _ 0 _) as [[pk gs] slots]; destruct H as (H1 & H2 & H3 & H4);
       rewrite length_drop, Hl in H2, H3; cbn [r_slots histFill gaps peakKbps]; unfold HIST_LEN in *.
  - rewrite length_app, length_replicate. lia.
  - apply Forall_app. split; [|done]. destruct slots as [|x slots]; [cbn in H3; lia|]. cbn [hd].
    apply Forall_replicate. by inversion H4.
  - lia.
  - lia.
  - done.
Qed.

(** The sweep is a faithful resampling.  When the payloads are in order of
    time and the windows of the slots too, each slot gets the latest payload up to
    the end of its window, or none if there is none, and is marked as a gap
    exactly when that payload is more than two cadences older than the slot: the
    one pass over both lists finds what a search per slot would. *)
Theorem resample_picks_latest (s0 : value) (rest : list value) (newest cadence : num) :
  StronglySorted before (s0 :: rest) ->
  Forall (fun i => is_nan (lim newest cadence i) = false) (seq 0 HIST_LEN) ->
  StronglySorted (fun i j => nle (lim newest cadence i) (lim newest cadence j) = true) (seq 0 HIST_LEN) ->
  Forall2 (picked newest cadence (s0 :: rest)) (seq 0 HIST_LEN) (sweep newest cadence (seq 0 HIST_LEN) s0 rest).
Proof. intros Hs Hn Hl. apply (sweep_picks newest cadence (seq 0 HIST_LEN) []); auto. Qed.

(** Sortedness, decided. *)
Fixpoint sorted_check {A} (R : A -> A -> bool) (l : list A) : bool :=
  match l with [] => true | x :: r => forallb (R x) r && sorted_check R r end.

Lemma sorted_check_spec {A} (R : A -> A -> bool) (l : list A) :
  sorted_check R l = true -> StronglySorted (fun a b => R a b = true) l.
Proof.
  induction l as [|x l IH]; cbn; [constructor|]. intros [H1 H2]%andb_true_iff. constructor; [by apply IH|].
  rewrite Forall_forall. intros y Hy. rewrite forallb_forall in H1. apply H1. by apply list_elem_of_In.
Qed.

Definition at_ts (ts : Z) : value := VObj [("ts", vz ts)].

Lemma resample_picks_latest_witness :
  Forall2 (picked (sampleMs (at_ts 3000)) CADENCE_MS_DEFAULT [at_ts 2900; at_ts 2995; at_ts 3000]) (seq 0 HIST_LEN)
    (sweep (sampleMs (at_ts 3000)) CADENCE_MS_DEFAULT (seq 0 HIST_LEN) (at_ts 2900) [at_ts 2995; at_ts 3000]).
Proof.
  apply (resample_picks_latest (at_ts 2900) [at_ts 2995; at_ts 3000] (sampleMs (at_ts 3000)) CADENCE_MS_DEFAULT).
  - apply (sorted_check_spec (fun a b => nlt (sampleMs a) (sampleMs b))). vm_compute. reflexivity.
  - apply List.Forall_forall. intros i Hi. apply negb_true_iff. revert i Hi. apply forallb_forall. vm_compute. reflexivity.
  - apply (sorted_check_spec (fun i j => nle (lim (sampleMs (at_ts 3000)) CADENCE_MS_DEFAULT i)
                                             (lim (sampleMs (at_ts 3000)) CADENCE_MS_DEFAULT j))). vm_compute. reflexivity.
Defined.
