(* ===== verification/PanelScreens.v ===== *)
(** * The sixteen screens (screens-panel.jsx, sA0 to sD3)

    Each renderer draws on the framebuffer and may advance its page clock, its
    lanes' phases or the aurora's phase, which live beside the framebuffer.  The
    lists of a payload (systems, pools, links, probes, alerts) are arrays of
    objects; [Math.log10], [Math.log2] and [Math.sin] are parameters.  Loops over
    pixels run over integers; quantities that come from the payload stay numbers. *)

From Stdlib Require Import ZArith Lia Ascii.
From Corelib Require Import SpecFloat.
From stdpp Require Import strings pretty gmap list.
From S2P Require Import Prelude JsNum JsValue Mappers TopoLayout PanelCfg PanelFb PanelEnv.

Local Open Scope string_scope.
Local Open Scope list_scope.
Local Open Scope Z_scope.
Local Open Scope js_scope.

(** ** Renderer state *)

Record scr := Scr { sfb : fb; v2PageClock : list num; v2LanePhase : gmap Z num; v2AuroraPhase : num }.

Definition draw (op : fb -> fb) (s : scr) : scr :=
  Scr (op (sfb s)) (v2PageClock s) (v2LanePhase s) (v2AuroraPhase s).

Definition one : num := ofZ 1.

(** [l[i]]. *)
Definition item (l : list value) (i : Z) : value := if i <? 0 then VUndef else nth (Z.to_nat i) l VUndef.

(** [env.raw.k || []]. *)
Definition raw_list (e : env) (k : string) : list value := arr (v_or (fld (raw e) k) (VArr [])).

Definition len {A} (l : list A) : Z := Z.of_nat (length l).

(** A number that is not zero, as a condition. *)
Definition nz (n : num) : bool := negb (nequ n n0).

Definition floor_div (a b : num) : Z := floorZ (ndiv a b).

(** ** Pages *)

Definition pageCount (n k : Z) : Z := Z.max 1 ((n + k - 1) / k).

(** The clock advances and wraps; the page is its three-second step. *)
Definition pageFor (i : nat) (dt : num) (p : Z) (s : scr) : Z * scr :=
  let c := fround (nrem (nadd (v2PageClock s !!! i) dt) (ofZ 768)) in
  (Z.rem (floor_div c (ofZ 3)) (Z.max 1 p),
   Scr (sfb s) (<[i := c]> (v2PageClock s)) (v2LanePhase s) (v2AuroraPhase s)).

Definition pageBar (p n : Z) (f : fb) : fb :=
  if n <=? 1 then f
  else for_range (p * PW / n) ((p + 1) * PW / n) (fun x => fbSet x 5 cAzure (lit 45 2)) f.

(** ** A: fleet *)

Record tile := Tile { tl_state : value; tl_load : num }.

(** A byte of the tail: three bits of state, five of load. *)
Definition tail_tile (b : value) : tile :=
  let z := toInt32 (numOf b) in Tile (vz (and32 (shr32 z 5) 7)) (ndiv (ofZ (and32 z 31)) (ofZ 31)).

Definition tiles_of (load : value -> num) (e : env) : list tile :=
  map (fun q => Tile (stateEnum (fld q "state")) (load q)) (raw_list e "systems") ++ map tail_tile (raw_list e "popTail").

Record grid := Grid { cols : Z; rows : Z; gx : Z; gy : Z; ba : Z; bg : Z }.

(** One candidate: [r] rows with the gutters [ux] and [uy]. *)
Definition grid_try (r c : Z) (b : grid) (u : Z * Z) : grid :=
  let '(ux, uy) := u in
  let tw := (PW - (c - 1) * ux) / c in
  let th := (PH - (r - 1) * uy) / r in
  if (tw <? 1) || (th <? 1) then b
  else
    let ar := tw * th in
    let gu := ux + uy in
    if (ba b <? ar) || ((ar =? ba b) && (bg b <? gu)) then Grid c r ux uy ar gu else b.

Definition grid_row (n : Z) (b : grid) (r : Z) : grid :=
  let c := (n + r - 1) / r in
  if PW <? c then b else fold_left (grid_try r c) [(0, 0); (1, 0); (0, 1); (1, 1)] b.

Definition best_grid (n : Z) : grid := fold_left (grid_row n) (seqZ 1 11) (Grid 1 1 0 0 (-1) (-1)).

(** The columns [x0, x1) and rows [y0, y1) of tile [i]. *)
Definition tile_box (g : grid) (i : Z) : Z * Z * Z * Z :=
  let col := i mod cols g in
  let row := i / cols g in
  (col * (PW + gx g) / cols g, (col + 1) * (PW + gx g) / cols g - gx g,
   row * (PH + gy g) / rows g, (row + 1) * (PH + gy g) / rows g - gy g).

Definition is_state (z : Z) (v : value) : bool := strict_eq v (vz z).

(** The brightness of row [y] of a tile. *)
Definition tile_ink (q : tile) (y0 y1 y : Z) : num :=
  if is_state ST_DOWN (tl_state q) then one
  else if is_state ST_UNKNOWN (tl_state q) || is_state ST_MAINT (tl_state q) then lit 35 2
  else if 3 <=? y1 - y0 then
    let lit_rows := nmax one (ri (nmul (tl_load q) (ofZ (y1 - y0)))) in
    if nge (ofZ y) (nsub (ofZ y1) lit_rows) then one else lit 28 2
  else nadd (lit 2 1) (nmul (lit 8 1) (tl_load q)).

Definition draw_tile (g : grid) (i : Z) (q : tile) (f : fb) : fb :=
  let '(x0, x1, y0, y1) := tile_box g i in
  for_range y0 y1 (fun y => for_range x0 x1 (fun x => fbSet x y (stateColor (tl_state q)) (tile_ink q y0 y1 y))) f.

Fixpoint draw_tiles (g : grid) (i : Z) (l : list tile) (f : fb) : fb :=
  match l with [] => f | q :: r => draw_tiles g (i + 1) r (draw_tile g i q f) end.

Definition sA0 (e : env) (s : scr) : scr :=
  let a := tiles_of (fun q => ndiv (numOf (fld q "loadPct")) (ofZ 100)) e in
  match a with [] => s | _ => draw (draw_tiles (best_grid (len a)) 0 a) s end.

Definition sA1_row (q : value) (y : Z) (f : fb) : fb :=
  let h := stateColor (fld q "state") in
  let st := fld q "state" in
  let word := if state_is ST_DOWN st then "DOWN" else if state_is ST_MAINT st then "MNT"
              else if state_is ST_UNKNOWN st then "?" else num_str (numOf (fld q "loadPct")) +:+ "%" in
  let f := for_range 0 5 (fun r f => fbSet 1 (y + r) h one (fbSet 0 (y + r) h one f)) f in
  let f := textFit 3 y (vstr (fld q "name")) 8 cInk one f in
  textRight 52 y word (if state_is ST_OK st then cAzure else h) one f.

(** The two rows of a page. *)
Definition two_rows (row : value -> Z -> fb -> fb) (a : list value) (p : Z) (f : fb) : fb :=
  for_range 0 2 (fun j f =>
    let q := item a (p * 2 + j) in
    if truthy q then row q (if j =? 0 then 0 else 6) f else f) f.

Definition paged (i : nat) (row : value -> Z -> fb -> fb) (a : list value) (dt : num) (s : scr) : scr :=
  let n := pageCount (len a) 2 in
  let '(p, s) := pageFor i dt n s in
  draw (fun f => pageBar p n (two_rows row a p f)) s.

Definition sA1 (e : env) (dt : num) (s : scr) : scr := paged 1 sA1_row (raw_list e "systems") dt s.

(** [while (k < 4 && run >= num(counts[k])) { k++; run = 0; }]. *)
Fixpoint next_state (counts : list num) (k : nat) (run : num) : nat * num :=
  match counts with
  | [] => (k, run)
  | c :: r => if (k <? 4)%nat && nge run c then next_state r (S k) n0 else (k, run)
  end.

Definition pool_order : list Z := [ST_DOWN; ST_DEGRADED; ST_UNKNOWN; ST_MAINT; ST_OK].

(** One cell of a pool's bar; [st] is the state reached, its count so far and the
    framebuffer. *)
Definition pool_cell (q : value) (y : Z) (total cells : num) (gap : Z) (st : nat * num * fb) (x : Z) : nat * num * fb :=
  let '(k, run, f) := st in
  let counts := map (fun key => numOf (fld q key)) ["down"; "degraded"; "unknown"; "maint"; "up"] in
  let '(k, run) := next_state (drop k counts) k run in
  let x0 := 33 + floor_div (ofZ (x * (20 + gap))) cells in
  let x1 := 33 + floor_div (ofZ ((x + 1) * (20 + gap))) cells - gap in
  let used := nsub (nfloor (ndiv (nmul (ofZ (x + 1)) total) cells)) (nfloor (ndiv (nmul (ofZ x) total) cells)) in
  let h := stateColor (vz (nth k pool_order 0)) in
  (k, nadd run used, for_range 0 3 (fun r => for_range x0 x1 (fun xx => fbSet xx (y + r) h one)) f).

(** The number of turns of [for (let x = 0; x < n; x++)]. *)
Definition turns (n : num) : Z := - floorZ (nopp n).

Definition sA2_row (q : value) (y : Z) (f : fb) : fb :=
  let f := textFit 0 y (vstr (fld q "name")) 8 cInk one f in
  if nequ (numOf (fld q "total")) n0 then f
  else
    let total := numOf (fld q "total") in
    let cells := nmin (ofZ 20) total in
    let gap := if nle total (ofZ 10) then 1 else 0 in
    let f := (fold_left (pool_cell q y total cells gap) (seqZ 0 (turns cells)) (O, n0, f)).2 in
    let load := numOf (fld q "loadPct") in
    let lit_cells := nmax (if ngt load n0 then one else n0)
                          (nfloor (ndiv (nadd (nmul load (ofZ 20)) (ofZ 50)) (ofZ 100))) in
    for_range 0 20 (fun x => fbSet (33 + x) (y + 4) cAzure (if nlt (ofZ x) lit_cells then one else lit 1 1)) f.

Definition sA2 (e : env) (dt : num) (s : scr) : scr := paged 2 sA2_row (raw_list e "pools") dt s.

(** The colour and the line of the worst state. *)
Definition worst (d g u m : num) : color * string :=
  if nz d then (cCrit, num_str d +:+ " DOWN") else if nz g then (cWarn, num_str g +:+ " DEGRADED")
  else if nz u then (cUnknown, num_str u +:+ " UNKNOWN") else if nz m then (cMaint, num_str m +:+ " MAINT")
  else (cOk, "ALL OK").

Definition sA3 (e : env) (f : fb) : fb :=
  let r := v_or (fld (raw e) "stateRoll") (VObj []) in
  let up := num_str (numOf (fld r "up")) in
  let '(h, line) := worst (numOf (fld r "down")) (numOf (fld r "degraded")) (numOf (fld r "unknown")) (numOf (fld r "maint")) in
  let f := panelBig 0 2 up h one f in
  let x := bigEnd 0 up + 1 in
  let n := (PW - x + 1) / 4 in
  textFit x 6 line n h one (textFit x 0 ("OF " +:+ num_str (e_total e)) n cInk one f).

(** ** Rates and links *)

Definition RATE_MAX : num := ofZ 4294967294.

(** [None] is a rate not measured. *)
Definition rateLabel (k : option num) : string :=
  match k with
  | None => "--"
  | Some k =>
      let m := ndiv k (ofZ 1000) in
      if nlt k (ofZ 1000) then num_str (nfloor k) +:+ "K"
      else if nlt m (lit 995 2) then toFixed m 1 +:+ "M"
      else if nlt m (lit 9995 1) then num_str (nfloor (nadd m (lit 5 1))) +:+ "M"
      else if nlt m (ofZ 9950) then toFixed (ndiv m (ofZ 1000)) 1 +:+ "G"
      else num_str (nfloor (nadd (ndiv m (ofZ 1000)) (lit 5 1))) +:+ "G"
  end.

Definition LINK_KINDS : list (string * Z) := [("wan", 0); ("trunk", 1); ("wifi", 2); ("host", 3)].

(** The kind of a link; an inherited name gives something that is no number. *)
Definition linkKind (k : value) : value :=
  match k with
  | VStr s =>
      match assoc (toLowerCase s) LINK_KINDS with
      | Some z => vz z
      | None => if existsb (String.eqb (toLowerCase s)) inherited then VObj [] else vz 0
      end
  | _ => VNum (numOf k)
  end.

(** [[cInk, cAzure, cMaint, cOk][kind] || cOk]. *)
Definition kind_color (kind : value) : color :=
  match kind with
  | VNum n => if nequ n (ofZ 0) then cInk else if nequ n (ofZ 1) then cAzure else if nequ n (ofZ 2) then cMaint else cOk
  | _ => cOk
  end.

(** [q.k == null ? 0 : num(q.k)]. *)
Definition rate0 (q : value) (k : string) : num := if nullish (fld q k) then n0 else numOf (fld q k).
Definition talk (q : value) : num := nadd (rate0 q "rxKbps") (rate0 q "txKbps").
Definition measured (q : value) : bool := negb (nullish (fld q "rxKbps")) || negb (nullish (fld q "txKbps")).

(** The eight busiest measured hosts, busiest first. *)
Definition talkers (e : env) : list value :=
  take 8 (sort_by (fun x y => nge (talk x) (talk y)) (List.filter measured (raw_list e "systems"))).

Definition sB2_row (q : value) (y : Z) (f : fb) : fb :=
  textRight 52 y (rateLabel (Some (numOf (VNum (nmin (talk q) RATE_MAX))))) cAzure one
    (textFit 0 y (vstr (fld q "name")) 8 cInk one f).

Definition sB2 (e : env) (dt : num) (s : scr) : scr := paged 6 sB2_row (talkers e) dt s.

(** *** WAN and LAN *)

Definition null_num (v : value) : option num := if nullish v then None else Some (numOf v).

Definition pair_total (d u : option num) : option num :=
  match d, u with
  | None, None => None
  | None, Some u => Some u
  | Some d, None => Some d
  | Some d, Some u => Some (nmin (nadd d u) RATE_MAX)
  end.

(** The ring value [a] slots before the newest. *)
Definition back (r : list num) (a : Z) : num := r !!! Z.to_nat (52 - a).

Definition pos0 (v : num) : num := if ngt v n0 then v else n0.

(** The peak of the last [n] slots, at least one. *)
Definition spark_peak (dr ur : list num) (n : Z) : num :=
  for_range 0 n (fun a peak =>
    let v := nadd (pos0 (back dr a)) (pos0 (back ur a)) in if ngt v peak then v else peak) one.

(** One column of the sparkline: download below, upload above. *)
Definition spark_col (y : Z) (dr ur : list num) (peak : num) (h : color) (a : Z) (f : fb) : fb :=
  let dn := back dr a in
  let up := back ur a in
  if nlt dn n0 && nlt up n0 then f
  else
    let dn := if nlt dn n0 then n0 else dn in
    let up := if nlt up n0 then n0 else up in
    let xx := PW - 1 - a in
    let hd0 := ri (nmul (ndiv dn peak) (ofZ 5)) in
    let hu0 := nsub (ri (nmul (ndiv (nadd dn up) peak) (ofZ 5))) hd0 in
    let hd := if nlt hd0 one && ngt dn n0 then one else hd0 in
    let hu := if nlt hu0 n0 then n0 else hu0 in
    let f := for_range 0 5 (fun r f => if nlt (ofZ r) hd then fbSet xx (y + 4 - r) h one f else f) f in
    for_range (floorZ hd) 5 (fun r f => if nlt (ofZ r) (nadd hd hu) then fbSet xx (y + 4 - r) cMaint one f else f) f.

Definition spark_row (y : Z) (l : string) (d u : option num) (dr ur : list num) (h : color) (f : fb) : fb :=
  let f := panelText 0 y (l +:+ " ") cInk one f in
  let x := textEnd 0 (l +:+ " ") in
  let label := rateLabel (pair_total d u) in
  let f := panelText x y label h one f in
  let n := PW - Z.max 33 (textEnd x label) in
  for_range 0 n (spark_col y dr ur (spark_peak dr ur n) h) f.

Definition sB1 (e : env) (f : fb) : fb :=
  let q := fld (raw e) "totals" in
  if negb (truthy q) then textCentre 3 "NO RATE DATA" cAzure one f
  else
    spark_row 6 "LAN" (null_num (fld q "lanDownKbps")) (null_num (fld q "lanUpKbps")) (lanDown (loc e)) (lanUp (loc e)) cOk
      (spark_row 0 "WAN" (null_num (fld q "wanDownKbps")) (null_num (fld q "wanUpKbps")) (wanDown (loc e)) (wanUp (loc e)) cAzure f).

(** ** C: trouble *)

Definition sC0_item (q : value) (f : fb) : fb :=
  let ageMin := fld q "ageMin" in
  let age := if nlt (numOf ageMin) (ofZ 60) then vstr ageMin +:+ "M"
             else if nlt (numOf ageMin) (ofZ 1440) then num_str (nfloor (ndiv (vnum ageMin) (ofZ 60))) +:+ "H"
             else num_str (nfloor (ndiv (vnum ageMin) (ofZ 1440))) +:+ "D" in
  let sev := numOf (fld q "severity") in
  let h := if nequ sev (ofZ 2) then cCrit else if nequ sev (ofZ 1) then cWarn else cAzure in
  textCentre 6 (vstr (fld q "msg")) h one
    (textRight 52 0 age cAzure one (textFit 0 0 (vstr (fld q "host")) 9 cInk one f)).

Definition sC0 (e : env) (dt : num) (s : scr) : scr :=
  let a := fld (raw e) "alertList" in
  if negb (truthy a) then draw (textCentre 3 "NO ALERT DATA" cAzure one) s
  else
    let items := arr (v_or (fld a "items") (VArr [])) in
    match items with
    | [] => draw (textCentre 3 "ALL CLEAR" cOk one) s
    | _ =>
        let more := ngt (vnum (fld a "total")) (ofZ (len items)) in
        let n := len items + (if more then 1 else 0) in
        let '(p, s) := pageFor 8 dt (pageCount n 1) s in
        draw (fun f =>
          pageBar p n
            (if len items <=? p
             then textCentre 6 "SEE DASHBOARD" cAzure one
                    (textCentre 0 ("+" +:+ num_str (nsub (vnum (fld a "total")) (ofZ (len items))) +:+ " MORE") cInk one f)
             else sC0_item (item items p) f)) s
    end.

Definition fault_cell (x y : Z) (l : string) (n : num) (h : color) (f : fb) : fb :=
  panelText x y (l +:+ " " +:+ num_str (nmin (ofZ 99) n)) (if nz n then h else cOk) one f.

Definition sC1 (e : env) (dt : num) (s : scr) : scr :=
  let a := fld (raw e) "alertList" in
  if negb (truthy a) then draw (textCentre 3 "NO ALERT DATA" cAzure one) s
  else
    let f := arr (v_or (fld a "faultCounts") (VArr [])) in
    let n := if truthy (item f 0) then 2 else 1 in
    let cnt i := numOf (item f i) in
    let '(p, s) := pageFor 9 dt n s in
    draw (fun g =>
      pageBar p n
        (if negb (p =? 0)
         then textCentre 6 "SEE DASHBOARD" cAzure one (textCentre 0 ("OTHER " +:+ num_str (cnt 0)) cWarn one g)
         else fault_cell 28 6 "KRN" (cnt 5) cWarn
                (fault_cell 0 6 "DSK" (numOf (VNum (nadd (nadd (cnt 3) (cnt 4)) (cnt 6)))) cWarn
                   (fault_cell 28 0 "SVC" (cnt 2) cWarn (fault_cell 0 0 "NET" (cnt 1) cCrit g))))) s.

Definition NO_REPLY : num := ofZ 65535.

(** The lowest reading of a probe's row. *)
Definition probe_base (row : list num) : num :=
  fold_left (fun base v => if ngt v n0 && nlt v base then v else base) row NO_REPLY.

Definition probe_ink (st : value) (base cell : num) : color * num :=
  if state_is ST_UNKNOWN st then (cUnknown, lit 25 2)
  else if nge cell NO_REPLY then (cCrit, one)
  else if negb (nequ base NO_REPLY) && nge cell (nadd (nmul base (ofZ 2)) (ofZ 5)) then (cWarn, one)
  else (cOk, lit 4 1).

Definition probe_row (n gap p : Z) (st : value) (row : list num) (f : fb) : fb :=
  let y0 := p * (PH + gap) / n in
  let y1 := (p + 1) * (PH + gap) / n - gap in
  let base := probe_base row in
  for_range 0 (Z.of_nat HIST_LEN) (fun x f =>
    let cell := row !!! Z.to_nat x in
    if nlt cell n0 then f
    else let '(h, b) := probe_ink st base cell in for_range y0 y1 (fun y => fbSet x y h b) f) f.

Definition sC2 (e : env) (f : fb) : fb :=
  let a := raw_list e "probes" in
  match a with
  | [] => textCentre 3 "NO PROBE DATA" cAzure one f
  | _ =>
      let n := Z.min 11 (len a) in
      let gap := if n <=? 6 then 1 else 0 in
      for_range 0 n (fun p => probe_row n gap p (fld (item a p) "state") (probeHist (loc e) !!! Z.to_nat p)) f
  end.

(** ** D: resources *)

(** One reading of a host: its letter and its percentage. *)
Definition reading (x : Z) (l : string) (v : value) (col : color) (f : fb) : fb :=
  let pct := numOf v in
  let valid := negb (nullish v) && nle pct (ofZ 100) in
  panelText (x + 4) 6 (if valid then num_str pct else "--")
    (if valid then if nge pct (ofZ 90) then cCrit else if nge pct (ofZ 75) then cWarn else col else cUnknown) one
    (panelText x 6 l cInk one f).

Definition state_word (st : value) : string :=
  match stateEnum st with
  | VNum n => if nequ n (ofZ 0) then "OK" else if nequ n (ofZ 1) then "DEG" else if nequ n (ofZ 2) then "DOWN"
              else if nequ n (ofZ 3) then "?" else if nequ n (ofZ 4) then "MNT" else "undefined"
  | _ => "undefined"
  end.

Definition sD0_host (q : value) (f : fb) : fb :=
  let st := fld q "state" in
  let f := textRight 52 0 (state_word st) (stateColor (stateEnum st)) one (textFit 0 0 (vstr (fld q "name")) 8 cInk one f) in
  if state_is ST_DOWN st || state_is ST_UNKNOWN st then textCentre 6 "NO READINGS" cUnknown one f
  else reading 38 "D" (fld q "diskPct") cOk (reading 19 "M" (fld q "memPct") cMaint (reading 0 "C" (fld q "loadPct") cAzure f)).

Definition sD0 (e : env) (dt : num) (s : scr) : scr :=
  let a := raw_list e "systems" in
  match a with
  | [] => s
  | _ =>
      let '(p, s) := pageFor 12 dt (len a) s in
      draw (fun f => pageBar p (len a) (sD0_host (item a p) f)) s
  end.

(** [Math.floor((v * 5 + 50) / 100)]. *)
Definition fifth (v : num) : num := nfloor (ndiv (nadd (nmul v (ofZ 5)) (ofZ 50)) (ofZ 100)).

Definition heat_color (v : num) (calm : color) : color :=
  if nge v (ofZ 90) then cCrit else if nge v (ofZ 75) then cWarn else calm.

Definition butterfly (n gap i : Z) (q : value) (f : fb) : fb :=
  let x0 := i * (PW + gap) / n in
  let x1 := (i + 1) * (PW + gap) / n - gap in
  let st := fld q "state" in
  let h := stateColor (stateEnum st) in
  let load := numOf (fld q "loadPct") in
  let mem := if nullish (fld q "memPct") then ofZ 255 else numOf (fld q "memPct") in
  let measured := negb (state_is ST_DOWN st) && negb (state_is ST_UNKNOWN st) in
  let up0 := if measured then fifth load else n0 in
  let dn0 := if measured && nle mem (ofZ 100) then fifth mem else n0 in
  let up := if measured && nlt up0 one && ngt load n0 then one else up0 in
  let dn := if nlt dn0 one && measured && nle mem (ofZ 100) && ngt mem n0 then one else dn0 in
  for_range x0 x1 (fun x f =>
    for_range 1 6 (fun r f =>
      let f := if nle (ofZ r) up then fbSet x (5 - r) (heat_color load cAzure) one f else f in
      if nle (ofZ r) dn then fbSet x (5 + r) (heat_color mem cMaint) one f else f)
      (fbSet x 5 h one f)) f.

Definition sD1 (e : env) (f : fb) : fb :=
  let a := raw_list e "systems" in
  let n := Z.min PW (len a) in
  if n =? 0 then f
  else
    let gap := if n * 2 <=? PW then 1 else 0 in
    for_range 0 n (fun i => butterfly n gap i (item a i)) f.

(** The value of strip [k], [a] slots back, as stored. *)
Definition trend (r : list num) (r2 : option (list num)) (a : Z) : num :=
  let v := back r a in
  fround (match r2 with
          | Some r2 => if ngt (back r2 a) n0 then nadd (pos0 v) (back r2 a) else v
          | None => v
          end).

(** The same before storing, which sets the peak. *)
Definition trend_raw (r : list num) (r2 : option (list num)) (a : Z) : num :=
  let v := back r a in
  match r2 with
  | Some r2 => if ngt (back r2 a) n0 then nadd (pos0 v) (back r2 a) else v
  | None => v
  end.

Definition trend_peak (p0 : num) (r : list num) (r2 : option (list num)) : num :=
  for_range 0 PW (fun a peak => let v := trend_raw r r2 a in if ngt v peak then v else peak) p0.

(** The rows of one column: full ones, then a partial one. *)
Fixpoint trend_rows (x y : Z) (h : color) (rows : num) (rs : list Z) (f : fb) : fb :=
  match rs with
  | [] => f
  | r :: rest =>
      let cover := nsub rows (ofZ r) in
      if nle cover n0 then f
      else trend_rows x y h rows rest
             (fbSet x (y + 2 - r) h (if nge cover one then one else nadd (lit 25 2) (nmul (lit 75 2) cover)) f)
  end.

Definition trend_strip (r : list num) (r2 : option (list num)) (peak : num) (y : Z) (h : color) (a : Z) (f : fb) : fb :=
  let v := trend r r2 a in
  if nlt v n0 then f
  else trend_rows (PW - 1 - a) y h (nmin (ofZ 3) (nmul (ndiv v peak) (ofZ 3))) [0; 1; 2] f.

Definition sD2 (e : env) (f : fb) : fb :=
  let l := loc e in
  let p0 := trend_peak one (wanDown l) (Some (wanUp l)) in
  let p1 := trend_peak (lit 4 1) (cpuLocal l) None in
  let p2 := trend_peak (ofZ 10) (rttLocal l) None in
  for_range 0 PW (fun a f =>
    trend_strip (rttLocal l) None p2 8 cMaint a
      (trend_strip (cpuLocal l) None p1 4 cAzure a
         (trend_strip (wanDown l) (Some (wanUp l)) p0 0 cInk a f))) f.

Section Host.
Context (sinf log10f log2f : num -> num).

(** *** Rates as movement *)

Definition panelRateLevel (v : num) : num :=
  if nle v one then n0 else nmin one (ndiv (log10f v) (ofZ 6)).

Definition spacing_of (rate : num) : num := nsub (ofZ 14) (nmul (ofZ 11) (panelRateLevel rate)).
Definition speed_of (rate : num) : num := nadd (ofZ 2) (nmul (ofZ 22) (panelRateLevel rate)).

(** [v2LanePhase[key] || 0]. *)
Definition phase (key : Z) (s : scr) : num :=
  match v2LanePhase s !! key with Some v => if is_nan v then n0 else v | None => n0 end.

Definition set_phase (key : Z) (v : num) (s : scr) : scr :=
  Scr (sfb s) (v2PageClock s) (<[key := v]> (v2LanePhase s)) (v2AuroraPhase s).

(** [for (z = z0; z <= hi; z += step) body(Math.floor(z))]. *)
Fixpoint stream (fuel : nat) (z hi step : num) (body : Z -> fb -> fb) (f : fb) : fb :=
  match fuel with
  | O => f
  | S k => if nle z hi then stream k (nadd z step) hi step body (body (floorZ z) f) else f
  end.

(** Dots are at least a pixel apart and a lane is at most sixty long. *)
Definition STREAM_FUEL : nat := 128.

(** *** Swim lanes *)

Definition lane_dot (x0 x1 y dir : Z) (h : color) (d : Z) (f : fb) : fb :=
  if (d <? 0) || (x1 - x0 <? d) then f
  else
    let head := if 0 <? dir then x0 + d else x1 - d in
    let f := fbSet head y h one f in
    let tail := head - dir in
    if (x0 <=? tail) && (tail <=? x1) then fbSet tail y h (lit 4 1) f else f.

Definition lane (x0 x1 y : Z) (rate : value) (key dir : Z) (h : color) (step : num) (s : scr) : scr :=
  if nullish rate
  then draw (fun f => fold_left (fun f k => fbSet (x0 + 4 * k) y cUnknown (lit 35 2) f) (seqZ 0 ((x1 - x0) / 4 + 1)) f) s
  else
    let rate := numOf rate in
    if nequ rate n0 then draw (for_range x0 (x1 + 1) (fun x => fbSet x y h (lit 6 2))) s
    else
      let spacing := spacing_of rate in
      let ph := nrem (nadd (phase key s) (nmul (speed_of rate) step)) (nmul spacing (ofZ 64)) in
      draw (fun f =>
        stream STREAM_FUEL (nsub (nrem ph spacing) spacing) (ofZ (x1 - x0)) spacing (lane_dot x0 x1 y dir h)
          (for_range x0 (x1 + 1) (fun x => fbSet x y h (lit 8 2)) f)) (set_phase key ph s).

Definition lane_label (kind : value) (name : value) : string :=
  if strict_eq kind (vz 0) then if starts_with "BACKUP" (vstr name) then "WAN2" else "WAN" else vstr name.

Definition sB0_slot (i : Z) (q : value) (y : Z) (dt : num) (s : scr) : scr :=
  let st := fld q "state" in
  let kind := linkKind (fld q "kind") in
  let h := kind_color kind in
  let s := draw (textFit 0 y (lane_label kind (fld q "name")) 5 (if state_is ST_DOWN st then cCrit else cInk) one) s in
  if state_is ST_DOWN st
  then draw (for_range 21 PW (fun x f => fbSet x (y + 4) cCrit (lit 6 1) (fbSet x y cCrit (lit 6 1) f))) s
  else
    let s := lane 21 52 y (fld q "downKbps") (i * 2) (-1) h dt s in
    let s := lane 21 52 (y + 1) (fld q "downKbps") (i * 2) (-1) h n0 s in
    let s := lane 21 52 (y + 3) (fld q "upKbps") (i * 2 + 1) 1 h dt s in
    lane 21 52 (y + 4) (fld q "upKbps") (i * 2 + 1) 1 h n0 s.

Definition sB0 (e : env) (dt : num) (s : scr) : scr :=
  let a := raw_list e "links" in
  match a with
  | [] => draw (textCentre 3 "NO LINK DATA" cAzure one) s
  | _ =>
      let n := pageCount (len a) 2 in
      let '(p, s) := pageFor 4 dt n s in
      let q0 := item a (p * 2) in
      let s :=
        if truthy q0 then
          let s := sB0_slot (p * 2) q0 0 dt s in
          let q1 := item a (p * 2 + 1) in
          if truthy q1 then sB0_slot (p * 2 + 1) q1 6 dt s else s
        else s in
      draw (pageBar p n) s
  end.

(** *** Flow map *)

Definition has_parent (n : Z) (q : value) : bool :=
  negb (nullish (fld q "parent")) && nlt (numOf (fld q "parent")) (ofZ n).

(** The element a number indexes. *)
Definition index_at (p : num) : option Z := if is_integer p && nge p n0 then Some (truncZ p) else None.

(** Follow the parents from [at_]: the root and the number of steps; [None] after
    more steps than links; an index that is none throws. *)
Fixpoint climb (fuel : nat) (a : list value) (at_ d : Z) : res (option (Z * Z)) :=
  if has_parent (len a) (item a at_) then
    match fuel with
    | O => Ok None
    | S k =>
        match index_at (numOf (fld (item a at_) "parent")) with
        | Some j => climb k a j (d + 1)
        | None => Throw TypeError
        end
    end
  else Ok (Some (at_, d)).

Definition parentOf (a : list value) (i : Z) : res Z :=
  if nullish (item a i) then Throw TypeError
  else if has_parent (len a) (item a i) then
    r <- climb (length a) a i 0 ;;
    Ok (match r with
        | Some (at_, _) => if at_ =? i then -1 else default (-1) (index_at (numOf (fld (item a i) "parent")))
        | None => -1
        end)
  else Ok (-1).

Definition link_depth (a : list value) (i : Z) : res Z :=
  r <- climb (length a) a i 0 ;; Ok (match r with Some (_, d) => d | None => 0 end).

Definition children (par : list Z) (i : Z) : list Z := List.filter (fun c => par !!! Z.to_nat c =? i) (seqZ 0 (len par)).

(** [while (stack.length && order.length < n)]: the links in depth-first order. *)
Fixpoint dfs (fuel : nat) (par stack order : list Z) : list Z :=
  match fuel, stack with
  | S k, at_ :: rest => dfs k par (children par at_ ++ rest) (order ++ [at_])
  | _, _ => order
  end.

(** The parents and the depths of all links. *)
Definition link_tree (a : list value) : res (list Z * list Z) :=
  let idx := seqZ 0 (len a) in
  par <- map_res (parentOf a) idx ;;
  dep <- map_res (fun i => if par !!! Z.to_nat i <? 0 then Ok 0 else link_depth a i) idx ;;
  Ok (par, dep).

(** The order in which the links are placed and drawn: the roots wait on the
    stack, the first on top. *)
Definition link_order (a : list value) (par : list Z) : list Z :=
  dfs (length a) par (List.filter (fun i => par !!! Z.to_nat i <? 0) (seqZ 0 (len a))) [].

Definition is_leaf (par : list Z) (i : Z) : bool := negb (existsb (Z.eqb i) par).

(** Where the links go, in drawing order. *)
Fixpoint place_links (par dep : list Z) (md leaves leaf : Z) (order : list Z) : list (Z * (Z * Z)) :=
  match order with
  | [] => []
  | i :: r =>
      (i, (5 + dep !!! Z.to_nat i * 45 / (if md =? 0 then 1 else md), 1 + (2 * leaf + 1) * 9 / (2 * leaves)))
      :: place_links par dep md leaves (if is_leaf par i then leaf + 1 else leaf) r
  end.

Fixpoint at_key (i : Z) (l : list (Z * (Z * Z))) : Z * Z :=
  match l with [] => (0, 0) | (j, xy) :: r => if i =? j then xy else at_key i r end.

(** The [d]-th pixel of the elbow from (px, py) to (cx, cy). *)
Definition point (px py cx cy d : Z) : Z * Z :=
  let dy := Z.abs (cy - py) in
  if d <=? dy then (px, py + (if py <? cy then d else - d)) else (px + d - dy, cy).

(** The dots of one direction. *)
Definition flow (q : value) (i dir len_ : Z) (pt : Z -> Z * Z) (h : color) (dt : num) (s : scr) : scr :=
  let rate := fld q (if dir =? 0 then "downKbps" else "upKbps") in
  if nullish rate || nequ (numOf rate) n0 || state_is ST_DOWN (fld q "state") || (len_ <=? 0) then s
  else
    let spacing := spacing_of (vnum rate) in
    let key := 16 + (i * 2 + dir) in
    let ph := nadd (phase key s) (nmul (speed_of (vnum rate)) dt) in
    let spacing := if ngt spacing (ofZ len_) then ofZ (len_ + 1) else spacing in
    draw (stream STREAM_FUEL (nrem ph spacing) (ofZ len_) spacing (fun d f =>
      let '(x, y) := pt (if dir =? 0 then d else len_ - d) in fbSet x y h one f)) (set_phase key ph s).

Definition flow_link (a : list value) (par : list Z) (pos : list (Z * (Z * Z))) (dt : num) (s : scr) (i : Z) : scr :=
  let q := item a i in
  let p := par !!! Z.to_nat i in
  let '(nx, ny) := at_key i pos in
  let px := if p <? 0 then 0 else (at_key p pos).1 in
  let py := if p <? 0 then ny else (at_key p pos).2 in
  let len_ := Z.abs (ny - py) + nx - px in
  let down := state_is ST_DOWN (fld q "state") in
  let h := if down then cCrit else kind_color (linkKind (fld q "kind")) in
  let pt := point px py nx ny in
  let s := draw (for_range 0 (len_ + 1) (fun d f =>
             let '(x, y) := pt d in fbSet x y h (if down then lit 6 1 else lit 22 2) f)) s in
  flow q i 1 len_ pt h dt (flow q i 0 len_ pt h dt s).

Definition link_node (a : list value) (pos : list (Z * (Z * Z))) (f : fb) (i : Z) : fb :=
  let '(nx, ny) := at_key i pos in
  for_range 0 2 (fun yy => for_range 0 2 (fun xx => fbSet (nx + xx) (ny + yy) (stateColor (fld (item a i) "state")) one)) f.

Definition sB3 (e : env) (dt : num) (s : scr) : res scr :=
  let a := raw_list e "links" in
  match a with
  | [] => Ok (draw (textCentre 3 "NO LINK DATA" cAzure one) s)
  | _ =>
      tree <- link_tree a ;;
      let '(par, dep) := tree in
      let md := fold_left Z.max dep 0 in
      let order := link_order a par in
      let nl := len (List.filter (is_leaf par) order) in
      let pos := place_links par dep md (if nl =? 0 then 1 else nl) 0 order in
      let s := fold_left (flow_link a par pos dt) order s in
      Ok (draw (fun f => fold_left (link_node a pos) order f) s)
  end.

(** *** Alert history *)

Definition bucket (heat : value) (k : string) (i : Z) : num := numOf (item (arr (v_or (fld heat k) (VArr []))) i).

Definition heat_col (heat : value) (scale : num) (i : Z) (f : fb) : fb :=
  let nw := bucket heat "warn" i in
  let nc := bucket heat "crit" i in
  let h := nmin (ofZ PH) (nceil (nmul (log2f (nadd (nadd nw nc) one)) scale)) in
  let hc := if nz nc then nceil (nmul (log2f (nadd nc one)) scale) else n0 in
  let f := for_range 0 PH (fun r f =>
             if nlt (ofZ r) h then fbSet i (PH - 1 - r) (if nge (ofZ r) (nsub h hc) then cCrit else cWarn) one f else f) f in
  if (is_nan h || nequ h n0) && ((51 - i) mod 12 =? 0) then fbSet i 10 cAzure (lit 3 1) f else f.

Definition sC3 (e : env) (f : fb) : fb :=
  let heat := fld (raw e) "alertHeat" in
  if negb (truthy heat) then textCentre 3 "NO HISTORY" cAzure one f
  else
    let peak := for_range 0 52 (fun i peak => nmax peak (nadd (bucket heat "warn" i) (bucket heat "crit" i))) (ofZ 3) in
    let scale := ndiv (ofZ PH) (log2f (nadd peak one)) in
    for_range 0 PH (fun y => fbSet 52 y cAzure (lit 45 2)) (for_range 0 52 (heat_col heat scale) f).

(** *** Aurora *)

Definition PI32 : num := nmul (lit 3141592653589793 15) (ofZ 32).

Definition aurora_total (q : value) : num :=
  fold_left (fun t k => if nullish (fld q k) then t else nadd t (numOf (fld q k)))
    ["wanDownKbps"; "wanUpKbps"; "lanDownKbps"; "lanUpKbps"] n0.

Definition aurora_col (tiles : list tile) (ph : num) (x : Z) (f : fb) : fb :=
  let n := len tiles in
  let pos := nsub (ndiv (nmul (nadd (ofZ x) (lit 5 1)) (ofZ n)) (ofZ PW)) (lit 5 1) in
  let a0 := floorZ pos in
  let mix := nsub pos (ofZ a0) in
  let a := if a0 <? 0 then 0 else a0 in
  let b := if n <=? a0 + 1 then n - 1 else a0 + 1 in
  let none := Tile VUndef nan in
  let ta := nth (Z.to_nat a) tiles none in
  let tb := nth (Z.to_nat b) tiles none in
  let own := if nlt mix (lit 5 1) then ta else tb in
  if is_state ST_DOWN (tl_state own) then for_range 0 PH (fun y => fbSet x y cCrit one) f
  else
    let load := nadd (tl_load ta) (nmul (nsub (tl_load tb) (tl_load ta)) mix) in
    let ok := is_state ST_OK (tl_state own) in
    let h := if ok then cAzure else stateColor (tl_state own) in
    let top := if ok then cOk else h in
    let height := nadd (ofZ 4) (nmul load (ofZ 7)) in
    let wave := nadd (nmul (sinf (nadd ph (nmul (ofZ x) (lit 28 2)))) (lit 13 1))
                     (nmul (sinf (nadd (nmul ph (lit 61 2)) (nmul (ofZ x) (lit 11 2)))) (lit 9 1)) in
    let crest := nadd (nsub (ofZ PH) height) wave in
    let ray := nadd (lit 62 2) (nmul (lit 38 2) (sinf (nadd (nmul ph (lit 23 1)) (nmul (ofZ x) (lit 135 2))))) in
    for_range 0 PH (fun y f =>
      let d := nsub (ofZ y) crest in
      if nlt d (nopp (lit 5 1)) then f
      else fbSet x y (if nlt d one then top else h)
             (if nlt d one then one else ndiv ray (nadd one (nmul d (lit 28 2)))) f) f.

Definition sD3 (e : env) (dt : num) (s : scr) : scr :=
  let tiles := tiles_of (fun q => clamp01 (ndiv (numOf (fld q "loadPct")) (ofZ 100))) e in
  match tiles with
  | [] => s
  | _ =>
      let total := aurora_total (v_or (fld (raw e) "totals") (VObj [])) in
      let ph :=
        if ngt total n0
        then nrem (nadd (v2AuroraPhase s) (nmul dt (nadd (lit 15 2) (nmul (lit 22 1) (panelRateLevel total))))) PI32
        else v2AuroraPhase s in
      draw (for_range 0 PW (aurora_col tiles ph)) (Scr (sfb s) (v2PageClock s) (v2LanePhase s) ph)
  end.

(** ** The screen table *)

(** [SCREENS[idx].render(env, t, dt, st)]. *)
Definition render_screen (idx : nat) (e : env) (dt : num) (s : scr) : res scr :=
  match idx with
  | 0%nat => Ok (sA0 e s)
  | 1%nat => Ok (sA1 e dt s)
  | 2%nat => Ok (sA2 e dt s)
  | 3%nat => Ok (draw (sA3 e) s)
  | 4%nat => Ok (sB0 e dt s)
  | 5%nat => Ok (draw (sB1 e) s)
  | 6%nat => Ok (sB2 e dt s)
  | 7%nat => sB3 e dt s
  | 8%nat => Ok (sC0 e dt s)
  | 9%nat => Ok (sC1 e dt s)
  | 10%nat => Ok (draw (sC2 e) s)
  | 11%nat => Ok (draw (sC3 e) s)
  | 12%nat => Ok (sD0 e dt s)
  | 13%nat => Ok (draw (sD1 e) s)
  | 14%nat => Ok (draw (sD2 e) s)
  | 15%nat => Ok (sD3 e dt s)
  | _ => Throw TypeError
  end.
End Host.
