(* ===== verification/PanelPaint.v ===== *)
(** * Painting a screen (screens-panel.jsx, paintScreen and the page's own view)

    The order in which a frame is painted, the overlays, and what the page derives
    from the panel's report.
    The theorems: a live alarm shows on every screen, the host tiles, and the
    rows of the paged screens. *)

From Stdlib Require Import ZArith Lia Ascii.
From Corelib Require Import SpecFloat.
From stdpp Require Import strings pretty gmap list.
From S2P Require Import Prelude JsNum JsValue Mappers TopoLayout PanelCfg PanelFb PanelEnv PanelScreens.

Local Open Scope string_scope.
Local Open Scope list_scope.
Local Open Scope Z_scope.
Local Open Scope js_scope.

(** ** Overlays *)

Definition SCREEN_LABELS : list string :=
  ["HOST TILES"; "ROSTER"; "POOLS"; "HEAD COUNT"; "SWIM LANES"; "WAN AND LAN"; "TOP TALKERS"; "FLOW MAP"; "ALERTS";
   "FAULT BOARD"; "REACHABILITY"; "ALERT HISTORY"; "HOST DETAIL"; "CPU AND MEM"; "TRENDS"; "AURORA"].

Definition HELP_TEXTS : list (string * string) :=
  [("TILE IS HOST", "FILL IS LOAD"); ("HOST LIST", "WORST FIRST"); ("EACH POOL", "HOSTS LOAD"); ("HOSTS UP", "AND WORST NOW");
   ("LINK TRAFFIC", "DOTS ARE RATE"); ("INTERNET AND", "LOCAL TRAFFIC"); ("BUSIEST HOSTS", "BY TRAFFIC");
   ("NETWORK TREE", "DOTS ARE RATE"); ("OPEN ALERTS", "WORST FIRST"); ("OPEN FAULTS", "BY KIND"); ("PING HISTORY", "RED IS LOSS");
   ("ALERTS 26 HRS", "NOW AT RIGHT"); ("ONE HOST", "CPU MEM DISK"); ("UP IS CPU", "DOWN IS MEM"); ("TRAFFIC CPU", "AND PING");
   ("AMBIENT FLEET", "RED IS FAULT")].

Definition helpOverlay (index : Z) (f : fb) : fb :=
  if (index <? 0) || (15 <? index) then f
  else match HELP_TEXTS !! Z.to_nat index with
       | Some (h0, h1) => textCentre 6 h1 cAzure one (textCentre 0 h0 cInk one f)
       | None => f
       end.

Definition titleCard (index : nat) (age : num) (f : fb) : fb :=
  if nlt age n0 || nge age one then f
  else textCentre 3 (default "undefined" (SCREEN_LABELS !! index)) cInk one (fbDimAll (lit 8 2) f).

Definition beacon (t : num) (f : fb) : fb :=
  if nge (nrem t one) (lit 5 1) then f
  else for_range 0 2 (fun y => for_range 51 53 (fun x => fbSet x y cCrit one)) f.

Section Host.
Context (sinf log10f log2f : num -> num).

Definition inlay (e : env) (t : num) (f : fb) : fb :=
  let pulse := nadd (lit 55 2) (nmul (lit 45 2) (nabs (sinf (nmul t (lit 22 1))))) in
  let f := fbDimAll (lit 1 1) f in
  let f := for_range 0 PH (fun y f => fbSet 52 y cCrit pulse (fbSet 0 y cCrit pulse f)) f in
  let f := for_range 0 PH (fun y => for_range 1 52 (fun x => fbDim x y (lit 2 1))) f in
  let subj := if String.eqb (subject e) "" then "ALERT" else subject e in
  textCentre 6 (detail e) cInk one (textCentre 0 (stake 12 subj) cCrit one f).

Definition screenNoData (t : num) (haveData : bool) (f : fb) : fb :=
  textCentre 3 (if haveData then "NO HOSTS" else "AWAITING DATA") cAzure
    (nadd (lit 6 1) (nmul (lit 4 1) (nadd (lit 5 1) (nmul (lit 5 1) (sinf (nmul t (lit 8 1))))))) f.

Definition screenLinkLost (t : num) (f : fb) : fb :=
  fbSet (Z.rem (floorZ (nmul t (ofZ 12))) PW) 5 cWarn (lit 6 1)
    (textCentre 6 "SCREEN IS OLD" cInk one (textCentre 0 "NO DATA FEED" cWarn one (fbDimAll (lit 6 2) f))).

(** ** A frame *)

(** [titleAge] is [None] when it is null. *)
Definition paintScreen (idx : nat) (e : option env) (t dt : num) (armed : bool) (currentIdx : num) (titleAge : option num)
    (s : scr) : res scr :=
  let s := draw fbClear s in
  match e with
  | Some e =>
      if nequ (e_total e) n0 then Ok (draw (fun f => let f := screenNoData t true f in if armed then beacon t f else f) s)
      else
        s <- render_screen sinf log10f log2f idx e dt s ;;
        let s := if dataStale e then draw (fun f => fbSet 1 10 cWarn one (fbSet 0 10 cWarn one f)) s else s in
        let s := if nequ (ofZ (Z.of_nat idx)) currentIdx then draw (titleCard idx (default (ofZ 99) titleAge)) s else s in
        Ok (if armed then draw (fun f => beacon t (inlay e t f)) s else s)
  | None => Ok (draw (fun f => let f := screenNoData t false f in if armed then beacon t f else f) s)
  end.
End Host.

(** ** What the page derives from the report *)

(** The alarm is armed: active, and not acknowledged for this episode. *)
Definition armed_of (e : option env) (pstate : value) : bool :=
  match e with
  | None => false
  | Some e =>
      alarmActive e && negb (truthy pstate && truthy (fld pstate "alarmAcked")
                             && nequ (vnum (fld pstate "ackedEpisodeId")) (episodeId e))
  end.

Definition currentIdx_of (pstate : value) : num :=
  if truthy pstate then nadd (nmul (numOf (fld pstate "theme")) (ofZ 4)) (numOf (fld pstate "screen")) else ofZ (-1).

(** [a && a.k]. *)
Definition guarded (v : value) (k : string) : value := if truthy v then fld v k else v.

(** The first of the three places that decodes. *)
Definition screenCfg_of (head : value) : option (list (option scfg)) :=
  let pstate := fld head "panelState" in
  match readScreenCfg (fld head "panelScreenConfig") with
  | Some c => Some c
  | None =>
      match readScreenCfg (guarded pstate "panelScreenConfig") with
      | Some c => Some c
      | None => readScreenCfg (guarded pstate "screenCfg")
      end
  end.

Definition cfgSaved_of (head : value) : bool :=
  readCfgPersisted (fld head "panelScreenConfig") || readCfgPersisted (guarded (fld head "panelState") "panelScreenConfig").

(** The four counts of the rotation summary. *)
Definition cfg_counts (c : list (option scfg)) : nat * nat * nat * nat :=
  let is_on e := match e with Some c => enabled c | None => false end in
  (length (List.filter is_on c),
   length (List.filter (fun e => match e with Some c => negb (enabled c) | None => false end) c),
   length (List.filter (fun e => match e with None => true | _ => false end) c),
   length (List.filter (fun e => is_on e && match e with Some c => negb (weightCode c =? 2) | None => false end) c)).

Definition cfgSummary (c : option (list (option scfg))) : option string :=
  match c with
  | None => None
  | Some c =>
      let '(on, offN, unknown, weighted) := cfg_counts c in
      let bit n text := if (n =? 0)%nat then [] else [zstr (Z.of_nat n) +:+ text] in
      Some (String.concat " · "
        ((zstr (Z.of_nat on) +:+ " of " +:+ zstr 16 +:+ " screens in rotation")
         :: bit offN " skipped" ++ bit weighted " weighted" ++ bit unknown " unreported"))
  end.

(** Age of the panel's own report, in live mode. *)
Definition refAge (now : num) (reportedAt : option num) : option num :=
  match reportedAt with Some r => if truthy (VNum r) then Some (nsub now r) else None | None => None end.

Definition stale_of (age : option num) : bool := match age with Some a => ngt a (ofZ 90000) | None => false end.
Definition titleAge_of (age : option num) : num :=
  match age with Some a => nmax n0 (ndiv a (ofZ 1000)) | None => ofZ 99 end.

(** ** Every renderer keeps the framebuffer's size *)

Definition keeps (op : fb -> fb) : Prop := forall f, length (op f) = length f.

Lemma keeps_set x y c b : keeps (fbSet x y c b).
Proof. intros f. unfold fbSet, put3, store. destruct (off_panel x y); [done|]. by rewrite !length_insert. Qed.

Lemma keeps_dim x y k : keeps (fbDim x y k).
Proof. intros f. unfold fbDim, put3, store. destruct (off_panel x y); [done|]. by rewrite !length_insert. Qed.

Lemma keeps_dim_all k : keeps (fbDimAll k).
Proof. intros f. apply length_map. Qed.

Lemma keeps_clear : keeps fbClear.
Proof. intros f. apply length_map. Qed.

Lemma keeps_for lo hi body : (forall i, keeps (body i)) -> keeps (for_range lo hi body).
Proof.
  intros H f. unfold for_range. revert f. induction (seqZ lo (hi - lo)) as [|i l IH]; intros f; [done|].
  cbn [fold_left]. rewrite IH. apply H.
Qed.

Lemma keeps_fold {A} (step : fb -> A -> fb) l : (forall a, keeps (fun f => step f a)) -> keeps (fun f => fold_left step l f).
Proof. intros H f. revert f. induction l as [|a l IH]; intros f; [done|]. cbn. rewrite IH. apply H. Qed.

Lemma keeps_small cx y ch c b : keeps (drawSmall cx y ch c b).
Proof. apply keeps_for. intros ry. apply keeps_for. intros rx f. destruct (Z.testbit _ _); [apply keeps_set|done]. Qed.

Lemma keeps_text x y s c b : keeps (panelText x y s c b).
Proof.
  intros f. unfold panelText. revert x f. induction (chars s) as [|ch l IH]; intros x f; [done|]. cbn. rewrite IH.
  apply keeps_small.
Qed.

Lemma keeps_big x y s c b : keeps (panelBig x y s c b).
Proof.
  intros f. unfold panelBig. revert x f. induction (chars s) as [|ch l IH]; intros x f; [done|]. cbn [big_from]. rewrite IH.
  apply keeps_for. intros ry. apply keeps_for. intros rx f'. destruct (Z.testbit _ _); [apply keeps_set|done].
Qed.

Lemma keeps_fit x y s n c b : keeps (textFit x y s n c b).
Proof. apply keeps_text. Qed.
Lemma keeps_right x y s c b : keeps (textRight x y s c b).
Proof. apply keeps_text. Qed.
Lemma keeps_centre y s c b : keeps (textCentre y s c b).
Proof. apply keeps_text. Qed.

Create HintDb panel.
#[export] Hint Resolve keeps_set keeps_dim keeps_dim_all keeps_clear keeps_text keeps_big keeps_fit keeps_right keeps_centre : panel.

(** Peel one drawing operation off the buffer. *)
Ltac peel op f := rewrite ((ltac:(auto with panel nocore) : keeps op) f).

(** Follow the structure of an operation down to the drawing primitives. *)
Ltac keeps :=
  repeat first
    [ match goal with
      | |- keeps (for_range _ _ _) => apply keeps_for; intros ?
      | |- keeps _ => intros ?
      | |- forall _, keeps _ => intros ?
      | |- length (if ?b then _ else _) = _ => destruct b
      | |- length (for_range ?lo ?hi ?body ?f) = _ => rewrite (keeps_for lo hi body); [|intros ?]
      | |- length (?op ?f) = _ => peel op f
      end
    | reflexivity ].

Lemma keeps_pageBar p n : keeps (pageBar p n).
Proof. unfold pageBar. keeps. Qed.

Lemma keeps_two_rows row a p : (forall q y, keeps (row q y)) -> keeps (two_rows row a p).
Proof. intros H. unfold two_rows. apply keeps_for. intros j f. destruct (truthy _); [apply H|done]. Qed.

Lemma keeps_tiles g i l : keeps (draw_tiles g i l).
Proof.
  intros f. revert i f. induction l as [|q l IH]; intros i f; [done|]. cbn [draw_tiles]. rewrite IH.
  unfold draw_tile. destruct (tile_box g i) as [[[x0 x1] y0] y1]. keeps.
Qed.

Lemma keeps_sA1_row q y : keeps (sA1_row q y).
Proof. unfold sA1_row. keeps. Qed.

Lemma keeps_sA2_row q y : keeps (sA2_row q y).
Proof.
  intros f. unfold sA2_row. cbv zeta. destruct (nequ _ _); [keeps|]. rewrite keeps_for by keeps.
  set (st := (O, n0, _)). assert (Hst : length st.2 = length f) by (unfold st; cbn [snd]; keeps). clearbody st.
  revert st Hst. induction (seqZ 0 _) as [|x l IH]; intros st Hst; [done|]. cbn [fold_left]. apply IH. rewrite <- Hst.
  unfold pool_cell. destruct st as [[k run] f']. destruct (next_state _ k run) as [k' run']. cbn [snd]. keeps.
Qed.

Lemma draw_len op s : keeps op -> length (sfb (draw op s)) = length (sfb s).
Proof. intros H. apply H. Qed.

Lemma pageFor_fb i dt p s : sfb (pageFor i dt p s).2 = sfb s.
Proof. done. Qed.

Lemma keeps_sB2_row q y : keeps (sB2_row q y).
Proof. unfold sB2_row. keeps. Qed.

Lemma paged_len i row a dt s : (forall q y, keeps (row q y)) -> length (sfb (paged i row a dt s)) = length (sfb s).
Proof.
  intros H. unfold paged. destruct (pageFor i dt _ s) as [p s'] eqn:E. pose proof (pageFor_fb i dt (pageCount (len a) 2) s) as Hf.
  rewrite E in Hf. cbn [snd] in Hf. rewrite draw_len, Hf; [done|]. intros f. rewrite keeps_pageBar. by apply keeps_two_rows.
Qed.

Lemma keeps_sA3 e : keeps (sA3 e).
Proof. intros f. unfold sA3. destruct (worst _ _ _ _) as [h line]. keeps. Qed.

Lemma keeps_spark_row y l d u dr ur h : keeps (spark_row y l d u dr ur h).
Proof. unfold spark_row, spark_col. keeps. Qed.

Lemma keeps_sB1 e : keeps (sB1 e).
Proof. intros f. unfold sB1. destruct (negb _); [keeps|]. by rewrite !keeps_spark_row. Qed.

Lemma keeps_sC2 e : keeps (sC2 e).
Proof.
  intros f. unfold sC2. destruct (raw_list e "probes") as [|q l]; [keeps|]. apply keeps_for. intros p.
  unfold probe_row. apply keeps_for. intros x f'. destruct (nlt _ _); [done|]. destruct (probe_ink _ _ _). keeps.
Qed.

Lemma keeps_reading x l v col : keeps (reading x l v col).
Proof. unfold reading. keeps. Qed.

Lemma keeps_sD0_host q : keeps (sD0_host q).
Proof. intros f. unfold sD0_host. cbv zeta. destruct (_ || _); rewrite ?keeps_reading; keeps. Qed.

Lemma keeps_sD1 e : keeps (sD1 e).
Proof. unfold sD1, butterfly. keeps. Qed.

Lemma keeps_trend_strip r r2 peak y h a : keeps (trend_strip r r2 peak y h a).
Proof.
  intros f. unfold trend_strip. cbv zeta. destruct (nlt _ _); [done|]. revert f. induction [0; 1; 2] as [|z l IH]; intros f; [done|].
  cbn [trend_rows]. destruct (nle _ _); [done|]. rewrite IH. keeps.
Qed.

Lemma keeps_sD2 e : keeps (sD2 e).
Proof. unfold sD2. apply keeps_for. intros a f. by rewrite !keeps_trend_strip. Qed.

Lemma keeps_sC0_item q : keeps (sC0_item q).
Proof. unfold sC0_item. keeps. Qed.

Lemma keeps_fault x y l n h : keeps (fault_cell x y l n h).
Proof. apply keeps_text. Qed.

Section Sizes.
Context (sinf log10f log2f : num -> num).

Lemma keeps_stream fuel z hi step body : (forall d, keeps (body d)) -> keeps (stream fuel z hi step body).
Proof.
  intros H f. revert z f. induction fuel as [|k IH]; intros z f; [done|]. cbn. destruct (nle z hi); [|done]. rewrite IH. apply H.
Qed.

Lemma keeps_lane_dot x0 x1 y dir h d : keeps (lane_dot x0 x1 y dir h d).
Proof. unfold lane_dot. keeps. Qed.

Lemma lane_len x0 x1 y rate key dir h step s : length (sfb (lane log10f x0 x1 y rate key dir h step s)) = length (sfb s).
Proof.
  unfold lane. destruct (nullish rate); [apply draw_len, keeps_fold; intros k; apply keeps_set|].
  destruct (nequ _ _); [apply draw_len; keeps|]. cbv zeta. rewrite draw_len; [done|]. intros f.
  rewrite keeps_stream by (intros d; apply keeps_lane_dot). keeps.
Qed.

Lemma sB0_slot_len i q y dt s : length (sfb (sB0_slot log10f i q y dt s)) = length (sfb s).
Proof.
  unfold sB0_slot. cbv zeta. destruct (state_is ST_DOWN _); [rewrite draw_len by keeps|rewrite !lane_len]; apply draw_len; keeps.
Qed.

Lemma sB0_len e dt s : length (sfb (sB0 log10f e dt s)) = length (sfb s).
Proof.
  unfold sB0. destruct (raw_list e "links") as [|q l]; [apply draw_len; keeps|].
  set (n := pageCount _ 2). destruct (pageFor 4 dt n s) as [p s1] eqn:E.
  assert (Hf : sfb s1 = sfb s) by (change s1 with (p, s1).2; by rewrite <- E).
  rewrite draw_len by apply keeps_pageBar. destruct (truthy _); [|by rewrite Hf].
  destruct (truthy _); rewrite !sB0_slot_len; by rewrite Hf.
Qed.

Lemma flow_len q i dir l pt h dt s : length (sfb (flow log10f q i dir l pt h dt s)) = length (sfb s).
Proof.
  unfold flow. destruct (_ || _ || _ || _); [done|]. cbv zeta. rewrite draw_len; [done|]. apply keeps_stream.
  intros d f. destruct (pt _) as [x y]. apply keeps_set.
Qed.

Lemma sB3_len e dt s s' : sB3 log10f e dt s = Ok s' -> length (sfb s') = length (sfb s).
Proof.
  unfold sB3. destruct (raw_list e "links") as [|q l] eqn:El; [intros [= <-]; apply draw_len; keeps|]. rewrite <- El. clear El q l.
  set (a := raw_list e "links"). destruct (link_tree a) as [[par dep]|]; [|done]. cbn [bind].
  intros [= <-]. rewrite draw_len.
  - set (order := link_order _ _). set (pos := place_links _ _ _ _ _ _). clearbody order pos.
    revert s. induction order as [|i order IH]; intros s; [done|]. cbn [fold_left]. rewrite IH. unfold flow_link.
    destruct (at_key i pos) as [nx ny]. rewrite !flow_len. apply draw_len. apply keeps_for. intros d f.
    destruct (point _ _ _ _ _). apply keeps_set.
  - apply keeps_fold. intros i f. unfold link_node. destruct (at_key i _) as [nx ny]. keeps.
Qed.

Lemma keeps_sC3 e : keeps (sC3 log2f e).
Proof. unfold sC3, heat_col. keeps. Qed.

Lemma sD3_len e dt s : length (sfb (sD3 sinf log10f e dt s)) = length (sfb s).
Proof.
  unfold sD3. destruct (tiles_of _ e) as [|q l]; [done|]. cbv zeta. rewrite draw_len; [done|]. apply keeps_for. intros x f.
  unfold aurora_col. cbv zeta. destruct (is_state ST_DOWN _); keeps.
Qed.

Lemma sC0_len e dt s : length (sfb (sC0 e dt s)) = length (sfb s).
Proof.
  unfold sC0. cbv zeta. destruct (negb _); [apply draw_len; keeps|]. destruct (arr _) as [|q l]; [apply draw_len; keeps|].
  set (n := _ + _). destruct (pageFor 8 dt (pageCount n 1) s) as [p s1] eqn:E.
  assert (Hf : sfb s1 = sfb s) by (change s1 with (p, s1).2; by rewrite <- E).
  rewrite draw_len, Hf; [done|]. intros f. rewrite keeps_pageBar. destruct (_ <=? _); [keeps|apply keeps_sC0_item].
Qed.

Lemma sC1_len e dt s : length (sfb (sC1 e dt s)) = length (sfb s).
Proof.
  unfold sC1. cbv zeta. destruct (negb _); [apply draw_len; keeps|].
  set (n := if truthy _ then 2 else 1). destruct (pageFor 9 dt n s) as [p s1] eqn:E.
  assert (Hf : sfb s1 = sfb s) by (change s1 with (p, s1).2; by rewrite <- E).
  rewrite draw_len, Hf; [done|]. intros f. rewrite keeps_pageBar. destruct (negb _); [keeps|by rewrite !keeps_fault].
Qed.

Lemma sD0_len e dt s : length (sfb (sD0 e dt s)) = length (sfb s).
Proof.
  unfold sD0. destruct (raw_list e "systems") as [|q l]; [done|]. cbv zeta.
  set (a := q :: l). destruct (pageFor 12 dt (len a) s) as [p s1] eqn:E.
  assert (Hf : sfb s1 = sfb s) by (change s1 with (p, s1).2; by rewrite <- E).
  rewrite draw_len, Hf; [done|]. intros f. rewrite keeps_pageBar. apply keeps_sD0_host.
Qed.

Lemma render_screen_len idx e dt s s' :
  render_screen sinf log10f log2f idx e dt s = Ok s' -> length (sfb s') = length (sfb s).
Proof.
  unfold render_screen. do 16 (try destruct idx as [|idx]); try done; try (intros [= <-]).
  - unfold sA0. destruct (tiles_of _ e); [done|]. apply draw_len, keeps_tiles.
  - apply paged_len, keeps_sA1_row.
  - apply paged_len, keeps_sA2_row.
  - apply draw_len, keeps_sA3.
  - apply sB0_len.
  - apply draw_len, keeps_sB1.
  - apply paged_len, keeps_sB2_row.
  - apply sB3_len.
  - apply sC0_len.
  - apply sC1_len.
  - apply draw_len, keeps_sC2.
  - apply draw_len, keeps_sC3.
  - apply sD0_len.
  - apply draw_len, keeps_sD1.
  - apply draw_len, keeps_sD2.
  - apply sD3_len.
Qed.
End Sizes.

(** ** Rectangles of pixels *)

Lemma row_pixels l y c b f px py :
  full f -> on_panel px py ->
  full (fold_left (fun f x => fbSet x y c b f) l f) /\
  pixel px py (fold_left (fun f x => fbSet x y c b f) l f) =
  if decide (px ∈ l /\ py = y) then lit_as c b else pixel px py f.
Proof.
  intros Hf Hp. revert f Hf. induction l as [|x l IH]; intros f Hf; cbn [fold_left].
  { split; [done|]. rewrite decide_False; [done|]. intros [H _]. by apply not_elem_of_nil in H. }
  destruct (IH (fbSet x y c b f)) as [H1 H2]; [by apply fbSet_full|]. split; [done|]. rewrite H2, fbSet_pixel by done.
  destruct (decide (px ∈ l /\ py = y)) as [[? ->]|Hn].
  - rewrite decide_True; [done|]. split; [by right|done].
  - destruct (decide (x = px /\ y = py)) as [[-> ->]|Hd].
    + rewrite decide_True; [done|]. split; [left|done].
    + rewrite decide_False; [done|]. intros [[->|H]%elem_of_cons ->]; naive_solver.
Qed.

(** A filled rectangle, each line with its own brightness. *)
Lemma rect_pixels x0 x1 y0 y1 c (ink : Z -> num) f px py :
  full f -> on_panel px py ->
  let f' := for_range y0 y1 (fun y => for_range x0 x1 (fun x => fbSet x y c (ink y))) f in
  full f' /\
  pixel px py f' = if decide (x0 <= px < x1 /\ y0 <= py < y1) then lit_as c (ink py) else pixel px py f.
Proof.
  intros Hf Hp. cbv zeta.
  assert (H : forall l f, full f ->
    full (fold_left (fun f y => for_range x0 x1 (fun x => fbSet x y c (ink y)) f) l f) /\
    pixel px py (fold_left (fun f y => for_range x0 x1 (fun x => fbSet x y c (ink y)) f) l f) =
    if decide (x0 <= px < x1 /\ py ∈ l) then lit_as c (ink py) else pixel px py f).
  { induction l as [|y l IH]; intros g Hg; cbn [fold_left].
    { split; [done|]. rewrite decide_False; [done|]. intros [_ H]. by apply not_elem_of_nil in H. }
    destruct (row_pixels (seqZ x0 (x1 - x0)) y c (ink y) g px py Hg Hp) as [H1 H2].
    change (fold_left _ (seqZ x0 (x1 - x0)) g) with (for_range x0 x1 (fun x => fbSet x y c (ink y)) g) in H1, H2.
    destruct (IH _ H1) as [H3 H4]. split; [done|]. rewrite H4, H2.
    destruct (decide (x0 <= px < x1 /\ py ∈ l)) as [[Hx Hy]|Hn].
    - rewrite decide_True; [done|]. split; [done|by right].
    - destruct (decide (px ∈ seqZ x0 (x1 - x0) /\ py = y)) as [[Hx ->]|Hd]; rewrite ?elem_of_seqZ in *.
      + rewrite decide_True; [done|]. split; [lia|left].
      + rewrite decide_False; [done|]. intros [Hx [->|Hy]%elem_of_cons]; [apply Hd; split; [lia|done]|tauto]. }
  destruct (H (seqZ y0 (y1 - y0)) f Hf) as [H1 H2]. split; [exact H1|]. etransitivity; [exact H2|].
  destruct (decide (x0 <= px < x1 /\ py ∈ seqZ y0 (y1 - y0))) as [[Hx Hy%elem_of_seqZ]|Hn].
  - rewrite decide_True; [done|lia].
  - rewrite decide_False; [done|]. intros [Hx Hy]. apply Hn. split; [done|]. apply elem_of_seqZ. lia.
Qed.

(** ** The tile grid *)

Definition grid_ok (n : Z) (g : grid) : Prop :=
  1 <= cols g /\ 1 <= rows g /\ n <= cols g * rows g /\ 0 <= gx g <= 1 /\ 0 <= gy g <= 1 /\
  cols g * (1 + gx g) <= PW + gx g /\ rows g * (1 + gy g) <= PH + gy g.

(** The search so far: nothing yet, or a usable grid. *)
Definition search_ok (n : Z) (g : grid) : Prop := ba g = -1 \/ (1 <= ba g /\ grid_ok n g).

Lemma grid_try_ok n r c b u :
  1 <= r -> 1 <= c -> n <= c * r -> 0 <= u.1 <= 1 -> 0 <= u.2 <= 1 -> search_ok n b -> search_ok n (grid_try r c b u).
Proof.
  destruct u as [ux uy]. cbn [fst snd]. intros Hr Hc Hn Hux Huy Hb. unfold grid_try.
  destruct (Z.ltb_spec ((PW - (c - 1) * ux) / c) 1) as [|H1]; [done|].
  destruct (Z.ltb_spec ((PH - (r - 1) * uy) / r) 1) as [|H2]; [done|]. cbn [orb].
  destruct (_ || _); [|done]. right. cbn [ba]. split; [nia|].
  pose proof (Z.mul_div_le (PW - (c - 1) * ux) c ltac:(lia)).
  pose proof (Z.mul_div_le (PH - (r - 1) * uy) r ltac:(lia)).
  unfold grid_ok. cbn [cols rows gx gy]. repeat split; try lia; nia.
Qed.

Lemma grid_row_ok n b r : 1 <= r -> 1 <= n -> search_ok n b -> search_ok n (grid_row n b r).
Proof.
  intros Hr Hn Hb. unfold grid_row. set (c := (n + r - 1) / r).
  assert (Hc : 1 <= c /\ n <= c * r).
  { unfold c. pose proof (Z.div_mod (n + r - 1) r ltac:(lia)). pose proof (Z.mod_pos_bound (n + r - 1) r ltac:(lia)). nia. }
  destruct (PW <? c); [done|]. cbn [fold_left]. repeat (apply grid_try_ok; [lia|lia|lia|cbn; lia|cbn; lia|]). done.
Qed.

Lemma grid_try_found r c b u : 1 <= ba b -> 1 <= ba (grid_try r c b u).
Proof.
  destruct u as [ux uy]. intros Hb. unfold grid_try.
  destruct (Z.ltb_spec ((PW - (c - 1) * ux) / c) 1); [done|].
  destruct (Z.ltb_spec ((PH - (r - 1) * uy) / r) 1); [done|]. cbn [orb]. destruct (_ || _); [cbn [ba]; nia|done].
Qed.

Lemma best_grid_ok n : 1 <= n <= 583 -> grid_ok n (best_grid n).
Proof.
  intros Hn. unfold best_grid. change (seqZ 1 11) with (seqZ 1 10 ++ [11]). rewrite fold_left_app. cbn [fold_left].
  set (b := fold_left _ (seqZ 1 10) _).
  assert (Hb : search_ok n b).
  { unfold b. assert (H : Forall (fun r => 1 <= r) (seqZ 1 10)) by (apply Forall_forall; intros r Hr%elem_of_seqZ; lia).
    assert (H0 : search_ok n (Grid 1 1 0 0 (-1) (-1))) by (by left). revert H0. generalize (Grid 1 1 0 0 (-1) (-1)) as g.
    induction H as [|r l Hr _ IH]; intros g Hg; [done|]. cbn [fold_left]. apply IH. apply grid_row_ok; [done|lia|done]. }
  clearbody b. pose proof (grid_row_ok n b 11 ltac:(lia) ltac:(lia) Hb) as Hok.
  destruct Hok as [Hm|[_ Hok]]; [|done]. exfalso. revert Hm. unfold grid_row. set (c := (n + 11 - 1) / 11).
  assert (Hc : 1 <= c <= 53).
  { unfold c. split; [apply Z.div_le_lower_bound; lia|]. apply Z.lt_succ_r, Z.div_lt_upper_bound; lia. }
  rewrite (proj2 (Z.ltb_ge PW c)) by (unfold PW; lia). cbn [fold_left].
  assert (H1 : 1 <= ba (grid_try 11 c b (0, 0))).
  { unfold grid_try. assert (Hw : 1 <= (PW - (c - 1) * 0) / c) by (apply Z.div_le_lower_bound; unfold PW; lia).
    rewrite (proj2 (Z.ltb_ge _ 1)) by lia. change ((PH - (11 - 1) * 0) / 11) with 1. cbn [Z.ltb Z.compare Pos.compare Pos.compare_cont orb].
    destruct Hb as [Hb|[Hb _]]; [|destruct (_ || _); cbn [ba]; lia].
    rewrite Hb, (proj2 (Z.ltb_lt _ _)) by lia. cbn [orb ba]. lia. }
  pose proof (grid_try_found 11 c _ (1, 1) (grid_try_found 11 c _ (0, 1) (grid_try_found 11 c _ (1, 0) H1))). lia.
Qed.

(** ** Tiles *)

(** The cuts of [K] pixels into [c] parts are apart by a part and its gutter. *)
Lemma cut_step K c g i : 1 <= c -> 0 <= g -> c * (1 + g) <= K -> i * K / c + 1 + g <= (i + 1) * K / c.
Proof.
  intros Hc Hg HK. apply Z.div_le_lower_bound; [lia|].
  pose proof (Z.mul_div_le (i * K) c ltac:(lia)). nia.
Qed.

Lemma cut_mono K c i j : 1 <= c -> 0 <= K -> i <= j -> i * K / c <= j * K / c.
Proof. intros Hc HK Hij. apply Z.div_le_mono; [lia|]. nia. Qed.

Lemma cut_span K c g i :
  1 <= c -> 0 <= g -> c * (1 + g) <= K -> 0 <= i < c ->
  0 <= i * K / c < (i + 1) * K / c - g /\ (i + 1) * K / c <= K.
Proof.
  intros Hc Hg HK Hi. pose proof (cut_step K c g i Hc Hg HK).
  assert (0 <= i * K / c) by (apply Z.div_pos; nia).
  assert ((i + 1) * K / c <= K) by (apply Z.div_le_upper_bound; nia). lia.
Qed.

(** A pixel lies in at most one part. *)
Lemma cut_unique K c g i j x :
  1 <= c -> 0 <= g -> 0 <= K -> i * K / c <= x < (i + 1) * K / c - g -> j * K / c <= x < (j + 1) * K / c - g -> i = j.
Proof.
  intros Hc Hg HK Hi Hj. destruct (Z.lt_trichotomy i j) as [H|[H|H]]; [|done|].
  - pose proof (cut_mono K c (i + 1) j Hc HK ltac:(lia)). lia.
  - pose proof (cut_mono K c (j + 1) i Hc HK ltac:(lia)). lia.
Qed.

Definition in_tile (g : grid) (i x y : Z) : Prop :=
  let '(x0, x1, y0, y1) := tile_box g i in x0 <= x < x1 /\ y0 <= y < y1.

Lemma tile_box_ok n g i :
  grid_ok n g -> 0 <= i < n ->
  let '(x0, x1, y0, y1) := tile_box g i in 0 <= x0 < x1 /\ x1 <= PW /\ 0 <= y0 < y1 /\ y1 <= PH.
Proof.
  intros (H1 & H2 & H3 & H4 & H5 & H6 & H7) Hi. unfold tile_box.
  pose proof (Z.mod_pos_bound i (cols g) ltac:(lia)) as Hm.
  assert (Hd : 0 <= i / cols g < rows g) by (split; [apply Z.div_pos; lia|apply Z.div_lt_upper_bound; lia]).
  pose proof (cut_span (PW + gx g) (cols g) (gx g) (i mod cols g) ltac:(lia) ltac:(lia) H6 Hm).
  pose proof (cut_span (PH + gy g) (rows g) (gy g) (i / cols g) ltac:(lia) ltac:(lia) H7 Hd). lia.
Qed.

Lemma tile_unique n g i j x y : grid_ok n g -> in_tile g i x y -> in_tile g j x y -> i = j.
Proof.
  intros (H1 & H2 & H3 & H4 & H5 & H6 & H7). unfold in_tile, tile_box. intros [Hx Hy] [Hx' Hy'].
  assert (E1 : i mod cols g = j mod cols g) by (eapply (cut_unique (PW + gx g)); [..|exact Hx|exact Hx']; unfold PW; lia).
  assert (E2 : i / cols g = j / cols g) by (eapply (cut_unique (PH + gy g)); [..|exact Hy|exact Hy']; unfold PH; lia).
  rewrite (Z.div_mod i (cols g)), (Z.div_mod j (cols g)) by lia. by rewrite E1, E2.
Qed.

Lemma draw_tile_pixel g i q f px py :
  full f -> on_panel px py ->
  full (draw_tile g i q f) /\
  (in_tile g i px py -> pixel px py (draw_tile g i q f) =
     lit_as (stateColor (tl_state q)) (tile_ink q (tile_box g i).1.2 (tile_box g i).2 py)) /\
  (~ in_tile g i px py -> pixel px py (draw_tile g i q f) = pixel px py f).
Proof.
  intros Hf Hp. unfold draw_tile, in_tile. destruct (tile_box g i) as [[[x0 x1] y0] y1]. cbn [fst snd].
  destruct (rect_pixels x0 x1 y0 y1 (stateColor (tl_state q)) (tile_ink q y0 y1) f px py Hf Hp) as [H1 H2].
  split; [done|]. rewrite H2. split; intros H; [by rewrite decide_True|by rewrite decide_False].
Qed.

Lemma draw_tiles_pixel n g l i f px py k q :
  grid_ok n g -> full f -> on_panel px py -> l !! k = Some q -> in_tile g (i + Z.of_nat k) px py ->
  pixel px py (draw_tiles g i l f) =
  lit_as (stateColor (tl_state q)) (tile_ink q (tile_box g (i + Z.of_nat k)).1.2 (tile_box g (i + Z.of_nat k)).2 py).
Proof.
  intros Hg Hf Hp. revert i f k Hf. induction l as [|q0 l IH]; intros i f k Hf Hk Hin; [done|]. cbn [draw_tiles].
  destruct (draw_tile_pixel g i q0 f px py Hf Hp) as (H1 & H2 & _). destruct k as [|k].
  - injection Hk as ->. rewrite Z.add_0_r in *. rewrite <- (H2 Hin). clear H2 IH.
    assert (Hafter : forall l j f, i < j -> full f -> pixel px py (draw_tiles g j l f) = pixel px py f).
    { clear -Hg Hp Hin. induction l as [|q1 l IH]; intros j f Hj Hf; [done|]. cbn [draw_tiles].
      destruct (draw_tile_pixel g j q1 f px py Hf Hp) as (H1 & _ & H3). rewrite IH by (lia || done). apply H3.
      intros Hj'. pose proof (tile_unique n g i j px py Hg Hin Hj'). lia. }
    apply Hafter; [lia|done].
  - replace (i + Z.of_nat (S k)) with ((i + 1) + Z.of_nat k) in * by lia. by apply IH.
Qed.

(** ** Overlays and rows *)

Lemma keeps_titleCard i age : keeps (titleCard i age).
Proof. unfold titleCard. keeps. Qed.

Lemma keeps_inlay sinf e t : keeps (inlay sinf e t).
Proof. unfold inlay. cbv zeta. keeps. Qed.

Lemma beacon_pixel t f x y :
  full f -> nge (nrem t one) (lit 5 1) = false -> 51 <= x <= 52 -> 0 <= y <= 1 ->
  pixel x y (beacon t f) = lit_as cCrit one.
Proof.
  intros Hf Ht Hx Hy. unfold beacon. rewrite Ht.
  destruct (rect_pixels 51 53 0 2 cCrit (fun _ => one) f x y Hf) as [_ H]; [split; unfold PW, PH; lia|].
  etransitivity; [exact H|]. rewrite decide_True; [done|lia].
Qed.

Lemma keeps_beacon t : keeps (beacon t).
Proof. unfold beacon. keeps. Qed.

Lemma keeps_screenNoData sinf t h : keeps (screenNoData sinf t h).
Proof. unfold screenNoData. keeps. Qed.

(** A painted frame has the size of the framebuffer it was painted on. *)
Lemma paintScreen_full sinf log10f log2f idx e t dt armed cur age s s' :
  paintScreen sinf log10f log2f idx e t dt armed cur age s = Ok s' -> full (sfb s) -> full (sfb s').
Proof.
  intros H Hf. assert (Hc : full (sfb (draw fbClear s))) by (by apply fbClear_full). unfold full in *. rewrite <- Hc.
  unfold paintScreen in H. destruct e as [e|]; [destruct (nequ (e_total e) n0)|].
  - injection H as <-. apply draw_len. intros f. destruct armed; rewrite ?keeps_beacon; apply keeps_screenNoData.
  - destruct (render_screen _ _ _ idx e dt (draw fbClear s)) as [s1|] eqn:E; [|done]. cbn [bind] in H. injection H as <-.
    apply render_screen_len in E. rewrite <- E.
    destruct armed; [rewrite draw_len by (intros f; by rewrite keeps_beacon, keeps_inlay)|];
      (destruct (nequ _ cur); [rewrite draw_len by apply keeps_titleCard|]);
      (destruct (dataStale e); [apply draw_len; keeps|done]).
  - injection H as <-. apply draw_len. intros f. destruct armed; rewrite ?keeps_beacon; apply keeps_screenNoData.
Qed.

(** The five lines from [y] on. *)
Definition lines (y : Z) (px py : Z) : Prop := y <= py < y + 5.

Lemma within_sA1_row q y : within (lines y) (sA1_row q y).
Proof.
  unfold sA1_row. cbv zeta. apply (within_comp _ (fun f => textFit 3 y _ 8 cInk one (for_range 0 5 _ f))).
  - apply (within_comp _ (for_range 0 5 _)).
    + apply within_for. intros r Hr. apply (within_comp _ (fbSet 0 (y + r) _ one)); apply within_fbSet; unfold lines; lia.
    + apply within_textFit; [lia|]. unfold box, lines. lia.
  - apply within_textRight. unfold box, lines. lia.
Qed.

Lemma within_sB2_row q y : within (lines y) (sB2_row q y).
Proof.
  unfold sB2_row. apply (within_comp _ (textFit 0 y _ 8 cInk one)).
  - apply within_textFit; [lia|]. unfold box, lines. lia.
  - apply within_textRight. unfold box, lines. lia.
Qed.

Lemma within_sA2_row q y : within (lines y) (sA2_row q y).
Proof.
  unfold sA2_row. cbv zeta. destruct (nequ _ n0); [apply within_textFit; [lia|unfold box, lines; lia]|].
  apply (within_comp _ (fun f => (fold_left (pool_cell _ _ _ _ _) _ (O, n0, textFit 0 y _ 8 cInk one f)).2)).
  2:{ apply within_for. intros x Hx. apply within_fbSet. unfold lines. lia. }
  apply (within_comp _ (textFit 0 y _ 8 cInk one) (fun f => (fold_left _ _ (O, n0, f)).2)).
  { apply within_textFit; [lia|]. unfold box, lines. lia. }
  generalize O as k, n0 as run. induction (seqZ 0 _) as [|x l IH]; intros k run; [apply within_id|]. cbn [fold_left].
  unfold pool_cell at 2. destruct (next_state _ k run) as [k' run'].
  apply (within_comp _ (for_range 0 3 _) (fun f => (fold_left _ l (k', _, f)).2)); [|apply IH].
  apply within_for. intros r Hr. apply within_for. intros xx Hxx. apply within_fbSet. unfold lines. lia.
Qed.

(** The drawing operations of the three paged lists. *)
Definition paged_rows : list (value -> Z -> fb -> fb) := [sA1_row; sA2_row; sB2_row].

Lemma paged_rows_within row q y : row ∈ paged_rows -> within (lines y) (row q y).
Proof.
  unfold paged_rows. rewrite !elem_of_cons. intros [-> |[-> |[-> |H]]];
    [apply within_sA1_row|apply within_sA2_row|apply within_sB2_row|by apply not_elem_of_nil in H].
Qed.

(** ** Properties *)

(** C10: a live alarm shows on every screen.  While it is armed and the beacon is in
    its lit half second, the four pixels of the beacon are the critical colour in
    the painted frame, whatever the screen, its data, the stale mark, the title
    card or the alert inlay drew; and every screen but the flow map, whose links
    may have a broken parent, is always painted. *)
Theorem alarm_shows_on_every_screen (sinf log10f log2f : num -> num) (idx : nat) (e : option env) (t dt currentIdx : num)
    (titleAge : option num) (s : scr) :
  full (sfb s) -> (idx < 16)%nat ->
  (idx <> 7%nat -> exists s', paintScreen sinf log10f log2f idx e t dt true currentIdx titleAge s = Ok s') /\
  (forall s', paintScreen sinf log10f log2f idx e t dt true currentIdx titleAge s = Ok s' ->
    full (sfb s') /\
    (nge (nrem t one) (lit 5 1) = false -> forall x y, 51 <= x <= 52 -> 0 <= y <= 1 -> pixel x y (sfb s') = lit_as cCrit one)).
Proof.
  intros Hf Hi.
  assert (Hlast : forall (op : fb -> fb) s1, keeps op -> full (sfb s1) ->
    let s' := draw (fun f => beacon t (op f)) s1 in
    full (sfb s') /\
    (nge (nrem t one) (lit 5 1) = false -> forall x y, 51 <= x <= 52 -> 0 <= y <= 1 -> pixel x y (sfb s') = lit_as cCrit one)).
  { intros op s1 Hk H1. cbn [draw sfb]. assert (Hop : full (op (sfb s1))) by (unfold full in *; by rewrite Hk).
    split; [unfold full in *; by rewrite keeps_beacon|]. intros Ht x y Hx Hy. by apply beacon_pixel. }
  assert (Hc : full (sfb (draw fbClear s))) by (by apply fbClear_full).
  assert (Hnd : forall h, keeps (screenNoData sinf t h)) by (intros h; unfold screenNoData; keeps).
  unfold paintScreen. destruct e as [e|]; [|split; [eauto|]; intros s' [= <-]; by apply (Hlast (screenNoData sinf t false))].
  destruct (nequ (e_total e) n0); [split; [eauto|]; intros s' [= <-]; by apply (Hlast (screenNoData sinf t true))|].
  split.
  - intros H7. do 16 (try destruct idx as [|idx]); try lia; cbn [render_screen bind]; eauto.
  - intros s'. destruct (render_screen _ _ _ idx e dt (draw fbClear s)) as [s1|] eqn:E; [|done]. cbn [bind]. intros [= <-].
    apply render_screen_len in E. apply (Hlast (inlay sinf e t)); [apply keeps_inlay|].
    destruct (nequ _ currentIdx); destruct (dataStale e);
      unfold full in *; rewrite ?draw_len by (apply keeps_titleCard || keeps); congruence.
Qed.

(** C40: every host has its tile.  For up to 583 hosts, each one's tile is a
    non-empty rectangle inside the panel, and after the screen is drawn every
    pixel of it shows that host's state colour at that host's brightness: no tile
    is hidden by another or falls off the panel. *)
Theorem host_tiles_all_visible (e : env) (s : scr) (i : nat) (q : tile) :
  let l := tiles_of (fun q => ndiv (numOf (fld q "loadPct")) (ofZ 100)) e in
  let g := best_grid (len l) in
  let '(x0, x1, y0, y1) := tile_box g (Z.of_nat i) in
  full (sfb s) -> (length l <= 583)%nat -> l !! i = Some q ->
  0 <= x0 < x1 /\ x1 <= PW /\ 0 <= y0 < y1 /\ y1 <= PH /\
  forall x y, x0 <= x < x1 -> y0 <= y < y1 ->
    pixel x y (sfb (sA0 e s)) = lit_as (stateColor (tl_state q)) (tile_ink q y0 y1 y).
Proof.
  cbv zeta. set (l := tiles_of _ e). set (g := best_grid (len l)).
  destruct (tile_box g (Z.of_nat i)) as [[[x0 x1] y0] y1] eqn:E. intros Hf Hl Hi.
  pose proof (lookup_lt_Some _ _ _ Hi) as Hlt.
  assert (Hg : grid_ok (len l) g) by (apply best_grid_ok; unfold len; lia).
  pose proof (tile_box_ok (len l) g (Z.of_nat i) Hg ltac:(unfold len; lia)) as Hb. rewrite E in Hb.
  destruct Hb as (B1 & B2 & B3 & B4). split; [done|]. split; [done|]. split; [done|]. split; [done|].
  assert (Es : sfb (sA0 e s) = draw_tiles g 0 l (sfb s)) by (unfold g, sA0; fold l; by destruct l).
  intros x y Hx Hy. rewrite Es.
  pose proof (draw_tiles_pixel (len l) g l 0 (sfb s) x y i q Hg Hf) as H. rewrite Z.add_0_l, E in H. cbn [fst snd] in H.
  apply H; [split; lia|done|]. unfold in_tile. by rewrite E.
Qed.

(** The two rows of a paged list and its page bar never touch.  Each row of
    the roster, of the pools and of the top talkers draws only in its own five
    lines, the bar only in the line between, so what a page shows of the first
    host is not altered by the second. *)
Theorem paged_rows_keep_apart (row : value -> Z -> fb -> fb) (a : list value) (p n : Z) (f : fb) (x y : Z) :
  row ∈ paged_rows -> full f -> on_panel x y ->
  let q := item a (p * 2) in
  let shown := pageBar p n (two_rows row a p f) in
  (y < 5 -> pixel x y shown = pixel x y (if truthy q then row q 0 f else f)) /\
  (y = 5 -> pixel x y (two_rows row a p f) = pixel x y f) /\
  (5 < y -> pixel x y shown = pixel x y (two_rows row a p f)).
Proof.
  intros Hrow Hf Hp. cbv zeta. replace (item a (p * 2)) with (item a (p * 2 + 0)) by (by rewrite Z.add_0_r).
  set (f1 := if truthy (item a (p * 2 + 0)) then row (item a (p * 2 + 0)) 0 f else f).
  set (f2 := two_rows row a p f).
  assert (E2 : f2 = if truthy (item a (p * 2 + 1)) then row (item a (p * 2 + 1)) 6 f1 else f1)
    by reflexivity.
  assert (W1 : within (lines 0) (fun f => if truthy (item a (p * 2 + 0)) then row (item a (p * 2 + 0)) 0 f else f))
    by (apply within_if; [by apply paged_rows_within|apply within_id]).
  assert (W2 : within (lines 6) (fun f => if truthy (item a (p * 2 + 1)) then row (item a (p * 2 + 1)) 6 f else f))
    by (apply within_if; [by apply paged_rows_within|apply within_id]).
  assert (W3 : within (fun _ py => py = 5) (pageBar p n)).
  { unfold pageBar. destruct (n <=? 1); [apply within_id|]. apply within_for. intros i Hi. by apply within_fbSet. }
  destruct (W1 f Hf) as [F1 P1]. fold f1 in F1, P1. destruct (W2 f1 F1) as [F2 P2]. rewrite <- E2 in F2, P2.
  destruct (W3 f2 F2) as [_ P3].
  split; [|split]; intros Hy.
  - rewrite P3, P2 by (done || unfold lines; lia). done.
  - rewrite P2, P1 by (done || unfold lines; lia). done.
  - rewrite P3 by (done || lia). done.
Qed.

(** ** Witnesses *)

Definition demo_env : env :=
  buildEnv (VObj [("ts", vz 3000); ("alarmActive", VBool true); ("stateRoll", VObj [("up", vz 2); ("down", vz 1)]);
                  ("systems", VArr [VObj [("name", VStr "web"); ("state", VStr "down")];
                                    VObj [("name", VStr "db"); ("state", VStr "ok"); ("loadPct", vz 40)]])]) []
           CADENCE_MS_DEFAULT.

Definition blank : scr := Scr fbNew (replicate 16 n0) ∅ n0.

Lemma alarm_shows_on_every_screen_witness :
  exists s', paintScreen (fun x => x) (fun x => x) (fun x => x) 1 (Some demo_env) (ofZ 3) (lit 4 2) true (ofZ 1) None blank = Ok s' /\
    pixel 52 0 (sfb s') = lit_as cCrit one.
Proof.
  destruct (alarm_shows_on_every_screen (fun x => x) (fun x => x) (fun x => x) 1 (Some demo_env) (ofZ 3) (lit 4 2) (ofZ 1) None blank)
    as [H1 H2]; [reflexivity|lia|].
  destruct (H1 ltac:(discriminate)) as [s' E]. exists s'. split; [exact E|].
  destruct (H2 s' E) as [_ H]. apply H; [reflexivity|lia|lia].
Defined.

Lemma host_tiles_all_visible_witness :
  pixel 0 0 (sfb (sA0 demo_env blank)) = lit_as cCrit one.
Proof.
  apply (host_tiles_all_visible demo_env blank 0 (Tile (vz 2) (ndiv n0 (ofZ 100)))); [reflexivity|cbn; lia|reflexivity|vm_compute; split; [discriminate|reflexivity]..].
Defined.

Lemma paged_rows_keep_apart_witness :
  let a := raw_list demo_env "systems" in
  pixel 3 2 (pageBar 0 1 (two_rows sA1_row a 0 fbNew)) = pixel 3 2 (sA1_row (item a 0) 0 fbNew).
Proof.
  destruct (paged_rows_keep_apart sA1_row (raw_list demo_env "systems") 0 1 fbNew 3 2) as [H _];
    [left|reflexivity|unfold on_panel, PW, PH; lia|]. exact (H ltac:(lia)).
Defined.
