(* ===== verification/PanelView.v ===== *)
(** * The grid of virtual screens (screens-panel.jsx, VirtualPanel and paintCanvas)

    Every frame simulates the visible screens and repaints the canvas of those
    whose framebuffer changed since their last paint.  A canvas is the image data
    written to it: one byte per channel, as a [Uint8ClampedArray] stores it. *)

From Stdlib Require Import ZArith Lia Ascii.
From Corelib Require Import SpecFloat.
From stdpp Require Import strings pretty gmap list.
From S2P Require Import Prelude JsNum JsValue Mappers TopoLayout PanelCfg PanelFb PanelEnv PanelScreens PanelPaint.

Local Open Scope string_scope.
Local Open Scope list_scope.
Local Open Scope Z_scope.
Local Open Scope js_scope.

(** ** To the canvas *)

(** ToUint8Clamp: the nearest integer, halves to even. *)
Definition toUint8Clamp (v : num) : Z :=
  if is_nan v || nle v n0 then 0
  else if nge v (ofZ 255) then 255
  else
    let fl := floorZ v in
    let d := nsub v (ofZ fl) in
    if nlt d (lit 5 1) then fl else if ngt d (lit 5 1) then fl + 1 else if Z.even fl then fl else fl + 1.

Definition clamp255 (v : num) : num := if nlt v n0 then n0 else if ngt v (ofZ 255) then ofZ 255 else v.

(** One channel of one LED. *)
Definition channel (v gain : num) : Z := toUint8Clamp (clamp255 (nmul v gain)).

(** The image data of a framebuffer: red, green, blue and opaque, per LED. *)
Definition image_data (f : fb) (gain : num) : list Z :=
  flat_map (fun n => map (fun k => channel (f !!! (3 * n + k)%nat) gain) [0; 1; 2]%nat ++ [255]) (seq 0 583).

(** ** The frame loop *)

(** The shared framebuffer and clocks, each screen's last painted framebuffer,
    whether it was painted since the inputs changed, and the canvases. *)
Record view := View { v_scr : scr; v_prev : list fb; v_painted : list bool; v_canvas : list (list Z) }.

(** [fb[n] !== prev[n]] for some [n]. *)
Definition differs (f prev : fb) : bool := existsb (fun n => negb (nequ (f !!! n) (prev !!! n))) (seq 0 (length prev)).

(** What a pass is given: the clock, the environment, the alarm, the gain, the
    screen the panel shows and the age of its report. *)
Record pass := Pass { ps_t : num; ps_dt : num; ps_env : option env; ps_armed : bool; ps_gain : num;
                      ps_current : num; ps_titleAge : num; ps_force : bool; ps_vis : list bool }.

Section Host.
Context (sinf log10f log2f : num -> num).

(** Simulate screen [i]: time only passes on the panel's current screen. *)
Definition simulate (p : pass) (i : nat) (s : scr) : res scr :=
  paintScreen sinf log10f log2f i (ps_env p) (ps_t p)
    (if nequ (ofZ (Z.of_nat i)) (ps_current p) then ps_dt p else n0)
    (ps_armed p) (ps_current p) (Some (ps_titleAge p)) s.

Definition skipped (p : pass) (i : nat) : bool := negb (ps_force p) && negb (ps_vis p !!! i).

Definition draw_one (p : pass) (v : view) (i : nat) : res view :=
  if skipped p i then Ok v
  else
    s <- simulate p i (v_scr v) ;;
    let f := sfb s in
    if negb (v_painted v !!! i) || differs f (v_prev v !!! i)
    then Ok (View s (<[i := f]> (v_prev v)) (<[i := true]> (v_painted v)) (<[i := image_data f (ps_gain p)]> (v_canvas v)))
    else Ok (View s (v_prev v) (v_painted v) (v_canvas v)).

(** A loop whose body may throw. *)
Fixpoint fold_res {A B} (step : A -> B -> res A) (a : A) (l : list B) : res A :=
  match l with [] => Ok a | b :: r => a' <- step a b ;; fold_res step a' r end.

Definition drawAll (p : pass) (v : view) : res view := fold_res (draw_one p) v (seq 0 16).

(** The effect that runs when the environment, the alarm, the gain or the current
    screen changes. *)
Definition invalidate (v : view) : view := View (v_scr v) (v_prev v) (replicate 16 false) (v_canvas v).

(** The time step of a frame: at most 200 ms. *)
Definition frame_dt (elapsed : num) : num := ndiv (nmin elapsed (ofZ 200)) (ofZ 1000).

(** ** The reference: repaint every visible screen *)

Definition draw_one_ref (p : pass) (st : scr * list (list Z)) (i : nat) : res (scr * list (list Z)) :=
  if skipped p i then Ok st
  else s <- simulate p i st.1 ;; Ok (s, <[i := image_data (sfb s) (ps_gain p)]> st.2).

Definition drawAll_ref (p : pass) (st : scr * list (list Z)) : res (scr * list (list Z)) :=
  fold_res (draw_one_ref p) st (seq 0 16).

(** ** Equal framebuffers give equal images *)

Lemma channel_nequ a b g : nequ a b = true -> channel a g = channel b g.
Proof.
  intros [[-> _]|(s & t & -> & ->)]%nequ_true; [done|]. destruct g as [u|u| |u m e]; try done; by destruct s, t, u.
Qed.

Lemma image_data_nequ f f' g :
  (forall n, (n < 1749)%nat -> nequ (f !!! n) (f' !!! n) = true) -> image_data f g = image_data f' g.
Proof.
  intros H. unfold image_data. rewrite !flat_map_concat_map. f_equal. apply map_ext_in. intros n Hn%in_seq. f_equal.
  apply map_ext_in.
  intros k Hk. apply channel_nequ, H. destruct Hk as [<-|[<-|[<-|[]]]]; lia.
Qed.

Lemma differs_false f prev g : full prev -> differs f prev = false -> image_data f g = image_data prev g.
Proof.
  intros Hp H. apply image_data_nequ. intros n Hn. unfold differs in H. rewrite Hp in H.
  destruct (nequ (f !!! n) (prev !!! n)) eqn:E; [done|]. exfalso. apply not_true_iff_false in H. apply H.
  apply existsb_exists. exists n. split; [apply in_seq; lia|by rewrite E].
Qed.

(** What the canvases owe the framebuffers: a painted screen shows its last
    painted framebuffer at this gain. *)
Definition view_ok (g : num) (v : view) : Prop :=
  full (sfb (v_scr v)) /\ length (v_prev v) = 16%nat /\ length (v_painted v) = 16%nat /\ length (v_canvas v) = 16%nat /\
  Forall full (v_prev v) /\
  forall i, (i < 16)%nat -> v_painted v !!! i = true -> v_canvas v !!! i = image_data (v_prev v !!! i) g.

(** One screen: the optimised step and the reference agree. *)
Lemma draw_one_agrees p v i :
  (i < 16)%nat -> view_ok (ps_gain p) v ->
  match draw_one p v i, draw_one_ref p (v_scr v, v_canvas v) i with
  | Ok v', Ok st => st = (v_scr v', v_canvas v') /\ view_ok (ps_gain p) v'
  | Throw e, Throw e' => e = e'
  | _, _ => False
  end.
Proof.
  intros Hi Hv. unfold draw_one, draw_one_ref. destruct (skipped p i); [done|]. cbn [fst snd].
  destruct (simulate p i (v_scr v)) as [s|e] eqn:E; [|done]. cbn [bind].
  destruct Hv as (Hf & H1 & H2 & H3 & H4 & H5). pose proof (paintScreen_full _ _ _ _ _ _ _ _ _ _ _ _ E Hf) as Hs.
  assert (Hprev : full (v_prev v !!! i)).
  { apply (Forall_lookup_1 _ _ i _ H4). apply list_lookup_lookup_total_lt. lia. }
  destruct (v_painted v !!! i) eqn:Ep; cbn [negb orb]; [destruct (differs (sfb s) (v_prev v !!! i)) eqn:Ed|].
  2:{ cbn [v_scr v_canvas]. split; [|done]. f_equal. apply list_insert_id.
      rewrite (differs_false _ _ _ Hprev Ed), <- (H5 i Hi Ep). apply list_lookup_lookup_total_lt. lia. }
  all: split; [done|]; unfold view_ok; cbn [v_scr v_prev v_painted v_canvas]; rewrite !length_insert;
    repeat (split; [done|]); (split; [by apply Forall_insert|]); intros j Hj Hp;
    destruct (decide (i = j)) as [->|Hne];
    [by rewrite !list_lookup_total_insert_eq by lia|rewrite !list_lookup_total_insert_ne in * by done; by apply H5].
Qed.

Lemma drawAll_agrees p v l :
  Forall (fun i => (i < 16)%nat) l -> view_ok (ps_gain p) v ->
  match fold_res (draw_one p) v l, fold_res (draw_one_ref p) (v_scr v, v_canvas v) l with
  | Ok v', Ok st => st = (v_scr v', v_canvas v') /\ view_ok (ps_gain p) v'
  | Throw e, Throw e' => e = e'
  | _, _ => False
  end.
Proof.
  intros Hl. revert v. induction Hl as [|i l Hi _ IH]; intros v Hv; [done|]. cbn [fold_res].
  pose proof (draw_one_agrees p v i Hi Hv) as H.
  destruct (draw_one p v i) as [v'|], (draw_one_ref p (v_scr v, v_canvas v) i) as [st|]; try done.
  destruct H as [-> Hv']. cbn [bind]. by apply IH.
Qed.
End Host.

(** ** Properties *)

(** C9: skipping unchanged screens changes nothing that is seen.  From any state in
    which painted canvases are up to date, a pass that repaints only the screens
    whose framebuffer changed leaves the same canvases, the same clocks and the
    same framebuffer as one that repaints every visible screen (or fails as it
    does), and keeps the canvases up to date; and forgetting what was painted,
    as the page does when the gain or the data changes, is always safe. *)
Theorem repaint_skip_is_invisible (sinf log10f log2f : num -> num) (p : pass) (v : view) (g : num) :
  view_ok (ps_gain p) v ->
  match drawAll sinf log10f log2f p v with
  | Ok v' => drawAll_ref sinf log10f log2f p (v_scr v, v_canvas v) = Ok (v_scr v', v_canvas v') /\ view_ok (ps_gain p) v'
  | Throw e => drawAll_ref sinf log10f log2f p (v_scr v, v_canvas v) = Throw e
  end /\
  view_ok g (invalidate v).
Proof.
  intros Hv. split.
  - pose proof (drawAll_agrees sinf log10f log2f p v (seq 0 16)) as H. unfold drawAll, drawAll_ref.
    destruct (fold_res (draw_one _ _ _ p) v (seq 0 16)) as [v'|e], (fold_res (draw_one_ref _ _ _ p) _ _) as [st|e'];
      (specialize (H ltac:(apply Forall_forall; intros i Hi%elem_of_seq; lia) Hv)); try done.
    + by destruct H as [-> H].
    + by subst.
  - destruct Hv as (Hf & H1 & H2 & H3 & H4 & H5). unfold view_ok, invalidate. cbn [v_scr v_prev v_painted v_canvas].
    repeat (split; [done|]). intros i Hi. by rewrite lookup_total_replicate_2.
Qed.

(** The page's first state. *)
Definition view0 : view := View blank (replicate 16 fbNew) (replicate 16 false) (replicate 16 []).

Lemma repaint_skip_is_invisible_witness :
  match drawAll (fun x => x) (fun x => x) (fun x => x)
          (Pass (ofZ 1) n0 None true (ofZ 1) (ofZ 0) (ofZ 99) false (true :: replicate 15 false)) view0 with
  | Ok v' => view_ok (ofZ 1) v'
  | Throw _ => False
  end.
Proof.
  pose (p := Pass (ofZ 1) n0 None true (ofZ 1) (ofZ 0) (ofZ 99) false (true :: replicate 15 false)).
  assert (H : view_ok (ps_gain p) view0).
  { split; [reflexivity|]. split; [reflexivity|]. split; [reflexivity|]. split; [reflexivity|].
    split; [apply Forall_replicate; reflexivity|]. intros i Hi. unfold view0. cbn [v_painted].
    rewrite lookup_total_replicate_2 by exact Hi. discriminate. }
  destruct (repaint_skip_is_invisible (fun x => x) (fun x => x) (fun x => x) p view0 n0 H) as [H1 _].
  exact (proj2 H1).
Defined.
