(* ===== verification/PanelFlow.v ===== *)
(** * The flow map's forest (screens-panel.jsx, sB3)

    The links name their parents, and the names may form loops.  The proofs show
    that what the screen makes of them is a forest, that its depth-first loop
    visits every link once, and within its bound. *)

From Stdlib Require Import ZArith Lia Ascii.
From Corelib Require Import SpecFloat.
From stdpp Require Import strings pretty gmap list.
From S2P Require Import Prelude JsNum JsValue Mappers TopoLayout PanelCfg PanelFb PanelEnv PanelScreens.

Local Open Scope string_scope.
Local Open Scope list_scope.
Local Open Scope Z_scope.
Local Open Scope js_scope.

(** ** Depth-first order of a forest *)

Section Forest.
Context (n : nat) (par : list Z) (rank : Z -> nat).

Definition in_links (i : Z) : Prop := 0 <= i < Z.of_nat n.
Definition parent (i : Z) : Z := par !!! Z.to_nat i.

(** Parents are links of lower rank. *)
Context (Hlen : length par = n).
Context (Hpar : forall i, in_links i -> parent i < 0 \/ (in_links (parent i) /\ (rank (parent i) < rank i)%nat)).

Lemma children_elem i c : c ∈ children par i <-> in_links c /\ parent c = i.
Proof.
  unfold children, len. rewrite list_elem_of_In, filter_In, <- list_elem_of_In, elem_of_seqZ, Hlen, Z.eqb_eq.
  unfold in_links, parent. split; intros [? ?]; (split; [lia|done]).
Qed.

Lemma NoDup_list_filter {A} (f : A -> bool) (l : list A) : NoDup l -> NoDup (List.filter f l).
Proof. rewrite !NoDup_ListNoDup. apply List.NoDup_filter. Qed.

Lemma children_NoDup i : NoDup (children par i).
Proof. apply NoDup_list_filter, NoDup_seqZ. Qed.

(** The state of the loop: no link twice; a link that waits or was visited is a
    root or has a visited parent; and only the descendants of a waiting link are
    still out of sight. *)
Record dfs_ok (stack order : list Z) : Prop := {
  once : NoDup (order ++ stack);
  range : Forall in_links (order ++ stack);
  known : forall i, i ∈ order ++ stack -> parent i < 0 \/ parent i ∈ order;
  closed : forall i, in_links i -> i ∈ order ++ stack \/ (0 <= parent i /\ parent i ∉ order) }.

Lemma dfs_step_ok i stack order : dfs_ok (i :: stack) order -> dfs_ok (children par i ++ stack) (order ++ [i]).
Proof.
  intros [H1 H2 H3 H4].
  assert (Hp : order ++ i :: stack ≡ₚ (order ++ [i]) ++ stack) by (by rewrite <- app_assoc).
  assert (Hi : i ∉ order).
  { apply NoDup_app in H1 as (_ & H1 & _). intros Hi. apply (H1 i Hi). left. }
  assert (Hin : in_links i) by (rewrite Forall_forall in H2; apply H2, elem_of_app; right; left).
  assert (Hnew : forall c, c ∈ children par i -> c ∉ order ++ i :: stack).
  { intros c [Hc Ec]%children_elem Hco. destruct (H3 c Hco) as [Hneg|Hord]; [unfold in_links in Hin; lia|]. by rewrite Ec in Hord. }
  assert (Hall : (order ++ [i]) ++ children par i ++ stack ≡ₚ children par i ++ (order ++ i :: stack))
    by (rewrite Hp; solve_Permutation).
  split.
  - rewrite Hall. apply NoDup_app. split; [apply children_NoDup|]. split; [done|done].
  - rewrite Hall. apply Forall_app. split; [|done]. apply Forall_forall. intros c Hc. by apply children_elem in Hc as [? _].
  - intros j Hj. rewrite Hall in Hj. apply elem_of_app in Hj as [Hj|Hj].
    + apply children_elem in Hj as [_ ->]. right. apply elem_of_app. right. left.
    + destruct (H3 j Hj) as [|Ho]; [by left|]. right. apply elem_of_app. by left.
  - intros j Hj. rewrite Hall. destruct (decide (parent j = i)) as [E|Hne].
    + left. apply elem_of_app. left. by apply children_elem.
    + destruct (H4 j Hj) as [Ho|[H0 Ho]]; [left; apply elem_of_app; by right|]. right. split; [done|].
      rewrite elem_of_app, list_elem_of_singleton. tauto.
Qed.

(** With nothing waiting, everything was visited. *)
Lemma dfs_done order : dfs_ok [] order -> forall i, in_links i -> i ∈ order.
Proof.
  intros [_ _ _ H4]. rewrite app_nil_r in H4.
  assert (H : forall r i, (rank i < r)%nat -> in_links i -> i ∈ order); [|intros i; by apply (H (S (rank i))); lia].
  induction r as [|r IH]; intros i Hr Hi; [lia|]. destruct (H4 i Hi) as [|[H0 Hno]]; [done|].
  destruct (Hpar i Hi) as [|[Hin Hlt]]; [lia|]. exfalso. apply Hno, IH; [lia|done].
Qed.

(** The visited links are a permutation of all of them as soon as there are as
    many, and the loop does not stop before. *)
Lemma dfs_complete order : dfs_ok [] order -> order ≡ₚ seqZ 0 (Z.of_nat n).
Proof.
  intros H. pose proof (dfs_done order H) as Hall. destruct H as [H1 H2 _ _]. rewrite app_nil_r in *.
  apply NoDup_Permutation; [done|apply NoDup_seqZ|]. intros i. rewrite elem_of_seqZ. rewrite Forall_forall in H2.
  split; [intros Hi; apply H2 in Hi; unfold in_links in Hi; lia|]. intros Hi. apply Hall. unfold in_links. lia.
Qed.

Lemma dfs_room stack order : dfs_ok stack order -> (length order + length stack <= n)%nat.
Proof.
  intros [H1 H2 _ _]. rewrite <- length_app.
  replace n with (length (seqZ 0 (Z.of_nat n))) by (rewrite length_seqZ; lia).
  apply submseteq_length, NoDup_submseteq; [done|]. intros i Hi. rewrite Forall_forall in H2.
  apply elem_of_seqZ. specialize (H2 i Hi). unfold in_links in H2. lia.
Qed.

Lemma dfs_all fuel stack order :
  (n <= fuel + length order)%nat -> dfs_ok stack order -> dfs fuel par stack order ≡ₚ seqZ 0 (Z.of_nat n).
Proof.
  revert stack order. induction fuel as [|k IH]; intros stack order Hf Hok; cbn [dfs].
  - pose proof (dfs_room _ _ Hok). destruct stack as [|x s]; [by apply dfs_complete|]. cbn [length] in *. lia.
  - destruct stack as [|i stack]; [by apply dfs_complete|].
    apply IH; [rewrite length_app; cbn [length]; lia|by apply dfs_step_ok].
Qed.

Lemma dfs_start : dfs_ok (List.filter (fun i => par !!! Z.to_nat i <? 0) (seqZ 0 (Z.of_nat n))) [].
Proof.
  assert (He : forall i, i ∈ List.filter (fun i => par !!! Z.to_nat i <? 0) (seqZ 0 (Z.of_nat n)) <-> in_links i /\ parent i < 0).
  { intros i. rewrite list_elem_of_In, filter_In, <- list_elem_of_In, elem_of_seqZ, Z.ltb_lt. unfold in_links, parent.
    split; intros [? ?]; (split; [lia|done]). }
  split; cbn [app].
  - apply NoDup_list_filter, NoDup_seqZ.
  - apply Forall_forall. intros i Hi. by apply He in Hi as [? _].
  - intros i Hi. left. by apply He in Hi as [_ ?].
  - intros i Hi. rewrite He. destruct (decide (parent i < 0)); [by left; split|]. right. split; [lia|]. apply not_elem_of_nil.
Qed.
End Forest.

(** ** The parents the links name *)

(** A parent the panel's API can send: none, or the number of a link. *)
Definition link_ok (q : value) : Prop :=
  nullish q = false /\
  (nullish (fld q "parent") = true \/ exists j, 0 <= j < 2 ^ 31 /\ numOf (fld q "parent") = ofZ j).

Section Links.
Context (a : list value).
Context (Hok : Forall link_ok a) (Hmany : len a < 2 ^ 31).

(** Link [i] names link [j]. *)
Definition names (i j : Z) : Prop :=
  has_parent (len a) (item a i) = true /\ index_at (numOf (fld (item a i) "parent")) = Some j.

(** The names lead from [i] to a link without a parent, in [d] steps. *)
Inductive rooted : Z -> nat -> Prop :=
  | Root i : 0 <= i < len a -> has_parent (len a) (item a i) = false -> rooted i 0
  | Below i j d : 0 <= i < len a -> names i j -> rooted j d -> rooted i (S d).

Lemma item_ok i : 0 <= i < len a -> link_ok (item a i).
Proof.
  intros Hi. unfold item. destruct (Z.ltb_spec i 0); [lia|]. rewrite Forall_forall in Hok. apply Hok.
  apply list_elem_of_In, nth_In. unfold len in Hi. lia.
Qed.

Lemma index_at_ofZ j : 0 <= j < 2 ^ 53 -> index_at (ofZ j) = Some j.
Proof.
  intros Hj. unfold index_at, nge, nle, SFleb. rewrite is_integer_ofZ by done.
  change n0 with (ofZ 0). rewrite ofZ_compare by lia. rewrite truncZ_ofZ by done. by destruct j as [|?|]; [| |lia].
Qed.

(** Every link names one link or none. *)
Lemma names_total i : 0 <= i < len a -> has_parent (len a) (item a i) = true -> exists j, names i j /\ 0 <= j < len a.
Proof.
  intros Hi Hp. destruct (item_ok i Hi) as [_ [Hn|(j & Hj & E)]]; unfold has_parent in Hp.
  { by rewrite Hn in Hp. }
  exists j. unfold names, has_parent. rewrite E in *. rewrite Hp, index_at_ofZ by lia. split; [done|].
  apply andb_prop in Hp as [_ Hlt]. rewrite nlt_ofZ in Hlt by lia. lia.
Qed.

Lemma names_in i j : 0 <= i < len a -> names i j -> 0 <= j < len a.
Proof. intros Hi [Hp E]. destruct (names_total i Hi Hp) as (j' & [_ E'] & H). by simplify_eq. Qed.

Lemma rooted_in i d : rooted i d -> 0 <= i < len a.
Proof. by destruct 1. Qed.

Lemma rooted_det i d d' : rooted i d -> rooted i d' -> d = d'.
Proof.
  intros H. revert d'. induction H as [i ? Hn|i j d ? [Hp Hj] _ IH]; intros d' H'; inversion H' as [|? j' ? ? [Hp' Hj']]; simplify_eq; try congruence.
  f_equal. by apply IH.
Qed.

(** The links on the way have different depths, so there are at most as many as
    links. *)
Lemma rooted_path i d :
  rooted i d -> exists l, length l = S d /\ NoDup l /\ forall x, x ∈ l -> exists d', (d' <= d)%nat /\ rooted x d'.
Proof.
  induction 1 as [i Hi Hn|i j d Hi Hj Hr (l & El & Hl & Hd)].
  - exists [i]. split; [done|]. split; [apply NoDup_singleton|]. intros x ->%list_elem_of_singleton. exists 0%nat. split; [lia|by constructor].
  - exists (i :: l). assert (Hri : rooted i (S d)) by by econstructor. split; [cbn; lia|]. split.
    + apply NoDup_cons. split; [|done]. intros Hin. destruct (Hd i Hin) as (d' & ? & Hr'). pose proof (rooted_det _ _ _ Hri Hr'). lia.
    + intros x [-> |Hx]%elem_of_cons; [by exists (S d)|]. destruct (Hd x Hx) as (d' & ? & ?). exists d'. split; [lia|done].
Qed.

Lemma rooted_short i d : rooted i d -> (d < length a)%nat.
Proof.
  intros (l & El & Hl & Hd)%rooted_path. enough (length l <= length (seqZ 0 (len a)))%nat as H.
  { rewrite length_seqZ in H. unfold len in H. lia. }
  apply submseteq_length, NoDup_submseteq; [done|]. intros x (d' & _ & Hr)%Hd. apply elem_of_seqZ. apply rooted_in in Hr. lia.
Qed.

(** The walk finds the root of a rooted link, and gives up on any other. *)
Lemma climb_rooted i d fuel k :
  rooted i d -> (d <= fuel)%nat -> exists r, climb fuel a i k = Ok (Some (r, k + Z.of_nat d)) /\ rooted r 0.
Proof.
  intros H. revert fuel k. induction H as [i Hi Hn|i j d Hi [Hp Hj] Hr IH]; intros fuel k Hf.
  - exists i. split; [|by constructor]. destruct fuel; cbn [climb]; rewrite Hn; do 3 f_equal; lia.
  - destruct fuel as [|fuel]; [lia|]. destruct (IH fuel (k + 1) ltac:(lia)) as (r & E & H0). exists r. split; [|done].
    cbn [climb]. rewrite Hp, Hj, E. do 3 f_equal. lia.
Qed.

Lemma climb_unrooted i fuel k :
  0 <= i < len a -> (forall d, ~ rooted i d) -> climb fuel a i k = Ok None.
Proof.
  revert i k. induction fuel as [|fuel IH]; intros i k Hi Hno; cbn [climb];
    (destruct (has_parent _ _) eqn:Hp; [|exfalso; by apply (Hno 0%nat); constructor]); [done|].
  destruct (names_total i Hi Hp) as (j & Hj & Hin). rewrite (proj2 Hj). apply IH; [done|].
  intros d Hd. apply (Hno (S d)). by econstructor.
Qed.

(** Whether the names lead to a root is decided by the walk. *)
Lemma rooted_dec i : 0 <= i < len a -> (exists d, rooted i d) \/ (forall d, ~ rooted i d).
Proof.
  intros Hi. assert (H : forall fuel i, 0 <= i < len a -> (exists d, rooted i d) \/ (forall d, rooted i d -> (fuel < d)%nat)).
  { clear i Hi. induction fuel as [|fuel IH]; intros i Hi; (destruct (has_parent (len a) (item a i)) eqn:Hp; [|left; exists 0%nat; by constructor]).
    - right. intros d Hd. inversion Hd; [congruence|lia].
    - destruct (names_total i Hi Hp) as (j & Hj & Hin). destruct (IH j Hin) as [[d Hd]|Hno]; [left; exists (S d); by econstructor|].
      right. intros d Hd. inversion Hd as [|? j' d0 ? [_ Hj'] Hr]; subst; [congruence|]. destruct Hj as [_ Hj].
      simplify_eq. apply Hno in Hr. lia. }
  destruct (H (length a) i Hi) as [|Hno]; [by left|]. right. intros d Hd. pose proof (Hno d Hd). pose proof (rooted_short _ _ Hd). lia.
Qed.

(** The parent and the depth the screen computes for one link. *)
Definition tree_entry (i p d : Z) : Prop :=
  (p = -1 /\ d = 0 /\ forall k, ~ rooted i (S k)) \/ (names i p /\ 0 <= p < len a /\ exists k, rooted i (S k) /\ d = Z.of_nat (S k)).

Lemma parentOf_spec i :
  0 <= i < len a -> exists p, parentOf a i = Ok p /\
    exists d, (if p <? 0 then Ok 0 else link_depth a i) = Ok d /\ tree_entry i p d.
Proof.
  intros Hi. unfold parentOf, link_depth. rewrite (proj1 (item_ok i Hi)).
  destruct (has_parent (len a) (item a i)) eqn:Hp.
  2: { exists (-1). split; [done|]. exists 0. split; [done|]. left. split_and!; [done..|]. intros k H. inversion H as [|? ? ? ? [H' _]]. congruence. }
  destruct (rooted_dec i Hi) as [[d Hd]|Hno].
  - destruct (climb_rooted i d (length a) 0 Hd) as (r & -> & Hr0); [pose proof (rooted_short _ _ Hd); lia|].
    assert (Hri : r <> i) by (intros ->; inversion Hr0; congruence). cbn [bind]. rewrite (proj2 (Z.eqb_neq _ _) Hri).
    destruct (names_total i Hi Hp) as (j & Hj & Hin). rewrite (proj2 Hj). exists j. split; [done|]. cbn [default].
    rewrite (proj2 (Z.ltb_ge j 0)) by lia. eexists. split; [done|]. right. split_and!; [done|lia..|].
    destruct d as [|k]; [inversion Hd; congruence|]. exists k. split; [done|lia].
  - rewrite climb_unrooted by done. exists (-1). split; [done|]. exists 0. split; [done|]. left. split_and!; [done..|]. intros k H. by apply (Hno (S k)).
Qed.

Lemma map_res_total {X Y} (f : X -> res Y) (Q : X -> Y -> Prop) (l : list X) :
  (forall x, x ∈ l -> exists y, f x = Ok y /\ Q x y) -> exists ys, map_res f l = Ok ys /\ Forall2 Q l ys.
Proof.
  induction l as [|x l IH]; intros H; [by exists []|]. destruct (H x) as (y & Ey & Hy); [left|].
  destruct IH as (ys & Eys & Hys); [intros z Hz; apply H; by right|]. exists (y :: ys). cbn [map_res]. by rewrite Ey, Eys; cbn [bind]; split; [|constructor].
Qed.

Lemma Forall2_seqZ {Y} (Q : Z -> Y -> Prop) (ys : list Y) n i :
  Forall2 Q (seqZ 0 n) ys -> 0 <= i < n -> exists y, ys !! Z.to_nat i = Some y /\ Q i y.
Proof.
  intros H Hi. apply (Forall2_lookup_l _ _ _ (Z.to_nat i) i) in H; [done|]. apply lookup_seqZ. lia.
Qed.

Lemma link_tree_spec :
  exists par dep, link_tree a = Ok (par, dep) /\ length par = length a /\
    forall i, 0 <= i < len a -> exists p d, par !! Z.to_nat i = Some p /\ dep !! Z.to_nat i = Some d /\ tree_entry i p d.
Proof.
  unfold link_tree. cbv zeta.
  destruct (map_res_total (parentOf a) (fun i p => exists d, (if p <? 0 then Ok 0 else link_depth a i) = Ok d /\ tree_entry i p d)
    (seqZ 0 (len a))) as (par & Epar & Hpar).
  { intros i Hi%elem_of_seqZ. apply parentOf_spec. lia. }
  rewrite Epar. cbn [bind].
  set (f := fun i => if par !!! Z.to_nat i <? 0 then Ok 0 else link_depth a i).
  destruct (map_res_total f (fun i d => exists p, par !! Z.to_nat i = Some p /\ tree_entry i p d) (seqZ 0 (len a))) as (dep & Edep & Hdep).
  { intros i Hi%elem_of_seqZ. destruct (Forall2_seqZ _ _ _ i Hpar) as (p & Ep & d & Ed & He); [lia|].
    exists d. unfold f. rewrite (list_lookup_total_correct _ _ _ Ep). split; [done|by exists p]. }
  rewrite Edep. cbn [bind]. exists par, dep. split; [done|]. split.
  { apply Forall2_length in Hpar. rewrite length_seqZ in Hpar. unfold len in Hpar. lia. }
  intros i Hi. destruct (Forall2_seqZ _ _ _ i Hdep Hi) as (d & Ed & p & Ep & He). by exists p, d.
Qed.

(** What the screen makes of the names is a forest over all links. *)
Lemma link_order_perm (par dep : list Z) :
  length par = length a ->
  (forall i, 0 <= i < len a -> exists p d, par !! Z.to_nat i = Some p /\ dep !! Z.to_nat i = Some d /\ tree_entry i p d) ->
  link_order a par ≡ₚ seqZ 0 (len a).
Proof.
  intros Hlen Htree. set (rank i := Z.to_nat (dep !!! Z.to_nat i)). unfold link_order, len.
  apply (dfs_all (length a) par rank); [done| |cbn [length]; lia|by apply dfs_start].
  intros i Hi. unfold in_links, parent in *. destruct (Htree i Hi) as (p & d & Ep & Ed & [(-> & _)|(Hn & Hp & k & Hr & ->)]);
    rewrite (list_lookup_total_correct _ _ _ Ep); [left; lia|]. right. split; [exact Hp|]. unfold rank.
  rewrite (list_lookup_total_correct _ _ _ Ed). destruct (Htree p Hp) as (p' & d' & _ & Ed' & Hp').
  rewrite (list_lookup_total_correct _ _ _ Ed'). destruct Hp' as [(_ & -> & _)|(_ & _ & k' & Hr' & ->)]; [lia|].
  inversion Hr as [|? j ? ? [_ Hj] Hrj]; subst. destruct Hn as [_ Hn]. simplify_eq.
  pose proof (rooted_det _ _ _ Hrj Hr'). lia.
Qed.
End Links.

(** C8: Whatever parents the links name, loops included, the flow map draws, and
    it draws every link exactly once.  A link whose names lead to a link without
    a parent keeps the parent it names, at the depth the names give it; any other
    link is drawn as a root.  The walks up the names and the depth-first loop both
    end within their bound, the number of links. *)
Theorem flow_map_draws_every_link (log10f : num -> num) (e : env) (dt : num) (s : scr) :
  Forall link_ok (raw_list e "links") -> len (raw_list e "links") < 2 ^ 31 ->
  let a := raw_list e "links" in
  (exists s', sB3 log10f e dt s = Ok s') /\
  exists par dep, link_tree a = Ok (par, dep) /\ link_order a par ≡ₚ seqZ 0 (len a) /\
    forall i, 0 <= i < len a ->
      (forall d, rooted a i (S d) -> exists j, names a i j /\ par !! Z.to_nat i = Some j /\ dep !! Z.to_nat i = Some (Z.of_nat (S d))) /\
      ((forall d, ~ rooted a i (S d)) -> par !! Z.to_nat i = Some (-1) /\ dep !! Z.to_nat i = Some 0).
Proof.
  intros Hok Hmany a. destruct (link_tree_spec a Hok Hmany) as (par & dep & E & Hlen & Htree). split.
  - unfold sB3. fold a. destruct a as [|q l] eqn:Ea; [by eexists|]. rewrite <- Ea in *. rewrite E. by eexists.
  - exists par, dep. split; [done|]. split; [by apply (link_order_perm a par dep)|].
    intros i Hi. destruct (Htree i Hi) as (p & d & -> & -> & [(-> & -> & Hno)|(Hn & _ & k & Hk & ->)]); split.
    + intros d Hd. by apply Hno in Hd.
    + done.
    + intros d Hd. exists p. pose proof (rooted_det a _ _ _ Hd Hk) as [= ->]. done.
    + intros Hno. by apply Hno in Hk.
Qed.

(** The flow map advances the phase of link [i] under the key at which the swim
    lanes keep the phase of link [i + 8]: a panel with more than eight links runs
    those dots at the sum of both speeds. *)
Theorem lane_phases_are_shared (log10f : num -> num) (q : value) (i len_ : Z) (pt : Z -> Z * Z) (h : color) (dt : num) (s : scr) :
  let key := (i + 8) * 2 in
  let rate := fld q "downKbps" in
  nullish rate = false -> nequ (numOf rate) n0 = false -> state_is ST_DOWN (fld q "state") = false -> 0 < len_ ->
  v2LanePhase (flow log10f q i 0 len_ pt h dt s) !! key = Some (nadd (phase key s) (nmul (speed_of log10f (vnum rate)) dt)).
Proof.
  intros key rate H1 H2 H3 H4. unfold flow. cbn [Z.eqb]. fold rate. cbv zeta.
  rewrite H1, H2, H3, (proj2 (Z.leb_gt _ _) H4). cbn [orb draw v2LanePhase set_phase].
  replace (16 + (i * 2 + 0)) with key by (unfold key; lia). apply lookup_insert_eq.
Qed.

Definition loop_env : env :=
  buildEnv (VObj [("links", VArr [VObj [("name", VStr "WAN"); ("parent", VNull)];
                                  VObj [("name", VStr "LAN"); ("parent", vz 0)];
                                  VObj [("name", VStr "LOOP"); ("parent", vz 2)]])]) [] CADENCE_MS_DEFAULT.

Lemma flow_map_draws_every_link_witness :
  exists par dep, link_tree (raw_list loop_env "links") = Ok (par, dep) /\
    link_order (raw_list loop_env "links") par ≡ₚ [0; 1; 2] /\ par !! 1%nat = Some 0.
Proof.
  destruct (flow_map_draws_every_link (fun x => x) loop_env n0 (Scr fbNew [] ∅ n0)) as [_ (par & dep & E & Hp & H)].
  - assert (Hb : forall q j, nullish q = false -> 0 <= j < 2 ^ 31 -> numOf (fld q "parent") = ofZ j -> link_ok q)
      by (intros q j Hq Hj E; split; [exact Hq|right; exists j; by split]).
    apply Forall_cons; split; [split; [reflexivity|by left]|].
    apply Forall_cons; split; [by apply (Hb _ 0)|]. apply Forall_cons; split; [by apply (Hb _ 2)|apply Forall_nil; exact I].
  - reflexivity.
  - exists par, dep. split; [exact E|]. split; [exact Hp|].
    destruct (H 1 ltac:(split; [lia|reflexivity])) as [H1 _]. destruct (H1 0%nat) as (j & [_ Hj] & Ej & _).
    + apply (Below _ 1 0 0); [split; [lia|reflexivity]|split; reflexivity|]. apply Root; [split; [lia|reflexivity]|reflexivity].
    + change (Z.to_nat 1) with 1%nat in Ej. rewrite Ej. revert Hj. vm_compute. by intros [= <-].
Defined.
