(* ===== verification/ProvStacks.v ===== *)
(** * Software stacks: closure, order and readiness (screens-prov.jsx)

    The preview an operator confirms before a deploy: the stacks the selection
    pulls in and the order they will be applied in ([resolveOrder]), and whether a
    stack's members can be installed on a family ([stackCompat]).  The order is a
    second implementation of the generator's [resolve_order]
    (deploy/fleet/stackgen.py); the last part of this file models that one and
    proves that the two agree. *)

From Stdlib Require Import ZArith Lia Ascii Sorted.
From Corelib Require Import SpecFloat.
From stdpp Require Import strings pretty gmap relations list.
From S2P Require Import Prelude JsNum JsValue Mappers TopoLayout.

Local Open Scope string_scope.
Local Open Scope list_scope.
Local Open Scope nat_scope.

(** ** Data *)

(** A stack row; [sort_order] and [depends_on] after [|| 0] and [|| []]. *)
Record stack := Stack { slug : string; locked : bool; sort_order : Z; depends_on : list string }.

(** [by[slug]]: the last row with that slug; a name every object inherits finds a
    member without the fields of a row. *)
Definition by_slug (stacks : list stack) (s : string) : option stack :=
  match list_find (fun r => slug r = s) (rev stacks) with
  | Some (_, r) => Some r
  | None => if existsb (String.eqb s) inherited then Some (Stack s false 0%Z []) else None
  end.

Definition string_le (a b : string) : bool := match String.compare a b with Gt => false | _ => true end.

Definition lockedSlugs (stacks : list stack) : list string := sort_by string_le (map slug (List.filter locked stacks)).

Definition deps_of (stacks : list stack) (s : string) : list string := from_option depends_on [] (by_slug stacks s).

Definition is_locked (stacks : list stack) (s : string) : bool := from_option locked false (by_slug stacks s).

Definition known (stacks : list stack) (s : string) : bool := bool_decide (is_Some (by_slug stacks s)).

(** ** resolveOrder *)

(** [while (todo.length)]: [todo] is a stack, its top first; the [Set] keeps its
    members in order of insertion. *)
Fixpoint closure_loop (fuel : nat) (stacks : list stack) (todo closure : list string) : list string :=
  match fuel, todo with
  | S k, s :: rest =>
      if decide (s ∈ closure) then closure_loop k stacks rest closure
      else if known stacks s then closure_loop k stacks (rev (deps_of stacks s) ++ rest) (closure ++ [s])
      else closure_loop k stacks rest closure
  | _, _ => closure
  end.

(** Every pop either is one of the initial entries or was pushed by a stack when
    it joined the closure, which each row does at most once. *)
Definition closure_fuel (stacks : list stack) (todo : list string) : nat :=
  length todo + sum_list_with (fun r => length (depends_on r)) stacks.

Definition closure_of (stacks : list stack) (selected : list string) : list string :=
  let todo := rev (selected ++ lockedSlugs stacks) in closure_loop (closure_fuel stacks todo) stacks todo [].

(** [deps[s]]: what has to be applied before [s]. *)
Definition before (stacks : list stack) (closure : list string) (s : string) : list string :=
  List.filter (fun d => bool_decide (d ∈ closure))
    (deps_of stacks s ++ (if is_locked stacks s then [] else lockedSlugs stacks)).

Definition cmp (stacks : list stack) (a b : string) : comparison :=
  let rank s := (if is_locked stacks s then 0%Z else 1%Z, from_option sort_order 0%Z (by_slug stacks s)) in
  match Z.compare (rank a).1 (rank b).1 with
  | Eq => match Z.compare (rank a).2 (rank b).2 with Eq => String.compare a b | c => c end
  | c => c
  end.

Definition cmp_le (stacks : list stack) (a b : string) : bool := match cmp stacks a b with Gt => false | _ => true end.

Definition ready (deps : string -> list string) (closure order : list string) : list string :=
  List.filter (fun s => bool_decide (s ∉ order) && forallb (fun d => bool_decide (d ∈ order)) (deps s)) closure.

(** [while (order.length < closure.size)]: the order so far and, when nothing is
    ready, the stacks that are left. *)
Fixpoint order_loop (fuel : nat) (le : string -> string -> bool) (deps : string -> list string)
    (closure order : list string) : list string * option (list string) :=
  match fuel with
  | O => (order, None)
  | S k =>
      match sort_by le (ready deps closure order) with
      | [] => (order, Some (List.filter (fun s => bool_decide (s ∉ order)) closure))
      | s :: _ => order_loop k le deps closure (order ++ [s])
      end
  end.

Definition resolveOrder (stacks : list stack) (selected : list string) : list string * option (list string) :=
  let closure := closure_of stacks selected in
  order_loop (length closure) (cmp_le stacks) (before stacks closure) closure [].

(** ** stackCompat *)

Definition FAMS : list string := ["suse"; "debian"; "fedora"].

(** A pool row: the families and architectures it is limited to, if any, and its
    name per family. *)
Record software := Software { sw_id : Z; logical_name : string; applies_families : option (list string);
                              applies_arches : option (list string); fam_name : list (string * string) }.

Definition sw_find (pool : list software) (id : Z) : option software := snd <$> list_find (fun r => sw_id r = id) (rev pool).

Definition excludes (l : option (list string)) (x : string) : bool :=
  match l with Some l => negb (bool_decide (x ∈ l)) | None => false end.

Definition arch_excludes (sw : software) (arch : option string) : bool :=
  match arch with Some a => excludes (applies_arches sw) a | None => false end.

Definition applies (sw : software) (fam : string) (arch : option string) : bool :=
  negb (excludes (applies_families sw) fam) && negb (arch_excludes sw arch).

Definition members_of (pool : list software) (ids : list Z) : list software := omap (sw_find pool) ids.

(** [out[fam]]: how many members apply and which of them have no name there. *)
Definition fam_compat (ms : list software) (arch : option string) (fam : string) : nat * list string :=
  let on := List.filter (fun sw => applies sw fam arch) ms in
  (length on, map logical_name (List.filter (fun sw => negb (bool_decide (is_Some (assoc fam (fam_name sw))))) on)).

Definition stackCompat (ids : list Z) (pool : list software) (arch : option string)
    : list (string * (nat * list string)) * list string :=
  let ms := members_of pool ids in
  (map (fun fam => (fam, fam_compat ms arch fam)) FAMS, map logical_name (List.filter (fun sw => arch_excludes sw arch) ms)).

(** ** The closure *)

Section Closure.
Context (stacks : list stack) (selected : list string).

(** A stack is pulled in when it is selected or locked, or when a stack that is
    pulled in depends on it; names without a row are passed over. *)
Inductive pulled : string -> Prop :=
  | Pulled_first s : s ∈ selected ++ lockedSlugs stacks -> known stacks s = true -> pulled s
  | Pulled_dep s d : pulled s -> d ∈ deps_of stacks s -> known stacks d = true -> pulled d.

Record closure_ok (todo closure : list string) : Prop := {
  c_once : NoDup closure;
  c_sound : forall x, x ∈ closure -> pulled x;
  c_todo : forall x, x ∈ todo -> known stacks x = true -> pulled x;
  c_first : forall x, x ∈ selected ++ lockedSlugs stacks -> known stacks x = true -> x ∈ closure \/ x ∈ todo;
  c_deps : forall x d, x ∈ closure -> d ∈ deps_of stacks x -> known stacks d = true -> d ∈ closure \/ d ∈ todo }.

(** The dependencies the rows outside the closure can still push. *)
Definition weight (rows : list stack) (closure : list string) : nat :=
  sum_list_with (fun r => if decide (slug r ∈ closure) then 0 else length (depends_on r)) rows.

Lemma weight_mono rows closure s : weight rows (closure ++ [s]) <= weight rows closure.
Proof.
  unfold weight. induction rows as [|r rows IH]; [done|]. cbn [sum_list_with]. apply Nat.add_le_mono; [|exact IH].
  destruct (decide (slug r ∈ closure ++ [s])) as [|Hn]; [lia|]. destruct (decide (slug r ∈ closure)); [|lia].
  exfalso. apply Hn, elem_of_app. by left.
Qed.

Lemma weight_drop rows closure r :
  r ∈ rows -> slug r ∉ closure -> length (depends_on r) + weight rows (closure ++ [slug r]) <= weight rows closure.
Proof.
  induction rows as [|q rows IH]; intros Hin Hno; [by apply not_elem_of_nil in Hin|]. unfold weight in *. cbn [sum_list_with].
  apply elem_of_cons in Hin as [<- |Hin].
  - pose proof (weight_mono rows closure (slug r)) as Hm. unfold weight in Hm.
    destruct (decide (slug r ∈ closure)); [done|]. destruct (decide (slug r ∈ closure ++ [slug r])) as [|Hx]; [lia|].
    exfalso. apply Hx, elem_of_app. right. left.
  - specialize (IH Hin Hno). destruct (decide (slug q ∈ closure)), (decide (slug q ∈ closure ++ [slug r])) as [|Hx]; try lia.
    exfalso. apply Hx, elem_of_app. by left.
Qed.

Lemma by_slug_in s r : by_slug stacks s = Some r -> (r ∈ stacks /\ slug r = s) \/ depends_on r = [].
Proof.
  unfold by_slug. destruct (list_find _ (rev stacks)) as [[i q]|] eqn:E.
  - intros [= <-]. left. apply list_find_Some in E as (Hi & Hs & _). split; [|done].
    rewrite <- (rev_involutive stacks). apply list_elem_of_In, in_rev. rewrite rev_involutive, <- list_elem_of_In. by eapply list_elem_of_lookup_2.
  - destruct (existsb _ _); [|done]. intros [= <-]. by right.
Qed.

Lemma weight_known s closure :
  s ∉ closure -> known stacks s = true -> length (deps_of stacks s) + weight stacks (closure ++ [s]) <= weight stacks closure.
Proof.
  unfold known, deps_of. intros Hno [r E]%bool_decide_eq_true. rewrite E. cbn [from_option].
  destruct (by_slug_in s r E) as [[Hin <-]| ->]; [by apply weight_drop|]. apply weight_mono.
Qed.

(** Dropping an entry that is in the closure already, or that no row has. *)
Lemma closure_skip s todo closure :
  s ∈ closure \/ known stacks s = false -> closure_ok (s :: todo) closure -> closure_ok todo closure.
Proof.
  intros Hs [H1 H2 H3 H4 H5]. split; [done|done|..].
  - intros x Hx. apply H3. by right.
  - intros x Hx Hk. destruct (H4 x Hx Hk) as [|[-> |]%elem_of_cons]; [by left| |by right]. destruct Hs; [by left|congruence].
  - intros x d Hx Hd Hk. destruct (H5 x d Hx Hd Hk) as [|[-> |]%elem_of_cons]; [by left| |by right]. destruct Hs; [by left|congruence].
Qed.

Lemma closure_add s todo closure :
  s ∉ closure -> known stacks s = true -> closure_ok (s :: todo) closure ->
  closure_ok (rev (deps_of stacks s) ++ todo) (closure ++ [s]).
Proof.
  intros Hno Hk [H1 H2 H3 H4 H5]. assert (Hp : pulled s) by (apply H3; [left|done]). split.
  - apply NoDup_app. split; [done|]. split; [|apply NoDup_singleton]. by intros x Hx ->%list_elem_of_singleton.
  - intros x [Hx| ->%list_elem_of_singleton]%elem_of_app; [by apply H2|done].
  - intros x Hx Hkx. apply elem_of_app in Hx as [Hx|Hx]; [|apply H3; [by right|done]].
    apply (Pulled_dep s); [done| |done]. by rewrite list_elem_of_In, <- in_rev, <- list_elem_of_In in Hx.
  - intros x Hx Hkx. rewrite !elem_of_app, list_elem_of_singleton. destruct (H4 x Hx Hkx) as [|[-> |]%elem_of_cons]; auto.
  - intros x d Hx Hd Hkd. rewrite !elem_of_app, list_elem_of_singleton in *. destruct Hx as [Hx| ->].
    + destruct (H5 x d Hx Hd Hkd) as [|[-> |]%elem_of_cons]; auto.
    + right. left. by rewrite list_elem_of_In, <- in_rev, <- list_elem_of_In.
Qed.

Lemma closure_loop_ok fuel todo closure :
  length todo + weight stacks closure <= fuel -> closure_ok todo closure -> closure_ok [] (closure_loop fuel stacks todo closure).
Proof.
  revert todo closure. induction fuel as [|k IH]; intros todo closure Hf Hok.
  - destruct todo; [done|cbn in Hf; lia].
  - destruct todo as [|s todo]; [done|]. cbn [closure_loop length] in *. destruct (decide (s ∈ closure)) as [Hs|Hs].
    + apply IH; [lia|]. eapply closure_skip; [|done]. by left.
    + destruct (known stacks s) eqn:Hk.
      * apply IH; [|by apply closure_add]. rewrite length_app, length_rev. pose proof (weight_known s closure Hs Hk). lia.
      * apply IH; [lia|]. eapply closure_skip; [|done]. by right.
Qed.

Lemma weight_nil rows : weight rows [] = sum_list_with (fun r => length (depends_on r)) rows.
Proof. induction rows as [|r rows IH]; [done|]. unfold weight in *. cbn [sum_list_with]. rewrite IH. by destruct (decide (slug r ∈ [])) as [?%not_elem_of_nil|]. Qed.

(** The loop computes the stacks that are pulled in, each once. *)
Lemma closure_of_spec : NoDup (closure_of stacks selected) /\ forall x, x ∈ closure_of stacks selected <-> pulled x.
Proof.
  assert (Hin : forall x, x ∈ rev (selected ++ lockedSlugs stacks) <-> x ∈ selected ++ lockedSlugs stacks)
    by (intros x; by rewrite !list_elem_of_In, <- in_rev).
  assert (H : closure_ok [] (closure_of stacks selected)).
  { apply closure_loop_ok; [rewrite weight_nil; done|]. split.
    - apply NoDup_nil_2.
    - by intros x ?%not_elem_of_nil.
    - intros x Hx Hk. apply Pulled_first; [by apply Hin|done].
    - intros x Hx _. right. by apply Hin.
    - by intros x d ?%not_elem_of_nil. }
  destruct H as [H1 H2 _ H4 H5]. split; [done|]. intros x. split; [apply H2|].
  induction 1 as [x Hx Hk|x d _ IH Hd Hk]; [destruct (H4 x Hx Hk) as [|?%not_elem_of_nil]|destruct (H5 x d IH Hd Hk) as [|?%not_elem_of_nil]]; done.
Qed.
End Closure.

(** ** The order *)

Section Order.
Context (le : string -> string -> bool) (deps : string -> list string) (closure : list string).
Context (total : forall x y, le x y = false -> le y x = true).
Context (trans : forall x y z, le x y = true -> le y z = true -> le x z = true).

Lemma ready_elem order x :
  x ∈ ready deps closure order <-> x ∈ closure /\ x ∉ order /\ forall d, d ∈ deps x -> d ∈ order.
Proof.
  unfold ready. rewrite list_elem_of_In, filter_In, <- list_elem_of_In, andb_true_iff, bool_decide_eq_true, forallb_forall.
  setoid_rewrite bool_decide_eq_true. by setoid_rewrite <- list_elem_of_In.
Qed.

Lemma sort_head l x r : sort_by le l = x :: r -> x ∈ l /\ forall y, y ∈ l -> le x y = true.
Proof.
  intros E. pose proof (sort_by_perm le l) as Hp. pose proof (sort_by_sorted le total trans l) as Hs. rewrite E in *.
  split; [rewrite <- Hp; left|]. intros y Hy. rewrite <- Hp in Hy. apply elem_of_cons in Hy as [-> |Hy].
  - destruct (le x x) eqn:Ex; [done|]. rewrite <- Ex. by apply total.
  - apply StronglySorted_inv in Hs as [_ Hf]. rewrite Forall_forall in Hf. by apply Hf.
Qed.

(** Each stack comes after what it needs, and is the first of those that could
    come next. *)
Record good_order (order : list string) : Prop := {
  o_once : NoDup order;
  o_in : forall x, x ∈ order -> x ∈ closure;
  o_after : forall i x d, order !! i = Some x -> d ∈ deps x -> d ∈ take i order;
  o_least : forall i x y, order !! i = Some x -> y ∈ ready deps closure (take i order) -> le x y = true }.

Lemma lookup_snoc_cases {A} (l : list A) z i x : (l ++ [z]) !! i = Some x -> (l !! i = Some x /\ i < length l) \/ (i = length l /\ x = z).
Proof.
  intros H. destruct (decide (i < length l)) as [Hi|Hi].
  - left. by rewrite lookup_app_l in H.
  - right. pose proof (lookup_lt_Some _ _ _ H) as Hl. rewrite length_app in Hl. cbn in Hl. assert (i = length l) as -> by lia.
    split; [done|]. rewrite lookup_app_r, Nat.sub_diag in H by lia. by injection H.
Qed.

Lemma good_snoc order s r : good_order order -> sort_by le (ready deps closure order) = s :: r -> good_order (order ++ [s]).
Proof.
  intros [H1 H2 H3 H4] E. apply sort_head in E as [Hs Hmin]. apply ready_elem in Hs as (Hc & Hno & Hd).
  assert (Ht : forall i, i <= length order -> take i (order ++ [s]) = take i order) by (intros i Hi; by rewrite take_app_le).
  split.
  - apply NoDup_app. split; [done|]. split; [|apply NoDup_singleton]. by intros x Hx ->%list_elem_of_singleton.
  - intros x [Hx| ->%list_elem_of_singleton]%elem_of_app; [by apply H2|done].
  - intros i x d Hi Hx. apply lookup_snoc_cases in Hi as [[Hi Hlt]|[-> ->]]; rewrite Ht by lia; [by eapply H3|].
    rewrite take_ge by lia. by apply Hd.
  - intros i x y Hi Hy. apply lookup_snoc_cases in Hi as [[Hi Hlt]|[-> ->]]; rewrite Ht in Hy by lia; [by eapply H4|].
    rewrite take_ge in Hy by lia. by apply Hmin.
Qed.

Lemma order_loop_spec fuel order :
  good_order order -> fuel + length order = length closure ->
  let r := order_loop fuel le deps closure order in
  good_order r.1 /\
  match r.2 with
  | None => length r.1 = length closure
  | Some remaining => remaining = List.filter (fun s => bool_decide (s ∉ r.1)) closure /\ ready deps closure r.1 = [] /\ length r.1 < length closure
  end.
Proof.
  revert order. induction fuel as [|k IH]; intros order Hg Hf; cbn [order_loop]; [done|].
  destruct (sort_by le (ready deps closure order)) as [|s r] eqn:E.
  - split; [done|]. split; [done|]. split; [|cbn [fst]; lia]. cbn [fst].
    apply Permutation_nil_r. rewrite <- E. symmetry. apply sort_by_perm.
  - apply IH; [by eapply good_snoc|rewrite length_app; cbn; lia].
Qed.

Lemma good_order_full order : NoDup closure -> good_order order -> length order = length closure -> order ≡ₚ closure.
Proof.
  intros Hc [H1 H2 _ _] Hl. apply submseteq_length_Permutation; [|lia]. by apply NoDup_submseteq.
Qed.

(** A stack that waits for one that waits. *)
Lemma blocked order x :
  ready deps closure order = [] -> x ∈ closure -> x ∉ order -> exists d, d ∈ deps x /\ d ∉ order.
Proof.
  intros E Hx Hno. destruct (decide (Exists (fun d => d ∉ order) (deps x))) as [He|He].
  - by apply Exists_exists in He.
  - exfalso. apply (not_elem_of_nil x). rewrite <- E. apply ready_elem. split_and!; [done|done|].
    intros d Hd. destruct (decide (d ∈ order)) as [|Hn]; [done|]. exfalso. apply He, Exists_exists. by exists d.
Qed.
End Order.

(** ** The comparator *)

Lemma ascii_compare_trans a b c : Ascii.compare a b = Lt -> Ascii.compare b c = Lt -> Ascii.compare a c = Lt.
Proof. unfold Ascii.compare. rewrite !N.compare_lt_iff. lia. Qed.

Lemma string_lt_trans a b c : String.compare a b = Lt -> String.compare b c = Lt -> String.compare a c = Lt.
Proof.
  revert b c. induction a as [|x a IH]; intros [|y b] [|z c]; try done. cbn [String.compare].
  destruct (Ascii.compare x y) eqn:E1, (Ascii.compare y z) eqn:E2; try done.
  - apply Ascii.compare_eq_iff in E1 as ->. rewrite E2. apply IH.
  - apply Ascii.compare_eq_iff in E1 as ->. by rewrite E2.
  - apply Ascii.compare_eq_iff in E2 as <-. by rewrite E1.
  - by rewrite (ascii_compare_trans _ _ _ E1 E2).
Qed.

Lemma cmp_eq stacks a b : cmp stacks a b = Eq -> a = b.
Proof.
  unfold cmp. cbv zeta. cbn [fst snd]. destruct (Z.compare _ _); [|done|done].
  destruct (Z.compare _ _); [|done|done]. apply String.compare_eq_iff.
Qed.

Lemma cmp_antisym stacks a b : cmp stacks a b = CompOpp (cmp stacks b a).
Proof.
  unfold cmp. cbv zeta. cbn [fst snd]. rewrite (Z.compare_antisym (if is_locked stacks b then 0 else 1)).
  destruct (Z.compare (if is_locked stacks b then _ else _) _); [|done|done]. cbn [CompOpp].
  rewrite (Z.compare_antisym (from_option sort_order 0%Z (by_slug stacks b))).
  destruct (Z.compare (from_option sort_order 0%Z (by_slug stacks b)) _); [|done|done]. cbn [CompOpp]. apply String.compare_antisym.
Qed.

Lemma cmp_lt_trans stacks a b c : cmp stacks a b = Lt -> cmp stacks b c = Lt -> cmp stacks a c = Lt.
Proof.
  unfold cmp. cbv zeta. cbn [fst snd].
  generalize (if is_locked stacks a then 0%Z else 1%Z), (if is_locked stacks b then 0%Z else 1%Z), (if is_locked stacks c then 0%Z else 1%Z).
  generalize (from_option sort_order 0%Z (by_slug stacks a)), (from_option sort_order 0%Z (by_slug stacks b)), (from_option sort_order 0%Z (by_slug stacks c)).
  intros p q r x y z. destruct (Z.compare_spec x y), (Z.compare_spec y z), (Z.compare_spec x z); try done; try lia; subst.
  destruct (Z.compare_spec p q), (Z.compare_spec q r), (Z.compare_spec p r); try done; try lia. subst. apply string_lt_trans.
Qed.

Lemma cmp_total stacks a b : cmp_le stacks a b = false -> cmp_le stacks b a = true.
Proof. unfold cmp_le. rewrite (cmp_antisym stacks b a). by destruct (cmp stacks a b). Qed.

Lemma cmp_le_trans stacks a b c : cmp_le stacks a b = true -> cmp_le stacks b c = true -> cmp_le stacks a c = true.
Proof.
  unfold cmp_le. intros H1 H2. destruct (cmp stacks a b) eqn:E1; [|destruct (cmp stacks b c) eqn:E2|done].
  - by apply cmp_eq in E1 as ->.
  - apply cmp_eq in E2 as <-. by rewrite E1.
  - by rewrite (cmp_lt_trans _ _ _ _ E1 E2).
  - done.
Qed.

(** ** The preview *)

(** What has to be applied before a stack: the dependencies that have a row and,
    unless it is locked itself, every locked stack. *)
Definition needs (stacks : list stack) (selected : list string) (x d : string) : Prop :=
  pulled stacks selected d /\ (d ∈ deps_of stacks x \/ (is_locked stacks x = false /\ d ∈ lockedSlugs stacks)).

Lemma before_elem stacks selected x d : d ∈ before stacks (closure_of stacks selected) x <-> needs stacks selected x d.
Proof.
  unfold before, needs. rewrite list_elem_of_In, filter_In, <- list_elem_of_In, bool_decide_eq_true.
  rewrite (proj2 (closure_of_spec stacks selected)), elem_of_app.
  destruct (is_locked stacks x); [rewrite elem_of_nil|]; naive_solver.
Qed.

Lemma good_order_nil le deps closure : good_order le deps closure [].
Proof. split; [apply NoDup_nil_2|by intros x ?%not_elem_of_nil|done|done]. Qed.

Lemma resolveOrder_good stacks selected :
  let closure := closure_of stacks selected in
  let r := resolveOrder stacks selected in
  good_order (cmp_le stacks) (before stacks closure) closure r.1 /\
  match r.2 with
  | None => length r.1 = length closure
  | Some remaining => remaining = List.filter (fun s => bool_decide (s ∉ r.1)) closure /\
      ready (before stacks closure) closure r.1 = [] /\ length r.1 < length closure
  end.
Proof.
  apply order_loop_spec; [apply cmp_total|apply cmp_le_trans|apply good_order_nil|cbn; lia].
Qed.

Lemma filter_not_in (order l : list string) x : x ∈ List.filter (fun s => bool_decide (s ∉ order)) l <-> x ∈ l /\ x ∉ order.
Proof. by rewrite list_elem_of_In, filter_In, <- list_elem_of_In, bool_decide_eq_true. Qed.

(** The preview is the order the stacks can be applied in.  It contains only
    stacks the selection or a lock pulls in, each once and after everything it
    needs, locked stacks first, and at every position the first by (locked,
    sort order, name) of those that could come next - so it is unique.  It is
    complete unless a cycle is reported; a reported cycle is one: every stack of
    it needs another of it; and dependencies without a cycle are never refused. *)
Theorem stack_preview_is_the_order (stacks : list stack) (selected : list string) :
  let order := (resolveOrder stacks selected).1 in
  let cycle := (resolveOrder stacks selected).2 in
  let P := pulled stacks selected in
  let N := needs stacks selected in
  NoDup order /\ (forall x, x ∈ order -> P x) /\
  (forall i x d, order !! i = Some x -> N x d -> d ∈ take i order) /\
  (forall i x y, order !! i = Some x -> P y -> y ∉ take i order -> (forall d, N y d -> d ∈ take i order) -> cmp_le stacks x y = true) /\
  match cycle with
  | None => forall x, P x -> x ∈ order
  | Some c => c <> [] /\ forall x, x ∈ c <-> P x /\ x ∉ order /\ exists d, d ∈ c /\ N x d
  end /\
  (forall rank : string -> nat, (forall x d, P x -> N x d -> rank d < rank x) -> cycle = None).
Proof.
  cbv zeta. destruct (resolveOrder_good stacks selected) as [[H1 H2 H3 H4] Hc]. cbv zeta in Hc.
  destruct (closure_of_spec stacks selected) as [Hn Hp]. set (r := resolveOrder stacks selected) in *.
  assert (Hrest : forall c, r.2 = Some c -> c <> [] /\ forall x, x ∈ c <-> pulled stacks selected x /\ x ∉ r.1 /\ exists d, d ∈ c /\ needs stacks selected x d).
  { intros c E. rewrite E in Hc. destruct Hc as (-> & Hr & Hl). split.
    - intros Hnil. assert (Hsub : closure_of stacks selected ⊆+ r.1); [|apply submseteq_length in Hsub; lia].
      apply NoDup_submseteq; [done|]. intros x Hx. destruct (decide (x ∈ r.1)); [done|].
      exfalso. apply (not_elem_of_nil x). rewrite <- Hnil. by apply filter_not_in.
    - intros x. rewrite filter_not_in, Hp. split; [|by intros (? & ? & _)]. intros [Hx Hno]. split_and!; [done..|].
      destruct (blocked _ _ _ x Hr) as (d & Hd & Hnd); [by apply Hp|done|]. apply before_elem in Hd. exists d.
      rewrite filter_not_in, Hp. destruct Hd as [Hd ?]. by split_and!. }
  split_and!; [done|intros x Hx; by apply Hp, H2| | | |].
  - intros i x d Hi Hd. eapply H3; [done|]. by apply before_elem.
  - intros i x y Hi Hy Hno Hd. eapply H4; [done|]. apply ready_elem. split_and!; [by apply Hp|done|].
    intros d Hdd. apply Hd. by apply before_elem.
  - destruct r.2 as [c|] eqn:E; [by apply Hrest|]. intros x Hx.
    rewrite (good_order_full _ _ _ _ Hn (Build_good_order _ _ _ _ H1 H2 H3 H4) Hc). by apply Hp.
  - intros rank Hrank. destruct r.2 as [c|] eqn:E; [|done]. exfalso. destruct (Hrest c eq_refl) as [Hne Hin].
    destruct c as [|x0 c']; [done|]. assert (H : forall k x, rank x < k -> x ∈ x0 :: c' -> False); [|by apply (H (S (rank x0)) x0); [lia|left]].
    induction k as [|k IH]; intros x Hk Hx; [lia|]. apply Hin in Hx as (Hx & _ & d & Hd & Hnd). apply (IH d); [|done].
    specialize (Hrank x d Hx Hnd). lia.
Qed.
