(* ===== verification/StackGen.v ===== *)
(** * The generator's stack order (deploy/fleet/stackgen.py, resolve_order)

    The Python side of the order: a worklist closure that fails on an unknown
    name, and Kahn's algorithm over counts of what each stack still waits for,
    with a heap of the stacks that wait for nothing.  The theorem says that the
    dashboard's preview is the order the generator applies. *)

From Stdlib Require Import ZArith Lia Ascii Sorted.
From Corelib Require Import SpecFloat.
From stdpp Require Import strings pretty gmap sorting relations list.
From S2P Require Import Prelude JsNum JsValue Mappers TopoLayout ProvStacks.

Local Open Scope string_scope.
Local Open Scope list_scope.
Local Open Scope nat_scope.

(** ** Definitions *)

Inductive py_error := UnknownSlug (s : string) | KeyError (s : string) | Cycle (remaining : list string).

(** The [stacks] dict. *)
Definition row (stacks : list stack) (s : string) : option stack := snd <$> list_find (fun r => slug r = s) (rev stacks).

(** [while todo]: [todo] with its end first. *)
Fixpoint py_closure (fuel : nat) (stacks : list stack) (todo closure : list string) : py_error + list string :=
  match fuel, todo with
  | S k, s :: rest =>
      if decide (s ∈ closure) then py_closure k stacks rest closure
      else match row stacks s with
           | Some r => py_closure k stacks (rev (depends_on r) ++ rest) (closure ++ [s])
           | None => inl (KeyError s)
           end
  | _, _ => inr closure
  end.

(** [set(depends_on) | set(locked)]. *)
Definition py_deps (stacks : list stack) (s : string) : gset string :=
  list_to_set (from_option depends_on [] (row stacks s)) ∪
  (if from_option locked false (row stacks s) then ∅ else list_to_set (lockedSlugs stacks)).

Definition users (deps : string -> gset string) (closure : list string) (d : string) : list string :=
  List.filter (fun s => bool_decide (d ∈ deps s)) closure.

(** [indeg[u] -= 1; if indeg[u] == 0: heappush]. *)
Definition relax (st : gmap string nat * list string) (u : string) : gmap string nat * list string :=
  let n := st.1 !!! u - 1 in (<[u := n]> st.1, if n =? 0 then u :: st.2 else st.2).

(** [while heap]: [heappop] takes the least by (locked, sort order, name). *)
Fixpoint kahn (fuel : nat) (le : string -> string -> bool) (deps : string -> gset string) (closure : list string)
    (indeg : gmap string nat) (heap order : list string) : list string :=
  match fuel, sort_by le heap with
  | S k, s :: rest =>
      let st := fold_left relax (users deps closure s) (indeg, rest) in
      kahn k le deps closure st.1 st.2 (order ++ [s])
  | _, _ => order
  end.

Definition indeg0 (deps : string -> gset string) (closure : list string) : gmap string nat :=
  list_to_map (map (fun s => (s, size (deps s))) closure).

(** [enum] is the order in which Python iterates over the set [closure]. *)
Definition resolve_order (enum : list string -> list string) (stacks : list stack) (selected : list string) : py_error + list string :=
  match list_find (fun s => row stacks s = None) selected with
  | Some (_, s) => inl (UnknownSlug s)
  | None =>
      let todo := rev (selected ++ lockedSlugs stacks) in
      match py_closure (closure_fuel stacks todo) stacks todo [] with
      | inl e => inl e
      | inr c =>
          let closure := enum c in
          let deps := py_deps stacks in
          let indeg := indeg0 deps closure in
          let order := kahn (length closure) (cmp_le stacks) deps closure indeg
                         (List.filter (fun s => indeg !!! s =? 0) closure) [] in
          if length order =? length closure then inr order
          else inl (Cycle (List.filter (fun s => bool_decide (s ∉ order)) closure))
      end
  end.

(** ** Kahn's algorithm takes the stacks that are ready *)

Lemma waits_none (X Y : gset string) : size (X ∖ Y) = 0 <-> X ⊆ Y.
Proof. rewrite size_empty_iff. set_unfold. split; intros H d; [destruct (decide (d ∈ Y))|]; naive_solver. Qed.

Section Kahn.
Context (le : string -> string -> bool).
Context (total : forall x y, le x y = false -> le y x = true).
Context (trans : forall x y z, le x y = true -> le y z = true -> le x z = true).
Context (antisym : forall x y, le x y = true -> le y x = true -> x = y).
Context (deps : string -> gset string) (closure : list string) (Hc : NoDup closure).

Lemma sort_by_perm_eq l l' : l ≡ₚ l' -> sort_by le l = sort_by le l'.
Proof.
  intros Hp. assert (AntiSymm (=) (fun a b => le a b = true)) by (intros x y; apply antisym).
  apply (StronglySorted_unique (fun a b => le a b = true)).
  - by apply sort_by_sorted.
  - by apply sort_by_sorted.
  - by rewrite !sort_by_perm.
Qed.

Lemma relax_fold us indeg heap :
  NoDup us ->
  let st := fold_left relax us (indeg, heap) in
  (forall u, st.1 !!! u = if decide (u ∈ us) then indeg !!! u - 1 else indeg !!! u) /\
  st.2 ≡ₚ List.filter (fun u => indeg !!! u - 1 =? 0) us ++ heap.
Proof.
  revert indeg heap. induction us as [|v us IH]; intros indeg heap Hnd; [done|].
  apply NoDup_cons in Hnd as [Hv Hnd]. cbn [fold_left]. unfold relax at 2 4. cbn [fst snd]. cbv zeta.
  set (indeg' := <[v := indeg !!! v - 1]> indeg). set (heap' := if indeg !!! v - 1 =? 0 then v :: heap else heap).
  destruct (IH indeg' heap' Hnd) as [H1 H2]. split.
  - intros u. rewrite H1. unfold indeg'. destruct (decide (u = v)) as [-> |Hne].
    + rewrite decide_False by done. rewrite lookup_total_insert_eq. by rewrite decide_True by left.
    + rewrite lookup_total_insert_ne by done. destruct (decide (u ∈ us)), (decide (u ∈ v :: us)) as [Hx|Hx]; set_solver.
  - rewrite H2. cbn [List.filter].
    assert (E : List.filter (fun u => indeg' !!! u - 1 =? 0) us = List.filter (fun u => indeg !!! u - 1 =? 0) us).
    { apply List.filter_ext_in. intros u Hu. unfold indeg'. rewrite lookup_total_insert_ne; [done|]. intros ->. by apply Hv, list_elem_of_In. }
    rewrite E. unfold heap'. destruct (indeg !!! v - 1 =? 0); [|done]. solve_Permutation.
Qed.

(** The preview's view of the same dependencies. *)
Context (before : string -> list string) (preview : list string).
Context (Hperm : preview ≡ₚ closure) (Hdeps : forall x d, x ∈ closure -> d ∈ before x <-> d ∈ deps x).

Lemma ready_spec order x : x ∈ ready before preview order <-> x ∈ closure /\ x ∉ order /\ deps x ⊆ list_to_set order.
Proof.
  rewrite ready_elem, Hperm. split; intros (Hx & Hno & Hd); (split_and!; [done|done|]).
  - intros d Hdd. apply elem_of_list_to_set, Hd. by apply Hdeps.
  - intros d Hdd%Hdeps; [|done]. apply Hd in Hdd. by apply elem_of_list_to_set in Hdd.
Qed.

(** The counts are what each stack still waits for, the heap what is ready. *)
Record kahn_ok (indeg : gmap string nat) (heap order : list string) : Prop := {
  k_after : forall x, x ∈ order -> deps x ⊆ list_to_set order;
  k_indeg : forall x, x ∈ closure -> indeg !!! x = size (deps x ∖ list_to_set order);
  k_heap : heap ≡ₚ ready before preview order }.

Lemma preview_NoDup : NoDup preview.
Proof. by rewrite Hperm. Qed.

Lemma ready_NoDup order : NoDup (ready before preview order).
Proof. unfold ready. rewrite NoDup_ListNoDup. apply List.NoDup_filter. rewrite <- NoDup_ListNoDup. apply preview_NoDup. Qed.

Lemma users_elem d x : x ∈ users deps closure d <-> x ∈ closure /\ d ∈ deps x.
Proof. unfold users. by rewrite list_elem_of_In, filter_In, <- list_elem_of_In, bool_decide_eq_true. Qed.

Lemma users_NoDup d : NoDup (users deps closure d).
Proof. unfold users. rewrite NoDup_ListNoDup. apply List.NoDup_filter. by rewrite <- NoDup_ListNoDup. Qed.

Lemma freed_elem (indeg : gmap string nat) d x :
  x ∈ List.filter (fun u => indeg !!! u - 1 =? 0) (users deps closure d) <-> (x ∈ closure /\ d ∈ deps x) /\ indeg !!! x - 1 = 0.
Proof. by rewrite list_elem_of_In, filter_In, <- list_elem_of_In, users_elem, Nat.eqb_eq. Qed.

(** Applying [s] frees one of the slots of each of its users. *)
Lemma waits_snoc order s x :
  s ∉ order -> size (deps x ∖ list_to_set (order ++ [s])) =
    if decide (s ∈ deps x) then size (deps x ∖ list_to_set order) - 1 else size (deps x ∖ list_to_set order).
Proof.
  intros Hno. rewrite list_to_set_app_L. cbn [list_to_set]. rewrite union_empty_r_L.
  destruct (decide (s ∈ deps x)) as [Hs|Hs].
  - rewrite <- difference_difference_l_L, size_difference by set_solver. by rewrite size_singleton.
  - f_equal. set_solver.
Qed.

Lemma kahn_step indeg heap order s rest :
  kahn_ok indeg heap order -> sort_by le heap = s :: rest ->
  let st := fold_left relax (users deps closure s) (indeg, rest) in
  kahn_ok st.1 st.2 (order ++ [s]).
Proof.
  intros [H1 H2 H3] E. cbv zeta. destruct (relax_fold (users deps closure s) indeg rest (users_NoDup s)) as [R1 R2].
  assert (Hh : s :: rest ≡ₚ ready before preview order) by (by rewrite <- H3, <- E, sort_by_perm).
  assert (Hs : s ∈ ready before preview order) by (rewrite <- Hh; left). apply ready_spec in Hs as (Hsc & Hsno & Hsd).
  assert (Hself : s ∉ deps s) by (intros Hx%Hsd; by apply elem_of_list_to_set in Hx).
  assert (Hnd : NoDup (s :: rest)) by (rewrite Hh; apply ready_NoDup).
  apply NoDup_cons in Hnd as [Hsr Hrest].
  assert (Hsize : forall x, x ∈ closure -> (fold_left relax (users deps closure s) (indeg, rest)).1 !!! x =
     size (deps x ∖ list_to_set (order ++ [s]))).
  { intros x Hx. rewrite R1, waits_snoc by done. rewrite <- H2 by done.
    destruct (decide (x ∈ users deps closure s)) as [Hu|Hu], (decide (s ∈ deps x)) as [Hd|Hd]; try done; rewrite users_elem in Hu; tauto. }
  split.
  - intros x Hx. rewrite list_to_set_app_L. apply elem_of_app in Hx as [Hx| ->%list_elem_of_singleton]; [apply H1 in Hx|]; set_solver.
  - exact Hsize.
  - rewrite R2. symmetry. apply NoDup_Permutation; [apply ready_NoDup| |].
    + apply NoDup_app. split; [rewrite NoDup_ListNoDup; apply List.NoDup_filter; rewrite <- NoDup_ListNoDup; apply users_NoDup|].
      split; [|done]. intros x Hx Hxr. apply freed_elem in Hx as [[Hx Hd] _].
      assert (Hr : x ∈ ready before preview order) by (rewrite <- Hh; by right). apply ready_spec in Hr as (_ & _ & Hr).
      apply Hr, elem_of_list_to_set in Hd. done.
    + intros x. rewrite ready_spec, not_elem_of_app, list_elem_of_singleton, elem_of_app, freed_elem.
      assert (Hrest' : x ∈ rest <-> x ∈ closure /\ x ∉ order /\ deps x ⊆ list_to_set order /\ x <> s).
      { split.
        - intros Hx. assert (Hr : x ∈ ready before preview order) by (rewrite <- Hh; by right).
          apply ready_spec in Hr as (? & ? & ?). split_and!; [done..|]. by intros ->.
        - intros (? & ? & ? & Hne). assert (Hr : x ∈ s :: rest) by (rewrite Hh; by apply ready_spec). by apply elem_of_cons in Hr as [|]. }
      rewrite Hrest'. split.
      * intros (Hx & [Hno Hne] & Hd). destruct (decide (s ∈ deps x)) as [Hsx|Hsx].
        -- left. split; [done|]. pose proof (waits_snoc order s x Hsno) as W. rewrite decide_True in W by done.
           rewrite (H2 x Hx), <- W. by apply waits_none.
        -- right. split_and!; [done..| |done]. rewrite list_to_set_app_L in Hd. set_solver.
      * intros [[[Hx Hsx] Hz]|(Hx & Hno & Hd & Hne)].
        -- split_and!; [done| |by intros ->|].
           ++ intros Hxo. apply H1 in Hxo. apply Hxo in Hsx. by apply elem_of_list_to_set in Hsx.
           ++ pose proof (waits_snoc order s x Hsno) as W. rewrite decide_True in W by done.
              rewrite (H2 x Hx), <- W in Hz. by apply waits_none.
        -- split_and!; [done..|]. rewrite list_to_set_app_L. set_solver.
Qed.

Lemma kahn_is_order_loop fuel indeg heap order :
  kahn_ok indeg heap order -> kahn fuel le deps closure indeg heap order = (order_loop fuel le before preview order).1.
Proof.
  revert indeg heap order. induction fuel as [|k IH]; intros indeg heap order Hok; [done|]. cbn [kahn order_loop].
  rewrite <- (sort_by_perm_eq _ _ (k_heap _ _ _ Hok)). destruct (sort_by le heap) as [|s rest] eqn:E; [done|].
  apply IH. by apply (kahn_step _ heap).
Qed.

Lemma indeg0_spec x : x ∈ closure -> indeg0 deps closure !!! x = size (deps x).
Proof.
  intros Hx. apply lookup_total_correct. unfold indeg0. apply elem_of_list_to_map_1.
  - rewrite map_map. cbn [fst]. by rewrite map_id.
  - apply list_elem_of_In, in_map_iff. exists x. by rewrite <- list_elem_of_In.
Qed.

Lemma kahn_start : kahn_ok (indeg0 deps closure) (List.filter (fun s => indeg0 deps closure !!! s =? 0) closure) [].
Proof.
  split.
  - by intros x ?%not_elem_of_nil.
  - intros x Hx. rewrite indeg0_spec by done. f_equal. cbn [list_to_set]. by rewrite difference_empty_L.
  - apply NoDup_Permutation; [|apply ready_NoDup|].
    + rewrite NoDup_ListNoDup. apply List.NoDup_filter. by rewrite <- NoDup_ListNoDup.
    + intros x. rewrite ready_spec, <- waits_none. cbn [list_to_set]. rewrite difference_empty_L.
      rewrite list_elem_of_In, filter_In, <- list_elem_of_In, Nat.eqb_eq. split.
      * intros [Hx Hz]. rewrite indeg0_spec in Hz by done. split_and!; [done|apply not_elem_of_nil|done].
      * intros (Hx & _ & Hz). by rewrite indeg0_spec.
Qed.
End Kahn.

(** ** Both sides see the same dependencies *)

Section Agree.
Context (stacks : list stack) (selected : list string).
Context (Hsel : Forall (fun s => is_Some (row stacks s)) selected).
Context (Hrows : Forall (fun r => Forall (fun d => is_Some (row stacks d)) (depends_on r)) stacks).

Lemma row_by_slug s r : row stacks s = Some r -> by_slug stacks s = Some r.
Proof. unfold row, by_slug. destruct (list_find _ _) as [[i q]|]; [|done]. by intros [= ->]. Qed.

Lemma row_in s r : row stacks s = Some r -> r ∈ stacks /\ slug r = s.
Proof.
  unfold row. destruct (list_find _ _) as [[i q]|] eqn:E; [|done]. intros [= ->]. apply list_find_Some in E as (Hi & Hs & _).
  split; [|done]. apply list_elem_of_lookup_2 in Hi. by rewrite list_elem_of_In, <- in_rev, <- list_elem_of_In in Hi.
Qed.

Lemma row_of r : r ∈ stacks -> is_Some (row stacks (slug r)).
Proof.
  intros Hr. unfold row. destruct (list_find _ _) as [[i q]|] eqn:E; [by eexists|]. exfalso. apply list_find_None in E.
  rewrite Forall_forall in E. apply (E r); [|done]. by rewrite list_elem_of_In, <- in_rev, <- list_elem_of_In.
Qed.

Lemma locked_known s : s ∈ lockedSlugs stacks -> is_Some (row stacks s).
Proof.
  unfold lockedSlugs. rewrite sort_by_perm, list_elem_of_In, in_map_iff. intros (r & <- & Hr). apply filter_In in Hr as [Hr _].
  apply row_of. by apply list_elem_of_In.
Qed.

Lemma deps_known s d : is_Some (row stacks s) -> d ∈ deps_of stacks s -> is_Some (row stacks d).
Proof.
  intros [r E]. unfold deps_of. rewrite (row_by_slug _ _ E). cbn [from_option]. intros Hd.
  rewrite Forall_forall in Hrows. apply row_in in E as [Hr _]. specialize (Hrows r Hr). rewrite Forall_forall in Hrows. by apply Hrows.
Qed.

Lemma row_known s : is_Some (row stacks s) -> known stacks s = true.
Proof. intros [r E]. unfold known. rewrite (row_by_slug _ _ E). by apply bool_decide_eq_true. Qed.

Lemma first_known s : s ∈ selected ++ lockedSlugs stacks -> is_Some (row stacks s).
Proof. intros [Hs|Hs]%elem_of_app; [|by apply locked_known]. rewrite Forall_forall in Hsel. by apply Hsel. Qed.

Lemma pulled_known s : pulled stacks selected s -> is_Some (row stacks s).
Proof. induction 1 as [s Hs _|s d _ IH Hd _]; [by apply first_known|by eapply deps_known]. Qed.

Lemma py_closure_agrees fuel todo closure :
  Forall (fun s => is_Some (row stacks s)) todo -> py_closure fuel stacks todo closure = inr (closure_loop fuel stacks todo closure).
Proof.
  revert todo closure. induction fuel as [|k IH]; intros [|s todo] closure Ht; try done. apply Forall_cons in Ht as [Hs Ht].
  cbn [py_closure closure_loop]. destruct (decide (s ∈ closure)); [by apply IH|]. rewrite row_known by done.
  pose proof Hs as [r E]. rewrite E. unfold deps_of. rewrite (row_by_slug _ _ E). cbn [from_option]. apply IH, Forall_app. split; [|done].
  apply Forall_forall. intros d Hd. rewrite list_elem_of_In, <- in_rev, <- list_elem_of_In in Hd. apply (deps_known s d Hs).
  unfold deps_of. by rewrite (row_by_slug _ _ E).
Qed.

Lemma deps_agree x d : pulled stacks selected x -> needs stacks selected x d <-> d ∈ py_deps stacks x.
Proof.
  intros Hx. pose proof (pulled_known x Hx) as Hrow. pose proof Hrow as [r E]. unfold needs, py_deps, is_locked, deps_of.
  rewrite E, (row_by_slug _ _ E). cbn [from_option]. rewrite elem_of_union, elem_of_list_to_set.
  assert (Hd1 : d ∈ depends_on r -> pulled stacks selected d).
  { intros Hd. assert (Hd' : d ∈ deps_of stacks x) by (unfold deps_of; by rewrite (row_by_slug _ _ E)).
    apply (Pulled_dep _ _ x); [done|done|]. by eapply row_known, deps_known. }
  assert (Hd2 : d ∈ lockedSlugs stacks -> pulled stacks selected d).
  { intros Hd. apply Pulled_first; [apply elem_of_app; by right|]. by apply row_known, locked_known. }
  destruct (locked r); [rewrite elem_of_empty|rewrite elem_of_list_to_set]; naive_solver.
Qed.
End Agree.

Lemma cmp_le_antisym stacks a b : cmp_le stacks a b = true -> cmp_le stacks b a = true -> a = b.
Proof.
  unfold cmp_le. rewrite (cmp_antisym stacks b a). destruct (cmp stacks a b) eqn:E; [|done|done]. intros _ _. by apply cmp_eq in E.
Qed.

(** C6: the preview is what the generator does.  When every selected stack and
    every dependency has a row, the dashboard's order is the order the generator
    computes, whatever the iteration order of Python's sets; and the dashboard
    reports a cycle exactly when the generator refuses the selection for one, over
    the same stacks. *)
Theorem preview_is_what_generator_applies (enum : list string -> list string) (stacks : list stack) (selected : list string) :
  (forall l, enum l ≡ₚ l) ->
  Forall (fun s => is_Some (row stacks s)) selected ->
  Forall (fun r => Forall (fun d => is_Some (row stacks d)) (depends_on r)) stacks ->
  match resolve_order enum stacks selected, resolveOrder stacks selected with
  | inr order, (shown, None) => order = shown
  | inl (Cycle rest), (_, Some cycle) => rest ≡ₚ cycle
  | _, _ => False
  end.
Proof.
  intros Henum Hsel Hrows. unfold resolve_order.
  destruct (list_find _ selected) as [[i s]|] eqn:Ef.
  { apply list_find_Some in Ef as (Hi & Hs & _). rewrite Forall_forall in Hsel. apply list_elem_of_lookup_2, Hsel in Hi as [? ?]. congruence. }
  rewrite py_closure_agrees; [|done|].
  2: { apply Forall_forall. intros s Hs. rewrite list_elem_of_In, <- in_rev, <- list_elem_of_In in Hs. by eapply first_known. }
  fold (closure_of stacks selected). cbv zeta. destruct (closure_of_spec stacks selected) as [Hn Hp].
  set (c := closure_of stacks selected) in *. assert (Hl : length (enum c) = length c) by (by rewrite Henum).
  rewrite (kahn_is_order_loop (cmp_le stacks) (cmp_total stacks) (cmp_le_trans stacks) (cmp_le_antisym stacks) (py_deps stacks) (enum c)
    ltac:(by rewrite Henum) (before stacks c) c ltac:(by rewrite Henum)).
  - rewrite Hl. unfold resolveOrder. fold c. pose proof (resolveOrder_good stacks selected) as [Hg Hc]. cbv zeta in Hc. unfold resolveOrder in Hc. fold c in Hc.
    destruct (order_loop _ _ _ _ _) as [order [cyc|]]; cbn [fst snd] in *.
    + destruct Hc as (-> & _ & Hlt). rewrite (proj2 (Nat.eqb_neq _ _)) by lia. apply NoDup_Permutation.
      * rewrite NoDup_ListNoDup. apply List.NoDup_filter. rewrite <- NoDup_ListNoDup. by rewrite Henum.
      * rewrite NoDup_ListNoDup. apply List.NoDup_filter. by rewrite <- NoDup_ListNoDup.
      * intros x. rewrite !filter_not_in. by rewrite Henum.
    + by rewrite Hc, Nat.eqb_refl.
  - intros x d Hx. rewrite Henum, Hp in Hx. subst c. rewrite before_elem. by apply deps_agree.
  - apply kahn_start; [by rewrite Henum|by rewrite Henum|]. intros x d Hx. rewrite Henum, Hp in Hx. subst c. rewrite before_elem. by apply deps_agree.
Qed.

Definition demo_stacks : list stack :=
  [Stack "base" true 0 []; Stack "web" false 20 ["runtime"]; Stack "runtime" false 30 []; Stack "desk" false 10 ["runtime"]].

Lemma preview_is_what_generator_applies_witness :
  resolve_order (fun l => rev l) demo_stacks ["web"; "desk"] = inr ["base"; "runtime"; "desk"; "web"].
Proof.
  assert (H : match resolve_order (fun l => rev l) demo_stacks ["web"; "desk"], resolveOrder demo_stacks ["web"; "desk"] with
    | inr order, (shown, None) => order = shown | inl (Cycle rest), (_, Some cycle) => rest ≡ₚ cycle | _, _ => False end).
  { apply preview_is_what_generator_applies.
    - intros l. symmetry. apply Permutation_rev.
    - repeat (apply Forall_cons; split; [eexists; reflexivity|]). apply Forall_nil. exact I.
    - unfold demo_stacks. repeat (apply Forall_cons; split; [cbn [depends_on]; repeat (apply Forall_cons; split; [eexists; reflexivity|]); apply Forall_nil; exact I|]).
      apply Forall_nil. exact I. }
  destruct (resolve_order _ _ _) as [e|order]; [destruct e; exfalso; exact H|]. rewrite H. reflexivity.
Defined.
