(* ===== verification/Catalog.v ===== *)
(** * The inventory catalogue's forms (screens4.jsx)

    What the inventory screens compute before a write: product codes and their
    check digit, the rows a product's specs are edited in, the plan of a batch of
    storage units, the levels of the location tree and the licence fields.  Text
    is a string of bytes; case folding and white space are those of ASCII. *)

From Stdlib Require Import ZArith Lia Ascii.
From Corelib Require Import SpecFloat.
From stdpp Require Import strings pretty gmap list.
From S2P Require Import Prelude JsNum JsValue Mappers TopoLayout.

Local Open Scope string_scope.
Local Open Scope list_scope.
Local Open Scope Z_scope.

(** ** Objects used as sets *)

(** [set[k]] for a plain object whose own keys are [ks]: a name every object
    inherits is found too. *)
Definition in_set (k : string) (ks : list string) : bool := bool_decide (k ∈ ks) || existsb (String.eqb k) inherited.

(** ** Names and codes *)

(** [String(v || "").trim()]. *)
Definition catalogName (make model : string) : string :=
  let b := trim make in
  let m := trim model in
  if String.eqb b "" then m
  else if String.eqb m "" then b
  else if starts_with b m then m
  else if (String.length m <=? String.length b)%nat && String.eqb (sdrop (String.length b - String.length m) b) m then b
  else b +:+ " " +:+ m.

Fixpoint remove_ws (s : string) : string :=
  match s with
  | EmptyString => EmptyString
  | String c r => if is_ws c then remove_ws r else String c (remove_ws r)
  end.

Definition normCode (code : string) : string := toUpperCase (remove_ws code).

(** The loop from the last digit but one to the first, with its alternating weight. *)
Fixpoint gtin_sum (rdigits : list Z) (sum weight : Z) : Z :=
  match rdigits with
  | [] => sum
  | d :: r => gtin_sum r (sum + d * weight) (if weight =? 3 then 1 else 3)
  end.

Definition gtin_shape (code : string) : bool :=
  sall is_digit code && existsb (Nat.eqb (String.length code)) [8; 12; 13; 14]%nat.

Definition gtinValid (code : string) : bool :=
  gtin_shape code &&
  match rev (map digit_val (chars code)) with
  | [] => false
  | check :: r => (10 - gtin_sum r 0 3 mod 10) mod 10 =? check
  end.

Definition guessCodeType (code : string) : string := if gtinValid code then "gtin" else "other".

Definition gtin_error : string :=
  "That isn’t a valid GTIN — it needs 8, 12, 13 or 14 digits with a correct check digit. Choose SKU or Other for shop codes.".

Definition codeError (code codeType : string) : string :=
  if String.eqb code "" then "Enter or scan a code."
  else if (128 <? String.length code)%nat then "Codes must be 128 characters or fewer."
  else if String.eqb codeType "gtin" && negb (gtinValid code) then gtin_error
  else "".

(** ** Location levels *)

Definition LOC_CHILD_LEVEL (t : string) : option string :=
  if String.eqb t "property" then Some "floor"
  else if String.eqb t "floor" then Some "room"
  else if String.eqb t "room" then Some "section"
  else None.

(** No parent is [None]. *)
Definition childTypesFor (parent : option string) : list string :=
  match parent with
  | None => ["property"]
  | Some p => match LOC_CHILD_LEVEL p with Some c => [c; "storage_unit"] | None => ["storage_unit"] end
  end.

Definition legalUnder (type : string) (parent : option string) : bool :=
  if String.eqb type "property" then match parent with None => true | Some _ => false end
  else match parent with
       | None => false
       | Some p => String.eqb type "storage_unit" || match LOC_CHILD_LEVEL p with Some c => String.eqb c type | None => false end
       end.

(** ** Batches of storage units *)

Fixpoint dec_val (acc : Z) (l : list ascii) : Z :=
  match l with [] => acc | c :: r => dec_val (acc * 10 + digit_val c) r end.

Definition intField (value : string) (lo hi : Z) : option Z :=
  let s := trim value in
  if String.eqb s "" || negb (sall is_digit s) then None
  else let n := dec_val 0 (chars s) in if (lo <=? n) && (n <=? hi) then Some n else None.

Record bulk := Bulk { b_names : bool; b_pasted : string; b_count : string; b_start : string; b_prefix : string;
                      b_codePrefix : string; b_codeStart : string }.

Definition newline : ascii := Ascii.ascii_of_nat 10.

Definition err_if (b : bool) (e : string) : list string := if b then [e] else [].
Arguments err_if !b e /.

Definition numbered (prefix : string) (start : Z) (count : nat) : list string :=
  map (fun i => prefix +:+ pretty (start + i)) (seqZ 0 (Z.of_nat count)).

(** The names of the batch and what is wrong with the form. *)
Definition bulk_names (s : bulk) : list string * list string :=
  if b_names s then
    let names := List.filter (fun n => negb (String.eqb n "")) (map trim (split_char newline (b_pasted s))) in
    (names,
     err_if (length names =? 0)%nat "Paste at least one name, one per line." ++
     err_if (500 <? length names)%nat ("At most 500 storage units per batch (" +:+ pretty (length names) +:+ " pasted)."))
  else
    let count := intField (b_count s) 1 500 in
    let start := intField (b_start s) 0 999999999 in
    let prefix := trim (b_prefix s) in
    (match count, start with
     | Some c, Some z => if String.eqb prefix "" then [] else numbered prefix z (Z.to_nat c)
     | _, _ => []
     end,
     (match count with None => ["Count must be a whole number from 1 to 500."] | Some _ => [] end) ++
     (if String.eqb prefix "" then ["Enter a name prefix, e.g. “Bin-”."]
      else err_if (100 <? String.length prefix)%nat "Name prefix must be 100 characters or fewer.") ++
     (match start with None => ["Start number must be a whole number, 0 or more."] | Some _ => [] end)).

(** The first name whose lower case was seen before. *)
Fixpoint first_dupe (seen : list string) (names : list string) : option string :=
  match names with
  | [] => None
  | n :: r => let k := toLowerCase n in if in_set k seen then Some n else first_dupe (k :: seen) r
  end.

Definition first_taken (taken : list string) (names : list string) : option string :=
  List.find (fun n => in_set (toLowerCase n) (map toLowerCase taken)) names.

Definition quoted (o : option string) (tail : string) : list string :=
  match o with Some n => ["“" +:+ n +:+ "” " +:+ tail] | None => [] end.

(** The codes of the batch and what is wrong with them; [used] are the codes of
    all locations. *)
Definition bulk_codes (s : bulk) (names used : list string) : list (option string) * list string :=
  let codePrefix := trim (b_codePrefix s) in
  let none := map (fun _ => None) names in
  if String.eqb codePrefix "" then (none, [])
  else
    let long := err_if (20 <? String.length codePrefix)%nat "Code prefix must be 20 characters or fewer." in
    match intField (b_codeStart s) 0 999999999 with
    | None => (none, long ++ ["Code start must be a whole number, 0 or more."])
    | Some z =>
        let codes := numbered codePrefix z (length names) in
        (map Some codes,
         long ++
         err_if (existsb (fun c => 32 <? String.length c)%nat codes) "Generated codes must be 32 characters or fewer." ++
         match first_taken used codes with
         | Some c => ["Code " +:+ c +:+ " is already used by another location."]
         | None => []
         end)
    end.

(** [siblings]: the names under the parent. *)
Definition bulkPlan (s : bulk) (parent : string) (siblings used : list string) : list string * list (option string) * list string :=
  let '(names, e1) := bulk_names s in
  let e2 := err_if (existsb (fun n => 128 <? String.length n)%nat names) "Names must be 128 characters or fewer." in
  let e3 := quoted (first_dupe [] names) "appears twice in this batch." in
  let e4 := quoted (first_taken siblings names) ("already exists in " +:+ parent +:+ ".") in
  let '(codes, e5) := bulk_codes s names used in
  (names, codes, e1 ++ e2 ++ e3 ++ e4 ++ e5).

(** ** Specs *)

Section Secrets.
(** [w.?key] at the head of [s]: the dot matches any character but a line break. *)
Definition word_key (w s : string) : bool :=
  starts_with w s &&
  let r := sdrop (String.length w) s in
  starts_with "key" r ||
  match r with String c r' => negb (Ascii.eqb c newline || Ascii.eqb c (Ascii.ascii_of_nat 13)) && starts_with "key" r' | EmptyString => false end.

Definition secret_here (s : string) : bool :=
  existsb (fun w => starts_with w s) ["secret"; "password"; "passwd"; "token"; "credential"] ||
  existsb (fun w => word_key w s) ["api"; "license"; "licence"; "private"].

Fixpoint secret_in (s : string) : bool :=
  secret_here s || match s with EmptyString => false | String _ r => secret_in r end.

(** [SECRET_KEY.test(k)]. *)
Definition SECRET_KEY (k : string) : bool := secret_in (toLowerCase k).
End Secrets.

(** The keys of an array are its indices, which no pattern matches. *)
Fixpoint hasSecretKey (v : value) : bool :=
  match v with
  | VObj f => existsb (fun kv => SECRET_KEY kv.1 || hasSecretKey kv.2) f
  | VArr l => existsb hasSecretKey l
  | _ => false
  end.

Definition specText (v : value) : string :=
  match v with
  | VNull => "null"
  | VArr _ | VObj _ => json_str v
  | _ => vstr v
  end.

(** A row of the editor: the key, the text, and the value it started from
    ([None] for a row the operator added). *)
Record srow := SRow { r_key : string; r_text : string; r_orig : option value }.

Definition is_nested (v : value) : bool := match v with VArr _ | VObj _ => true | _ => false end.

Definition r_nested (r : srow) : bool := match r_orig r with Some v => is_nested v | None => false end.

Definition specObject (specs : value) : list (string * value) :=
  match specs with
  | VObj f => f
  | VArr l => imap (fun i v => (pretty i, v)) l
  | _ => []
  end.

Definition specRows (specs : value) : list srow := map (fun kv => SRow kv.1 (specText kv.2) (Some kv.2)) (specObject specs).

(** [/^-?\d+(?:\.\d+)?$/]. *)
Definition plain_number (s : string) : bool :=
  let l := chars s in
  let l := match l with "-"%char :: r => r | _ => l end in
  match read_dec 0 0 l with
  | (_, S _, []) => true
  | (_, S _, "."%char :: r) => match read_dec 0 0 r with (_, S _, []) => true | _ => false end
  | _ => false
  end.

Section Rows.
(** [JSON.parse]: [None] is a syntax error. *)
Context (parse : string -> option value).

(** The value of a row; [None] when the text of structured data is not JSON. *)
Definition row_value (r : srow) : option value :=
  let t := trim (r_text r) in
  match r_orig r with
  | Some v =>
      if String.eqb (r_text r) (specText v) then Some v
      else if is_nested v then parse (r_text r)
      else match v with
           | VNum _ => Some (if plain_number t then VNum (str_num t) else VStr t)
           | VBool _ =>
               let l := toLowerCase t in
               Some (if String.eqb l "true" || String.eqb l "false" then VBool (String.eqb l "true") else VStr t)
           | _ => Some (VStr t)
           end
  | None => Some (VStr t)
  end.

Definition secret_error : string :=
  "Spec names like “licence key”, “password” or “token” look like secrets, and secrets are never stored. Record a licence reference on the item instead.".

(** The loop: the error or the specs so far. *)
Fixpoint take_rows (i : nat) (rows : list srow) (out : list (string * value)) : string + list (string * value) :=
  match rows with
  | [] => inr out
  | r :: rest =>
      let key := trim (r_key r) in
      if String.eqb key "" then
        if String.eqb (trim (r_text r)) "" then take_rows (S i) rest out
        else inl ("Spec " +:+ pretty (S i) +:+ " needs a name.")
      else if in_set key (map fst out) then inl ("“" +:+ key +:+ "” is listed twice. Each spec name can appear once.")
      else match row_value r with
           | None => inl ("“" +:+ key +:+ "” holds structured data; keep it valid JSON (or replace it with plain text).")
           | Some v => take_rows (S i) rest (out ++ [(key, v)])
           end
  end.

(** The error, or the specs with [null] for none. *)
Definition specsFromRows (rows : list srow) : string + value :=
  match take_rows 0 rows [] with
  | inl e => inl e
  | inr out => if hasSecretKey (VObj out) then inl secret_error else inr (match out with [] => VNull | _ => VObj out end)
  end.
End Rows.

(** ** The check digit *)

Lemma chars_app s t : chars (s +:+ t) = chars s ++ chars t.
Proof. induction s as [|c s IH]; [done|]. change (c :: chars (s +:+ t) = (c :: chars s) ++ chars t). by rewrite IH. Qed.

Lemma sall_chars p s : sall p s = forallb p (chars s).
Proof. induction s as [|c s IH]; [done|]. cbn. by rewrite IH. Qed.

Lemma length_chars s : length (chars s) = String.length s.
Proof. induction s as [|c s IH]; [done|]. cbn. by rewrite IH. Qed.

Definition other_weight (w : Z) : Z := if w =? 3 then 1 else 3.

Definition weights (w : Z) : Prop := w = 1 \/ w = 3.

Lemma gtin_sum_add l s w : gtin_sum l s w = s + gtin_sum l 0 w.
Proof.
  revert s w. induction l as [|d l IH]; intros s w; cbn [gtin_sum]; [lia|]. rewrite IH, (IH (0 + _)). lia.
Qed.

(** A digit counts with a weight that depends on its place only. *)
Lemma gtin_sum_place l1 l2 w :
  weights w -> exists A w1, weights w1 /\
    (forall d, gtin_sum (l1 ++ d :: l2) 0 w = A + d * w1) /\
    (forall (d : Z) r, l2 = d :: r -> exists B, forall e' d', gtin_sum (l1 ++ e' :: d' :: r) 0 w = B + e' * w1 + d' * (4 - w1)).
Proof.
  revert w. induction l1 as [|x l1 IH]; intros w Hw.
  - exists (gtin_sum l2 0 (other_weight w)), w. split; [done|]. split.
    + intros d. cbn [app gtin_sum]. rewrite gtin_sum_add. fold (other_weight w). lia.
    + intros d r ->. exists (gtin_sum r 0 w). intros e' d'. cbn [app gtin_sum].
      fold (other_weight w). rewrite gtin_sum_add. destruct Hw as [-> | ->]; cbn [other_weight Z.eqb Pos.eqb]; lia.
  - destruct (IH (other_weight w)) as (A & w1 & H1 & H2 & H3); [unfold weights, other_weight; destruct (w =? 3); auto|].
    exists (x * w + A), w1. split; [done|]. split.
    + intros d. cbn [app gtin_sum]. rewrite gtin_sum_add. fold (other_weight w). rewrite H2. lia.
    + intros d r E. destruct (H3 d r E) as [B HB]. exists (x * w + B). intros e' d'. cbn [app gtin_sum].
      rewrite gtin_sum_add. fold (other_weight w). rewrite HB. lia.
Qed.

(** The total over all digits, the check digit with weight one. *)
Definition gtin_total (code : string) : Z := gtin_sum (rev (map digit_val (chars code))) 0 1.

Lemma digit_range c : is_digit c = true -> 0 <= digit_val c <= 9.
Proof. unfold is_digit, digit_val. rewrite andb_true_iff, !Nat.leb_le. lia. Qed.

Lemma digit_val_inj a b : digit_val a = digit_val b -> a = b.
Proof. unfold digit_val. intros H. rewrite <- (Ascii.ascii_nat_embedding a), <- (Ascii.ascii_nat_embedding b). f_equal. lia. Qed.

Lemma gtinValid_total code : gtinValid code = gtin_shape code && (gtin_total code mod 10 =? 0).
Proof.
  unfold gtinValid, gtin_total. destruct (gtin_shape code) eqn:Hs; [|done]. cbn [andb].
  unfold gtin_shape in Hs. apply andb_prop in Hs as [Hd Hl]. rewrite sall_chars in Hd.
  rewrite <- map_rev. destruct (rev (chars code)) as [|c r] eqn:E.
  - apply (f_equal (@length ascii)) in E. rewrite length_rev, length_chars in E. cbn in E. by rewrite E in Hl.
  - assert (Hc : 0 <= digit_val c <= 9).
    { apply digit_range. rewrite forallb_forall in Hd. apply Hd. rewrite in_rev, E. by left. }
    cbn [map gtin_sum Z.eqb Pos.eqb]. rewrite (gtin_sum_add _ (0 + _)). set (S := gtin_sum (map digit_val r) 0 3).
    replace (0 + digit_val c * 1 + S) with (S + digit_val c) by lia.
    apply Bool.eq_iff_eq_true. rewrite !Z.eqb_eq.
    pose proof (Z.mod_pos_bound S 10 ltac:(lia)). rewrite <- (Z.add_mod_idemp_l S) by lia. set (m := S mod 10) in *.
    destruct (Z.eq_dec m 0) as [-> |Hm]; [change ((10 - 0) mod 10) with 0; rewrite Z.mod_small by lia; lia|].
    rewrite (Z.mod_small (10 - m)) by lia.
    split; [intros <-; replace (m + (10 - m)) with (1 * 10) by lia; by rewrite Z.mod_mul|].
    intros H0. apply Z.mod_divide in H0 as [k Hk]; lia.
Qed.

(** The shape does not depend on which digits there are. *)
Lemma gtin_shape_swap p a b q : is_digit a = true -> is_digit b = true -> gtin_shape (p +:+ String a q) = gtin_shape (p +:+ String b q).
Proof.
  intros Ha Hb. unfold gtin_shape. rewrite !sall_chars, !chars_app, !forallb_app, !string_app_length. cbn [chars forallb String.length]. by rewrite Ha, Hb.
Qed.

Lemma gtin_shape_digit p a q : gtin_shape (p +:+ String a q) = true -> is_digit a = true.
Proof.
  unfold gtin_shape. rewrite sall_chars, chars_app, forallb_app. cbn [chars forallb]. rewrite !andb_true_iff. naive_solver.
Qed.

Lemma gtin_total_place p q : exists A w1, weights w1 /\ forall a, gtin_total (p +:+ String a q) = A + digit_val a * w1.
Proof.
  destruct (gtin_sum_place (rev (map digit_val (chars q))) (rev (map digit_val (chars p))) 1) as (A & w1 & H1 & H2 & _); [by left|].
  exists A, w1. split; [done|]. intros a. unfold gtin_total. rewrite chars_app, map_app, rev_app_distr. cbn [chars map rev].
  rewrite <- app_assoc. apply H2.
Qed.

Lemma gtin_total_pair p q : exists A w1, weights w1 /\ forall a b, gtin_total (p +:+ String a (String b q)) = A + digit_val b * w1 + digit_val a * (4 - w1).
Proof.
  destruct (gtin_sum_place (rev (map digit_val (chars q))) (0 :: rev (map digit_val (chars p))) 1) as (A & w1 & H1 & _ & H3); [by left|].
  destruct (H3 0 _ eq_refl) as [B HB]. exists B, w1. split; [done|]. intros a b. unfold gtin_total. rewrite chars_app, map_app, rev_app_distr.
  cbn [chars map rev]. rewrite <- !app_assoc. cbn [app]. apply HB.
Qed.

Lemma gtin_mod_diff A x y w : weights w -> 0 <= x <= 9 -> 0 <= y <= 9 -> (A + x * w) mod 10 = 0 -> (A + y * w) mod 10 = 0 -> x = y.
Proof.
  intros Hw Hx Hy [k Hk]%Z.mod_divide [j Hj]%Z.mod_divide; [|lia..]. destruct Hw as [-> | ->]; lia.
Qed.

Lemma ascii_digit d : 0 <= d <= 9 -> exists c, is_digit c = true /\ digit_val c = d.
Proof.
  intros Hd. exists (Ascii.ascii_of_nat (Z.to_nat d + 48)). unfold is_digit, digit_val.
  rewrite Ascii.nat_ascii_embedding by lia. split; [rewrite andb_true_iff, !Nat.leb_le; lia|lia].
Qed.

(** C15: the check digit catches a slip.  Changing one digit of a valid GTIN never
    gives a valid one; swapping two neighbouring digits gives one exactly when
    they differ by five (or are equal); and every body of seven, eleven, twelve or
    thirteen digits is completed by exactly one check digit. *)
Theorem gtin_catches_slips (p q : string) (a b : ascii) :
  (gtinValid (p +:+ String a q) = true -> a <> b -> gtinValid (p +:+ String b q) = false) /\
  (gtinValid (p +:+ String a (String b q)) = true ->
    gtinValid (p +:+ String b (String a q)) = true <-> (digit_val a - digit_val b) mod 5 = 0) /\
  (sall is_digit p = true -> String.length p ∈ [7; 11; 12; 13]%nat ->
    exists c, forall d, gtinValid (p +:+ String d "") = true <-> d = c).
Proof.
  setoid_rewrite gtinValid_total. setoid_rewrite andb_true_iff. setoid_rewrite Z.eqb_eq. split_and!.
  - intros [Hs Ht] Hne. destruct (is_digit b) eqn:Hb.
    + rewrite <- (gtin_shape_swap p a b q (gtin_shape_digit _ _ _ Hs) Hb), Hs. cbn [andb]. apply Z.eqb_neq. intros H0.
      destruct (gtin_total_place p q) as (A & w & Hw & HA). rewrite HA in *. apply Hne, digit_val_inj.
      eapply gtin_mod_diff; [exact Hw|by eapply digit_range, gtin_shape_digit|by apply digit_range|done|done].
    + destruct (gtin_shape (p +:+ String b q)) eqn:E; [|done]. apply gtin_shape_digit in E. congruence.
  - intros [Hs Ht]. destruct (gtin_total_pair p q) as (A & w & Hw & HA). rewrite HA in *.
    assert (Hab : is_digit a = true /\ is_digit b = true).
    { unfold gtin_shape in Hs. rewrite sall_chars, chars_app, forallb_app in Hs. cbn [chars forallb] in Hs. rewrite !andb_true_iff in Hs. naive_solver. }
    assert (Hs' : gtin_shape (p +:+ String b (String a q)) = true).
    { rewrite <- Hs. unfold gtin_shape. rewrite !sall_chars, !chars_app, !forallb_app, !string_app_length. cbn [chars forallb String.length].
      destruct Hab as [-> ->]. done. }
    destruct Hab as [Ha%digit_range Hb%digit_range]. apply Z.mod_divide in Ht as [k Hk]; [|lia].
    split.
    + intros [_ [j Hj]%Z.mod_divide]; [|lia]. apply Z.mod_divide; [lia|]. destruct Hw as [-> | ->]; [exists (k - j)|exists (j - k)]; lia.
    + intros [j Hj]%Z.mod_divide; [|lia]. split; [done|]. apply Z.mod_divide; [lia|]. destruct Hw as [-> | ->]; [exists (k - j)|exists (k + j)]; lia.
  - intros Hd Hl. destruct (gtin_total_place p "") as (A & w & Hw & HA).
    assert (Hshape : forall c, is_digit c = true -> gtin_shape (p +:+ String c "") = true).
    { intros c Hc. unfold gtin_shape. rewrite sall_chars, chars_app, forallb_app, string_app_length, <- sall_chars, Hd. cbn [chars forallb String.length andb].
      rewrite Hc, Nat.add_1_r. rewrite !elem_of_cons in Hl. cbn [andb]. destruct Hl as [-> |[-> |[-> |[-> |[]%not_elem_of_nil]]]]; done. }
    assert (Hex : exists x, 0 <= x <= 9 /\ (A + x * w) mod 10 = 0).
    { pose proof (Z.mod_pos_bound A 10 ltac:(lia)). pose proof (Z.div_mod A 10 ltac:(lia)) as Hdm. set (m := A mod 10) in *.
      destruct Hw as [-> | ->].
      - exists ((10 - m) mod 10). pose proof (Z.mod_pos_bound (10 - m) 10 ltac:(lia)). pose proof (Z.div_mod (10 - m) 10 ltac:(lia)).
        split; [lia|]. apply Z.mod_divide; [lia|]. exists (A / 10 + 1 - (10 - m) / 10). lia.
      - exists ((7 * (10 - m)) mod 10). pose proof (Z.mod_pos_bound (7 * (10 - m)) 10 ltac:(lia)). pose proof (Z.div_mod (7 * (10 - m)) 10 ltac:(lia)).
        split; [lia|]. apply Z.mod_divide; [lia|]. exists (A / 10 + 21 - 2 * m - 3 * (7 * (10 - m) / 10)). lia. }
    destruct Hex as (x & Hx & Hx0). destruct (ascii_digit x Hx) as (c & Hc & <-). exists c. intros d. rewrite HA. split.
    + intros [Hs H0]. apply digit_val_inj. eapply gtin_mod_diff; [exact Hw|by eapply digit_range, gtin_shape_digit|done|done|done].
    + intros ->. split; [by apply Hshape|done].
Qed.

(** ** Batches *)

Lemma smap_app f s t : smap f (s +:+ t) = smap f s +:+ smap f t.
Proof. induction s as [|c s IH]; [done|]. change (String (f c) (smap f (s +:+ t)) = String (f c) (smap f s +:+ smap f t)). by rewrite IH. Qed.

Lemma lower_N_go (x : N) s : toLowerCase (pretty_N_go x s) = pretty_N_go x (toLowerCase s).
Proof.
  revert s. induction (N.lt_wf_0 x) as [x _ IH]. intros s. destruct (decide (0 < x)%N) as [Hx|Hx].
  - rewrite (pretty_N_go_step x s), (pretty_N_go_step x (toLowerCase s)) by done. rewrite IH by (apply N.div_lt; lia). f_equal.
    change (String (lower_char (pretty_N_char (x `mod` 10)%N)) (toLowerCase s) = String (pretty_N_char (x `mod` 10)%N) (toLowerCase s)).
    f_equal. unfold pretty_N_char. by repeat case_match.
  - assert (x = 0%N) as -> by lia. done.
Qed.

Lemma lower_pretty (z : Z) : toLowerCase (pretty z) = pretty z.
Proof.
  assert (H : forall p : positive, toLowerCase (pretty (N.pos p)) = pretty (N.pos p)).
  { intros p. unfold pretty, pretty_N. destruct (decide _); [done|]. apply lower_N_go. }
  destruct z as [|p|p]; [done|apply H|]. change (pretty (Z.neg p)) with ("-" +:+ pretty (N.pos p)). unfold toLowerCase. rewrite smap_app. f_equal. apply H.
Qed.

Lemma numbered_NoDup prefix z n : NoDup (map toLowerCase (numbered prefix z n)).
Proof.
  unfold numbered. rewrite map_map. apply (NoDup_fmap_2_strong (fun i => toLowerCase (prefix +:+ pretty (z + i)))); [|apply NoDup_seqZ].
  intros i j _ _ E. unfold toLowerCase in E. rewrite !smap_app in E. apply string_app_cancel in E.
  fold toLowerCase in E. rewrite !lower_pretty in E. apply (inj pretty) in E. lia.
Qed.

Lemma in_set_false k ks : in_set k ks = false -> k ∉ ks.
Proof. unfold in_set. rewrite orb_false_iff, bool_decide_eq_false. by intros [? _]. Qed.

Lemma first_dupe_none seen names :
  first_dupe seen names = None -> NoDup (map toLowerCase names) /\ forall n, n ∈ names -> toLowerCase n ∉ seen.
Proof.
  revert seen. induction names as [|n r IH]; intros seen; cbn [first_dupe map].
  - intros _. split; [apply NoDup_nil_2|by intros n ?%not_elem_of_nil].
  - cbv zeta. destruct (in_set _ seen) eqn:E; [done|]. intros H. apply IH in H as [H1 H2]. apply in_set_false in E. split.
    + apply NoDup_cons. split; [|done]. intros Hin. apply list_elem_of_In, in_map_iff in Hin as (m & Em & Hm).
      apply (H2 m); [by apply list_elem_of_In|]. rewrite Em. left.
    + intros m [-> |Hm]%elem_of_cons; [done|]. intros Hx. apply (H2 m Hm). by right.
Qed.

Lemma first_taken_none taken names :
  first_taken taken names = None -> Forall (fun n => toLowerCase n ∉ map toLowerCase taken) names.
Proof.
  intros H. apply Forall_forall. intros n Hn. apply in_set_false, (List.find_none _ _ H). by apply list_elem_of_In.
Qed.

Lemma err_if_nil b e : err_if b e = [] -> b = false.
Proof. by destruct b. Qed.

Lemma existsb_len n (l : list string) : existsb (fun c => n <? String.length c)%nat l = false -> Forall (fun c => (String.length c <= n)%nat) l.
Proof.
  intros H. apply Forall_forall. intros c Hc. apply Nat.nlt_ge. intros Hlt. apply not_true_iff_false in H. apply H, existsb_exists.
  exists c. split; [by apply list_elem_of_In|]. by apply Nat.ltb_lt.
Qed.

Lemma intField_range s lo hi n : intField s lo hi = Some n -> lo <= n <= hi.
Proof. unfold intField. cbv zeta. destruct (_ || _); [done|]. destruct (_ && _) eqn:E; [|done]. intros [= <-]. lia. Qed.

Lemma numbered_length p z n : length (numbered p z n) = n.
Proof. unfold numbered. rewrite length_map, length_seqZ. lia. Qed.

Lemma numbered_nonempty p z n : p <> "" -> Forall (fun s => s <> "") (numbered p z n).
Proof. intros Hp. apply Forall_forall. intros s Hs. apply list_elem_of_In, in_map_iff in Hs as (i & <- & _). by destruct p. Qed.

Lemma bulk_names_ok s names :
  bulk_names s = (names, []) -> (1 <= length names <= 500)%nat /\ Forall (fun n => n <> "") names.
Proof.
  unfold bulk_names. destruct (b_names s).
  - set (l := List.filter _ _). intros [= <- [H1%err_if_nil%Nat.eqb_neq H2%err_if_nil%Nat.ltb_ge]%app_eq_nil]. split; [lia|].
    apply Forall_forall. intros n Hn. apply list_elem_of_In, filter_In in Hn as [_ Hn]. apply negb_true_iff, String.eqb_neq in Hn. done.
  - destruct (intField (b_count s) 1 500) as [c|] eqn:Ec; [|done].
    destruct (String.eqb_spec (trim (b_prefix s)) "") as [|Hp]; [done|].
    destruct (intField (b_start s) 0 999999999) as [z|]; [|intros [= _ [_ H]%app_eq_nil]; done].
    intros [= <- _]. rewrite numbered_length. apply intField_range in Ec. split; [lia|by apply numbered_nonempty].
Qed.

Lemma bulk_codes_ok s names used codes :
  bulk_codes s names used = (codes, []) ->
  length codes = length names /\
  (Forall (fun c => c = None) codes \/
   exists cs, codes = map Some cs /\ NoDup (map toLowerCase cs) /\
     Forall (fun c => (String.length c <= 32)%nat) cs /\ Forall (fun c => toLowerCase c ∉ map toLowerCase used) cs).
Proof.
  unfold bulk_codes. cbv zeta. assert (Hnone : Forall (fun c => c = None) (map (fun _ : string => @None string) names)).
  { apply Forall_forall. intros c Hc. by apply list_elem_of_In, in_map_iff in Hc as (? & <- & _). }
  destruct (String.eqb (trim (b_codePrefix s)) "").
  - intros [= <-]. rewrite length_map. split; [done|by left].
  - destruct (intField _ _ _) as [z|]; [|intros [= _ [_ H]%app_eq_nil]; done].
    intros [= <- [_ [H1%err_if_nil H2]%app_eq_nil]%app_eq_nil]. rewrite length_map, numbered_length. split; [done|]. right.
    eexists. split; [done|]. split; [apply numbered_NoDup|]. split; [by apply existsb_len|].
    apply first_taken_none. by destruct (first_taken _ _).
Qed.

(** A batch without errors can be created.  When the plan reports nothing
    wrong it has between one and five hundred names, none empty or longer than 128
    characters, all different whatever their case and none used under the parent;
    and either no codes, or one for each name, all different, at most 32
    characters long and used by no location. *)
Theorem bulk_plan_has_no_collisions (s : bulk) (parent : string) (siblings used names : list string) (codes : list (option string)) :
  bulkPlan s parent siblings used = (names, codes, []) ->
  (1 <= length names <= 500)%nat /\ Forall (fun n => n <> "" /\ (String.length n <= 128)%nat) names /\
  NoDup (map toLowerCase names) /\ Forall (fun n => toLowerCase n ∉ map toLowerCase siblings) names /\
  length codes = length names /\
  (Forall (fun c => c = None) codes \/
   exists cs, codes = map Some cs /\ NoDup (map toLowerCase cs) /\
     Forall (fun c => (String.length c <= 32)%nat) cs /\ Forall (fun c => toLowerCase c ∉ map toLowerCase used) cs).
Proof.
  unfold bulkPlan. destruct (bulk_names s) as [ns e1] eqn:En. destruct (bulk_codes s ns used) as [cs e5] eqn:Ec.
  intros [= -> -> H]. apply app_eq_nil in H as [-> H]. apply app_eq_nil in H as [H2%err_if_nil H]. apply app_eq_nil in H as [H3 H].
  apply app_eq_nil in H as [H4 ->]. apply bulk_names_ok in En as [Hn He]. apply bulk_codes_ok in Ec as [Hl Hc].
  assert (E3 : first_dupe [] names = None) by (by destruct (first_dupe [] names)). apply first_dupe_none in E3 as [Hd _].
  assert (E4 : first_taken siblings names = None) by (by destruct (first_taken siblings names)). apply first_taken_none in E4.
  split_and!; [lia|lia| |done|done|done|done]. apply Forall_and. split; [done|by apply existsb_len].
Qed.

Definition demo_bulk : bulk := Bulk false "" "2" "9" "Bin-" "B" "1".

Lemma bulk_plan_has_no_collisions_witness : NoDup (map toLowerCase ["Bin-9"; "Bin-10"]).
Proof.
  destruct (bulk_plan_has_no_collisions demo_bulk "Rack" ["Bin-1"] ["A1"] ["Bin-9"; "Bin-10"] [Some "B1"; Some "B2"]) as (_ & _ & H & _);
    [reflexivity|exact H].
Defined.

(** ** Specs *)

(** The names that can be stored: trimmed, and not inherited by every object. *)
Definition spec_key (k : string) : Prop := trim k = k /\ k <> "" /\ existsb (String.eqb k) inherited = false.

Lemma take_rows_untouched parse i f out :
  Forall (fun kv => spec_key kv.1) f -> NoDup (map fst (out ++ f)) ->
  take_rows parse i (map (fun kv => SRow kv.1 (specText kv.2) (Some kv.2)) f) out = inr (out ++ f).
Proof.
  revert i out. induction f as [|[k v] f IH]; intros i out Hk Hn; [cbn; by rewrite app_nil_r|].
  apply Forall_cons in Hk as [(Ht & Hne & Hi) Hk]. cbn [fst] in *. cbn [map take_rows r_key r_text]. cbv zeta. cbn [fst snd]. rewrite Ht.
  rewrite (proj2 (String.eqb_neq _ _) Hne). unfold in_set. rewrite Hi, orb_false_r, bool_decide_eq_false_2.
  - unfold row_value. cbn [r_orig r_text]. rewrite String.eqb_refl. rewrite IH; [by rewrite <- app_assoc|done|by rewrite <- app_assoc].
  - rewrite map_app in Hn. apply NoDup_app in Hn as (_ & Hn & _). intros Hin. apply (Hn k Hin). cbn. left.
Qed.

(** Specs survive the editor.  An object whose names are trimmed, distinct, not
    inherited by every object and not like a secret comes back from its untouched
    rows as it was, numbers, booleans and nested values included; and whatever the
    rows hold, nothing with a secret-like name at any depth is ever returned. *)
Theorem specs_survive_the_editor (parse : string -> option value) (f : list (string * value)) (rows : list srow) (v : value) :
  (Forall (fun kv => spec_key kv.1) f -> NoDup (map fst f) -> hasSecretKey (VObj f) = false ->
    specsFromRows parse (specRows (VObj f)) = inr (match f with [] => VNull | _ => VObj f end)) /\
  (specsFromRows parse rows = inr v -> hasSecretKey v = false).
Proof.
  split.
  - intros Hk Hn Hs. unfold specsFromRows, specRows. cbn [specObject]. rewrite take_rows_untouched by done. cbn [app]. by rewrite Hs.
  - unfold specsFromRows. destruct (take_rows parse 0 rows []) as [|out]; [done|]. destruct (hasSecretKey (VObj out)) eqn:E; [done|].
    intros [= <-]. by destruct out.
Qed.

(** ** Levels *)

(** The types the form offers under a parent are those the move check accepts. *)
Lemma level_rules_agree (type : string) (parent : option string) :
  legalUnder type parent = true <-> type ∈ childTypesFor parent.
Proof.
  unfold legalUnder, childTypesFor. destruct (String.eqb_spec type "property") as [-> |Hp]; destruct parent as [p|].
  - split; [done|]. unfold LOC_CHILD_LEVEL. repeat case_match; rewrite ?elem_of_cons, ?elem_of_nil; naive_solver.
  - split; [left|done].
  - rewrite orb_true_iff, String.eqb_eq. destruct (LOC_CHILD_LEVEL p); rewrite ?String.eqb_eq, !elem_of_cons, elem_of_nil; naive_solver.
  - rewrite elem_of_cons, elem_of_nil. naive_solver.
Qed.
