(* ===== verification/Allocations.v ===== *)
(** * Commitments of units to projects (screens4.jsx, Inventory)

    The inventory screen's working copy: the units with their stock status and
    place, and the allocations of the project boards.  Each mutation is the update
    its handler hands to [setInv]; the buttons of the board and the commit dialog
    give the steps. *)

From Stdlib Require Import ZArith Lia.
From stdpp Require Import strings gmap relations list.
From S2P Require Import Prelude.

Local Open Scope Z_scope.

(** ** Data *)

Inductive stock := in_stock | allocated | deployed | consumed | retired.
Inductive amode := needed | committed | installed | returned.

#[global] Instance amode_eq_dec : EqDecision amode.
Proof. solve_decision. Defined.

Record unit_row := UnitRow { u_id : Z; u_location : option Z; u_stock : stock }.
Record alloc := Alloc { a_id : Z; a_project : Z; a_unit : option Z; a_model : option Z; a_mode : amode; a_qty : Z; a_deleted : bool }.
Record project := Project { p_id : Z; p_tray : option Z }.
Record inv := Inv { units : list unit_row; allocations : list alloc }.

(** ** Operations *)

Definition nextId (ids : list Z) : Z := fold_left (fun m x => Z.max m x) ids 0 + 1.

(** [v || w] for ids. *)
Definition id_or (v w : option Z) : option Z := match v with Some z => if z =? 0 then w else v | None => w end.

Definition active (a : alloc) : Prop := (a_mode a = committed \/ a_mode a = installed) /\ a_deleted a = false.

#[global] Instance active_dec a : Decision (active a).
Proof. unfold active. apply _. Defined.

Definition unitCommitment (i : inv) (u : Z) : option alloc :=
  snd <$> list_find (fun a => a_unit a = Some u /\ active a) (allocations i).

Definition set_stock (st : stock) (u : unit_row) : unit_row := UnitRow (u_id u) (u_location u) st.

Definition elsewhere (p : project) (u : Z) (i : inv) : bool :=
  match unitCommitment i u with Some a => negb (a_project a =? p_id p) | None => false end.

(** [None] is the rejected promise. *)
Definition commitUnit (p : project) (u : Z) (mode : amode) (i : inv) : option inv :=
  if elsewhere p u i then None
  else
    let al := Alloc (nextId (map a_id (allocations i))) (p_id p) (Some u) None mode 1 false in
    let move x := if u_id x =? u
                  then UnitRow (u_id x) (id_or (p_tray p) (u_location x)) (if decide (mode = installed) then deployed else allocated)
                  else x in
    Some (Inv (map move (units i)) (allocations i ++ [al])).

Definition addNeeded (p : project) (model qty : Z) (i : inv) : inv :=
  Inv (units i) (allocations i ++
    [Alloc (nextId (map a_id (allocations i))) (p_id p) None (Some model) needed (if qty =? 0 then 1 else qty) false]).

Definition stock_of (mode : amode) : option stock :=
  match mode with installed => Some deployed | committed => Some allocated | returned => Some in_stock | needed => None end.

Definition set_mode (mode : amode) (a : alloc) : alloc :=
  Alloc (a_id a) (a_project a) (a_unit a) (a_model a) mode (a_qty a) (a_deleted a).

Definition setAllocation (id : Z) (mode : amode) (i : inv) : inv :=
  let al := snd <$> list_find (fun a => a_id a = id) (allocations i) in
  let u := match al with Some a => id_or (a_unit a) None | None => None end in
  Inv (match u, stock_of mode with
       | Some u, Some st => map (fun x => if u_id x =? u then set_stock st x else x) (units i)
       | _, _ => units i
       end)
      (map (fun a => if a_id a =? id then set_mode mode a else a) (allocations i)).

Definition removeAllocation (id : Z) (i : inv) : inv :=
  Inv (units i) (List.filter (fun a => negb (a_id a =? id)) (allocations i)).

(** What the buttons offer: a card's mode decides which of them it has. *)
Inductive board_step (i : inv) : inv -> Prop :=
  | Commit p u mode i' : mode = committed \/ mode = installed -> commitUnit p u mode i = Some i' -> board_step i i'
  | Need p model qty : board_step i (addNeeded p model qty i)
  | MarkInstalled a : a ∈ allocations i -> a_mode a = committed -> board_step i (setAllocation (a_id a) installed i)
  | UnInstall a : a ∈ allocations i -> a_mode a = installed -> board_step i (setAllocation (a_id a) committed i)
  | Return a : a ∈ allocations i -> a_mode a = committed \/ a_mode a = installed -> board_step i (setAllocation (a_id a) returned i)
  | Clear a : a ∈ allocations i -> a_mode a = returned \/ a_mode a = needed -> board_step i (removeAllocation (a_id a) i).

(** ** One project per unit *)

Record inv_ok (i : inv) : Prop := {
  i_ids : NoDup (map a_id (allocations i));
  i_one : forall a b u, a ∈ allocations i -> b ∈ allocations i -> active a -> active b ->
            a_unit a = Some u -> a_unit b = Some u -> a_project a = a_project b }.

Lemma nextId_fresh ids : nextId ids ∉ ids.
Proof.
  assert (H : forall m x, m <= fold_left (fun m x => Z.max m x) ids m /\ (x ∈ ids -> x <= fold_left (fun m x => Z.max m x) ids m)).
  { induction ids as [|y r IH]; intros m x; cbn [fold_left]; [split; [lia|by intros ?%not_elem_of_nil]|].
    destruct (IH (Z.max m y) x) as [H1 H2]. split; [lia|]. intros [-> |Hx]%elem_of_cons; [lia|by apply H2]. }
  intros Hin. apply (H 0) in Hin. unfold nextId in Hin. lia.
Qed.

Lemma ids_snoc l a : a_id a = nextId (map a_id l) -> NoDup (map a_id l) -> NoDup (map a_id (l ++ [a])).
Proof.
  intros Ha Hn. rewrite map_app. apply NoDup_app. split; [done|]. split; [|apply NoDup_singleton].
  cbn [map]. intros x Hx ->%list_elem_of_singleton. rewrite Ha in Hx. by apply nextId_fresh in Hx.
Qed.

Lemma same_id l a b : NoDup (map a_id l) -> a ∈ l -> b ∈ l -> a_id a = a_id b -> a = b.
Proof.
  intros Hn [i Ha]%list_elem_of_lookup_1 [j Hb]%list_elem_of_lookup_1 E.
  assert (i = j) as ->.
  { apply (NoDup_lookup (map a_id l) i j (a_id a) Hn); change (map a_id l) with (a_id <$> l); rewrite list_lookup_fmap; [by rewrite Ha|by rewrite Hb, E]. }
  congruence.
Qed.

Lemma commitment_found i a u : a ∈ allocations i -> active a -> a_unit a = Some u -> exists b, unitCommitment i u = Some b /\ b ∈ allocations i /\ active b /\ a_unit b = Some u.
Proof.
  intros Ha Hact Hu. unfold unitCommitment. destruct (list_find _ _) as [[k b]|] eqn:E.
  - apply list_find_Some in E as (Hk & [Hbu Hb] & _). exists b. split; [done|]. split; [by eapply list_elem_of_lookup_2|done].
  - exfalso. apply list_find_None in E. rewrite Forall_forall in E. by apply (E a Ha).
Qed.

Lemma commit_ok p u mode i i' : inv_ok i -> commitUnit p u mode i = Some i' -> inv_ok i'.
Proof.
  intros [H1 H2]. unfold commitUnit. cbv zeta. destruct (elsewhere p u i) eqn:Hg; [done|]. unfold elsewhere in Hg. intros [= <-]. split; cbn [allocations].
  - by apply ids_snoc.
  - assert (Hnew : forall b, b ∈ allocations i -> active b -> a_unit b = Some u -> a_project b = p_id p).
    { intros b Hb Hact Hu. destruct (commitment_found i b u Hb Hact Hu) as (c & E & Hc & Hca & Hcu). rewrite E in Hg.
      apply negb_false_iff, Z.eqb_eq in Hg. rewrite <- Hg. by eapply H2. }
    intros a b v Ha Hb Hact Hbct Hav Hbv. apply elem_of_app in Ha as [Ha| ->%list_elem_of_singleton], Hb as [Hb| ->%list_elem_of_singleton].
    + by eapply H2.
    + injection Hbv as <-. by apply Hnew.
    + injection Hav as <-. symmetry. by apply Hnew.
    + done.
Qed.

Lemma needed_ok p model qty i : inv_ok i -> inv_ok (addNeeded p model qty i).
Proof.
  intros [H1 H2]. split; cbn [addNeeded allocations]; [by apply ids_snoc|].
  intros a b v Ha Hb Hact Hbct Hav Hbv. apply elem_of_app in Ha as [Ha| ->%list_elem_of_singleton]; [|done].
  apply elem_of_app in Hb as [Hb| ->%list_elem_of_singleton]; [|done]. by eapply H2.
Qed.

(** A mode change that commits nothing new. *)
Lemma set_ok a mode i :
  a ∈ allocations i -> a_mode a = committed \/ a_mode a = installed -> inv_ok i -> inv_ok (setAllocation (a_id a) mode i).
Proof.
  intros Ha Hm [H1 H2]. split; cbn [setAllocation allocations].
  - rewrite map_map. replace (map _ (allocations i)) with (map a_id (allocations i)); [done|].
    apply map_ext. intros x. by destruct (a_id x =? a_id a).
  - assert (Hback : forall b, b ∈ map (fun x => if a_id x =? a_id a then set_mode mode x else x) (allocations i) -> active b ->
      exists c, c ∈ allocations i /\ active c /\ a_unit c = a_unit b /\ a_project c = a_project b).
    { intros b Hb Hact. apply list_elem_of_In, in_map_iff in Hb as (x & Ex & Hx). apply list_elem_of_In in Hx.
      destruct (Z.eqb_spec (a_id x) (a_id a)) as [E|E]; subst b; [|by exists x].
      assert (x = a) as -> by (by apply (same_id (allocations i))). exists a. split_and!; [done| |done..].
      destruct Hact as [_ Hd]. by split. }
    intros b c u Hb Hc Hbact Hcact Hbu Hcu. destruct (Hback b Hb Hbact) as (b' & ? & ? & Eb & <-). destruct (Hback c Hc Hcact) as (c' & ? & ? & Ec & <-).
    apply (H2 b' c' u); [done..|congruence|congruence].
Qed.

Lemma remove_ok id i : inv_ok i -> inv_ok (removeAllocation id i).
Proof.
  intros [H1 H2]. split; cbn [removeAllocation allocations].
  - induction (allocations i) as [|x l IH]; [done|]. cbn [map List.filter] in *. apply NoDup_cons in H1 as [Hx H1].
    assert (IH' := IH H1 ltac:(intros a b u Ha Hb; apply H2; by right)). destruct (negb _); [|done]. cbn [map]. apply NoDup_cons. split; [|done].
    intros Hin. apply Hx. apply list_elem_of_In, in_map_iff in Hin as (y & Ey & Hy). apply filter_In in Hy as [Hy _].
    apply list_elem_of_In, in_map_iff. by exists y.
  - intros a b u Ha Hb. apply list_elem_of_In, filter_In in Ha as [Ha _]. apply list_elem_of_In, filter_In in Hb as [Hb _].
    apply H2; by apply list_elem_of_In.
Qed.

Lemma board_step_ok i i' : inv_ok i -> board_step i i' -> inv_ok i'.
Proof.
  intros Hok. destruct 1; [by eapply commit_ok|by apply needed_ok|by apply set_ok; [|left|]|by apply set_ok; [|right|]|by apply set_ok|by apply remove_ok].
Qed.

(** C14: a unit is committed to one project.  From a working copy in which no unit
    is committed or installed in two projects, no sequence of the board's buttons
    and the commit dialog leads to one in which a unit is; and the ids of the
    allocations stay distinct, so a button acts on its own card only. *)
Theorem units_belong_to_one_project (i i' : inv) :
  inv_ok i -> rtc board_step i i' ->
  NoDup (map a_id (allocations i')) /\
  forall a b u, a ∈ allocations i' -> b ∈ allocations i' -> active a -> active b -> a_unit a = Some u -> a_unit b = Some u ->
    a_project a = a_project b.
Proof.
  intros Hok H. assert (Hok' : inv_ok i') by (induction H as [|x y z Hs _ IH]; [done|]; apply IH; by eapply board_step_ok).
  by destruct Hok'.
Qed.

(** ** A second commitment to the same project *)

Lemma commit_again p u mode i i1 : commitUnit p u mode i = Some i1 -> elsewhere p u i1 = false.
Proof.
  unfold commitUnit. destruct (elsewhere p u i) eqn:Hg; [done|]. intros [= <-]. revert Hg. unfold elsewhere, unitCommitment. cbn [allocations].
  destruct (list_find _ (allocations i)) as [[k a]|] eqn:E.
  - by rewrite (list_find_app_l _ _ _ _ _ E).
  - intros _. rewrite (list_find_app_r _ _ _ E). cbn [list_find]. destruct (decide _); [|done]. cbn. by rewrite Z.eqb_refl.
Qed.

Lemma commit_adds p u mode i i1 :
  commitUnit p u mode i = Some i1 -> mode = committed \/ mode = installed ->
  exists a, a ∈ allocations i1 /\ active a /\ a_unit a = Some u.
Proof.
  unfold commitUnit. destruct (elsewhere p u i); [done|]. intros [= <-] Hm. eexists. cbn [allocations]. rewrite elem_of_app, list_elem_of_singleton.
  split; [by right|]. split; [|done]. by split.
Qed.

(** Committing twice frees a unit that is in use.  The guard lets a unit be
    committed again to the project it is committed to; when one of the two cards
    is returned, the unit reads as in stock although the other card still holds
    it. *)
Theorem double_commit_frees_unit (p : project) (u : Z) (i i1 : inv) :
  u <> 0 -> commitUnit p u committed i = Some i1 ->
  exists i2, commitUnit p u committed i1 = Some i2 /\
    let i3 := setAllocation (nextId (map a_id (allocations i1))) returned i2 in
    (forall x, x ∈ units i3 -> u_id x = u -> u_stock x = in_stock) /\
    exists b, unitCommitment i3 u = Some b /\ b ∈ allocations i3 /\ active b /\ a_unit b = Some u.
Proof.
  intros Hu H1. assert (He : elsewhere p u i1 = false) by (by eapply commit_again).
  unfold commitUnit at 1. rewrite He. eexists. split; [done|]. cbv zeta.
  set (al2 := Alloc (nextId _) _ _ _ _ _ _).
  assert (Hfind : list_find (fun a => a_id a = nextId (map a_id (allocations i1))) (allocations i1 ++ [al2]) = Some (length (allocations i1), al2)).
  { apply list_find_Some. split; [by rewrite lookup_app_r, Nat.sub_diag|]. split; [done|]. intros j y Hj Hlt Ey.
    rewrite lookup_app_l in Hj by done. apply (nextId_fresh (map a_id (allocations i1))). rewrite <- Ey.
    apply list_elem_of_In, in_map, list_elem_of_In. by eapply list_elem_of_lookup_2. }
  unfold setAllocation. cbn [units allocations]. rewrite Hfind. cbn [fmap option_fmap option_map snd a_unit al2 id_or stock_of].
  rewrite (proj2 (Z.eqb_neq u 0) Hu). split.
  - intros x Hx Ex. apply list_elem_of_In, in_map_iff in Hx as (y & <- & _). destruct (u_id y =? u) eqn:E; [done|]. apply Z.eqb_neq in E. done.
  - destruct (commit_adds _ _ _ _ _ H1) as (al1 & Hin & Hact & Hunit); [by left|].
    match goal with |- exists b, unitCommitment ?j u = _ /\ _ => apply (commitment_found j al1 u); [|done|done] end. cbn [allocations]. apply list_elem_of_In, in_map_iff. exists al1. split.
    + destruct (Z.eqb_spec (a_id al1) (nextId (map a_id (allocations i1)))) as [E|]; [|done]. exfalso.
      apply (nextId_fresh (map a_id (allocations i1))). rewrite <- E. apply list_elem_of_In, in_map. by apply list_elem_of_In.
    + apply in_app_iff. left. by apply list_elem_of_In.
Qed.

Definition demo_inv : inv := Inv [UnitRow 7 None in_stock] [].
Definition demo_project : project := Project 1 (Some 3).

Lemma units_belong_to_one_project_witness :
  exists i', rtc board_step demo_inv i' /\ NoDup (map a_id (allocations i')).
Proof.
  destruct (commitUnit demo_project 7 committed demo_inv) as [i1|] eqn:E; [|discriminate E].
  assert (H : rtc board_step demo_inv i1) by (eapply rtc_l; [apply (Commit _ demo_project 7 committed); [by left|exact E]|apply rtc_refl]).
  exists i1. split; [exact H|]. apply (units_belong_to_one_project demo_inv i1); [|exact H].
  split; [apply NoDup_nil_2|]. intros a b u Ha. by apply not_elem_of_nil in Ha.
Defined.

Lemma double_commit_frees_unit_witness :
  exists i1 i2, commitUnit demo_project 7 committed demo_inv = Some i1 /\ commitUnit demo_project 7 committed i1 = Some i2.
Proof.
  destruct (commitUnit demo_project 7 committed demo_inv) as [i1|] eqn:E; [|discriminate E].
  destruct (double_commit_frees_unit demo_project 7 demo_inv i1) as (i2 & E2 & _); [discriminate|exact E|].
  exists i1, i2. split; [reflexivity|exact E2].
Defined.
