(* ===== verification/ScanDesk.v ===== *)
(** * The scan desk (screens8.jsx)

    [ScanCapture] turns the keystrokes of a barcode reader into codes: its input
    field, and a listener on the window for keys that arrive while the focus is
    elsewhere.  [CodesScreen] looks each code up and acts on the answer, in a
    context that the bins and projects scanned before have armed.  The
    handlers of the answers read the context and the card from refs, which hold what
    the last render saw: the renders are events of their own. *)

From Stdlib Require Import ZArith Lia Ascii.
From Corelib Require Import SpecFloat.
From stdpp Require Import strings pretty gmap relations list.
From S2P Require Import Prelude JsNum JsValue.

Local Open Scope string_scope.
Local Open Scope list_scope.
Local Open Scope Z_scope.

(** ** Capturing a code *)

Definition BURST_MS : Z := 300.

(** The buffer, the time of the last key, and whether it was edited by hand. *)
Record capture := Capture { buf : string; lastTs : Z; manual : bool }.

Inductive out := Scan (code : string) | Cleared.

Definition submit (s : capture) : capture * list out :=
  let code := trim (buf s) in
  (Capture "" (lastTs s) false, if (2 <=? String.length code)%nat then [Scan code] else []).

(** A key that comes late on a buffer the reader filled. *)
Definition late (now : Z) (s : capture) : bool :=
  (BURST_MS <? now - lastTs s) && negb (manual s) && negb (String.eqb (buf s) "").

Definition onChange (next : string) (now : Z) (s : capture) : capture :=
  let keystroke := (String.length next =? String.length (buf s) + 1)%nat && starts_with (buf s) next in
  Capture next now (if keystroke then manual s || late now s else true).

Inductive key := Enter | Escape | Printable (c : ascii).

(** The field's [onKeyDown]; a printable key reaches it as a change. *)
Definition onKeyDown (k : key) (s : capture) : capture * list out :=
  match k with
  | Enter => submit s
  | Escape => (Capture "" (lastTs s) false, [Cleared])
  | Printable _ => (s, [])
  end.

(** The window's listener; [ignored] when a modal, the palette or another field
    has the keyboard, or a modifier is held. *)
Definition onKey (ignored : bool) (k : key) (now : Z) (s : capture) : capture * list out :=
  if ignored then (s, [])
  else match k with
       | Enter => if (2 <=? String.length (trim (buf s)))%nat then submit s else (s, [])
       | Printable c => (Capture (if late now s then String c "" else buf s +:+ String c "") now (manual s), [])
       | Escape => (s, [])
       end.

(** A key of the reader: caught by the window, or typed into the field. *)
Record stroke := Stroke { k_window : bool; k_char : ascii; k_at : Z }.

Definition press (k : stroke) (s : capture) : capture :=
  if k_window k then (onKey false (Printable (k_char k)) (k_at k) s).1
  else onChange (buf s +:+ String (k_char k) "") (k_at k) s.

Definition typed (ks : list stroke) : string := foldr (fun k s => String (k_char k) s) "" ks.

(** The keys the window catches follow their predecessor within the burst. *)
Fixpoint burst (t : Z) (ks : list stroke) : Prop :=
  match ks with
  | [] => True
  | k :: r => (k_window k = true -> k_at k - t <= BURST_MS) /\ burst (k_at k) r
  end.

Lemma press_in_burst k s : (k_window k = true -> k_at k - lastTs s <= BURST_MS) ->
  buf (press k s) = buf s +:+ String (k_char k) "" /\ lastTs (press k s) = k_at k.
Proof.
  intros H. unfold press. destruct (k_window k); [|done]. cbn [onKey fst buf lastTs]. split; [|done].
  unfold late. rewrite (proj2 (Z.ltb_ge _ _)) by (by apply H). done.
Qed.

Lemma press_burst ks s : burst (lastTs s) ks -> buf (foldl (fun s k => press k s) s ks) = buf s +:+ typed ks.
Proof.
  revert s. induction ks as [|k ks IH]; intros s Hb; cbn [foldl]; [by rewrite string_app_nil_r|]. destruct Hb as [Hk Hb].
  destruct (press_in_burst k s Hk) as [E Et]. rewrite IH by (by rewrite Et). rewrite E, string_app_assoc. done.
Qed.

(** A scan is read whole.  Whatever a reader left behind in an unedited buffer,
    a burst of keys whose first is caught by the window after the pause that tells
    scans apart (or that starts on an empty buffer), and whose others arrive
    through the window within the burst or through the field at any pace, followed
    by Enter on either, hands over exactly the code that was keyed, once, and
    leaves an empty buffer for the next. *)
Theorem scan_is_read_whole (s : capture) (k : stroke) (ks : list stroke) (now : Z) :
  buf s = "" \/ (manual s = false /\ k_window k = true /\ BURST_MS < k_at k - lastTs s) ->
  burst (k_at k) ks -> (2 <= String.length (trim (typed (k :: ks))))%nat ->
  let s' := foldl (fun s k => press k s) s (k :: ks) in
  let done := (Capture "" (lastTs s') false, [Scan (trim (typed (k :: ks)))]) in
  onKeyDown Enter s' = done /\ onKey false Enter now s' = done.
Proof.
  intros Hs Hb Hl. cbv zeta. set (s' := foldl _ _ _).
  assert (Hfirst : buf (press k s) = String (k_char k) "" /\ lastTs (press k s) = k_at k).
  { unfold press. destruct Hs as [Hs|(Hm & Hw & Hlate)].
    - destruct (k_window k); [|by rewrite Hs]. cbn [onKey fst buf lastTs]. unfold late. rewrite Hs. by rewrite andb_false_r.
    - rewrite Hw. cbn [onKey fst buf lastTs]. split; [|done]. unfold late. rewrite (proj2 (Z.ltb_lt _ _) Hlate), Hm.
      destruct (String.eqb_spec (buf s) "") as [E|]; [|done]. by rewrite E. }
  assert (E : buf s' = typed (k :: ks)).
  { unfold s'. cbn [foldl]. rewrite press_burst by (by rewrite (proj2 Hfirst)). by rewrite (proj1 Hfirst). }
  assert (H : submit s' = (Capture "" (lastTs s') false, [Scan (trim (typed (k :: ks)))])).
  { unfold submit. cbv zeta. rewrite E. by rewrite (proj2 (Nat.leb_le _ _) Hl). }
  split; [exact H|]. cbn [onKey]. rewrite E, (proj2 (Nat.leb_le _ _) Hl). exact H.
Qed.

Definition demo_strokes : list stroke := [Stroke false "4" 1010; Stroke false "2" 1020].

Lemma scan_is_read_whole_witness :
  (onKeyDown Enter (foldl (fun s k => press k s) (Capture "OLD" 10 false) (Stroke true "X" 1000 :: demo_strokes))).2 = [Scan "X42"].
Proof.
  destruct (scan_is_read_whole (Capture "OLD" 10 false) (Stroke true "X" 1000) demo_strokes 1030) as [H _];
    [right; split; [reflexivity|split; [reflexivity|unfold BURST_MS; cbn; lia]]|cbn; intuition discriminate|vm_compute; lia|].
  rewrite H. reflexivity.
Defined.

(** ** Acting on a code *)

(** The ids of the rows are what the screen passes on. *)
Inductive context := Idle | AtLocation (l : Z) | AtProject (p : Z).
Inductive subject := Location (l : Z) | Project (p : Z) | Hardware (u : Z) | Port (q : Z).
Inductive answer := NotFound (code : string) | Deleted | Found (s : subject) | Failed.
Inductive card := CLocation (l : Z) | CProject (p : Z) | CUnit (u : Z) | CPort (q : Z).

#[global] Instance card_eq_dec : EqDecision card.
Proof. solve_decision. Defined.

Inductive request :=
  | Lookup (code : string) | GetHistory | GetRefs | GetContents (l : Z) | GetRollup (p : Z)
  | MoveUnit (u l : Z) | AssociateUnit (p u : Z) | AssociateBin (p l : Z).

(** The state, and the two refs that hold what the last render saw of it. *)
Record desk := Desk { d_ctx : context; d_card : option card; d_receive : option string; d_print : option Z; d_move : option Z;
                      d_ctxRef : context; d_cardRef : option card }.

Definition set_ctx (c : context) (d : desk) : desk := Desk c (d_card d) (d_receive d) (d_print d) (d_move d) (d_ctxRef d) (d_cardRef d).
Definition set_card (c : card) (d : desk) : desk := Desk (d_ctx d) (Some c) (d_receive d) (d_print d) (d_move d) (d_ctxRef d) (d_cardRef d).

(** [ctxRef.current = ctx; cardRef.current = card]. *)
Definition render (d : desk) : desk := Desk (d_ctx d) (d_card d) (d_receive d) (d_print d) (d_move d) (d_ctx d) (d_card d).

Definition refreshCard (d : desk) : list request :=
  match d_cardRef d with
  | Some (CLocation l) => [GetContents l]
  | Some (CProject p) => [GetRollup p]
  | _ => []
  end.

(** [onScan]'s handler of a lookup's answer. *)
Definition onAnswer (a : answer) (d : desk) : desk * list request :=
  match a with
  | Failed => (d, [])
  | NotFound code => (Desk (d_ctx d) (d_card d) (Some code) (d_print d) (d_move d) (d_ctxRef d) (d_cardRef d), [GetHistory])
  | Deleted => (d, [GetHistory])
  | Found (Location l) =>
      match d_ctxRef d with
      | AtProject p => (d, [GetHistory; AssociateBin p l])
      | _ => (set_ctx (AtLocation l) d, [GetHistory; GetContents l])
      end
  | Found (Project p) => (set_ctx (AtProject p) d, [GetHistory; GetRollup p])
  | Found (Hardware u) =>
      match d_ctxRef d with
      | AtLocation l => (d, [GetHistory; MoveUnit u l])
      | AtProject p => (d, [GetHistory; AssociateUnit p u])
      | Idle => (set_card (CUnit u) d, [GetHistory])
      end
  | Found (Port q) => (set_card (CPort q) d, [GetHistory])
  end.

(** [onReceived] and [onMoved]. *)
Definition onReceived (u : Z) (tag : option Z) (d : desk) : desk * list request :=
  (Desk (d_ctx d) (Some (CUnit u)) None (match tag with Some t => Some t | None => d_print d end) (d_move d) (d_ctxRef d) (d_cardRef d),
   [GetHistory; GetRefs]).

Definition onMoved (u : Z) (d : desk) : desk * list request :=
  let same := bool_decide (d_cardRef d = Some (CUnit u)) in
  (Desk (d_ctx d) (if same then Some (CUnit u) else d_card d) (d_receive d) (d_print d) None (d_ctxRef d) (d_cardRef d),
   (if same then [] else refreshCard d) ++ [GetHistory]).

(** The stamp a printed label leaves on a unit card's chips is not tracked. *)
Definition onPrinted (row : option Z) (d : desk) : desk * list request :=
  (Desk (d_ctx d) (d_card d) (d_receive d) (match row with Some t => Some t | None => d_print d end) (d_move d) (d_ctxRef d) (d_cardRef d),
   [GetHistory]).

(** [printTray]'s answer: the tray's first label, if it has one. *)
Definition onTrayTag (tag : option Z) (d : desk) : desk :=
  Desk (d_ctx d) (d_card d) (d_receive d) (match tag with Some t => Some t | None => d_print d end) (d_move d) (d_ctxRef d) (d_cardRef d).

(** A code is scanned, a lookup is answered - the scans are numbered -, a write is
    settled, a card is loaded, and so on; the page is rendered between two events. *)
Inductive event :=
  | Scanned (i : nat) (code : string) | Answered (i : nat) (a : answer) | Rendered
  | Settled (ok : bool) | Contents (l : Z) | Rollup (p : Z)
  | Received (u : Z) (tag : option Z) | Moved (u : Z) | Printed (row : option Z) | TrayTag (tag : option Z) | ClearContext.

Definition desk_step (e : event) (d : desk) : desk * list request :=
  match e with
  | Scanned _ code => (d, [Lookup code])
  | Answered _ a => onAnswer a d
  | Rendered => (render d, [])
  | Settled ok => (d, if ok then GetHistory :: refreshCard d else [])
  | Contents l => (set_card (CLocation l) d, [])
  | Rollup p => (set_card (CProject p) d, [])
  | Received u tag => onReceived u tag d
  | Moved u => onMoved u d
  | Printed row => onPrinted row d
  | TrayTag tag => (onTrayTag tag d, [])
  | ClearContext => (set_ctx Idle d, [])
  end.

(** The desk and all requests sent, in order. *)
Definition run (es : list event) (d : desk) : desk * list request :=
  foldl (fun st e => let '(d', rs) := desk_step e st.1 in (d', st.2 ++ rs)) (d, []) es.

(** ** What a scan does *)

(** What the operator did, in order: a scan by its number, or a clearing of the context. *)
Definition acts (es : list event) : list (option nat) :=
  omap (fun e => match e with Scanned i _ => Some (Some i) | ClearContext => Some None | _ => None end) es.

(** What took effect, in order: an answer, or a clearing. *)
Definition effects (es : list event) : list (option (nat * answer)) :=
  omap (fun e => match e with Answered i a => Some (Some (i, a)) | ClearContext => Some None | _ => None end) es.

(** No answer comes before the one ahead of it, or a clearing, has been rendered. *)
Definition freshness (es : list event) : bool * bool :=
  foldl (fun st e => match e with
                     | Answered _ _ => (st.1 && negb st.2, true)
                     | ClearContext => (st.1, true)
                     | Rendered => (st.1, false)
                     | _ => st
                     end) (true, false) es.

Definition rendered (es : list event) : Prop := freshness es = (true, false).

(** The answers after the last clearing, and whether there was one. *)
Definition since_clear (xs : list (option answer)) : bool * list answer :=
  foldl (fun st x => match x with Some a => (st.1, st.2 ++ [a]) | None => (true, []) end) (false, []) xs.

Definition last_project (l : list answer) : option Z :=
  foldl (fun o a => match a with Found (Project p) => Some p | _ => o end) None l.
Definition last_location (l : list answer) : option Z :=
  foldl (fun o a => match a with Found (Location l) => Some l | _ => o end) None l.

(** The last project since the context was cleared; before any, the last bin. *)
Definition armed_by (c : context) (xs : list (option answer)) : context :=
  let '(cleared, l) := since_clear xs in
  match last_project l with
  | Some p => AtProject p
  | None =>
      match (if cleared then Idle else c) with
      | AtProject p => AtProject p
      | c' => match last_location l with Some l => AtLocation l | None => c' end
      end
  end.

(** The writes due for a scan under an armed context. *)
Definition due (c : context) (a : answer) : list request :=
  match a, c with
  | Found (Hardware u), AtLocation l => [MoveUnit u l]
  | Found (Hardware u), AtProject p => [AssociateUnit p u]
  | Found (Location l), AtProject p => [AssociateBin p l]
  | _, _ => []
  end.

Definition is_write (r : request) : bool :=
  match r with MoveUnit _ _ | AssociateUnit _ _ | AssociateBin _ _ => true | _ => false end.

Definition writes (rs : list request) : list request := List.filter is_write rs.

Lemma run_snoc es e d :
  run (es ++ [e]) d = let '(d', rs) := desk_step e (run es d).1 in (d', (run es d).2 ++ rs).
Proof. unfold run. by rewrite foldl_app. Qed.

Lemma armed_snoc c xs x :
  armed_by c (xs ++ [x]) =
    match x with
    | None => Idle
    | Some (Found (Project p)) => AtProject p
    | Some (Found (Location l)) => match armed_by c xs with AtProject p => AtProject p | _ => AtLocation l end
    | _ => armed_by c xs
    end.
Proof.
  unfold armed_by, since_clear. rewrite foldl_app. cbn [foldl]. destruct (foldl _ (false, []) xs) as [cl l].
  destruct x as [a|]; [|done]. cbn [fst snd]. unfold last_project, last_location. rewrite !foldl_app. cbn [foldl].
  destruct a as [ | |[]|]; try done. destruct cl; by repeat case_match.
Qed.

Lemma refreshCard_reads d : writes (refreshCard d) = [].
Proof. unfold refreshCard. by destruct (d_cardRef d) as [[]|]. Qed.

(** The context follows the effects, and the ref the context when the page is rendered. *)
Lemma run_ctx es d :
  d_ctxRef d = d_ctx d -> (freshness es).1 = true ->
  d_ctx (run es d).1 = armed_by (d_ctx d) (map (option_map snd) (effects es)) /\
  ((freshness es).2 = false -> d_ctxRef (run es d).1 = d_ctx (run es d).1).
Proof.
  intros Hd. induction es as [|e es IH] using rev_ind; intros Hf; [split; [cbn; unfold armed_by; cbn; by destruct (d_ctx d)|done]|].
  unfold freshness in *. rewrite foldl_app in Hf |- *. cbn [foldl] in Hf |- *. set (st := foldl _ (true, false) es) in *.
  unfold effects. rewrite omap_app, map_app. fold (effects es). rewrite run_snoc.
  assert (Hsame : forall d', d_ctx d' = d_ctx (run es d).1 -> d_ctxRef d' = d_ctxRef (run es d).1 -> st.1 = true ->
    d_ctx d' = armed_by (d_ctx d) (map (option_map snd) (effects es) ++ []) /\ (st.2 = false -> d_ctxRef d' = d_ctx d')).
  { intros d' -> -> H. rewrite app_nil_r. by apply IH. }
  destruct e as [i code|i a| |ok|l|p|u tag|u|row|tag|]; cbn [desk_step omap list_omap map fst]; try (by apply Hsame).
  - cbn in Hf. apply andb_prop in Hf as [Hf Hn]. apply negb_true_iff in Hn. destruct (IH Hf) as [Hc Hr]. specialize (Hr Hn).
    cbn [option_map snd]. rewrite armed_snoc, <- Hc. split; [|done].
    destruct a as [code| |[l|p|u|q]|]; cbn [onAnswer set_card fst d_ctx]; try done;
      rewrite Hr; by destruct (d_ctx (run es d).1) eqn:E; cbn; rewrite ?E.
  - destruct (IH Hf) as [Hc _]. rewrite app_nil_r. by split.
  - cbn [option_map]. rewrite armed_snoc. by split.
Qed.


(** Where the order of the answers, or of the renders, is another.  With bin [a] armed, a
    unit is scanned and then bin [b]: the unit is moved into [a] when the answers come in
    the order of the scans, and into [b] when the unit's answer is the slower one.  And
    when bin [b] is scanned first and then the unit, in order but with both answers before
    the next render, the unit is moved into [a], the bin that was armed before. *)
Theorem late_answer_moves_to_next_bin (d : desk) (a b u : Z) (x y : string) :
  d_ctx d = AtLocation a -> d_ctxRef d = AtLocation a ->
  writes (run [Scanned 1 x; Scanned 2 y; Answered 1 (Found (Hardware u)); Rendered; Answered 2 (Found (Location b))] d).2 = [MoveUnit u a] /\
  writes (run [Scanned 1 x; Scanned 2 y; Answered 2 (Found (Location b)); Rendered; Answered 1 (Found (Hardware u))] d).2 = [MoveUnit u b] /\
  writes (run [Scanned 1 y; Scanned 2 x; Answered 1 (Found (Location b)); Answered 2 (Found (Hardware u)); Rendered] d).2 = [MoveUnit u a].
Proof.
  intros E1 E2. destruct d as [c k r p m cr kr]. cbn in E1, E2. subst c cr. by vm_compute.
Qed.

Definition desk0 : desk := Desk Idle None None None None Idle None.

(** Bin 4 and a unit are scanned, and the bin is shown before the unit's answer. *)
Definition demo_desk : list event :=
  [Scanned 0 "BIN4"; Answered 0 (Found (Location 4)); Rendered; Scanned 1 "X42"; Contents 4; Rendered].

Definition demo_ans (i : nat) : answer := if (i =? 0)%nat then Found (Location 4) else Found (Hardware 7).


Lemma late_answer_moves_to_next_bin_witness :
  writes (run [Scanned 1 "X42"; Scanned 2 "BIN5"; Answered 2 (Found (Location 5)); Rendered; Answered 1 (Found (Hardware 7))]
            (Desk (AtLocation 4) None None None None (AtLocation 4) None)).2 = [MoveUnit 7 5].
Proof.
  apply (late_answer_moves_to_next_bin (Desk (AtLocation 4) None None None None (AtLocation 4) None) 4 5 7 "X42" "BIN5"); reflexivity.
Defined.
