(* ===== verification/Freshness.v ===== *)
(** * How fresh a page is (screens.jsx)

    Every page names the sources it renders; the badge shows the worst state of
    them and the oldest success.  Times are milliseconds; a time of zero is none,
    as the source reads it. *)

From Stdlib Require Import ZArith Lia.
From stdpp Require Import strings pretty list.
From S2P Require Import Prelude.

Local Open Scope string_scope.
Local Open Scope list_scope.

(** ** Sources *)

Inductive fstate := fresh | unknown | stale.

Definition FRESH_RANK (f : fstate) : nat := match f with fresh => 0 | unknown => 1 | stale => 2 end.

Definition FRESH_LABEL (f : fstate) : string := match f with fresh => "Live" | stale => "Stale" | unknown => "Unknown" end.

Definition FRESH_MAX_AGE_MS : Z := 60000.

Record source := Source { src_label : string; src_state : string; src_last : option Z; src_attempt : option Z; src_note : option string }.

(** The fields of [S] the badge reads; [p_freshness] is [S.freshness], whose
    entries the client makes with their label. *)
Record page := Page { p_source : string; p_lastLiveAt : option Z; p_lastAttemptAt : option Z; p_freshness : list (string * source) }.

(** [t || null]. *)
Definition nonzero (t : option Z) : option Z := match t with Some t => if (t =? 0)%Z then None else Some t | None => None end.

Definition coreFreshness (s : page) : source :=
  let src := p_source s in
  Source "Core fleet data"
    (if String.eqb src "live" then "fresh" else if String.eqb src "stale" then "stale" else "unknown")
    (if String.eqb src "live" || String.eqb src "stale" then nonzero (p_lastLiveAt s) else None)
    (nonzero (p_lastAttemptAt s))
    (if String.eqb src "offline" then Some "offline demo fixture, not your fleet" else None).

Definition find_source (k : string) (l : list (string * source)) : option source :=
  snd <$> List.find (fun kv => String.eqb kv.1 k) l.

Definition freshnessSources (s : page) (keys : option (list string)) : list source :=
  map (fun k => if String.eqb k "core" then coreFreshness s
                else default (Source k "unknown" None None None) (find_source k (p_freshness s)))
    (default ["core"] keys).

(** ** The summary *)

(** [FRESH_RANK[src.state] != null ? src.state : "unknown"]. *)
Definition claimed (s : source) : fstate :=
  if String.eqb (src_state s) "fresh" then fresh else if String.eqb (src_state s) "stale" then stale else unknown.

Definition last_success (s : source) : option Z := nonzero (src_last s).

Definition overdue (now maxAge : Z) (s : source) : bool :=
  match claimed s with
  | fresh => match last_success s with Some t => (maxAge <=? now - t)%Z || (now - t <? 0)%Z | None => true end
  | _ => false
  end.

Definition effective (now maxAge : Z) (s : source) : fstate :=
  if overdue now maxAge s then match last_success s with Some _ => stale | None => unknown end else claimed s.

Definition worse (a b : fstate) : fstate := if (FRESH_RANK a <? FRESH_RANK b)%nat then b else a.

Definition older (o : option Z) (t : option Z) : option Z :=
  match t, o with Some t, Some u => if (t <? u)%Z then Some t else o | Some t, None => Some t | None, _ => o end.

Record summary := Summary { sum_state : fstate; sum_last : option Z; sum_rows : list (source * fstate * bool) }.

Definition summarizeFreshness (sources : list source) (now maxAge : Z) : summary :=
  let st := fold_left (fun st s => worse st (effective now maxAge s)) sources fresh in
  let oldest := fold_left (fun o s => older o (last_success s)) sources None in
  Summary st (match st with unknown => None | _ => oldest end)
    (map (fun s => (s, effective now maxAge s, overdue now maxAge s)) sources).

(** ** The badge's text *)

Definition freshAge (ms : Z) : string :=
  let s := Z.max 0 (ms / 1000) in
  if (s <? 60)%Z then pretty s +:+ "s"
  else if (s <? 3600)%Z then pretty (s / 60)%Z +:+ "m"
  else if (s <? 86400)%Z then pretty (s / 3600)%Z +:+ "h"
  else pretty (s / 86400)%Z +:+ "d".

(** [label] and [detail] of [FreshnessBadge]; [maxAge] is the prop, [None] or zero
    for the default. *)
Definition badge (s : page) (keys : option (list string)) (maxAge : option Z) (now : Z) : string * string :=
  let sum := summarizeFreshness (freshnessSources s keys) now (default FRESH_MAX_AGE_MS (nonzero maxAge)) in
  (FRESH_LABEL (sum_state sum),
   match sum_state sum, sum_last sum with
   | unknown, _ => "not yet loaded"
   | _, None => "last update unknown"
   | fresh, Some t => "updated " +:+ freshAge (now - t) +:+ " ago"
   | stale, Some t => "last update " +:+ freshAge (now - t) +:+ " ago"
   end).

(** ** The worst and the oldest *)

Lemma worse_rank a b : FRESH_RANK (worse a b) = Nat.max (FRESH_RANK a) (FRESH_RANK b).
Proof. by destruct a, b. Qed.

Lemma rank_inj a b : FRESH_RANK a = FRESH_RANK b -> a = b.
Proof. by destruct a, b. Qed.

(** The worst of the states, and a source that has it. *)
Lemma worst_spec {A} (f : A -> fstate) l st0 :
  let st := fold_left (fun st s => worse st (f s)) l st0 in
  (forall s, s ∈ l -> FRESH_RANK (f s) <= FRESH_RANK st) /\ FRESH_RANK st0 <= FRESH_RANK st /\
  (st = st0 \/ exists s, s ∈ l /\ f s = st).
Proof.
  revert st0. induction l as [|x l IH]; intros st0; cbn [fold_left]; [split_and!; [by intros s ?%not_elem_of_nil|done|by left]|].
  destruct (IH (worse st0 (f x))) as (H1 & H2 & H3). rewrite worse_rank in H2. split_and!.
  - intros s [-> |Hs]%elem_of_cons; [lia|by apply H1].
  - lia.
  - destruct H3 as [E|(s & Hs & E)]; [|right; exists s; split; [by right|done]]. rewrite E in *. unfold worse.
    destruct (_ <? _)%nat; [right; exists x; split; [left|done]|by left].
Qed.

Lemma oldest_spec l o0 :
  let o := fold_left (fun o s => older o (last_success s)) l o0 in
  (forall t, o = Some t -> o0 = Some t \/ exists s, s ∈ l /\ last_success s = Some t) /\
  (forall s u, s ∈ l -> last_success s = Some u -> exists t, o = Some t /\ (t <= u)%Z) /\
  (forall u, o0 = Some u -> exists t, o = Some t /\ (t <= u)%Z).
Proof.
  revert o0. induction l as [|x l IH]; intros o0; cbn [fold_left]; [split_and!; [by left|by intros s u ?%not_elem_of_nil|intros u ->; by exists u]|].
  destruct (IH (older o0 (last_success x))) as (H1 & H2 & H3).
  assert (Hx : forall u, last_success x = Some u -> exists t, older o0 (last_success x) = Some t /\ (t <= u)%Z).
  { intros u ->. cbn [older]. destruct o0 as [v|]; [destruct (Z.ltb_spec u v)|]; eexists; (split; [done|lia]). }
  split_and!.
  - intros t E. destruct (H1 t E) as [Eo|(s & Hs & Es)]; [|right; exists s; split; [by right|done]].
    destruct (last_success x) as [u|] eqn:Ex; [|by left]. cbn [older] in Eo. destruct o0 as [v|].
    + destruct (u <? v)%Z; [right; exists x; split; [left|congruence]|by left].
    + right. exists x. split; [left|congruence].
  - intros s u [-> |Hs]%elem_of_cons Eu; [|by eapply H2]. destruct (Hx u Eu) as (t & Et & Hle). destruct (H3 t Et) as (t' & E' & ?). exists t'. split; [done|lia].
  - intros u ->. assert (Hw : exists w, older (Some u) (last_success x) = Some w /\ (w <= u)%Z).
    { destruct (last_success x) as [v|]; cbn [older]; [destruct (Z.ltb_spec v u)|]; eexists; (split; [done|lia]). }
    destruct Hw as (w & Ew & ?). destruct (H3 w Ew) as (t & Et & ?). exists t. split; [done|lia].
Qed.

Lemma summary_worst sources now maxAge s :
  s ∈ sources -> FRESH_RANK (effective now maxAge s) <= FRESH_RANK (sum_state (summarizeFreshness sources now maxAge)).
Proof. intros H. by apply (worst_spec (effective now maxAge) sources fresh). Qed.

Lemma effective_fresh now maxAge s :
  effective now maxAge s = fresh -> src_state s = "fresh" /\ exists t, last_success s = Some t /\ (0 <= now - t < maxAge)%Z.
Proof.
  unfold effective, overdue, claimed. destruct (String.eqb_spec (src_state s) "fresh") as [E|].
  - destruct (last_success s) as [t|]; [|done]. destruct (_ || _) eqn:Eo; [done|]. intros _. split; [done|]. exists t. split; [done|lia].
  - by destruct (String.eqb (src_state s) "stale").
Qed.

(** A page never looks fresher than its data.  The badge shows the worst state
    of the page's sources, and one of them has it; it reads live only when every
    source claims to be fresh and succeeded, not in the future, within the allowed
    age; the age it shows is that of the oldest success, and none is shown when the
    state is unknown. *)
Theorem freshness_never_flatters (sources : list source) (now maxAge : Z) :
  let sum := summarizeFreshness sources now maxAge in
  (sum_state sum = fresh ->
     forall s, s ∈ sources -> src_state s = "fresh" /\ exists t, last_success s = Some t /\ (0 <= now - t < maxAge)%Z) /\
  (forall s, s ∈ sources -> FRESH_RANK (effective now maxAge s) <= FRESH_RANK (sum_state sum)) /\
  (sum_state sum = fresh \/ exists s, s ∈ sources /\ effective now maxAge s = sum_state sum) /\
  (forall t, sum_last sum = Some t -> (exists s, s ∈ sources /\ last_success s = Some t) /\
     forall s u, s ∈ sources -> last_success s = Some u -> (t <= u)%Z) /\
  (sum_state sum = unknown -> sum_last sum = None).
Proof.
  cbv zeta. destruct (worst_spec (effective now maxAge) sources fresh) as (_ & _ & H3).
  destruct (oldest_spec sources None) as (O1 & O2 & _). split_and!; [|by apply summary_worst|done| |].
  - intros E s Hs. apply effective_fresh. apply (summary_worst sources now maxAge) in Hs. rewrite E in Hs.
    by destruct (effective now maxAge s); [|cbn in Hs; lia..].
  - intros t E. assert (Eo : fold_left (fun o s => older o (last_success s)) sources None = Some t).
    { cbn [sum_last summarizeFreshness] in E. by destruct (fold_left _ sources fresh). }
    split; [by destruct (O1 t Eo)|]. intros s u Hs Eu. destruct (O2 s u Hs Eu) as (t' & E' & Hle). congruence.
  - cbn [sum_last sum_state summarizeFreshness]. by intros ->.
Qed.

(** A page whose core data is not live never carries the live label. *)
Lemma core_not_live s keys maxAge now :
  "core" ∈ default ["core"] keys -> p_source s <> "live" -> (badge s keys maxAge now).1 <> "Live".
Proof.
  intros Hk Hs. unfold badge. cbn [fst]. set (srcs := freshnessSources s keys).
  assert (Hc : coreFreshness s ∈ srcs).
  { apply list_elem_of_In, in_map_iff. exists "core". split; [done|]. by apply list_elem_of_In. }
  apply (summary_worst _ now (default FRESH_MAX_AGE_MS (nonzero maxAge))) in Hc. intros E.
  destruct (sum_state _); try discriminate E.
  destruct (effective_fresh now (default FRESH_MAX_AGE_MS (nonzero maxAge)) (coreFreshness s)) as [Ef _].
  - destruct (effective _ _ (coreFreshness s)); [done|cbn in Hc; lia..].
  - cbn [src_state coreFreshness] in Ef. destruct (String.eqb_spec (p_source s) "live"); [done|]. by destruct (String.eqb (p_source s) "stale").
Qed.
