(* ===== verification/Attention.v ===== *)
(** * What needs attention (screens.jsx)

    The fleet page's first rows: [buildAttention] gathers systems, probes, alerts,
    silence, drift and enrollments.  Ids are the strings the source makes of them;
    node ids are numbers or asset ids, never names that every object inherits.  The
    icon of a row is left out. *)

From Stdlib Require Import ZArith Lia Ascii Sorted.
From Corelib Require Import SpecFloat.
From stdpp Require Import strings pretty gmap list.
From S2P Require Import Prelude JsNum JsValue Mappers.

Local Open Scope string_scope.
Local Open Scope list_scope.

(** ** Data *)

Record fnode := FNode { f_id : string; f_name : string; f_state : string; f_seg : string; f_seen : option num; f_asset : bool }.
Record falert := FAlert { al_event : string; al_node : option string; al_sev : string; al_cleared : bool;
                          al_rule : string; al_name : string; al_detail : string }.
Record fprobe := FProbe { pr_id : string; pr_state : string; pr_vantages : list string; pr_label : string; pr_host : string }.

(** The live model's parts the panel reads: alerts, probes, the names of the nodes
    that are not converged, the hosts that wait for enrollment, and the sample
    interval. *)
Record live := Live { s_alerts : list falert; s_probes : list fprobe; s_drifted : list string; s_enrollments : list string; s_interval : num }.

Inductive click := OpenNode (id : string) | Nav (page : string).
Inductive severity := Crit | Warn | Info.
Record item := Item { it_key : string; it_sev : severity; it_text : string; it_sub : string; it_click : click }.

(** ** Text *)

Definition ago (min : num) : string :=
  if nlt min (ofZ 1) then "just now"
  else if nlt min (ofZ 60) then num_str min +:+ "m ago"
  else if nlt min (ofZ 1440) then num_str (nfloor (ndiv min (ofZ 60))) +:+ "h ago"
  else num_str (nfloor (ndiv min (ofZ 1440))) +:+ "d ago".

(** [s.replace(p, "")]: the first occurrence. *)
Definition remove_first (p s : string) : string :=
  match String.index 0 p s with
  | Some n => stake n s +:+ sdrop (n + String.length p) s
  | None => s
  end.

(** [parts.filter(Boolean).join(" · ")]. *)
Definition joined (parts : list string) : string := String.concat " · " (List.filter (fun s => negb (String.eqb s "")) parts).

Definition count_str (n : nat) : string := pretty (Z.of_nat n).

(** ** Staleness *)

Definition staleThresholdMin (s : live) : num :=
  let sec := if is_nan (s_interval s) || nequ (s_interval s) n0 then ofZ 15 else s_interval s in
  nmax (ofZ 2) (nceil (ndiv (nmul (ofZ 2) sec) (ofZ 60))).

Definition isStale (s : live) (n : fnode) : bool :=
  negb (f_asset n) && negb (String.eqb (f_state n) "down") && negb (String.eqb (f_state n) "retired") &&
  match f_seen n with Some m => ngt m (staleThresholdMin s) | None => false end.

(** ** buildAttention *)

Definition active_alerts (s : live) : list falert := List.filter (fun a => negb (al_cleared a)) (s_alerts s).

Definition of_node (nid : string) (a : falert) : bool := bool_decide (al_node a = Some nid).

(** [alertsByNode[nid]]. *)
Definition alerts_of (s : live) (nid : string) : list falert := List.filter (of_node nid) (active_alerts s).

(** A canonical array index. *)
Definition is_index (k : string) : bool :=
  match chars k with
  | ["0"%char] => true
  | "0"%char :: _ | [] => false
  | l => forallb is_digit l && match read_dec 0 0 l with (z, _, _) => (z <? 4294967295)%Z end
  end.

Definition index_le (a b : string) : bool :=
  match read_dec 0 0 (chars a), read_dec 0 0 (chars b) with (x, _, _), (y, _, _) => (x <=? y)%Z end.

(** [Object.keys]: indices in order, then the other keys as they were added. *)
Definition key_order (ks : list string) : list string :=
  sort_by index_le (List.filter is_index ks) ++ List.filter (fun k => negb (is_index k)) ks.

Definition alert_keys (s : live) : list string := key_order (remove_dups (omap al_node (active_alerts s))).

Definition with_sev (v : string) (l : list falert) : list falert := List.filter (fun a => String.eqb (al_sev a) v) l.

Definition alertNote (s : live) (nid : string) : string :=
  let l := alerts_of s nid in
  let c := length (with_sev "crit" l) in
  let w := length (with_sev "warn" l) in
  let bits := joined [if (c =? 0)%nat then "" else count_str c +:+ " crit"; if (w =? 0)%nat then "" else count_str w +:+ " warn"] in
  if String.eqb bits "" then "" else bits +:+ (if (length l =? 1)%nat then " alert" else " alerts").

Definition openNodeOrAlerts (fleet : list fnode) (nid : string) : click :=
  if existsb (fun n => String.eqb (f_id n) nid) fleet then OpenNode nid else Nav "alerts".

Definition in_state (v : string) (fleet : list fnode) : list fnode := List.filter (fun n => String.eqb (f_state n) v) fleet.
Definition probes_in (v : string) (s : live) : list fprobe := List.filter (fun p => String.eqb (pr_state p) v) (s_probes s).

Definition down_item (s : live) (n : fnode) : item :=
  let seen := match f_seen n with Some m => "last seen " +:+ ago m | None => "reachability lost" end in
  Item ("down-" +:+ f_id n) Crit (f_name n +:+ " is down") (joined [f_seg n; seen; alertNote s (f_id n)]) (OpenNode (f_id n)).

Definition probe_down_item (p : fprobe) : item :=
  let k := length (pr_vantages p) in
  Item ("probe-down-" +:+ pr_id p) Crit
    (if (1 <? k)%nat then pr_id p +:+ " unreachable from all " +:+ count_str k +:+ " vantages" else pr_id p +:+ " is unreachable")
    (joined [pr_label p; pr_host p]) (Nav "reachability").

(** The row of one system's alerts of one severity; none when it has none. *)
Definition alert_item (fleet : list fnode) (s : live) (sev : severity) (v prefix plural nid : string) : list item :=
  match with_sev v (alerts_of s nid) with
  | [] => []
  | first :: rest =>
      [Item (prefix +:+ nid) sev
         (match rest with
          | [] => al_rule first +:+ " — " +:+ al_name first
          | _ => count_str (S (length rest)) +:+ plural +:+ al_name first
          end) (al_detail first) (openNodeOrAlerts fleet nid)]
  end.

Definition unlisted (listed : list string) (keys : list string) : list string :=
  List.filter (fun k => negb (bool_decide (k ∈ listed))) keys.

Definition nodeless_crit (s : live) : list falert :=
  with_sev "crit" (List.filter (fun a => bool_decide (al_node a = None)) (active_alerts s)).

Definition degraded_item (s : live) (n : fnode) : item :=
  let note := alertNote s (f_id n) in
  Item ("deg-" +:+ f_id n) Warn (f_name n +:+ " is degraded")
    (joined [f_seg n; if String.eqb note "" then "over tolerance" else note]) (OpenNode (f_id n)).

Definition probe_split_item (p : fprobe) : item :=
  let bad := length (List.filter (fun o => negb (String.eqb o "ok")) (pr_vantages p)) in
  Item ("probe-split-" +:+ pr_id p) Warn
    (pr_id p +:+ " split vantage — failing from " +:+ count_str bad +:+ "/" +:+ count_str (length (pr_vantages p)))
    (joined [pr_label p; pr_host p]) (Nav "reachability").

Definition silent (s : live) (n : fnode) : bool :=
  negb (String.eqb (f_state n) "down") && negb (String.eqb (f_state n) "degraded") && isStale s n.

Definition stale_item (s : live) (n : fnode) : item :=
  Item ("stale-" +:+ f_id n) Warn
    (f_name n +:+ " silent for " +:+ remove_first " ago" (match f_seen n with Some m => ago m | None => "" end))
    (f_seg n +:+ " · expected every " +:+ num_str (ndiv (staleThresholdMin s) (ofZ 2)) +:+ "m") (OpenNode (f_id n)).

Definition drift_items (names : list string) : list item :=
  match names with
  | [] => []
  | n :: rest =>
      [Item "drift" Warn
        (match rest with [] => n +:+ " has config drift" | _ => count_str (length names) +:+ " nodes have config drift" end)
        (String.concat ", " (take 3 names) +:+
         (if (3 <? length names)%nat then " +" +:+ count_str (length names - 3) else "") +:+ " · re-push from Provisioning")
        (Nav "provision")]
  end.

Definition enroll_items (hosts : list string) : list item :=
  match hosts with
  | [] => []
  | _ =>
      [Item "enroll" Info
        (if (length hosts =? 1)%nat then "1 CSR awaiting approval" else count_str (length hosts) +:+ " CSRs awaiting approval")
        (String.concat ", " (take 3 hosts)) (Nav "provision")]
  end.

(** Sections 1 to 3: what is critical. *)
Definition crit_rows (fleet : list fnode) (s : live) : list item :=
  let down := in_state "down" fleet in
  map (down_item s) down ++
  map probe_down_item (probes_in "down" s) ++
  flat_map (alert_item fleet s Crit "crit" "crit-" " critical alerts — ") (unlisted (map f_id down) (alert_keys s)) ++
  map (fun a => Item ("crit-ev-" +:+ al_event a) Crit (al_rule a) (al_detail a) (Nav "alerts")) (nodeless_crit s).

(** Sections 4 to 8: warnings. *)
Definition warn_rows (fleet : list fnode) (s : live) : list item :=
  let degraded := in_state "degraded" fleet in
  map (degraded_item s) degraded ++
  map probe_split_item (probes_in "degraded" s) ++
  flat_map (alert_item fleet s Warn "warn" "warn-" " warnings — ")
    (unlisted (map f_id (in_state "down" fleet) ++ map f_id degraded) (alert_keys s)) ++
  map (stale_item s) (List.filter (silent s) fleet) ++
  drift_items (s_drifted s).

Definition buildAttention (fleet : list fnode) (s : live) : list item :=
  crit_rows fleet s ++ warn_rows fleet s ++ enroll_items (s_enrollments s).

(** ** The rows *)

Definition sev_rank (v : severity) : nat := match v with Crit => 0 | Warn => 1 | Info => 2 end.

Definition ranked : list item -> Prop := StronglySorted (fun a b => sev_rank (it_sev a) <= sev_rank (it_sev b)).

Definition all_sev (v : severity) (l : list item) : Prop := Forall (fun it => it_sev it = v) l.

Lemma ranked_blocks l1 l2 l3 : all_sev Crit l1 -> all_sev Warn l2 -> all_sev Info l3 -> ranked (l1 ++ l2 ++ l3).
Proof.
  intros H1 H2 H3. unfold all_sev, ranked in *. rewrite Forall_forall in H1, H2, H3.
  assert (Hc : forall v l, (forall x, x ∈ l -> it_sev x = v) -> forall l', ranked l' -> (forall x, x ∈ l' -> sev_rank v <= sev_rank (it_sev x)) -> ranked (l ++ l')).
  { intros v l. induction l as [|x l IH]; intros Hl l' Hs Hle; [done|]. cbn [app]. constructor.
    - apply IH; [intros y Hy; apply Hl; by right|done|done].
    - apply Forall_forall. intros y [Hy|Hy]%elem_of_app; rewrite (Hl x) by left; [|by apply Hle].
      rewrite (Hl y); [done|by right]. }
  apply (Hc Crit); [done| |intros; cbn; lia]. apply (Hc Warn); [done| |].
  - rewrite <- (app_nil_r l3). apply (Hc Info); [done|constructor|]. by intros x ?%not_elem_of_nil.
  - intros x Hx. rewrite (H3 x Hx). cbn. lia.
Qed.

Lemma all_sev_map {A} v (f : A -> item) l : (forall x, it_sev (f x) = v) -> all_sev v (map f l).
Proof. intros H. apply Forall_forall. intros it Hit. by apply list_elem_of_In, in_map_iff in Hit as (x & <- & _). Qed.

Lemma all_sev_alerts fleet s v w p q ks : all_sev v (flat_map (alert_item fleet s v w p q) ks).
Proof.
  apply Forall_forall. intros it Hit. apply list_elem_of_In, in_flat_map in Hit as (k & _ & Hk). unfold alert_item in Hk.
  destruct (with_sev w (alerts_of s k)); [done|]. destruct Hk as [<- |[]]. done.
Qed.

Definition has (l : list item) (k : string) (v : severity) : Prop := exists it, it ∈ l /\ it_key it = k /\ it_sev it = v.

Lemma has_map {A} (f : A -> item) l x k v : x ∈ l -> it_key (f x) = k -> it_sev (f x) = v -> has (map f l) k v.
Proof. intros Hx Hk Hv. exists (f x). split; [|done]. apply list_elem_of_In, in_map. by apply list_elem_of_In. Qed.

Lemma has_l l1 l2 k v : has l1 k v -> has (l1 ++ l2) k v.
Proof. intros (it & Hi & H). exists it. split; [apply elem_of_app; by left|done]. Qed.

Lemma has_r l1 l2 k v : has l2 k v -> has (l1 ++ l2) k v.
Proof. intros (it & Hi & H). exists it. split; [apply elem_of_app; by right|done]. Qed.

Lemma key_order_perm ks : key_order ks ≡ₚ ks.
Proof.
  unfold key_order. rewrite sort_by_perm. induction ks as [|k ks IH]; [done|]. cbn [List.filter].
  destruct (is_index k); cbn [negb app]; [by rewrite IH|]. rewrite <- Permutation_middle. by rewrite IH.
Qed.

Lemma alert_keys_elem s k : k ∈ alert_keys s <-> exists a, a ∈ active_alerts s /\ al_node a = Some k.
Proof. unfold alert_keys. rewrite key_order_perm, elem_of_remove_dups, list_elem_of_omap. done. Qed.

Lemma filter_elem {A} (f : A -> bool) l x : x ∈ List.filter f l <-> x ∈ l /\ f x = true.
Proof. by rewrite list_elem_of_In, filter_In, <- list_elem_of_In. Qed.

Lemma alert_item_row fleet s v w p q nid :
  with_sev w (alerts_of s nid) <> [] -> exists it, alert_item fleet s v w p q nid = [it] /\ it_key it = p +:+ nid /\ it_sev it = v.
Proof. intros H. unfold alert_item. destruct (with_sev w (alerts_of s nid)); [done|]. by eexists. Qed.

(** An alert of a system that is not listed makes its row. *)
Lemma alert_row fleet s v w p q listed a nid :
  a ∈ active_alerts s -> al_sev a = w -> al_node a = Some nid -> nid ∉ listed ->
  has (flat_map (alert_item fleet s v w p q) (unlisted listed (alert_keys s))) (p +:+ nid) v.
Proof.
  intros Ha Hs Hn Hno. destruct (alert_item_row fleet s v w p q nid) as (it & E & Hk & Hv).
  - intros E. apply (not_elem_of_nil a). rewrite <- E. apply filter_elem. split; [|by apply String.eqb_eq].
    apply filter_elem. split; [done|]. unfold of_node. by apply bool_decide_eq_true.
  - exists it. split; [|done]. apply list_elem_of_In, in_flat_map. exists nid. split; [|rewrite E; by left].
    apply list_elem_of_In, filter_elem. split; [apply alert_keys_elem; by exists a|]. by apply negb_true_iff, bool_decide_eq_false.
Qed.

Lemma in_state_elem v fleet n : n ∈ in_state v fleet <-> n ∈ fleet /\ f_state n = v.
Proof. unfold in_state. by rewrite filter_elem, String.eqb_eq. Qed.

Lemma probes_in_elem v s p : p ∈ probes_in v s <-> p ∈ s_probes s /\ pr_state p = v.
Proof. unfold probes_in. by rewrite filter_elem, String.eqb_eq. Qed.

Lemma ids_elem v fleet nid : nid ∈ map f_id (in_state v fleet) <-> exists n, n ∈ in_state v fleet /\ f_id n = nid.
Proof. rewrite list_elem_of_In, in_map_iff. setoid_rewrite <- list_elem_of_In. naive_solver. Qed.

(** The sections of the list, one after another. *)
Ltac section n := lazymatch n with O => apply has_l || idtac | S ?m => apply has_r; section m end.

Section Rows.
Context (fleet : list fnode) (s : live).

Lemma crit_row k : has (crit_rows fleet s) k Crit -> has (buildAttention fleet s) k Crit.
Proof. apply has_l. Qed.

Lemma warn_row k : has (warn_rows fleet s) k Warn -> has (buildAttention fleet s) k Warn.
Proof. intros H. by apply has_r, has_l. Qed.

Lemma rows_ranked : ranked (buildAttention fleet s).
Proof.
  apply ranked_blocks.
  - unfold crit_rows, all_sev. rewrite !Forall_app. split_and!; [by apply all_sev_map..|apply all_sev_alerts|by apply all_sev_map].
  - unfold warn_rows, all_sev. rewrite !Forall_app.
    split_and!; [by apply all_sev_map..|apply all_sev_alerts|by apply all_sev_map|]. destruct (s_drifted s); by repeat constructor.
  - destruct (s_enrollments s); by repeat constructor.
Qed.

Lemma down_row n : n ∈ fleet -> f_state n = "down" -> has (buildAttention fleet s) ("down-" +:+ f_id n) Crit.
Proof. intros H1 H2. apply crit_row. section 0. eapply has_map; [by apply in_state_elem|done|done]. Qed.

Lemma degraded_row n : n ∈ fleet -> f_state n = "degraded" -> has (buildAttention fleet s) ("deg-" +:+ f_id n) Warn.
Proof. intros H1 H2. apply warn_row. section 0. eapply has_map; [by apply in_state_elem|done|done]. Qed.

Lemma silent_row n : n ∈ fleet -> silent s n = true -> has (buildAttention fleet s) ("stale-" +:+ f_id n) Warn.
Proof. intros H1 H2. apply warn_row. section 3. eapply has_map; [by apply filter_elem|done|done]. Qed.

Lemma probe_row p : p ∈ s_probes s -> (pr_state p = "down" -> has (buildAttention fleet s) ("probe-down-" +:+ pr_id p) Crit) /\
  (pr_state p = "degraded" -> has (buildAttention fleet s) ("probe-split-" +:+ pr_id p) Warn).
Proof.
  intros Hp. split; intros Hs; [apply crit_row|apply warn_row]; section 1; (eapply has_map; [by apply probes_in_elem|done|done]).
Qed.

Lemma crit_alert_row a : a ∈ active_alerts s -> al_sev a = "crit" ->
  match al_node a with
  | None => has (buildAttention fleet s) ("crit-ev-" +:+ al_event a) Crit
  | Some nid => has (buildAttention fleet s) ("down-" +:+ nid) Crit \/ has (buildAttention fleet s) ("crit-" +:+ nid) Crit
  end.
Proof.
  intros Ha Hs. destruct (al_node a) as [nid|] eqn:En.
  - destruct (decide (nid ∈ map f_id (in_state "down" fleet))) as [Hd|Hd].
    + left. apply ids_elem in Hd as (n & [Hn Hst]%in_state_elem & <-). by apply down_row.
    + right. apply crit_row. section 2. by eapply alert_row.
  - apply crit_row. section 3. eapply has_map; [|done|done]. apply filter_elem. split; [|by apply String.eqb_eq].
    apply filter_elem. split; [done|by apply bool_decide_eq_true].
Qed.

Lemma warn_alert_row a nid : a ∈ active_alerts s -> al_sev a = "warn" -> al_node a = Some nid ->
  has (buildAttention fleet s) ("down-" +:+ nid) Crit \/ has (buildAttention fleet s) ("deg-" +:+ nid) Warn \/ has (buildAttention fleet s) ("warn-" +:+ nid) Warn.
Proof.
  intros Ha Hs En. destruct (decide (nid ∈ map f_id (in_state "down" fleet))) as [Hd|Hd].
  { left. apply ids_elem in Hd as (n & [Hn Hst]%in_state_elem & <-). by apply down_row. }
  right. destruct (decide (nid ∈ map f_id (in_state "degraded" fleet))) as [Hg|Hg].
  { left. apply ids_elem in Hg as (n & [Hn Hst]%in_state_elem & <-). by apply degraded_row. }
  right. apply warn_row. section 2. eapply alert_row; [done..|]. rewrite not_elem_of_app. done.
Qed.

Lemma drift_row : s_drifted s <> [] -> has (buildAttention fleet s) "drift" Warn.
Proof. intros H. apply warn_row. do 4 apply has_r. destruct (s_drifted s); [done|]. eexists. split; [left|done]. Qed.

Lemma enroll_row : s_enrollments s <> [] -> has (buildAttention fleet s) "enroll" Info.
Proof. intros H. apply has_r, has_r. destruct (s_enrollments s); [done|]. eexists. split; [left|done]. Qed.
End Rows.

(** C16: the panel ranks what needs attention and misses no system.  Rows come
    critical first, then warnings, then information.  Every system that is down or
    degraded, every silent node, every failing probe, drift and pending enrollments
    have their row; every active critical alert has one or is folded into its down
    system's; every active warning about a system has one or is folded into the
    row of its down or degraded system. *)
Theorem attention_misses_no_system (fleet : list fnode) (s : live) :
  let items := buildAttention fleet s in
  ranked items /\
  (forall n, n ∈ fleet ->
     (f_state n = "down" -> has items ("down-" +:+ f_id n) Crit) /\
     (f_state n = "degraded" -> has items ("deg-" +:+ f_id n) Warn) /\
     (silent s n = true -> has items ("stale-" +:+ f_id n) Warn)) /\
  (forall p, p ∈ s_probes s ->
     (pr_state p = "down" -> has items ("probe-down-" +:+ pr_id p) Crit) /\
     (pr_state p = "degraded" -> has items ("probe-split-" +:+ pr_id p) Warn)) /\
  (forall a, a ∈ active_alerts s -> al_sev a = "crit" ->
     match al_node a with
     | None => has items ("crit-ev-" +:+ al_event a) Crit
     | Some nid => has items ("down-" +:+ nid) Crit \/ has items ("crit-" +:+ nid) Crit
     end) /\
  (forall a nid, a ∈ active_alerts s -> al_sev a = "warn" -> al_node a = Some nid ->
     has items ("down-" +:+ nid) Crit \/ has items ("deg-" +:+ nid) Warn \/ has items ("warn-" +:+ nid) Warn) /\
  (s_drifted s <> [] -> has items "drift" Warn) /\ (s_enrollments s <> [] -> has items "enroll" Info).
Proof.
  cbv zeta. split_and!; [apply rows_ranked| |intros p Hp; by apply probe_row|apply crit_alert_row|apply warn_alert_row|apply drift_row|apply enroll_row].
  intros n Hn. split_and!; intros H; [by apply down_row|by apply degraded_row|by apply silent_row].
Qed.

(** A warning about no system is not shown.  An active warning without a node
    (of the fleet or of a probe) never changes the list: with nothing else wrong
    the panel reads "All systems nominal" while the alert is active. *)
Theorem nodeless_warning_goes_unseen (fleet : list fnode) (s : live) (a : falert) :
  al_node a = None -> al_sev a = "warn" ->
  buildAttention fleet (Live (a :: s_alerts s) (s_probes s) (s_drifted s) (s_enrollments s) (s_interval s)) = buildAttention fleet s.
Proof.
  intros Hn Hs. set (s' := Live _ _ _ _ _).
  assert (Ha : forall nid, alerts_of s' nid = alerts_of s nid).
  { intros nid. unfold alerts_of, active_alerts. cbn [s' s_alerts List.filter]. destruct (al_cleared a); cbn [negb List.filter]; [done|].
    unfold of_node at 1. by rewrite Hn. }
  assert (Hk : alert_keys s' = alert_keys s).
  { unfold alert_keys, active_alerts. cbn [s' s_alerts List.filter]. destruct (al_cleared a); cbn [negb omap list_omap]; [done|]. by rewrite Hn. }
  assert (Hc : nodeless_crit s' = nodeless_crit s).
  { unfold nodeless_crit, active_alerts. cbn [s' s_alerts List.filter]. destruct (al_cleared a); cbn [negb List.filter]; [done|].
    rewrite Hn, bool_decide_eq_true_2 by done. unfold with_sev. cbn [List.filter]. by rewrite Hs. }
  assert (Hnote : forall nid, alertNote s' nid = alertNote s nid) by (intros nid; unfold alertNote; by rewrite Ha).
  assert (Hit : forall v w p q nid, alert_item fleet s' v w p q nid = alert_item fleet s v w p q nid) by (intros; unfold alert_item; by rewrite Ha).
  unfold buildAttention, crit_rows, warn_rows. cbv zeta. rewrite Hk, Hc. cbn [s' s_probes s_drifted s_enrollments probes_in].
  rewrite (flat_map_ext _ _ (Hit Crit "crit" "crit-" " critical alerts — ")), (flat_map_ext _ _ (Hit Warn "warn" "warn-" " warnings — ")).
  rewrite (map_ext (down_item s') (down_item s)) by (intros n; unfold down_item; by rewrite Hnote).
  rewrite (map_ext (degraded_item s') (degraded_item s)) by (intros n; unfold degraded_item; by rewrite Hnote). done.
Qed.

Definition quiet : live := Live [] [] [] [] n0.
Definition fleet_warning : falert := FAlert "9" None "warn" false "Quorum" "" "two of three servers".

Lemma nodeless_warning_goes_unseen_witness : buildAttention [] (Live [fleet_warning] [] [] [] n0) = [].
Proof. exact (nodeless_warning_goes_unseen [] quiet fleet_warning eq_refl eq_refl). Defined.
