(* ===== verification/ProvSpec.v ===== *)
(** * The software spec form (screens-prov.jsx)

    A pool entry's spec is JSON whose shape depends on the entry's type; the
    editor holds it as text fields.  [specState] opens a spec in the form,
    [specJson] builds the spec a save sends.  The fields of a spec are strings,
    lists of strings and the environment's object of strings, as the server
    validates them. *)

From Stdlib Require Import ZArith Lia Ascii.
From Corelib Require Import SpecFloat.
From stdpp Require Import strings pretty gmap list.
From S2P Require Import Prelude JsNum JsValue Mappers TopoLayout ProvStacks Catalog.

Local Open Scope string_scope.
Local Open Scope list_scope.

(** ** The form *)

Record repo := Repo { r_on : bool; r_url : string; r_key_url : string; r_fingerprint : string; r_suite : string; r_components : string }.

(** [from_url]: the script's source is a URL; [from_tarball]: the build's source is
    a tarball. *)
Record form := Form {
  extract : bool; creates : string;
  from_url : bool; body : string; url : string; sha256 : string; interpreter : string; run_as : string;
  env : list (string * string); check : string; version_check : string;
  from_tarball : bool; git : string; tag : string; tarball : string; tsha : string;
  system : string; configure_args : string; prefix : string; build : string; install : string;
  repos : string -> repo }.

Definition emptyRepo : repo := Repo false "" "" "" "" "".

(** [v || ""] for a string field. *)
Definition text (v : value) : string := match v with VStr s => s | _ => "" end.

Definition text_or (v : value) (d : string) : string := if truthy v then text v else d.

(** [(v || []).join(sep)]. *)
Definition join (sep : string) (v : value) : string := String.concat sep (map vstr (arr v)).

Definition nl : string := String newline "".

Definition repoState (r : value) : repo :=
  if truthy r
  then Repo true (text (fld r "url")) (text (fld r "key_url")) (text (fld r "fingerprint")) (text (fld r "suite")) (join " " (fld r "components"))
  else emptyRepo.

Definition specState (s : value) : form :=
  let src := fld s "source" in
  Form (truthy (fld s "extract")) (text (fld s "creates"))
    (truthy (fld s "url")) (text (fld s "body")) (text (fld s "url")) (text (fld s "sha256"))
    (text (fld s "interpreter")) (text_or (fld s "run_as") "root")
    (map (fun kv => (kv.1, vstr kv.2)) (entries (fld s "env"))) (join nl (fld s "check")) (text (fld s "version_check"))
    (truthy (fld src "tarball")) (text (fld src "git")) (text (fld src "tag")) (text (fld src "tarball")) (text (fld src "sha256"))
    (text_or (fld s "system") "cmake") (join nl (fld s "configure_args")) (text (fld s "prefix")) (text (fld s "build")) (text (fld s "install"))
    (fun f => repoState (fld s f)).

(** ** The spec *)

Definition nonempty (s : string) : bool := negb (String.eqb s "").

(** [nn]: the trimmed text, [None] for [null]. *)
Definition nn (v : string) : option string := let t := trim v in if String.eqb t "" then None else Some t.

Definition linesOf (t : string) : list string := List.filter nonempty (map trim (split_char newline t)).

(** [t.split(/\s+/).filter(Boolean)]. *)
Definition words (t : string) : list string :=
  List.filter nonempty (split_char " " (smap (fun c => if is_ws c then " "%char else c) t)).

(** An object built by assignments of which some are skipped. *)
Definition mk (l : list (string * option value)) : list (string * value) := omap (fun kv => pair kv.1 <$> kv.2) l.

Definition put (v : string) : option value := VStr <$> nn v.
Definition put_list (l : list string) : option value := match l with [] => None | _ => Some (VArr (map VStr l)) end.

Definition env_object (rows : list (string * string)) : list (string * value) :=
  fold_left (fun e r => if nonempty (trim r.1) then assoc_set (trim r.1) (VStr r.2) e else e) rows [].

Definition put_env (rows : list (string * string)) : option value :=
  match env_object rows with [] => None | e => Some (VObj e) end.

(** What scripts and builds share. *)
Definition common (f : form) : list (string * option value) :=
  [("env", put_env (env f)); ("creates", put (creates f)); ("check", put_list (linesOf (check f)));
   ("version_check", put (version_check f))].

Definition script_fields (f : form) : list (string * option value) :=
  [("url", if from_url f then put (url f) else None); ("sha256", if from_url f then put (sha256 f) else None);
   ("body", if from_url f then None else if nonempty (trim (body f)) then Some (VStr (body f)) else None);
   ("interpreter", put (interpreter f)); ("run_as", Some (VStr (run_as f)))] ++ common f.

Definition source_of (f : form) : value :=
  VObj (if from_tarball f then [("tarball", VStr (trim (tarball f))); ("sha256", VStr (trim (tsha f)))]
        else mk [("git", Some (VStr (trim (git f)))); ("tag", put (tag f))]).

Definition build_fields (f : form) : list (string * option value) :=
  let custom := String.eqb (system f) "custom" in
  [("source", Some (source_of f)); ("system", Some (VStr (system f))); ("configure_args", put_list (linesOf (configure_args f)));
   ("prefix", put (prefix f)); ("build", if custom then put (build f) else None); ("install", if custom then put (install f) else None)]
  ++ common f.

Definition repo_fields (r : repo) : list (string * option value) :=
  [("url", put (r_url r)); ("key_url", put (r_key_url r)); ("fingerprint", put (r_fingerprint r)); ("suite", put (r_suite r));
   ("components", put_list (words (r_components r)))].

Definition specJson (type : string) (f : form) : value :=
  if String.eqb type "pkg" || String.eqb type "role" then VNull
  else if String.eqb type "artifact" then VObj (mk [("extract", if extract f then Some (VBool true) else None); ("creates", put (creates f))])
  else if String.eqb type "script" then VObj (mk (script_fields f))
  else if String.eqb type "build" then VObj (mk (build_fields f))
  else if String.eqb type "repo"
  then VObj (mk (map (fun x => (x, if r_on (repos f x) then Some (VObj (mk (repo_fields (repos f x)))) else None)) FAMS))
  else VObj [].

(** ** Text survives *)

Lemma trimStart_head s : match trimStart s with EmptyString => True | String c _ => is_ws c = false end.
Proof. induction s as [|c s IH]; [done|]. cbn [trimStart]. by destruct (is_ws c) eqn:E. Qed.

Lemma trimEnd_idem s : trimEnd (trimEnd s) = trimEnd s.
Proof.
  induction s as [|c s IH]; [done|]. cbn [trimEnd]. cbv zeta. destruct (is_ws c && String.eqb (trimEnd s) "") eqn:E; [done|].
  cbn [trimEnd]. cbv zeta. rewrite IH. by rewrite E.
Qed.

Lemma trim_trim s : trim (trim s) = trim s.
Proof.
  unfold trim. pose proof (trimStart_head s) as H. destruct (trimStart s) as [|c r]; [done|].
  cbn [trimEnd]. cbv zeta. rewrite H. cbn [andb trimStart]. rewrite H. cbn [trimEnd]. cbv zeta. rewrite H, trimEnd_idem. done.
Qed.

Lemma trim_sall p s : sall p s = true -> sall p (trim s) = true.
Proof.
  assert (H1 : forall s, sall p s = true -> sall p (trimStart s) = true).
  { induction s0 as [|c r IH]; [done|]. cbn [sall trimStart]. intros [Hc Hr]%andb_prop. destruct (is_ws c); [by apply IH|]. cbn [sall]. by rewrite Hc, Hr. }
  assert (H2 : forall s, sall p s = true -> sall p (trimEnd s) = true).
  { induction s0 as [|c r IH]; [done|]. cbn [sall trimEnd]. cbv zeta. intros [Hc Hr]%andb_prop. destruct (_ && _); [done|]. cbn [sall]. by rewrite Hc, IH. }
  intros H. by apply H2, H1.
Qed.

Lemma nn_some v t : nn v = Some t -> nn t = Some t /\ t <> "".
Proof.
  unfold nn. cbv zeta. destruct (String.eqb (trim v) "") eqn:E; [done|]. intros [= <-]. rewrite trim_trim, E.
  split; [done|]. by apply String.eqb_neq.
Qed.

(** What a skipped or set field reads as when the spec is opened again. *)
Lemma put_text v : put (text (default VUndef (put v))) = put v.
Proof. unfold put. destruct (nn v) as [t|] eqn:E; [|done]. cbn. by rewrite (proj1 (nn_some v t E)). Qed.

(** ** Lists survive *)

Definition no_sep (sep : ascii) (s : string) : Prop := sall (fun c => negb (Ascii.eqb c sep)) s = true.

Lemma split_no_sep sep s : no_sep sep s -> split_char sep s = [s].
Proof.
  unfold no_sep. induction s as [|c s IH]; [done|]. cbn [sall split_char]. intros [Hc Hs]%andb_prop. rewrite IH by done.
  apply negb_true_iff in Hc. by rewrite Hc.
Qed.

Lemma split_nonnil sep s : split_char sep s <> [].
Proof. induction s as [|c s IH]; [done|]. cbn [split_char]. destruct (split_char sep s); [done|]. by destruct (Ascii.eqb c sep). Qed.

Lemma split_app sep s t : no_sep sep s -> split_char sep (s +:+ String sep t) = s :: split_char sep t.
Proof.
  unfold no_sep. induction s as [|c s IH].
  - intros _. change (split_char sep (String sep t) = "" :: split_char sep t). cbn [split_char]. rewrite Ascii.eqb_refl.
    destruct (split_char sep t) eqn:E; [by apply split_nonnil in E|done].
  - cbn [sall]. intros [Hc Hs]%andb_prop. change (String c s +:+ String sep t) with (String c (s +:+ String sep t)). cbn [split_char]. rewrite IH by done.
    apply negb_true_iff in Hc. by rewrite Hc.
Qed.

Lemma split_concat sep ls : ls <> [] -> Forall (no_sep sep) ls -> split_char sep (String.concat (String sep "") ls) = ls.
Proof.
  induction ls as [|x ls IH]; intros Hne Hf; [done|]. apply Forall_cons in Hf as [Hx Hf]. destruct ls as [|y ls].
  - cbn [String.concat]. by apply split_no_sep.
  - change (String.concat (String sep "") (x :: y :: ls)) with (x +:+ String sep (String.concat (String sep "") (y :: ls))).
    rewrite split_app by done. f_equal. by apply IH.
Qed.

Lemma split_pieces sep s : Forall (no_sep sep) (split_char sep s).
Proof.
  induction s as [|c s IH]; [by repeat constructor|]. cbn [split_char]. destruct (split_char sep s) as [|h t]; [constructor|].
  apply Forall_cons in IH as [Hh Ht]. destruct (Ascii.eqb c sep) eqn:E; repeat constructor; try done. unfold no_sep. cbn [sall]. by rewrite E.
Qed.

Lemma filter_all {A} (f : A -> bool) l : Forall (fun x => f x = true) l -> List.filter f l = l.
Proof. induction 1 as [|x l Hx _ IH]; [done|]. cbn [List.filter]. by rewrite Hx, IH. Qed.

(** The lines of a list of lines are that list. *)
Lemma linesOf_lines t : linesOf (String.concat nl (linesOf t)) = linesOf t.
Proof.
  assert (H : Forall (fun l => no_sep newline l /\ trim l = l /\ nonempty l = true) (linesOf t)).
  { apply Forall_forall. intros l Hl. apply list_elem_of_In, filter_In in Hl as [Hl Hne]. apply in_map_iff in Hl as (x & <- & Hx).
    split_and!; [|apply trim_trim|done]. apply trim_sall. pose proof (split_pieces newline t) as Hp. rewrite Forall_forall in Hp. by apply Hp, list_elem_of_In. }
  destruct (linesOf t) as [|l ls] eqn:E; [done|]. unfold linesOf at 1. rewrite split_concat; [|done|by eapply Forall_impl; [exact H|intros ? (?&_)]].
  replace (map trim (l :: ls)) with (l :: ls).
  - apply filter_all. eapply Forall_impl; [exact H|]. by intros ? (_ & _ & ?).
  - symmetry. rewrite <- (map_id (l :: ls)) at 2. apply map_ext_in. intros x Hx. rewrite Forall_forall in H. by apply H, list_elem_of_In.
Qed.

Definition no_ws (s : string) : Prop := sall (fun c => negb (is_ws c)) s = true.

Lemma smap_no_ws s : no_ws s -> smap (fun c => if is_ws c then " "%char else c) s = s.
Proof. unfold no_ws. induction s as [|c s IH]; [done|]. cbn [sall smap]. intros [Hc Hs]%andb_prop. apply negb_true_iff in Hc. by rewrite Hc, IH. Qed.

Lemma smap_words ws : Forall no_ws ws -> smap (fun c => if is_ws c then " "%char else c) (String.concat " " ws) = String.concat " " ws.
Proof.
  induction ws as [|w ws IH]; intros Hf; [done|]. apply Forall_cons in Hf as [Hw Hf]. destruct ws as [|v ws]; [by apply smap_no_ws|].
  change (String.concat " " (w :: v :: ws)) with (w +:+ String " " (String.concat " " (v :: ws))). rewrite smap_app, smap_no_ws by done.
  f_equal. change (String " " (smap (fun c => if is_ws c then " "%char else c) (String.concat " " (v :: ws))) = String " " (String.concat " " (v :: ws))).
  f_equal. by apply IH.
Qed.

Lemma no_ws_sep s : no_ws s -> no_sep " " s.
Proof.
  unfold no_ws, no_sep. rewrite !sall_chars, !forallb_forall. intros H c Hc. specialize (H c Hc). apply negb_true_iff. apply negb_true_iff in H.
  destruct (Ascii.eqb_spec c " "); [by subst|done].
Qed.

Lemma smap_pieces t : Forall no_ws (split_char " " (smap (fun c => if is_ws c then " "%char else c) t)).
Proof.
  induction t as [|c t IH]; [by repeat constructor|]. cbn [smap split_char]. destruct (split_char " " _) as [|h r]; [constructor|].
  apply Forall_cons in IH as [Hh Hr]. destruct (is_ws c) eqn:E; [by repeat constructor|].
  destruct (Ascii.eqb_spec c " ") as [-> |]; [done|]. constructor; [|done]. unfold no_ws. cbn [sall]. by rewrite E.
Qed.

Lemma words_words t : words (String.concat " " (words t)) = words t.
Proof.
  assert (H : Forall (fun w => no_ws w /\ nonempty w = true) (words t)).
  { apply Forall_forall. intros w Hw. apply list_elem_of_In, filter_In in Hw as [Hw Hne]. split; [|done].
    pose proof (smap_pieces t) as Hp. rewrite Forall_forall in Hp. by apply Hp, list_elem_of_In. }
  destruct (words t) as [|w ws] eqn:E; [done|]. unfold words at 1. rewrite smap_words by (by eapply Forall_impl; [exact H|intros ? [? _]]).
  rewrite split_concat; [|done|by eapply Forall_impl; [exact H|intros ? [?%no_ws_sep _]]]. apply filter_all. eapply Forall_impl; [exact H|]. by intros ? [_ ?].
Qed.

Lemma arr_put_list l : map vstr (arr (default VUndef (put_list l))) = l.
Proof. destruct l as [|x l]; [done|]. cbn. f_equal. rewrite map_map. apply map_id. Qed.

(** ** The environment survives *)

Definition env_ok (e : list (string * value)) : Prop :=
  NoDup (map fst e) /\ Forall (fun kv => trim kv.1 = kv.1 /\ nonempty kv.1 = true /\ exists s, kv.2 = VStr s) e.

Lemma assoc_set_keys {A} k (x : A) e y : y ∈ map fst (assoc_set k x e) -> y = k \/ y ∈ map fst e.
Proof.
  induction e as [|[k' z] e IH]; cbn [assoc_set map fst]; [intros ->%list_elem_of_singleton; by left|].
  destruct (String.eqb_spec k k') as [-> |]; cbn [map fst]; rewrite !elem_of_cons; naive_solver.
Qed.

Lemma assoc_set_ok k s e : trim k = k -> nonempty k = true -> env_ok e -> env_ok (assoc_set k (VStr s) e).
Proof.
  intros Ht Hne [Hn Hf]. induction e as [|[k' z] e IH]; cbn [assoc_set].
  - split; [apply NoDup_singleton|]. repeat constructor; [done|done|by exists s].
  - cbn [map fst] in Hn. apply NoDup_cons in Hn as [Hk' Hn]. apply Forall_cons in Hf as [Hx Hf]. destruct (String.eqb_spec k k') as [-> |Hne'].
    + split; [cbn [map fst]; by apply NoDup_cons|]. constructor; [|done]. cbn [fst snd]. split_and!; [done|done|by exists s].
    + destruct (IH Hn Hf) as [IH1 IH2]. split; [|by constructor]. cbn [map fst]. apply NoDup_cons. split; [|done].
      intros [-> |]%assoc_set_keys; done.
Qed.

Lemma env_object_ok rows : env_ok (env_object rows).
Proof.
  unfold env_object. assert (H : forall e, env_ok e -> env_ok (fold_left (fun e r => if nonempty (trim r.1) then assoc_set (trim r.1) (VStr r.2) e else e) rows e)).
  { induction rows as [|r rows IH]; intros e He; [done|]. cbn [fold_left]. apply IH. destruct (nonempty (trim r.1)) eqn:E; [|done].
    apply assoc_set_ok; [apply trim_trim|done|done]. }
  apply H. split; [apply NoDup_nil_2|constructor].
Qed.

Lemma assoc_set_new {A} k (x : A) e : k ∉ map fst e -> assoc_set k x e = e ++ [(k, x)].
Proof.
  induction e as [|[k' z] e IH]; intros Hk; [done|]. cbn [assoc_set map fst] in *. apply not_elem_of_cons in Hk as [Hne Hk].
  rewrite (proj2 (String.eqb_neq _ _) Hne). cbn [app]. by rewrite IH.
Qed.

Lemma env_object_again e : env_ok e -> env_object (map (fun kv => (kv.1, vstr kv.2)) e) = e.
Proof.
  intros [Hn Hf]. unfold env_object.
  assert (H : forall e1 e2, NoDup (map fst (e1 ++ e2)) -> Forall (fun kv => trim kv.1 = kv.1 /\ nonempty kv.1 = true /\ exists s, kv.2 = VStr s) e2 ->
    fold_left (fun e r => if nonempty (trim r.1) then assoc_set (trim r.1) (VStr r.2) e else e) (map (fun kv => (kv.1, vstr kv.2)) e2) e1 = e1 ++ e2).
  { intros e1 e2. revert e1. induction e2 as [|[k v] e2 IH]; intros e1 Hn' Hf'; [cbn; by rewrite app_nil_r|].
    apply Forall_cons in Hf' as [(Ht & Hne & x & Hx) Hf']. cbn [fst snd] in *. subst v. cbn [map fold_left fst snd vstr]. rewrite Ht, Hne.
    rewrite assoc_set_new; [|intros Hin; rewrite map_app in Hn'; apply NoDup_app in Hn' as (_ & Hd & _); apply (Hd k Hin); left].
    rewrite IH; [by rewrite <- app_assoc|by rewrite <- app_assoc|done]. }
  by apply (H [] e).
Qed.

Lemma put_env_again rows : put_env (map (fun kv => (kv.1, vstr kv.2)) (entries (default VUndef (put_env rows)))) = put_env rows.
Proof.
  unfold put_env. pose proof (env_object_again _ (env_object_ok rows)) as H. destruct (env_object rows) as [|kv e] eqn:E; [done|].
  cbn [default from_option id entries]. by rewrite H.
Qed.

(** ** Opening what was saved *)

Lemma assoc_mk k l : NoDup (map fst l) -> assoc k (mk l) = match assoc k l with Some o => o | None => None end.
Proof.
  induction l as [|[k' o] l IH]; intros Hn; [done|]. cbn [map fst] in Hn. apply NoDup_cons in Hn as [Hk Hn]. specialize (IH Hn).
  assert (Hno : k' ∉ map fst (mk l)).
  { intros Hin. apply Hk. clear -Hin. induction l as [|[k2 o2] l IH]; [done|]. unfold mk in *. cbn [omap list_omap fst snd] in *.
    cbn [map fst]. destruct o2; cbn [fmap option_fmap option_map map fst] in *; [apply elem_of_cons in Hin as [-> |Hin]; [left|right; by apply IH]|right; by apply IH]. }
  unfold mk in *. cbn [omap list_omap fst snd assoc]. destruct o as [v|]; cbn [fmap option_fmap option_map assoc].
  - destruct (String.eqb k k'); [done|exact IH].
  - destruct (String.eqb_spec k k') as [-> |]; [|exact IH].
    clear -Hno. induction (omap (fun kv : string * option value => pair kv.1 <$> kv.2) l) as [|[a b] r IH]; [done|]. cbn [map fst assoc] in *.
    apply not_elem_of_cons in Hno as [Hne Hno]. rewrite (proj2 (String.eqb_neq _ _) Hne). by apply IH.
Qed.

Lemma fld_mk k l : NoDup (map fst l) -> fld (VObj (mk l)) k = default VUndef (match assoc k l with Some o => o | None => None end).
Proof. intros H. cbn [fld]. rewrite assoc_mk by done. by destruct (assoc k l) as [[v|]|]. Qed.

Lemma truthy_put v : truthy (default VUndef (put v)) = bool_decide (is_Some (nn v)).
Proof. unfold put. destruct (nn v) as [t|] eqn:E; [|done]. apply nn_some in E as [_ E]. cbn. by destruct t. Qed.

Ltac keys := apply (bool_decide_unpack _); vm_compute; exact I.

Lemma text_or_str s d : s <> "" -> text_or (VStr s) d = s.
Proof. unfold text_or. by destruct s. Qed.

Lemma lines_again l : put_list (linesOf (join nl (default VUndef (put_list (linesOf l))))) = put_list (linesOf l).
Proof. unfold join. by rewrite arr_put_list, linesOf_lines. Qed.

Lemma words_again l : put_list (words (join " " (default VUndef (put_list (words l))))) = put_list (words l).
Proof. unfold join. by rewrite arr_put_list, words_words. Qed.

(** What a save must have for its source: a URL script its URL, a tarball build its
    tarball; the two selects are never empty. *)
Definition script_ok (f : form) : Prop := (from_url f = true -> is_Some (nn (url f))) /\ run_as f <> "".
Definition build_ok (f : form) : Prop := (from_tarball f = true -> trim (tarball f) <> "") /\ system f <> "".

Lemma script_again f : script_ok f -> script_fields (specState (VObj (mk (script_fields f)))) = script_fields f.
Proof.
  intros [Hu Hr]. assert (H : forall k, fld (VObj (mk (script_fields f))) k = default VUndef (match assoc k (script_fields f) with Some o => o | None => None end))
    by (intros k; apply fld_mk; keys).
  unfold script_fields at 1, common at 1, specState. cbv zeta. cbn [from_url url sha256 body interpreter run_as env creates check version_check]. rewrite !H.
  unfold script_fields, common. cbn [assoc app String.eqb Ascii.eqb Bool.eqb]. rewrite put_env_again, !lines_again, !put_text, (text_or_str _ _ Hr).
  destruct (from_url f) eqn:E.
  - rewrite truthy_put, bool_decide_eq_true_2 by (by apply Hu). by rewrite !put_text.
  - cbn [default from_option id truthy]. destruct (nonempty (trim (body f))) eqn:Eb; cbn [default from_option id text]; by rewrite ?Eb.
Qed.

Lemma source_again f : (from_tarball f = true -> trim (tarball f) <> "") ->
  let src := source_of f in
  (if truthy (fld src "tarball") then [("tarball", VStr (trim (text (fld src "tarball")))); ("sha256", VStr (trim (text (fld src "sha256"))))]
   else mk [("git", Some (VStr (trim (text (fld src "git"))))); ("tag", put (text (fld src "tag")))]) =
  (if from_tarball f then [("tarball", VStr (trim (tarball f))); ("sha256", VStr (trim (tsha f)))]
   else mk [("git", Some (VStr (trim (git f)))); ("tag", put (tag f))]).
Proof.
  intros Ht. cbv zeta. unfold source_of. destruct (from_tarball f).
  - cbn [fld assoc String.eqb Ascii.eqb Bool.eqb text]. assert (Htr : truthy (VStr (trim (tarball f))) = true) by (specialize (Ht eq_refl); by destruct (trim (tarball f))).
    rewrite Htr. by rewrite !trim_trim.
  - rewrite !fld_mk by keys. cbn [assoc String.eqb Ascii.eqb Bool.eqb default from_option id truthy text]. by rewrite trim_trim, put_text.
Qed.

Lemma build_again f : build_ok f -> build_fields (specState (VObj (mk (build_fields f)))) = build_fields f.
Proof.
  intros [Ht Hs]. assert (H : forall k, fld (VObj (mk (build_fields f))) k = default VUndef (match assoc k (build_fields f) with Some o => o | None => None end))
    by (intros k; apply fld_mk; keys).
  unfold build_fields at 1, common at 1, specState, source_of at 1. cbv zeta.
  cbn [from_tarball git tag tarball tsha system configure_args prefix build install env creates check version_check]. rewrite !H.
  unfold build_fields, common. cbv zeta. cbn [assoc app String.eqb Ascii.eqb Bool.eqb]. rewrite put_env_again, !lines_again, !put_text, (text_or_str _ _ Hs).
  cbn [default from_option id]. rewrite (source_again f Ht). fold (source_of f).
  destruct (String.eqb (system f) "custom"); by rewrite ?put_text.
Qed.

Lemma repo_again r : repo_fields (repoState (VObj (mk (repo_fields r)))) = repo_fields r.
Proof.
  assert (H : forall k, fld (VObj (mk (repo_fields r))) k = default VUndef (match assoc k (repo_fields r) with Some o => o | None => None end))
    by (intros k; apply fld_mk; keys).
  unfold repo_fields at 1, repoState. cbn [truthy r_url r_key_url r_fingerprint r_suite r_components]. rewrite !H.
  unfold repo_fields. cbn [assoc String.eqb Ascii.eqb Bool.eqb]. by rewrite !put_text, words_again.
Qed.

Definition repos_of (f : form) : list (string * option value) :=
  map (fun x => (x, if r_on (repos f x) then Some (VObj (mk (repo_fields (repos f x)))) else None)) FAMS.

Lemma repos_again f : repos_of (specState (VObj (mk (repos_of f)))) = repos_of f.
Proof.
  assert (H : forall k, fld (VObj (mk (repos_of f))) k = default VUndef (match assoc k (repos_of f) with Some o => o | None => None end))
    by (intros k; apply fld_mk; keys).
  unfold repos_of at 1. apply map_ext_in. intros x Hx. unfold specState. cbn [repos]. rewrite H. f_equal.
  assert (Ha : assoc x (repos_of f) = Some (if r_on (repos f x) then Some (VObj (mk (repo_fields (repos f x)))) else None))
    by (destruct Hx as [<- |[<- |[<- |[]]]]; reflexivity).
  rewrite Ha. destruct (r_on (repos f x)); [|done]. cbn [default from_option id]. unfold repoState at 1. cbn [truthy r_on]. by rewrite repo_again.
Qed.

Lemma spec_again (type : string) (f : form) :
  (type = "script" -> script_ok f) -> (type = "build" -> build_ok f) ->
  specJson type (specState (specJson type f)) = specJson type f.
Proof.
  intros Hs Hb. unfold specJson. destruct (String.eqb type "pkg" || String.eqb type "role"); [done|].
  destruct (String.eqb type "artifact").
  { unfold specState. cbn [extract creates]. rewrite !fld_mk by keys. cbn [assoc String.eqb Ascii.eqb Bool.eqb]. rewrite put_text. by destruct (extract f). }
  destruct (String.eqb_spec type "script"); [by rewrite script_again by (by apply Hs)|].
  destruct (String.eqb_spec type "build"); [by rewrite build_again by (by apply Hb)|].
  destruct (String.eqb type "repo"); [|done]. do 2 f_equal. apply repos_again.
Qed.

(** A saved spec opens as it was saved.  For every type of entry, whatever the
    operator typed, opening the spec that a save sent and saving it again sends the
    same spec: nothing is lost, reordered or trimmed further.  A script that names
    a URL or a build that names a tarball has to have it. *)
Theorem spec_reopens_unchanged (type : string) (f : form) :
  (type = "script" -> script_ok f) -> (type = "build" -> build_ok f) ->
  specJson type (specState (specJson type f)) = specJson type f.
Proof. apply spec_again. Qed.

Definition demo_form : form :=
  Form false " /opt/x " true "" " https://h/x.sh" "ab " "" "root" [(" A ", "1"); ("", "2")] (" a
 b") "" false "" "" "" "" "cmake" "" "" "" "" (fun _ => emptyRepo).

Lemma spec_reopens_unchanged_witness :
  specJson "script" (specState (specJson "script" demo_form)) = specJson "script" demo_form.
Proof.
  apply (spec_reopens_unchanged "script" demo_form); [|discriminate]. intros _. split; [|discriminate]. intros _. eexists. reflexivity.
Defined.
