(* ===== verification/ProvEdit.v ===== *)
(** * The provisioning editors (screens-prov.jsx)

    An editor holds a catalogue row as a form, builds the body of a save from it and
    sends the keys that changed.  [canon] is the text two values are compared by,
    [diffOf] the changed keys; [swForm] and [swBody] are the form and the body of a
    pool entry, [imageForm] and [imageBody] those of an image; [move] reorders the
    members of a stack.  Objects have distinct keys, as JavaScript's do. *)

From Stdlib Require Import ZArith Lia Ascii Sorted.
From stdpp Require Import strings pretty list.
From S2P Require Import Prelude JsNum JsValue ProvStacks ProvSpec.

Local Open Scope string_scope.
Local Open Scope list_scope.

(** ** The changed keys *)

Definition key_le {A} (a b : string * A) : bool := string_le a.1 b.1.

Fixpoint canon (v : value) : string :=
  match v with
  | VArr l => "[" +:+ String.concat "," (map canon l) +:+ "]"
  | VObj f =>
      "{" +:+ String.concat "," (map (fun kx => json_quote kx.1 +:+ ":" +:+ kx.2)
                                   (sort_by key_le (map (fun kx => (kx.1, canon kx.2)) f))) +:+ "}"
  | VUndef => json_str VNull
  | v => json_str v
  end.

Definition diffOf (next : list (string * value)) (cur : value) : list (string * value) :=
  List.filter (fun kx => negb (String.eqb (canon kx.2) (canon (v_nn (fld cur kx.1) VNull)))) next.

(** ** A pool entry *)

Record swform := SwForm {
  logical_name : string; item_type : string; names : string -> string; support : string -> bool;
  applies_families : value; applies_arches : value;
  ansible_role : string; source_url : string; version_pin : string; notes : string }.

(** [sw] is [null] for a new entry. *)
Definition swForm (sw : value) : swform :=
  let type := text_or (fld sw "item_type") "pkg" in
  let n f := fld sw ("name_" +:+ f) in
  SwForm (text (fld sw "logical_name")) type
    (fun f => if String.eqb type "pkg" then text (n f) else "")
    (fun f => if truthy sw then negb (nullish (n f)) else true)
    (v_or (fld sw "applies_families") VNull) (v_or (fld sw "applies_arches") VNull)
    (text (fld sw "ansible_role")) (text (fld sw "source_url")) (text (fld sw "version_pin")) (text (fld sw "notes")).

(** [nn(v)] as the value of a key. *)
Definition nnv (s : string) : value := default VNull (put s).

Definition name_of (f : swform) (x : string) : value :=
  if String.eqb (item_type f) "pkg" then nnv (names f x) else if support f x then VStr "=" else VNull.

Definition swBody (f : swform) (spec : value) : list (string * value) :=
  [("logical_name", VStr (trim (logical_name f))); ("item_type", VStr (item_type f))] ++
  map (fun x => ("name_" +:+ x, name_of f x)) FAMS ++
  [("applies_families", applies_families f); ("applies_arches", applies_arches f);
   ("ansible_role", if String.eqb (item_type f) "role" then nnv (ansible_role f) else VNull);
   ("source_url", nnv (source_url f)); ("version_pin", nnv (version_pin f)); ("spec", spec); ("notes", nnv (notes f))].

(** ** An image *)

Record imgform := ImgForm {
  i_distro : string; i_family : string; i_release_name : string; i_release_label : string; i_arch : string; i_boot_method : string;
  i_source_url : string; i_checksum_url : string; i_install_template : string; i_refresh_policy : string;
  i_netboot_verified : bool; i_notes : string }.

Definition imageForm (img : value) : imgform :=
  if truthy img
  then ImgForm (text (fld img "distro")) (text (fld img "family")) (text (fld img "release_name")) (text (fld img "release_label"))
         (text (fld img "arch")) (text (fld img "boot_method")) (text (fld img "source_url")) (text (fld img "checksum_url"))
         (text (fld img "install_template")) (text (fld img "refresh_policy")) (truthy (fld img "netboot_verified")) (text (fld img "notes"))
  else ImgForm "" "" "" "" "x86_64" "ipxe" "" "" "" "manual" false "".

Definition DISTRO_FAMILY : list (string * string) :=
  [("opensuse", "suse"); ("debian", "debian"); ("ubuntu", "debian"); ("raspios", "debian"); ("fedora", "fedora"); ("rocky", "fedora");
   ("alma", "fedora"); ("centos", "fedora")].

(** Choosing a distro suggests its family unless the operator chose one. *)
Definition setDistro (v : string) (p : imgform) : imgform :=
  let family := match assoc v DISTRO_FAMILY with
                | Some fam => if String.eqb (i_family p) "" || bool_decide (assoc (i_distro p) DISTRO_FAMILY = Some (i_family p)) then fam else i_family p
                | None => i_family p
                end in
  ImgForm v family (i_release_name p) (i_release_label p) (i_arch p) (i_boot_method p) (i_source_url p) (i_checksum_url p)
    (i_install_template p) (i_refresh_policy p) (i_netboot_verified p) (i_notes p).

Definition imageBody (f : imgform) : list (string * value) :=
  [("distro", VStr (trim (i_distro f))); ("family", if String.eqb (i_family f) "" then VNull else VStr (i_family f));
   ("release_name", VStr (trim (i_release_name f))); ("release_label", nnv (i_release_label f)); ("arch", VStr (i_arch f));
   ("boot_method", VStr (i_boot_method f)); ("source_url", nnv (i_source_url f)); ("checksum_url", nnv (i_checksum_url f));
   ("install_template", nnv (i_install_template f)); ("refresh_policy", VStr (i_refresh_policy f));
   ("netboot_verified", VBool (i_netboot_verified f)); ("notes", nnv (i_notes f))].

Definition IMAGE_SOURCE : list string := ["distro"; "release_name"; "arch"; "boot_method"; "source_url"; "checksum_url"].

(** The warning that a save discards the fetched artifact. *)
Definition clears (img : value) (f : imgform) : bool :=
  truthy img && truthy (fld img "fetched") && existsb (fun k => has_key (VObj (diffOf (imageBody f) img)) k) IMAGE_SOURCE.

Inductive save := Ignored | NoChange | Update (id : value) (diff : list (string * value)) | Create (body : list (string * value)).

(** [save] of both editors; [ro] and [busy] refuse it. *)
Definition save_of (ro busy : bool) (cur : value) (body : list (string * value)) : save :=
  if ro || busy then Ignored
  else if truthy cur
  then match diffOf body cur with [] => NoChange | d => Update (fld cur "id") d end
  else Create body.

(** ** The members of a stack *)

Record member := Member { software_id : Z; item_order : option Z }.

(** The list with the member at [i] exchanged with its neighbour, and the orders the
    screen stores for it: 10, 20, ... where they differ.  [None] when there is no
    neighbour. *)
Definition pinned (k : nat) : Z := (Z.of_nat k + 1) * 10.

Definition swap (i j : nat) (l : list member) : option (list member) :=
  match l !! i, l !! j with Some a, Some b => Some (<[j := a]> (<[i := b]> l)) | _, _ => None end.

Definition puts (l : list member) : list (Z * option Z) :=
  concat (imap (fun k m => if bool_decide (item_order m = Some (pinned k)) then [] else [(software_id m, Some (pinned k))]) l).

Definition move (members : list member) (i dir : Z) : option (list (Z * option Z)) :=
  let j := (i + dir)%Z in
  if (j <? 0)%Z || (Z.of_nat (length members) <=? j)%Z then None
  else puts <$> swap (Z.to_nat i) (Z.to_nat j) members.

Definition resetOrder (members : list member) : list (Z * option Z) :=
  map (fun m => (software_id m, None)) (List.filter (fun m => negb (bool_decide (item_order m = None))) members).

(** The stored members after the updates, one by one. *)
Definition put_order (u : Z * option Z) (m : member) : member := if (software_id m =? u.1)%Z then Member (software_id m) u.2 else m.
Definition apply_puts (us : list (Z * option Z)) (l : list member) : list member := fold_left (fun l u => map (put_order u) l) us l.

(** ** What [canon] distinguishes *)

(** A value with [undefined] as [null] and the properties of every object in order. *)
Fixpoint norm (v : value) : value :=
  match v with
  | VArr l => VArr (map norm l)
  | VObj f => VObj (sort_by key_le (map (fun kx => (kx.1, norm kx.2)) f))
  | VUndef => VNull
  | v => v
  end.

(** Without numbers, and without [undefined] inside. *)
Fixpoint plain (v : value) : bool :=
  match v with
  | VNum _ => false
  | VArr l => forallb plain l
  | VObj f => forallb (fun kx => plain kx.2) f
  | _ => true
  end.

Fixpoint settled (v : value) : bool :=
  match v with
  | VNum _ | VUndef => false
  | VArr l => forallb settled l
  | VObj f => forallb (fun kx => settled kx.2) f
  | _ => true
  end.

(** The text of a value in the order its properties have. *)
Fixpoint print (v : value) : string :=
  match v with
  | VArr l => "[" +:+ String.concat "," (map print l) +:+ "]"
  | VObj f => "{" +:+ String.concat "," (map (fun kx => json_quote kx.1 +:+ ":" +:+ print kx.2) f) +:+ "}"
  | VUndef => json_str VNull
  | v => json_str v
  end.

Section ValueInd.
Context (P : value -> Prop) (Hu : P VUndef) (Hn : P VNull) (Hb : forall b, P (VBool b)) (Hz : forall z, P (VNum z)) (Hs : forall s, P (VStr s))
  (Ha : forall l, Forall P l -> P (VArr l)) (Ho : forall f, Forall (fun kx => P kx.2) f -> P (VObj f)).

(** Induction through the elements of arrays and objects. *)
Lemma value_deep (v : value) : P v.
Proof.
  revert v. fix IH 1. intros [| |b|z|s|l|f]; [done|done|apply Hb|apply Hz|apply Hs|apply Ha|apply Ho].
  - induction l as [|x l IHl]; constructor; [apply IH|exact IHl].
  - induction f as [|[k x] f IHf]; constructor; [apply IH|exact IHf].
Qed.
End ValueInd.

Lemma sort_by_map {A B} (le : A -> A -> bool) (le' : B -> B -> bool) (h : A -> B) l :
  (forall x y, le' (h x) (h y) = le x y) -> sort_by le' (map h l) = map h (sort_by le l).
Proof.
  intros H. assert (Hi : forall x m, insert_by le' (h x) (map h m) = map h (insert_by le x m)).
  { intros x m. induction m as [|y m IH]; [done|]. cbn [map insert_by]. rewrite H. destruct (le x y); [done|]. cbn [map]. by rewrite IH. }
  induction l as [|x l IH]; [done|]. cbn [map sort_by foldr]. unfold sort_by in IH. rewrite IH. apply Hi.
Qed.

Lemma Forall_map_ext {A B} (f g : A -> B) l : Forall (fun x => f x = g x) l -> map f l = map g l.
Proof. induction 1 as [|x l H _ IH]; [done|]. cbn [map]. by rewrite H, IH. Qed.

Lemma canon_print (v : value) : canon v = print (norm v).
Proof.
  induction v as [| | | | |l IH|f IH] using value_deep; [done..| |]; cbn [canon norm print].
  - do 2 f_equal. f_equal. rewrite map_map. by apply Forall_map_ext.
  - do 2 f_equal. f_equal.
    assert (E : map (fun kx : string * value => (kx.1, canon kx.2)) f = map (fun kx : string * value => (kx.1, print kx.2)) (map (fun kx : string * value => (kx.1, norm kx.2)) f)).
    { rewrite map_map. apply Forall_map_ext. eapply Forall_impl; [exact IH|]. intros kx H. cbn. by rewrite H. }
    rewrite E, (sort_by_map key_le key_le (fun kx => (kx.1, print kx.2))) by done. by rewrite map_map.
Qed.

Lemma forallb_perm {A} (p : A -> bool) l l' : l ≡ₚ l' -> forallb p l = forallb p l'.
Proof.
  induction 1 as [|x l l' _ IH|x y l|l l' l'' _ IH1 _ IH2]; cbn [forallb]; [done|by rewrite IH| |congruence].
  by destruct (p x), (p y).
Qed.

Lemma forallb_map_ext {A B} (p : B -> bool) (q : A -> bool) (f : A -> B) l : Forall (fun x => p (f x) = q x) l -> forallb p (map f l) = forallb q l.
Proof. induction 1 as [|x l H _ IH]; [done|]. cbn [map forallb]. by rewrite H, IH. Qed.

Lemma settled_norm (v : value) : settled (norm v) = plain v.
Proof.
  induction v as [| | | | |l IH|f IH] using value_deep; [done..| |]; cbn [norm settled plain].
  - by apply forallb_map_ext.
  - rewrite (forallb_perm _ _ _ (sort_by_perm key_le _)). by apply forallb_map_ext.
Qed.

(** ** Texts end where they end *)

Section Separated.
Context {A : Type} (p : A -> string) (ok : A -> Prop) (close : ascii).
Context (Hhead : forall a, ok a -> exists c r, p a = String c r /\ c <> close) (Hclose : close <> ","%char).

Definition ends (a : A) : Prop := forall b x y, ok b -> p a +:+ x = p b +:+ y -> a = b /\ x = y.

Lemma sep_cons a l x : String.concat "," (map p (a :: l)) +:+ String close x =
  p a +:+ match l with [] => String close x | _ => String "," (String.concat "," (map p l) +:+ String close x) end.
Proof. destruct l as [|b l]; [done|]. cbn [map String.concat]. by rewrite !string_app_assoc. Qed.

(** A list of self-delimiting texts between separators is read in one way. *)
Lemma sep_inj l l' x y : Forall ends l -> Forall ok l -> Forall ok l' ->
  String.concat "," (map p l) +:+ String close x = String.concat "," (map p l') +:+ String close y -> l = l' /\ x = y.
Proof.
  revert l'. induction l as [|a l IH]; intros [|b l'] He Ho Ho'.
  - intros [= ->]. done.
  - apply Forall_cons in Ho' as [Hb _]. rewrite sep_cons. destruct (Hhead b Hb) as (c & r & E & Hc). rewrite E. intros [= <- _]. done.
  - apply Forall_cons in Ho as [Ha _]. rewrite sep_cons. destruct (Hhead a Ha) as (c & r & E & Hc). rewrite E. intros [= -> _]. done.
  - apply Forall_cons in Ho as [Ha Ho], Ho' as [Hb Ho'], He as [Hea He]. rewrite !sep_cons. intros E. apply Hea in E as [-> E]; [|done].
    destruct l as [|a2 l], l' as [|b2 l'].
    + by injection E as ->.
    + injection E as E _. done.
    + injection E as E _. done.
    + injection E as E. apply (IH (b2 :: l')) in E as [-> ->]; done.
Qed.
End Separated.

Lemma print_head v : settled v = true -> exists c r, print v = String c r /\ c <> "]"%char /\ c <> "}"%char.
Proof. intros H. destruct v as [| |[]| | |l|f]; try done; by eexists _, _. Qed.

Lemma forallb_Forall_iff {A} (p : A -> bool) l : forallb p l = true <-> Forall (fun x => p x = true) l.
Proof. rewrite forallb_forall, Forall_forall. by setoid_rewrite list_elem_of_In. Qed.

(** A text printed without numbers determines the value, whatever follows it. *)
Lemma print_inj v w x y : settled v = true -> settled w = true -> print v +:+ x = print w +:+ y -> v = w /\ x = y.
Proof.
  revert w x y. induction v as [| |b| |s|l IH|f IH] using value_deep; intros w x y Hv Hw E; try done.
  - destruct w as [| |[]| | | |]; try done; cbn in E; simplify_eq/=; done.
  - destruct b, w as [| |[]| | | |]; try done; cbn in E; simplify_eq/=; done.
  - destruct w as [| |[]| |t| |]; try done. cbn [print json_str] in E. by apply json_quote_inj in E as [-> ->].
  - destruct w as [| |[]| | |l'|]; try done. cbn [print settled] in *. rewrite !string_app_assoc in E. injection E as E.
    apply (sep_inj print (fun v => settled v = true)) in E as [-> ->]; [done| |done| |by apply forallb_Forall_iff..].
    + intros a Ha. destruct (print_head a Ha) as (c & r & -> & ? & _). by eexists _, _.
    + apply forallb_Forall_iff in Hv. rewrite Forall_forall in IH, Hv |- *. intros a Ha b x' y' Hb. by apply IH; [|apply Hv|].
  - destruct w as [| |[]| | | |g]; try done. cbn [print settled] in *. rewrite !string_app_assoc in E. injection E as E.
    apply (sep_inj (fun kx : string * value => json_quote kx.1 +:+ ":" +:+ print kx.2) (fun kx => settled kx.2 = true)) in E as [-> ->];
      [done| |done| |by apply forallb_Forall_iff..].
    + intros a _. by eexists _, _.
    + apply forallb_Forall_iff in Hv. rewrite Forall_forall in IH, Hv |- *. intros [k a] Ha [k' b] x' y' Hb. cbn [fst snd].
      rewrite !string_app_assoc. intros [-> E2]%json_quote_inj. injection E2 as E2. destruct (IH (k', a) Ha b x' y' (Hv _ Ha) Hb E2) as [Ea ->]. cbn [snd] in Ea. by subst a.
Qed.

(** Two values without numbers have the same text exactly when they are the same up
    to the order of properties. *)
Lemma canon_norm v w : plain v = true -> plain w = true -> (canon v = canon w <-> norm v = norm w).
Proof.
  intros Hv Hw. rewrite !canon_print. split; [|by intros ->]. intros E. apply (print_inj (norm v) (norm w) "" "").
  - by rewrite settled_norm.
  - by rewrite settled_norm.
  - by rewrite E.
Qed.

(** ** Sending what changed *)

Lemma norm_nn v : norm (v_nn v VNull) = norm v.
Proof. by destruct v. Qed.

Lemma plain_nn v : plain (v_nn v VNull) = plain v.
Proof. by destruct v. Qed.

Lemma assoc_elem {A} k (a : A) l : assoc k l = Some a -> (k, a) ∈ l.
Proof.
  induction l as [|[k' x] l IH]; [done|]. cbn [assoc]. destruct (String.eqb_spec k k') as [-> |]; [intros [= ->]; left|].
  intros H. right. by apply IH.
Qed.

Lemma elem_assoc {A} k (a : A) l : NoDup (map fst l) -> (k, a) ∈ l -> assoc k l = Some a.
Proof.
  induction l as [|[k' x] l IH]; intros Hn Hin; [by apply not_elem_of_nil in Hin|]. cbn [map fst] in Hn. apply NoDup_cons in Hn as [Hk Hn]. cbn [assoc].
  apply elem_of_cons in Hin as [[= <- <-]|Hin]; [by rewrite String.eqb_refl|]. destruct (String.eqb_spec k k') as [-> |]; [|by apply IH].
  exfalso. apply Hk. apply list_elem_of_In, in_map_iff. exists (k', a). split; [done|]. by apply list_elem_of_In.
Qed.

Lemma assoc_absent {A} k (l : list (string * A)) : k ∉ map fst l -> assoc k l = None.
Proof.
  intros H. destruct (assoc k l) as [a|] eqn:E; [|done]. exfalso. apply H, list_elem_of_In, in_map_iff. exists (k, a).
  split; [done|]. by apply list_elem_of_In, assoc_elem.
Qed.

(** [Object.assign]: the new value where there is one. *)
Lemma assign_lookup k (a b : list (string * value)) : NoDup (map fst b) ->
  assoc k (assign a b) = match assoc k b with Some x => Some x | None => assoc k a end.
Proof.
  unfold assign. revert a. induction b as [|[k' x] b IH]; intros a Hn; [done|]. cbn [map fst] in Hn. apply NoDup_cons in Hn as [Hk Hn].
  cbn [fold_left fst snd assoc]. rewrite IH by done. destruct (String.eqb_spec k k') as [-> |Hne].
  - rewrite (assoc_absent k' b) by done. apply assoc_set_same.
  - destruct (assoc k b); [done|]. by apply assoc_set_other.
Qed.

Lemma filter_keys_NoDup {A} (p : string * A -> bool) l : NoDup (map fst l) -> NoDup (map fst (List.filter p l)).
Proof.
  induction l as [|x l IH]; intros H; [done|]. cbn [map List.filter] in *. apply NoDup_cons in H as [Hx H]. destruct (p x); [|by apply IH].
  cbn [map]. apply NoDup_cons. split; [|by apply IH]. intros Hin. apply Hx. apply list_elem_of_In, in_map_iff in Hin as (y & E & Hy).
  apply filter_In in Hy as [Hy _]. rewrite <- E. by apply list_elem_of_In, in_map.
Qed.

Lemma diffOf_elem next cur k a : (k, a) ∈ diffOf next cur <-> (k, a) ∈ next /\ canon a <> canon (v_nn (fld cur k) VNull).
Proof. unfold diffOf. rewrite list_elem_of_In, filter_In, <- list_elem_of_In. cbn [fst snd]. by rewrite negb_true_iff, String.eqb_neq. Qed.

Definition all_plain (l : list (string * value)) : Prop := forall k a, (k, a) ∈ l -> plain a = true.

Lemma plain_fld f k : all_plain f -> plain (fld (VObj f) k) = true.
Proof. intros H. cbn [fld]. destruct (assoc k f) as [a|] eqn:E; [|done]. by eapply H, assoc_elem. Qed.

(** An update sends exactly what changed.  Merging the changed keys into the
    stored row gives every field the value of the form, up to the order of
    properties; no key is sent whose value is already stored; and no other field of
    the row is touched. *)
Theorem update_sends_what_changed (next cur : list (string * value)) :
  NoDup (map fst next) -> all_plain next -> all_plain cur ->
  let d := diffOf next (VObj cur) in
  (forall k a, (k, a) ∈ next -> norm (fld (VObj (assign cur d)) k) = norm a) /\
  (forall k a, (k, a) ∈ d -> (k, a) ∈ next /\ norm (fld (VObj cur) k) <> norm a) /\
  (forall k, k ∉ map fst next -> fld (VObj (assign cur d)) k = fld (VObj cur) k).
Proof.
  intros Hn Hp Hc d.
  assert (Hcn : forall k a, (k, a) ∈ next -> canon a = canon (v_nn (fld (VObj cur) k) VNull) <-> norm (fld (VObj cur) k) = norm a).
  { intros k a Hin. rewrite canon_norm, norm_nn; [done|by eapply Hp|]. rewrite plain_nn. by apply plain_fld. }
  assert (Hd : forall k a, (k, a) ∈ next -> (k, a) ∈ d <-> norm (fld (VObj cur) k) <> norm a).
  { intros k a Hin. unfold d. rewrite diffOf_elem, <- Hcn by done. naive_solver. }
  assert (Hnd : NoDup (map fst d)) by by apply filter_keys_NoDup. split_and!.
  - intros k a Hin. cbn [fld]. rewrite assign_lookup by done. destruct (decide (canon a = canon (v_nn (fld (VObj cur) k) VNull))) as [E|E].
    + apply Hcn in E; [|done]. rewrite assoc_absent; [exact E|]. intros Hk. apply list_elem_of_In, in_map_iff in Hk as ([k' b] & Ek & Hb).
      cbn [fst] in Ek. subst k'. apply list_elem_of_In in Hb. pose proof Hb as [Hb' _]%diffOf_elem. apply Hd in Hb; [|done]. apply Hb.
      apply (elem_assoc k b next Hn) in Hb'. apply (elem_assoc k a next Hn) in Hin. congruence.
    + rewrite Hcn in E by done. apply Hd in E; [|done]. by rewrite (elem_assoc k a d Hnd E).
  - intros k a Hin. pose proof Hin as [Hin' _]%diffOf_elem. split; [done|]. by apply Hd.
  - intros k Hk. cbn [fld]. rewrite assign_lookup, assoc_absent; [done| |done]. intros Hin. apply Hk.
    apply list_elem_of_In, in_map_iff in Hin as ([k' b] & <- & Hb). apply list_elem_of_In, diffOf_elem in Hb as [Hb _].
    apply list_elem_of_In, in_map. by apply list_elem_of_In.
Qed.

Definition demo_row : list (string * value) := [("id", VStr "7"); ("notes", VNull); ("spec", VObj [("a", VBool true); ("b", VArr [VStr "x"])])].
Definition demo_next : list (string * value) := [("notes", VStr "n"); ("spec", VObj [("b", VArr [VStr "x"]); ("a", VBool true)])].

Lemma update_sends_what_changed_witness :
  diffOf demo_next (VObj demo_row) = [("notes", VStr "n")] /\
  norm (fld (VObj (assign demo_row (diffOf demo_next (VObj demo_row)))) "spec") = norm (VObj [("b", VArr [VStr "x"]); ("a", VBool true)]).
Proof.
  split; [reflexivity|].
  refine (proj1 (update_sends_what_changed demo_next demo_row _ _ _) "spec" (VObj [("b", VArr [VStr "x"]); ("a", VBool true)]) _).
  - apply (bool_decide_unpack _). vm_compute. exact I.
  - intros k a Hin. repeat (apply elem_of_cons in Hin as [[= -> ->]|Hin]; [reflexivity|]). by apply not_elem_of_nil in Hin.
  - intros k a Hin. repeat (apply elem_of_cons in Hin as [[= -> ->]|Hin]; [reflexivity|]). by apply not_elem_of_nil in Hin.
  - right. left.
Defined.

(** ** A saved row is clean *)

Definition stored (body : list (string * value)) (row : value) : Prop := forall k a, (k, a) ∈ body -> fld row k = a.

Lemma clean_save body row : truthy row = true -> stored body row -> save_of false false row body = NoChange.
Proof.
  intros Ht Hs. unfold save_of. rewrite Ht. cbn [orb]. destruct (diffOf body row) as [|[k a] d] eqn:E; [done|exfalso].
  assert (Hin : (k, a) ∈ diffOf body row) by (rewrite E; left). apply diffOf_elem in Hin as [Hin Hne]. apply Hne.
  rewrite (Hs k a Hin). by destruct a.
Qed.

Lemma nnv_again s : nnv (text (nnv s)) = nnv s.
Proof. unfold nnv, put. destruct (nn s) as [t|] eqn:E; [|done]. cbn. by rewrite (proj1 (nn_some s t E)). Qed.

(** The selects of a pool entry: a type, and a restriction that is [null] or a list. *)
Definition sw_ok (f : swform) : Prop :=
  item_type f <> "" /\ v_or (applies_families f) VNull = applies_families f /\ v_or (applies_arches f) VNull = applies_arches f.

Ltac field H := apply H; rewrite list_elem_of_In; cbn; tauto.

Lemma sw_body_again f spec row : sw_ok f -> truthy row = true -> stored (swBody f spec) row -> swBody (swForm row) spec = swBody f spec.
Proof.
  intros (Hty & Hfam & Harch) Ht H.
  assert (E1 : fld row "logical_name" = VStr (trim (logical_name f))) by field H.
  assert (E2 : fld row "item_type" = VStr (item_type f)) by field H.
  assert (En : forall x, In x FAMS -> fld row ("name_" +:+ x) = name_of f x) by (intros x [<- |[<- |[<- |[]]]]; field H).
  assert (E3 : fld row "applies_families" = applies_families f) by field H.
  assert (E4 : fld row "applies_arches" = applies_arches f) by field H.
  assert (E5 : fld row "ansible_role" = if String.eqb (item_type f) "role" then nnv (ansible_role f) else VNull) by field H.
  assert (E6 : fld row "source_url" = nnv (source_url f)) by field H.
  assert (E7 : fld row "version_pin" = nnv (version_pin f)) by field H.
  assert (E8 : fld row "notes" = nnv (notes f)) by field H.
  unfold swBody. f_equal; [|f_equal].
  - unfold swForm. cbn [logical_name item_type]. rewrite E1, E2, text_or_str by done. cbn [text]. by rewrite trim_trim.
  - apply map_ext_in. intros x Hx. f_equal. unfold name_of at 1, swForm. cbn [item_type names support]. rewrite (En x Hx), E2, text_or_str, Ht by done.
    unfold name_of. destruct (String.eqb (item_type f) "pkg"); [apply nnv_again|]. by destruct (support f x).
  - unfold swForm. cbn [item_type applies_families applies_arches ansible_role source_url version_pin notes].
    rewrite E2, E3, E4, E5, E6, E7, E8, text_or_str, Hfam, Harch, !nnv_again by done. by destruct (String.eqb (item_type f) "role"); rewrite ?nnv_again.
Qed.

Lemma image_body_again f row : truthy row = true -> stored (imageBody f) row -> imageBody (imageForm row) = imageBody f.
Proof.
  intros Ht H. unfold imageForm. rewrite Ht. unfold imageBody at 1.
  cbn [i_distro i_family i_release_name i_release_label i_arch i_boot_method i_source_url i_checksum_url i_install_template i_refresh_policy i_netboot_verified i_notes].
  assert (E : forall k a, In (k, a) (imageBody f) -> fld row k = a) by (intros k a Hin; by apply H, list_elem_of_In).
  unfold imageBody in E. cbn [In] in E.
  rewrite (E "distro" _ ltac:(eauto 20)), (E "family" _ ltac:(eauto 20)), (E "release_name" _ ltac:(eauto 20)), (E "release_label" _ ltac:(eauto 20)),
    (E "arch" _ ltac:(eauto 20)), (E "boot_method" _ ltac:(eauto 20)), (E "source_url" _ ltac:(eauto 20)), (E "checksum_url" _ ltac:(eauto 20)),
    (E "install_template" _ ltac:(eauto 20)), (E "refresh_policy" _ ltac:(eauto 20)), (E "netboot_verified" _ ltac:(eauto 20)), (E "notes" _ ltac:(eauto 20)).
  cbn [text truthy]. rewrite !nnv_again, !trim_trim. unfold imageBody. by destruct (String.eqb (i_family f) "") eqn:Ef; cbn [text]; rewrite ?Ef.
Qed.

(** A saved entry is clean.  When the server stores the fields a save sends it,
    the editor that adopts the stored row sends nothing on the next save, whatever
    text, type and spec were entered; the same holds for an image. *)
Theorem saved_entry_is_clean (f : swform) (st : form) (i : imgform) (row img : value) :
  sw_ok f -> (item_type f = "script" -> script_ok st) -> (item_type f = "build" -> build_ok st) ->
  truthy row = true -> stored (swBody f (specJson (item_type f) st)) row ->
  truthy img = true -> stored (imageBody i) img ->
  save_of false false row (swBody (swForm row) (specJson (item_type (swForm row)) (specState (fld row "spec")))) = NoChange /\
  save_of false false img (imageBody (imageForm img)) = NoChange.
Proof.
  intros Hok Hs Hb Ht Hrow Hti Himg. split.
  - assert (E2 : item_type (swForm row) = item_type f).
    { unfold swForm. cbn [item_type]. replace (fld row "item_type") with (VStr (item_type f)) by (symmetry; field Hrow). apply text_or_str, Hok. }
    assert (Es : fld row "spec" = specJson (item_type f) st) by field Hrow.
    rewrite E2, Es, spec_again, (sw_body_again _ _ row) by done. by apply clean_save.
  - rewrite (image_body_again i) by done. by apply clean_save.
Qed.

Definition demo_sw : swform :=
  SwForm " ffmpeg " "script" (fun _ => "") (fun f => String.eqb f "suse") VNull (VArr [VStr "arm64"]) "" "https://h " "" " x ".
Definition demo_sw_row : value := VObj (("id", VStr "3") :: swBody demo_sw (specJson "script" demo_form)).
Definition demo_img : imgform := setDistro "ubuntu" (imageForm VNull).
Definition demo_img_row : value := VObj (("id", VStr "4") :: imageBody demo_img).

Lemma saved_entry_is_clean_witness :
  save_of false false demo_sw_row (swBody (swForm demo_sw_row) (specJson (item_type (swForm demo_sw_row)) (specState (fld demo_sw_row "spec")))) = NoChange /\
  save_of false false demo_img_row (imageBody (imageForm demo_img_row)) = NoChange.
Proof.
  apply (saved_entry_is_clean demo_sw demo_form demo_img).
  - split; [discriminate|split; reflexivity].
  - intros _. split; [|discriminate]. intros _. eexists. reflexivity.
  - discriminate.
  - reflexivity.
  - intros k a Hin. apply list_elem_of_In in Hin. cbn in Hin. repeat (destruct Hin as [[= <- <-]|Hin]; [reflexivity|]). done.
  - reflexivity.
  - intros k a Hin. apply list_elem_of_In in Hin. cbn in Hin. repeat (destruct Hin as [[= <- <-]|Hin]; [reflexivity|]). done.
Defined.

(** ** Members in order *)

Definition order_of (us : list (Z * option Z)) (m : member) : member := fold_left (fun m u => put_order u m) us m.

Lemma apply_puts_map us l : apply_puts us l = map (order_of us) l.
Proof.
  unfold apply_puts. revert l. induction us as [|u us IH]; intros l; cbn [fold_left]; [symmetry; apply map_id|].
  rewrite IH, map_map. apply map_ext. done.
Qed.

Lemma order_of_id us m : software_id (order_of us m) = software_id m.
Proof.
  revert m. induction us as [|u us IH]; intros m; [done|]. unfold order_of. cbn [fold_left]. fold (order_of us (put_order u m)). rewrite IH.
  unfold put_order. by destruct (_ =? _)%Z.
Qed.

Lemma order_of_other us m : software_id m ∉ map fst us -> order_of us m = m.
Proof.
  revert m. induction us as [|u us IH]; intros m H; [done|]. cbn [map] in H. apply not_elem_of_cons in H as [Hne H]. unfold order_of. cbn [fold_left]. fold (order_of us (put_order u m)).
  unfold put_order. rewrite (proj2 (Z.eqb_neq _ _) Hne). by apply IH.
Qed.

Definition pin (k : nat) (m : member) : member := Member (software_id m) (Some (pinned k)).

Definition puts_from (n : nat) (l : list member) : list (Z * option Z) :=
  concat (imap (fun k m => if bool_decide (item_order m = Some (pinned (n + k))) then [] else [(software_id m, Some (pinned (n + k)))]) l).

Lemma puts_from_cons n m l : puts_from n (m :: l) =
  (if bool_decide (item_order m = Some (pinned n)) then [] else [(software_id m, Some (pinned n))]) ++ puts_from (S n) l.
Proof.
  unfold puts_from. cbn [imap concat]. rewrite Nat.add_0_r. f_equal. f_equal. apply imap_ext. intros k x _. cbn. by rewrite Nat.add_succ_r.
Qed.

Lemma puts_from_ids n l x : x ∈ map fst (puts_from n l) -> x ∈ map software_id l.
Proof.
  revert n. induction l as [|m l IH]; intros n; [done|]. rewrite puts_from_cons, map_app, elem_of_app. cbn [map]. intros [H|H]; [|right; by eapply IH].
  destruct (bool_decide _); [by apply not_elem_of_nil in H|]. apply elem_of_cons in H as [-> |H]; [left|by apply not_elem_of_nil in H].
Qed.

(** Every member ends at the order of its place. *)
Lemma puts_pin n l : NoDup (map software_id l) -> map (order_of (puts_from n l)) l = imap (fun k m => pin (n + k) m) l.
Proof.
  revert n. induction l as [|m l IH]; intros n Hn; [done|]. cbn [map] in Hn. apply NoDup_cons in Hn as [Hm Hn]. cbn [map imap]. f_equal.
  - rewrite puts_from_cons. unfold order_of. rewrite fold_left_app. fold (order_of (puts_from (S n) l)).
    rewrite Nat.add_0_r. case_bool_decide as E; cbn [fold_left].
    + rewrite order_of_other by (intros H; by apply Hm, (puts_from_ids (S n))). destruct m as [a b]. cbn in E. by subst b.
    + unfold put_order. rewrite Z.eqb_refl. rewrite order_of_other; [done|]. intros H. by apply Hm, (puts_from_ids (S n)).
  - transitivity (map (order_of (puts_from (S n) l)) l).
    + apply map_ext_in. intros x Hx. rewrite puts_from_cons. unfold order_of. rewrite fold_left_app. fold (order_of (puts_from (S n) l)).
      destruct (bool_decide _); [done|]. cbn [fold_left]. unfold put_order. cbn [fst snd]. destruct (Z.eqb_spec (software_id x) (software_id m)) as [E|]; [|done].
      exfalso. apply Hm. rewrite <- E. by apply list_elem_of_In, in_map.
    + rewrite IH by done. apply imap_ext. intros k x _. cbn. by rewrite Nat.add_succ_r.
Qed.

Lemma swap_perm i j l l' : swap i j l = Some l' -> l' ≡ₚ l.
Proof.
  unfold swap. destruct (l !! i) as [a|] eqn:Ei, (l !! j) as [b|] eqn:Ej; try done. intros [= <-]. by apply Permutation_insert_swap.
Qed.

(** After a move the stored members are those of the exchanged list, each at the
    order of its place. *)
Theorem move_puts_members_in_place members i dir us : NoDup (map software_id members) -> move members i dir = Some us ->
  exists l', swap (Z.to_nat i) (Z.to_nat (i + dir)) members = Some l' /\ l' ≡ₚ members /\ apply_puts us members ≡ₚ imap pin l'.
Proof.
  intros Hn. unfold move. cbv zeta. destruct (_ || _); [done|]. destruct (swap _ _ members) as [l'|] eqn:E; [|done]. intros [= <-].
  pose proof (swap_perm _ _ _ _ E) as Hp. exists l'. split_and!; [done|done|]. rewrite apply_puts_map, <- Hp. change (puts l') with (puts_from 0 l').
  rewrite puts_pin; [done|]. by rewrite Hp.
Qed.
