(* ===== verification/Markdown.v ===== *)
(** * The report renderer (screens3.jsx)

    [Markdown] turns a report's text into React blocks, [mdInline] a line of it into
    spans; links are filtered by scheme.  Every regular expression of the source is
    a function here; white space is ASCII, and the React keys are left out.  [doc]
    is the grammar the renderer is checked against. *)

From Stdlib Require Import ZArith Lia Ascii.
From stdpp Require Import strings list.
From S2P Require Import Prelude JsNum JsValue.

Local Open Scope string_scope.
Local Open Scope list_scope.

Definition newline : ascii := Ascii.ascii_of_nat 10.
Definition cr : ascii := Ascii.ascii_of_nat 13.
Definition pipe : ascii := "|"%char.

(** ** Spans *)

Definition is_char (c x : ascii) : bool := Ascii.eqb x c.

(** [[^c]+c]: what precedes the first [c], and what follows it. *)
Definition until (c : ascii) (s : string) : option (string * string) :=
  match span (fun x => negb (is_char c x)) s with
  | ("", _) | (_, "") => None
  | (a, String _ r) => Some (a, r)
  end.

Inductive token := TPlain (s : string) | TCode (s : string) | TStrong (s : string) | TLink (label href : string) | TEm (mark : ascii) (s : string).

(** The expression of [mdInline] at the start of a text: the token and the rest. *)
Definition match_at (s : string) : option (token * string) :=
  match s with
  | String "`" r => '(a, r') ← until "`" r; Some (TCode a, r')
  | String "*" (String "*" r) =>
      match until "*" r with Some (a, String "*" r') => Some (TStrong a, r') | _ => None end
  | String "[" r =>
      match until "]" r with
      | Some (label, String "(" r') => '(href, r'') ← until ")" r'; Some (TLink label href, r'')
      | _ => None
      end
  | String "*" r => '(a, r') ← until "*" r; Some (TEm "*" a, r')
  | String "_" r => '(a, r') ← until "_" r; Some (TEm "_" a, r')
  | _ => None
  end.

(** [re.exec]: what precedes the first match, and the match. *)
Fixpoint exec (s : string) : string * option (token * string) :=
  match s with
  | "" => ("", None)
  | String c r =>
      match match_at s with
      | Some m => ("", Some m)
      | None => let '(pre, m) := exec r in (String c pre, m)
      end
  end.

Fixpoint tokens (fuel : nat) (rest : string) : list token :=
  match fuel with
  | O => []
  | S n =>
      if String.eqb rest "" then []
      else match exec rest with
           | (_, None) => [TPlain rest]
           | (pre, Some (t, rest')) => (if String.eqb pre "" then [] else [TPlain pre]) ++ t :: tokens n rest'
           end
  end.

Inductive node := NText (s : string) | NCode (s : string) | NStrong (s : string) | NLink (label href : string) | NEm (s : string).

(** [/^(https?:|\/|#|mailto:)/i]. *)
Definition safe (href : string) : bool :=
  let l := toLowerCase href in
  starts_with "http:" l || starts_with "https:" l || starts_with "/" l || starts_with "#" l || starts_with "mailto:" l.

Definition render (t : token) : node :=
  match t with
  | TPlain s => NText s
  | TCode s => NCode s
  | TStrong s => NStrong s
  | TLink label href => NLink label (if safe href then href else "#")
  | TEm _ s => NEm s
  end.

Definition mdInline (s : string) : list node := map render (tokens (String.length s) s).

(** ** Lines *)

(** [s.slice(0, -1)] when the last character is a bar. *)
Fixpoint chop (s : string) : string :=
  match s with
  | "" => ""
  | String c "" => if is_char pipe c then "" else s
  | String c r => String c (chop r)
  end.

Definition strip_bar (s : string) : string := match s with String "|" r => r | _ => s end.

Definition mdSplitRow (line : string) : list string := map trim (split_char pipe (chop (strip_bar (trim line)))).

Definition fence (l : string) : bool := starts_with "```" (trim l).

(** [/^\s*([-*_])(\s*\1){2,}\s*$/]. *)
Definition rule (l : string) : bool :=
  match List.filter (fun c => negb (is_ws c)) (chars l) with
  | c :: r => (is_char "-" c || is_char "*" c || is_char "_" c) && forallb (is_char c) r && (2 <=? length r)%nat
  | [] => false
  end.

Definition starts_ws (s : string) : bool := match s with String c _ => is_ws c | "" => false end.

(** [/^#{1,6}\s+/]: the level and the rest. *)
Definition hashes (l : string) : option (nat * string) :=
  let '(h, r) := span (is_char "#") l in
  let n := String.length h in
  if (1 <=? n)%nat && (n <=? 6)%nat && starts_ws r then Some (n, trimStart r) else None.

(** The expression of a heading: hashes, white space and text up to the end; its dot
    stops at a carriage return. *)
Definition heading (l : string) : option (nat * string) :=
  match hashes l with
  | Some (n, t) => if sall (fun c => negb (is_char cr c)) t then Some (n, t) else None
  | None => None
  end.

(** [/^\s*\|?\s*:?-{2,}/]. *)
Definition separator (l : string) : bool :=
  let s := trimStart (strip_bar (trimStart l)) in
  starts_with "--" (match s with String ":" r => r | _ => s end).

(** [/^\s*>\s?/], [/^\s*[-*+]\s+/] and [/^\s*\d+[.)]\s+/]: the line without it. *)
Definition quote (l : string) : option string :=
  match trimStart l with
  | String ">" r => Some (match r with String c r' => if is_ws c then r' else r | "" => r end)
  | _ => None
  end.

Definition bullet (l : string) : option string :=
  match trimStart l with
  | String c r => if (is_char "-" c || is_char "*" c || is_char "+" c) && starts_ws r then Some (trimStart r) else None
  | "" => None
  end.

Definition ordered (l : string) : option string :=
  match span is_digit (trimStart l) with
  | (String _ _, String c r) => if (is_char "." c || is_char ")" c) && starts_ws r then Some (trimStart r) else None
  | _ => None
  end.

Definition is_some {A} (o : option A) : bool := match o with Some _ => true | None => false end.

Definition isBlockStart (l : string) : bool :=
  starts_with "```" l || is_some (bullet l) || is_some (ordered l) || is_some (hashes l) || is_some (quote l) || rule l.

Definition has_bar (l : string) : bool := contains "|" l.

Definition blank (l : string) : bool := String.eqb (trim l) "".

(** ** Blocks *)

Inductive block :=
| Pre (code : string) | Hr | Heading (lvl : nat) (t : list node) | Table (header : list (list node)) (rows : list (list (list node)))
| Quote (t : list node) | Ul (items : list (list node)) | Ol (items : list (list node)) | P (t : list node).

Fixpoint take_while (p : string -> bool) (l : list string) : list string * list string :=
  match l with
  | [] => ([], [])
  | x :: r => if p x then let '(a, b) := take_while p r in (x :: a, b) else ([], l)
  end.

Fixpoint take_some (f : string -> option string) (l : list string) : list string * list string :=
  match l with
  | [] => ([], [])
  | x :: r => match f x with Some y => let '(a, b) := take_some f r in (y :: a, b) | None => ([], l) end
  end.

Definition in_table (l : string) : bool := has_bar l && negb (blank l).
Definition in_paragraph (l : string) : bool := negb (blank l) && negb (isBlockStart l).

Definition row (l : string) : list (list node) := map mdInline (mdSplitRow l).

Definition is_table (line : string) (rest : list string) : bool :=
  has_bar line && match rest with next :: _ => contains "-" next && separator next | [] => false end.

(** The block that starts at a line, if any, and the lines after it. *)
Definition block_at (line : string) (rest : list string) : option block * list string :=
  if fence line
  then let '(buf, r) := take_while (fun l => negb (fence l)) rest in (Some (Pre (String.concat (String newline "") buf)), tail r)
  else if blank line then (None, rest)
  else if rule line then (Some Hr, rest)
  else match heading line with
  | Some (n, t) => (Some (Heading (Nat.min n 4) (mdInline t)), rest)
  | None =>
  if is_table line rest
  then let '(rows, r) := take_while in_table (tail rest) in (Some (Table (row line) (map row rows)), r)
  else if is_some (quote line)
  then let '(buf, r) := take_some quote (line :: rest) in (Some (Quote (mdInline (String.concat " " buf))), r)
  else if is_some (bullet line)
  then let '(items, r) := take_some bullet (line :: rest) in (Some (Ul (map mdInline items)), r)
  else if is_some (ordered line)
  then let '(items, r) := take_some ordered (line :: rest) in (Some (Ol (map mdInline items)), r)
  else let '(buf, r) := take_while in_paragraph rest in (Some (P (mdInline (String.concat " " (line :: buf)))), r)
  end.

Fixpoint blocks (fuel : nat) (lines : list string) : list block :=
  match fuel, lines with
  | S n, line :: rest => let '(b, r) := block_at line rest in option_list b ++ blocks n r
  | _, _ => []
  end.

(** [s.replace(/\r\n/g, "\n")]. *)
Fixpoint unix (s : string) : string :=
  match s with
  | String c (String d r as t) => if is_char cr c && is_char newline d then String d (unix r) else String c (unix t)
  | _ => s
  end.

Definition lines_of (source : string) : list string := split_char newline (unix source).

Definition Markdown (source : string) : option (list block) :=
  if String.eqb source "" then None else Some (blocks (length (lines_of source)) (lines_of source)).

Example md_sample : Markdown "# Hi *a*
x [l](javascript:1) `c`
  - no
- one
2) two" = Some [Heading 1 [NText "Hi "; NEm "a"]; P [NText "x "; NLink "l" "#"; NText " "; NCode "c"]; Ul [[NText "no"]; [NText "one"]]; Ol [[NText "two"]]].
Proof. reflexivity. Qed.

(** ** No text is lost in a line *)

Definition source (t : token) : string :=
  match t with
  | TPlain s => s
  | TCode s => "`" +:+ s +:+ "`"
  | TStrong s => "**" +:+ s +:+ "**"
  | TLink label href => "[" +:+ label +:+ "](" +:+ href +:+ ")"
  | TEm m s => String m (s +:+ String m "")
  end.

Definition sources (l : list token) : string := foldr (fun t s => source t +:+ s) "" l.

Lemma until_app c s a r : until c s = Some (a, r) -> s = a +:+ String c r /\ a <> "".
Proof.
  unfold until. pose proof (span_parts (fun x => negb (is_char c x)) s) as H. destruct (span _ s) as [u v] eqn:E.
  destruct u as [|x u], v as [|y v]; try done. intros [= <- <-]. apply span_stop in E. apply negb_false_iff, Ascii.eqb_eq in E. by subst.
Qed.

Lemma em_app m s t r : ('(a, r') ← until m s; Some (TEm m a, r')) = Some (t, r) -> String m s = source t +:+ r.
Proof.
  destruct (until m s) as [[a r']|] eqn:E; [|done]. cbn. intros [= <- <-]. apply until_app in E as [-> _]. cbn [source].
  change (String m (a +:+ String m r') = String m ((a +:+ String m "") +:+ r')). by rewrite string_app_assoc.
Qed.

(** A match is a piece of the text. *)
Lemma match_at_app s t r : match_at s = Some (t, r) -> s = source t +:+ r.
Proof.
  destruct s as [|[[] [] [] [] [] [] [] []] s]; try done.
  - apply em_app.
  - cbn [match_at]. destruct (until "]" s) as [[l r1]|] eqn:E1; [|done]. destruct r1 as [|[[] [] [] [] [] [] [] []] r1]; try done.
    destruct (until ")" r1) as [[h r2]|] eqn:E2; [|done]. cbn. intros [= <- <-]. apply until_app in E1 as [-> _], E2 as [-> _].
    cbn [source]. by rewrite !string_app_assoc.
  - destruct s as [|[[] [] [] [] [] [] [] []] s]; try apply em_app. cbn [match_at].
    destruct (until "*" s) as [[a r1]|] eqn:E; [|done]. destruct r1 as [|[[] [] [] [] [] [] [] []] r1]; try done. intros [= <- <-].
    apply until_app in E as [-> _]. cbn [source]. by rewrite !string_app_assoc.
  - cbn [match_at]. destruct (until "`" s) as [[a r']|] eqn:E; [|done]. cbn. intros [= <- <-]. apply until_app in E as [-> _].
    cbn [source]. by rewrite !string_app_assoc.
Qed.

Lemma match_at_plain s x r : match_at s <> Some (TPlain x, r).
Proof.
  destruct s as [|[[] [] [] [] [] [] [] []] s]; try done.
  - cbn [match_at]. by destruct (until _ s) as [[]|].
  - cbn [match_at]. destruct (until "]" s) as [[l r1]|]; [|done]. destruct r1 as [|[[] [] [] [] [] [] [] []] r1]; try done. by destruct (until _ r1) as [[]|].
  - destruct s as [|[[] [] [] [] [] [] [] []] s]; cbn [match_at]; try (by destruct (until _ _) as [[]|]).
    destruct (until "*" s) as [[a r1]|]; [|done]. by destruct r1 as [|[[] [] [] [] [] [] [] []] r1].
  - cbn [match_at]. by destruct (until _ s) as [[]|].
Qed.

Lemma exec_app s : match exec s with
  | (pre, Some (t, r)) => s = pre +:+ source t +:+ r /\ source t <> ""
  | (pre, None) => True
  end.
Proof.
  induction s as [|c s IH]; [done|]. cbn [exec]. destruct (match_at (String c s)) as [[t r]|] eqn:E.
  - split; [by apply match_at_app in E|]. destruct t as [x| | | |]; try done. by apply match_at_plain in E.
  - destruct (exec s) as [pre [[t r]|]]; [|done]. destruct IH as [-> H]. done.
Qed.

(** The spans of a line, written back, are the line. *)
Lemma tokens_lossless fuel s : (String.length s <= fuel)%nat -> sources (tokens fuel s) = s.
Proof.
  revert s. induction fuel as [|n IH]; intros s Hf; [destruct s; [done|cbn in Hf; lia]|]. cbn [tokens].
  destruct (String.eqb_spec s "") as [-> |Hs]; [done|]. pose proof (exec_app s) as H. destruct (exec s) as [pre [[t r]|]].
  - destruct H as [-> Ht]. assert (Hr : sources (tokens n r) = r).
    { apply IH. rewrite !string_app_length in Hf. assert (0 < String.length (source t))%nat by (destruct (source t); [done|cbn; lia]). lia. }
    destruct (String.eqb_spec pre "") as [-> |]; cbn [app sources foldr source]; fold (sources (tokens n r)); by rewrite Hr.
  - cbn. apply string_app_nil_r.
Qed.

(** ** Links *)

(** The scheme a browser reads in a link: control characters and spaces before it
    and tabs and line ends inside it are dropped. *)
Definition code (c : ascii) : nat := Ascii.nat_of_ascii c.
Definition is_alpha (c : ascii) : bool := let n := code (lower_char c) in (97 <=? n)%nat && (n <=? 122)%nat.
Definition scheme_char (c : ascii) : bool := is_alpha c || is_digit c || is_char "+" c || is_char "-" c || is_char "." c.
Definition kept (c : ascii) : bool := negb ((code c =? 9)%nat || (code c =? 10)%nat || (code c =? 13)%nat).

Fixpoint strip_controls (s : string) : string :=
  match s with String c r => if (code c <=? 32)%nat then strip_controls r else s | "" => "" end.

Fixpoint drop_breaks (s : string) : string :=
  match s with String c r => if kept c then String c (drop_breaks r) else drop_breaks r | "" => "" end.

Fixpoint scan_scheme (s : string) : option string :=
  match s with
  | "" => None
  | String c r => if is_char ":" c then Some "" else if scheme_char c then String (lower_char c) <$> scan_scheme r else None
  end.

Definition url_scheme (href : string) : option string :=
  match drop_breaks (strip_controls href) with
  | String c r => if is_alpha c then scan_scheme (String c r) else None
  | "" => None
  end.

Lemma letter_facts c : is_alpha (lower_char c) = true ->
  kept c = true /\ scheme_char c = true /\ is_char ":" c = false /\ is_alpha c = true /\ (code c <=? 32)%nat = false.
Proof. destruct c as [[] [] [] [] [] [] [] []]; vm_compute; intros; split_and!; done. Qed.

Lemma colon_fact c : lower_char c = ":"%char -> c = ":"%char.
Proof. destruct c as [[] [] [] [] [] [] [] []]; vm_compute; intros; done. Qed.

Lemma scan_prefix p s : sall is_alpha p = true -> starts_with (p +:+ ":") (toLowerCase s) = true -> scan_scheme (drop_breaks s) = Some p.
Proof.
  revert s. induction p as [|x p IH]; intros [|c s] Hp; try done.
  - change (starts_with ":" (String (lower_char c) (toLowerCase s)) = true -> scan_scheme (drop_breaks (String c s)) = Some "").
    cbn [starts_with]. destruct (Ascii.eqb_spec ":" (lower_char c)) as [E|]; [|done]. intros _. symmetry in E. apply colon_fact in E as ->. done.
  - change (starts_with (String x (p +:+ ":")) (String (lower_char c) (toLowerCase s)) = true -> scan_scheme (drop_breaks (String c s)) = Some (String x p)).
    cbn [starts_with sall] in *. apply andb_prop in Hp as [Hx Hp]. destruct (Ascii.eqb_spec x (lower_char c)) as [-> |]; [|done].
    intros H. apply letter_facts in Hx as (H1 & H2 & H3 & _). cbn [drop_breaks]. rewrite H1. cbn [scan_scheme]. by rewrite H2, H3, (IH s Hp H).
Qed.

Lemma scheme_prefix p s : p <> "" -> sall is_alpha p = true -> starts_with (p +:+ ":") (toLowerCase s) = true -> url_scheme s = Some p.
Proof.
  intros Hne Hp H. pose proof (scan_prefix p s Hp H) as E. destruct p as [|x p]; [done|]. destruct s as [|c s]; [done|].
  change (starts_with (String x (p +:+ ":")) (String (lower_char c) (toLowerCase s)) = true) in H. cbn [starts_with sall] in *.
  apply andb_prop in Hp as [Hx Hp]. destruct (Ascii.eqb_spec x (lower_char c)) as [-> |]; [|done].
  apply letter_facts in Hx as (H1 & _ & _ & H4 & H5). unfold url_scheme. cbn [strip_controls]. rewrite H5. cbn [drop_breaks] in *. by rewrite H1, H4 in *.
Qed.

Definition web_schemes : list (option string) := [None; Some "http"; Some "https"; Some "mailto"].

Lemma safe_scheme href : safe href = true -> url_scheme href ∈ web_schemes.
Proof.
  unfold safe. cbv zeta. intros H. apply orb_prop in H as [H|H]; [apply orb_prop in H as [H|H]; [apply orb_prop in H as [H|H]; [apply orb_prop in H as [H|H]|]|]|].
  - rewrite (scheme_prefix "http" href) by done. apply list_elem_of_In. cbn. tauto.
  - rewrite (scheme_prefix "https" href) by done. apply list_elem_of_In. cbn. tauto.
  - destruct href as [|c r]; [done|]. assert (c = "/"%char) as -> by (revert H; destruct c as [[] [] [] [] [] [] [] []]; vm_compute; done). left.
  - destruct href as [|c r]; [done|]. assert (c = "#"%char) as -> by (revert H; destruct c as [[] [] [] [] [] [] [] []]; vm_compute; done). left.
  - rewrite (scheme_prefix "mailto" href) by done. apply list_elem_of_In. cbn. tauto.
Qed.

Definition ok_node (n : node) : Prop := match n with NLink _ href => url_scheme href ∈ web_schemes | _ => True end.

Lemma inline_ok s : Forall ok_node (mdInline s).
Proof.
  apply Forall_forall. intros n Hn. apply list_elem_of_In, in_map_iff in Hn as (t & <- & _). destruct t as [| | |l h|]; try done. cbn.
  destruct (safe h) eqn:E; [by apply safe_scheme|left].
Qed.

(** ** The grammar *)

Definition all_ws (s : string) : Prop := sall is_ws s = true.

(** A line with a marker, white space around it, and its text. *)
Definition marked (mark : string -> Prop) (l t : string) : Prop :=
  exists ws m sp, l = ws +:+ m +:+ sp +:+ t /\ all_ws ws /\ mark m /\ all_ws sp /\ sp <> "" /\ starts_ws t = false.

Definition bullet_of : string -> string -> Prop := marked (fun m => m = "-" \/ m = "*" \/ m = "+").
Definition ordered_of : string -> string -> Prop :=
  marked (fun m => exists d c, m = d +:+ String c "" /\ d <> "" /\ sall is_digit d = true /\ (c = "."%char \/ c = ")"%char)).
Definition quote_of (l t : string) : Prop :=
  exists ws sp, l = ws +:+ String ">" (sp +:+ t) /\ all_ws ws /\ all_ws sp /\ (String.length sp <= 1)%nat.
Definition heading_of (l : string) (n : nat) (t : string) : Prop :=
  exists h sp, l = h +:+ sp +:+ t /\ sall (is_char "#") h = true /\ String.length h = n /\ (1 <= n <= 6)%nat /\
    all_ws sp /\ sp <> "" /\ starts_ws t = false.

(** A block ends where its kind of line ends. *)
Definition stops (p : string -> bool) (rest : list string) : Prop := match rest with [] => True | l :: _ => p l = false end.

(** No block that takes precedence over tables, quotes, lists and paragraphs. *)
Definition ordinary (l : string) : Prop := fence l = false /\ blank l = false /\ rule l = false /\ heading l = None.

(** [segment ls rest bs]: the lines [ls], followed by [rest], make the blocks [bs]. *)
Inductive segment : list string -> list string -> list block -> Prop :=
| s_blank l rest : blank l = true -> segment [l] rest []
| s_pre o buf c rest : fence o = true -> Forall (fun l => fence l = false) buf -> fence c = true ->
    segment (o :: buf ++ [c]) rest [Pre (String.concat (String newline "") buf)]
| s_unclosed o buf : fence o = true -> Forall (fun l => fence l = false) buf ->
    segment (o :: buf) [] [Pre (String.concat (String newline "") buf)]
| s_rule l rest : rule l = true -> segment [l] rest [Hr]
| s_heading l n t rest : heading_of l n t -> segment [l] rest [Heading (Nat.min n 4) (mdInline t)]
| s_table h sep rows rest : ordinary h -> has_bar h = true -> separator sep = true -> Forall (fun l => in_table l = true) rows -> stops in_table rest ->
    segment (h :: sep :: rows) rest [Table (row h) (map row rows)]
| s_quote l ls ts rest : ordinary l -> is_table l (ls ++ rest) = false -> Forall2 quote_of (l :: ls) ts -> stops (fun l => is_some (quote l)) rest ->
    segment (l :: ls) rest [Quote (mdInline (String.concat " " ts))]
| s_bullets l ls ts rest : ordinary l -> is_table l (ls ++ rest) = false -> Forall2 bullet_of (l :: ls) ts -> stops (fun l => is_some (bullet l)) rest ->
    segment (l :: ls) rest [Ul (map mdInline ts)]
| s_ordered l ls ts rest : ordinary l -> is_table l (ls ++ rest) = false -> Forall2 ordered_of (l :: ls) ts -> stops (fun l => is_some (ordered l)) rest ->
    segment (l :: ls) rest [Ol (map mdInline ts)]
| s_par l ls rest : ordinary l -> is_table l (ls ++ rest) = false -> quote l = None -> bullet l = None -> ordered l = None ->
    Forall (fun l => in_paragraph l = true) ls -> stops in_paragraph rest ->
    segment (l :: ls) rest [P (mdInline (String.concat " " (l :: ls)))].

Inductive doc : list string -> list block -> Prop :=
| doc_nil : doc [] []
| doc_cons ls rest bs bs' : segment ls rest bs -> doc rest bs' -> doc (ls ++ rest) (bs ++ bs').

(** ** Lines as the grammar reads them *)

Lemma trimStart_split s : exists ws, s = ws +:+ trimStart s /\ all_ws ws.
Proof.
  induction s as [|c s (ws & E & H)]; [by exists ""|]. cbn [trimStart]. destruct (is_ws c) eqn:Ec; [|by exists ""].
  exists (String c ws). split; [by rewrite E at 1|]. unfold all_ws. cbn [sall]. by rewrite Ec.
Qed.

Lemma trimStart_stops s : starts_ws (trimStart s) = false.
Proof. induction s as [|c s IH]; [done|]. cbn [trimStart]. by destruct (is_ws c) eqn:E. Qed.

Lemma starts_ws_split s : starts_ws s = true -> exists sp, s = sp +:+ trimStart s /\ all_ws sp /\ sp <> "".
Proof.
  intros H. destruct (trimStart_split s) as (ws & E & Hw). exists ws. split_and!; [done|done|]. intros ->. change (s = trimStart s) in E.
  pose proof (trimStart_stops s) as Hs. rewrite <- E in Hs. congruence.
Qed.

Lemma span_all p s a b : span p s = (a, b) -> s = a +:+ b /\ sall p a = true.
Proof.
  revert a b. induction s as [|c s IH]; intros a b; cbn [span]; [by intros [= <- <-]|]. destruct (p c) eqn:E; [|by intros [= <- <-]].
  destruct (span p s) as [u v]. intros [= <- <-]. destruct (IH u v eq_refl) as [-> H]. split; [done|]. cbn [sall]. by rewrite E.
Qed.

Lemma quote_sound l t : quote l = Some t -> quote_of l t.
Proof.
  unfold quote, quote_of. destruct (trimStart_split l) as (ws & E & Hw). destruct (trimStart l) as [|[[] [] [] [] [] [] [] []] r]; try done.
  intros [= <-]. destruct r as [|c r]; [exists ws, ""; split_and!; [done|done|done|cbn; lia]|]. destruct (is_ws c) eqn:Ec.
  - exists ws, (String c ""). split_and!; [done|done|unfold all_ws; cbn [sall]; by rewrite Ec|cbn; lia].
  - exists ws, "". split_and!; [done|done|done|cbn; lia].
Qed.

Lemma bullet_sound l t : bullet l = Some t -> bullet_of l t.
Proof.
  unfold bullet. destruct (trimStart_split l) as (ws & E & Hw). destruct (trimStart l) as [|c r]; [done|]. destruct (_ && _) eqn:Ec; [|done].
  intros [= <-]. apply andb_prop in Ec as [Hc Hr]. apply starts_ws_split in Hr as (sp & Er & Hsp & Hne). rewrite Er in E.
  exists ws, (String c ""), sp. split_and!; try done; [|apply trimStart_stops]. unfold is_char in Hc.
  destruct (Ascii.eqb_spec c "-") as [-> |]; [by left|]. destruct (Ascii.eqb_spec c "*") as [-> |]; [right; by left|].
  destruct (Ascii.eqb_spec c "+") as [-> |]; [right; by right|done].
Qed.

Lemma ordered_sound l t : ordered l = Some t -> ordered_of l t.
Proof.
  unfold ordered. destruct (trimStart_split l) as (ws & E & Hw). destruct (span is_digit (trimStart l)) as [[|d ds] [|c r]] eqn:Es; try done.
  destruct (_ && _) eqn:Ec; [|done]. intros [= <-]. apply andb_prop in Ec as [Hc Hr]. apply span_all in Es as [Es Hd].
  apply starts_ws_split in Hr as (sp & Er & Hsp & Hne). rewrite Es, Er in E.
  exists ws, (String d ds +:+ String c ""), sp. split_and!; try done; [by rewrite E, !string_app_assoc| |apply trimStart_stops].
  exists (String d ds), c. split_and!; [done|done|done|]. unfold is_char in Hc.
  destruct (Ascii.eqb_spec c ".") as [-> |]; [by left|]. destruct (Ascii.eqb_spec c ")") as [-> |]; [by right|done].
Qed.

Lemma heading_sound l n t : heading l = Some (n, t) -> heading_of l n t.
Proof.
  unfold heading, hashes. destruct (span (is_char "#") l) as [h r] eqn:E. apply span_all in E as [-> Hh]. cbv zeta.
  match goal with |- context [if ?b then Some (_, trimStart r) else _] => destruct b eqn:Ec end; [|done].
  destruct (sall _ (trimStart r)); [|done]. intros H. injection H as <- <-. apply andb_prop in Ec as [Hn Hr].
  apply andb_prop in Hn as [H1%Nat.leb_le H2%Nat.leb_le].
  apply starts_ws_split in Hr as (sp & Er & Hsp & Hne). exists h, sp. split_and!; try done; [by rewrite Er at 1|apply trimStart_stops].
Qed.

Lemma take_while_spec p l : let '(a, b) := take_while p l in l = a ++ b /\ Forall (fun x => p x = true) a /\ stops p b.
Proof.
  induction l as [|x l IH]; [by split_and!|]. cbn [take_while]. destruct (p x) eqn:E; [|by split_and!].
  destruct (take_while p l) as [a b]. destruct IH as (-> & H1 & H2). split_and!; [done|by constructor|done].
Qed.

Lemma take_some_spec (f : string -> option string) (R : string -> string -> Prop) l : (forall x y, f x = Some y -> R x y) ->
  let '(a, b) := take_some f l in exists ls, l = ls ++ b /\ Forall2 R ls a /\ stops (fun x => is_some (f x)) b.
Proof.
  intros HR. induction l as [|x l IH]; [exists []; by split_and!|]. cbn [take_some]. destruct (f x) as [y|] eqn:E.
  - destruct (take_some f l) as [a b]. destruct IH as (ls & -> & H1 & H2). exists (x :: ls). split_and!; [done|constructor; auto|done].
  - exists []. split_and!; [done|constructor|]. cbn. by rewrite E.
Qed.

(** A list or a quote takes at least its first line. *)
Lemma take_some_block (f : string -> option string) (R : string -> string -> Prop) x l : (forall x y, f x = Some y -> R x y) -> is_some (f x) = true ->
  let '(a, b) := take_some f (x :: l) in exists ls, l = ls ++ b /\ Forall2 R (x :: ls) a /\ stops (fun x => is_some (f x)) b.
Proof.
  intros HR Hx. pose proof (take_some_spec f R l HR) as H. cbn [take_some]. destruct (f x) as [y|] eqn:E; [|done].
  destruct (take_some f l) as [a b]. destruct H as (ls & -> & H1 & H2). exists ls. split_and!; [done|constructor; auto|done].
Qed.

(** Each step of the loop takes a segment. *)
Lemma block_at_sound line rest : let '(b, r) := block_at line rest in
  exists ls, rest = ls ++ r /\ segment (line :: ls) r (option_list b).
Proof.
  unfold block_at. destruct (fence line) eqn:Ef.
  { pose proof (take_while_spec (fun l => negb (fence l)) rest) as H. destruct (take_while _ rest) as [buf r]. destruct H as (-> & Hb & Hs).
    assert (Hb' : Forall (fun l => fence l = false) buf) by (eapply Forall_impl; [exact Hb|]; intros x; apply negb_true_iff).
    destruct r as [|c r]; cbn [tail option_list option_rect].
    - exists buf. split; [done|]. by constructor.
    - exists (buf ++ [c]). split; [by rewrite <- app_assoc|]. constructor; [done|done|]. by apply negb_false_iff in Hs. }
  destruct (blank line) eqn:Eb; [exists []; split; [done|by constructor]|].
  destruct (rule line) eqn:Er; [exists []; split; [done|by constructor]|].
  destruct (heading line) as [[n t]|] eqn:Eh; [exists []; split; [done|]; constructor; by apply heading_sound|].
  assert (Ho : ordinary line) by done. destruct (is_table line rest) eqn:Et.
  { unfold is_table in Et. apply andb_prop in Et as [Hbar Et]. destruct rest as [|sep rest]; [done|]. apply andb_prop in Et as [_ Hsep]. cbn [tail].
    pose proof (take_while_spec in_table rest) as H. destruct (take_while _ rest) as [rows r]. destruct H as (-> & H1 & H2).
    exists (sep :: rows). split; [done|]. by constructor. }
  destruct (is_some (quote line)) eqn:Eq.
  { pose proof (take_some_block quote quote_of line rest quote_sound Eq) as H. destruct (take_some quote _) as [ts r].
    destruct H as (ls & -> & H1 & H2). exists ls. split; [done|]. by constructor. }
  destruct (is_some (bullet line)) eqn:Ebu.
  { pose proof (take_some_block bullet bullet_of line rest bullet_sound Ebu) as H. destruct (take_some bullet _) as [ts r].
    destruct H as (ls & -> & H1 & H2). exists ls. split; [done|]. by constructor. }
  destruct (is_some (ordered line)) eqn:Eo.
  { pose proof (take_some_block ordered ordered_of line rest ordered_sound Eo) as H. destruct (take_some ordered _) as [ts r].
    destruct H as (ls & -> & H1 & H2). exists ls. split; [done|]. by constructor. }
  pose proof (take_while_spec in_paragraph rest) as H. destruct (take_while _ rest) as [buf r]. destruct H as (-> & H1 & H2).
  exists buf. split; [done|]. constructor; try done; [by destruct (quote line)|by destruct (bullet line)|by destruct (ordered line)].
Qed.

Lemma blocks_sound fuel lines : (length lines <= fuel)%nat -> doc lines (blocks fuel lines).
Proof.
  revert lines. induction fuel as [|n IH]; intros [|line rest] Hf; cbn [length] in Hf; try lia; try constructor. cbn [blocks].
  pose proof (block_at_sound line rest) as H. destruct (block_at line rest) as [b r]. destruct H as (ls & -> & Hs).
  change (doc ((line :: ls) ++ r) (option_list b ++ blocks n r)). constructor; [done|]. apply IH. rewrite length_app in Hf. lia.
Qed.

(** C18: a report is rendered as its grammar says.  The renderer ends on every text;
    its blocks are those of a division of all the lines, in order, into fences,
    blank lines, rules, headings, tables, quotes, lists and paragraphs, each as long
    as it goes; and in every line of text the spans, written back with their
    markers, are that text. *)
Theorem report_follows_grammar (text : string) :
  match Markdown text with None => text = "" | Some bs => doc (lines_of text) bs end /\
  (forall s, exists ts, mdInline s = map render ts /\ sources ts = s).
Proof.
  split.
  - unfold Markdown. destruct (String.eqb_spec text "") as [-> |]; [done|]. by apply blocks_sound.
  - intros s. exists (tokens (String.length s) s). split; [done|]. by apply tokens_lossless.
Qed.

(** ** Links of a report *)

Definition nodes_of (b : block) : list node :=
  match b with
  | Pre _ | Hr => []
  | Heading _ t | Quote t | P t => t
  | Table h rows => concat h ++ concat (map (fun r => concat r) rows)
  | Ul l | Ol l => concat l
  end.

Lemma concat_inline_ok l : Forall ok_node (concat (map mdInline l)).
Proof. induction l as [|s l IH]; [constructor|]. cbn [map concat]. apply Forall_app. split; [apply inline_ok|done]. Qed.

Lemma rows_ok rows : Forall ok_node (concat (map (fun r => concat r) (map row rows))).
Proof. induction rows as [|r rows IH]; [constructor|]. cbn [map concat]. apply Forall_app. split; [apply concat_inline_ok|done]. Qed.

Lemma segment_ok ls rest bs : segment ls rest bs -> Forall ok_node (concat (map nodes_of bs)).
Proof.
  destruct 1; cbn [map concat nodes_of]; rewrite ?app_nil_r; try constructor; try apply inline_ok; try apply concat_inline_ok.
  apply Forall_app. split; [apply concat_inline_ok|apply rows_ok].
Qed.

Lemma doc_ok lines bs : doc lines bs -> Forall ok_node (concat (map nodes_of bs)).
Proof. induction 1 as [|ls rest bs bs' Hs _ IH]; [constructor|]. rewrite map_app, concat_app. apply Forall_app. split; [by eapply segment_ok|done]. Qed.

(** C17: no report can smuggle a script into a link.  Whatever the text, the scheme a
    browser reads in a rendered link is http, https, mailto or the page's own. *)
Theorem report_links_are_safe (text : string) (bs : list block) (label href : string) :
  Markdown text = Some bs -> NLink label href ∈ concat (map nodes_of bs) -> url_scheme href ∈ web_schemes.
Proof.
  unfold Markdown. destruct (String.eqb text ""); [done|]. intros [= <-] Hin.
  pose proof (doc_ok _ _ (blocks_sound _ (lines_of text) (le_n _))) as H. rewrite Forall_forall in H. exact (H _ Hin).
Qed.

Lemma report_links_are_safe_witness : url_scheme "HTTPS://h/x" ∈ web_schemes.
Proof.
  apply (report_links_are_safe "see [a](HTTPS://h/x)" [P [NText "see "; NLink "a" "HTTPS://h/x"]] "a"); [reflexivity|].
  cbn. right. left.
Defined.
