(* ===== verification/TopoSynth.v ===== *)
(** * The offline topology (screens2.jsx)

    Without the API the topology page synthesizes the payload of its two views from
    the fixture: [synthMonitoring] (nodes, probe targets and who monitors them) and
    [synthNetwork] (gear, hosts and their links).  [F] is [window.SOLARI]; its rows
    are objects, and ids are not names every object inherits. *)

From Stdlib Require Import ZArith Lia Ascii.
From Corelib Require Import SpecFloat.
From stdpp Require Import strings pretty list.
From S2P Require Import Prelude JsNum JsValue.

Local Open Scope string_scope.
Local Open Scope list_scope.

(** ** Health and labels *)

Definition healthRank (h : string) : nat :=
  if String.eqb h "down" then 3 else if String.eqb h "degraded" then 2 else if String.eqb h "up" then 1 else 0.

Definition worseHealth (a b : string) : string := if (healthRank a <? healthRank b)%nat then b else a.

Definition probeHealth (outcome loss : value) : string :=
  let got o := match outcome with VStr s => String.eqb s o | _ => false end in
  let h := if got "ok" then "up"
           else if got "timeout" || got "unreachable" || got "dns_fail" then "down"
           else if got "refused" || got "tls_fail" || got "proto_err" then "degraded"
           else "unknown" in
  if negb (nullish loss) && nge (vnum loss) (ofZ 100) && String.eqb h "up" then "degraded" else h.

Definition trimNum (v : num) : string := num_str (ndiv (nround (nmul v (ofZ 10))) (ofZ 10)).

Definition speedLabel (mbps : value) : option string :=
  let m := vnum mbps in
  if nullish mbps || nle m n0 then None
  else if nequ (nrem m (ofZ 1000)) n0 then Some (num_str (ndiv m (ofZ 1000)) +:+ "G")
  else if nge m (ofZ 1000) then Some (trimNum (ndiv m (ofZ 1000)) +:+ "G")
  else Some (vstr mbps +:+ "M").

Definition dots : list string -> string := String.concat " · ".

Definition monitorLabel (proto rtt loss : value) : string :=
  dots ((if truthy proto then [toUpperCase (vstr proto)] else []) ++
        [if nullish rtt then "—ms" else trimNum (ndiv (vnum rtt) (ofZ 1000)) +:+ "ms";
         (if nullish loss then "—" else trimNum (ndiv (vnum loss) (ofZ 10))) +:+ "% loss"]).

Definition is_wireless (linkType : value) : bool := match linkType with VStr s => String.eqb s "wireless" | _ => false end.

Definition attachLabel (linkType speed rssi ifName util : value) : string :=
  let parts := if is_wireless linkType then "wireless" :: (if nullish rssi then [] else [vstr rssi +:+ "dBm"])
               else option_list (speedLabel speed) ++ (if truthy ifName then [vstr ifName] else []) ++ (if nullish util then [] else [vstr util +:+ "%"]) in
  match parts with [] => if is_wireless linkType then "wireless" else "wired" | _ => dots parts end.

(** ** The monitoring view *)

Definition rows (F : value) (k : string) : list value := arr (fld F k).

Definition staleSec (n : value) : value := if nullish (fld n "lastSeenMin") then VNull else VNum (nmul (vnum (fld n "lastSeenMin")) (ofZ 60)).

Definition segByNode (F : value) : list (string * value) :=
  fold_left (fun m n => assoc_set (vstr (fld n "nodeId")) (fld n "segId") m) (rows F "nodes") [].

Definition node_row (n : value) : value :=
  VObj [("id", fld n "nodeId"); ("kind", VStr "node"); ("role", fld n "role"); ("hostFqdn", fld n "hostFqdn"); ("state", fld n "state");
        ("segId", fld n "segId"); ("health", v_or (fld n "state") (VStr "unknown")); ("lastSeenAt", VNull); ("staleSec", staleSec n)].

(** A vantage with the probe it belongs to, in the order of the two loops. *)
Definition vantages (F : value) : list (value * value) :=
  flat_map (fun p => map (fun v => (p, v)) (arr (fld p "vantages"))) (rows F "probes").

Definition vantage_health (pv : value * value) : string := probeHealth (fld pv.2 "outcome") (fld pv.2 "lossPermille").

Definition target_key (p : value) : string := vstr (fld p "targetId").
Definition target_id (p : value) : value := VStr ("target:" +:+ target_key p).

Definition health_of (m : list (string * string)) (k : string) : string :=
  match assoc k m with Some h => if String.eqb h "" then "unknown" else h | None => "unknown" end.

Definition targetHealth (F : value) : list (string * string) :=
  fold_left (fun m pv => assoc_set (target_key pv.1) (worseHealth (health_of m (target_key pv.1)) (vantage_health pv)) m) (vantages F) [].

Definition monitor_edge (pv : value * value) : value :=
  let '(p, v) := pv in
  VObj [("from", fld v "monitorNode"); ("to", target_id p); ("kind", VStr "monitors");
        ("outcome", fld v "outcome"); ("rttMicros", fld v "rttMicros"); ("lossPermille", fld v "lossPermille");
        ("jitterMicros", fld v "jitterMicros"); ("sampledAt", VNull); ("health", VStr (vantage_health pv));
        ("label", VStr (monitorLabel (fld p "proto") (fld v "rttMicros") (fld v "lossPermille")))].

Definition target_row (F p : value) : value :=
  VObj [("id", target_id p); ("kind", VStr "target"); ("label", fld p "label"); ("proto", fld p "proto"); ("host", fld p "host"); ("port", fld p "port");
        ("segId", v_or (default VUndef (assoc (vstr (fld p "hostNode")) (segByNode F))) VNull);
        ("health", VStr (health_of (targetHealth F) (target_key p)))].

Record payload := Payload { view : string; nodes : list value; edges : list value }.

Definition synthMonitoring (F : value) : payload :=
  Payload "monitoring" (map node_row (rows F "nodes") ++ map (target_row F) (rows F "probes")) (map monitor_edge (vantages F)).

(** ** The network view *)

(** [attachedStates[gid]]: the states of the hosts whose uplink is the gear. *)
Definition attachedStates (F : value) (gid : string) : list value :=
  map (fun n => fld n "state")
    (List.filter (fun n => truthy (fld n "uplink") && String.eqb (vstr (fld n "uplink")) gid) (rows F "nodes")).

Definition is_state (s : string) (v : value) : bool := match v with VStr x => String.eqb x s | _ => false end.

Definition gearHealth (F : value) (gid : string) : string :=
  match attachedStates F gid with
  | [] => "up"
  | st => if forallb (is_state "up") st then "up" else if forallb (is_state "down") st then "down" else "degraded"
  end.

Definition gear_id (k : value) : value := VStr ("gear:" +:+ vstr k).

Definition gear_row (F g : value) : value :=
  VObj [("id", gear_id (fld g "id")); ("kind", VStr "gear"); ("gearKind", fld g "kind"); ("name", fld g "name"); ("model", fld g "model");
        ("segId", fld g "seg"); ("uplinkGearId", v_or (fld g "uplink") VNull); ("wireless", VBool (truthy (fld g "wireless")));
        ("mgmtIp", v_or (fld g "mgmtIp") VNull); ("health", VStr (gearHealth F (vstr (fld g "id")))); ("lastSeenAt", VNull); ("staleSec", VNull);
        ("ifUp", vz 0); ("ifDown", vz 0); ("ifTotal", vz 0); ("attached", fld g "attached")].

Definition host_row (n : value) : value :=
  VObj [("id", fld n "nodeId"); ("kind", VStr "node"); ("role", fld n "role"); ("hostFqdn", fld n "hostFqdn"); ("state", fld n "state");
        ("segId", fld n "segId"); ("uplinkGearId", v_or (fld n "uplink") VNull); ("health", v_or (fld n "state") (VStr "unknown"));
        ("lastSeenAt", VNull); ("staleSec", staleSec n)].

Definition unmeasured : list (string * value) := [("operStatus", VNull); ("inRateKbps", VNull); ("outRateKbps", VNull); ("utilPct", VNull)].

Definition uplink_edges (g : value) : list value :=
  if truthy (fld g "uplink")
  then let w := VStr (if truthy (fld g "wireless") then "wireless" else "wired") in
       [VObj ([("from", gear_id (fld g "uplink")); ("to", gear_id (fld g "id")); ("kind", VStr "uplink"); ("linkType", w); ("health", VStr "up")] ++
              unmeasured ++ [("speedMbps", VNull); ("ifName", VNull); ("label", w)])]
  else [].

Definition attach_edges (n : value) : list value :=
  if truthy (fld n "uplink")
  then [VObj ([("from", fld n "nodeId"); ("to", gear_id (fld n "uplink")); ("kind", VStr "attaches");
               ("localIf", v_or (fld n "uplinkPort") VNull); ("peerPort", v_or (fld n "uplinkPort") VNull);
               ("linkType", v_or (fld n "linkType") VNull); ("speedMbps", v_or (fld n "linkSpeedMbps") VNull);
               ("rssi", v_nn (fld n "rssi") VNull); ("viaLldp", VBool (truthy (fld n "lldp"))); ("health", v_or (fld n "state") (VStr "unknown"))] ++
              unmeasured ++
              [("label", VStr (attachLabel (fld n "linkType") (fld n "linkSpeedMbps") (fld n "rssi") (fld n "uplinkPort") VNull))])]
  else [].

Definition synthNetwork (F : value) : payload :=
  Payload "network" (map (gear_row F) (rows F "netgear") ++ map host_row (rows F "nodes"))
    (flat_map uplink_edges (rows F "netgear") ++ flat_map attach_edges (rows F "nodes")).

Definition synthTopology (F : value) (v : string) : payload := if String.eqb v "network" then synthNetwork F else synthMonitoring F.

(** ** The worst of the vantages *)

Lemma worseHealth_rank a b : healthRank (worseHealth a b) = Nat.max (healthRank a) (healthRank b).
Proof. unfold worseHealth. destruct (Nat.ltb_spec (healthRank a) (healthRank b)); lia. Qed.

Lemma vantage_health_known pv : vantage_health pv <> "".
Proof. unfold vantage_health, probeHealth. cbv zeta. repeat case_match; done. Qed.

Definition known_healths (m : list (string * string)) : Prop := forall k h, assoc k m = Some h -> h <> "".

Lemma health_of_set m k k' h : h <> "" -> health_of (assoc_set k h m) k' = if String.eqb k' k then h else health_of m k'.
Proof.
  intros Hh. unfold health_of. destruct (String.eqb_spec k' k) as [-> |Hne].
  - rewrite assoc_set_same. by destruct (String.eqb_spec h "").
  - by rewrite assoc_set_other.
Qed.

Lemma health_of_known m k : health_of m k <> "".
Proof. unfold health_of. destruct (assoc k m) as [h|]; [|done]. by destruct (String.eqb_spec h ""). Qed.

Lemma worse_known a b : a <> "" -> b <> "" -> worseHealth a b <> "".
Proof. unfold worseHealth. by destruct (_ <? _)%nat. Qed.

Definition note (m : list (string * string)) (pv : value * value) : list (string * string) :=
  assoc_set (target_key pv.1) (worseHealth (health_of m (target_key pv.1)) (vantage_health pv)) m.

(** The health kept for a target after the vantages [l]. *)
Lemma note_fold l m k :
  let h := health_of (fold_left note l m) k in
  (healthRank (health_of m k) <= healthRank h)%nat /\
  (forall pv, pv ∈ l -> target_key pv.1 = k -> (healthRank (vantage_health pv) <= healthRank h)%nat) /\
  (h = health_of m k \/ exists pv, pv ∈ l /\ target_key pv.1 = k /\ vantage_health pv = h).
Proof.
  revert m. induction l as [|pv l IH]; intros m; cbn [fold_left]; [split_and!; [lia|by intros pv ?%not_elem_of_nil|by left]|].
  destruct (IH (note m pv)) as (H1 & H2 & H3). set (h := health_of (fold_left note l (note m pv)) k) in *.
  assert (E : health_of (note m pv) k = if String.eqb k (target_key pv.1) then worseHealth (health_of m (target_key pv.1)) (vantage_health pv) else health_of m k).
  { apply health_of_set, worse_known; [apply health_of_known|apply vantage_health_known]. }
  rewrite E in H1, H3. destruct (String.eqb_spec k (target_key pv.1)) as [-> |Hne].
  - rewrite worseHealth_rank in H1. split_and!; [lia| |].
    + intros pv' [-> |Hin]%elem_of_cons Hk; [lia|by apply H2].
    + destruct H3 as [H3|(pv' & Hin & ? & ?)]; [|right; exists pv'; split; [by right|done]]. rewrite H3. unfold worseHealth.
      destruct (_ <? _)%nat; [right; exists pv; split; [left|done]|by left].
  - split_and!; [done| |].
    + intros pv' [-> |Hin]%elem_of_cons Hk; [done|by apply H2].
    + destruct H3 as [H3|(pv' & Hin & ? & ?)]; [by left|right; exists pv'; split; [by right|done]].
Qed.

(** ** What the map shows *)

Definition health (v : value) : string := match fld v "health" with VStr s => s | _ => "" end.

Lemma target_id_inj p q : target_id p = target_id q <-> target_key p = target_key q.
Proof. unfold target_id. split; [|by intros ->]. intros E. injection E as E. done. Qed.

Lemma edge_elem F e : e ∈ edges (synthMonitoring F) <-> exists pv, pv ∈ vantages F /\ e = monitor_edge pv.
Proof. cbn [edges synthMonitoring]. rewrite list_elem_of_In, in_map_iff. setoid_rewrite <- list_elem_of_In. naive_solver. Qed.

(** Offline too, a target is as bad as the worst of its vantages: no link to it on
    the monitoring map is worse, and one of them is as bad unless nothing is known.
    A piece of gear is down on the network map when hosts are attached to it and all
    of them are down, and up when all of them are up. *)
Theorem synth_map_shows_the_worst (F : value) :
  (forall p, p ∈ rows F "probes" ->
     let t := target_row F p in
     t ∈ nodes (synthTopology F "monitoring") /\
     (forall e, e ∈ edges (synthTopology F "monitoring") -> fld e "to" = fld t "id" -> (healthRank (health e) <= healthRank (health t))%nat) /\
     (health t = "unknown" \/ exists e, e ∈ edges (synthTopology F "monitoring") /\ fld e "to" = fld t "id" /\ health e = health t)) /\
  (forall g, g ∈ rows F "netgear" ->
     let st := attachedStates F (vstr (fld g "id")) in
     gear_row F g ∈ nodes (synthTopology F "network") /\
     (health (gear_row F g) = "down" <-> st <> [] /\ Forall (fun s => s = VStr "down") st) /\
     (health (gear_row F g) = "up" <-> Forall (fun s => s = VStr "up") st)).
Proof.
  split.
  - intros p Hp t. pose proof (note_fold (vantages F) [] (target_key p)) as (_ & H2 & H3). split_and!.
    + apply elem_of_app. right. apply list_elem_of_In, in_map. by apply list_elem_of_In.
    + intros e He Eq. apply edge_elem in He as ([q v] & Hv & ->). apply H2; [done|]. by apply target_id_inj.
    + destruct H3 as [H3|([q v] & Hin & Hk & Hh)]; [by left|right]. exists (monitor_edge (q, v)). split_and!.
      * apply edge_elem. by exists (q, v).
      * by apply target_id_inj.
      * done.
  - intros g Hg st. change (health (gear_row F g)) with (gearHealth F (vstr (fld g "id"))). unfold gearHealth. fold st.
    assert (Hs : forall s l, forallb (is_state s) l = true <-> Forall (fun v => v = VStr s) l).
    { intros s l. rewrite forallb_forall, Forall_forall. setoid_rewrite <- list_elem_of_In. split; intros H v Hv; specialize (H v Hv).
      - destruct v as [| | | |x| |]; try done. by apply String.eqb_eq in H as ->.
      - subst v. cbn. apply String.eqb_refl. }
    assert (Hud : forall v l, forallb (is_state "up") (v :: l) = true -> forallb (is_state "down") (v :: l) = true -> False).
    { intros v l. cbn [forallb]. intros [H1 _]%andb_prop [H2 _]%andb_prop. destruct v; try done. apply String.eqb_eq in H1, H2. congruence. }
    split_and!; [apply elem_of_app; left; apply list_elem_of_In, in_map; by apply list_elem_of_In| |]; rewrite <- !Hs;
      (destruct st as [|v st]; [split; [done|by intros [? _] || done]|]);
      destruct (forallb (is_state "up") (v :: st)) eqn:Eu, (forallb (is_state "down") (v :: st)) eqn:Ed; try naive_solver.
Qed.
