(* ===== verification/Lifecycle.v ===== *)
(** * Criticality and lifecycle controls (screens.jsx)

    Who may operate ([opRole]), the tier of a system and its picker
    ([CriticalityControl]: optimistic, rolled back on refusal), the lifecycle actions
    offered on a system, and the give-up of their calls ([withGiveUp]).  [S] is
    [window.SOLARI].  An event of the picker is handled in the render that follows
    the one before, with React's effect run after it. *)

From Stdlib Require Import ZArith Lia Ascii.
From Corelib Require Import SpecFloat.
From stdpp Require Import strings pretty list.
From S2P Require Import Prelude JsNum JsValue.

Local Open Scope string_scope.
Local Open Scope list_scope.

(** ** Roles *)

Definition opRole (S : value) : option string :=
  let o := fld S "operator" in
  match fld o "role" with
  | VStr role => if truthy o then Some (let r := toLowerCase role in if String.eqb r "operator" || String.eqb r "admin" then r else "viewer") else None
  | _ => None
  end.

Definition canOperate (S : value) : bool :=
  match opRole S with Some r => String.eqb r "operator" || String.eqb r "admin" | None => false end.

Definition canAdmin (S : value) : bool := match opRole S with Some r => String.eqb r "admin" | None => false end.

(** ** Tiers *)

Record tier := Tier { t_tier : Z; t_key : string; t_label : string; t_note : string }.

Definition TIERS : list tier :=
  [Tier 0 "ignore" "Ignore" "Still monitored and graphed. Never raises an alert.";
   Tier 1 "low" "Low" "Alerts cap at warning, and nothing is ever notified.";
   Tier 2 "normal" "Normal" "Standard alerting and notification.";
   Tier 3 "high" "High" "Critical alerts notify, and the status panel alarms with them.";
   Tier 4 "vital" "Vital" "Every alert fires critical, notifies at once, and holds the panel alarm while this is down."].

Definition TIER_DEFAULT : Z := 2.

(** [None] for [null]. *)
Definition tierOf (e : value) : option num := if nullish (fld e "criticality") then None else Some (vnum (fld e "criticality")).

Definition tierInfo (t : option num) : option tier :=
  n ← t; if is_integer n && nge n n0 then TIERS !! Z.to_nat (truncZ n) else None.

(** The label of the chip; the default tier has none. *)
Definition TierChip (t : option num) : option string :=
  match tierInfo t with Some i => if (t_tier i =? TIER_DEFAULT)%Z then None else Some (t_label i) | None => None end.

(** ** Giving up *)

Definition LC_GIVE_UP_MS : Z := 15000.

Inductive outcome := Resolved (v : value) | Rejected (message : string).

(** The promise [withGiveUp] returns and its timer. *)
Record wait := Wait { result : option outcome; timer : bool }.

Inductive wevent := Answer (o : outcome) | TimeUp.

Definition give_up_text (ms : value) : string :=
  "no response after " +:+ num_str (nround (ndiv (vnum ms) (ofZ 1000))) +:+ " s — try again".

(** The delay of the timer. *)
Definition give_up_ms (ms : value) : value := v_or ms (vz LC_GIVE_UP_MS).

Definition settle (o : outcome) (w : wait) : option outcome := match result w with None => Some o | r => r end.

Definition withGiveUp (ms : value) (w : wait) (e : wevent) : wait :=
  match e with
  | Answer o => Wait (settle o w) false
  | TimeUp => if timer w then Wait (settle (Rejected (give_up_text ms)) w) false else w
  end.

Definition wait0 : wait := Wait None true.

(** ** Calls *)

Definition lc_path (group id action : string) : string := "/api/" +:+ group +:+ "/" +:+ encodeURIComponent id +:+ "/" +:+ action.

Inductive lcall := assetLifecycle (id action : string) | assetPurge (id name : string) | assetCriticality (id : string) (t : value) | nodeCriticality (id : string) (t : value).

(** The path and the body [lcPost] sends. *)
Definition SolariLC (c : lcall) : string * value :=
  match c with
  | assetLifecycle id action => (lc_path "assets" id "lifecycle", VObj [("action", VStr action); ("confirm", VBool true)])
  | assetPurge id name => (lc_path "assets" id "purge", VObj [("confirmName", VStr name)])
  | assetCriticality id t => (lc_path "assets" id "criticality", VObj [("tier", VNum (vnum t))])
  | nodeCriticality id t => (lc_path "nodes" id "criticality", VObj [("tier", VNum (vnum t))])
  end.

(** ** The actions offered *)

Inductive kind := Decommission | Delete | Restore | Purge.

Definition lifecycle_of (asset : value) : value := v_or (fld asset "lifecycle") (VStr "active").

Definition is_lc (s : string) (v : value) : bool := match v with VStr x => String.eqb x s | _ => false end.

Definition LifecycleActions (S asset : value) : list kind :=
  if negb (truthy asset) || nullish (fld asset "assetId") || negb (canOperate S) then []
  else let lc := lifecycle_of asset in
    (if is_lc "active" lc then [Decommission] else [Restore]) ++
    (if is_lc "deleted" lc then (if canAdmin S then [Purge] else []) else [Delete]).

(** The name a purge is confirmed with. *)
Definition purge_name (asset : value) : value :=
  v_or (fld asset "displayName") (v_or (fld asset "host") (v_or (fld asset "ip") (VStr ("asset " +:+ vstr (fld asset "assetId"))))).

(** ** The picker *)

(** [c_tier] is the prop, the tier last reported. *)
Record control := Control { c_tier : option Z; c_pending : option Z; c_failed : option string }.

Inductive pevent := Pick (t : Z) | Accepted | Refused (message : string) | Report (t : option Z).

Definition shown (c : control) : option Z := match c_pending c with Some t => Some t | None => c_tier c end.

(** The effect: the server reports the picked tier. *)
Definition confirmed (c : control) : control :=
  match c_pending c with
  | Some t => if bool_decide (c_tier c = Some t) then Control (c_tier c) None (c_failed c) else c
  | None => c
  end.

(** The new state and the tier that is sent, if any. *)
Definition CriticalityControl (ro : bool) (c : control) (e : pevent) : control * option Z :=
  match e with
  | Pick t => if ro || bool_decide (shown c = Some t) then (c, None) else (confirmed (Control (c_tier c) (Some t) None), Some t)
  | Accepted => (c, None)
  | Refused m => (Control (c_tier c) None (Some m), None)
  | Report t => (confirmed (Control t (c_pending c) (c_failed c)), None)
  end.

Definition crun (ro : bool) (c : control) (es : list pevent) : control := fold_left (fun c e => (CriticalityControl ro c e).1) es c.

(** ** Only operators operate *)

(** No control is offered on an identity that is not a confirmed operator; a purge
    only to an admin and only on a system that was deleted; what is offered can be
    undone, or is the purge. *)
Theorem lifecycle_fails_closed (S asset : value) (k : kind) :
  k ∈ LifecycleActions S asset ->
  (exists role, fld (fld S "operator") "role" = VStr role /\ (toLowerCase role = "operator" \/ toLowerCase role = "admin")) /\
  (k = Purge -> fld asset "lifecycle" = VStr "deleted" /\ canAdmin S = true) /\
  (k = Decommission -> is_lc "active" (lifecycle_of asset) = true) /\ (k = Restore -> is_lc "active" (lifecycle_of asset) = false).
Proof.
  unfold LifecycleActions. destruct (negb (truthy asset) || nullish (fld asset "assetId") || negb (canOperate S)) eqn:E; [by intros ?%not_elem_of_nil|].
  apply orb_false_elim in E as [_ Hop%negb_false_iff]. cbv zeta. intros Hk. split.
  - unfold canOperate, opRole in Hop. cbv zeta in Hop. destruct (fld (fld S "operator") "role") as [| | | |role| |]; try done. exists role. split; [done|].
    destruct (truthy _); [|done]. destruct (String.eqb_spec (toLowerCase role) "operator"); [by left|].
    destruct (String.eqb_spec (toLowerCase role) "admin"); [by right|done].
  - apply elem_of_app in Hk as [Hk|Hk].
    + destruct (is_lc "active" (lifecycle_of asset)); apply list_elem_of_singleton in Hk as ->; by split_and!.
    + destruct (is_lc "deleted" (lifecycle_of asset)) eqn:Ed; [destruct (canAdmin S); [|by apply not_elem_of_nil in Hk]|]; apply list_elem_of_singleton in Hk as ->; split_and!; try done.
      intros _. split; [|done]. revert Ed. unfold lifecycle_of, v_or. destruct (fld asset "lifecycle") as [| |b| |s| |]; try done; cbn.
      * by destruct b.
      * by destruct (_ || _).
      * destruct (String.eqb s "") eqn:Es; cbn; [done|]. by intros ->%String.eqb_eq.
Qed.

(** ** A call settles once *)

Lemma settled_stays ms w o es : result w = Some o -> result (fold_left (withGiveUp ms) es w) = Some o.
Proof.
  revert w. induction es as [|e es IH]; intros w H; [done|]. cbn [fold_left]. apply IH. destruct e as [o'|]; cbn [withGiveUp result].
  - unfold settle. by rewrite H.
  - destruct (timer w); [|done]. cbn. unfold settle. by rewrite H.
Qed.

(** Whatever answers and whenever the timer fires, a call that got either is
    settled, by the first of them, for good. *)
Theorem call_settles_by_the_first (ms : value) (e : wevent) (es : list wevent) :
  result (fold_left (withGiveUp ms) (e :: es) wait0) = Some match e with Answer o => o | TimeUp => Rejected (give_up_text ms) end.
Proof. cbn [fold_left]. apply settled_stays. by destruct e. Qed.

(** A caller that relies on the default delay is told that nothing answered after
    "NaN s". *)
Theorem default_give_up_reads_nan :
  give_up_ms VUndef = vz 15000 /\ result (withGiveUp VUndef wait0 TimeUp) = Some (Rejected "no response after NaN s — try again").
Proof. by vm_compute. Qed.

(** ** What the picker shows *)

Definition unconfirmed (c : control) : Prop := match c_pending c with Some t => c_tier c <> Some t | None => True end.

Lemma confirmed_ok c : unconfirmed (confirmed c).
Proof. unfold confirmed, unconfirmed. destruct (c_pending c) eqn:E; [|by rewrite E]. case_bool_decide; [done|]. by rewrite E. Qed.

(** In every state the picker can reach: a refusal rolls back to the reported tier and
    says so, a picked tier shows at once, the report of it ends the change, and a
    read-only picker sends nothing. *)
Theorem picker_rolls_back (ro : bool) (t0 : option Z) (es : list pevent) :
  let c := crun ro (Control t0 None None) es in
  unconfirmed c /\
  (forall m, let c' := (CriticalityControl ro c (Refused m)).1 in shown c' = c_tier c /\ c_failed c' = Some m) /\
  (forall t, (CriticalityControl false c (Pick t)).2 = Some t -> shown (CriticalityControl false c (Pick t)).1 = Some t) /\
  (forall t, c_pending c = Some t -> let c' := (CriticalityControl ro c (Report (Some t))).1 in shown c' = Some t /\ c_pending c' = None) /\
  (forall t, CriticalityControl true c (Pick t) = (c, None)).
Proof.
  intros c. split_and!; [|done| | |done].
  - unfold c, crun. assert (H : forall c0, unconfirmed c0 -> unconfirmed (fold_left (fun c e => (CriticalityControl ro c e).1) es c0)).
    { induction es as [|e es' IH]; intros c0 H0; [done|]. cbn [fold_left]. apply IH. destruct e as [t| |m|t]; cbn [CriticalityControl fst]; try done.
      - destruct (_ || _); [done|]. apply confirmed_ok.
      - apply confirmed_ok. }
    by apply H.
  - intros t. cbn [CriticalityControl orb]. case_bool_decide as E; [done|]. intros _. cbn [fst]. unfold confirmed. cbn [c_pending c_tier].
    case_bool_decide as E'; [|done]. unfold shown. by cbn.
  - intros t E. cbn [CriticalityControl fst]. unfold confirmed. cbn [c_pending c_tier]. rewrite E. by rewrite bool_decide_eq_true_2.
Qed.

(** An accepted tier that the server does not report - another operator changed it
    meanwhile, or the server kept its own - stays on screen: whatever other tiers are
    reported, the picker shows the picked one. *)
Theorem picked_tier_hides_reports (t0 : option Z) (t : Z) (ts : list (option Z)) :
  t0 <> Some t -> Forall (fun r => r <> Some t) ts ->
  shown (crun false (Control t0 None None) (Pick t :: Accepted :: map Report ts)) = Some t.
Proof.
  intros H0 Hts. unfold crun. cbn [fold_left CriticalityControl orb]. rewrite bool_decide_eq_false_2 by done. cbn [fst].
  unfold confirmed at 1. cbn [c_pending c_tier]. rewrite bool_decide_eq_false_2 by done.
  assert (H : forall c, c_pending c = Some t -> c_pending (fold_left (fun c e => (CriticalityControl false c e).1) (map Report ts) c) = Some t).
  { induction Hts as [|r ts Hr _ IH]; intros c Hc; [done|]. cbn [map fold_left CriticalityControl fst]. apply IH. unfold confirmed. cbn [c_pending c_tier].
    rewrite Hc. by rewrite bool_decide_eq_false_2. }
  unfold shown. by rewrite H.
Qed.
