(* ===== verification/AppShell.v ===== *)
(** * The application shell (app.jsx, components.jsx)

    Where a click leads ([openNode], [openService], [openEntity], [go]), the command
    palette and its commands, the confirmation dialog of destructive actions, the
    toasts, the banners and the login form.  [S] is [window.SOLARI]; every event is
    handled in the render that follows the one before.  Icons, sub-labels and the
    scroll position are left out. *)

From Stdlib Require Import ZArith Lia Ascii.
From Corelib Require Import SpecFloat.
From stdpp Require Import strings pretty list.
From S2P Require Import Prelude JsNum JsValue.

Local Open Scope string_scope.
Local Open Scope list_scope.

(** ** Routes *)

Inductive route :=
| Page (name : string)
| NodePage (node : value)
| AssetPage (assetId : value)
| ServicePage (targetId : value) (back : route)
| OpiePage (reportId nonce : value).

Definition is_object (v : value) : bool := match v with VArr _ | VObj _ => true | _ => false end.

Definition fleet_of (S : value) : list value := arr (v_or (fld S "fleet") (fld S "nodes")).

Definition find_node (S ref : value) : option value :=
  List.find (fun n => String.eqb (vstr (fld n "nodeId")) (vstr ref)) (fleet_of S).

(** The new route; the old one when the reference leads nowhere. *)
Definition openNode (S nodeOrId : value) (cur : route) : route :=
  let node := if is_object nodeOrId then Some nodeOrId else find_node S nodeOrId in
  match node with
  | Some n => if truthy (fld n "isAsset") then AssetPage (fld n "assetId") else NodePage n
  | None => cur
  end.

Definition openService (targetId : value) (backRoute : option route) : route :=
  ServicePage targetId (default (Page "reachability") backRoute).

Definition openOpie (reportId now : value) : route := OpiePage (v_nn reportId VNull) now.

(** [/^(icmp|tcp|udp|https?):/]. *)
Definition probe_like (s : string) : bool :=
  existsb (fun p => starts_with p s) ["icmp:"; "tcp:"; "udp:"; "http:"; "https:"].

Definition is_str_eq (s : string) (v : value) : bool := match v with VStr x => String.eqb x s | _ => false end.

(** [!ref && ref !== 0]. *)
Definition no_ref (ref : value) : bool :=
  negb (truthy ref) && match ref with VNum n => negb (nequ n n0) | _ => true end.

Definition openEntity (S ref : value) (backRoute : option route) (cur : route) : route :=
  if no_ref ref then cur
  else if is_object ref && truthy (fld ref "kind")
  then let kind := fld ref "kind" in
       if is_str_eq "service" kind || is_str_eq "target" kind then openService (fld ref "id") backRoute
       else if is_str_eq "pool" kind then Page "assets"
       else openNode S (if nullish (fld ref "id") then ref else fld ref "id") cur
  else match ref with
       | VStr s => if probe_like s then openService ref backRoute else openNode S ref cur
       | _ => openNode S ref cur
       end.

(** [go], with the sidebar hidden on a narrow window. *)
Definition go (width : Z) (id : string) (navHidden : bool) : route * bool := (Page id, if (width <=? 980)%Z then true else navHidden).

Definition toggleNav (width : Z) (navHidden collapsed : bool) : bool * bool :=
  if (width <=? 980)%Z then (negb navHidden, collapsed) else (navHidden, negb collapsed).

Definition toggleTheme (theme : string) : string := if String.eqb theme "dark" then "light" else "dark".

(** ** Commands *)

Inductive action := Go (id : string) | FleetView (v : string) | SurveyAll | ToggleTheme | LogOut | OpenNode (n : value).

Record command := Command { c_id : string; c_group : string; c_label : string; c_keywords : string; c_action : action }.

Definition nav (id label target : string) : command := Command id "Navigate" label "" (Go target).
Definition act (id label : string) (a : action) : command := Command id "Actions" label "" a.

Definition fixed_commands : list command :=
  [nav "go-fleet" "Fleet Overview" "fleet"; nav "go-alerts" "Alerts & Tolerances" "alerts"; nav "go-opie" "Opie · Analysis" "opie";
   nav "go-reach" "Reachability Matrix" "reachability"; nav "go-topo" "Topology Map" "topology"; nav "go-systems" "Systems" "assets";
   nav "go-inventory" "Inventory" "inventory"; nav "go-codes" "Tags & Scan" "codes"; nav "go-rackwire" "RackWire" "rackwire";
   nav "go-disc" "Discovery" "discovery"; nav "go-prov" "Provisioning" "provision"; nav "go-provimages" "Images & Stacks" "provimages";
   nav "go-maint" "Maintenance" "maintenance"; nav "go-git" "Git" "git"; nav "go-ca" "Certificates" "certificates"; nav "go-dns" "DNS" "dns";
   nav "go-panel" "Panel" "panel"; nav "go-cfg" "Config & Rules" "settings";
   act "view-heat" "Fleet: Heatmap view" (FleetView "heat"); act "view-table" "Fleet: Table view" (FleetView "table");
   act "view-cards" "Fleet: Cards view" (FleetView "cards"); act "survey-all" "Survey entire fleet now" SurveyAll;
   act "theme" "Toggle dark / light theme" ToggleTheme; act "logout" "Log out" LogOut].

Definition state_is (s : string) (n : value) : bool := is_str_eq s (fld n "state").

Definition node_command (n : value) : command :=
  Command ("node-" +:+ vstr (fld n "nodeId")) "Jump to node" (vstr (fld n "name") +:+ ".akoria.net")
    (vstr (fld n "role") +:+ " " +:+ vstr (fld n "ip") +:+ " " +:+ vstr (fld n "segName")) (OpenNode n).

Definition commands (S : value) : list command :=
  let nodes := arr (fld S "nodes") in
  let problem := List.filter (fun n => state_is "down" n || state_is "degraded" n) nodes in
  let healthy := take 40 (List.filter (state_is "up") nodes) in
  fixed_commands ++ map node_command (problem ++ healthy).

(** ** The palette *)

Definition matches (ql : string) (c : command) : bool :=
  String.eqb ql "" || contains ql (toLowerCase (c_label c +:+ " " +:+ c_group c +:+ " " +:+ c_keywords c)).

Definition filtered (q : string) (cs : list command) : list command := List.filter (matches (toLowerCase q)) cs.

(** [groups[c.group]], and the rows in the order they are drawn. *)
Definition add_group (g : list (string * list command)) (c : command) : list (string * list command) :=
  assoc_set (c_group c) (default [] (assoc (c_group c) g) ++ [c]) g.

Definition groups (l : list command) : list (string * list command) := fold_left add_group l [].

Definition rows (l : list command) : list command := concat (map snd (groups l)).

Record palette := Palette { q : string; sel : Z }.

Inductive pkey := Typed (s : string) | ArrowDown | ArrowUp | Enter | Escape | Hover (i : Z) | Click (i : Z).

Definition nth_command (l : list command) (i : Z) : option command := if (i <? 0)%Z then None else l !! Z.to_nat i.

(** The new state, the command that runs, and whether the palette closes. *)
Definition onKey (cs : list command) (p : palette) (k : pkey) : palette * option command * bool :=
  let flat := filtered (q p) cs in
  let run i := match nth_command flat i with Some c => (p, Some c, true) | None => (p, None, false) end in
  match k with
  | Typed s => (Palette s 0, None, false)
  | ArrowDown => (Palette (q p) (Z.min (Z.of_nat (length flat) - 1) (sel p + 1)), None, false)
  | ArrowUp => (Palette (q p) (Z.max 0 (sel p - 1)), None, false)
  | Enter => run (sel p)
  | Escape => (p, None, true)
  | Hover i => (Palette (q p) i, None, false)
  | Click i => run i
  end.

(** The window's key: [Cmd-K] or [Ctrl-K], or a slash outside an input. *)
Definition opens_palette (meta ctrl : bool) (key focus : string) : bool :=
  if (meta || ctrl) && String.eqb (toLowerCase key) "k" then true else String.eqb key "/" && negb (String.eqb focus "INPUT").

(** ** The confirmation dialog *)

Record danger := Danger { typed : string; busy : bool; inflight : nat }.

Inductive devent := DType (s : string) | DGo | DSettled.

Definition armed (disabled : bool) (confirmName : string) (d : danger) : bool :=
  negb disabled && negb (busy d) && (String.eqb confirmName "" || String.eqb (typed d) confirmName).

(** [inflight] counts the calls of [onConfirm] that have not settled; the flag says
    that this event made one. *)
Definition DangerModal (disabled : bool) (confirmName : string) (d : danger) (e : devent) : danger * bool :=
  match e with
  | DType s => (Danger s (busy d) (inflight d), false)
  | DGo => if armed disabled confirmName d then (Danger (typed d) true (S (inflight d)), true) else (d, false)
  | DSettled => match inflight d with O => (d, false) | S n => (Danger (typed d) false n, false) end
  end.

(** ** Toasts *)

Record toast_item := Toast { t_id : nat; t_msg : string }.

Inductive tevent := Say (id : nat) (msg : string) | TimeOut (id : nat).

Definition toasts_step (l : list toast_item) (e : tevent) : list toast_item :=
  match e with
  | Say id msg => l ++ [Toast id msg]
  | TimeOut id => List.filter (fun t => negb (t_id t =? id)%nat) l
  end.

(** What a survey reports: the toast of its answer. *)
Definition survey_text (name : option string) (config : bool) : string :=
  if config then "Re-converge requested" +:+ match name with Some n => " — " +:+ n | None => "" end
  else match name with Some n => "Survey requested — " +:+ n | None => "Fleet survey dispatched" end.

Definition survey (online : bool) (name : option string) (config : bool) (answer : res value) : string :=
  if online
  then match answer with Ok _ => survey_text name config | Throw e => "Survey failed: " +:+ err_message e end
  else survey_text name config +:+ " (offline)".

(** ** Banners *)

Definition not_fresh (source : value) : bool := negb (is_str_eq "fresh" (fld source "state")).

(** [partialSources], which the module computes when it is evaluated. *)
Definition partialSources (S : value) : list value :=
  if is_str_eq "live" (fld S "source") then List.filter not_fresh (map snd (entries (fld S "freshness"))) else [].

Definition age_text (now last : Z) : string :=
  let minutes := Z.max 0 ((now - last) / 60000) in
  if (minutes <? 1)%Z then "just now" else if (minutes <? 60)%Z then pretty minutes +:+ "m ago" else pretty (minutes / 60)%Z +:+ "h ago".

(** Times are integers of milliseconds. *)
Definition partial_text (now : Z) (source : value) : string :=
  if truthy (fld source "lastSuccess")
  then vstr (fld source "label") +:+ ": last success " +:+ age_text now (truncZ (vnum (fld source "lastSuccess")))
  else vstr (fld source "label") +:+ ": not loaded yet".

Definition partialSummary (S : value) (now : Z) : string := String.concat "; " (map (partial_text now) (partialSources S)).

Inductive banner := DemoData (reason : value) | DataStale (last : value) | PartialData (summary : string).

(** The banners of a render: [S] is the model now, [S0] what it was, at [t0], when the
    module was evaluated. *)
Definition banners (S0 : value) (t0 : Z) (S : value) : list banner :=
  (if is_str_eq "offline" (fld S "source") then [DemoData (fld S "offlineReason")] else []) ++
  (if is_str_eq "stale" (fld S "source") then [DataStale (fld S "lastLiveAt")] else []) ++
  (match partialSources S0 with [] => [] | _ => [PartialData (partialSummary S0 t0)] end).

(** ** Signing in *)

Record login := Login { l_local : bool; l_oidc : option (value * value); l_err : string; l_busy : bool }.

Inductive levent := Config (cfg : value) | Submit (u p : string) | LoginFailed (e : jserr).

(** The form after the event, and whether credentials are sent. *)
Definition LoginScreen (l : login) (e : levent) : login * bool :=
  match e with
  | Config cfg =>
      if truthy cfg
      then (Login (negb (match fld cfg "localEnabled" with VBool false => true | _ => false end))
              (if truthy (fld cfg "oidcEnabled")
               then Some (v_or (fld cfg "oidcLabel") (VStr "Sign in with SSO"), v_or (fld cfg "oidcLoginUrl") (VStr "/api/auth/oidc/login"))
               else l_oidc l) (l_err l) (l_busy l), false)
      else (l, false)
  | Submit u p => if String.eqb u "" || String.eqb p "" then (l, false) else (Login (l_local l) (l_oidc l) "" true, true)
  | LoginFailed e => (Login (l_local l) (l_oidc l) (if String.eqb (err_message e) "" then "Login failed" else err_message e) false, false)
  end.

Inductive root := ShowLogin | ShowApp.

Definition mount (needsAuth : bool) : root := if needsAuth then ShowLogin else ShowApp.

(** ** The palette shows what it runs *)

(** Groups that are not interleaved. *)
Inductive grouped : list command -> Prop :=
| grouped_nil : grouped []
| grouped_block g l r : Forall (fun c => c_group c = g) l -> Forall (fun c => c_group c <> g) r -> grouped r -> grouped (l ++ r).

Lemma add_group_last done g b c : c_group c = g -> g ∉ map fst done -> add_group (done ++ [(g, b)]) c = done ++ [(g, b ++ [c])].
Proof.
  intros <- Hn. unfold add_group.
  assert (E : forall d : list (string * list command), c_group c ∉ map fst d -> assoc (c_group c) (d ++ [(c_group c, b)]) = Some b /\
    forall x, assoc_set (c_group c) x (d ++ [(c_group c, b)]) = d ++ [(c_group c, x)]).
  { induction d as [|[k y] d IH]; intros Hd; cbn [app assoc assoc_set].
    - by rewrite String.eqb_refl.
    - cbn [map fst] in Hd. apply not_elem_of_cons in Hd as [Hne Hd]. rewrite (proj2 (String.eqb_neq _ _) Hne).
      destruct (IH Hd) as [-> H]. split; [done|]. intros x. by rewrite H. }
  destruct (E done Hn) as [-> ->]. done.
Qed.

Lemma add_group_new done c : c_group c ∉ map fst done -> add_group done c = done ++ [(c_group c, [c])].
Proof.
  intros Hn. unfold add_group.
  assert (E : forall (x : list command) (d : list (string * list command)), c_group c ∉ map fst d -> assoc (c_group c) d = None /\ assoc_set (c_group c) x d = d ++ [(c_group c, x)]).
  { intros x. induction d as [|[k y] d IH]; intros Hd; [done|]. cbn [map fst assoc assoc_set app] in *.
    apply not_elem_of_cons in Hd as [Hne Hd]. rewrite (proj2 (String.eqb_neq _ _) Hne). destruct (IH Hd) as [-> ->]. done. }
  destruct (E [c] done Hn) as [E1 E2]. rewrite E1. exact E2.
Qed.

Lemma fold_block done g b l : g ∉ map fst done -> Forall (fun c => c_group c = g) l ->
  fold_left add_group l (done ++ [(g, b)]) = done ++ [(g, b ++ l)].
Proof.
  intros Hn H. revert b. induction H as [|c l Hc _ IH]; intros b; [by rewrite app_nil_r|]. cbn [fold_left].
  rewrite add_group_last by done. rewrite IH. by rewrite <- app_assoc.
Qed.

(** Rows come out in the order they went in. *)
Lemma fold_groups l done : grouped l -> Forall (fun c => c_group c ∉ map fst done) l ->
  concat (map snd (fold_left add_group l done)) = concat (map snd done) ++ l.
Proof.
  intros Hg. revert done. induction Hg as [|g l r Hl Hr _ IH]; intros done Hd; [by rewrite app_nil_r|].
  rewrite fold_left_app. apply Forall_app in Hd as [Hd1 Hd2]. destruct l as [|c l]; [by apply IH|].
  apply Forall_cons in Hl as [Hc Hl], Hd1 as [Hcd _]. cbn [fold_left]. rewrite add_group_new by done. rewrite Hc in *.
  rewrite fold_block by done. rewrite IH.
  - rewrite map_app, concat_app, <- app_assoc. cbn. by rewrite app_nil_r.
  - rewrite map_app. apply Forall_forall. intros x Hx. rewrite Forall_forall in Hr, Hd2. rewrite not_elem_of_app. split; [by apply Hd2|].
    cbn. rewrite list_elem_of_singleton. by apply Hr.
Qed.

Lemma rows_grouped l : grouped l -> rows l = l.
Proof. intros H. unfold rows, groups. rewrite fold_groups; [done|done|]. apply Forall_forall. intros. by apply not_elem_of_nil. Qed.

Lemma grouped_filter p l : grouped l -> grouped (List.filter p l).
Proof.
  induction 1 as [|g l r Hl Hr _ IH]; [constructor|]. rewrite List.filter_app.
  assert (Hf : forall P m, Forall P m -> Forall P (List.filter p m)).
  { intros P m Hm. rewrite Forall_forall in Hm |- *. intros x Hx. apply Hm. apply list_elem_of_In, filter_In in Hx as [Hx _]. by apply list_elem_of_In. }
  econstructor; [apply Hf, Hl|apply Hf, Hr|done].
Qed.

Lemma commands_grouped S : grouped (commands S).
Proof.
  unfold commands. cbv zeta. set (ns := (_ ++ _) : list value). change fixed_commands with (take 18 fixed_commands ++ drop 18 fixed_commands). rewrite <- app_assoc.
  assert (Hn : Forall (fun c => c_group c = "Jump to node") (map node_command ns)).
  { apply Forall_forall. intros c Hc. apply list_elem_of_In, in_map_iff in Hc as (n & <- & _). done. }
  assert (Hx : forall g, g <> "Jump to node" -> Forall (fun c => c_group c <> g) (map node_command ns)).
  { intros g Hg. eapply Forall_impl; [exact Hn|]. intros c -> E. by apply Hg. }
  apply (grouped_block "Navigate"); [by repeat constructor| |].
  { apply Forall_app. split; [by repeat constructor|by apply Hx]. }
  apply (grouped_block "Actions"); [by repeat constructor|by apply Hx|].
  rewrite <- (app_nil_r (map node_command ns)). apply (grouped_block "Jump to node"); [done|constructor|constructor].
Qed.

(** The palette runs the row it shows.  With the commands of the application, for any
    query the rows drawn under their group headings are in the order the keys count:
    clicking row [i], or pressing Enter with it highlighted, runs the command drawn
    there; a highlight moved by the arrows stays on a row whenever there is one. *)
Theorem palette_runs_what_it_shows (S : value) (p : palette) (i : Z) :
  let drawn := rows (filtered (q p) (commands S)) in
  (onKey (commands S) p (Click i)).1.2 = nth_command drawn i /\
  (onKey (commands S) p Enter).1.2 = nth_command drawn (sel p) /\
  (drawn <> [] -> (0 <= sel p < Z.of_nat (length drawn))%Z -> forall k, k = ArrowDown \/ k = ArrowUp ->
     (0 <= sel (onKey (commands S) p k).1.1 < Z.of_nat (length drawn))%Z).
Proof.
  cbv zeta. rewrite rows_grouped by apply grouped_filter, commands_grouped. set (flat := filtered (q p) (commands S)). split_and!.
  - cbn [onKey]. fold flat. by destruct (nth_command flat i).
  - cbn [onKey]. fold flat. by destruct (nth_command flat (sel p)).
  - intros Hne Hs k [-> | ->]; cbn [onKey fst sel]; fold flat; lia.
Qed.

(** ** One entity, one page *)

Lemma find_unique {A} (key : A -> string) l x : NoDup (map key l) -> x ∈ l -> List.find (fun y => String.eqb (key y) (key x)) l = Some x.
Proof.
  induction l as [|y l IH]; intros Hn Hx; [by apply not_elem_of_nil in Hx|]. cbn [map List.find] in *. apply NoDup_cons in Hn as [Hy Hn].
  apply elem_of_cons in Hx as [-> |Hx]; [by rewrite String.eqb_refl|]. destruct (String.eqb_spec (key y) (key x)) as [E|]; [|by apply IH].
  exfalso. apply Hy. rewrite E. by apply list_elem_of_In, in_map, list_elem_of_In.
Qed.

(** What names a node: anything that prints as its id and is not mistaken for a probe
    target or for nothing. *)
Definition names (n id : value) : Prop :=
  is_object id = false /\ nullish id = false /\ no_ref id = false /\ vstr id = vstr (fld n "nodeId") /\
  match id with VStr s => probe_like s = false | _ => True end.

(** The same entity always lands on the same page: a row of the fleet, its id as a
    number or as text, and a typed reference to it lead to the page the row opens,
    from wherever it is clicked. *)
Theorem entity_refs_agree (S n id : value) (kind : string) (back : option route) (cur : route) :
  NoDup (map (fun m => vstr (fld m "nodeId")) (fleet_of S)) -> n ∈ fleet_of S ->
  is_object n = true -> truthy (fld n "kind") = false -> names n id ->
  kind ∉ [""; "service"; "target"; "pool"] ->
  let page := if truthy (fld n "isAsset") then AssetPage (fld n "assetId") else NodePage n in
  openEntity S n back cur = page /\ openEntity S id back cur = page /\
  openEntity S (VObj [("kind", VStr kind); ("id", id)]) back cur = page.
Proof.
  intros Hnd Hin Hobj Hk (Hid & Hnu & Hno & Hv & Hpr) Hkind page.
  assert (Hf : find_node S id = Some n).
  { unfold find_node. rewrite Hv. exact (find_unique (fun m => vstr (fld m "nodeId")) _ _ Hnd Hin). }
  assert (Hopen : openNode S id cur = page) by (unfold openNode; by rewrite Hid, Hf).
  split_and!.
  - unfold openEntity. replace (no_ref n) with false by (by destruct n). rewrite Hk, andb_false_r.
    destruct n; try done; unfold openNode; by rewrite Hobj.
  - unfold openEntity. rewrite Hno, Hid. cbn [andb]. destruct id; try done. by rewrite Hpr.
  - apply not_elem_of_cons in Hkind as [K0 Hkind]. apply not_elem_of_cons in Hkind as [K1 Hkind].
    apply not_elem_of_cons in Hkind as [K2 Hkind]. apply not_elem_of_cons in Hkind as [K3 _].
    unfold openEntity. cbn [no_ref truthy negb andb is_object fld assoc String.eqb Ascii.eqb Bool.eqb is_str_eq].
    rewrite (proj2 (String.eqb_neq _ _) K0), (proj2 (String.eqb_neq _ _) K1), (proj2 (String.eqb_neq _ _) K2), (proj2 (String.eqb_neq _ _) K3).
    cbn [negb orb]. by rewrite Hnu.
Qed.

Definition demo_fleet : value :=
  VObj [("nodes", VArr [VObj [("nodeId", vz 7); ("name", VStr "a")]; VObj [("nodeId", VStr "asset-3"); ("isAsset", VBool true); ("assetId", vz 3)]])].

Lemma entity_refs_agree_witness :
  openEntity demo_fleet (VStr "7") None (Page "alerts") = NodePage (VObj [("nodeId", vz 7); ("name", VStr "a")]).
Proof.
  refine (proj1 (proj2 (entity_refs_agree demo_fleet (VObj [("nodeId", vz 7); ("name", VStr "a")]) (VStr "7") "node" None (Page "alerts") _ _ _ _ _ _))).
  - apply (bool_decide_unpack _). vm_compute. exact I.
  - left.
  - reflexivity.
  - reflexivity.
  - split_and!; vm_compute; reflexivity.
  - apply (bool_decide_unpack _). vm_compute. exact I.
Defined.

(** ** Destructive actions *)

Definition drun (disabled : bool) (name : string) (es : list devent) : danger :=
  fold_left (fun d e => (DangerModal disabled name d e).1) es (Danger "" false 0).

Lemma drun_busy disabled name es : inflight (drun disabled name es) = if busy (drun disabled name es) then 1 else 0.
Proof.
  unfold drun. assert (H : forall d, inflight d = (if busy d then 1 else 0) ->
    let d' := fold_left (fun d e => (DangerModal disabled name d e).1) es d in inflight d' = if busy d' then 1 else 0).
  { induction es as [|e es IH]; intros d Hd; [done|]. cbn [fold_left]. apply IH. destruct e; cbn [DangerModal fst]; [done| |].
    - unfold armed. destruct disabled, (busy d) eqn:E; cbn [negb andb fst]; try done; try (by rewrite E).
      destruct (_ || _); cbn [fst inflight busy]; [by rewrite Hd|by rewrite E].
    - destruct (inflight d) as [|k] eqn:Ek; cbn [fst inflight busy]; [by rewrite Ek|]. destruct (busy d); by simplify_eq. }
  by apply (H (Danger "" false 0)).
Qed.

(** However the operator types and clicks, the dialog of a destructive action acts only when the name was typed
    exactly, and never while an earlier act is still running. *)
Theorem danger_needs_the_name (disabled : bool) (name : string) (es : list devent) (e : devent) :
  let d := drun disabled name es in
  (DangerModal disabled name d e).2 = true ->
  e = DGo /\ disabled = false /\ (name <> "" -> typed d = name) /\ inflight d = 0.
Proof.
  intros d. destruct e; cbn [DangerModal]; [done| |by destruct (inflight d)]. destruct (armed disabled name d) eqn:E; [|done]. intros _.
  unfold armed in E. apply andb_prop in E as [E Hn]. apply andb_prop in E as [Hd Hb]. apply negb_true_iff in Hd, Hb. split_and!; [done|done| |].
  - intros Hne. apply orb_prop in Hn as [Hn|Hn]; apply String.eqb_eq in Hn; [by destruct (Hne Hn)|exact Hn].
  - unfold d in *. by rewrite drun_busy, Hb.
Qed.

Lemma danger_needs_the_name_witness :
  typed (drun false "xenon" [DType "xenon"]) = "xenon" /\ inflight (drun false "xenon" [DType "xenon"]) = 0.
Proof.
  destruct (danger_needs_the_name false "xenon" [DType "xenon"] DGo) as (_ & _ & H & H0); [reflexivity|].
  split; [apply H; discriminate|exact H0].
Defined.

(** ** Banners *)

(** The warning about sources that failed is decided when the module is evaluated: if
    the boot had not made the model live by then, no later state of the model shows
    it. *)
Theorem partial_banner_never_shows (S0 S : value) (t0 : Z) (text : string) :
  is_str_eq "live" (fld S0 "source") = false -> PartialData text ∉ banners S0 t0 S.
Proof.
  intros H. unfold banners, partialSources. rewrite H, app_nil_r, not_elem_of_app.
  split; [destruct (is_str_eq "offline" (fld S "source"))|destruct (is_str_eq "stale" (fld S "source"))]; rewrite ?list_elem_of_singleton; try done;
    apply not_elem_of_nil.
Qed.
