(* ===== verification/Maintenance.v ===== *)
(** * Maintenance windows (screens5.jsx)

    The buckets of a window, the lookup behind the maintenance badge, the schedule
    form and the list with its late answers.  The browser's date parser is a
    parameter; dates are milliseconds.  Times as shown (local formatting) are left
    out. *)

From Stdlib Require Import ZArith Lia Ascii.
From Corelib Require Import SpecFloat.
From stdpp Require Import strings pretty list.
From S2P Require Import Prelude JsNum JsValue ProvStacks.

Local Open Scope string_scope.
Local Open Scope list_scope.

Definition is_text (s : string) (v : value) : bool := match v with VStr x => String.eqb x s | _ => false end.

(** ** Times *)

Definition two_digits (l : list ascii) : bool := match l with [a; b] => is_digit a && is_digit b | _ => false end.

Definition is_sign (c : ascii) : bool := Ascii.eqb c "+" || Ascii.eqb c "-".

(** [/[zZ]$|[+\-]\d\d:?\d\d$/], on the characters from the last. *)
Definition hasZone (s : string) : bool :=
  match rev (chars s) with
  | c :: r =>
      Ascii.eqb c "z" || Ascii.eqb c "Z" ||
      match c :: r with
      | a :: b :: ":"%char :: d :: e :: g :: _ => two_digits [a; b] && two_digits [d; e] && is_sign g
      | a :: b :: d :: e :: g :: _ => two_digits [a; b] && two_digits [d; e] && is_sign g
      | _ => false
      end
  | [] => false
  end.

(** [s.replace(" ", "T")]. *)
Fixpoint space_to_T (s : string) : string :=
  match s with "" => "" | String c r => if Ascii.eqb c " " then String "T" r else String c (space_to_T r) end.

(** The same with "T" and " ", of the form's fields. *)
Fixpoint T_to_space (s : string) : string :=
  match s with "" => "" | String c r => if Ascii.eqb c "T" then String " " r else String c (T_to_space r) end.

Inductive bucket := Active | Upcoming | Past.

#[export] Instance bucket_eq_dec : EqDecision bucket.
Proof. solve_decision. Defined.

Definition isLive (w : value) : bool := truthy w && (truthy (fld w "live") || is_text "active" (fld w "status")).

Section Dates.
(** [new Date(s).getTime()], [None] for an invalid date. *)
Context (date : string -> option Z).

Definition parseUtc (s : value) : option Z :=
  if truthy s then let str := trim (vstr s) in if hasZone str then date str else date (space_to_T str +:+ "Z") else None.

Definition classify (now : Z) (w : value) : bucket :=
  if truthy (fld w "live") || is_text "active" (fld w "status") then Active
  else if is_text "completed" (fld w "status") || is_text "cancelled" (fld w "status") then Past
  else match parseUtc (fld w "endsAt") with Some t => if (t <? now)%Z then Past else Upcoming | None => Upcoming end.
End Dates.

(** ** Is a host under a window? *)

(** [a && b]. *)
Definition v_and (a b : value) : value := if truthy a then b else a.

Record host := Host { h_node : value; h_fqdn : value; h_ip : value }.

(** The identity of a reference: its own fields, else its node's. *)
Definition host_of (ref : value) : host :=
  let node := fld ref "node" in
  Host (if nullish (fld ref "nodeId") then v_and node (fld node "nodeId") else fld ref "nodeId")
       (v_or (fld ref "hostFqdn") (v_or (v_and node (fld node "hostFqdn")) VNull))
       (v_or (fld ref "ip") (v_or (fld ref "ipAddr") (v_or (v_and node (fld node "ip")) VNull))).

Definition same_text (a b : value) : bool := match a, b with VStr x, VStr y => String.eqb x y | _, _ => false end.

Definition covers (h : host) (w : value) : bool :=
  is_text "all" (fld w "scope") ||
  (negb (nullish (h_node h)) && negb (nullish (fld w "nodeId")) && String.eqb (vstr (fld w "nodeId")) (vstr (h_node h))) ||
  (truthy (h_fqdn h) && truthy (fld w "hostFqdn") && String.eqb (toLowerCase (vstr (fld w "hostFqdn"))) (toLowerCase (vstr (h_fqdn h)))) ||
  (truthy (h_ip h) && truthy (fld w "ipAddr") && same_text (fld w "ipAddr") (h_ip h)).

Definition maintenanceForHost (windows : list value) (ref : value) : option value :=
  List.find (covers (host_of ref)) (List.filter isLive windows).

(** ** The schedule form *)

Record schedule := Schedule { scopeAll : bool; s_host : string; reason : string; duration : bool; hours : value; from : string; to : string; s_busy : bool }.

Definition nonblank (s : string) : bool := negb (String.eqb (trim s) "").

Definition valid (f : schedule) : bool :=
  (scopeAll f || nonblank (s_host f)) &&
  (if duration f then ngt (vnum (hours f)) n0 else negb (String.eqb (from f) "") && negb (String.eqb (to f) "")).

(** [Number(hours) || 0]. *)
Definition hours_of (v : value) : num := let n := vnum v in if is_nan n || nequ n n0 then n0 else n.

Definition body (f : schedule) : list (string * value) :=
  (if scopeAll f then [("all", VBool true)] else [("host", VStr (trim (s_host f)))]) ++
  (if nonblank (reason f) then [("reason", VStr (trim (reason f)))] else []) ++
  (if duration f then [("hours", VNum (hours_of (hours f)))] else [("from", VStr (T_to_space (from f))); ("to", VStr (T_to_space (to f)))]).

Inductive submitted := Nothing | Offline | Post (b : list (string * value)).

Definition submit (live : bool) (f : schedule) : submitted :=
  if negb (valid f) || s_busy f then Nothing else if live then Post (body f) else Offline.

(** The form once the post is accepted, and once it is refused. *)
Definition accepted (f : schedule) : schedule := Schedule (scopeAll f) "" "" (duration f) (hours f) "" "" false.
Definition refused (f : schedule) : schedule := Schedule (scopeAll f) (s_host f) (reason f) (duration f) (hours f) (from f) (to f) false.

(** The hosts of the form's list: those of the fleet, once each, sorted. *)
Definition known_hosts (fleet : list value) : list string :=
  sort_by string_le (fold_left (fun out n =>
    let h := v_or (fld n "hostFqdn") (fld n "name") in
    if truthy h && negb (bool_decide (vstr h ∈ out)) then out ++ [vstr h] else out) fleet []).

(** ** One window's row *)

Definition row_label (w : value) : string :=
  if is_text "all" (fld w "scope") then "Whole fleet"
  else if truthy (fld w "hostFqdn") then hd "" (split_char "." (vstr (fld w "hostFqdn")))
  else if nullish (fld w "nodeId") then "host" else "node " +:+ vstr (fld w "nodeId").

(** The row's button and its confirmation. *)
Record wrow := WRow { confirming : bool; w_busy : bool }.

Inductive wevent := AskCancel | KeepIt | Cancel | CancelDone | CancelFailed.

(** [true] when the cancellation is sent; a confirmation is only on screen while
    [confirming]. *)
Definition row_step (live past : bool) (r : wrow) (e : wevent) : wrow * bool :=
  match e with
  | AskCancel => (if past || confirming r then r else WRow true (w_busy r), false)
  | KeepIt => (if w_busy r then r else WRow false (w_busy r), false)
  | Cancel => if past || negb (confirming r) || w_busy r then (r, false)
              else if live then (WRow true true, true) else (WRow false (w_busy r), false)
  | CancelDone => (r, false)
  | CancelFailed => (WRow false false, false)
  end.

(** ** The list *)

Definition in_filter (filter : option bucket) (b : bucket) : bool :=
  match filter, b with
  | None, _ | Some Active, Active | Some Upcoming, Upcoming | Some Past, Past => true
  | _, _ => false
  end.

(** [s_req] is the request whose effect is alive. *)
Record screen := Screen { filter : option bucket; s_req : nat; windows : option (list value) }.

Inductive mevent := SetFilter (f : option bucket) | Bump | Answered (req : nat) (l : list value) | Failed (req : nat).

Section Screen.
Context (date : string -> option Z) (now : Z) (live : bool) (all : list value).

Definition localFiltered (f : option bucket) : list value := List.filter (fun w => in_filter f (classify date now w)) all.

(** The effect of a new filter or nonce. *)
Definition load (f : option bucket) (s : screen) : screen :=
  Screen f (S (s_req s)) (if live then windows s else Some (localFiltered f)).

Definition mstep (s : screen) (e : mevent) : screen :=
  match e with
  | SetFilter f => if bool_decide (f = filter s) then s else load f s
  | Bump => load (filter s) s
  | Answered r l => if (r =? s_req s)%nat then Screen (filter s) (s_req s) (Some l) else s
  | Failed r => if (r =? s_req s)%nat then Screen (filter s) (s_req s) (Some (localFiltered (filter s))) else s
  end.
End Screen.

(** ** The badge *)

Lemma find_first {A} (p : A -> bool) l :
  match List.find p l with
  | Some x => exists l1 l2, l = l1 ++ x :: l2 /\ p x = true /\ Forall (fun y => p y = false) l1
  | None => Forall (fun y => p y = false) l
  end.
Proof.
  induction l as [|x l IH]; [constructor|]. cbn [List.find]. destruct (p x) eqn:E.
  - exists [], l. by split_and!.
  - destruct (List.find p l) as [y|]; [|by constructor]. destruct IH as (l1 & l2 & -> & H1 & H2). exists (x :: l1), l2. by repeat constructor.
Qed.

(** A host carries the maintenance badge exactly when an open window covers it: the one
    the badge names is in the list, live, covers the host, and is in the screen's
    active bucket; without a badge no live window covers the host. *)
Theorem badge_means_an_open_window (date : string -> option Z) (now : Z) (ws : list value) (ref : value) :
  match maintenanceForHost ws ref with
  | Some w => w ∈ ws /\ isLive w = true /\ covers (host_of ref) w = true /\ classify date now w = Active
  | None => forall w, w ∈ ws -> isLive w = true -> covers (host_of ref) w = false
  end.
Proof.
  unfold maintenanceForHost. pose proof (find_first (covers (host_of ref)) (List.filter isLive ws)) as H. destruct (List.find _ _) as [w|].
  - destruct H as (l1 & l2 & E & Hc & _). assert (Hin : In w (List.filter isLive ws)) by (rewrite E; apply in_elt).
    apply filter_In in Hin as [Hin Hl]. split_and!; [by apply list_elem_of_In|done|done|]. unfold isLive in Hl. apply andb_prop in Hl as [_ Hl].
    unfold classify. by rewrite Hl.
  - intros w Hin Hl. rewrite Forall_forall in H. apply H, list_elem_of_In, filter_In. split; [by apply list_elem_of_In|done].
Qed.

(** ** The form *)

Lemma hours_positive v : ngt (vnum v) n0 = true -> ngt (hours_of v) n0 = true.
Proof. unfold hours_of. cbv zeta. by destruct (vnum v) as [[]|[]| |[]]. Qed.

(** What a schedule posts is complete: either the whole fleet was chosen or a host is
    named, and it has a positive duration or both of its ends. *)
Theorem schedule_posts_a_whole_window (live : bool) (f : schedule) (b : list (string * value)) :
  submit live f = Post b ->
  live = true /\
  (if scopeAll f then assoc "all" b = Some (VBool true) /\ assoc "host" b = None
   else assoc "all" b = None /\ exists h, assoc "host" b = Some (VStr h) /\ h <> "") /\
  (if duration f then exists n, assoc "hours" b = Some (VNum n) /\ ngt n n0 = true
   else exists x y, assoc "from" b = Some (VStr x) /\ assoc "to" b = Some (VStr y) /\ x <> "" /\ y <> "").
Proof.
  unfold submit. destruct (valid f) eqn:Ev; [|done]. destruct (s_busy f); [done|]. destruct live; [|done]. intros [= <-]. split; [done|].
  assert (HT : forall s, negb (String.eqb s "") = true -> T_to_space s <> "").
  { intros [|c s]; [done|]. cbn [T_to_space]. by destruct (Ascii.eqb c "T"). }
  assert (Hh : forall s, nonblank s = true -> trim s <> "") by (intros s; unfold nonblank; by intros ?%negb_true_iff%String.eqb_neq).
  unfold valid in Ev. apply andb_prop in Ev as [Eh Ed]. unfold body. split.
  - destruct (scopeAll f); [destruct (nonblank (reason f)), (duration f); done|]. apply Hh in Eh.
    destruct (nonblank (reason f)), (duration f); (split; [done|by eexists]).
  - destruct (duration f).
    + apply hours_positive in Ed. destruct (scopeAll f), (nonblank (reason f)); eexists; (split; [reflexivity|exact Ed]).
    + apply andb_prop in Ed as [E1 E2]. apply HT in E1, E2.
      destruct (scopeAll f), (nonblank (reason f)); eexists _, _; (split_and!; [reflexivity|reflexivity|exact E1|exact E2]).
Qed.

(** ** Late answers *)

Definition late (r : nat) (e : mevent) : Prop := match e with Answered q _ | Failed q => q <> r | _ => False end.

(** Once the request of the chosen filter is answered the list shows that answer,
    whatever answers to earlier requests arrive after it. *)
Theorem late_windows_are_ignored date now live all (s : screen) (l : list value) (es : list mevent) :
  Forall (late (s_req s)) es ->
  fold_left (mstep date now live all) es (mstep date now live all s (Answered (s_req s) l)) = Screen (filter s) (s_req s) (Some l).
Proof.
  intros H. cbn [mstep]. rewrite Nat.eqb_refl. induction H as [|e es He _ IH]; [done|]. cbn [fold_left].
  destruct e as [| |q m|q]; try done; cbn [mstep s_req]; by rewrite (proj2 (Nat.eqb_neq _ _) He).
Qed.
