(* ===== verification/RackWire.v ===== *)
(** * The RackWire bridge (screens-rackwire.jsx)

    The page embeds the planner in a frame and talks to it by messages.  [onMsg] is
    the host's side: which messages it believes, what it shows, what it sends back.
    The planner inside the frame is a separate program; its messages are arbitrary
    values here.  [theme] is what [pushTheme] sends: the theme and the tokens the
    document resolves at that moment. *)

From Stdlib Require Import ZArith Lia Ascii.
From Corelib Require Import SpecFloat.
From stdpp Require Import strings list.
From S2P Require Import Prelude JsNum JsValue.

Local Open Scope string_scope.
Local Open Scope list_scope.

Definition PUSH_TOKENS : list string :=
  ["--bg"; "--bg-deep"; "--panel"; "--panel-3"; "--ink"; "--ink-dim"; "--ink-faint"; "--line"; "--line-2"; "--accent";
   "--ok"; "--warn"; "--crit"; "--crit-bg"; "--violet"].

(** [style] is [getPropertyValue] of the document's computed style. *)
Definition readTokens (style : string -> string) : list (string * value) :=
  omap (fun k => let v := trim (style k) in if String.eqb v "" then None else Some (k, VStr v)) PUSH_TOKENS.

Definition currentTheme (attr : string) : string := if String.eqb attr "light" then "light" else "dark".

Definition theme_args (attr : string) (style : string -> string) : list value := [VStr (currentTheme attr); VObj (readTokens style)].

(** ** Names of devices *)

Definition has_text (v : value) : bool := match v with VStr s => negb (String.eqb (trim s) "") | _ => false end.

Definition label_of (device : value) (uid : string) : string :=
  if has_text (fld device "name") then trim (vstr (fld device "name"))
  else if has_text (fld device "model") then trim (vstr (fld device "model"))
  else uid.

Definition add_name (names : list (string * string)) (device : value) : list (string * string) :=
  match fld device "uid" with
  | VStr uid => if truthy device then assoc_set uid (label_of device uid) names else names
  | _ => names
  end.

Definition namesFromDevices (devices : value) : option (list (string * string)) :=
  match devices with VArr l => Some (fold_left add_name l []) | _ => None end.

(** ** The page *)

Record rack := Rack { ready : bool; live : bool; sel : list value; counts : option (value * value); devNames : list (string * string); view : string }.

Definition rack0 : rack := Rack false false [] None [] "map".

(** [devName(uid)]. *)
Definition devName (r : rack) (uid : string) : string :=
  match assoc uid (devNames r) with Some n => if String.eqb n "" then uid else n | None => uid end.

(** A message: whether it came from this origin and from the frame's window, and its
    data. *)
Record message := Message { same_origin : bool; from_frame : bool; data : value }.

Inductive output := Send (cmd : string) (args : list value) | Navigate (route : string).

Definition text_is (s : string) (v : value) : bool := match v with VStr x => String.eqb x s | _ => false end.

(** [[].concat(v)]. *)
Definition concat_of (v : value) : list value := match v with VArr l => l | _ => [v] end.

Definition length_of (v : value) : value := fld (v_or v (VArr [])) "length".

Definition set_names (o : option (list (string * string))) (r : rack) : rack :=
  match o with Some n => Rack (ready r) (live r) (sel r) (counts r) n (view r) | None => r end.

Definition authentic (m : message) : bool :=
  same_origin m && from_frame m && truthy (data m) && text_is "rackwire" (fld (data m) "source") && truthy (fld (data m) "event").

Section Bridge.
(** What [pushTheme] sends now. *)
Context (theme : list value).

(** The handler of a message that is believed. *)
Definition handle (m : value) (r : rack) : rack * list output :=
  let event := fld m "event" in
  let payload := fld m "payload" in
  if text_is "navigate" event
  then (r, match fld payload "route" with
           | VStr s => if String.eqb s "discovery" || String.eqb s "inventory" then [Navigate s] else []
           | _ => []
           end)
  else if text_is "ready" event
  then (Rack true true (sel r) (counts r) (devNames r) (view r), [Send "setTheme" theme; Send "getPlan" []])
  else if text_is "select" event
  then (Rack (ready r) (live r) (concat_of (v_or payload (VArr []))) (counts r) (devNames r) (view r), [])
  else if text_is "reply" event && truthy payload && text_is "getPlan" (fld payload "cmd")
  then (set_names (namesFromDevices (fld (fld payload "value") "devices")) r, [])
  else if text_is "change" event
  then let p := v_or payload (VObj []) in
       (set_names (namesFromDevices (fld p "devices"))
          (Rack (ready r) (live r) (sel r) (Some (length_of (fld p "devices"), length_of (fld p "cables"))) (devNames r) (view r)), [])
  else (r, []).

Definition onMsg (r : rack) (m : message) : rack * list output := if authentic m then handle (data m) r else (r, []).

(** What else happens on the page: the theme flips, the frame (re)loads, and the
    operator's buttons. *)
Inductive revent := Msg (m : message) | ThemeFlip | FrameLoad | SetView (v : string) | Focus (uid : value) | Clear | OpenScan | GoTo (route : string).

Definition rstep (r : rack) (e : revent) : rack * list output :=
  match e with
  | Msg m => onMsg r m
  | ThemeFlip | FrameLoad => (r, if ready r then [Send "setTheme" theme] else [])
  | SetView v => (Rack (ready r) (live r) (sel r) (counts r) (devNames r) v, [Send "setView" [VStr v]])
  | Focus uid => (r, [Send "focus" [uid]])
  | Clear => (Rack (ready r) (live r) [] (counts r) (devNames r) (view r), [Send "select" [VArr []]])
  | OpenScan => (r, [Send "openScan" []])
  | GoTo route => (r, [Navigate route])
  end.

Fixpoint rrun (r : rack) (es : list revent) : rack * list output :=
  match es with
  | [] => (r, [])
  | e :: es => let '(r1, o1) := rstep r e in let '(r2, o2) := rrun r1 es in (r2, o1 ++ o2)
  end.

(** ** Forged messages *)

(** The operator's own actions, and messages of this origin from the mounted frame. *)
Definition believed (e : revent) : bool := match e with Msg m => same_origin m && from_frame m | _ => true end.

Lemma forged_step r e : believed e = false -> rstep r e = (r, []).
Proof.
  destruct e as [m| | | | | | |]; try done. cbn [believed rstep]. unfold onMsg, authentic.
  by destruct (same_origin m), (from_frame m).
Qed.

(** Only the mounted frame is believed.  Messages of another origin, or of another window
    of this origin, change nothing: the page ends in the state,
    and has sent and followed what it would have, without them.  And no message leads to
    another page than discovery and inventory. *)
Theorem rackwire_believes_its_frame (r : rack) (es : list revent) :
  rrun r es = rrun r (List.filter believed es) /\
  (forall m route, Navigate route ∈ (onMsg r m).2 -> route = "discovery" \/ route = "inventory").
Proof.
  split.
  - revert r. induction es as [|e es IH]; intros r; [done|]. cbn [List.filter]. destruct (believed e) eqn:E.
    + cbn [rrun]. destruct (rstep r e) as [r1 o1]. by rewrite IH.
    + cbn [rrun]. rewrite forged_step by done. rewrite IH. by destruct (rrun r (List.filter believed es)).
  - intros m route. unfold onMsg. destruct (authentic m); [|by intros ?%not_elem_of_nil]. unfold handle. cbv zeta.
    destruct (text_is "navigate" _); cbn [snd].
    + destruct (fld (fld (data m) "payload") "route") as [| | | |s| |]; try (by intros ?%not_elem_of_nil).
      destruct (String.eqb s "discovery" || String.eqb s "inventory") eqn:E; [|by intros ?%not_elem_of_nil]. intros [= ->]%list_elem_of_singleton.
      apply orb_prop in E as [?%String.eqb_eq|?%String.eqb_eq]; [by left|by right].
    + destruct (text_is "ready" _); cbn [snd]; [intros [E|E]%elem_of_cons; [done|]; by apply list_elem_of_singleton in E|].
      destruct (text_is "select" _); cbn [snd]; [by intros ?%not_elem_of_nil|].
      destruct (text_is "reply" _ && _ && _); cbn [snd]; [by intros ?%not_elem_of_nil|].
      destruct (text_is "change" _); cbn [snd]; by intros ?%not_elem_of_nil.
Qed.

(** ** The frame's theme *)

(** After the ready message the frame is told the theme and asked for its plan; from then on
    every change of the theme reaches it. *)
Theorem ready_frame_follows_theme (r : rack) (m : message) (es : list revent) :
  authentic m = true -> text_is "ready" (fld (data m) "event") = true ->
  (onMsg r m).2 = [Send "setTheme" theme; Send "getPlan" []] /\
  (rstep (rrun (onMsg r m).1 es).1 ThemeFlip).2 = [Send "setTheme" theme].
Proof.
  intros Ha He. unfold onMsg. rewrite Ha. unfold handle. cbv zeta. rewrite He.
  replace (text_is "navigate" (fld (data m) "event")) with false.
  2:{ destruct (fld (data m) "event"); try done. cbn in *. by apply String.eqb_eq in He as ->. }
  split; [done|]. assert (H : forall es r0, ready r0 = true -> ready (rrun r0 es).1 = true).
  { clear. induction es as [|e es IH]; intros r0 Hr; [done|]. cbn [rrun]. destruct (rstep r0 e) as [r1 o1] eqn:E.
    specialize (IH r1). destruct (rrun r1 es) as [r2 o2]. cbn [fst] in *. apply IH. clear IH.
    assert (Hn : forall o r', ready r' = true -> ready (set_names o r') = true) by (intros [|] ?; done).
    destruct e as [m| | |v|u| | |g]; cbn [rstep] in E; try (by injection E as <- <-).
    unfold onMsg in E. destruct (authentic m); [|by injection E as <- <-]. unfold handle in E. cbv zeta in E.
    destruct (text_is "navigate" _); [by injection E as <- <-|]. destruct (text_is "ready" _); [by injection E as <- <-|].
    destruct (text_is "select" _); [by injection E as <- <-|].
    destruct (text_is "reply" _ && _ && _); [injection E as <- <-; by apply Hn|].
    destruct (text_is "change" _); [injection E as <- <-; by apply Hn|]. by injection E as <- <-. }
  cbn [rstep snd fst]. by rewrite H.
Qed.
End Bridge.

(** ** Names *)

(** A device has a visible name: the plan's name, its model or its id. *)
Lemma names_visible l names uid n : Forall (fun kv => kv.2 <> "" \/ kv.1 = kv.2) names ->
  assoc uid (fold_left add_name l names) = Some n -> n <> "" \/ uid = n.
Proof.
  revert names. induction l as [|d l IH]; intros names Hn; cbn [fold_left].
  - induction names as [|[k x] names IHn]; [done|]. apply Forall_cons in Hn as [Hx Hn]. cbn [assoc]. destruct (String.eqb_spec uid k) as [-> |]; [intros [= ->]; exact Hx|by apply IHn].
  - apply IH. unfold add_name. destruct (fld d "uid") as [| | | |u| |]; try done. destruct (truthy d); [|done].
    assert (Hl : label_of d u <> "" \/ u = label_of d u).
    { unfold label_of. assert (Ht : forall v, has_text v = true -> trim (vstr v) <> "") by (intros [| | | |s| |]; try done; cbn; by intros ?%negb_true_iff%String.eqb_neq).
      destruct (has_text (fld d "name")) eqn:E1; [left; by apply Ht|]. destruct (has_text (fld d "model")) eqn:E2; [left; by apply Ht|by right]. }
    clear IH. induction names as [|[k x] names IHn]; [by constructor|]. apply Forall_cons in Hn as [Hx Hn]. cbn [assoc_set].
    destruct (String.eqb_spec u k) as [-> |]; constructor; try done. by apply IHn.
Qed.
