(* ===== verification/Dns.v ===== *)
(** * The DNS page (screens7.jsx)

    The query tool asks several resolvers at once, marks the ones that disagree and
    keeps the last queries; the record browser shows a zone's records.  An answer
    set is compared by [answerKey].  Answers, times and servers are those of the API;
    the parity tiles are markup over it. *)

From Stdlib Require Import ZArith Lia Ascii Sorted.
From stdpp Require Import strings pretty list sorting.
From S2P Require Import Prelude JsNum JsValue Catalog ProvStacks ProvSpec.

Local Open Scope string_scope.
Local Open Scope list_scope.

Definition SERVER_ORDER : list string := ["steel"; "xenon"; "radium"; "external"].

(** ** Answers *)

Record answer := Answer { a_type : string; a_data : string }.

(** One server's result; [r_server] is its id and kind, if the result names one. *)
Record result := Result { r_server : option (string * string); r_answers : list answer }.

Definition line (a : answer) : string := a_type a +:+ "|" +:+ a_data a.

Definition answerKey (r : result) : string := String.concat nl (sort_by string_le (map line (r_answers r))).

Definition server_id (r : result) : string := match r_server r with Some (id, _) => id | None => "" end.

Definition is_internal (r : result) : bool := match r_server r with Some (_, kind) => negb (String.eqb kind "external") | None => false end.

(** [counts[k]]. *)
Definition count (keys : list string) (k : string) : nat := length (List.filter (String.eqb k) keys).

(** [Object.keys(counts)]: each key once, as first met. *)
Definition distinct (keys : list string) : list string :=
  fold_left (fun out k => if bool_decide (k ∈ out) then out else out ++ [k]) keys [].

Definition modal (keys : list string) : string :=
  fold_left (fun m k => if (count keys m <? count keys k)%nat then k else m) (distinct keys) (hd "" keys).

(** The servers marked as differing, and the warning about the two authorities. *)
Definition diffIds (results : list result) : list string :=
  let internal := List.filter is_internal results in
  if (1 <? length internal)%nat
  then let keys := map answerKey internal in
       map server_id (List.filter (fun r => negb (String.eqb (answerKey r) (modal keys))) internal)
  else [].

Definition find_server (id : string) (l : list result) : option result := List.find (fun r => String.eqb (server_id r) id) l.

Definition steelXenonDisagree (results : list result) : bool :=
  let internal := List.filter is_internal results in
  (1 <? length internal)%nat &&
  match find_server "steel" internal, find_server "xenon" internal with
  | Some st, Some xe => negb (String.eqb (answerKey st) (answerKey xe))
  | _, _ => false
  end.

(** ** The query tool *)

Record query := Query { q_name : string; q_type : string }.

Definition same_query (a b : query) : bool := String.eqb (q_name a) (q_name b) && String.eqb (q_type a) (q_type b).

(** [loadHistory], on the parsed list: entries with a name, ten at most. *)
Definition loadHistory (raw : list query) : list query := take 10 (List.filter (fun h => negb (String.eqb (q_name h) "")) raw).

Definition remember (q : query) (history : list query) : list query :=
  take 10 (q :: List.filter (fun h => negb (same_query h q)) history).

Record tool := Tool { name : string; type : string; servers : list string; running : option query; t_result : option (list result);
                      t_error : bool; history : list query }.

Definition toggleServer (id : string) (s : list string) : list string :=
  if bool_decide (id ∈ s) then (if (1 <? length s)%nat then List.filter (fun x => negb (String.eqb x id)) s else s) else s ++ [id].

(** The servers asked, in the page's order. *)
Definition asked (servers : list string) : list string := List.filter (fun id => bool_decide (id ∈ servers)) SERVER_ORDER.

(** [Run None] is the form's query, [Run (Some q)] a chip's; [Reply] is the answer of the
    running query, [None] for an empty one. *)
Inductive qevent := SetName (s : string) | SetType (s : string) | Toggle (id : string) | Run (q : option query) | Reply (d : option (list result)) | Broken.

(** The state after the event, and the query that is sent with its servers. *)
Definition tool_step (offline : bool) (t : tool) (e : qevent) : tool * option (query * list string) :=
  match e with
  | SetName s => (Tool s (type t) (servers t) (running t) (t_result t) (t_error t) (history t), None)
  | SetType s => (Tool (name t) s (servers t) (running t) (t_result t) (t_error t) (history t), None)
  | Toggle id => (Tool (name t) (type t) (toggleServer id (servers t)) (running t) (t_result t) (t_error t) (history t), None)
  | Run o =>
      let n := trim (match o with Some q => q_name q | None => name t end) in
      let ty := match o with Some q => q_type q | None => type t end in
      if String.eqb n "" || offline || bool_decide (is_Some (running t)) then (t, None)
      else (Tool (match o with Some q => q_name q | None => name t end) ty (servers t) (Some (Query n ty)) (t_result t) false (history t),
            Some (Query n ty, asked (servers t)))
  | Reply d =>
      match running t with
      | Some q => (Tool (name t) (type t) (servers t) None d (t_error t)
                     (match d with Some _ => remember q (history t) | None => history t end), None)
      | None => (t, None)
      end
  | Broken => match running t with
              | Some _ => (Tool (name t) (type t) (servers t) None None true (history t), None)
              | None => (t, None)
              end
  end.

(** ** The record browser *)

Record filters := Filters { f_query : string; f_type : string; f_gen : string }.

Definition record_path (f : filters) : string :=
  "?limit=500" +:+ (if String.eqb (f_query f) "" then "" else "&q=" +:+ encodeURIComponent (f_query f)) +:+
  (if String.eqb (f_type f) "" then "" else "&type=" +:+ encodeURIComponent (f_type f)) +:+
  (if String.eqb (f_gen f) "generated" then "&generated=1" else if String.eqb (f_gen f) "explicit" then "&generated=0" else "").

(** A request for a zone's records. *)
Definition request : Type := string * string.

(** [recData] is the answer shown, with the request it answers; [timer] is the debounced
    fetch that is due, with the zone and filters of the change that set it. *)
Record browser := Browser { zone : option string; filter : filters; recLoading : bool; recData : option (option request); timer : option (string * filters) }.

(** [Records r] is the answer to the request [r]. *)
Inductive bevent := OpenZone (id : string) | SetFilter (f : filters) | Debounced | Records (r : request) | RecordsFailed.

Definition fetchRecords (z : string) (f : filters) (b : browser) : browser * list request :=
  if String.eqb z "" then (b, []) else (Browser (zone b) (filter b) true (recData b) (timer b), [(z, record_path f)]).

Definition browser_step (b : browser) (e : bevent) : browser * list request :=
  match e with
  | OpenZone id => fetchRecords id (filter b) (Browser (Some id) (filter b) (recLoading b) (recData b) (timer b))
  | SetFilter f => (Browser (zone b) f (recLoading b) (recData b) (match zone b with Some z => Some (z, f) | None => timer b end), [])
  | Debounced =>
      match timer b with
      | Some (z, f) => fetchRecords z f (Browser (zone b) (filter b) (recLoading b) (recData b) None)
      | None => (b, [])
      end
  | Records r => (Browser (zone b) (filter b) false (Some (Some r)) (timer b), [])
  | RecordsFailed => (Browser (zone b) (filter b) false (Some None) (timer b), [])
  end.

(** ** Answer sets *)

Lemma string_le_total a b : string_le a b = false -> string_le b a = true.
Proof. unfold string_le. rewrite (String.compare_antisym b a). by destruct (String.compare a b). Qed.

Lemma compare_refl a : String.compare a a = Eq.
Proof. pose proof (String.compare_antisym a a) as H. by destruct (String.compare a a). Qed.

Lemma string_le_trans a b c : string_le a b = true -> string_le b c = true -> string_le a c = true.
Proof.
  unfold string_le. destruct (String.compare a b) eqn:E1, (String.compare b c) eqn:E2; try done; intros _ _.
  - apply String.compare_eq_iff in E1, E2. subst. by rewrite compare_refl.
  - apply String.compare_eq_iff in E1. subst. by rewrite E2.
  - apply String.compare_eq_iff in E2. subst. by rewrite E1.
  - by rewrite (string_lt_trans a b c E1 E2).
Qed.

Lemma string_le_antisym a b : string_le a b = true -> string_le b a = true -> a = b.
Proof.
  unfold string_le. rewrite (String.compare_antisym b a). destruct (String.compare a b) eqn:E; try done. intros _ _. by apply String.compare_eq_iff in E.
Qed.

(** Sorting forgets exactly the order. *)
Lemma sort_strings l l' : sort_by string_le l = sort_by string_le l' <-> l ≡ₚ l'.
Proof.
  split.
  - intros E. by rewrite <- (sort_by_perm string_le l), E, sort_by_perm.
  - intros Hp. assert (AntiSymm (=) (fun a b => string_le a b = true)) by (intros a b; apply string_le_antisym).
    apply (StronglySorted_unique (fun a b => string_le a b = true)).
    + apply sort_by_sorted; [apply string_le_total|apply string_le_trans].
    + apply sort_by_sorted; [apply string_le_total|apply string_le_trans].
    + by rewrite !sort_by_perm.
Qed.

(** What the comparison relies on: no line end in an answer, no bar in a type. *)
Definition clean (r : result) : Prop := Forall (fun a => no_sep newline (line a) /\ no_sep "|" (a_type a)) (r_answers r).

Lemma line_inj a b : no_sep "|" (a_type a) -> no_sep "|" (a_type b) -> line a = line b -> a = b.
Proof.
  intros Ha Hb E. unfold line in E. destruct a as [t d], b as [t' d']. cbn [a_type a_data] in *.
  assert (H : forall t t', no_sep "|" t -> no_sep "|" t' -> t +:+ String "|" d = t' +:+ String "|" d' -> t = t' /\ d = d').
  { clear. unfold no_sep. induction t as [|c t IH]; intros [|c' t'] H1 H2 E; cbn [sall] in H1, H2.
    - by injection E.
    - injection E as <- _. by rewrite Ascii.eqb_refl in H2.
    - injection E as -> _. by rewrite Ascii.eqb_refl in H1.
    - apply andb_prop in H1 as [_ H1], H2 as [_ H2]. injection E as -> E. destruct (IH t' H1 H2 E) as [-> ->]. done. }
  destruct (H t t' Ha Hb E) as [-> ->]. done.
Qed.

Lemma line_nonempty a : line a <> "".
Proof. unfold line. by destruct (a_type a). Qed.

Lemma concat_nil ls : Forall (fun s => s <> "") ls -> String.concat nl ls = "" -> ls = [].
Proof. intros H E. destruct ls as [|x [|y r]]; [done| |]; apply Forall_cons in H as [Hx _]; cbn in E; [done|by destruct x]. Qed.

Lemma map_perm_inj (l l' : list answer) : Forall (fun a => no_sep "|" (a_type a)) l -> Forall (fun a => no_sep "|" (a_type a)) l' ->
  map line l ≡ₚ map line l' -> l ≡ₚ l'.
Proof.
  revert l'. induction l as [|a l IH]; intros l' Hl Hl' Hp.
  - apply Permutation_nil in Hp. by apply map_eq_nil in Hp as ->.
  - apply Forall_cons in Hl as [Ha Hl]. assert (Hin : In (line a) (map line l')) by (rewrite <- Hp; by left).
    apply in_map_iff in Hin as (b & Eb & Hb). apply in_split in Hb as (l1 & l2 & ->). rewrite Forall_app, Forall_cons in Hl'. destruct Hl' as (H1 & Hb & H2).
    assert (a = b) as <- by (by apply line_inj). rewrite <- Permutation_middle. constructor. apply IH; [done|by apply Forall_app|].
    apply (Permutation_cons_inv (a := line a)). rewrite map_app in Hp. cbn [map] in Hp. rewrite <- Permutation_middle, <- map_app in Hp. done.
Qed.

(** Two servers have the same key exactly when they gave the same answers, in any order. *)
Lemma answerKey_perm r r' : clean r -> clean r' -> answerKey r = answerKey r' <-> r_answers r ≡ₚ r_answers r'.
Proof.
  unfold clean, answerKey. rewrite !Forall_and. intros [N1 T1] [N2 T2].
  assert (Hns : forall l, Forall (fun a => no_sep newline (line a)) l -> Forall (no_sep newline) (sort_by string_le (map line l))).
  { intros l H. rewrite sort_by_perm. by apply Forall_map. }
  assert (Hne : forall l, Forall (fun s => s <> "") (sort_by string_le (map line l))).
  { intros l. rewrite sort_by_perm. apply Forall_map, Forall_forall. intros. apply line_nonempty. }
  split.
  - intros E. apply map_perm_inj; [done..|]. apply sort_strings.
    destruct (sort_by string_le (map line (r_answers r))) as [|x ls] eqn:E1.
    + symmetry. apply concat_nil; [apply Hne|done].
    + destruct (sort_by string_le (map line (r_answers r'))) as [|y ls'] eqn:E2.
      * apply concat_nil in E; [done|]. rewrite <- E1. apply Hne.
      * apply (f_equal (split_char newline)) in E. unfold nl in E. rewrite !split_concat in E; [done|done| |done|];
          [rewrite <- E2|rewrite <- E1]; by apply Hns.
  - intros Hp. f_equal. apply sort_strings. by rewrite Hp.
Qed.

(** ** The majority *)

Lemma distinct_elem keys k : k ∈ distinct keys <-> k ∈ keys.
Proof.
  unfold distinct. assert (H : forall out, k ∈ fold_left (fun out k => if bool_decide (k ∈ out) then out else out ++ [k]) keys out <-> k ∈ out \/ k ∈ keys).
  { induction keys as [|x keys IH]; intros out; cbn [fold_left]; [rewrite elem_of_nil; tauto|]. rewrite IH, elem_of_cons.
    case_bool_decide; [naive_solver|]. rewrite elem_of_app, list_elem_of_singleton. tauto. }
  rewrite H, elem_of_nil. tauto.
Qed.

Lemma modal_spec keys : keys <> [] -> modal keys ∈ keys /\ forall k, k ∈ keys -> (count keys k <= count keys (modal keys))%nat.
Proof.
  intros Hne. unfold modal.
  assert (H : forall l m, m ∈ keys -> Forall (fun k => k ∈ keys) l ->
    let r := fold_left (fun m k => if (count keys m <? count keys k)%nat then k else m) l m in
    r ∈ keys /\ (count keys m <= count keys r)%nat /\ forall k, k ∈ l -> (count keys k <= count keys r)%nat).
  { induction l as [|x l IH]; intros m Hm Hl; cbn [fold_left]; [split_and!; [done|done|by intros k ?%not_elem_of_nil]|].
    apply Forall_cons in Hl as [Hx Hl]. destruct (Nat.ltb_spec (count keys m) (count keys x)) as [Hlt|Hge].
    - destruct (IH x Hx Hl) as (H1 & H2 & H3). split_and!; [done|lia|]. intros k [-> |Hk]%elem_of_cons; [done|by apply H3].
    - destruct (IH m Hm Hl) as (H1 & H2 & H3). split_and!; [done|lia|]. intros k [-> |Hk]%elem_of_cons; [lia|by apply H3]. }
  destruct keys as [|k0 keys]; [done|]. destruct (H (distinct (k0 :: keys)) k0) as (H1 & _ & H3).
  - left.
  - apply Forall_forall. intros k. apply distinct_elem.
  - split; [done|]. intros k Hk. apply H3. by apply distinct_elem.
Qed.

Lemma nodup_map_inj {A} (f : A -> string) l x y : NoDup (map f l) -> x ∈ l -> y ∈ l -> f x = f y -> x = y.
Proof.
  induction l as [|z l IH]; intros Hn Hx Hy E; [by apply not_elem_of_nil in Hx|]. cbn [map] in Hn. apply NoDup_cons in Hn as [Hz Hn].
  assert (Hin : forall w, w ∈ l -> f w ∈ map f l) by (intros w Hw; by apply list_elem_of_In, in_map, list_elem_of_In).
  apply elem_of_cons in Hx as [-> |Hx], Hy as [-> |Hy]; [done| | |by apply IH].
  - exfalso. apply Hz. rewrite E. by apply Hin.
  - exfalso. apply Hz. rewrite <- E. by apply Hin.
Qed.

(** The marks on a query's answers name the minority.  Among the internal servers that
    answered (two or more), one answer set is held by at least as many as any other; a
    server is marked exactly when its answers differ from that set, in any order; none is
    marked exactly when all agree; and the warning about the two authorities appears
    exactly when both answered and their answers differ. *)
Theorem dns_marks_the_minority (results : list result) :
  let internal := List.filter is_internal results in
  Forall clean internal -> NoDup (map server_id internal) -> (1 < length internal)%nat ->
  (exists m, m ∈ internal /\
     (forall r, r ∈ internal -> server_id r ∈ diffIds results <-> ~ (r_answers r ≡ₚ r_answers m)) /\
     (forall r, r ∈ internal -> (count (map answerKey internal) (answerKey r) <= count (map answerKey internal) (answerKey m))%nat)) /\
  (diffIds results = [] <-> forall r r', r ∈ internal -> r' ∈ internal -> r_answers r ≡ₚ r_answers r') /\
  (steelXenonDisagree results = true <->
     exists st xe, find_server "steel" internal = Some st /\ find_server "xenon" internal = Some xe /\ ~ (r_answers st ≡ₚ r_answers xe)).
Proof.
  intros internal Hc Hnd Hlen. rewrite Forall_forall in Hc. set (keys := map answerKey internal).
  destruct (modal_spec keys) as [Hm Hmax]; [by destruct internal; [cbn in Hlen; lia|]|].
  apply list_elem_of_In, in_map_iff in Hm as (m & Em & Hm). apply list_elem_of_In in Hm.
  assert (Hk : forall r, r ∈ internal -> answerKey r <> modal keys <-> ~ (r_answers r ≡ₚ r_answers m)).
  { intros r Hr. rewrite <- Em, answerKey_perm by (by apply Hc). done. }
  assert (Ed : diffIds results = map server_id (List.filter (fun r => negb (String.eqb (answerKey r) (modal keys))) internal)).
  { unfold diffIds. fold internal. cbv zeta. by rewrite (proj2 (Nat.ltb_lt _ _) Hlen). }
  assert (Hd : forall r, r ∈ internal -> server_id r ∈ diffIds results <-> ~ (r_answers r ≡ₚ r_answers m)).
  { intros r Hr. rewrite <- Hk by done. rewrite Ed, list_elem_of_In, in_map_iff. split.
    - intros (r' & Eid & [Hr' Hne]%filter_In). apply negb_true_iff, String.eqb_neq in Hne.
      apply list_elem_of_In in Hr'. by rewrite <- (nodup_map_inj server_id internal r' r Hnd Hr' Hr Eid).
    - intros Hne. exists r. split; [done|]. apply filter_In. split; [by apply list_elem_of_In|]. by apply negb_true_iff, String.eqb_neq. }
  split_and!.
  - exists m. split_and!; [done|done|]. intros r Hr. rewrite Em. apply Hmax. apply list_elem_of_In, in_map. by apply list_elem_of_In.
  - split.
    + intros E0 r r' Hr Hr'. rewrite E0 in Hd.
      assert (Hs : forall x, x ∈ internal -> r_answers x ≡ₚ r_answers m).
      { intros x Hx. apply (answerKey_perm x m (Hc _ Hx) (Hc _ Hm)). destruct (decide (answerKey x = answerKey m)) as [|Hn]; [done|].
        exfalso. apply (not_elem_of_nil (server_id x)). apply Hd; [done|]. rewrite <- answerKey_perm by (by apply Hc). done. }
      by rewrite (Hs r Hr), (Hs r' Hr').
    + intros Hall. destruct (diffIds results) as [|id ids] eqn:E0; [done|exfalso]. assert (Hin : In id (id :: ids)) by by left.
      rewrite Ed in Hin. apply in_map_iff in Hin as (r & <- & [Hr Hne]%filter_In). apply list_elem_of_In in Hr.
      apply negb_true_iff, String.eqb_neq, Hk in Hne; [|done]. by apply Hne, Hall.
  - unfold steelXenonDisagree. fold internal. cbv zeta. rewrite (proj2 (Nat.ltb_lt _ _) Hlen). cbn [andb].
    assert (Hf : forall id r, find_server id internal = Some r -> r ∈ internal) by (intros id r [H _]%List.find_some; by apply list_elem_of_In).
    destruct (find_server "steel" internal) as [st|] eqn:E1; [|split; [done|by intros (? & ? & ? & _)]].
    destruct (find_server "xenon" internal) as [xe|] eqn:E2; [|split; [done|by intros (? & ? & _ & ? & _)]].
    apply Hf in E1, E2. rewrite negb_true_iff, String.eqb_neq, answerKey_perm by (by apply Hc). split; [intros H; by exists st, xe|].
    by intros (? & ? & [= <-] & [= <-] & H).
Qed.

Definition demo_results : list result :=
  [Result (Some ("steel", "internal")) [Answer "A" "10.0.0.1"; Answer "A" "10.0.0.2"];
   Result (Some ("xenon", "internal")) [Answer "A" "10.0.0.2"; Answer "A" "10.0.0.1"];
   Result (Some ("radium", "internal")) [Answer "A" "10.0.0.9"]; Result (Some ("external", "external")) []].

Lemma dns_marks_the_minority_witness :
  diffIds demo_results = ["radium"] /\
  (steelXenonDisagree demo_results = true <-> exists st xe,
     find_server "steel" (List.filter is_internal demo_results) = Some st /\ find_server "xenon" (List.filter is_internal demo_results) = Some xe /\
     ~ (r_answers st ≡ₚ r_answers xe)).
Proof.
  split; [reflexivity|]. refine (proj2 (proj2 (dns_marks_the_minority demo_results _ _ _))).
  - repeat constructor.
  - apply (bool_decide_unpack _). vm_compute. exact I.
  - cbn. lia.
Defined.

(** ** The query tool's state *)

Definition tool_ok (t : tool) : Prop :=
  servers t <> [] /\ NoDup (servers t) /\ servers t ⊆ SERVER_ORDER /\ (length (history t) <= 10)%nat /\ NoDup (history t).

#[export] Instance query_eq_dec : EqDecision query.
Proof. solve_decision. Defined.

Lemma same_query_spec a b : same_query a b = true <-> a = b.
Proof.
  unfold same_query. destruct a as [n t], b as [n' t']. cbn [q_name q_type]. rewrite andb_true_iff, !String.eqb_eq.
  split; [by intros [-> ->]|by intros [= -> ->]].
Qed.

Lemma remember_ok q h : NoDup h -> (length (remember q h) <= 10)%nat /\ NoDup (remember q h) /\ hd_error (remember q h) = Some q.
Proof.
  intros Hn. unfold remember. set (h' := List.filter _ h). assert (Hd : NoDup (q :: h')).
  { apply NoDup_cons. split.
    - intros Hin%list_elem_of_In. apply filter_In in Hin as [_ Hs]. by rewrite (proj2 (same_query_spec q q) eq_refl) in Hs.
    - apply NoDup_ListNoDup, List.NoDup_filter, NoDup_ListNoDup, Hn. }
  split_and!; [rewrite length_take; lia| |done]. rewrite <- (take_drop 10 (q :: h')), NoDup_app in Hd. by destruct Hd.
Qed.

Lemma toggle_ok id s : id ∈ SERVER_ORDER -> s <> [] -> NoDup s -> s ⊆ SERVER_ORDER ->
  toggleServer id s <> [] /\ NoDup (toggleServer id s) /\ toggleServer id s ⊆ SERVER_ORDER.
Proof.
  intros Hid Hne Hn Hs. unfold toggleServer. case_bool_decide as Hin.
  - destruct (Nat.ltb_spec 1 (length s)); [|done]. split_and!.
    + intros E. destruct s as [|x [|y s]]; try (cbn in *; lia).
      assert (Hall : forall z, z ∈ x :: y :: s -> z = id).
      { intros z Hz. destruct (decide (z = id)) as [|Hzn]; [done|exfalso]. apply (not_elem_of_nil z). rewrite <- E. apply list_elem_of_In, filter_In.
        split; [by apply list_elem_of_In|]. by apply negb_true_iff, String.eqb_neq. }
      apply NoDup_cons in Hn as [Hx _]. apply Hx. rewrite (Hall x), (Hall y); [left|right; left|left].
    + apply NoDup_ListNoDup, List.NoDup_filter, NoDup_ListNoDup, Hn.
    + intros z Hz%list_elem_of_In. apply filter_In in Hz as [Hz _]. by apply Hs, list_elem_of_In.
  - split_and!; [by destruct s| |].
    + apply NoDup_app. split_and!; [done| |apply NoDup_singleton]. intros z Hz ->%list_elem_of_singleton. done.
    + intros z [Hz| ->%list_elem_of_singleton]%elem_of_app; [by apply Hs|done].
Qed.

Lemma asked_ok s : s <> [] -> s ⊆ SERVER_ORDER -> asked s <> [] /\ asked s ⊆ s.
Proof.
  intros Hne Hs. unfold asked. split.
  - destruct s as [|x l]; [done|]. intros E. apply (not_elem_of_nil x). rewrite <- E. apply list_elem_of_In, filter_In.
    split; [apply list_elem_of_In, Hs; left|apply bool_decide_eq_true; left].
  - intros z Hz%list_elem_of_In. apply filter_In in Hz as [_ Hz]. by apply bool_decide_eq_true in Hz.
Qed.

Lemma tool_step_ok offline t e : tool_ok t -> (forall id, e = Toggle id -> id ∈ SERVER_ORDER) -> tool_ok (tool_step offline t e).1.
Proof.
  intros (H1 & H2 & H3 & H4 & H5) He. destruct e as [s|s|id|o|d|]; cbn [tool_step]; try done.
  - destruct (toggle_ok id (servers t) (He id eq_refl) H1 H2 H3) as (T1 & T2 & T3). done.
  - cbv zeta. by destruct (_ || _).
  - destruct (running t) as [q|]; [|done]. destruct d as [d|]; [|done]. destruct (remember_ok q (history t) H5) as (R1 & R2 & _). done.
  - by destruct (running t).
Qed.

(** However the tool is used it asks at least one server, keeps at most ten queries and each
    once, sends no query without a name and none while another runs. *)
Theorem query_tool_stays_sane (offline : bool) (t : tool) (es : list qevent) (e : qevent) :
  tool_ok t -> Forall (fun e => forall id, e = Toggle id -> id ∈ SERVER_ORDER) es ->
  let t' := fold_left (fun t e => (tool_step offline t e).1) es t in
  tool_ok t' /\
  forall q s, (tool_step offline t' e).2 = Some (q, s) -> q_name q <> "" /\ s <> [] /\ s ⊆ servers t' /\ running t' = None.
Proof.
  intros Ht Hes t'. assert (Hok : tool_ok t').
  { unfold t'. clear t' e. revert t Ht. induction Hes as [|e es He _ IH]; intros t Ht; [done|]. cbn [fold_left]. apply IH. by apply tool_step_ok. }
  split; [done|]. intros q s. destruct Hok as (H1 & H2 & H3 & _). destruct e as [x|x|id|o|d|]; cbn [tool_step]; try done.
  - cbv zeta. destruct (String.eqb_spec (trim (match o with Some q => q_name q | None => name t' end)) "") as [|Hn]; [done|]. cbn [orb].
    destruct offline; [done|]. cbn [orb]. destruct (running t') as [r|]; [by rewrite bool_decide_eq_true_2|]. intros E. apply Some_inj in E. apply pair_equal_spec in E as [<- <-].
    destruct (asked_ok (servers t') H1 H3). by split_and!.
  - by destruct (running t').
  - by destruct (running t').
Qed.

(** ** The wrong zone's records *)

(** The browser shows whichever answer came last: a zone opened while the records of another
    are still loading ends up showing the other zone's records when those arrive later. *)
Theorem zone_shows_anothers_records (b : browser) (z1 z2 : string) :
  z1 <> "" -> z2 <> "" ->
  let b1 := browser_step b (OpenZone z1) in
  let b2 := browser_step b1.1 (OpenZone z2) in
  exists r1 r2, b1.2 = [r1] /\ b2.2 = [r2] /\ r1.1 = z1 /\ r2.1 = z2 /\
    let b4 := (browser_step (browser_step b2.1 (Records r2)).1 (Records r1)).1 in
    zone b4 = Some z2 /\ recData b4 = Some (Some r1) /\ recLoading b4 = false.
Proof.
  intros H1 H2. cbn [browser_step]. unfold fetchRecords. rewrite (proj2 (String.eqb_neq _ _) H1), (proj2 (String.eqb_neq _ _) H2).
  cbn. eexists _, _. by split_and!.
Qed.
