(* ===== verification/LocTree.v ===== *)
(** * The hierarchy of locations (screens4.jsx, LocationsTab and its sheets)

    Properties, floors, rooms, sections and storage units: the rows the screen
    holds, the maps it builds from them ([byId], [childrenOf]), the walks over them
    ([subtree], [ancestors], [locPath]) and the sheets that change the tree: add,
    edit, move, merge.  The collation of [localeCompare] is a parameter.  What the
    API does with an accepted request (routes/location_admin.php, routes/inventory.php)
    is the update of the rows at the end of the operations. *)

From Stdlib Require Import ZArith Lia.
From stdpp Require Import strings gmap relations list sorting.
From S2P Require Import Prelude JsValue Catalog.

Local Open Scope string_scope.
Local Open Scope Z_scope.

(** ** Data *)

Record loc := Loc { l_id : Z; l_parent : option Z; l_name : string; l_code : option string; l_type : string;
                    l_ctype : option Z; l_project : option Z; l_notes : option string; l_updated : option string }.

Definition LOC_ORDER (t : string) : option Z :=
  if String.eqb t "property" then Some 0
  else if String.eqb t "floor" then Some 1
  else if String.eqb t "room" then Some 2
  else if String.eqb t "section" then Some 3
  else if String.eqb t "storage_unit" then Some 4
  else None.

(** [x ? x : ""]-style truthiness of an optional text. *)
Definition text (o : option string) : string := default "" o.

(** ** Lookups *)

(** The last row with an id is the one the map keeps. *)
Definition byId (L : list loc) (i : Z) : option loc :=
  fold_left (fun acc l => if l_id l =? i then Some l else acc) L None.

Definition locLabel (L : list loc) (i : Z) : string :=
  match byId L i with
  | Some l => l_name l +:+ (if String.eqb (text (l_code l)) "" then "" else " (" +:+ text (l_code l) +:+ ")")
  | None => "—"
  end.

Definition crumb (l : loc) : string :=
  l_name l +:+ (if String.eqb (text (l_code l)) "" then "" else " " +:+ text (l_code l)).

Fixpoint path_up (L : list loc) (g : nat) (o : option loc) : list string :=
  match g, o with
  | S g, Some l =>
      path_up L g (match l_parent l with Some p => if p =? 0 then None else byId L p | None => None end) ++ [crumb l]
  | _, _ => []
  end.

Definition locPath (L : list loc) (i : Z) : string := String.concat " › " (path_up L 16 (byId L i)).

Fixpoint climb (L : list loc) (g : nat) (o : option loc) : list loc :=
  match g, o with
  | S g, Some l => climb L g (match l_parent l with Some p => byId L p | None => None end) ++ [l]
  | _, _ => []
  end.

Definition ancestors (L : list loc) (i : Z) : list loc :=
  climb L 64 (match byId L i with
              | Some l => match l_parent l with Some p => byId L p | None => None end
              | None => None
              end).

(** The list a row is filed under: its parent, 0 for none or a missing one. *)
Definition key (L : list loc) (l : loc) : Z :=
  match l_parent l with
  | Some p => match byId L p with Some _ => p | None => 0 end
  | None => 0
  end.

Section Screen.
Context (collate : string -> string -> Z).

Definition byLocOrder (a b : loc) : Z :=
  let o := match LOC_ORDER (l_type a), LOC_ORDER (l_type b) with Some x, Some y => x - y | _, _ => 0 end in
  if negb (o =? 0) then o
  else let c := collate (l_name a) (l_name b) in
       if negb (c =? 0) then c else l_id a - l_id b.

Definition childrenOf (L : list loc) (k : Z) : list loc :=
  sort_by (fun a b => byLocOrder a b <=? 0) (filter (fun l => key L l = k) L).

(** The loop of [subtree]: the top of the stack is the head. *)
Fixpoint walk (L : list loc) (fuel : nat) (seen : gset Z) (stack : list Z) : option (gset Z) :=
  match stack with
  | [] => Some seen
  | cur :: rest =>
      match fuel with
      | O => None
      | S fuel =>
          if decide (cur ∈ seen) then walk L fuel seen rest
          else walk L fuel ({[cur]} ∪ seen) (rev (map l_id (childrenOf L cur)) ++ rest)
      end
  end.

Definition subtree (L : list loc) (i : Z) : gset Z := default ∅ (walk L (S (length L)) ∅ [i]).

(** ** The tree and its selection *)

Record view := View { selected : option Z; expanded : gmap Z bool; query : string }.

(** [expanded[id] === undefined ? depth === 0 : expanded[id]]. *)
Definition is_open (v : view) (depth : nat) (i : Z) : bool :=
  match expanded v !! i with Some b => b | None => Nat.eqb depth 0 end.

(** The rows shown, with their depth. *)
Fixpoint treeRows (L : list loc) (v : view) (fuel : nat) (nodes : list loc) (depth : nat) : list (loc * nat) :=
  match fuel with
  | O => []
  | S fuel =>
      flat_map (fun l => (l, depth) ::
        (if is_open v depth (l_id l) then treeRows L v fuel (childrenOf L (l_id l)) (S depth) else [])) nodes
  end.

Definition toggle_row (v : view) (depth : nat) (i : Z) : view :=
  View (selected v) (<[i := negb (is_open v depth i)]> (expanded v)) (query v).

Definition select (L : list loc) (v : view) (i : option Z) : view :=
  match i with
  | None => View None (expanded v) (query v)
  | Some x => View i (fold_left (fun m a => <[l_id a := true]> m) (ancestors L x) (expanded v)) (query v)
  end.

Definition hits (L : list loc) (v : view) : list loc :=
  let needle := toLowerCase (trim (query v)) in
  if String.eqb needle "" then []
  else take 200 (sort_by (fun a b => byLocOrder a b <=? 0)
         (filter (fun l => contains needle (toLowerCase (l_name l)) = true \/ contains needle (toLowerCase (text (l_code l))) = true) L)).

(** ** Sheets *)

Definition parent_type (L : list loc) (l : loc) : option string :=
  match l_parent l with Some p => l_type <$> byId L p | None => None end.

Definition LEVELS : list string := ["property"; "floor"; "room"; "section"; "storage_unit"].

(** The levels the edit sheet offers. *)
Definition edit_levels (L : list loc) (l : loc) : list string :=
  filter (fun t => t = l_type l \/ (legalUnder t (parent_type L l) = true /\
                   Forall (fun c => legalUnder (l_type c) (Some t) = true) (childrenOf L (l_id l)))) LEVELS.

Definition by_path (L : list loc) (needle : string) (ls : list loc) : list loc :=
  sort_by (fun a b => collate (locPath L (l_id a)) (locPath L (l_id b)) <=? 0)
    (filter (fun l => needle = "" \/ contains needle (toLowerCase (locPath L (l_id l))) = true) ls).

Definition move_candidates (L : list loc) (l : loc) (needle : string) : list loc :=
  by_path L needle (filter (fun c => (l_id c ∉ subtree L (l_id l)) /\ legalUnder (l_type l) (Some (l_type c)) = true) L).

Definition clash (l c : loc) : bool :=
  match l_project l, l_project c with Some p, Some q => negb (p =? q) | _, _ => false end.

Definition merge_candidates (L : list loc) (l : loc) (needle : string) : list (loc * bool) :=
  take 300 (map (fun c => (c, clash l c))
    (by_path L needle (filter (fun c => l_type c = l_type l /\ l_id c ∉ subtree L (l_id l)) L))).

(** ** What the API does with an accepted request *)

Definition moved (L : list loc) (i p : Z) : list loc :=
  map (fun l => if l_id l =? i then Loc (l_id l) (Some p) (l_name l) (l_code l) (l_type l) (l_ctype l) (l_project l) (l_notes l) (l_updated l) else l) L.

Definition retarget (s t : Z) (l : loc) : loc :=
  if decide (l_parent l = Some s)
  then Loc (l_id l) (Some t) (l_name l) (l_code l) (l_type l) (l_ctype l) (l_project l) (l_notes l) (l_updated l) else l.

Definition merged (L : list loc) (s t : Z) : list loc := map (retarget s t) (filter (fun l => l_id l <> s) L).

Definition replaced (L : list loc) (l' : loc) : list loc := map (fun l => if l_id l =? l_id l' then l' else l) L.

(** One change made through the sheets. *)
Inductive change (L : list loc) : list loc -> Prop :=
  | by_create (p : option loc) (l : loc) :
      (forall q, p = Some q -> q ∈ L) -> l_id l ∉ map l_id L -> l_id l <> 0 ->
      l_parent l = l_id <$> p -> l_type l ∈ childTypesFor (l_type <$> p) -> change L (L ++ [l])
  | by_edit (l l' : loc) :
      l ∈ L -> l_id l' = l_id l -> l_parent l' = l_parent l -> l_type l' ∈ edit_levels L l -> change L (replaced L l')
  | by_move (l c : loc) (needle : string) :
      l ∈ L -> c ∈ take 300 (move_candidates L l needle) -> change L (moved L (l_id l) (l_id c))
  | by_merge (l c : loc) (needle : string) :
      l ∈ L -> (c, false) ∈ merge_candidates L l needle -> change L (merged L (l_id l) (l_id c)).

End Screen.

(** ** Graph lemmas *)

Definition acyclic {A} (R : relation A) : Prop := forall x y, R x y -> ~ rtc R y x.

(** New edges from one node [t] to nodes below [s] close no cycle unless [t] is
    itself below [s]. *)
Lemma acyclic_graft {A} (R R' : relation A) (s t : A) :
  acyclic R -> ~ rtc R s t -> (forall x y, R' x y -> R x y \/ (x = t /\ rtc R s y)) -> acyclic R'.
Proof.
  intros Ha Hst Hsub.
  assert (Hr : forall a b, rtc R' a b -> rtc R a b \/ (rtc R a t /\ rtc R s b)).
  { intros a. apply rtc_ind_r; [by left; constructor|]. intros b b' _ Hs IH.
    apply Hsub in Hs as [Hs|[-> Hs]].
    - destruct IH as [IH|[H1 IH]]; [left|right; split; [done|]]; by eapply rtc_r.
    - right. split; [|done]. by destruct IH as [IH|[H1 IH]]. }
  intros x y Hxy Hyx. apply Hsub in Hxy as [Hxy|[-> Hsy]]; apply Hr in Hyx as [Hyx|[H1 H2]].
  - by eapply Ha.
  - apply Hst. eapply rtc_trans; [exact H2|]. by eapply rtc_l.
  - apply Hst. by eapply rtc_trans.
  - done.
Qed.

Lemma acyclic_sub {A} (R R' : relation A) : acyclic R -> (forall x y, R' x y -> R x y) -> acyclic R'.
Proof.
  intros Ha Hs x y H1 H2. apply (Ha x y); [auto|]. apply (rtc_congruence id (R := R')); [|done]. intros. by apply Hs.
Qed.

(** ** Lookups by id *)

Lemma byId_snoc L l i : byId (L ++ [l]) i = if l_id l =? i then Some l else byId L i.
Proof. unfold byId. by rewrite fold_left_app. Qed.

Lemma byId_some L i l : byId L i = Some l -> l ∈ L /\ l_id l = i.
Proof.
  induction L as [|x L IH] using rev_ind; [done|]. rewrite byId_snoc.
  destruct (Z.eqb_spec (l_id x) i); [intros [= <-]|]; set_solver.
Qed.

Lemma byId_none L i : byId L i = None <-> i ∉ map l_id L.
Proof.
  induction L as [|x L IH] using rev_ind; [set_solver|]. rewrite byId_snoc, map_app. cbn.
  destruct (Z.eqb_spec (l_id x) i); [split; [done|set_solver]|]. rewrite IH. set_solver.
Qed.

Lemma byId_in L l : NoDup (map l_id L) -> l ∈ L -> byId L (l_id l) = Some l.
Proof.
  induction L as [|x L IH] using rev_ind; [set_solver|]. rewrite map_app, NoDup_app, byId_snoc. cbn.
  intros (Hn & Hd & _) [H|H%list_elem_of_singleton]%elem_of_app.
  - destruct (Z.eqb_spec (l_id x) (l_id l)) as [E|]; [|by apply IH].
    exfalso. apply (Hd (l_id l)); [by apply (list_elem_of_fmap_2 l_id)|set_solver].
  - subst. by rewrite Z.eqb_refl.
Qed.

Lemma row_unique L l l' : NoDup (map l_id L) -> l ∈ L -> l' ∈ L -> l_id l = l_id l' -> l = l'.
Proof. intros Hn H H' E. apply (byId_in L) in H, H'; congruence. Qed.

(** ** The walk below a node *)

Section Proofs.
Context (collate : string -> string -> Z).

(** A row filed under [x]. *)
Definition kid (L : list loc) : relation Z := fun x y => exists l, l ∈ L /\ key L l = x /\ l_id l = y.

Lemma childrenOf_in L k l : l ∈ childrenOf collate L k <-> l ∈ L /\ key L l = k.
Proof. unfold childrenOf. rewrite (sort_by_perm _ _), list_elem_of_filter. tauto. Qed.

Lemma kid_children L k y : y ∈ map l_id (childrenOf collate L k) <-> kid L k y.
Proof.
  rewrite list_elem_of_fmap. unfold kid. setoid_rewrite childrenOf_in. naive_solver.
Qed.

(** Rows not yet filed under a seen node. *)
Definition waiting (L : list loc) (seen : gset Z) : list loc := filter (fun l => key L l ∉ seen) L.

Lemma waiting_seen L seen k : k ∉ seen ->
  (length (waiting L seen) = length (childrenOf collate L k) + length (waiting L ({[k]} ∪ seen)))%nat.
Proof.
  intros Hk. unfold waiting, childrenOf. rewrite sort_by_length. generalize (key L) as f. intros f.
  induction L as [|l L IH]; [done|]. rewrite !filter_cons.
  repeat case_decide; cbn; try lia; set_solver.
Qed.

Lemma walk_ends L fuel : forall seen stack, (length stack + length (waiting L seen) <= fuel)%nat ->
  is_Some (walk collate L fuel seen stack).
Proof.
  induction fuel as [|fuel IH]; intros seen [|cur rest] H; cbn in *; [done|lia|done|].
  case_decide as Hc; apply IH; [lia|].
  rewrite length_app, length_rev, length_map. rewrite (waiting_seen L seen cur Hc) in H. lia.
Qed.

Lemma walk_sound L (P : Z -> Prop) fuel : (forall x y, P x -> kid L x y -> P y) ->
  forall seen stack r, walk collate L fuel seen stack = Some r ->
  (forall x, x ∈ seen -> P x) -> Forall P stack -> forall x, x ∈ r -> P x.
Proof.
  intros Hk. induction fuel as [|fuel IH]; intros seen [|cur rest] r; cbn; try naive_solver.
  intros Hw Hs Hf. apply Forall_cons in Hf as [Hc Hf]. case_decide; eapply IH; eauto; [set_solver|].
  apply Forall_app. split; [|done]. apply Forall_rev, Forall_forall. intros y Hy. eapply Hk; [exact Hc|]. by apply kid_children.
Qed.

Lemma walk_closed L fuel : forall seen stack r, walk collate L fuel seen stack = Some r ->
  (forall x y, x ∈ seen -> kid L x y -> y ∈ seen \/ y ∈ stack) ->
  seen ⊆ r /\ (forall x, x ∈ stack -> x ∈ r) /\ (forall x y, x ∈ r -> kid L x y -> y ∈ r).
Proof.
  induction fuel as [|fuel IH]; intros seen [|cur rest] r; cbn; try (intros [= <-]; set_solver).
  intros Hw Hc. case_decide as Hs.
  - destruct (IH _ _ _ Hw) as (H1 & H2 & H3); [|set_solver]. intros x y Hx Hxy. destruct (Hc x y Hx Hxy) as [|[->|]%elem_of_cons]; auto.
  - destruct (IH _ _ _ Hw) as (H1 & H2 & H3).
    + intros x y [->%elem_of_singleton|Hx]%elem_of_union Hxy.
      * right. apply elem_of_app. left. rewrite <- (Permutation_rev (map _ _)). by apply kid_children.
      * destruct (Hc x y Hx Hxy) as [|[->|]%elem_of_cons]; set_solver.
    + set_solver.
Qed.

Lemma walk_done (L : list loc) (i : Z) : is_Some (walk collate L (S (length L)) ∅ [i]).
Proof. apply walk_ends. cbn. apply le_n_S. apply length_filter. Qed.

Lemma subtree_below (L : list loc) (i y : Z) : y ∈ subtree collate L i <-> rtc (kid L) i y.
Proof.
  unfold subtree. destruct (walk_done L i) as [r Hr]. rewrite Hr. cbn. split.
  - eapply walk_sound; [|exact Hr|set_solver|repeat constructor]. intros x z H1 H2. by eapply rtc_r.
  - destruct (walk_closed _ _ _ _ _ Hr) as (_ & H2 & H3); [set_solver|].
    revert y. apply rtc_ind_r; [apply H2; set_solver|]. intros y y' _ Hy IH. by eapply H3.
Qed.

(** [subtree] always ends, and what it returns is the location and everything
    filed below it, at any depth: the reflexive and transitive closure of the
    children map, also on rows that form a cycle. *)
Theorem subtree_is_everything_below (L : list loc) (i : Z) :
  is_Some (walk collate L (S (length L)) ∅ [i]) /\
  forall y, y ∈ subtree collate L i <-> rtc (kid L) i y.
Proof. split; [apply walk_done|intros y; apply subtree_below]. Qed.

(** ** The hierarchy *)

Definition edge (L : list loc) : relation Z := fun x y => exists l, l ∈ L /\ l_id l = y /\ l_parent l = Some x.

(** A row stands where its level allows. *)
Definition placed (L : list loc) (l : loc) : Prop :=
  match l_parent l with
  | None => legalUnder (l_type l) None = true
  | Some p => exists q, q ∈ L /\ l_id q = p /\ legalUnder (l_type l) (Some (l_type q)) = true
  end.

(** Unique ids, every row legally placed, no location inside itself. *)
Record hierarchy (L : list loc) : Prop := Hier {
  h_ids : NoDup (map l_id L);
  h_pos : 0 ∉ map l_id L;
  h_placed : forall l, l ∈ L -> placed L l;
  h_acyclic : acyclic (edge L) }.

Lemma in_ids (L : list loc) l : l ∈ L -> l_id l ∈ map l_id L.
Proof. intros. by apply (list_elem_of_fmap_2 l_id). Qed.

Lemma key_parent L l x : hierarchy L -> l ∈ L -> x <> 0 -> key L l = x <-> l_parent l = Some x.
Proof.
  intros H Hl Hx. pose proof (h_placed L H l Hl) as Hp. unfold key, placed in *.
  destruct (l_parent l) as [p|]; [|naive_solver]. destruct Hp as (q & Hq & <- & _).
  rewrite (byId_in L q (h_ids L H) Hq). naive_solver.
Qed.

Lemma kid_edge L x y : hierarchy L -> x <> 0 -> kid L x y <-> edge L x y.
Proof.
  intros H Hx. split; intros (l & Hl & A & B); exists l; split; auto; split; auto; by apply (key_parent L l x).
Qed.

Lemma edge_in L x y : edge L x y -> y ∈ map l_id L.
Proof. intros (l & Hl & <- & _). by apply in_ids. Qed.

Lemma below_edges L i y : hierarchy L -> i <> 0 -> rtc (kid L) i y <-> rtc (edge L) i y.
Proof.
  intros H Hi.
  assert (H0 : forall z, rtc (edge L) i z -> z <> 0).
  { apply rtc_ind_r; [done|]. intros z z' _ Hz _ ->. by apply (h_pos L H), (edge_in L z 0). }
  split; revert y; apply rtc_ind_r; try constructor; intros z z' Hi' Hz IH; (eapply rtc_r; [exact IH|]); apply kid_edge; auto.
Qed.

(** *** A move *)

Definition under (i p : Z) (l : loc) : loc :=
  if l_id l =? i then Loc (l_id l) (Some p) (l_name l) (l_code l) (l_type l) (l_ctype l) (l_project l) (l_notes l) (l_updated l) else l.

Lemma under_id i p l : l_id (under i p l) = l_id l.
Proof. unfold under. by destruct (_ =? _). Qed.

Lemma under_type i p l : l_type (under i p l) = l_type l.
Proof. unfold under. by destruct (_ =? _). Qed.

Lemma under_parent i p l : l_parent (under i p l) = if l_id l =? i then Some p else l_parent l.
Proof. unfold under. by destruct (_ =? _). Qed.

Lemma moved_under L i p : moved L i p = map (under i p) L.
Proof. done. Qed.

Lemma moved_ids L i p : map l_id (moved L i p) = map l_id L.
Proof. rewrite moved_under, map_map. apply map_ext. intros. apply under_id. Qed.

Lemma moved_in L i p l : l ∈ moved L i p <-> exists l0, l0 ∈ L /\ l = under i p l0.
Proof. rewrite moved_under, list_elem_of_fmap. naive_solver. Qed.

Lemma moved_edge L i p x y :
  edge (moved L i p) x y <-> (y = i /\ x = p /\ i ∈ map l_id L) \/ (y <> i /\ edge L x y).
Proof.
  unfold edge. setoid_rewrite moved_in. split.
  - intros (l & (l0 & H0 & ->) & <- & Hp). rewrite under_id, under_parent in *.
    destruct (Z.eqb_spec (l_id l0) i) as [<-|]; [left|right; eauto].
    inversion Hp. split; [done|]. split; [done|]. by apply in_ids.
  - intros [(-> & -> & (l0 & -> & H0)%list_elem_of_fmap)|(Hy & l0 & H0 & <- & Hp)]; exists (under i p l0) || exists (under (l_id l0) p l0);
      (split; [eauto|]); rewrite under_id, under_parent.
    + by rewrite Z.eqb_refl.
    + destruct (Z.eqb_spec (l_id l0) i); done.
Qed.

Lemma moved_placed L l c : hierarchy L -> l ∈ L -> c ∈ L -> legalUnder (l_type l) (Some (l_type c)) = true ->
  forall l', l' ∈ moved L (l_id l) (l_id c) -> placed (moved L (l_id l) (l_id c)) l'.
Proof.
  intros H Hl Hc Hlegal l' (l0 & H0 & ->)%moved_in. unfold placed. rewrite under_parent, under_type.
  destruct (Z.eqb_spec (l_id l0) (l_id l)) as [E|E].
  - apply (row_unique L) in E as ->; auto using h_ids. exists (under (l_id l) (l_id c) c).
    rewrite under_id, under_type. split; [|done]. apply moved_in. eauto.
  - pose proof (h_placed L H l0 H0) as Hp. unfold placed in Hp. destruct (l_parent l0) as [p|]; [|done].
    destruct Hp as (q & Hq & <- & Hlg). exists (under (l_id l) (l_id c) q). rewrite under_id, under_type.
    split; [|done]. apply moved_in. eauto.
Qed.

Lemma moved_hierarchy L l c : hierarchy L -> l ∈ L -> c ∈ L -> legalUnder (l_type l) (Some (l_type c)) = true ->
  ~ rtc (edge L) (l_id l) (l_id c) -> hierarchy (moved L (l_id l) (l_id c)).
Proof.
  intros H Hl Hc Hlg Hno. constructor.
  - rewrite moved_ids. apply (h_ids L H).
  - rewrite moved_ids. apply (h_pos L H).
  - by apply moved_placed.
  - eapply acyclic_graft; [apply (h_acyclic L H)|exact Hno|].
    intros x y [(-> & -> & _)|[_ E]]%moved_edge; [right|left]; auto using rtc_refl.
Qed.

Lemma move_candidates_in L l c needle : c ∈ move_candidates collate L l needle ->
  c ∈ L /\ (l_id c ∉ subtree collate L (l_id l)) /\ legalUnder (l_type l) (Some (l_type c)) = true.
Proof. unfold move_candidates, by_path. rewrite (sort_by_perm _ _), !list_elem_of_filter. tauto. Qed.

Lemma move_candidates_all L l c :
  c ∈ move_candidates collate L l "" <->
  c ∈ L /\ (l_id c ∉ subtree collate L (l_id l)) /\ legalUnder (l_type l) (Some (l_type c)) = true.
Proof.
  split; [apply move_candidates_in|]. unfold move_candidates, by_path.
  rewrite (sort_by_perm _ _), !list_elem_of_filter. tauto.
Qed.

Lemma in_id_nonzero L l : hierarchy L -> l ∈ L -> l_id l <> 0.
Proof. intros H Hl E. apply (h_pos L H). rewrite <- E. by apply in_ids. Qed.

Lemma subtree_edges L l y : hierarchy L -> l ∈ L -> y ∈ subtree collate L (l_id l) <-> rtc (edge L) (l_id l) y.
Proof.
  intros H Hl. rewrite <- below_edges; [|done|by apply (in_id_nonzero L)]. apply subtree_below.
Qed.

(** The move sheet offers exactly the safe destinations: in a well-formed
    hierarchy, a location is in the unfiltered list of places [l] may go if and
    only if moving [l] there leaves a well-formed hierarchy (every location at a
    legal level, none inside itself). *)
Theorem move_list_is_exact (L : list loc) (l c : loc) :
  hierarchy L -> l ∈ L -> c ∈ L ->
  c ∈ move_candidates collate L l "" <-> hierarchy (moved L (l_id l) (l_id c)).
Proof.
  intros H Hl Hc. rewrite move_candidates_all, (subtree_edges L l _ H Hl). split.
  - intros (_ & Hno & Hlg). by apply moved_hierarchy.
  - intros H'. split; [done|]. split.
    + intros Hr. assert (E : edge (moved L (l_id l) (l_id c)) (l_id c) (l_id l)).
      { apply moved_edge. left. split; [done|]. split; [done|]. by apply in_ids. }
      apply (h_acyclic _ H' _ _ E). revert Hr. generalize (l_id c) at 1 3 as y. apply rtc_ind_r; [constructor|]. intros y y' _ Hy IH.
      destruct (Z.eq_dec y' (l_id l)) as [->|Hn]; [constructor|]. eapply rtc_r; [exact IH|]. apply moved_edge. by right.
    + pose proof (h_placed _ H' (under (l_id l) (l_id c) l)) as Hp. unfold placed in Hp.
      rewrite under_parent, under_type, Z.eqb_refl in Hp.
      destruct Hp as (q & (q0 & Hq0 & ->)%moved_in & E & Hlg); [apply moved_in; eauto|].
      rewrite under_id, under_type in *. apply (row_unique L) in E as ->; auto using h_ids.
Qed.

(** *** A merge *)

Lemma retarget_id s t l : l_id (retarget s t l) = l_id l.
Proof. unfold retarget. by case_decide. Qed.

Lemma retarget_type s t l : l_type (retarget s t l) = l_type l.
Proof. unfold retarget. by case_decide. Qed.

Lemma retarget_parent s t l : l_parent (retarget s t l) = if decide (l_parent l = Some s) then Some t else l_parent l.
Proof. unfold retarget. by case_decide. Qed.

Lemma merged_in L s t l : l ∈ merged L s t <-> exists l0, l0 ∈ L /\ l_id l0 <> s /\ l = retarget s t l0.
Proof. unfold merged. rewrite list_elem_of_fmap. setoid_rewrite list_elem_of_filter. naive_solver. Qed.

Lemma merged_ids L s t : map l_id (merged L s t) = map l_id (filter (fun l => l_id l <> s) L).
Proof. unfold merged. rewrite map_map. apply map_ext. intros. apply retarget_id. Qed.

Lemma merged_edge L s t x y : edge (merged L s t) x y -> edge L x y \/ (x = t /\ edge L s y).
Proof.
  intros (l & (l0 & H0 & Hs & ->)%merged_in & <- & Hp). rewrite retarget_id, retarget_parent in *.
  case_decide; [right; split; [congruence|]|left]; exists l0; eauto.
Qed.

Lemma ids_filter (P : loc -> Prop) {Hd : forall l, Decision (P l)} L :
  NoDup (map l_id L) -> NoDup (map l_id (filter P L)).
Proof. intros Hn. eapply sublist_NoDup; [exact Hn|]. apply (fmap_sublist l_id). by apply sublist_filter. Qed.

Lemma merged_placed L l c : hierarchy L -> l ∈ L -> c ∈ L -> l_type c = l_type l -> l_id c <> l_id l ->
  forall l', l' ∈ merged L (l_id l) (l_id c) -> placed (merged L (l_id l) (l_id c)) l'.
Proof.
  intros H Hl Hc Ht Hne l' (l0 & H0 & Hs & ->)%merged_in. unfold placed. rewrite retarget_parent, retarget_type.
  pose proof (h_placed L H l0 H0) as Hp. unfold placed in Hp. case_decide as Hd.
  - rewrite Hd in Hp. destruct Hp as (q & Hq & E & Hlg). apply (row_unique L) in E as ->; auto using h_ids.
    exists (retarget (l_id l) (l_id c) c). rewrite retarget_id, retarget_type, Ht. split; [|done]. apply merged_in. eauto.
  - destruct (l_parent l0) as [p|]; [|done]. destruct Hp as (q & Hq & <- & Hlg).
    exists (retarget (l_id l) (l_id c) q). rewrite retarget_id, retarget_type. split; [|done].
    apply merged_in. exists q. split; [done|]. split; [congruence|done].
Qed.

Lemma merged_hierarchy L l c : hierarchy L -> l ∈ L -> c ∈ L -> l_type c = l_type l ->
  ~ rtc (edge L) (l_id l) (l_id c) -> hierarchy (merged L (l_id l) (l_id c)).
Proof.
  intros H Hl Hc Ht Hno. assert (Hne : l_id c <> l_id l) by (intros E; apply Hno; rewrite E; constructor). constructor.
  - rewrite merged_ids. apply ids_filter, (h_ids L H).
  - rewrite merged_ids. intros (x & E & Hx)%list_elem_of_fmap. apply list_elem_of_filter in Hx as [_ Hx].
    by apply (in_id_nonzero L x).
  - by apply merged_placed.
  - eapply acyclic_graft; [apply (h_acyclic L H)|exact Hno|].
    intros x y [E|[-> E]]%merged_edge; [left|right]; auto using rtc_once.
Qed.

Lemma in_take {A} n (x : A) (l : list A) : x ∈ take n l -> x ∈ l.
Proof. intros H. rewrite <- (take_drop n l), elem_of_app. by left. Qed.

Lemma merge_candidates_in L l c b needle : (c, b) ∈ merge_candidates collate L l needle ->
  c ∈ L /\ l_type c = l_type l /\ l_id c ∉ subtree collate L (l_id l).
Proof.
  unfold merge_candidates, by_path. intros Hin%in_take. apply list_elem_of_fmap in Hin as (c' & [= -> _] & Hin).
  rewrite (sort_by_perm _ _), !list_elem_of_filter in Hin. tauto.
Qed.

(** *** An edit *)

Lemma replaced_ids L l' : map l_id (replaced L l') = map l_id L.
Proof. unfold replaced. rewrite map_map. apply map_ext. intros l. destruct (Z.eqb_spec (l_id l) (l_id l')); done. Qed.

Lemma replaced_in L l' x : x ∈ replaced L l' <-> (x = l' /\ l_id l' ∈ map l_id L) \/ (x ∈ L /\ l_id x <> l_id l').
Proof.
  unfold replaced. rewrite !list_elem_of_fmap. split.
  - intros (y & -> & Hy). destruct (Z.eqb_spec (l_id y) (l_id l')) as [E|E]; [left|right]; eauto.
  - intros [(-> & y & E & Hy)|[Hx E]]; [exists y|exists x]; (split; [|done]); match goal with |- context [l_id ?z =? _] => destruct (Z.eqb_spec (l_id z) (l_id l')) end; congruence.
Qed.

Lemma replaced_edge L l l' x y : NoDup (map l_id L) -> l ∈ L -> l_id l' = l_id l -> l_parent l' = l_parent l ->
  edge (replaced L l') x y -> edge L x y.
Proof.
  intros Hn Hl Hi Hp (z & [[-> _]|[Hz _]]%replaced_in & <- & E); [exists l|exists z]; split; auto; split; congruence.
Qed.

Lemma edit_levels_in L l t : hierarchy L -> l ∈ L -> t ∈ edit_levels collate L l ->
  t = l_type l \/
  match l_parent l with
  | None => legalUnder t None = true
  | Some p => exists q, q ∈ L /\ l_id q = p /\ legalUnder t (Some (l_type q)) = true
  end /\ (forall c, c ∈ L -> l_parent c = Some (l_id l) -> legalUnder (l_type c) (Some t) = true).
Proof.
  intros H Hl [[->|[Hlg Hk]] _]%list_elem_of_filter; [by left|right]. split.
  - pose proof (h_placed L H l Hl) as Hp. unfold placed, parent_type in *. destruct (l_parent l) as [p|]; [|done].
    destruct Hp as (q & Hq & <- & _). exists q. by rewrite (byId_in L q (h_ids L H) Hq) in Hlg.
  - intros c Hc E. rewrite Forall_forall in Hk. apply Hk, childrenOf_in. split; [done|].
    apply key_parent; auto. by apply (in_id_nonzero L).
Qed.

Lemma replaced_hierarchy L l l' : hierarchy L -> l ∈ L -> l_id l' = l_id l -> l_parent l' = l_parent l ->
  l_type l' ∈ edit_levels collate L l -> hierarchy (replaced L l').
Proof.
  intros H Hl Hi Hp Ht. pose proof (edit_levels_in L l _ H Hl Ht) as Hlv. clear Ht. constructor.
  - rewrite replaced_ids. apply (h_ids L H).
  - rewrite replaced_ids. apply (h_pos L H).
  - assert (Hkeep : forall x p, x ∈ L -> l_parent x = Some p ->
      exists q, q ∈ replaced L l' /\ l_id q = p /\ legalUnder (l_type x) (Some (l_type q)) = true).
    { intros x p Hx E. pose proof (h_placed L H x Hx) as Hpl. unfold placed in Hpl. rewrite E in Hpl.
      destruct Hpl as (q & Hq & <- & Hlg). destruct (Z.eq_dec (l_id q) (l_id l)) as [Eq|Eq].
      - apply (row_unique L) in Eq as ->; auto using h_ids. exists l'. split; [apply replaced_in; left; rewrite Hi; auto using in_ids|].
        split; [done|]. destruct Hlv as [->|[_ Hk]]; auto.
      - exists q. split; [|done]. apply replaced_in. right. by rewrite Hi. }
    intros x [[-> _]|[Hx Hne]]%replaced_in; unfold placed.
    + rewrite Hp. destruct Hlv as [->|[Hu _]].
      * pose proof (h_placed L H l Hl) as Hpl. unfold placed in Hpl. destruct (l_parent l) as [p|] eqn:E; [|done]. by apply Hkeep.
      * destruct (l_parent l) as [p|] eqn:E; [|done]. destruct Hu as (q & Hq & <- & Hlg). exists q. split; [|done].
        apply replaced_in. right. split; [done|]. rewrite Hi. intros Eq. apply (h_acyclic L H (l_id q) (l_id l)).
        { exists l. auto. } rewrite Eq. constructor.
    + pose proof (h_placed L H x Hx) as Hpl. unfold placed in Hpl. destruct (l_parent x) eqn:E; [|done]. by apply Hkeep.
  - eapply acyclic_sub; [apply (h_acyclic L H)|]. intros x y. apply replaced_edge with l; auto using h_ids.
Qed.

(** *** A new location *)

Lemma created_edge L l x y : edge (L ++ [l]) x y -> edge L x y \/ (l_parent l = Some x /\ y = l_id l).
Proof.
  intros (z & [Hz|Hz%list_elem_of_singleton]%elem_of_app & <- & Hp); [left; exists z; auto|subst; by right].
Qed.

(** Nothing is below an id no row has. *)
Lemma fresh_leaf L i y : hierarchy L -> i ∉ map l_id L -> rtc (edge L) i y -> y = i.
Proof.
  intros H Hi [<-|(z & (l & Hl & _ & Hp) & _)]%rtc_inv; [done|].
  pose proof (h_placed L H l Hl) as Hpl. unfold placed in Hpl. rewrite Hp in Hpl.
  destruct Hpl as (q & Hq & <- & _). by apply in_ids in Hq.
Qed.

Lemma created_hierarchy L l (p : option loc) : hierarchy L -> (forall q, p = Some q -> q ∈ L) ->
  l_id l ∉ map l_id L -> l_id l <> 0 -> l_parent l = l_id <$> p -> legalUnder (l_type l) (l_type <$> p) = true ->
  hierarchy (L ++ [l]).
Proof.
  intros H Hq Hf H0 Hp Ht. constructor.
  - rewrite map_app. cbn. apply NoDup_app. split; [apply (h_ids L H)|]. split; [|apply NoDup_singleton].
    intros x Hx ->%list_elem_of_singleton. done.
  - rewrite map_app. cbn. rewrite elem_of_app, list_elem_of_singleton. intros [E|E]; [by apply (h_pos L H)|congruence].
  - assert (Hold : forall x, placed L x -> placed (L ++ [l]) x).
    { intros x. unfold placed. destruct (l_parent x); [|done]. intros (q & Hin & E). exists q. split; [|done]. apply elem_of_app. by left. }
    intros x [Hx|Hx%list_elem_of_singleton]%elem_of_app; [by apply Hold, (h_placed L H)|]. subst x. apply Hold. unfold placed.
    rewrite Hp. destruct p as [q|]; cbn in *; [|done]. exists q. auto.
  - destruct p as [q|].
    + apply (acyclic_graft (edge L) _ (l_id l) (l_id q)); [apply (h_acyclic L H)| |].
      * intros E. apply fresh_leaf in E; auto. apply Hf. rewrite <- E. apply in_ids. auto.
      * intros x y [E|[E ->]]%created_edge; [by left|right]. rewrite Hp in E. cbn in E. split; [congruence|constructor].
    + eapply acyclic_sub; [apply (h_acyclic L H)|]. intros x y [E|[E _]]%created_edge; [done|]. by rewrite Hp in E.
Qed.

(** C21: whatever the sheets of the locations tab are used for (adding at an offered
    level, editing to an offered level, moving to an offered place, merging into an
    offered target), in any sequence, the locations stay a well-formed hierarchy:
    unique ids, every location at a level legal under its parent, none inside
    itself. *)
Theorem sheets_keep_the_hierarchy (L L' : list loc) :
  hierarchy L -> rtc (change collate) L L' -> hierarchy L'.
Proof.
  intros H Hr. induction Hr as [|L L1 L2 Hs _ IH]; [done|]. apply IH. clear IH.
  destruct Hs as [p l Hp Hf H0 Hpar Ht|l l' Hl Hi Hpar Ht|l c needle Hl Hc|l c needle Hl Hc].
  - eapply created_hierarchy; eauto. by apply level_rules_agree.
  - by apply replaced_hierarchy with l.
  - apply in_take, move_candidates_in in Hc as (Hc & Hs & Hlg). rewrite (subtree_edges L l _ H Hl) in Hs. by apply moved_hierarchy.
  - apply merge_candidates_in in Hc as (Hc & Ht & Hs). rewrite (subtree_edges L l _ H Hl) in Hs. by apply merged_hierarchy.
Qed.

End Proofs.

(** ** Examples *)

Definition demo_row (i : Z) (p : option Z) (t : string) : loc := Loc i p t None t None None None None.

Definition demo_tree : list loc :=
  [demo_row 1 None "property"; demo_row 2 (Some 1) "floor"; demo_row 3 (Some 2) "storage_unit"; demo_row 4 (Some 3) "storage_unit"].

Lemma acyclic_ranked (R : relation Z) : (forall x y, R x y -> x < y) -> acyclic R.
Proof.
  intros H x y Hxy Hyx. assert (Hle : forall z, rtc R y z -> y <= z).
  { apply rtc_ind_r; [lia|]. intros a b _ Hab IH. specialize (H a b Hab). lia. }
  specialize (H x y Hxy). specialize (Hle x Hyx). lia.
Qed.

Lemma demo_tree_ok : hierarchy demo_tree.
Proof.
  constructor.
  - by vm_compute; repeat constructor; set_solver.
  - cbn. set_solver.
  - intros l Hl. unfold demo_tree in Hl. rewrite !elem_of_cons, elem_of_nil in Hl.
    destruct Hl as [-> | [-> | [-> | [-> | []]]]]; unfold placed; cbn; [done|exists (demo_row 1 None "property")|exists (demo_row 2 (Some 1) "floor")
      |exists (demo_row 3 (Some 2) "storage_unit")]; (split; [unfold demo_tree; set_solver|done]).
  - apply acyclic_ranked. intros x y (l & Hl & <- & Hp). unfold demo_tree in Hl. rewrite !elem_of_cons, elem_of_nil in Hl.
    destruct Hl as [-> | [-> | [-> | [-> | []]]]]; cbn in *; simplify_eq; lia.
Qed.

(** The floor may hold the inner bin; the bin itself may not hold the outer one. *)
Lemma move_list_is_exact_witness :
  demo_row 2 (Some 1) "floor" ∈ move_candidates (fun _ _ => 0) demo_tree (demo_row 4 (Some 3) "storage_unit") "" /\
  hierarchy (moved demo_tree 4 2).
Proof.
  assert (H : demo_row 2 (Some 1) "floor" ∈ move_candidates (fun _ _ => 0) demo_tree (demo_row 4 (Some 3) "storage_unit") "")
    by (apply list_elem_of_In; vm_compute; tauto).
  split; [exact H|].
  apply (move_list_is_exact (fun _ _ => 0) demo_tree (demo_row 4 (Some 3) "storage_unit") (demo_row 2 (Some 1) "floor"));
    [apply demo_tree_ok|unfold demo_tree; set_solver|unfold demo_tree; set_solver|exact H].
Defined.

Lemma sheets_keep_the_hierarchy_witness : hierarchy (moved demo_tree 4 2).
Proof.
  apply (sheets_keep_the_hierarchy (fun _ _ => 0) demo_tree); [apply demo_tree_ok|]. apply rtc_once.
  apply (by_move _ demo_tree (demo_row 4 (Some 3) "storage_unit") (demo_row 2 (Some 1) "floor") "");
    [unfold demo_tree; set_solver|apply list_elem_of_In; vm_compute; tauto].
Defined.

(** A bin cannot be moved into what it holds. *)
Example outer_bin_stays_out :
  map l_id (move_candidates (fun _ _ => 0) demo_tree (demo_row 3 (Some 2) "storage_unit") "") = [1; 2].
Proof. by vm_compute. Qed.
