(* ===== verification/LocSheets.v ===== *)
(** * The sheets of the locations tab (screens4.jsx)

    The form that adds or edits a location ([LocationFormSheet]) with the body it
    sends and its handling of an edit conflict, the merge sheet with its preview and
    fingerprint ([MergeLocationSheet]), the batch of storage units
    ([BulkStorageSheet]), the project of a container ([ContainerProjectSheet]) and
    the container types ([ContainerTypesAdmin]).  The API is the events that answer
    the requests.  A choice of a select is [None] for its empty option. *)

From Stdlib Require Import ZArith Lia.
From stdpp Require Import strings gmap relations list.
From S2P Require Import Prelude JsValue Catalog LocTree.

Local Open Scope string_scope.
Local Open Scope Z_scope.

(** ** Errors *)

(** A rejected request: its code and message. *)
Record refusal := Refusal { r_code : string; r_message : string }.

Definition orelse (a b : string) : string := if String.eqb a "" then b else a.

Definition locErrorText (e : refusal) (fallback : string) : string :=
  let msg := r_message e in
  let code c := String.eqb (r_code e) c in
  if code "conflict" then "This was changed elsewhere since you opened it. The latest version has been loaded — check it and save again."
  else if code "location_cycle" then "A location can’t be placed inside itself or anything it contains."
  else if code "duplicate_location" then "That name or code is already in use here. " +:+ msg
  else if code "merge_conflict" then "Merge refused: " +:+ msg +:+ " Preview the merge again before confirming."
  else if code "container_not_empty" then "This container still holds components or child locations. Move or remove its contents before releasing it from the project."
  else if code "not_found" then "It no longer exists — it may have been merged or removed elsewhere. " +:+ msg
  else if code "bad_request" then orelse msg "The server rejected this request."
  else if code "DATA_STALE" then msg
  else orelse (orelse msg fallback) "The request failed.".

(** ** Adding and editing a location *)

Definition unit_level (t : string) : bool := String.eqb t "storage_unit".

Record lform := LForm { f_base : option loc; f_name : string; f_code : string; f_type : string;
                        f_ctype : option Z; f_project : option Z; f_notes : string; f_busy : bool; f_err : string }.

(** [trim() || null]. *)
Definition trimmed (s : string) : option string := let t := trim s in if String.eqb t "" then None else Some t.

Definition open_edit (l : loc) : lform :=
  LForm (Some l) (l_name l) (text (l_code l)) (l_type l) (l_ctype l) None (text (l_notes l)) false "".

Definition open_create (parent : option string) : lform :=
  LForm None "" "" (hd "property" (childTypesFor parent)) None None "" false "".

(** A key that is absent is [None]; a present [null] is [Some None]. *)
Record lbody := LBody { lb_name : string; lb_type : string; lb_code : option string; lb_notes : option string;
                        lb_ctype : option (option Z); lb_project : option (option Z);
                        lb_parent : option (option Z); lb_updated : option string }.

Definition form_error (f : lform) : option string :=
  let n := trim (f_name f) in
  if String.eqb n "" then Some "Name is required."
  else if (128 <? String.length n)%nat then Some "Name must be 128 characters or fewer."
  else if (32 <? String.length (trim (f_code f)))%nat then Some "Code must be 32 characters or fewer."
  else None.

Definition base_ctype (f : lform) : option Z := match f_base f with Some b => l_ctype b | None => None end.

Definition edit_body (l : loc) (f : lform) : lbody :=
  let u := unit_level (f_type f) in
  let leaves := negb u && unit_level (l_type l) in
  LBody (trim (f_name f)) (f_type f) (trimmed (f_code f)) (trimmed (f_notes f))
    (if leaves then Some None else if u && negb (bool_decide (f_ctype f = base_ctype f)) then Some (f_ctype f) else None)
    (if leaves then match l_project l with Some _ => Some None | None => None end else None)
    None
    (Some (match f_base f with Some b => text (l_updated b) | None => "" end)).

Definition create_body (parent : option Z) (f : lform) : lbody :=
  let u := unit_level (f_type f) in
  LBody (trim (f_name f)) (f_type f) (trimmed (f_code f)) (trimmed (f_notes f))
    (if u then Some (f_ctype f) else None)
    (if u then match f_project f with Some p => Some (Some p) | None => None end else None)
    (Some parent) None.

(** The fields a user can change. *)
Inductive fedit := EName (s : string) | ECode (s : string) | ELevel (t : string) | EType (c : option Z) | EProject (p : option Z) | ENotes (s : string).

Definition edit (f : lform) (e : fedit) : lform :=
  match e with
  | EName s => LForm (f_base f) s (f_code f) (f_type f) (f_ctype f) (f_project f) (f_notes f) (f_busy f) (f_err f)
  | ECode s => LForm (f_base f) (f_name f) s (f_type f) (f_ctype f) (f_project f) (f_notes f) (f_busy f) (f_err f)
  | ELevel t => LForm (f_base f) (f_name f) (f_code f) t (f_ctype f) (f_project f) (f_notes f) (f_busy f) (f_err f)
  | EType c => LForm (f_base f) (f_name f) (f_code f) (f_type f) c (f_project f) (f_notes f) (f_busy f) (f_err f)
  | EProject p => LForm (f_base f) (f_name f) (f_code f) (f_type f) (f_ctype f) p (f_notes f) (f_busy f) (f_err f)
  | ENotes s => LForm (f_base f) (f_name f) (f_code f) (f_type f) (f_ctype f) (f_project f) s (f_busy f) (f_err f)
  end.

Definition with_err (f : lform) (busy : bool) (e : string) : lform :=
  LForm (f_base f) (f_name f) (f_code f) (f_type f) (f_ctype f) (f_project f) (f_notes f) busy e.

(** The submit of the edit sheet: the form, and the body sent if any. *)
Definition submit_edit (l : loc) (f : lform) : lform * option lbody :=
  match form_error f with
  | Some e => (with_err f (f_busy f) e, None)
  | None => (with_err f true "", Some (edit_body l f))
  end.

Definition submit_create (parent : option Z) (f : lform) : lform * option lbody :=
  match form_error f with
  | Some e => (with_err f (f_busy f) e, None)
  | None => (with_err f true "", Some (create_body parent f))
  end.

(** A refused save; a conflict of an edit also asks for the row again. *)
Definition save_refused (f : lform) (e : refusal) : lform * bool :=
  (with_err f false (locErrorText e "Save failed."), String.eqb (r_code e) "conflict").

(** The fresh row replaces what was typed. *)
Definition adopt (row : loc) (f : lform) : lform :=
  LForm (Some row) (l_name row) (text (l_code row)) (l_type row) (l_ctype row) (f_project f) (text (l_notes row)) (f_busy f) (f_err f).

Definition saved_message (editing : bool) (f : lform) : string := (if editing then "Saved " else "Added ") +:+ trim (f_name f).

(** What the API makes of an accepted body: the fields present replace the row's. *)
Definition over {A} (o : option A) (d : A) : A := default d o.

Definition apply_body (b : lbody) (stamp : option string) (l : loc) : loc :=
  Loc (l_id l) (over (lb_parent b) (l_parent l)) (lb_name b) (lb_code b) (lb_type b)
      (over (lb_ctype b) (l_ctype l)) (over (lb_project b) (l_project l)) (lb_notes b) stamp.

(** ** Merging *)

Record msheet := MSheet { m_target : option Z; m_preview : option string; m_busy : bool; m_err : string }.

Inductive mevent :=
  | MPick (t : Z)                   (* a target is chosen *)
  | MLoad                           (* Preview merge *)
  | MPreviewed (fingerprint : string)
  | MPreviewFailed (e : refusal)
  | MBack
  | MConfirm                        (* Merge into … *)
  | MMergeFailed (e : refusal).

Inductive mrequest := AskPreview (source target : Z) | AskMerge (source target : Z) (fingerprint : string).

Section Merge.
Context (L : list loc) (source : loc).

Definition chosen (m : msheet) : option loc := match m_target m with Some t => byId L t | None => None end.

Definition mstep (m : msheet) (e : mevent) : msheet * list mrequest :=
  match e with
  | MPick t => (if bool_decide (is_Some (m_preview m)) then m else MSheet (Some t) (m_preview m) (m_busy m) (m_err m), [])
  | MLoad =>
      match chosen m with
      | Some c => if m_busy m || bool_decide (is_Some (m_preview m)) then (m, [])
                  else (MSheet (m_target m) None true "", [AskPreview (l_id source) (l_id c)])
      | None => (m, [])
      end
  | MPreviewed fp => (MSheet (m_target m) (Some fp) false (m_err m), [])
  | MPreviewFailed r => (MSheet (m_target m) (m_preview m) false (locErrorText r "Preview failed."), [])
  | MBack => (if m_busy m then m else MSheet (m_target m) None (m_busy m) (m_err m), [])
  | MConfirm =>
      match m_preview m, chosen m with
      | Some fp, Some c => if m_busy m then (m, []) else (MSheet (m_target m) (m_preview m) true "", [AskMerge (l_id source) (l_id c) fp])
      | _, _ => (m, [])
      end
  | MMergeFailed r => (MSheet (m_target m) None false (locErrorText r "Merge failed."), [])
  end.

End Merge.

(** ** A batch of storage units *)

Record bulk_body := BulkBody { bb_parent : Z; bb_count : nat; bb_names : option (list string);
                               bb_prefix : option (string * option Z); bb_code : option (string * option Z);
                               bb_ctype : option Z; bb_project : option Z }.

Definition bulk_submit (s : bulk) (ctype project : option Z) (parent : loc) (siblings used : list string) : option bulk_body :=
  let '(names, _, errors) := bulkPlan s (l_name parent) siblings used in
  match names, errors with
  | _ :: _, [] =>
      Some (BulkBody (l_id parent) (length names)
              (if b_names s then Some names else None)
              (if b_names s then None else Some (trim (b_prefix s), intField (b_start s) 0 999999999))
              (if String.eqb (trim (b_codePrefix s)) "" then None
               else Some (trim (b_codePrefix s), intField (b_codeStart s) 0 999999999))
              ctype project)
  | _, _ => None
  end.

(** The indices previewed: all of a short batch, the ends of a long one. *)
Definition bulk_rows (n : nat) : list Z :=
  if (n <=? 12)%nat then map Z.of_nat (seq 0 n)
  else [0; 1; 2; 3; 4; 5; 6; 7; -1; Z.of_nat n - 2; Z.of_nat n - 1].

(** ** Project of a container *)

Definition can_release (current : option Z) (busy : bool) : bool :=
  match current with Some _ => negb busy | None => false end.
Definition can_assign (current choice : option Z) (busy : bool) : bool :=
  negb busy && match choice with Some c => negb (bool_decide (current = Some c)) | None => false end.

(** ** Container types *)

Record ctype := CType { ct_id : Z; ct_name : string; ct_retired : bool; ct_updated : option string }.

Record tadmin := TAdmin { t_new : string; t_editing : option (Z * string); t_retiring : option Z;
                          t_busy : bool; t_err : string; t_msg : string }.

Inductive trequest := CreateType (name : string) | RenameType (i : Z) (name stamp : string) | RetireType (i : Z).

(** [run]: a request goes out. *)
Definition trun (t : tadmin) (r : trequest) : tadmin * list trequest :=
  (TAdmin (t_new t) (t_editing t) (t_retiring t) true "" "", [r]).

Definition tfail (t : tadmin) (e : string) : tadmin * list trequest :=
  (TAdmin (t_new t) (t_editing t) (t_retiring t) (t_busy t) e (t_msg t), []).

Definition create_type (t : tadmin) : tadmin * list trequest :=
  let name := trim (t_new t) in
  if String.eqb name "" then tfail t "Enter a name for the new container type."
  else if (64 <? String.length name)%nat then tfail t "Container type names must be 64 characters or fewer."
  else trun t (CreateType name).

Definition rename_type (t : tadmin) (c : ctype) : tadmin * list trequest :=
  match t_editing t with
  | None => (t, [])
  | Some (_, typed) =>
      let name := trim typed in
      if String.eqb name "" then tfail t "Name cannot be empty."
      else if (64 <? String.length name)%nat then tfail t "Container type names must be 64 characters or fewer."
      else trun t (RenameType (ct_id c) name (text (ct_updated c)))
  end.

Definition retire_type (t : tadmin) (c : ctype) : tadmin * list trequest := trun t (RetireType (ct_id c)).

(** The answers [run] handles, and what [create] chains after them: the typed
    name is cleared once [run] has settled. *)
Definition tanswer (t : tadmin) (r : trequest) (a : refusal + string) : tadmin :=
  let t' := match a with
            | inr ok => TAdmin (t_new t) None None false (t_err t) ok
            | inl e =>
                let gone := String.eqb (r_code e) "conflict" || String.eqb (r_code e) "not_found" in
                TAdmin (t_new t) (if gone then None else t_editing t) (t_retiring t) false (locErrorText e "Container type change failed.") (t_msg t)
            end in
  match r with
  | CreateType _ => TAdmin "" (t_editing t') (t_retiring t') (t_busy t') (t_err t') (t_msg t')
  | _ => t'
  end.

(** The types a pick list offers: a retired one only on its own container. *)
Definition type_options (types : list ctype) (current : option Z) : list ctype :=
  let active := filter (fun t => ct_retired t = false) types in
  match current with
  | Some c => match find (fun t => ct_id t =? c) (rev types) with
              | Some t => if ct_retired t then t :: active else active
              | None => active
              end
  | None => active
  end.

(** ** Properties *)

(** A row as the API stores it: texts trimmed, no empty ones, lengths in bounds,
    and a container type and project only on storage units. *)
Definition tidy (o : option string) : Prop := match o with Some s => trim s = s /\ s <> "" | None => True end.

Definition unit_only (l : loc) : Prop := l_type l <> "storage_unit" -> l_ctype l = None /\ l_project l = None.

Record stored (l : loc) : Prop := Stored {
  s_name : trim (l_name l) = l_name l /\ l_name l <> "" /\ (String.length (l_name l) <= 128)%nat;
  s_code : tidy (l_code l) /\ (String.length (text (l_code l)) <= 32)%nat;
  s_notes : tidy (l_notes l);
  s_unit : unit_only l }.

Lemma trimmed_text o : tidy o -> trimmed (text o) = o.
Proof.
  destruct o as [s|]; [|done]. cbn. intros [E Hs]. unfold trimmed. rewrite E.
  destruct (String.eqb_spec s ""); congruence.
Qed.

Lemma stored_valid l f : stored l -> f_name f = l_name l -> f_code f = text (l_code l) -> form_error f = None.
Proof.
  intros [(Hn & Hne & Hl) (Hc & Hcl) _ _] E1 E2. unfold form_error. rewrite E1, E2, Hn.
  assert (trim (text (l_code l)) = text (l_code l)) as -> by (destruct (l_code l) as [s|]; [apply Hc|done]).
  destruct (String.eqb_spec (l_name l) ""); [done|].
  destruct (Nat.ltb_spec 128 (String.length (l_name l))); [lia|]. by destruct (Nat.ltb_spec 32 (String.length (text (l_code l)))); [lia|].
Qed.

(** Saving an edit sheet unchanged loses nothing.  The sheet may have been opened
    on this row, or on an earlier version [l] of it and have adopted the current
    [row] after the save was refused as a conflict: the body sent carries the current
    row's version stamp and the API applies it to the same row, the new stamp
    aside. *)
Theorem edit_sheet_round_trip (l row : loc) (f : lform) (stamp : option string) :
  stored row ->
  f = open_edit row /\ l = row \/ f = adopt row f ->
  exists b, (submit_edit l f).2 = Some b /\ lb_updated b = Some (text (l_updated row)) /\
            apply_body b stamp row =
              Loc (l_id row) (l_parent row) (l_name row) (l_code row) (l_type row) (l_ctype row) (l_project row) (l_notes row) stamp.
Proof.
  intros Hs Hf. assert (E : f_base f = Some row /\ f_name f = l_name row /\ f_code f = text (l_code row) /\ f_type f = l_type row /\
                            f_ctype f = l_ctype row /\ f_notes f = text (l_notes row)) by (destruct Hf as [[-> _]| -> ]; done).
  destruct E as (E0 & E1 & E2 & E3 & E4 & E5). unfold submit_edit. rewrite (stored_valid row) by done.
  eexists. split; [done|]. unfold apply_body, edit_body, base_ctype. rewrite E0, E1, E2, E3, E4, E5. split; [done|].
  destruct Hs as [(Hn & _ & _) (Hc & _) Hno Hu]. cbn. rewrite Hn, !trimmed_text by done. rewrite bool_decide_true by done.
  unfold unit_only, unit_level in *. destruct (String.eqb_spec (l_type row) "storage_unit"); [done|].
  destruct (Hu n) as [-> ->]. cbn. by destruct (String.eqb_spec (l_type l) "storage_unit"), (l_project l).
Qed.

Definition demo_bench : loc := Loc 7 (Some 1) "Bench" (Some "B1") "storage_unit" (Some 3) (Some 9) None (Some "t2").

Lemma edit_sheet_round_trip_witness :
  stored demo_bench /\
  exists b, (submit_edit demo_bench (open_edit demo_bench)).2 = Some b /\ lb_updated b = Some "t2" /\
            apply_body b (Some "t3") demo_bench = Loc 7 (Some 1) "Bench" (Some "B1") "storage_unit" (Some 3) (Some 9) None (Some "t3").
Proof.
  assert (H : stored demo_bench) by (constructor; cbn; repeat split; (done || lia)).
  split; [exact H|]. apply (edit_sheet_round_trip demo_bench demo_bench (open_edit demo_bench) (Some "t3") H). by left.
Defined.

(** *** Levels and containers *)

Lemma edits_base es : forall f, f_base (fold_left edit es f) = f_base f.
Proof. induction es as [|e es IH]; intros f; [done|]. cbn. rewrite IH. by destruct e. Qed.

(** A location taken off the storage level loses its container type and its
    project, whatever else was typed: no body leaves them on another level. *)
Theorem leaving_the_level_releases (l : loc) (es : list fedit) (stamp : option string) (b : lbody) :
  unit_only l -> (submit_edit l (fold_left edit es (open_edit l))).2 = Some b -> unit_only (apply_body b stamp l).
Proof.
  intros Hu. unfold submit_edit. destruct (form_error _); [done|]. intros [= <-]. unfold unit_only, apply_body, edit_body, unit_level in *. cbn.
  intros Ht. destruct (String.eqb_spec (f_type (fold_left edit es (open_edit l))) "storage_unit"); [done|]. cbn.
  destruct (String.eqb_spec (l_type l) "storage_unit") as [E|E]; cbn; [split; [done|]; by destruct (l_project l)|by apply Hu].
Qed.

(** After a conflict the release is decided by the row the sheet was opened with: a
    location that has become a container of a project meanwhile is sent to another
    level with its container type and project still on it. *)
Theorem reloaded_container_is_not_released :
  exists l row f b,
    unit_only l /\ unit_only row /\ l_id l = l_id row /\
    f = edit (adopt row (open_edit l)) (ELevel "section") /\
    (submit_edit l f).2 = Some b /\ ~ unit_only (apply_body b None row).
Proof.
  exists (Loc 7 (Some 1) "Bench" None "section" None None None (Some "t1")),
         (Loc 7 (Some 1) "Bench" None "storage_unit" (Some 3) (Some 9) None (Some "t2")).
  do 2 eexists. split; [done|]. split; [done|]. split; [done|]. split; [done|]. split; [done|].
  intros H. destruct H as [H _]; [done|]. done.
Qed.

(** *** Merging *)

(** The sheet beside the target each preview was asked for: the one awaited and the
    one shown. *)
Record mlog := MLog { g_sheet : msheet; g_asked : option Z; g_shown : option Z }.

Definition mlog_step (L : list loc) (source : loc) (g : mlog) (e : mevent) : mlog * list mrequest :=
  let '(m, out) := mstep L source (g_sheet g) e in
  let asked := match out with [AskPreview _ t] => Some t | _ => g_asked g end in
  match e with
  | MPreviewed _ => (MLog m None (g_asked g), out)
  | MPreviewFailed _ => (MLog m None (g_shown g), out)
  | _ => (MLog m asked (g_shown g), out)
  end.

Fixpoint mruns (L : list loc) (source : loc) (g : mlog) (es : list mevent) : list (mlog * mrequest) :=
  match es with
  | [] => []
  | e :: es => let '(g', out) := mlog_step L source g e in map (fun r => (g, r)) out ++ mruns L source g' es
  end.

Definition mopen : mlog := MLog (MSheet None None false "") None None.

(** Events come in the order a browser yields them: answers answer a request, and
    [calm] says that no other target is chosen while a preview is awaited. *)
Fixpoint calm (L : list loc) (source : loc) (g : mlog) (es : list mevent) : Prop :=
  match es with
  | [] => True
  | e :: es =>
      match e with
      | MPick _ => g_asked g = None
      | MPreviewed _ | MPreviewFailed _ => is_Some (g_asked g)
      | _ => True
      end /\ calm L source (mlog_step L source g e).1 es
  end.

Definition minv (g : mlog) : Prop :=
  (forall t, g_asked g = Some t -> m_target (g_sheet g) = Some t) /\
  (forall fp, m_preview (g_sheet g) = Some fp -> is_Some (g_shown g) /\ g_shown g = m_target (g_sheet g)).

Lemma chosen_id L m c : chosen L m = Some c -> m_target m = Some (l_id c).
Proof. unfold chosen. destruct (m_target m) as [t|]; [|done]. by intros [_ <-]%byId_some. Qed.

Lemma minv_step L source g e : minv g ->
  match e with MPick _ => g_asked g = None | MPreviewed _ | MPreviewFailed _ => is_Some (g_asked g) | _ => True end ->
  minv (mlog_step L source g e).1.
Proof.
  intros [Ha Hp] Hc. destruct g as [[t p b er] a sh]. unfold mlog_step, minv, mstep in *. cbn in *.
  destruct e as [x| |fp|r| | |r]; cbn.
  - subst a. case_bool_decide as Hb; cbn; [by split|]. split; [done|]. intros fp E. destruct Hb. by exists fp.
  - destruct (chosen L _) as [c|] eqn:E; [|done]. apply chosen_id in E. cbn in E. subst t.
    case_bool_decide as Hb; [rewrite orb_true_r; done|]. destruct b; cbn; [done|]. split; [by intros ? [= <-]|done].
  - destruct Hc as [t' ->]. split; [done|]. intros _ _. split; [done|]. by rewrite (Ha t').
  - by split.
  - destruct b; cbn; by split.
  - destruct p as [fp|]; [|done]. destruct (chosen L _) as [c|]; [|done]. destruct b; by split.
  - by split.
Qed.

Lemma mlog_out L source g e : (mlog_step L source g e).2 = (mstep L source (g_sheet g) e).2.
Proof. unfold mlog_step. destruct (mstep L source (g_sheet g) e). by destruct e. Qed.

Lemma mrequest_shown L source g e : minv g -> forall s t fp, AskMerge s t fp ∈ (mlog_step L source g e).2 ->
  s = l_id source /\ g_shown g = Some t /\ m_preview (g_sheet g) = Some fp.
Proof.
  intros [Ha Hp] s t fp. rewrite mlog_out. destruct e; cbn; try (rewrite elem_of_nil; done).
  - destruct (chosen L _) as [c|] eqn:E; [|by rewrite elem_of_nil]. destruct (_ || _); cbn; rewrite ?list_elem_of_singleton, ?elem_of_nil; done.
  - destruct (m_preview (g_sheet g)) as [fp'|] eqn:E1; [|by rewrite elem_of_nil].
    destruct (chosen L _) as [c|] eqn:E2; [|by rewrite elem_of_nil]. apply chosen_id in E2. destruct (m_busy _); cbn; [by rewrite elem_of_nil|].
    rewrite list_elem_of_singleton. intros [= -> -> ->]. destruct (Hp fp' eq_refl) as [_ ->]. auto.
Qed.

(** As long as no other target is picked while a preview is being fetched, every
    merge the sheet sends is the one previewed: the fingerprint sent is the one of
    the preview on screen, and that preview was asked for this source and this
    target. *)
Theorem merge_sends_what_was_previewed (L : list loc) (source : loc) (es : list mevent) :
  calm L source mopen es ->
  forall g s t fp, (g, AskMerge s t fp) ∈ mruns L source mopen es ->
  s = l_id source /\ g_shown g = Some t /\ m_preview (g_sheet g) = Some fp.
Proof.
  assert (H0 : minv mopen) by done. revert H0. generalize mopen. induction es as [|e es IH]; intros g0 H0 Hc g s t fp; cbn; [by rewrite elem_of_nil|].
  destruct Hc as [He Hc]. destruct (mlog_step L source g0 e) as [g1 out] eqn:E. cbn in Hc.
  rewrite elem_of_app. intros [(r & [= -> <-] & Hr)%list_elem_of_fmap|Hin].
  - apply (mrequest_shown L source g0 e H0 s t fp). by rewrite E.
  - apply (IH g1); auto. pose proof (minv_step L source g0 e H0 He) as Hi. by rewrite E in Hi.
Qed.

Definition merge_demo : list loc :=
  [demo_row 1 None "property"; demo_row 2 None "property"; demo_row 3 None "property"].

Lemma merge_sends_what_was_previewed_witness :
  calm merge_demo (demo_row 1 None "property") mopen [MPick 2; MLoad; MPreviewed "f2"; MConfirm] /\
  exists g, (g, AskMerge 1 2 "f2") ∈ mruns merge_demo (demo_row 1 None "property") mopen [MPick 2; MLoad; MPreviewed "f2"; MConfirm] /\ g_shown g = Some 2.
Proof.
  assert (Hc : calm merge_demo (demo_row 1 None "property") mopen [MPick 2; MLoad; MPreviewed "f2"; MConfirm])
    by (cbn; repeat split; by eexists).
  split; [exact Hc|]. eexists (MLog (MSheet (Some 2) (Some "f2") false "") None (Some 2)).
  assert (Hin : (MLog (MSheet (Some 2) (Some "f2") false "") None (Some 2), AskMerge 1 2 "f2") ∈
                mruns merge_demo (demo_row 1 None "property") mopen [MPick 2; MLoad; MPreviewed "f2"; MConfirm])
    by (apply list_elem_of_In; vm_compute; tauto).
  split; [exact Hin|]. apply (merge_sends_what_was_previewed _ _ _ Hc _ _ _ _ Hin).
Defined.

(** Choosing another target while the preview loads shows the first one's counts
    and fingerprint for the second, and confirms the merge with them. *)
Theorem merge_target_changes_under_preview :
  exists g, (g, AskMerge 1 3 "f2") ∈
    mruns merge_demo (demo_row 1 None "property") mopen [MPick 2; MLoad; MPick 3; MPreviewed "f2"; MConfirm] /\ g_shown g = Some 2.
Proof.
  exists (MLog (MSheet (Some 3) (Some "f2") false "") None (Some 2)). split; [|done]. apply list_elem_of_In. vm_compute. tauto.
Qed.

(** *** Container types *)

(** A refused creation clears the typed name, as an accepted one does. *)
Theorem refused_type_name_is_lost (t : tadmin) (e : refusal) :
  trim (t_new t) <> "" -> (String.length (trim (t_new t)) <= 64)%nat ->
  create_type t = (TAdmin (t_new t) (t_editing t) (t_retiring t) true "" "", [CreateType (trim (t_new t))]) /\
  t_new (tanswer t (CreateType (trim (t_new t))) (inl e)) = "" /\
  t_err (tanswer t (CreateType (trim (t_new t))) (inl e)) = locErrorText e "Container type change failed.".
Proof.
  intros Hn Hl. unfold create_type. destruct (String.eqb_spec (trim (t_new t)) ""); [done|].
  destruct (Nat.ltb_spec 64 (String.length (trim (t_new t)))); [lia|]. done.
Qed.

(** A retired type is offered on a container that already has it and nowhere else. *)
Theorem retired_type_only_on_its_container (types : list ctype) (current : option Z) (t : ctype) :
  t ∈ type_options types current -> ct_retired t = true -> current = Some (ct_id t).
Proof.
  unfold type_options. intros Hin Hr. destruct current as [c|].
  - destruct (find _ (rev types)) as [x|] eqn:E; [|by apply list_elem_of_filter in Hin as [? _]; congruence].
    apply find_some in E as [_ E%Z.eqb_eq]. destruct (ct_retired x).
    + apply elem_of_cons in Hin as [-> |Hin]; [congruence|]. apply list_elem_of_filter in Hin as [? _]. congruence.
    + apply list_elem_of_filter in Hin as [? _]. congruence.
  - apply list_elem_of_filter in Hin as [? _]. congruence.
Qed.
