(* ===== verification/InvForms.v ===== *)
(** * The inventory screen: normalised rows, item and licence forms (screens4.jsx)

    What the API or the fixture answers is brought to one shape when it arrives
    ([normLocations], [normRows], [cloneInv]); pages of a list ([InventoryPager]);
    the form of one item ([UnitModal]) with its licence fields ([licenceState],
    [licenceBody]), the product types it offers ([loadLiveProductTypes]) and the
    optimistic changes of the working copy ([saveUnit] and its siblings). *)

From Stdlib Require Import ZArith Lia Ascii String.
From stdpp Require Import strings gmap list pretty.
From S2P Require Import Prelude JsNum JsValue Mappers TopoLayout Catalog ProvSpec.

Local Open Scope string_scope.
Local Open Scope list_scope.
Local Open Scope Z_scope.
Local Open Scope js_scope.

(** ** Locations on ingestion *)

Definition LOC_TYPES : list string := ["property"; "floor"; "room"; "section"; "storage_unit"].

Definition LEGACY_LOC_TYPE (t : string) : option string :=
  if existsb (String.eqb t) ["site"; "building"] then Some "property"
  else if existsb (String.eqb t) ["rack"; "shelf"; "position"; "zone"; "cabinet"; "drawer"; "tray"; "bin"; "container"] then Some "storage_unit"
  else None.

(** A name every object inherits finds a built-in of the prototype: some object. *)
Definition builtin : value := VObj [].

Definition is_level (v : value) : bool := match v with VStr s => existsb (String.eqb s) LOC_TYPES | _ => false end.

Definition locType (t : value) : value :=
  if is_level t then t
  else match LEGACY_LOC_TYPE (vstr t) with
       | Some l => VStr l
       | None => if existsb (String.eqb (vstr t)) inherited then builtin else VStr "storage_unit"
       end.

Definition pick (n : value) (camel snake : string) : value := v_nn (fld n camel) (v_nn (fld n snake) VNull).

Definition norm_row (n : value) : value :=
  VObj [("id", fld n "id");
        ("parent_id", pick n "parentId" "parent_id");
        ("name", fld n "name");
        ("code", v_nn (fld n "code") VNull);
        ("loc_type", locType (v_or (fld n "locType") (fld n "loc_type")));
        ("container_type_id", pick n "containerTypeId" "container_type_id");
        ("assigned_project_id", pick n "assignedProjectId" "assigned_project_id");
        ("notes", v_nn (fld n "notes") VNull);
        ("updated_at", pick n "updatedAt" "updated_at")].

(** One node of [walk] and what it holds: [children] is walked when it has a
    length, and only an array has [forEach]. *)
Fixpoint walk_node (n : value) : res (list value) :=
  if negb (truthy n) then Ok []
  else
    kids <- match n with
            | VObj f =>
                (fix find_kids (f : list (string * value)) : res (list value) :=
                   match f with
                   | [] => Ok []
                   | (k, v) :: r =>
                       if String.eqb "children" k then
                         match v with
                         | VArr l =>
                             (fix go (l : list value) : res (list value) :=
                                match l with
                                | [] => Ok []
                                | x :: r => a <- walk_node x ;; b <- go r ;; Ok (a ++ b)
                                end) l
                         | VStr _ | VObj _ => if truthy v && truthy (fld v "length") then Throw TypeError else Ok []
                         | _ => Ok []
                         end
                       else find_kids r
                   end) f
            | _ => Ok []
            end ;;
    Ok (norm_row n :: kids).

Fixpoint walk_nodes (l : list value) : res (list value) :=
  match l with
  | [] => Ok []
  | x :: r => a <- walk_node x ;; b <- walk_nodes r ;; Ok (a ++ b)
  end.

Definition normLocations (v : value) : res (list value) :=
  match v with
  | VArr l => walk_nodes l
  | _ => if truthy v then Throw TypeError else Ok []
  end.

(** ** Other rows on ingestion *)

(** [key.replace(/[A-Z]/g, ...)]. *)
Definition is_upper (c : ascii) : bool := let n := Ascii.nat_of_ascii c in (65 <=? n)%nat && (n <=? 90)%nat.

Fixpoint snake (k : string) : string :=
  match k with
  | EmptyString => EmptyString
  | String c r => if is_upper c then String "_" (String (lower_char c) (snake r)) else String c (snake r)
  end.

(** Own enumerable properties of any value. *)
Definition own (v : value) : list (string * value) :=
  match v with
  | VObj f => f
  | VArr l => imap (fun i x => (pretty (Z.of_nat i), x)) l
  | VStr s => imap (fun i c => (pretty (Z.of_nat i), VStr (String c ""))) (chars s)
  | _ => []
  end.

Definition norm_keys (row : value) : list (string * value) :=
  fold_left (fun out kv => assoc_set (snake kv.1) kv.2 out) (own (v_or row (VObj []))) [].

Definition normRows (v : value) : res (list value) :=
  match v with
  | VArr l => Ok (map (fun row => VObj (norm_keys row)) l)
  | _ => if truthy v then Throw TypeError else Ok []
  end.

Record working := Working { w_models : list value; w_units : list value; w_locations : list value;
                            w_receipts : list value; w_projects : list value; w_allocations : list value; w_seq : list (string * value) }.

Definition cloneInv (src : value) : res working :=
  let s := v_or src (VObj []) in
  m <- normRows (fld s "models") ;;
  u <- normRows (fld s "units") ;;
  l <- normLocations (fld s "locations") ;;
  r <- normRows (fld s "receipts") ;;
  p <- normRows (fld s "projects") ;;
  a <- normRows (fld s "allocations") ;;
  Ok (Working m u l r p a (own (fld s "seq"))).

(** The same of a live answer, with the sequence of the assembled model. *)
Definition loadInventory (d seq : value) : res working :=
  models <- get d "models" ;;
  m <- normRows models ;;
  u <- normRows (fld d "units") ;;
  l <- normLocations (fld d "locations") ;;
  r <- normRows (fld d "receipts") ;;
  p <- normRows (fld d "projects") ;;
  a <- normRows (fld d "allocations") ;;
  Ok (Working m u l r p a (own seq)).

(** ** Pages of a list *)

Record pager := Pager { pg_page : Z; pg_from : Z; pg_to : Z; pg_pages : Z; pg_prev_off : bool; pg_next_off : bool }.

Definition pageCount (count size : Z) : Z := Z.max 1 (- ((- count) / size)).

Definition InventoryPager (currentPage size count : Z) : option pager :=
  let pages := pageCount count size in
  let page := Z.min currentPage (pages - 1) in
  if count <=? size then None
  else Some (Pager page (page * size + 1) (Z.min ((page + 1) * size) count) pages (page =? 0) (pages <=? page + 1)).

(** ** Licences *)

Definition alnum (c : ascii) : bool :=
  let n := Ascii.nat_of_ascii c in
  is_digit c || is_upper c || ((97 <=? n)%nat && (n <=? 122)%nat).

Fixpoint alnum_run (s : string) : nat * string :=
  match s with
  | String c r => if alnum c then let '(k, t) := alnum_run r in (S k, t) else (O, s)
  | EmptyString => (O, EmptyString)
  end.

(** [n + 1] groups of four to six letters or digits, joined by dashes. *)
Fixpoint key_groups (n : nat) (s : string) : bool :=
  let '(k, t) := alnum_run s in
  (4 <=? k)%nat && (k <=? 6)%nat &&
  match n with
  | O => true
  | S n => match t with String c r => Ascii.eqb c "-" && key_groups n r | EmptyString => false end
  end.

(** [PRODUCT_KEY.test(s)]: such a run that starts the text or follows anything but
    a letter or a digit. *)
Fixpoint product_key_from (edge : bool) (s : string) : bool :=
  (edge && key_groups 3 s) ||
  match s with EmptyString => false | String c r => product_key_from (negb (alnum c)) r end.

Definition PRODUCT_KEY (s : string) : bool := product_key_from true s.

(** [s.replace(/w/gi, "")] for a lower-case word [w]; [skip] characters of a match
    are still to be dropped. *)
Fixpoint remove_word (w : string) (skip : nat) (s : string) : string :=
  match s with
  | EmptyString => EmptyString
  | String c r =>
      match skip with
      | S k => remove_word w k r
      | O => if starts_with w (toLowerCase s) then remove_word w (String.length w - 1) r else String c (remove_word w O r)
      end
  end.

Definition referenceLooksSecret (ref : string) : bool :=
  let r := remove_word "1password" O ref in SECRET_KEY r || PRODUCT_KEY r.

(** The form's licence fields, and the ones of the API. *)
Record licence := Licence { seats : string; expires : string; reference : string; installedOn : option Z }.
Record licence_row := LicenceRow { licence_seats : option Z; licence_expires_on : option string;
                                   licence_reference : option string; installed_on_unit_id : option Z }.

Definition licenceState (u : licence_row) : licence :=
  Licence (match licence_seats u with Some n => pretty n | None => "" end)
          (default "" (licence_expires_on u)) (default "" (licence_reference u)) (installed_on_unit_id u).

(** [/^[1-9]\d{0,9}$/] and the 32-bit bound. *)
Definition seats_ok (s : string) : bool :=
  match s with
  | String c r => is_digit c && negb (Ascii.eqb c "0") && sall is_digit r && (String.length r <=? 9)%nat && (dec_val 0 (chars s) <=? 4294967295)
  | EmptyString => false
  end.

(** [/^\d{4}-\d{2}-\d{2}$/]. *)
Definition date_shape (s : string) : bool :=
  match chars s with
  | [a; b; c; d; x; e; f; y; g; h] =>
      forallb is_digit [a; b; c; d; e; f; g; h] && Ascii.eqb x "-" && Ascii.eqb y "-"
  | _ => false
  end.

Definition no_licence : licence_row := LicenceRow None None None None.

Definition some_text (s : string) : option string := if String.eqb s "" then None else Some s.

Definition licenceBody (v : licence) (software : bool) : string + licence_row :=
  if negb software then inr no_licence
  else
    let st := trim (seats v) in
    if negb (String.eqb st "") && negb (seats_ok st) then inl "Seats must be a whole number from 1 to 4294967295."
    else
      let ex := trim (expires v) in
      if negb (String.eqb ex "") && negb (date_shape ex) then inl "The expiry must be a date."
      else
        let ref := trim (reference v) in
        if (1024 <? String.length ref)%nat then inl "The licence reference must be 1024 characters or fewer."
        else if negb (String.eqb ref "") && referenceLooksSecret ref
        then inl "The licence reference should say where the licence is kept — a vault entry or an order number — never the key, password or token itself."
        else inr (LicenceRow (if String.eqb st "" then None else Some (dec_val 0 (chars st))) (some_text ex) (some_text ref) (installedOn v)).

Definition licenceSummary (kind : string) (u : licence_row) (on_name : string) : string :=
  if negb (String.eqb kind "software") then ""
  else String.concat " · "
    (match licence_seats u with Some n => [pretty n +:+ (if n =? 1 then " seat" else " seats")] | None => [] end ++
     match licence_expires_on u with Some d => if String.eqb d "" then [] else ["expires " +:+ d] | None => [] end ++
     match installed_on_unit_id u with Some i => ["on " +:+ (if String.eqb on_name "" then "item #" +:+ pretty i else on_name)] | None => [] end ++
     match licence_reference u with Some r => if String.eqb r "" then [] else [r] | None => [] end).

(** ** Product types, a page at a time *)

Section Types.
Context {T : Type} (productTypes : Z -> list T * bool * option Z).   (* items, hasMore, nextOffset *)

Fixpoint load_types (fuel : nat) (offset : Z) (out : list T) : option (list T) :=
  match fuel with
  | O => None
  | S fuel =>
      let '(items, hasMore, nextOffset) := productTypes offset in
      let out := out ++ items in
      match nextOffset with
      | Some next => if hasMore && negb (Nat.eqb (length items) 0) && (Z.of_nat (length out) <? 10000) then load_types fuel next out else Some out
      | None => Some out
      end
  end.

Definition loadLiveProductTypes : option (list T) := load_types (Z.to_nat 10000) 0 [].
End Types.

(** ** A searchable choice *)

Record opt := Opt { o_id : Z; o_label : string; o_sub : string; o_tag : string }.

Definition PICK_CAP : nat := 200.

Definition pick_matches (q : string) (options : list opt) : list opt :=
  let needle := toLowerCase (trim q) in
  if String.eqb needle "" then options
  else List.filter (fun o => contains needle (toLowerCase (o_label o +:+ " " +:+ o_sub o +:+ " " +:+ o_tag o))) options.

Definition pick_shown (q : string) (options : list opt) : list opt := take PICK_CAP (pick_matches q options).

Definition pick_chosen (value : option Z) (options : list opt) : option opt :=
  match value with None => None | Some v => find (fun o => o_id o =? v) options end.

(** ** Errors *)

Definition is409 (code message : string) : bool :=
  let m := toLowerCase message in
  String.eqb code "HTTP_409" || String.eqb code "already_committed" || contains "already committed" m || contains "another project" m.

Definition itemErrorText (message fallback : string) : string :=
  if negb (String.eqb message "") then message else if String.eqb fallback "" then "The request failed." else fallback.

(** ** The form of one item *)

(** The longest prefix that is a decimal literal: [parseFloat]. *)
Fixpoint decimal_prefix (k : nat) (s : string) : num :=
  match k with
  | O => nan
  | S k' =>
      let p := stake k s in
      match read_radix (chars p) with
      | Some _ => decimal_prefix k' s
      | None => if is_nan (str_num p) then decimal_prefix k' s else str_num p
      end
  end.

Definition parseFloat (s : string) : num := let t := trimStart s in decimal_prefix (String.length t) t.

Record uform := UForm { uf_type : option Z; uf_model : Z; uf_serial : string; uf_tag : string; uf_location : option Z;
                        uf_acquired : string; uf_qty : string; uf_cost : string; uf_stock : string; uf_receipt : option Z;
                        uf_notes : string; uf_licence : licence }.

Record ufields := UFields { x_serial : option string; x_tag : option string; x_location : option Z; x_acquired : option string;
                            x_qty : num; x_cost : option num; x_stock : string; x_receipt : option Z; x_notes : option string }.

(** A product type as the sheet knows it. *)
Record ptype := PType { pt_id : Z; pt_kind : string; pt_retired : bool }.

Inductive uresult :=
  | URefused (e : string)
  | UOffline (model : Z) (f : ufields)
  | ULive (f : ufields) (l : licence_row) (product_type : option Z).

Definition unit_fields (f : uform) : string + ufields :=
  let q := trim (uf_qty f) in
  if String.eqb q "" || negb (sall is_digit q) || nlt (str_num q) (ofZ 1) then inl "Quantity must be a whole number of 1 or more."
  else
    let c := trim (uf_cost f) in
    if negb (String.eqb c "") && negb (nge (parseFloat c) n0) then inl "The unit cost must be a number."
    else inr (UFields (some_text (trim (uf_serial f))) (some_text (trim (uf_tag f))) (uf_location f) (some_text (uf_acquired f))
                (str_num q) (if String.eqb c "" then None else Some (nround (nmul (parseFloat c) (ofZ 100))))
                (uf_stock f) (uf_receipt f) (some_text (trim (uf_notes f)))).

(** [types] is [None] while they load; [unit_type] is the type of the item being
    edited, [None] for a new item or one without a type. *)
Definition chosenType (types : option (list ptype)) (unit_type : option ptype) (typeId : option Z) : option ptype :=
  match typeId with
  | None => None
  | Some i =>
      match find (fun t => pt_id t =? i) (default [] types) with
      | Some t => Some t
      | None => match unit_type with Some t => if pt_id t =? i then Some t else None | None => None end
      end
  end.

Definition unit_submit (live : bool) (types : option (list ptype)) (editing : bool) (unit_type : option ptype) (f : uform) : uresult :=
  match unit_fields f with
  | inl e => URefused e
  | inr x =>
      if negb live then (if uf_model f =? 0 then URefused "Pick a model." else UOffline (uf_model f) x)
      else
        match chosenType types unit_type (uf_type f) with
        | None => URefused (match types with None => "Product types are still loading." | Some _ => "Choose what this item is — pick a product type." end)
        | Some t =>
            match licenceBody (uf_licence f) (String.eqb (pt_kind t) "software") with
            | inl e => URefused e
            | inr lb =>
                ULive x lb (if negb editing || negb (bool_decide (uf_type f = pt_id <$> unit_type)) then uf_type f else None)
            end
        end
  end.

(** The text of a stored cost, [(cents / 100).toFixed(2)]. *)
Definition cost_text (cents : Z) : string := toFixed (ndiv (ofZ cents) (ofZ 100)) 2.

(** ** Optimistic changes of the working copy *)

Definition row_id (r : value) : value := fld r "id".

(** [nextId] over rows whose ids may be missing. *)
Definition nextId (rows : list value) : num :=
  nadd (fold_left (fun m x => nmax m (vnum (v_or (row_id x) (vz 0)))) rows n0) (ofZ 1).

Definition save_row (rows : list value) (draft : list (string * value)) (editing : bool) : list value :=
  if editing
  then map (fun u => if strict_eq (row_id u) (fld (VObj draft) "id") then VObj (assign (own u) draft) else u) rows
  else rows ++ [VObj (assign [("id", VNum (nextId rows))] draft)].

(** The draft of an item the sheet hands over offline. *)
Definition opt_str (o : option string) : value := match o with Some s => VStr s | None => VNull end.
Definition opt_id (o : option Z) : value := match o with Some z => vz z | None => VNull end.
Definition opt_num (o : option num) : value := match o with Some n => VNum n | None => VNull end.

Definition unit_draft (id : value) (model : Z) (x : ufields) : list (string * value) :=
  [("id", id); ("model_id", vz model); ("serial", opt_str (x_serial x)); ("asset_tag", opt_str (x_tag x));
   ("location_id", opt_id (x_location x)); ("acquired_on", opt_str (x_acquired x)); ("quantity", VNum (x_qty x));
   ("unit_cost_cents", opt_num (x_cost x)); ("stock_status", VStr (x_stock x)); ("receipt_id", opt_id (x_receipt x));
   ("notes", VStr (default "" (x_notes x)))].

Definition saveUnit (w : working) (draft : list (string * value)) (editing : bool) : working :=
  Working (w_models w) (save_row (w_units w) draft editing) (w_locations w) (w_receipts w) (w_projects w) (w_allocations w) (w_seq w).
Definition saveModel (w : working) (draft : list (string * value)) : working :=
  Working (save_row (w_models w) draft false) (w_units w) (w_locations w) (w_receipts w) (w_projects w) (w_allocations w) (w_seq w).
Definition saveReceipt (w : working) (draft : list (string * value)) : working :=
  Working (w_models w) (w_units w) (w_locations w) (save_row (w_receipts w) draft false) (w_projects w) (w_allocations w) (w_seq w).
Definition saveProject (w : working) (draft : list (string * value)) (editing : bool) : working :=
  Working (w_models w) (w_units w) (w_locations w) (w_receipts w) (save_row (w_projects w) draft editing) (w_allocations w) (w_seq w).

(** The new model of the model sheet. *)
Definition model_submit (make model hw_type arch notes : string) : option (list (string * value)) :=
  if String.eqb (trim make) "" || String.eqb (trim model) "" then None
  else Some [("make", VStr (trim make)); ("model", VStr (trim model)); ("hw_type", VStr hw_type);
             ("arch", opt_str (some_text arch)); ("notes", VStr (trim notes))].

(** ** Normalisation *)

Definition level_text (row : value) : bool := is_str (fld row "loc_type").

Lemma v_nn_null v : v_nn VUndef (v_nn (v_nn v VNull) VNull) = v_nn v VNull.
Proof. by destruct v. Qed.

Lemma pick_again n a b : v_nn VUndef (v_nn (pick n a b) VNull) = pick n a b.
Proof. unfold pick. by destruct (fld n a), (fld n b). Qed.

Lemma code_again v : v_nn (v_nn v VNull) VNull = v_nn v VNull.
Proof. by destruct v. Qed.

Lemma locType_again t : is_str (locType t) = true -> locType (v_or VUndef (locType t)) = locType t.
Proof.
  unfold locType at 1 3 4. cbn [v_or truthy]. destruct (is_level t) eqn:E.
  - intros _. unfold locType. cbn. by rewrite E.
  - destruct (LEGACY_LOC_TYPE (vstr t)) as [l|] eqn:El.
    + intros _. unfold LEGACY_LOC_TYPE in El. repeat case_match; simplify_eq; done.
    + by destruct (existsb _ inherited).
Qed.

(** A normalised row is its own normal form, and holds no tree. *)
Lemma norm_row_again n : level_text (norm_row n) = true -> norm_row (norm_row n) = norm_row n.
Proof.
  unfold level_text. intros H. cbn in H. unfold norm_row at 1. cbn [fld assoc String.eqb Ascii.eqb Bool.eqb norm_row].
  unfold pick at 1 2 3 4. cbn [fld assoc String.eqb Ascii.eqb Bool.eqb norm_row].
  rewrite !pick_again, !code_again, locType_again by done. done.
Qed.

Lemma walk_row n : level_text (norm_row n) = true -> walk_node (norm_row n) = Ok [norm_row n].
Proof. intros H. change (walk_node (norm_row n)) with (Ok [norm_row (norm_row n)]). by rewrite norm_row_again. Qed.

Definition is_row (r : value) : Prop := exists n, r = norm_row n.

Lemma walk_node_rows : forall n out, walk_node n = Ok out -> Forall is_row out.
Proof.
  fix walk_node_rows 1. intros n.
  assert (Hgo : forall l out, (fix go (l : list value) : res (list value) :=
      match l with [] => Ok [] | x :: r => a <- walk_node x ;; b <- go r ;; Ok (a ++ b) end) l = Ok out -> Forall is_row out).
  { fix Hgo 1. intros [|x r] out; [intros [= <-]; constructor|].
    intros (a & Ha & (b & Hb & [= <-])%bind_ok)%bind_ok. apply Forall_app. split; [by apply (walk_node_rows x)|by apply (Hgo r)]. }
  destruct n as [| |b|m|s|l|f]; intros out; cbn.
  1-6: try (destruct (negb _)); cbn; intros [= <-]; repeat constructor; eexists; done.
  intros (kids & Hk & [= <-])%bind_ok. constructor; [by eexists|]. revert kids Hk.
  assert (Hf : forall g kids, (fix find_kids (f : list (string * value)) : res (list value) :=
      match f with
      | [] => Ok []
      | (k, v) :: r =>
          if String.eqb "children" k then
            match v with
            | VArr l => (fix go (l : list value) : res (list value) :=
                match l with [] => Ok [] | x :: r => a <- walk_node x ;; b <- go r ;; Ok (a ++ b) end) l
            | VStr _ | VObj _ => if truthy v && truthy (fld v "length") then Throw TypeError else Ok []
            | _ => Ok []
            end
          else find_kids r
      end) g = Ok kids -> Forall is_row kids).
  { fix Hf 1. intros [|[k v] r] kids; [intros [= <-]; constructor|]. destruct (String.eqb "children" k); [|apply (Hf r)].
    destruct v; try (intros [= <-]; constructor); try (destruct (_ && _); [done|intros [= <-]; constructor]). apply Hgo. }
  intros kids. apply Hf.
Qed.

Lemma walk_nodes_rows l : forall out, walk_nodes l = Ok out -> Forall is_row out.
Proof.
  induction l as [|x r IH]; intros out; cbn; [intros [= <-]; constructor|].
  intros (a & Ha & (b & Hb & [= <-])%bind_ok)%bind_ok. apply Forall_app. split; [by apply (walk_node_rows x)|by apply IH].
Qed.

Lemma walk_rows out : Forall is_row out -> Forall (fun r => level_text r = true) out -> walk_nodes out = Ok out.
Proof.
  intros H1 H2. induction out as [|r out IH]; [done|]. apply Forall_cons in H1 as [[n ->] H1], H2 as [Hl H2].
  change (bind (walk_node (norm_row n)) (fun a => bind (walk_nodes out) (fun b => Ok (a ++ b))) = Ok (norm_row n :: out)).
  rewrite walk_row by done. cbn. by rewrite IH.
Qed.

(** *** Keys *)

Definition keys_of (f : list (string * value)) : list string := map fst f.

Lemma snake_snake k : snake (snake k) = snake k.
Proof.
  induction k as [|c k IH]; [done|]. cbn. destruct (is_upper c) eqn:E; cbn; [|by rewrite E, IH].
  rewrite IH. assert (is_upper (lower_char c) = false) as ->; [|done]. clear. destruct c as [[] [] [] [] [] [] [] []]; reflexivity.
Qed.

Lemma row_set_keys k (x : value) l : keys_of (assoc_set k x l) = if bool_decide (k ∈ keys_of l) then keys_of l else keys_of l ++ [k].
Proof.
  induction l as [|[k' y] l IH]; [done|]. cbn [assoc_set]. destruct (String.eqb_spec k k') as [->|Hn].
  - rewrite bool_decide_true by (cbn; set_solver). done.
  - unfold keys_of in *. cbn [map fst]. rewrite IH. repeat case_bool_decide; try done; set_solver.
Qed.

(** The keys of normalised rows: distinct and in snake case. *)
Definition snaked (f : list (string * value)) : Prop := NoDup (keys_of f) /\ Forall (fun k => snake k = k) (keys_of f).

Lemma norm_keys_snaked row : snaked (norm_keys row).
Proof.
  unfold norm_keys. generalize (own (v_or row (VObj []))) as l. assert (H0 : snaked []) by (split; constructor).
  revert H0. generalize (@nil (string * value)) as acc. intros acc H0 l. revert acc H0.
  induction l as [|[k v] l IH]; intros acc [Hn Hf]; [by split|]. cbn. apply IH. unfold snaked. rewrite row_set_keys.
  case_bool_decide as Hk; [by split|]. split.
  - apply NoDup_app. split; [done|]. split; [|apply NoDup_singleton]. intros x Hx ->%list_elem_of_singleton. done.
  - apply Forall_app. split; [done|]. constructor; [apply snake_snake|constructor].
Qed.

Lemma assoc_set_fresh k (x : value) l : k ∉ keys_of l -> assoc_set k x l = l ++ [(k, x)].
Proof.
  induction l as [|[k' y] l IH]; [done|]. cbn. intros Hk. destruct (String.eqb_spec k k') as [->|]; [set_solver|].
  f_equal. apply IH. set_solver.
Qed.

Lemma renaming_is_identity l : forall acc, snaked (acc ++ l) -> fold_left (fun out kv => assoc_set (snake kv.1) kv.2 out) l acc = acc ++ l.
Proof.
  induction l as [|[k v] l IH]; intros acc [Hn Hf]; cbn; [by rewrite app_nil_r|]. unfold keys_of in *.
  rewrite map_app in Hn, Hf. cbn in Hn, Hf.
  assert (snake k = k) as -> by (apply Forall_app in Hf as [_ Hf]; by apply Forall_cons in Hf as [? _]).
  rewrite assoc_set_fresh.
  - rewrite IH; [by rewrite <- app_assoc|]. unfold snaked, keys_of. rewrite <- app_assoc, map_app. by split.
  - apply NoDup_app in Hn as (_ & Hd & _). intros Hk. apply (Hd k); [done|left].
Qed.

Lemma norm_keys_again row : norm_keys (VObj (norm_keys row)) = norm_keys row.
Proof.
  pose proof (norm_keys_snaked row) as H. unfold norm_keys at 1. cbn [v_or truthy own].
  by rewrite (renaming_is_identity (norm_keys row) []).
Qed.

(** Normalising is idempotent, as its comment says: the rows it yields, read in
    again (the offline working copy, an optimistic draft), come out as they are: a
    tree of locations is flattened once, and field names are converted once.  The
    levels must be texts: a level named like a property every object inherits is
    looked up as a built-in. *)
Theorem normalising_is_idempotent (v : value) :
  (forall out, normLocations v = Ok out -> Forall (fun r => level_text r = true) out -> normLocations (VArr out) = Ok out) /\
  (forall out, normRows v = Ok out -> normRows (VArr out) = Ok out).
Proof.
  split; intros out.
  - intros H Hl. cbn. apply walk_rows; [|done]. destruct v as [| |b|m|s|l|f]; cbn in H;
      try (destruct (negb _) || destruct b || destruct (String.eqb _ _)); simplify_eq; try constructor. by apply (walk_nodes_rows l).
  - intros H. cbn. f_equal. destruct v as [| |b|m|s|l|f]; cbn in H;
      try (destruct (negb _) || destruct b || destruct (String.eqb _ _)); simplify_eq; try done.
    rewrite map_map. apply map_ext. intros row. f_equal. apply norm_keys_again.
Qed.

(** ** Pages *)

(** The pager of a list of [count] rows never points outside it: with a page
    size of at least one and any requested page from zero up, when it shows at all
    the rows shown are a non-empty stretch of 1..[count] of at most one page,
    "Previous" is off exactly on the first page and "Next" exactly when the last row
    is on screen. *)
Theorem pager_stays_in_bounds (currentPage size count : Z) (p : pager) :
  1 <= size -> 0 <= currentPage -> InventoryPager currentPage size count = Some p ->
  1 <= pg_from p <= pg_to p /\ pg_to p <= count /\ pg_to p - pg_from p < size /\
  0 <= pg_page p < pg_pages p /\
  (pg_prev_off p = true <-> pg_from p = 1) /\ (pg_next_off p = true <-> pg_to p = count).
Proof.
  intros Hs Hc. unfold InventoryPager. destruct (Z.leb_spec count size) as [|Hlt]; [done|]. intros [= <-]. cbn.
  unfold pageCount. set (n := - (- count / size)).
  assert (Hn : count <= n * size /\ (n - 1) * size < count).
  { unfold n. pose proof (Z.div_mod (- count) size ltac:(lia)). pose proof (Z.mod_pos_bound (- count) size ltac:(lia)). nia. }
  assert (1 < n) by nia. rewrite Z.max_r by lia. set (q := Z.min currentPage (n - 1)).
  assert (Hq : 0 <= q <= n - 1) by lia. clearbody q n.
  assert (q * size <= (n - 1) * size) by nia. assert (q + 1 < n -> (q + 1) * size <= (n - 1) * size) by nia.
  rewrite Z.eqb_eq, Z.leb_le. repeat split; nia.
Qed.

Lemma pager_stays_in_bounds_witness :
  InventoryPager 9 50 120 = Some (Pager 2 101 120 3 false true) /\ 101 <= 120.
Proof.
  split; [reflexivity|].
  pose proof (pager_stays_in_bounds 9 50 120 (Pager 2 101 120 3 false true)) as H.
  destruct H as ([_ H] & _); [lia|lia|reflexivity|exact H].
Defined.

(** ** Licences *)

Lemma digit_val_char (d : N) : (d < 10)%N -> digit_val (pretty_N_char d) = Z.of_N d.
Proof. intros Hd. destruct d as [|p]; [done|]. do 4 (destruct p as [p|p|]; try done; try lia). Qed.

Lemma dec_val_N_go (x : N) s : dec_val 0 (chars (pretty_N_go x s)) = dec_val (Z.of_N x) (chars s).
Proof.
  revert s. induction (N.lt_wf_0 x) as [x _ IH]. intros s. destruct (decide (0 < x)%N) as [Hx|Hx].
  - rewrite pretty_N_go_step by done. rewrite IH by (apply N.div_lt; lia).
    change (dec_val (Z.of_N (x `div` 10)%N) (pretty_N_char (x `mod` 10)%N :: chars s) = dec_val (Z.of_N x) (chars s)). cbn [dec_val].
    f_equal. assert (digit_val (pretty_N_char (x `mod` 10)%N) = Z.of_N (x `mod` 10)%N) as ->.
    { apply digit_val_char. apply N.mod_lt. lia. }
    rewrite N2Z.inj_div, N2Z.inj_mod. pose proof (Z.div_mod (Z.of_N x) 10 ltac:(lia)). change (Z.of_N 10) with 10. lia.
  - assert (x = 0%N) as -> by lia. done.
Qed.

Lemma digits_N_go (x : N) s : sall is_digit (pretty_N_go x s) = sall is_digit s.
Proof.
  revert s. induction (N.lt_wf_0 x) as [x _ IH]. intros s. destruct (decide (0 < x)%N) as [Hx|Hx].
  - rewrite pretty_N_go_step by done. rewrite IH by (apply N.div_lt; lia). cbn.
    assert (is_digit (pretty_N_char (x `mod` 10)%N) = true) as ->; [|done]. unfold pretty_N_char. by repeat case_match.
  - assert (x = 0%N) as -> by lia. done.
Qed.

(** A number below [10 ^ k] has at most [k] digits, and the first is not zero. *)
Lemma length_N_go (k : nat) : forall (x : N) s, (x < 10 ^ N.of_nat k)%N -> (String.length (pretty_N_go x s) <= k + String.length s)%nat.
Proof.
  induction k as [|k IH]; intros x s Hx; (destruct (decide (0 < x)%N) as [Hp|Hp]; [|assert (x = 0%N) as -> by lia; rewrite pretty_N_go_0; lia]).
  - cbn in Hx. lia.
  - rewrite pretty_N_go_step by done. rewrite Nat2N.inj_succ, N.pow_succ_r' in Hx.
    etrans; [apply IH; apply N.Div0.div_lt_upper_bound; lia|]. cbn. lia.
Qed.

Definition head_nonzero (s : string) : Prop := match s with String c _ => Ascii.eqb c "0" = false | EmptyString => False end.

Lemma head_N_go (x : N) : forall s, (0 < x)%N -> head_nonzero (pretty_N_go x s).
Proof.
  induction (N.lt_wf_0 x) as [x _ IH]. intros s Hx. rewrite pretty_N_go_step by done.
  destruct (decide (0 < x `div` 10)%N) as [Hd|Hd]; [apply IH; [apply N.div_lt; lia|done]|].
  assert (Hs : (x < 10)%N) by (pose proof (N.div_mod x 10 ltac:(lia)); pose proof (N.mod_lt x 10 ltac:(lia)); lia). rewrite N.div_small, pretty_N_go_0 by done. rewrite N.mod_small by done.
  cbn. destruct x as [|p]; [lia|]. do 4 (destruct p as [p|p|]; try done; try lia).
Qed.

Lemma seats_pretty n : 1 <= n <= 4294967295 -> seats_ok (pretty n) = true /\ dec_val 0 (chars (pretty n)) = n.
Proof.
  intros Hn. assert (E : pretty n = pretty_N_go (Z.to_N n) "") by (destruct n as [|p|p]; try lia; done).
  rewrite E. assert (Hd : dec_val 0 (chars (pretty_N_go (Z.to_N n) "")) = n) by (rewrite dec_val_N_go; cbn; lia). split; [|done].
  pose proof (digits_N_go (Z.to_N n) "") as Hs. pose proof (length_N_go 10 (Z.to_N n) "" ltac:(lia)) as Hl.
  pose proof (head_N_go (Z.to_N n) "" ltac:(lia)) as Hh. unfold seats_ok.
  destruct (pretty_N_go (Z.to_N n) "") as [|c r]; [done|]. cbn in Hh. cbn [sall] in Hs. apply andb_true_iff in Hs as [H1 H2].
  rewrite H1, H2, Hh, Hd. cbn in Hl. destruct (Nat.leb_spec (String.length r) 9); [|lia]. cbn. lia.
Qed.

Lemma sall_dec_pos s : forall acc, 0 <= acc -> sall is_digit s = true -> acc <= dec_val acc (chars s).
Proof.
  induction s as [|c s IH]; intros acc Ha Hs; [cbn; lia|]. cbn in Hs. apply andb_true_iff in Hs as [Hc Hs].
  change (acc <= dec_val (acc * 10 + digit_val c) (chars s)).
  assert (0 <= digit_val c). { unfold is_digit, digit_val in *. apply andb_true_iff in Hc as [Hc _]. apply Nat.leb_le in Hc. lia. }
  specialize (IH (acc * 10 + digit_val c) ltac:(lia) Hs). lia.
Qed.

Lemma seats_range s : seats_ok s = true -> 1 <= dec_val 0 (chars s) <= 4294967295.
Proof.
  destruct s as [|c r]; [done|]. unfold seats_ok. rewrite !andb_true_iff, negb_true_iff, Z.leb_le. intros ((((Hc & H0) & Hr) & _) & Hm).
  split; [|done]. change (1 <= dec_val (0 * 10 + digit_val c) (chars r)).
  assert (1 <= digit_val c).
  { unfold is_digit, digit_val in *. apply andb_true_iff in Hc as [Hc _]. apply Nat.leb_le in Hc.
    assert (Ascii.nat_of_ascii c <> 48)%nat; [|lia]. intros E.
    assert (c = "0"%char) as -> by (by rewrite <- (Ascii.ascii_nat_embedding c), E). done. }
  pose proof (sall_dec_pos r (0 * 10 + digit_val c) ltac:(lia) Hr). lia.
Qed.

Lemma digits_no_ws s : sall is_digit s = true -> sall (fun c => negb (is_ws c)) s = true.
Proof.
  induction s as [|c s IH]; [done|]. cbn [sall]. rewrite !andb_true_iff. intros [Hc Hs]. split; [|auto].
  revert Hc. clear. by destruct c as [[] [] [] [] [] [] [] []].
Qed.

Lemma default_text s : default "" (some_text s) = s.
Proof. unfold some_text. by destruct (String.eqb_spec s ""). Qed.

(** A licence survives its form: the fields a valid form sends for a software
    item, put back into the form and sent again, are the same fields; seats are a
    number from 1 to 4294967295 or absent, the reference has at most 1024 characters
    and does not look like a key, a password or a token.  For any other kind of item
    every licence field is cleared. *)
Theorem licence_survives_its_form (v : licence) (b : licence_row) :
  licenceBody v true = inr b ->
  licenceBody (licenceState b) true = inr b /\
  (forall n, licence_seats b = Some n -> 1 <= n <= 4294967295) /\
  (forall r, licence_reference b = Some r -> (String.length r <= 1024)%nat /\ referenceLooksSecret r = false) /\
  licenceBody v false = inr no_licence.
Proof.
  unfold licenceBody at 1. cbn [negb]. set (st := trim (seats v)). set (ex := trim (expires v)). set (rf := trim (reference v)).
  destruct (String.eqb st "") eqn:Es; cbn [negb andb]; [|destruct (seats_ok st) eqn:Eo; [|done]]; cbn [negb andb].
  all: destruct (negb (String.eqb ex "") && negb (date_shape ex)) eqn:Ex; [done|].
  all: destruct (Nat.ltb_spec 1024 (String.length rf)) as [|Hl]; [done|].
  all: destruct (negb (String.eqb rf "") && referenceLooksSecret rf) eqn:Er; [done|]; intros [= <-].
  all: unfold licenceBody, licenceState; cbn [negb seats expires reference installedOn licence_seats licence_expires_on licence_reference installed_on_unit_id].
  all: rewrite !default_text; subst ex rf; rewrite !trim_trim, Ex, Er.
  all: destruct (Nat.ltb_spec 1024 (String.length (trim (reference v)))); [lia|].
  all: (split; [|split; [intros n [=]|split; [intros r Hr|done]]]).
  all: try (unfold some_text in Hr; destruct (String.eqb (trim (reference v)) "") eqn:E0; [done|]; injection Hr as <-; by split).
  - done.
  - pose proof (seats_range st Eo) as Hr. destruct (seats_pretty _ Hr) as [H1 H2].
    assert (trim (pretty (dec_val 0 (chars st))) = pretty (dec_val 0 (chars st))) as ->.
    { apply trim_id, digits_no_ws. destruct (pretty (dec_val 0 (chars st))); [done|]. unfold seats_ok in H1. cbn [sall]. rewrite !andb_true_iff in H1. rewrite andb_true_iff. tauto. }
    rewrite H1. destruct (pretty (dec_val 0 (chars st))) as [|c r] eqn:Ep; [done|]. cbn [String.eqb negb andb]. by rewrite H2.
  - subst n. by apply seats_range.
Qed.

Definition demo_licence : licence := Licence " 25 " "2027-01-31" "1Password: Fleet / Office" (Some 12).

Lemma licence_survives_its_form_witness :
  licenceBody demo_licence true = inr (LicenceRow (Some 25) (Some "2027-01-31") (Some "1Password: Fleet / Office") (Some 12)) /\
  licenceBody (licenceState (LicenceRow (Some 25) (Some "2027-01-31") (Some "1Password: Fleet / Office") (Some 12))) true
    = inr (LicenceRow (Some 25) (Some "2027-01-31") (Some "1Password: Fleet / Office") (Some 12)).
Proof.
  assert (H : licenceBody demo_licence true = inr (LicenceRow (Some 25) (Some "2027-01-31") (Some "1Password: Fleet / Office") (Some 12)))
    by (vm_compute; reflexivity).
  split; [exact H|]. apply (licence_survives_its_form demo_licence _ H).
Defined.

Example key_is_refused :
  licenceBody (Licence "" "" "ABCD-EF12-34GH-5678" None) true =
  inl "The licence reference should say where the licence is kept — a vault entry or an order number — never the key, password or token itself.".
Proof. by vm_compute. Qed.

(** ** Product types *)

(** Loading the product types always ends, whatever the service answers: a page
    that is empty, says it is the last or brings the list to ten thousand stops the
    loop, so at most ten thousand pages are read. *)
Theorem product_type_loading_ends {T} (productTypes : Z -> list T * bool * option Z) :
  is_Some (loadLiveProductTypes productTypes).
Proof.
  unfold loadLiveProductTypes.
  assert (H : forall fuel offset out, 1 <= Z.of_nat fuel -> 10000 - Z.of_nat (length out) <= Z.of_nat fuel ->
              is_Some (load_types productTypes fuel offset out)).
  { induction fuel as [|fuel IH]; intros offset out H1 H2; [lia|]. cbn [load_types].
    destruct (productTypes offset) as [[items more] [next|]]; [|by eexists].
    destruct more; [|by eexists]. destruct items as [|t items]; [by eexists|]. cbn [andb negb Nat.eqb length].
    destruct (Z.ltb_spec (Z.of_nat (length (out ++ t :: items))) 10000) as [Hl|]; [|by eexists].
    rewrite length_app in Hl. cbn [length] in Hl. apply IH; [lia|]. rewrite length_app. cbn [length]. lia. }
  apply H; cbn [length]; lia.
Qed.

(** ** Items *)

Lemma unit_fields_ok f x : unit_fields f = inr x ->
  nlt (x_qty x) (ofZ 1) = false /\ sall is_digit (trim (uf_qty f)) = true /\ x_qty x = str_num (trim (uf_qty f)) /\
  (forall c, x_cost x = Some c -> nge (parseFloat (trim (uf_cost f))) n0 = true).
Proof.
  unfold unit_fields. destruct (String.eqb (trim (uf_qty f)) ""); [done|]. destruct (sall is_digit (trim (uf_qty f))) eqn:Ed; [|done].
  destruct (nlt (str_num (trim (uf_qty f))) (ofZ 1)) eqn:Eq; [done|]. cbn [orb negb].
  destruct (String.eqb (trim (uf_cost f)) "") eqn:Ec; cbn [negb andb].
  - intros [= <-]. done.
  - destruct (nge (parseFloat (trim (uf_cost f))) n0) eqn:Ep; [|done]. intros [= <-]. done.
Qed.

(** What the item sheet sends live is a whole item: the quantity is a row of
    digits worth at least one, a cost is a number from zero up, the type is one of
    the types loaded or the item's own, the licence fields of anything but software
    are cleared and those of software passed their checks, and the type is sent
    exactly when the item is new or changes it. *)
Theorem item_sheet_sends_a_whole_item types editing unit_type f x lb pt :
  unit_submit true types editing unit_type f = ULive x lb pt ->
  (sall is_digit (trim (uf_qty f)) = true /\ x_qty x = str_num (trim (uf_qty f)) /\ nlt (x_qty x) (ofZ 1) = false) /\
  (forall c, x_cost x = Some c -> nge (parseFloat (trim (uf_cost f))) n0 = true) /\
  exists t, chosenType types unit_type (uf_type f) = Some t /\ uf_type f = Some (pt_id t) /\
    (t ∈ default [] types \/ unit_type = Some t) /\
    (pt_kind t <> "software" -> lb = no_licence) /\
    (pt_kind t = "software" -> licenceBody (uf_licence f) true = inr lb) /\
    pt = (if editing && bool_decide (pt_id <$> unit_type = Some (pt_id t)) then None else Some (pt_id t)).
Proof.
  unfold unit_submit. destruct (unit_fields f) as [e|x0] eqn:Ef; [done|]. cbn [negb].
  destruct (chosenType types unit_type (uf_type f)) as [t|] eqn:Et; [|by destruct types].
  destruct (licenceBody (uf_licence f) (String.eqb (pt_kind t) "software")) as [e|lb0] eqn:El; [done|]. intros [= <- <- <-].
  apply unit_fields_ok in Ef as (H1 & H2 & H3 & H4). split; [done|]. split; [done|]. exists t. split; [done|].
  unfold chosenType in Et. destruct (uf_type f) as [i|]; [|done].
  assert (Hid : i = pt_id t /\ (t ∈ default [] types \/ unit_type = Some t)).
  { destruct (find _ _) as [t0|] eqn:Efd; [injection Et as ->; apply find_some in Efd as [Hin Hid%Z.eqb_eq]; split; [done|left; by apply list_elem_of_In]|].
    destruct unit_type as [t0|]; [|done]. destruct (Z.eqb_spec (pt_id t0) i); [|done]. injection Et as ->. auto. }
  destruct Hid as [-> Hin]. split; [done|]. split; [done|]. split; [|split].
  - intros Hk. destruct (String.eqb_spec (pt_kind t) "software"); [done|]. cbn in El. congruence.
  - intros Hk. by rewrite Hk in El.
  - rewrite (bool_decide_ext _ (pt_id <$> unit_type = Some (pt_id t))) by naive_solver. by destruct editing, (bool_decide _).
Qed.

Definition demo_form : uform :=
  UForm (Some 5) 0 "S-1" "" None "" " 2 " "12.50" "in_stock" None "" (Licence "" "" "" None).

Lemma item_sheet_sends_a_whole_item_witness :
  exists x, unit_submit true (Some [PType 5 "hardware" false]) false None demo_form = ULive x no_licence (Some 5) /\ nlt (x_qty x) (ofZ 1) = false.
Proof.
  eexists. assert (H : unit_submit true (Some [PType 5 "hardware" false]) false None demo_form =
    ULive (UFields (Some "S-1") None None None (str_num "2") (Some (ofZ 1250)) "in_stock" None None) no_licence (Some 5)) by (vm_compute; reflexivity).
  split; [exact H|]. apply (item_sheet_sends_a_whole_item _ _ _ _ _ _ _ H).
Defined.

(** *** Costs *)

(** Cents through the sheet's text and back. *)
Definition cost_back (cents : Z) : bool := nequ (nround (nmul (parseFloat (cost_text cents)) (ofZ 100))) (ofZ cents).

(** Reopening an item and saving it keeps its cost, for every cost below 20.00:
    the cents written with two decimals are read back as the same cents, although
    the product with 100 is rounded in between. *)
Theorem cost_survives_the_sheet (cents : Z) : 0 <= cents < 2000 -> cost_back cents = true.
Proof.
  intros H. assert (Hall : forallb cost_back (seqZ 0 2000) = true) by (vm_compute; reflexivity).
  rewrite forallb_forall in Hall. apply Hall, list_elem_of_In, elem_of_seqZ. lia.
Qed.

(** *** The offline working copy *)

(** What the sheet hands over for a new item: the draft carries an [id] key whose
    value is [undefined]. *)
Definition new_unit_draft (model : Z) (x : ufields) : list (string * value) := unit_draft VUndef model x.

(** An item added offline has no id: the draft's [id: undefined] overwrites the one
    [nextId] chose.  Editing one such item then changes them all, because
    [undefined === undefined]. *)
Theorem offline_items_share_no_id (w : working) (m1 m2 m3 : Z) (x1 x2 x3 : ufields) :
  let w2 := saveUnit (saveUnit w (new_unit_draft m1 x1) false) (new_unit_draft m2 x2) false in
  let w3 := saveUnit w2 (unit_draft VUndef m3 x3) true in
  exists r1 r2 s1 s2,
    w_units w2 = w_units w ++ [r1; r2] /\ row_id r1 = VUndef /\ row_id r2 = VUndef /\
    drop (length (w_units w)) (w_units w3) = [s1; s2] /\
    fld s1 "model_id" = vz m3 /\ fld s2 "model_id" = vz m3.
Proof.
  cbn [saveUnit w_units save_row]. set (n1 := VNum (nextId (w_units w))). set (n2 := VNum (nextId _)).
  exists (VObj (assign [("id", n1)] (new_unit_draft m1 x1))), (VObj (assign [("id", n2)] (new_unit_draft m2 x2))). do 2 eexists.
  split; [by rewrite <- app_assoc|]. split; [done|]. split; [done|].
  rewrite <- app_assoc, map_app, drop_app_length' by (by rewrite length_map). split; [done|]. done.
Qed.
