(* ===== verification/FleetUpdates.v ===== *)
(** * Fleet updates, deployment and static allocation (screens3.jsx, Provisioning)

    The page starts a run of operating system updates, follows its log until the run
    ends or goes quiet, and picks it up again after a reload; the log is written by
    deploy/fleet/fleet-updates.py and read by [parseUpdateLog].  Beside it stand the
    review of networks for static allocation, the deployment of a client with its log
    and the enrollment list. *)

From Stdlib Require Import ZArith Lia Ascii.
From stdpp Require Import strings list pretty.
From S2P Require Import Prelude JsValue Catalog ProvSpec InvForms.

Local Open Scope string_scope.
Local Open Scope list_scope.
Local Open Scope Z_scope.

(** ** Reading a line *)

Definition after (p s : string) : option string := if starts_with p s then Some (sdrop (String.length p) s) else None.

(** A capture of one or more such characters. *)
Definition capture (ok : ascii -> bool) (s : string) : option (string * string) :=
  let '(a, b) := span ok s in if String.eqb a "" then None else Some (a, b).

Definition nonspace (c : ascii) : bool := negb (is_ws c).
Definition not_colon (c : ascii) : bool := negb (Ascii.eqb c ":").
Definition carriage : ascii := Ascii.ascii_of_nat 13.
Definition in_line (c : ascii) : bool := negb (Ascii.eqb c newline || Ascii.eqb c carriage).

Record pending := Pending { p_host : string; p_count : Z; p_added : Z; p_removed : Z }.
Record skip := Skip { s_host : string; s_reason : string }.
Record outcome := Outcome { o_host : string; o_status : string; o_reboot : string }.

Definition number (d : string) : Z := dec_val 0 (chars d).

(** [/^PENDING (\S+) count=(\d+) new=(\d+) remove=(\d+)/] *)
Definition read_pending (line : string) : option pending :=
  r ← after "PENDING " line; '(h, r) ← capture nonspace r;
  r ← after " count=" r; '(c, r) ← capture is_digit r;
  r ← after " new=" r; '(n, r) ← capture is_digit r;
  r ← after " remove=" r; '(m, _) ← capture is_digit r;
  Some (Pending h (number c) (number n) (number m)).

(** [SKIPPED host: reason], the host up to the first colon. *)
Definition read_skipped (line : string) : option skip :=
  r ← after "SKIPPED " line; '(h, r) ← capture not_colon r;
  r ← after ": " r; Some (Skip h (span in_line r).1).

(** [/^RESULT (\S+) status=(\S+) reboot_required=(\S+)/] *)
Definition read_result (line : string) : option outcome :=
  r ← after "RESULT " line; '(h, r) ← capture nonspace r;
  r ← after " status=" r; '(s, r) ← capture nonspace r;
  r ← after " reboot_required=" r; '(b, _) ← capture nonspace r;
  Some (Outcome h s b).

(** ** Reading the log *)

Fixpoint strip_cr (s : string) : string :=
  match s with
  | EmptyString => EmptyString
  | String c EmptyString => if Ascii.eqb c carriage then EmptyString else s
  | String c r => String c (strip_cr r)
  end.

(** [split(/\r?\n/)]: the carriage return goes with the line feed it stands before. *)
Fixpoint strip_all_but_last (ls : list string) : list string :=
  match ls with
  | [] => []
  | [l] => [l]
  | l :: ls => strip_cr l :: strip_all_but_last ls
  end.

Definition log_lines (s : string) : list string := strip_all_but_last (split_char newline s).

(** [/^FLEET_UPDATES exit=\d+/m]. *)
Definition exit_here (s : string) : bool :=
  match after "FLEET_UPDATES exit=" s with Some (String c _) => is_digit c | _ => false end.

Fixpoint exit_from (bol : bool) (s : string) : bool :=
  (bol && exit_here s) || match s with EmptyString => false | String c r => exit_from (negb (in_line c)) r end.

Record parsed := Parsed { g_pending : list pending; g_skipped : list skip; g_results : list outcome; g_finished : bool }.

Definition parseUpdateLog (log : string) : parsed :=
  let ls := log_lines log in
  Parsed (omap read_pending ls) (omap read_skipped ls) (omap read_result ls) (exit_from true log).

(** ** Following a run *)

Inductive umode := Check | Apply.

#[global] Instance umode_eq_dec : EqDecision umode.
Proof. solve_decision. Defined.

Definition UPDATES_QUIET_MS : Z := 65 * 60 * 1000.

(** The run that is polled: its name, mode, and the length and time of the last
    change of its log. *)
Record follow := Follow { f_run : string; f_mode : umode; f_len : Z; f_at : Z }.

Record upage := UPage { u_log : string; u_parsed : parsed; u_busy : bool; u_mode : option umode; u_checked : bool;
                        u_starting : option umode; u_follow : option follow; u_saved : option follow }.

Definition nothing_parsed : parsed := Parsed [] [] [] false.

(** A page just loaded: what is saved is followed. *)
Definition mount (saved : option follow) : upage :=
  match saved with
  | Some f => UPage "" nothing_parsed true (Some (f_mode f)) false None (Some f) saved
  | None => UPage "" nothing_parsed false None false None None None
  end.

Inductive uevent :=
  | Click (m : umode) (confirmed : bool)
  | Started (run : string) (now : Z)
  | StartFailed (message : string)
  | LogRead (log : string) (now : Z)
  | LogFailed (now : Z)
  | Reload.

(** [startUpdates]; the request it sends, if any. *)
Definition startUpdates (m : umode) (confirmed : bool) (u : upage) : upage * option umode :=
  if bool_decide (m = Apply) && negb confirmed then (u, None)
  else
    let p := u_parsed u in
    (UPage (match m with Check => "Starting update check…" | Apply => "Starting update run…" end)
       (match m with Check => Parsed [] [] [] (g_finished p) | Apply => Parsed (g_pending p) (g_skipped p) [] (g_finished p) end)
       true (Some m) (match m with Check => false | Apply => u_checked u end) (Some m) (u_follow u) (u_saved u), Some m).

(** [again]: keep polling while the log was not quiet for too long. *)
Definition again (now : Z) (f : follow) (u : upage) : upage :=
  if now - f_at f <=? UPDATES_QUIET_MS
  then UPage (u_log u) (u_parsed u) (u_busy u) (u_mode u) (u_checked u) (u_starting u) (Some f) (u_saved u)
  else UPage (u_log u) (u_parsed u) false (u_mode u) (u_checked u) (u_starting u) None None.

Definition log_read (log : string) (now : Z) (f : follow) (u : upage) : upage :=
  let p := parseUpdateLog log in
  let n := Z.of_nat (String.length log) in
  let f' := if n =? f_len f then f else Follow (f_run f) (f_mode f) n now in
  let saved := if n =? f_len f then u_saved u else Some f' in
  if g_finished p
  then UPage log p false (u_mode u) (match f_mode f with Check => true | Apply => u_checked u end) (u_starting u) None None
  else again now f' (UPage log p (u_busy u) (u_mode u) (u_checked u) (u_starting u) (u_follow u) saved).

(** The buttons are off while [u_busy]; applying also needs a finished check. *)
Definition enabled (m : umode) (u : upage) : bool :=
  negb (u_busy u) && match m with Check => true | Apply => u_checked u end.

Definition ustep (u : upage) (e : uevent) : upage * option umode :=
  match e with
  | Click m c => if enabled m u then startUpdates m c u else (u, None)
  | Started run now =>
      match u_starting u with
      | Some m => let f := Follow run m (-1) now in
                  (UPage (u_log u) (u_parsed u) (u_busy u) (u_mode u) (u_checked u) None (Some f) (Some f), None)
      | None => (u, None)
      end
  | StartFailed msg =>
      match u_starting u with
      | Some _ => (UPage ("Could not start: " +:+ msg) (u_parsed u) false (u_mode u) (u_checked u) None (u_follow u) (u_saved u), None)
      | None => (u, None)
      end
  | LogRead log now => (match u_follow u with Some f => log_read log now f u | None => u end, None)
  | LogFailed now => (match u_follow u with Some f => again now f u | None => u end, None)
  | Reload => (mount (u_saved u), None)
  end.

Fixpoint urun (u : upage) (es : list uevent) : upage :=
  match es with [] => u | e :: es => urun (ustep u e).1 es end.

(** ** Networks for static allocation *)

Record network := Network { n_enabled : bool; n_eligible : bool; n_subnets : Z; n_overlaps : list string }.

Inductive tone := Blocked | Approved | Ready.

#[global] Instance tone_eq_dec : EqDecision tone.
Proof. solve_decision. Defined.

Definition allocationReadiness (canOp : bool) (n : network) : string * tone * string :=
  if negb (n_enabled n)
  then (if n_eligible n then "Approval needs review" else "Disabled at source", Blocked,
        if n_eligible n
        then "An approval is recorded, but this network is disabled at source. Review and revoke the approval."
        else "Enable this network at its source before approving static allocation.")
  else if negb (n_subnets n =? 1)
  then (if n_eligible n then "Approval needs review" else "Blocked · subnet data", Blocked,
        "Approval requires exactly one live IPv4 subnet; this network has " +:+ pretty (n_subnets n) +:+ ".")
  else match n_overlaps n with
  | _ :: _ =>
      (if n_eligible n then "Approval needs review" else "Blocked · prefix overlap", Blocked,
       (if n_eligible n then "An approval is recorded, but " else "") +:+ "these live prefixes overlap: " +:+
       String.concat ", " (n_overlaps n) +:+ ". Reconcile the SoR prefixes first.")
  | [] =>
      if n_eligible n then ("Approved", Approved, "Approved for static address allocation.")
      else (if canOp then "Ready to approve" else "Operator approval required", Ready,
            if canOp then "One live IPv4 subnet and no overlapping SoR prefixes. Approval changes the SoR only; source changes revoke it."
            else "This network meets the SoR checks. An operator must approve static allocation.")
  end.

Definition label_of (canOp : bool) (n : network) : string := (allocationReadiness canOp n).1.1.

Definition eligibleCount (canOp : bool) (l : list network) : Z :=
  Z.of_nat (length (List.filter (fun n => String.eqb (label_of canOp n) "Approved") l)).
Definition readyCount (canOp : bool) (l : list network) : Z :=
  Z.of_nat (length (List.filter (fun n => String.eqb (label_of canOp n) "Ready to approve" || String.eqb (label_of canOp n) "Operator approval required") l)).
Definition blockedCount (canOp : bool) (l : list network) : Z :=
  Z.of_nat (length l) - eligibleCount canOp l - readyCount canOp l.

(** ** Deploying a client *)

(** [replace(/\x1b\[[0-9;]*m/g, "")]. *)
Definition escape : ascii := Ascii.ascii_of_nat 27.
Definition sgr_char (c : ascii) : bool := is_digit c || Ascii.eqb c ";".

Definition sgr_length (s : string) : option nat :=
  match s with
  | String e (String b r) =>
      if Ascii.eqb e escape && Ascii.eqb b "[" then
        let '(a, t) := span sgr_char r in
        match t with String m _ => if Ascii.eqb m "m" then Some (String.length a + 3)%nat else None | EmptyString => None end
      else None
  | _ => None
  end.

Fixpoint strip_sgr (skip : nat) (s : string) : string :=
  match s with
  | EmptyString => EmptyString
  | String c r =>
      match skip with
      | S k => strip_sgr k r
      | O => match sgr_length s with Some n => strip_sgr (n - 1) r | None => String c (strip_sgr O r) end
      end
  end.

Definition stripAnsi (s : string) : string := strip_sgr O s.

(** What a poll answers: the log, and whether the job is done or failed. *)
Inductive poll := Poll (log : string) (done failed : bool) | PollError.

Inductive deploy_end := Done | FailedJob | GaveUp | Lost.

(** [pollLog] from a number of tries on, over the answers to come: how it ends, and
    after how many polls. *)
Fixpoint pollLog (limit : Z) (answers : nat -> poll) (fuel : nat) (tries : Z) (n : nat) : option (deploy_end * nat) :=
  match fuel with
  | O => None
  | S fuel =>
      match answers n with
      | PollError => Some (Lost, S n)
      | Poll _ done failed =>
          if done then Some (Done, S n)
          else if failed then Some (FailedJob, S n)
          else if limit <? tries then Some (GaveUp, S n)
          else pollLog limit answers fuel (tries + 1) (S n)
      end
  end.

Definition deploy_limit : Z := 60.
Definition provision_limit : Z := 200.

Definition host_char (extra : string) (c : ascii) : bool := alnum c || existsb (Ascii.eqb c) (chars extra).

Definition name_ok (extra : string) (limit : nat) (s : string) : bool :=
  negb (String.eqb s "") && (String.length s <=? limit)%nat && sall (host_char extra) s.

Record deploy_body := DeployBody { d_host : string; d_server : option string }.

Definition deploy (host server : string) : option deploy_body :=
  let h := trim host in
  if name_ok "._@-" 120 h then Some (DeployBody h (some_text (trim server))) else None.

Record provision_body := ProvisionBody { v_hostname : string; v_arch : string; v_distro : string; v_role : string; v_profile : string; v_target : option string }.

Definition provisionSubmit (image : bool) (hostname target arch distro role profile : string) : option provision_body :=
  let h := trim hostname in
  if negb (name_ok "._-" 160 h) then None
  else if image then Some (ProvisionBody h arch distro role profile None)
  else if name_ok "._:@-" 120 (trim target) then Some (ProvisionBody h arch distro role profile (Some (trim target)))
  else None.

(** ** Enrollments *)

Record enrollment := Enrollment { e_id : option Z; e_host : string; e_role : string }.

(** Offline the row leaves the list at once; live it stays until the model says so. *)
Definition decide_enrollment (live : bool) (e : enrollment) (l : list enrollment) : list enrollment * option Z :=
  match live, e_id e with
  | true, Some i => (l, Some i)
  | _, _ => (List.filter (fun x => negb (String.eqb (e_host x) (e_host e))) l, None)
  end.

(** ** The log as it is written *)

(** What fleet-updates.py prints, a line at a time; [WOther] is any line that is not
    for the dashboard. *)
Inductive entry :=
  | WPending (p : pending)
  | WSkipped (s : skip)
  | WResult (o : outcome)
  | WExit (code : Z)
  | WOther (text : string).

Definition print (e : entry) : string :=
  match e with
  | WPending p => "PENDING " +:+ p_host p +:+ " count=" +:+ pretty (p_count p) +:+ " new=" +:+ pretty (p_added p) +:+ " remove=" +:+ pretty (p_removed p)
  | WSkipped s => "SKIPPED " +:+ s_host s +:+ ": " +:+ s_reason s
  | WResult o => "RESULT " +:+ o_host o +:+ " status=" +:+ o_status o +:+ " reboot_required=" +:+ o_reboot o
  | WExit n => "FLEET_UPDATES exit=" +:+ pretty n
  | WOther t => t
  end.

Fixpoint print_log (es : list entry) : string :=
  match es with [] => "" | e :: es => print e +:+ String newline (print_log es) end.

(** Host names have neither white space nor a colon, counts are not negative, and a
    text stays on its line. *)
Definition word (s : string) : Prop := s <> "" /\ sall nonspace s = true /\ sall not_colon s = true.

Definition writable (e : entry) : Prop :=
  match e with
  | WPending p => word (p_host p) /\ 0 <= p_count p /\ 0 <= p_added p /\ 0 <= p_removed p
  | WSkipped s => word (s_host s) /\ sall in_line (s_reason s) = true
  | WResult o => word (o_host o) /\ word (o_status o) /\ word (o_reboot o)
  | WExit n => 0 <= n
  | WOther t => sall in_line t = true /\ starts_with "PENDING " t = false /\ starts_with "SKIPPED " t = false /\
                starts_with "RESULT " t = false /\ exit_here t = false
  end.

Definition pendings (es : list entry) : list pending := omap (fun e => match e with WPending p => Some p | _ => None end) es.
Definition skips (es : list entry) : list skip := omap (fun e => match e with WSkipped s => Some s | _ => None end) es.
Definition results (es : list entry) : list outcome := omap (fun e => match e with WResult o => Some o | _ => None end) es.
Definition exited (es : list entry) : bool := existsb (fun e => match e with WExit _ => true | _ => false end) es.

(** *** Reading back *)

Lemma starts_with_app p s : starts_with p (p +:+ s) = true.
Proof. induction p as [|c p IH]; [done|]. change (Ascii.eqb c c && starts_with p (p +:+ s) = true). by rewrite Ascii.eqb_refl, IH. Qed.

Lemma sdrop_app p s : sdrop (String.length p) (p +:+ s) = s.
Proof. induction p as [|c p IH]; [done|]. exact IH. Qed.

Lemma after_app p s : after p (p +:+ s) = Some s.
Proof. unfold after. by rewrite starts_with_app, sdrop_app. Qed.

Definition stops (ok : ascii -> bool) (s : string) : Prop := match s with EmptyString => True | String c _ => ok c = false end.

Lemma span_takes ok a b : sall ok a = true -> stops ok b -> span ok (a +:+ b) = (a, b).
Proof.
  induction a as [|c a IH]; intros Ha Hb.
  - change (span ok b = ("", b)). destruct b as [|c b]; [done|]. cbn in *. by rewrite Hb.
  - cbn [sall] in Ha. apply andb_true_iff in Ha as [Hc Ha]. change (String c a +:+ b) with (String c (a +:+ b)). cbn [span].
    rewrite Hc, IH by done. done.
Qed.

Lemma capture_app ok a b : a <> "" -> sall ok a = true -> stops ok b -> capture ok (a +:+ b) = Some (a, b).
Proof. intros Hn Ha Hb. unfold capture. rewrite span_takes by done. by destruct (String.eqb_spec a ""). Qed.

Lemma capture_all ok a : a <> "" -> sall ok a = true -> capture ok a = Some (a, "").
Proof. intros Hn Ha. rewrite <- (string_app_nil_r a) at 1. by apply capture_app. Qed.

Lemma pretty_digits n : 0 <= n -> pretty n <> "" /\ sall is_digit (pretty n) = true /\ number (pretty n) = n.
Proof.
  intros Hn. destruct (Z.eq_dec n 0) as [->|Hz]; [done|].
  assert (E : pretty n = pretty_N_go (Z.to_N n) "") by (destruct n as [|p|p]; try lia; done). unfold number. rewrite E.
  split; [|split; [by rewrite digits_N_go|rewrite dec_val_N_go; cbn; lia]].
  intros E0. pose proof (head_N_go (Z.to_N n) "" ltac:(lia)) as Hh. by rewrite E0 in Hh.
Qed.

Lemma read_pending_print p : writable (WPending p) -> read_pending (print (WPending p)) = Some p.
Proof.
  intros ((Hn & Hs & _) & Hc & Ha & Hr). destruct p as [h c a r]. cbn [p_host p_count p_added p_removed] in *.
  destruct (pretty_digits c Hc) as (C1 & C2 & C3), (pretty_digits a Ha) as (A1 & A2 & A3), (pretty_digits r Hr) as (R1 & R2 & R3).
  unfold read_pending, print. cbn [p_host p_count p_added p_removed].
  rewrite after_app. cbn [mbind option_bind]. rewrite capture_app by done. cbn [mbind option_bind].
  rewrite after_app. cbn [mbind option_bind]. rewrite capture_app by done. cbn [mbind option_bind].
  rewrite after_app. cbn [mbind option_bind]. rewrite capture_app by done. cbn [mbind option_bind].
  rewrite after_app. cbn [mbind option_bind]. rewrite capture_all by done. cbn [mbind option_bind]. by rewrite C3, A3, R3.
Qed.

Lemma read_skipped_print s : writable (WSkipped s) -> read_skipped (print (WSkipped s)) = Some s.
Proof.
  intros ((Hn & _ & Hc) & Hr). destruct s as [h r]. cbn in Hn, Hc, Hr. unfold read_skipped, print. cbn [s_host s_reason].
  rewrite after_app. cbn [mbind option_bind]. rewrite capture_app by done. cbn [mbind option_bind].
  rewrite after_app. cbn [mbind option_bind]. rewrite <- (string_app_nil_r r), span_takes, string_app_nil_r by done. done.
Qed.

Lemma read_result_print o : writable (WResult o) -> read_result (print (WResult o)) = Some o.
Proof.
  intros ((Hn & Hs & _) & (Sn & Ss & _) & (Rn & Rs & _)). destruct o as [h s r]. cbn in *. unfold read_result, print. cbn [o_host o_status o_reboot].
  rewrite after_app. cbn [mbind option_bind]. rewrite capture_app by done. cbn [mbind option_bind].
  rewrite after_app. cbn [mbind option_bind]. rewrite capture_app by done. cbn [mbind option_bind].
  rewrite after_app. cbn [mbind option_bind]. rewrite capture_all by done. done.
Qed.

Lemma after_none p s : starts_with p s = false -> after p s = None.
Proof. unfold after. by intros ->. Qed.

Lemma read_pending_line e : writable e -> read_pending (print e) = match e with WPending p => Some p | _ => None end.
Proof.
  destruct e as [p|s|o|n|t]; intros Hw; [by apply read_pending_print|done|done|done|].
  destruct Hw as (_ & H & _). unfold read_pending. cbn [print]. by rewrite after_none.
Qed.

Lemma read_skipped_line e : writable e -> read_skipped (print e) = match e with WSkipped s => Some s | _ => None end.
Proof.
  destruct e as [p|s|o|n|t]; intros Hw; [done|by apply read_skipped_print|done|done|].
  destruct Hw as (_ & _ & H & _). unfold read_skipped. cbn [print]. by rewrite after_none.
Qed.

Lemma read_result_line e : writable e -> read_result (print e) = match e with WResult o => Some o | _ => None end.
Proof.
  destruct e as [p|s|o|n|t]; intros Hw; [done|done|by apply read_result_print|done|].
  destruct Hw as (_ & _ & _ & H & _). unfold read_result. cbn [print]. by rewrite after_none.
Qed.

Lemma exit_line e : writable e -> exit_here (print e) = match e with WExit _ => true | _ => false end.
Proof.
  destruct e as [p|s|o|n|t]; intros Hw; [done|done|done| |by apply Hw].
  unfold exit_here. cbn [print]. rewrite after_app. destruct (pretty_digits n Hw) as (Hn & Hd & _).
  destruct (pretty n) as [|c r]; [done|]. cbn in Hd. by apply andb_true_iff in Hd as [-> _].
Qed.

Lemma sall_mono (p q : ascii -> bool) s : (forall c, p c = true -> q c = true) -> sall p s = true -> sall q s = true.
Proof. intros H. induction s as [|c s IH]; [done|]. cbn [sall]. rewrite !andb_true_iff. intros [? ?]. auto. Qed.

Lemma nonspace_in_line s : sall nonspace s = true -> sall in_line s = true.
Proof. apply sall_mono. intros c. by destruct c as [[] [] [] [] [] [] [] []]. Qed.

Lemma digit_in_line s : sall is_digit s = true -> sall in_line s = true.
Proof. apply sall_mono. intros c. by destruct c as [[] [] [] [] [] [] [] []]. Qed.

Lemma number_in_line n : 0 <= n -> sall in_line (pretty n) = true.
Proof. intros H. by apply digit_in_line, pretty_digits. Qed.

Lemma print_in_line e : writable e -> sall in_line (print e) = true.
Proof.
  destruct e as [p|s|o|n|t]; cbn [writable print].
  - intros ((_ & Hs & _) & Hc & Ha & Hr). rewrite !sall_app, (number_in_line (p_count p)), (number_in_line (p_added p)), (number_in_line (p_removed p)), (nonspace_in_line (p_host p)) by done. done.
  - intros ((_ & Hs & _) & Hr). by rewrite !sall_app, Hr, (nonspace_in_line (s_host s)).
  - intros ((_ & H1 & _) & (_ & H2 & _) & (_ & H3 & _)). by rewrite !sall_app, (nonspace_in_line (o_host o)), (nonspace_in_line (o_status o)), (nonspace_in_line (o_reboot o)).
  - intros Hn. by rewrite sall_app, (number_in_line n).
  - by intros [H _].
Qed.

Lemma in_line_no_sep s : sall in_line s = true -> no_sep newline s.
Proof. apply sall_mono. intros c. unfold in_line. rewrite negb_orb. by intros [H _]%andb_true_iff. Qed.

Lemma strip_cr_id s : sall in_line s = true -> strip_cr s = s.
Proof.
  induction s as [|c s IH]; [done|]. cbn [sall]. intros [Hc Hs]%andb_true_iff. destruct s as [|d s].
  - cbn. unfold in_line in Hc. rewrite negb_orb in Hc. apply andb_true_iff in Hc as [_ Hc%negb_true_iff]. by rewrite Hc.
  - cbn [strip_cr]. f_equal. by apply IH.
Qed.

Lemma log_lines_print es : Forall writable es -> log_lines (print_log es) = map print es ++ [""].
Proof.
  intros Hw. unfold log_lines. induction Hw as [|e es He Hw IH]; [done|]. cbn [print_log map app].
  rewrite split_app by (by apply in_line_no_sep, print_in_line).
  pose proof (split_nonnil newline (print_log es)) as Hne. destruct (split_char newline (print_log es)) as [|x ls] eqn:E; [done|].
  change (strip_cr (print e) :: strip_all_but_last (x :: ls) = print e :: map print es ++ [""]). by rewrite IH, strip_cr_id by (by apply print_in_line).
Qed.

(** An exit line is recognised on its own line and not across a line feed. *)
Lemma starts_with_line p l r : sall in_line p = true -> starts_with p (l +:+ String newline r) = starts_with p l.
Proof.
  revert l. induction p as [|c p IH]; intros l Hp; [done|]. cbn [sall] in Hp. apply andb_true_iff in Hp as [Hc Hp]. destruct l as [|d l].
  - change (Ascii.eqb c newline && starts_with p r = false). unfold in_line in Hc. rewrite negb_orb in Hc.
    apply andb_true_iff in Hc as [Hc%negb_true_iff _]. by rewrite Hc.
  - change (Ascii.eqb c d && starts_with p (l +:+ String newline r) = Ascii.eqb c d && starts_with p l). by rewrite IH.
Qed.

Lemma sdrop_line n l r : (n <= String.length l)%nat -> sdrop n (l +:+ String newline r) = sdrop n l +:+ String newline r.
Proof.
  revert l. induction n as [|n IH]; intros l H; [by destruct l|]. destruct l as [|c l]; [cbn in H; lia|].
  cbn in H. exact (IH l ltac:(lia)).
Qed.

Lemma starts_with_length p s : starts_with p s = true -> (String.length p <= String.length s)%nat.
Proof.
  revert s. induction p as [|c p IH]; intros [|d s]; cbn; [lia|lia|done|]. intros [_ H]%andb_true_iff. apply IH in H. lia.
Qed.

Lemma exit_here_line l r : exit_here (l +:+ String newline r) = exit_here l.
Proof.
  unfold exit_here, after. rewrite starts_with_line by done. destruct (starts_with _ l) eqn:E; [|done].
  rewrite sdrop_line by (by apply starts_with_length). by destruct (sdrop _ l).
Qed.

Lemma exit_from_line l r : sall in_line l = true -> exit_from true (l +:+ String newline r) = exit_here l || exit_from true r.
Proof.
  intros Hl. assert (H : forall s, sall in_line s = true -> exit_from false (s +:+ String newline r) = exit_from true r).
  { induction s as [|c s IH]; intros Hs; [done|]. cbn [sall] in Hs. apply andb_true_iff in Hs as [Hc Hs].
    change (exit_from false (String c (s +:+ String newline r)) = exit_from true r). cbn [exit_from andb orb]. rewrite Hc. cbn [negb]. by apply IH. }
  rewrite <- exit_here_line with (r := r). destruct l as [|c l]; [done|]. cbn [sall] in Hl. apply andb_true_iff in Hl as [Hc Hl].
  change (String c l +:+ String newline r) with (String c (l +:+ String newline r)). cbn [exit_from andb]. rewrite Hc. cbn [negb]. by rewrite H.
Qed.

(** The dashboard reads back what the update runner writes.  For any sequence of
    lines in the format of fleet-updates.py, with host names of no white space or
    colon and any other output between them, the parsed log lists exactly the pending,
    skipped and result records in their order, and says finished exactly when the exit
    line has been written. *)
Theorem update_log_round_trip (es : list entry) :
  Forall writable es -> parseUpdateLog (print_log es) = Parsed (pendings es) (skips es) (results es) (exited es).
Proof.
  intros Hw. unfold parseUpdateLog. rewrite log_lines_print by done.
  assert (Ho : forall (B : Type) (f : string -> option B) (g : entry -> option B), f "" = None ->
    (forall e, writable e -> f (print e) = g e) -> omap f (map print es ++ [""]) = omap g es).
  { intros B f g H0 H. rewrite omap_app. cbn. rewrite H0, app_nil_r. clear H0. induction Hw as [|e es He Hw IH]; [done|]. cbn. rewrite H by done.
    destruct (g e); by rewrite IH. }
  f_equal.
  - apply Ho; [done|apply read_pending_line].
  - apply Ho; [done|apply read_skipped_line].
  - apply Ho; [done|apply read_result_line].
  - clear Ho. induction Hw as [|e es He Hw IH]; [done|]. cbn [print_log]. rewrite exit_from_line by (by apply print_in_line).
    rewrite IH, exit_line by done. done.
Qed.

Definition demo_log : list entry :=
  [WOther "HOST steel.akoria.net"; WPending (Pending "steel.akoria.net" 12 1 0); WSkipped (Skip "xenon.akoria.net" "unreachable"); WExit 0].

Lemma update_log_round_trip_witness :
  parseUpdateLog (print_log demo_log) = Parsed [Pending "steel.akoria.net" 12 1 0] [Skip "xenon.akoria.net" "unreachable"] [] true.
Proof. apply (update_log_round_trip demo_log). repeat constructor; cbn; done || lia. Defined.

(** ** Following a run: properties *)

Definition some_b {A} (o : option A) : bool := match o with Some _ => true | None => false end.

Record uinv (u : upage) : Prop := UInv {
  i_saved : u_follow u = u_saved u;
  i_busy : u_busy u = some_b (u_follow u) || some_b (u_starting u);
  i_one : some_b (u_follow u) && some_b (u_starting u) = false }.

Lemma mount_inv saved : uinv (mount saved).
Proof. by destruct saved. Qed.

Lemma again_inv now f u : u_starting u = None -> u_saved u = Some f -> u_busy u = true -> uinv (again now f u).
Proof. intros Hs Hv Hb. unfold again. destruct (_ <=? _); constructor; cbn; by rewrite ?Hs, ?Hv, ?Hb. Qed.

Lemma ustep_inv u e : uinv u -> uinv (ustep u e).1.
Proof.
  intros Hu. pose proof Hu as [Hs Hb Ho]. destruct e as [m c|run now|msg|log now|now|]; cbn.
  - unfold enabled. destruct (u_busy u); [exact Hu|]. symmetry in Hb. apply orb_false_iff in Hb as [Hf Hst].
    destruct (match m with Check => true | Apply => u_checked u end); cbn; [|exact Hu].
    unfold startUpdates. destruct (bool_decide (m = Apply) && negb c); cbn; [exact Hu|].
    constructor; cbn; [done|by rewrite Hf|by rewrite Hf].
  - destruct (u_starting u) as [m|]; cbn; [|exact Hu]. constructor; cbn; [done| |done].
    rewrite Hb. cbn. by rewrite orb_true_r.
  - destruct (u_starting u) as [m|]; cbn; [|exact Hu]. cbn in Ho. rewrite andb_true_r in Ho.
    constructor; cbn; [done|by rewrite Ho|by rewrite Ho].
  - destruct (u_follow u) as [f|]; [|exact Hu]. cbn in Ho, Hb.
    assert (Hst : u_starting u = None) by (by destruct (u_starting u)). unfold log_read.
    destruct (g_finished _); [constructor; cbn; by rewrite ?Hst|]. apply again_inv; cbn; [done| |done].
    destruct (_ =? _); [by rewrite <- Hs|done].
  - destruct (u_follow u) as [f|]; [|exact Hu]. cbn in Ho, Hb.
    apply again_inv; [by destruct (u_starting u)|by rewrite <- Hs|done].
  - apply mount_inv.
Qed.

Lemma urun_app u es es' : urun u (es ++ es') = urun (urun u es) es'.
Proof. revert u. induction es as [|e es IH]; intros u; [done|]. apply IH. Qed.

Lemma urun_inv saved es : uinv (urun (mount saved) es).
Proof.
  assert (H : forall u, uinv u -> uinv (urun u es)); [|apply H, mount_inv].
  induction es as [|e es IH]; intros u Hu; [done|]. by apply IH, ustep_inv.
Qed.

Lemma checked_step u e : u_checked (ustep u e).1 = true ->
  (u_checked u = true /\ e <> Reload) \/
  (exists log now f, e = LogRead log now /\ g_finished (parseUpdateLog log) = true /\ u_follow u = Some f /\ f_mode f = Check).
Proof.
  destruct e as [m c|run now|msg|log now|now|]; cbn.
  - destruct (enabled m u); [|by left]. unfold startUpdates. destruct (_ && _); [by left|]. cbn. destruct m; [done|by left].
  - destruct (u_starting u); by left.
  - destruct (u_starting u); by left.
  - destruct (u_follow u) as [f|] eqn:E; [|by left]. unfold log_read. destruct (g_finished _) eqn:Eg.
    + cbn. destruct (f_mode f) eqn:Em; [|by left]. intros _. right. eauto 10.
    + unfold again. destruct (_ <=? _); by left.
  - destruct (u_follow u) as [f|]; [|by left]. unfold again. destruct (_ <=? _); by left.
  - by destruct (u_saved u).
Qed.

Lemma checked_has_a_check es : u_checked (urun (mount None) es) = true ->
  exists es1 log now es2 f,
    es = es1 ++ LogRead log now :: es2 /\ g_finished (parseUpdateLog log) = true /\
    u_follow (urun (mount None) es1) = Some f /\ f_mode f = Check /\ Forall (fun e => e <> Reload) es2.
Proof.
  induction es as [|e es IH] using rev_ind; [done|]. rewrite urun_app. cbn [urun]. intros [[Hc Hne]|H]%checked_step.
  - destruct (IH Hc) as (es1 & log & now & es2 & f & -> & H1 & H2 & H3 & H4). exists es1, log, now, (es2 ++ [e]), f.
    rewrite <- app_assoc. split_and!; try done. apply Forall_app. split; [done|by constructor].
  - destruct H as (log & now & f & -> & H1 & H2 & H3). exists es, log, now, [], f. by split_and!.
Qed.

(** C22: a run of updates is followed to its end and applied only after a check.  After
    any sequence of clicks, answers, failures and reloads: a reload goes on with the
    run that was followed, its quiet clock unchanged; the buttons are off exactly while
    a run is starting or followed; and an apply is sent only when the operator
    confirmed it and the log of a check was read to its exit line on this page. *)
Theorem updates_are_followed_and_checked (es : list uevent) :
  let u := urun (mount None) es in
  u_follow (ustep u Reload).1 = u_follow u /\
  u_busy u = some_b (u_follow u) || some_b (u_starting u) /\
  (forall c, (ustep u (Click Apply c)).2 = Some Apply ->
     c = true /\ u_follow u = None /\
     exists es1 log now es2 f,
       es = es1 ++ LogRead log now :: es2 /\ g_finished (parseUpdateLog log) = true /\
       u_follow (urun (mount None) es1) = Some f /\ f_mode f = Check /\ Forall (fun e => e <> Reload) es2).
Proof.
  intros u. destruct (urun_inv None es) as [Hs Hb Ho]. fold u in Hs, Hb, Ho. split; [cbn; rewrite <- Hs; by destruct (u_follow u)|]. split; [done|].
  intros c. cbn. unfold enabled. destruct (u_busy u); [done|]. cbn. destruct (u_checked u) eqn:Ec; [|done]. unfold startUpdates. cbn.
  destruct c; [|done]. intros _. split; [done|]. symmetry in Hb. apply orb_false_iff in Hb as [Hf _].
  split; [by destruct (u_follow u)|]. by apply checked_has_a_check.
Qed.

(** Polls of a log that no longer changes. *)
Definition silent (n : Z) (e : uevent) : Prop :=
  match e with
  | LogRead log _ => Z.of_nat (String.length log) = n /\ g_finished (parseUpdateLog log) = false
  | LogFailed _ => True
  | _ => False
  end.
Definition time_of (e : uevent) : Z := match e with LogRead _ t | LogFailed t => t | _ => 0 end.

(** A log that stays silent is followed for sixty-five minutes after its last change
    and not longer: once a poll comes later than that the run is given up, nothing is
    saved for the next visit and the buttons work again. *)
Theorem silent_run_is_given_up (u : upage) (f : follow) (es : list uevent) :
  uinv u -> u_follow u = Some f -> Forall (silent (f_len f)) es ->
  if forallb (fun e => time_of e - f_at f <=? UPDATES_QUIET_MS) es
  then u_follow (urun u es) = Some f
  else u_follow (urun u es) = None /\ u_saved (urun u es) = None /\ u_busy (urun u es) = false.
Proof.
  intros Hi Hf Hs. revert u Hi Hf. induction Hs as [|e es He Hs IH]; intros u Hi Hf; [done|]. cbn [forallb urun].
  assert (Hstep : u_follow (ustep u e).1 = if time_of e - f_at f <=? UPDATES_QUIET_MS then Some f else None).
  { destruct e as [m c|run now|msg|log now|now|]; try done; cbn; rewrite Hf.
    - destruct He as [Hl Hg]. unfold log_read. rewrite Hg, Hl, Z.eqb_refl. unfold again. by destruct (_ <=? _).
    - unfold again. by destruct (_ <=? _). }
  pose proof (ustep_inv u e Hi) as Hi'. destruct (_ <=? _); [by apply IH|]. cbn [andb].
  assert (Hst : u_starting (ustep u e).1 = None).
  { assert (u_starting u = None) by (destruct Hi as [_ _ Ho]; rewrite Hf in Ho; by destruct (u_starting u)).
    destruct e as [m c|run now|msg|log now|now|]; try done; cbn; rewrite Hf; unfold log_read, again; repeat case_match; done. }
  assert (Hstay : forall es v, uinv v -> u_follow v = None -> u_starting v = None -> Forall (silent (f_len f)) es ->
            u_follow (urun v es) = None /\ u_saved (urun v es) = None /\ u_busy (urun v es) = false).
  { clear. intros es. induction es as [|e es IH]; intros v [Hs Hb Ho] Hf Hst Hall; cbn [urun].
    - rewrite Hf in Hs, Hb. rewrite Hst in Hb. by rewrite <- Hs, Hb.
    - apply Forall_cons in Hall as [He Hall]. assert ((ustep v e).1 = v) as -> by (destruct e; try done; cbn; by rewrite Hf). by apply IH. }
  by apply Hstay.
Qed.

(** ** Static allocation: properties *)

Definition sound_network (n : network) : Prop := n_enabled n = true /\ n_subnets n = 1 /\ n_overlaps n = [].

Lemma filter_partition {A} (p q r : A -> bool) (l : list A) :
  (forall x, (p x = true /\ q x = false /\ r x = false) \/ (p x = false /\ q x = true /\ r x = false) \/ (p x = false /\ q x = false /\ r x = true)) ->
  (length (List.filter p l) + length (List.filter q l) + length (List.filter r l) = length l)%nat.
Proof.
  intros H. induction l as [|x l IH]; [done|]. cbn [List.filter]. destruct (H x) as [(-> & -> & ->)|[(-> & -> & ->)|(-> & -> & ->)]]; cbn [length]; lia.
Qed.

(** The review never calls a network approved or ready that fails a check, and the
    three totals above the list split it: every network is counted once, blocked ones
    exactly when a check fails. *)
Theorem allocation_review_is_a_partition (canOp : bool) (l : list network) :
  (forall n, (allocationReadiness canOp n).1.2 <> Blocked <-> sound_network n) /\
  (forall n, label_of canOp n = "Approved" <-> sound_network n /\ n_eligible n = true) /\
  eligibleCount canOp l + readyCount canOp l + blockedCount canOp l = Z.of_nat (length l) /\
  blockedCount canOp l = Z.of_nat (length (List.filter (fun n => bool_decide ((allocationReadiness canOp n).1.2 = Blocked)) l)).
Proof.
  assert (Hcases : forall n, let a := allocationReadiness canOp n in
    (sound_network n /\ n_eligible n = true /\ a.1 = ("Approved", Approved)) \/
    (sound_network n /\ n_eligible n = false /\ a.1.2 = Ready /\ (a.1.1 = "Ready to approve" \/ a.1.1 = "Operator approval required")) \/
    (~ sound_network n /\ a.1.2 = Blocked /\ a.1.1 <> "Approved" /\ a.1.1 <> "Ready to approve" /\ a.1.1 <> "Operator approval required")).
  { intros [en el k ov]. unfold allocationReadiness, sound_network. cbn [n_enabled n_eligible n_subnets n_overlaps].
    destruct en; cbn; [|right; right; destruct el; cbn; split_and!; (done || intros [? _]; done)].
    destruct (Z.eqb_spec k 1) as [->|Hk]; cbn; [|right; right; destruct el; cbn; split_and!; (done || intros (_ & ? & _); done)].
    destruct ov as [|o ov]; cbn; [|right; right; destruct el; cbn; split_and!; (done || intros (_ & _ & ?); done)].
    destruct el; cbn; [left; done|right; left]. destruct canOp; cbn; split_and!; auto. }
  split_and!.
  - intros n. destruct (Hcases n) as [(H & _ & E)|[(H & _ & E & _)|(H & E & _)]]; rewrite E; by split.
  - intros n. unfold label_of. destruct (Hcases n) as [(H & He & E)|[(H & He & _ & [E|E])|(H & _ & E & _)]];
      [rewrite E; by split|rewrite E; split; [done|intros [_ ?]; congruence]..|split; [done|intros [? _]; done]].
  - unfold blockedCount. lia.
  - unfold blockedCount, eligibleCount, readyCount, label_of. rewrite <- (filter_partition (fun n => String.eqb (allocationReadiness canOp n).1.1 "Approved")
      (fun n => String.eqb (allocationReadiness canOp n).1.1 "Ready to approve" || String.eqb (allocationReadiness canOp n).1.1 "Operator approval required")
      (fun n => bool_decide ((allocationReadiness canOp n).1.2 = Blocked)) l); [lia|].
    intros n. destruct (Hcases n) as [(_ & _ & E)|[(_ & _ & Et & [E|E])|(_ & Et & E1 & E2 & E3)]].
    + left. by rewrite E.
    + right. left. by rewrite E, Et.
    + right. left. by rewrite E, Et.
    + right. right. rewrite Et. apply String.eqb_neq in E1, E2, E3. by rewrite E1, E2, E3.
Qed.

(** ** Deployment logs *)

(** However the polls are answered, following a deployment ends: after at most
    sixty-two polls of a client's, two hundred and two of a provisioning. *)
Theorem log_polling_ends (limit : Z) (answers : nat -> poll) : 0 <= limit ->
  exists how n, pollLog limit answers (Z.to_nat limit + 2) 0 0 = Some (how, n) /\ (1 <= n <= Z.to_nat limit + 2)%nat.
Proof.
  intros Hl.
  assert (H2 : forall fuel tries n, 0 <= tries <= limit + 1 -> Z.of_nat fuel = limit + 1 - tries ->
    exists how k, pollLog limit answers (S fuel) tries n = Some (how, k) /\ (S n <= k)%nat /\ (k <= n + S fuel)%nat).
  { induction fuel as [|fuel IH]; intros tries n Ht Hf; cbn [pollLog]; destruct (answers n) as [log [] []|]; eauto with lia.
    - assert ((limit <? tries) = true) as -> by lia. eauto with lia.
    - destruct (limit <? tries) eqn:E; [eauto with lia|]. destruct (IH (tries + 1) (S n)) as (how & k & K1 & K2 & K3); [lia|lia|].
      exists how, k. split; [exact K1|]. lia. }
  destruct (H2 (Z.to_nat limit + 1)%nat 0 0%nat) as (how & k & K1 & K2 & K3); [lia|lia|].
  exists how, k. replace (Z.to_nat limit + 2)%nat with (S (Z.to_nat limit + 1)) by lia. split; [exact K1|]. lia.
Qed.
