(* ===== verification/Discovery.v ===== *)
(** * Discovery (screens3.jsx)

    Candidates found on the network: how a service, a banner, a neighbour or a removed
    system is read from a row, the list with its chips, search and order, the dialog
    that adopts a candidate, the manual form that one host's scan prefills, and the
    scan job that is followed from its admission to its end. *)

From Stdlib Require Import ZArith Lia Ascii.
From stdpp Require Import strings list gmap pretty.
From S2P Require Import Prelude JsNum JsValue Mappers Catalog ProvStacks ProvSpec InvForms FleetUpdates.

Local Open Scope string_scope.
Local Open Scope list_scope.
Local Open Scope Z_scope.

(** ** Reading a row *)

Definition is_object (v : value) : bool := match v with VArr _ | VObj _ => true | _ => false end.

(** The part before the last colon, if there is one past the start. *)
Fixpoint last_colon (s : string) : option string :=
  match s with
  | EmptyString => None
  | String c r =>
      match last_colon r with
      | Some p => Some (String c p)
      | None => if Ascii.eqb c ":" then Some "" else None
      end
  end.

Definition svcName (s : value) : string :=
  if is_object s
  then vstr (v_or (fld s "name") (v_or (fld s "service") (VStr ("port " +:+ vstr (v_or (fld s "port") (VStr "?"))))))
  else match last_colon (vstr s) with Some (String c r) => String c r | _ => vstr s end.

(** [parseInt(v, 10) || 0]: leading digits after white space and a sign. *)
Definition parseInt0 (v : value) : Z :=
  let t := trimStart (vstr v) in
  match t with
  | String "-" r => - number (span is_digit r).1
  | String "+" r => number (span is_digit r).1
  | _ => number (span is_digit t).1
  end.

Definition svcPort (s : value) : Z :=
  if is_object s then parseInt0 (fld s "port")
  else match split_char ":" (vstr s) with
       | a :: b :: _ => parseInt0 (VStr (if String.eqb b "" then a else b))
       | a :: [] => parseInt0 (VStr a)
       | [] => 0
       end.

Definition svcDetail (s : value) : string :=
  if is_object s then String.concat " " (map vstr (List.filter truthy [fld s "product"; fld s "version"])) else "".

Definition ends_with (p s : string) : bool := starts_with (String.rev p) (String.rev s).

Definition isMdns (d : value) : bool :=
  contains "mdns" (toLowerCase (vstr (v_or (fld d "via") (VStr "")))) ||
  truthy (fld d "mdnsName") ||
  match fld d "mdnsServices" with VArr (_ :: _) => true | _ => false end ||
  match fld d "host" with VStr h => ends_with ".local" (toLowerCase h) | _ => false end.

Definition lcNotice (d : value) : option value :=
  if truthy d then let n := fld d "tombstone" in if is_object n then Some n else None else None.

Definition text_is (s : string) (v : value) : bool := match v with VStr x => String.eqb x s | _ => false end.

Definition lcNoticeText (n : value) : string :=
  let lc := fld n "lifecycle" in
  let what := if text_is "decommissioned" lc || text_is "deleted" lc then "a " +:+ vstr lc +:+ " system" else "a system that was removed" in
  "matches " +:+ what +:+ (if truthy (fld n "displayName") then " (" +:+ vstr (fld n "displayName") +:+ ")" else "") +:+ " — not re-adopted".

Definition numOr0 (v : value) : num := match v with VNum n => if is_finite n then n else n0 | _ => n0 end.

(** Whole minutes. *)
Definition seenAgo (m : Z) : string :=
  if m =? 0 then "just now"
  else if m <? 60 then pretty m +:+ "m ago"
  else pretty (m / 60) +:+ "h " +:+ padStart (pretty (m mod 60)) 2 "0" +:+ "m ago".

(** *** Banners *)

(** The text before and after the first colon. *)
Definition at_colon (line : string) : option (string * string) :=
  match span not_colon line with
  | (k, String _ v) => Some (k, v)
  | (_, EmptyString) => None
  end.

Definition add_banner (m : list (string * string)) (line : string) : list (string * string) :=
  match at_colon line with
  | Some (k, v) => if String.eqb (trim k) "" || String.eqb (trim v) "" then m else assoc_set (toLowerCase (trim k)) (trim v) m
  | None => m
  end.

(** Tokens are not names every object inherits. *)
Definition parseBanners (raw : string) : list (string * string) :=
  if String.eqb raw "" then [] else fold_left add_banner (split_char newline raw) [].

Definition after_slash (k : string) : string :=
  match span (fun c => negb (Ascii.eqb c "/")) k with (_, String _ r) => r | (k, EmptyString) => k end.

Definition bannerFor (m : list (string * string)) (token : string) : option string :=
  if String.eqb token "" then None
  else let k := toLowerCase token in
       match assoc k m with Some b => Some b | None => assoc (after_slash k) m end.

Definition neighborLabel (n : value) : option string :=
  if negb (truthy n) then None
  else
    let parts := (if truthy (fld n "gearName") then [vstr (fld n "gearName")] else []) ++
                 (if truthy (fld n "peerPort") then [vstr (fld n "peerPort")]
                  else if truthy (fld n "localIf") then [vstr (fld n "localIf")] else []) in
    match parts with [] => None | _ => Some (String.concat " · " parts) end.

(** ** The list *)

(** What the operator did on this page, by host. *)
Inductive overlay := Staged | Ignored.

Record listing := Listing { l_rows : list value; l_staged : list (string * overlay) }.

Definition effStatus (l : listing) (d : value) : string :=
  match assoc (vstr (fld d "host")) (l_staged l) with
  | Some Ignored => "ignored"
  | Some Staged => "adopted"
  | None => vstr (v_or (fld d "status") (VStr "new"))
  end.

Definition with_status (l : listing) (s : string) : list value := List.filter (fun d => String.eqb (effStatus l d) s) (l_rows l).

(** The numbers on the chips: one pass over the rows. *)
Record counts := Counts { c_new : Z; c_adopted : Z; c_ignored : Z }.

Definition count_row (l : listing) (c : counts) (d : value) : counts :=
  let s := effStatus l d in
  if String.eqb s "new" then Counts (c_new c + 1) (c_adopted c) (c_ignored c)
  else if String.eqb s "adopted" then Counts (c_new c) (c_adopted c + 1) (c_ignored c)
  else if String.eqb s "ignored" then Counts (c_new c) (c_adopted c) (c_ignored c + 1)
  else c.

Definition statusCounts (l : listing) : counts := fold_left (count_row l) (l_rows l) (Counts 0 0 0).

Definition texts (v : value) : string := String.concat " " (map (fun x => if nullish x then "" else vstr x) (arr v)).

Definition haystack (d : value) : string :=
  toLowerCase (String.concat " " (map vstr (List.filter truthy
    [fld d "host"; fld d "ip"; fld d "mac"; fld d "vendor"; fld d "osName"; fld d "deviceRole"; fld d "sysDescr";
     fld d "mdnsName"; VStr (texts (fld d "mdnsServices")); VStr (String.concat " " (map svcName (arr (fld d "services"))));
     fld d "seg"; fld d "via"; fld (fld d "neighbor") "gearName"; fld (fld d "neighbor") "peerPort";
     fld d "osGuess"; VStr (texts (fld d "openPorts"))]))).

Record search := Search { s_status : string; s_via : string; s_query : string; s_key : string; s_up : bool }.

Definition shown (l : listing) (s : search) (d : value) : bool :=
  (String.eqb (s_status s) "all" || String.eqb (effStatus l d) (s_status s)) &&
  (String.eqb (s_via s) "all" || text_is (s_via s) (fld d "via")) &&
  (let ql := toLowerCase (trim (s_query s)) in String.eqb ql "" || contains ql (haystack d)).

Definition low (v : value) : string := toLowerCase (vstr (v_or v (VStr ""))).

Definition keyOf (k : string) (d : value) : num + string :=
  if String.eqb k "host" then inr (toLowerCase (vstr (v_or (fld d "host") (v_or (fld d "ip") (VStr "")))))
  else if String.eqb k "vendor" then inr (low (fld d "vendor"))
  else if String.eqb k "os" then inr (low (fld d "osName"))
  else if String.eqb k "role" then inr (low (fld d "deviceRole"))
  else if String.eqb k "seg" then inr (low (fld d "seg"))
  else if String.eqb k "via" then inr (low (fld d "via"))
  else if String.eqb k "neighbor" then inr (low (fld (fld d "neighbor") "gearName"))
  else if String.eqb k "seen" then inl (numOr0 (fld d "seen"))
  else inl n0.

Definition key_below (a b : num + string) : bool :=
  match a, b with
  | inl x, inl y => nlt x y
  | inr x, inr y => negb (string_le y x)
  | _, _ => false
  end.

(** The comparator is positive when the first goes after the second. *)
Definition goes_after (s : search) (a b : value) : bool :=
  let ka := keyOf (s_key s) a in let kb := keyOf (s_key s) b in
  if s_up s then key_below kb ka else key_below ka kb.

Definition view (l : listing) (s : search) : list value :=
  sort_by (fun a b => negb (goes_after s a b)) (List.filter (shown l s) (l_rows l)).

(** [th]: a column heading's click. *)
Definition sort_by_column (k : string) (s : search) : search :=
  Search (s_status s) (s_via s) (s_query s) k (if String.eqb (s_key s) k then negb (s_up s) else true).

Definition reappeared (l : listing) : list value := List.filter (fun d => match lcNotice d with Some _ => true | None => false end) (l_rows l).

(** Adopting and ignoring: the overlay, and its removal when the API refuses. *)
Inductive levent := Adopted (host : string) | Ignore (d : value) | IgnoreFailed (d : value) | Rows (l : list value).

Definition lstep (l : listing) (e : levent) : listing :=
  match e with
  | Adopted h => Listing (l_rows l) (assoc_set h Staged (l_staged l))
  | Ignore d => Listing (l_rows l) (assoc_set (vstr (fld d "host")) Ignored (l_staged l))
  | IgnoreFailed d => Listing (l_rows l) (assoc_del (vstr (fld d "host")) (l_staged l))
  | Rows r => Listing r (l_staged l)
  end.

(** ** Adopting a candidate *)

Record service := Service { sv_label : string; sv_port : Z }.

Definition svcList (disc : value) : list service :=
  List.filter (fun x => (0 <? sv_port x) && (sv_port x <=? 65535))
    (map (fun s => Service (svcName s +:+ (if svcPort s =? 0 then "" else ":" +:+ pretty (svcPort s)) +:+
                            (if String.eqb (svcDetail s) "" then "" else " (" +:+ svcDetail s +:+ ")")) (svcPort s))
         (arr (fld disc "services"))).

Definition ROLE_TO_CLASS (role : string) : option string :=
  assoc role [("server", "server"); ("workstation", "host"); ("host", "host"); ("printer", "appliance"); ("nas", "appliance");
              ("camera", "iot"); ("iot", "iot"); ("network", "network"); ("ap", "network"); ("gateway", "network")].

Record adopt_form := AdoptForm { a_name : string; a_class : string; a_pool : Z; a_heartbeat : bool; a_sel : gmap Z bool }.

Definition adopt_open (disc : value) (pools : list Z) : adopt_form :=
  AdoptForm (vstr (v_or (fld disc "host") (v_or (fld disc "ip") (VStr ""))))
    (match fld disc "deviceRole" with VStr r => default "server" (ROLE_TO_CLASS r) | _ => "server" end)
    (hd 1 pools) true (fold_left (fun m s => <[sv_port s := true]> m) (svcList disc) ∅).

Record adopt_body := AdoptBody { ab_name : string; ab_class : string; ab_pool : Z; ab_heartbeat : bool; ab_services : list Z }.

Definition adopt_submit (disc : value) (f : adopt_form) : adopt_body :=
  let n := trim (a_name f) in
  AdoptBody (if String.eqb n "" then vstr (fld disc "ip") else n) (a_class f) (a_pool f) (a_heartbeat f)
    (map sv_port (List.filter (fun s => default false (a_sel f !! sv_port s)) (svcList disc))).

(** ** The manual form *)

(** What the operator can type. *)
Record fields := Fields { f_name : string; f_class : string; f_touched : bool; f_vendor : string; f_os : string; f_ports : string; f_notes : string }.

(** What the effect that polls depends on. *)
Definition deps : Type := option Z * option Z * string.

(** [m_inst] numbers the effect that is mounted and [m_deps] is what it was mounted
    for; an answer to an earlier one finds its [live] false. *)
Record manual := Manual { m_target : string; m_ip : string; m_f : fields; m_state : string; m_scan : option Z; m_request : option Z;
                          m_inst : nat; m_deps : deps }.

Definition manual0 : manual := Manual "" "" (Fields "" "host" false "" "" "" "") "" None None 0 (None, None, "").

(** What starting a scan answers: the address, a host name, and the scan or the
    request for one. *)
Record job_answer := JobAnswer { j_ip : string; j_host : string; j_scan : option Z; j_request : option Z }.

(** The fields of the scanned row that the form takes over. *)
Record scanned := Scanned { r_name : string; r_vendor : string; r_os : string; r_ports : string; r_class : option string }.

Definition all_digits (s : string) : bool := negb (String.eqb s "") && sall is_digit s.

(** [find(h => h && h !== ip) || ""]. *)
Definition first_name (row : value) : string :=
  match List.find (fun h => truthy h && negb (strict_eq h (fld row "ip"))) [fld row "host"; fld row "mdnsName"] with
  | Some h => vstr h
  | None => ""
  end.

Definition scanned_of (row : value) : scanned :=
  Scanned (first_name row) (vstr (v_or (fld row "vendor") (VStr "")))
    (vstr (v_or (fld row "osName") (v_or (fld row "osGuess") (v_or (fld row "sysDescr") (VStr "")))))
    (String.concat ", " (List.filter all_digits (map (fun s => List.last (split_char ":" (vstr s)) "") (arr (fld row "services")))))
    (match fld row "deviceRole" with VStr r => ROLE_TO_CLASS r | _ => None end).

Inductive mevent :=
  | MTarget (s : string) | MName (s : string) | MClass (s : string) | MVendor (s : string) | MOs (s : string) | MPorts (s : string) | MNotes (s : string)
  | MStart                                        (* Scan to prefill *)
  | MAccepted (j : job_answer)                    (* its answer, whenever it comes *)
  | MRefused (message : string)
  | MRender                                       (* a commit: the effect follows its dependencies *)
  | MRequestDone (i : nat) (scan : Z) | MRequestFailed (i : nat)   (* polls of the request *)
  | MCompleted (i : nat) | MScanEnded (i : nat)                    (* polls of the scan *)
  | MDetails (i : nat) (row : option value) | MNoDetails (i : nat).  (* the list read after completion, the row of this address *)

Definition filled (cur new : string) : string := if String.eqb cur "" then new else cur.

Definition waiting_text : string := "Scanning one host… You can save this asset while the scan runs.".

Definition set_fields (m : manual) (f : fields) : manual :=
  Manual (m_target m) (m_ip m) f (m_state m) (m_scan m) (m_request m) (m_inst m) (m_deps m).

Definition set_poll (m : manual) (state : string) (scan request : option Z) : manual :=
  Manual (m_target m) (m_ip m) (m_f m) state scan request (m_inst m) (m_deps m).

(** A new target, and a new scan, clear what was found. *)
Definition cleared (f : fields) (touched : bool) : fields := Fields "" (f_class f) touched "" "" "" (f_notes f).

Definition fill_in (r : scanned) (f : fields) : fields :=
  Fields (filled (f_name f) (r_name r))
    (match r_class r with Some c => if f_touched f then f_class f else c | None => f_class f end) (f_touched f)
    (filled (f_vendor f) (r_vendor r)) (filled (f_os f) (r_os r)) (filled (f_ports f) (r_ports r)) (f_notes f).

Definition live (m : manual) (i : nat) : bool := Nat.eqb i (m_inst m).

Definition mstep (m : manual) (e : mevent) : manual :=
  let f := m_f m in
  match e with
  | MTarget s => Manual s "" (cleared f (f_touched f)) (m_state m) None None (m_inst m) (m_deps m)
  | MName s => set_fields m (Fields s (f_class f) (f_touched f) (f_vendor f) (f_os f) (f_ports f) (f_notes f))
  | MClass s => set_fields m (Fields (f_name f) s true (f_vendor f) (f_os f) (f_ports f) (f_notes f))
  | MVendor s => set_fields m (Fields (f_name f) (f_class f) (f_touched f) s (f_os f) (f_ports f) (f_notes f))
  | MOs s => set_fields m (Fields (f_name f) (f_class f) (f_touched f) (f_vendor f) s (f_ports f) (f_notes f))
  | MPorts s => set_fields m (Fields (f_name f) (f_class f) (f_touched f) (f_vendor f) (f_os f) s (f_notes f))
  | MNotes s => set_fields m (Fields (f_name f) (f_class f) (f_touched f) (f_vendor f) (f_os f) (f_ports f) s)
  | MStart =>
      if String.eqb (trim (m_target m)) "" then m
      else Manual (m_target m) "" (cleared f false) waiting_text None None (m_inst m) (m_deps m)
  | MAccepted j =>
      let name := if String.eqb (j_host j) "" then f_name f else filled (f_name f) (j_host j) in
      let f' := Fields name (f_class f) (f_touched f) (f_vendor f) (f_os f) (f_ports f) (f_notes f) in
      match j_scan j, j_request j with
      | Some s, _ => Manual (m_target m) (j_ip j) f' (m_state m) (Some s) (m_request m) (m_inst m) (m_deps m)
      | None, Some r => Manual (m_target m) (j_ip j) f' (m_state m) (m_scan m) (Some r) (m_inst m) (m_deps m)
      | None, None => Manual (m_target m) (j_ip j) f' "Waiting for scan admission… You can save this asset now." (m_scan m) (m_request m) (m_inst m) (m_deps m)
      end
  | MRefused msg => set_poll m ("Scan could not start: " +:+ msg) (m_scan m) (m_request m)
  | MRender =>
      let d := (m_scan m, m_request m, m_ip m) in
      if decide (d = m_deps m) then m
      else Manual (m_target m) (m_ip m) f (m_state m) (m_scan m) (m_request m) (S (m_inst m)) d
  | MRequestDone i s => if live m i then set_poll m waiting_text (Some s) None else m
  | MRequestFailed i => if live m i then set_poll m "Scan could not start. The fields are blank; you can still save the asset." (m_scan m) None else m
  | MCompleted i => if live m i then set_poll m (m_state m) None (m_request m) else m
  | MScanEnded i => if live m i then set_poll m "Scan did not return details. The fields are blank; you can still save the asset." None (m_request m) else m
  | MDetails i row =>
      if live m i then
        match row with
        | Some d => set_fields (set_poll m "Scan complete. Review and edit the fields, then save when ready." (m_scan m) (m_request m)) (fill_in (scanned_of d) f)
        | None => set_poll m "Scan finished with no usable discovery data. The fields are blank; you can still save the asset." (m_scan m) (m_request m)
        end
      else m
  | MNoDetails i => if live m i then set_poll m "Scan finished, but its details could not be loaded. You can still save the asset." (m_scan m) (m_request m) else m
  end.

Definition mrun (m : manual) (es : list mevent) : manual := fold_left mstep es m.

(** [split(/[ ,]+/).filter(Boolean).map(Number)]. *)
Definition port_words (s : string) : list string :=
  List.filter (fun w => negb (String.eqb w ""))
    (split_char " " (smap (fun c => if Ascii.eqb c "," then " "%char else c) s)).

Definition port_ok (p : num) : bool := is_integer p && negb (nlt p (ofZ 1)) && negb (ngt p (ofZ 65535)).

Record asset_body := AssetBody { as_name : string; as_class : string; as_services : list num; as_notes : string; as_where : string + string }.

(** An address is [inl], a target to resolve [inr]. *)
Definition saveManualAsset (m : manual) : string + asset_body :=
  let ip := trim (m_ip m) in
  let target := trim (m_target m) in
  if String.eqb ip "" && String.eqb target "" then inl "Enter an IP address or hostname first"
  else
    let ports := map str_num (port_words (f_ports (m_f m))) in
    if negb (forallb port_ok ports) then inl "Open ports must be TCP port numbers"
    else
      let nonempty l := List.filter (fun s => negb (String.eqb s "")) l in
      let nl1 := String newline "" in
      let intel := String.concat nl1 (nonempty [if String.eqb (f_vendor (m_f m)) "" then "" else "Vendor: " +:+ f_vendor (m_f m);
                                                if String.eqb (f_os (m_f m)) "" then "" else "OS guess: " +:+ f_os (m_f m)]) in
      let notes := String.concat (nl1 +:+ nl1) (nonempty [trim (f_notes (m_f m)); intel]) in
      inr (AssetBody (trim (f_name (m_f m))) (f_class (m_f m)) ports notes (if String.eqb ip "" then inr target else inl ip)).

(** ** The scan job *)

Record job := Job { jb_cidr : string; jb_request : option Z; jb_scan : option Z; jb_status : string;
                    jb_done : Z; jb_total : Z; jb_found : Z; jb_error : string; jb_recovered : bool }.

Definition terminal (s : string) : bool := existsb (String.eqb s) ["completed"; "failed"; "cancelled"].

(** What the effect of a job depends on: an answer that was asked under other values
    is dropped. *)
Definition job_key (j : job) : option Z * option Z * string := (jb_request j, jb_scan j, jb_status j).

Inductive jevent :=
  | JAccepted (j : job)                                       (* scanNow, answered *)
  | JRecovered (scan : Z) (status : string)                   (* from the server's list, when no job is known *)
  | JAdmission (key : option Z * option Z * string) (a : option (option Z * Z) + string)  (* done with a scan and a total, not yet, or failed *)
  | JStatus (key : option Z * option Z * string) (status : string) (done total found : Z) (error : string).

Definition jstep (o : option job) (e : jevent) : option job :=
  match e, o with
  | JAccepted j, _ => Some j
  | JRecovered s st, None => if (0 <? s) then Some (Job "" None (Some s) st 0 0 0 "" true) else None
  | JRecovered _ _, Some _ => o
  | JAdmission k a, Some j =>
      if bool_decide (k = job_key j) && negb (terminal (jb_status j)) then
        match jb_request j with
        | None => o
        | Some _ =>
            match a with
            | inl (Some (Some s, total)) => Some (Job (jb_cidr j) None (Some s) "queued" 0 total 0 (jb_error j) (jb_recovered j))
            | inl _ => o
            | inr e => Some (Job (jb_cidr j) (jb_request j) (jb_scan j) "failed" (jb_done j) (jb_total j) (jb_found j)
                               (if String.eqb e "" then "Scan admission failed." else e) (jb_recovered j))
            end
        end
      else o
  | JStatus k st done total found err, Some j =>
      if bool_decide (k = job_key j) && negb (terminal (jb_status j)) then
        match jb_request j with
        | Some _ => o
        | None => Some (Job (jb_cidr j) None (jb_scan j) st done total found err (jb_recovered j))
        end
      else o
  | _, None => None
  end.

Definition jrun (o : option job) (es : list jevent) : option job := fold_left jstep es o.

(** [/^\d{1,3}(\.\d{1,3}){3}\/\d{1,2}$/]. *)
Definition octet (s : string) : bool := all_digits s && (String.length s <=? 3)%nat.

Definition cidr_ok (s : string) : bool :=
  match split_char "/" s with
  | [a; p] => (match split_char "." a with [w; x; y; z] => forallb octet [w; x; y; z] | _ => false end) &&
              all_digits p && (String.length p <=? 2)%nat
  | _ => false
  end.

Definition scanNow (cidr : string) : option string := if cidr_ok (trim cidr) then Some (trim cidr) else None.

Definition scanBusy (scanning : bool) (o : option job) : bool :=
  scanning || match o with Some j => existsb (String.eqb (jb_status j)) ["admission_pending"; "queued"; "running"] | None => false end.

Definition scanProgress (o : option job) : string :=
  match o with
  | None => ""
  | Some j =>
      if terminal (jb_status j) then "Last scan " +:+ jb_status j +:+ (if String.eqb (jb_error j) "" then "" else " · " +:+ jb_error j)
      else
        let cand := pretty (jb_found j) +:+ " candidate" +:+ (if jb_found j =? 1 then "" else "s") +:+ " saved" in
        let running := String.eqb (jb_status j) "running" in
        let swept := running && (0 <? jb_total j) && (jb_total j <=? jb_done j) in
        (if jb_recovered j then "Resumed saved scan · " else "") +:+
        (if String.eqb (jb_status j) "admission_pending" then "Waiting for scan admission…"
         else if swept then "Scan running · Host sweep complete · finalizing candidate records · " +:+ cand
         else "Scan " +:+ jb_status j +:+ " · " +:+ pretty (jb_done j) +:+ "/" +:+ (if jb_total j =? 0 then "?" else pretty (jb_total j)) +:+ " hosts checked · " +:+ cand) +:+
        (if running then " · New candidates update live" else "")
  end.

(** ** The list: properties *)

Lemma statusCounts_from l rows c :
  let r := fold_left (count_row l) rows c in
  let n s := Z.of_nat (length (List.filter (fun d => String.eqb (effStatus l d) s) rows)) in
  c_new r = c_new c + n "new" /\ c_adopted r = c_adopted c + n "adopted" /\ c_ignored r = c_ignored c + n "ignored".
Proof.
  revert c. induction rows as [|d rows IH]; intros c; cbn [fold_left List.filter length]; [lia|].
  destruct (IH (count_row l c d)) as (H1 & H2 & H3). cbn zeta. rewrite H1, H2, H3. unfold count_row.
  destruct (String.eqb_spec (effStatus l d) "new") as [E|]; [rewrite E; cbn [String.eqb Ascii.eqb Bool.eqb length c_new c_adopted c_ignored]; lia|].
  destruct (String.eqb_spec (effStatus l d) "adopted") as [E|]; [rewrite E; cbn [String.eqb Ascii.eqb Bool.eqb length c_new c_adopted c_ignored]; lia|].
  destruct (String.eqb_spec (effStatus l d) "ignored") as [E|]; cbn [length c_new c_adopted c_ignored]; lia.
Qed.

Definition plain (status key : string) (up : bool) : search := Search status "all" "" key up.

Lemma view_plain l k key up : view l (plain k key up) ≡ₚ (if String.eqb k "all" then l_rows l else with_status l k).
Proof.
  unfold view. rewrite (sort_by_perm _ _). unfold shown, plain. cbn [s_status s_via s_query]. destruct (String.eqb_spec k "all") as [->|Hk]; cbn.
  - induction (l_rows l) as [|d r IH]; [done|]. cbn. by rewrite IH.
  - unfold with_status. erewrite List.filter_ext; [done|]. intros d. cbn. by rewrite andb_true_r, andb_true_r.
Qed.

(** The number on a chip is the length of the list it opens, whatever the order and
    whatever was adopted or ignored on the page. *)
Theorem chips_count_their_lists (l : listing) (key : string) (up : bool) :
  let n k := Z.of_nat (length (view l (plain k key up))) in
  c_new (statusCounts l) = n "new" /\ c_adopted (statusCounts l) = n "adopted" /\ c_ignored (statusCounts l) = n "ignored" /\
  n "all" = Z.of_nat (length (l_rows l)).
Proof.
  cbv beta zeta. rewrite (Permutation_length (view_plain l "new" key up)), (Permutation_length (view_plain l "adopted" key up)),
    (Permutation_length (view_plain l "ignored" key up)), (Permutation_length (view_plain l "all" key up)). cbn [String.eqb Ascii.eqb Bool.eqb].
  destruct (statusCounts_from l (l_rows l) (Counts 0 0 0)) as (H1 & H2 & H3). unfold statusCounts, with_status. rewrite H1, H2, H3. cbn [c_new c_adopted c_ignored]. lia.
Qed.

(** *** Adoption *)

Lemma all_selected l (m : gmap Z bool) s : s ∈ l -> default false (fold_left (fun (m : gmap Z bool) s => <[sv_port s := true]> m) l m !! sv_port s) = true.
Proof.
  assert (Hkeep : forall l (m : gmap Z bool) p, m !! p = Some true -> fold_left (fun (m : gmap Z bool) s => <[sv_port s := true]> m) l m !! p = Some true).
  { clear. induction l as [|s l IH]; intros m p H; [done|]. cbn. apply IH. destruct (Z.eq_dec (sv_port s) p) as [->|Hn];
      [by rewrite lookup_insert_eq|by rewrite lookup_insert_ne]. }
  revert m. induction l as [|x l IH]; intros m; [by rewrite elem_of_nil|]. rewrite elem_of_cons. intros [->|H]; cbn.
  - rewrite Hkeep; [done|]. by rewrite lookup_insert_eq.
  - by apply IH.
Qed.

(** Adopting a candidate with the dialog as it opens watches every TCP service that
    was found on it; whatever is then chosen, only ports from 1 to 65535 of those
    services are sent. *)
Theorem adoption_watches_what_was_found (disc : value) (pools : list Z) (f : adopt_form) :
  ab_services (adopt_submit disc (adopt_open disc pools)) = map sv_port (svcList disc) /\
  Forall (fun p => 1 <= p <= 65535 /\ p ∈ map sv_port (svcList disc)) (ab_services (adopt_submit disc f)).
Proof.
  split.
  - cbn [adopt_submit ab_services adopt_open a_sel]. f_equal. pose proof (all_selected (svcList disc) ∅) as H. revert H.
    generalize (fold_left (fun (m : gmap Z bool) s => <[sv_port s := true]> m) (svcList disc) ∅) as m. intros m H.
    induction (svcList disc) as [|s l IH]; [done|]. cbn. rewrite H by left. f_equal. apply IH. intros x Hx. apply H. by right.
  - cbn [adopt_submit ab_services]. apply Forall_forall. intros p (s & -> & Hs)%list_elem_of_fmap.
    apply list_elem_of_In, filter_In in Hs as [Hs _]. split; [|by apply (list_elem_of_fmap_2 sv_port), list_elem_of_In].
    unfold svcList in Hs. apply filter_In in Hs as [_ Hs]. lia.
Qed.

(** ** The manual form: properties *)

(** Events that are neither typing nor a new scan. *)
Definition answer (e : mevent) : bool :=
  match e with
  | MTarget _ | MName _ | MClass _ | MVendor _ | MOs _ | MPorts _ | MNotes _ | MStart => false
  | _ => true
  end.

Definition keeps (f f' : fields) : Prop :=
  (f_name f <> "" -> f_name f' = f_name f) /\ (f_vendor f <> "" -> f_vendor f' = f_vendor f) /\
  (f_os f <> "" -> f_os f' = f_os f) /\ (f_ports f <> "" -> f_ports f' = f_ports f) /\
  (f_touched f = true -> f_class f' = f_class f) /\ f_touched f' = f_touched f /\ f_notes f' = f_notes f.

Lemma keeps_refl f : keeps f f.
Proof. done. Qed.

Lemma keeps_trans f g h : keeps f g -> keeps g h -> keeps f h.
Proof.
  intros (A1 & A2 & A3 & A4 & A5 & A6 & A7) (B1 & B2 & B3 & B4 & B5 & B6 & B7).
  repeat split; try congruence; intros H;
    [rewrite B1, A1|rewrite B2, A2|rewrite B3, A3|rewrite B4, A4|rewrite B5, A5]; rewrite ?A1, ?A2, ?A3, ?A4, ?A6 by done; done.
Qed.

Lemma filled_keeps cur new : cur <> "" -> filled cur new = cur.
Proof. unfold filled. by destruct (String.eqb_spec cur ""). Qed.

Lemma answer_keeps m e : answer e = true -> keeps (m_f m) (m_f (mstep m e)).
Proof.
  destruct e as [| | | | | | | |j|msg| |i s|i|i|i|i row|i]; try done; intros _; cbn; try (by destruct (live m i)).
  - destruct (j_scan j), (j_request j); cbn; repeat split; intros; destruct (String.eqb (j_host j) ""); by rewrite ?filled_keeps.
  - by case_decide.
  - destruct (live m i); [|done]. destruct row as [d|]; [|done]. cbn [set_fields m_f]. generalize (scanned_of d) as r. intros r.
    unfold keeps, fill_in. cbn [f_name f_vendor f_os f_ports f_class f_touched f_notes]. split_and!; try done; try (apply filled_keeps).
    intros ->. by destruct (r_class r).
Qed.

(** What the operator typed survives the scan: whatever the answers of the scan,
    its polls and its details, and in whatever order they come, a name, vendor,
    operating system or port list that is not empty stays as typed, a class that was
    chosen stays chosen, and the notes are never touched. *)
Theorem typed_fields_survive_scan (m : manual) (es : list mevent) :
  Forall (fun e => answer e = true) es -> keeps (m_f m) (m_f (mrun m es)).
Proof.
  intros H. revert m. induction H as [|e es He H IH]; intros m; [apply keeps_refl|]. cbn.
  eapply keeps_trans; [by apply answer_keeps|apply IH].
Qed.

Definition typed_form : manual := mrun manual0 [MTarget "10.0.0.9"; MStart; MName "printer"].

Lemma typed_fields_survive_scan_witness :
  f_name (m_f typed_form) = "printer" /\
  f_name (m_f (mrun typed_form [MAccepted (JobAnswer "10.0.0.9" "hp-9" (Some 4) None); MRender; MDetails 1 None])) = "printer".
Proof.
  split; [reflexivity|].
  destruct (typed_fields_survive_scan typed_form [MAccepted (JobAnswer "10.0.0.9" "hp-9" (Some 4) None); MRender; MDetails 1 None]) as [H _];
    [repeat constructor|]. rewrite H; [reflexivity|discriminate].
Defined.

(** The number of a mounted effect only grows. *)
Lemma inst_grows m e : (m_inst m <= m_inst (mstep m e))%nat.
Proof.
  destruct e as [| | | | | | | |j|msg| |i s|i|i|i|i row|i]; cbn; try lia.
  - destruct (String.eqb _ _); cbn; lia.
  - destruct (j_scan j), (j_request j); cbn; lia.
  - case_decide; cbn; lia.
  - destruct (live m i); cbn; lia.
  - destruct (live m i); cbn; lia.
  - destruct (live m i); cbn; lia.
  - destruct (live m i); cbn; lia.
  - destruct (live m i), row; cbn; lia.
  - destruct (live m i); cbn; lia.
Qed.

Lemma inst_run es : forall m, (m_inst m <= m_inst (mrun m es))%nat.
Proof. induction es as [|e es IH]; intros m; [done|]. cbn. etrans; [apply inst_grows|apply IH]. Qed.

(** The scan never prefills the form once React has rendered its completion.  The
    completed poll forgets the scan, which is one of the things its own effect depends
    on; at the next render that effect is taken down, and the details it asked for,
    whenever they come and whatever they say, change nothing: the fields stay empty
    and the form goes on saying that it is scanning. *)
Theorem prefill_is_dropped (m : manual) (s : Z) (es : list mevent) (row : option value) :
  m_scan m = Some s -> m_deps m = (Some s, m_request m, m_ip m) ->
  let m' := mrun m [MCompleted (m_inst m); MRender] in
  m_f m' = m_f m /\ m_state m' = m_state m /\ m_scan m' = None /\
  mstep (mrun m' es) (MDetails (m_inst m) row) = mrun m' es.
Proof.
  intros Hs Hd. assert (E : mrun m [MCompleted (m_inst m); MRender] =
    Manual (m_target m) (m_ip m) (m_f m) (m_state m) None (m_request m) (S (m_inst m)) (None, m_request m, m_ip m)).
  { cbn. unfold live. rewrite Nat.eqb_refl. cbn. rewrite Hd, decide_False by congruence. done. }
  cbv zeta. rewrite E. split; [done|]. split; [done|]. split; [done|]. cbn.
  match goal with |- context [mrun ?v es] => pose proof (inst_run es v) as Hg end. cbn in Hg. unfold live.
  match goal with |- context [Nat.eqb ?a ?b] => destruct (Nat.eqb_spec a b); [lia|done] end.
Qed.

Definition scanning_form : manual := mrun manual0 [MTarget "10.0.0.9"; MStart; MAccepted (JobAnswer "10.0.0.9" "" (Some 4) None); MRender].

Lemma prefill_is_dropped_witness :
  m_state (mrun scanning_form [MCompleted (m_inst scanning_form); MRender]) = waiting_text /\
  mstep (mrun scanning_form [MCompleted (m_inst scanning_form); MRender]) (MDetails (m_inst scanning_form) (Some (VObj [("vendor", VStr "HP")])))
    = mrun scanning_form [MCompleted (m_inst scanning_form); MRender].
Proof.
  destruct (prefill_is_dropped scanning_form 4 [] (Some (VObj [("vendor", VStr "HP")]))) as (_ & H1 & _ & H2); [reflexivity|reflexivity|].
  split; [rewrite H1; reflexivity|exact H2].
Defined.

(** An answer for an earlier target is taken for the current one: the asset is saved
    under the address of the host that was scanned before the target was changed. *)
Theorem late_scan_answer_wins (m : manual) (target : string) (j : job_answer) :
  trim (j_ip j) <> "" ->
  let m' := mrun m [MTarget target; MAccepted j] in
  m_target m' = target /\ exists b, saveManualAsset m' = inr b /\ as_where b = inl (trim (j_ip j)).
Proof.
  intros Hip m'. assert (E : m_target m' = target /\ m_ip m' = j_ip j /\ f_ports (m_f m') = "").
  { unfold m'. cbn. by destruct (j_scan j), (j_request j). }
  destruct E as (E1 & E2 & E3). split; [done|]. unfold saveManualAsset. rewrite E2, E3.
  destruct (String.eqb_spec (trim (j_ip j)) ""); [done|]. cbn. eexists. split; [done|]. done.
Qed.

(** ** Jobs: properties *)

Definition same_job (e : jevent) : Prop := match e with JAccepted _ => False | _ => True end.

(** A scan job that was admitted is followed under its number until it ends, and what
    it ended with stays: later and stray answers change neither. *)
Theorem scan_job_ends_once (j : job) (es : list jevent) :
  Forall same_job es ->
  (terminal (jb_status j) = true -> jrun (Some j) es = Some j) /\
  (jb_request j = None -> exists j', jrun (Some j) es = Some j' /\ jb_request j' = None /\ jb_scan j' = jb_scan j /\ jb_cidr j' = jb_cidr j).
Proof.
  intros H. split; intros Hj.
  - induction H as [|e es He H IH]; [done|]. cbn. assert (jstep (Some j) e = Some j) as ->; [|done].
    destruct e; try done; cbn [jstep]; by rewrite Hj, andb_false_r.
  - revert j Hj. induction H as [|e es He H IH]; intros j Hj; [by exists j|]. cbn.
    assert (E : exists j', jstep (Some j) e = Some j' /\ jb_request j' = None /\ jb_scan j' = jb_scan j /\ jb_cidr j' = jb_cidr j).
    { destruct e; try done; cbn; [by exists j| |]; destruct (bool_decide _ && _); rewrite ?Hj; try (by exists j). eexists. split; [done|]. done. }
    destruct E as (j' & -> & H1 & H2 & H3). destruct (IH j' H1) as (j2 & K0 & K1 & K2 & K3). exists j2. split; [exact K0|]. split; [done|]. split; congruence.
Qed.
