(* ===== verification/ProvKit.v ===== *)
(** * The kit of the provisioning screen (screens-prov.jsx)

    What the tabs and editors share: the resource hook that loads and reloads data,
    the chips of a set column, the marking of the field a refusal names, and the
    texts about images and their store. *)

From Stdlib Require Import ZArith Lia Ascii.
From stdpp Require Import strings list pretty.
From S2P Require Import Prelude JsNum JsValue ProvStacks.

Local Open Scope string_scope.
Local Open Scope list_scope.
Local Open Scope Z_scope.

(** ** A resource *)

(** A fetch with loading, error and last-good data; the counter tells the answer to
    the latest call from older ones. *)
Section Resource.
Context {D E : Type}.

Record resource := Resource { r_data : option D; r_error : option E; r_loading : bool; r_seq : nat }.

Definition fresh_resource : resource := Resource None None true 0.

Inductive revent := RReload | RAnswer (n : nat) (d : D) | RFail (n : nat) (e : E).

Definition rstep (r : resource) (e : revent) : resource :=
  match e with
  | RReload => Resource (r_data r) None true (S (r_seq r))
  | RAnswer n d => if Nat.eqb n (r_seq r) then Resource (Some d) None false (r_seq r) else r
  | RFail n x => if Nat.eqb n (r_seq r) then Resource (r_data r) (Some x) false (r_seq r) else r
  end.

Definition rrun (r : resource) (es : list revent) : resource := fold_left rstep es r.

End Resource.
Arguments resource : clear implicits.
Arguments revent : clear implicits.

(** ** Chips of a set column *)

(** A click on a chip; [None] is the column's null, which means all. *)
Definition chip_toggle (options : list string) (value : option (list string)) (o : string) : option (list string) :=
  let on := default [] value in
  let next := if decide (o ∈ on) then List.filter (fun x => negb (String.eqb x o)) on else on ++ [o] in
  match next with [] => None | _ => Some (List.filter (fun x => bool_decide (x ∈ next)) options) end.

(** ** Errors on fields *)

Definition field_char (c : ascii) : bool :=
  ((97 <=? Ascii.nat_of_ascii c) && (Ascii.nat_of_ascii c <=? 122) || (Ascii.nat_of_ascii c =? 95))%nat.

Definition upper_letter (c : ascii) : bool := ((65 <=? Ascii.nat_of_ascii c) && (Ascii.nat_of_ascii c <=? 90))%nat.

(** [\w]. *)
Definition word_char (c : ascii) : bool := field_char c || is_digit c || upper_letter c.

(** The match of [[a-z_]+(?:\.[a-z_]+)*] at a word boundary: the longest of its
    matches that no word character follows; [inside] says that the segment has
    begun. *)
Fixpoint word_path (inside : bool) (s : string) : option string :=
  match s with
  | EmptyString => if inside then Some "" else None
  | String c r =>
      if field_char c then String c <$> word_path true r
      else if inside then
        match (if Ascii.eqb c "." then word_path false r else None) with
        | Some p => Some (String c p)
        | None => if word_char c then None else Some ""
        end
      else None
  end.

(** An error's message, if it has one that is not empty. *)
Definition errText (message : string) : string := if String.eqb message "" then "Request failed" else message.

Definition errKey (error : option string) : option string := m ← error; word_path false (errText m).

Definition invalid (error : option string) (key : string) : bool :=
  match errKey error with
  | Some k => String.eqb k key || starts_with (key +:+ ".") k
  | None => false
  end.

(** ** Texts *)

Definition units : list string := ["KiB"; "MiB"; "GiB"; "TiB"; "PiB"].

(** [while (n >= 1024 && i < u.length - 1)]: the scaled number, its unit and whether
    that is the first. *)
Fixpoint scale (n : num) (u : string) (first : bool) (more : list string) : num * string * bool :=
  match more with
  | [] => (n, u, first)
  | u' :: more => if nge n (ofZ 1024) then scale (ndiv n (ofZ 1024)) u' false more else (n, u, first)
  end.

Definition fmtBytes (n : num) : option string :=
  if negb (is_finite n) || nlt n n0 then None
  else
    let '(n, u, first) := scale n "B" true units in
    Some ((if first || nge n (ofZ 100) then num_str (nround n) else toFixed n 1) +:+ " " +:+ u).

(** [fmtAgo], of the parsed time. *)
Definition fmtAgo (now t : num) : option string :=
  if negb (is_finite t) then None
  else
    let m := nmax n0 (nround (ndiv (nsub now t) (ofZ 60000))) in
    Some (if nlt m (ofZ 1) then "just now"
          else if nlt m (ofZ 120) then num_str m +:+ " min ago"
          else num_str (nround (ndiv m (ofZ 60))) +:+ " h ago").

(** The published check of the image store. *)
Record store := Store { st_known : bool; st_stale : bool; st_reachable : bool; st_mounted : bool; st_linked : bool;
                        st_reason : string; st_checked : num }.

Record badge := Badge { b_cls : string; b_label : string; b_why : option string }.

Definition or_text (a b : string) : string := if String.eqb a "" then b else a.

Definition storeView (now : num) (st : option store) : badge :=
  match st with
  | None => Badge "warn" "store: not checked yet" (Some "No store check has been published yet — the solari-prov-finish timer writes it every couple of minutes.")
  | Some st =>
    if negb (st_known st)
    then Badge "warn" "store: not checked yet" (Some "No store check has been published yet — the solari-prov-finish timer writes it every couple of minutes.")
    else if st_stale st
    then Badge "warn" "store: status stale"
           (Some ("Last checked " +:+ default "at an unknown time" (fmtAgo now (st_checked st)) +:+
                  "; the provisioning timer or benzene may be down, so the store state is unknown."))
    else if negb (st_reachable st)
    then Badge "warn" "store: unchecked" (Some (or_text (st_reason st) "The provisioning host did not answer the store check."))
    else if negb (st_mounted st)
    then Badge "crit" "store not mounted"
           (Some (or_text (st_reason st) "The NAS share is not mounted." +:+ " Refresh, staging and image builds are refused until it is."))
    else if negb (st_linked st)
    then Badge "crit" "store not linked" (Some (or_text (st_reason st) "installers/ or images/ is not linked into the store."))
    else Badge "ok" "store mounted" None
  end.

Definition shortHost (n : string) : string := toLowerCase (hd "" (split_char "." n)).

Definition DISTRO_LABEL : list (string * string) :=
  [("opensuse", "openSUSE"); ("debian", "Debian"); ("ubuntu", "Ubuntu"); ("fedora", "Fedora");
   ("raspios", "Raspberry Pi OS"); ("rocky", "Rocky Linux"); ("alma", "AlmaLinux"); ("centos", "CentOS Stream")].

Definition distroLabel (d : string) : string :=
  match assoc d DISTRO_LABEL, d with
  | Some l, _ => l
  | None, String c r => toUpperCase (String c "") +:+ r
  | None, EmptyString => "—"
  end.

(** ** The resource *)

Definition quiet {D E} (n : nat) (e : revent D E) : Prop :=
  match e with RReload => False | RAnswer m _ | RFail m _ => m <> n end.

Lemma rrun_quiet {D E} (es : list (revent D E)) : forall r n, r_seq r = n -> Forall (quiet n) es -> rrun r es = r.
Proof.
  induction es as [|e es IH]; intros r n Hn Hq; [done|]. inversion_clear Hq as [|? ? He Hes].
  change (rrun (rstep r e) es = r).
  assert (Hs : rstep r e = r) by (destruct e as [|m d|m x]; cbn [quiet rstep] in *; [done| |]; destruct (Nat.eqb_spec m (r_seq r)); congruence).
  rewrite Hs. by eapply IH.
Qed.

(** After a reload, the last good data stays on the screen, marked as loading,
    until that call is answered, whatever answers to older calls arrive before or
    after it and in whatever order; then the screen shows that answer, or that error
    beside the last good data, and loading has ended. *)
Theorem resource_shows_its_latest_call {D E} (r : resource D E) (es es' : list (revent D E)) (d : D) (x : E) :
  let n := S (r_seq r) in
  Forall (quiet n) es -> Forall (quiet n) es' ->
  rrun r (RReload :: es) = Resource (r_data r) None true n /\
  rrun r (RReload :: es ++ RAnswer n d :: es') = Resource (Some d) None false n /\
  rrun r (RReload :: es ++ RFail n x :: es') = Resource (r_data r) (Some x) false n.
Proof.
  intros n H H'. set (r1 := Resource (r_data r) None true n).
  assert (Hr : forall l, rrun r (RReload :: l) = rrun r1 l) by done.
  assert (Ha : forall e, rrun r1 (es ++ e :: es') = rrun (rstep r1 e) es').
  { intros e. unfold rrun. rewrite fold_left_app. fold (rrun r1 es). rewrite (rrun_quiet es r1 n); done. }
  rewrite !Hr, !Ha, (rrun_quiet es r1 n) by done. cbn [rstep r_seq r1 r_data]. rewrite Nat.eqb_refl.
  by rewrite !(rrun_quiet es' _ n).
Qed.

Lemma resource_shows_its_latest_call_witness :
  rrun (Resource (Some 5) None false 3) [RReload; RAnswer 3 6; RFail 4 "down"; RAnswer 2 9] = Resource (Some 5) (Some "down") false 4.
Proof.
  apply (resource_shows_its_latest_call (Resource (Some 5) None false 3) [RAnswer 3 6] [RAnswer 2 9] 0 "down"); repeat constructor; done.
Defined.

(** ** Chips *)

(** A value of the column as the chips write it: null, or some of the options, in
    their order. *)
Definition normal (options : list string) (v : option (list string)) : Prop :=
  match v with
  | None => True
  | Some l => l <> [] /\ exists p : string -> bool, l = List.filter p options
  end.

Lemma elem_filter (p : string -> bool) (l : list string) x : x ∈ List.filter p l <-> x ∈ l /\ p x = true.
Proof. by rewrite list_elem_of_In, filter_In, <- list_elem_of_In. Qed.

Lemma normal_ext options v v' :
  normal options v -> normal options v' ->
  (forall x, x ∈ options -> (x ∈ default [] v <-> x ∈ default [] v')) -> v = v'.
Proof.
  assert (Hne : forall p, List.filter p options <> [] -> exists x, x ∈ options /\ x ∈ List.filter p options).
  { intros p Hp. destruct (List.filter p options) as [|x l] eqn:E; [done|]. exists x.
    assert (Hx : x ∈ List.filter p options) by (rewrite E; left). split; [by apply elem_filter in Hx as [? _]|left]. }
  destruct v as [l|], v' as [l'|]; cbn; intros H H' Hs; [|exfalso|exfalso|done].
  - destruct H as [_ [p ->]], H' as [_ [p' ->]]. f_equal. apply filter_ext_in. intros x Hx%list_elem_of_In.
    specialize (Hs x Hx). rewrite !elem_filter in Hs. destruct (p x), (p' x); naive_solver.
  - destruct H as [Hn [p ->]]. destruct (Hne p Hn) as (x & Hx & Hp). apply (not_elem_of_nil x). by apply Hs.
  - destruct H' as [Hn [p ->]]. destruct (Hne p Hn) as (x & Hx & Hp). apply (not_elem_of_nil x). by apply Hs.
Qed.

Lemma toggle_on options v o x : x ∈ options -> 
  (x ∈ default [] (chip_toggle options v o) <-> if decide (x = o) then o ∉ default [] v else x ∈ default [] v).
Proof.
  intros Hx. unfold chip_toggle. set (on := default [] v).
  set (next := if decide (o ∈ on) then _ else _).
  assert (Hn : x ∈ next <-> if decide (x = o) then o ∉ on else x ∈ on).
  { unfold next. destruct (decide (o ∈ on)), (decide (x = o)) as [->|]; rewrite ?elem_filter, ?elem_of_app, ?list_elem_of_singleton, ?negb_true_iff, ?String.eqb_neq; naive_solver. }
  rewrite <- Hn. destruct next as [|y l]; [done|].
  unfold default, from_option, id. rewrite elem_filter, bool_decide_eq_true. naive_solver.
Qed.

Lemma toggle_normal options v o : normal options v -> o ∈ options -> normal options (chip_toggle options v o).
Proof.
  intros Hv Ho. unfold chip_toggle. set (on := default [] v).
  destruct (if decide (o ∈ on) then _ else _) as [|y l] eqn:E; [done|]. split; [|by eexists].
  intros Hnil. apply (not_elem_of_nil y). rewrite <- Hnil. apply elem_filter.
  rewrite bool_decide_eq_true. split; [|left].
  assert (Hy : y ∈ y :: l) by left. rewrite <- E in Hy.
  assert (Hon : forall z, z ∈ on -> z ∈ options).
  { unfold on. destruct v as [l'|]; cbn; [|by intros z ?%not_elem_of_nil]. destruct Hv as [_ [p ->]]. intros z [? _]%elem_filter. done. }
  destruct (decide (o ∈ on)); [apply elem_filter in Hy as [Hy _]; auto|].
  apply elem_of_app in Hy as [Hy| ->%list_elem_of_singleton]; auto.
Qed.

(** The chips of a set column: a click adds or removes exactly that option, in the
    order of the options and with null for none left; a second click restores the
    value. *)
Theorem set_chips_toggle (options : list string) (v : option (list string)) (o : string) :
  normal options v -> o ∈ options ->
  let v' := chip_toggle options v o in
  normal options v' /\
  (forall x, x ∈ options -> (x ∈ default [] v' <-> if decide (x = o) then o ∉ default [] v else x ∈ default [] v)) /\
  chip_toggle options v' o = v.
Proof.
  intros Hv Ho v'. split_and!; [by apply toggle_normal|intros x Hx; by apply toggle_on|].
  apply (normal_ext options); [by repeat apply toggle_normal|done|]. intros x Hx. rewrite toggle_on by done.
  unfold v'. destruct (decide (x = o)) as [->|]; rewrite toggle_on by done; [|by destruct (decide (x = o))].
  destruct (decide (o = o)); [|done]. destruct (decide (o ∈ default [] v)); naive_solver.
Qed.

(** ** Fields *)

Definition segment (s : string) : Prop := s <> "" /\ sall field_char s = true.

(** A field as a path of segments. *)
Fixpoint path (first : string) (more : list string) : string :=
  match more with [] => first | s :: more => first +:+ "." +:+ path s more end.

Lemma word_segment s t b : sall field_char s = true -> s <> "" -> word_path b (s +:+ t) = (fun p => s +:+ p) <$> word_path true t.
Proof.
  revert b. induction s as [|c s IH]; intros b Ha Hn; [done|]. cbn [sall] in Ha. apply andb_true_iff in Ha as [Hc Ha].
  change (String c s +:+ t) with (String c (s +:+ t)). cbn [word_path]. rewrite Hc.
  destruct (decide (s = "")) as [->|Hs]; [change ("" +:+ t) with t; by destruct (word_path true t)|]. rewrite IH by done. by destruct (word_path true t).
Qed.

(** What follows the path: nothing that continues a match. *)
Definition key_ends (t : string) : Prop := word_path true t = Some "".

Lemma word_path_path first more t :
  Forall segment (first :: more) -> key_ends t -> word_path false (path first more +:+ t) = Some (path first more).
Proof.
  revert first. induction more as [|s more IH]; intros first [Hf Hm]%Forall_cons Ht; destruct Hf as [Hn Ha].
  - cbn [path]. rewrite word_segment, Ht by done. cbn. by rewrite string_app_nil_r.
  - cbn [path]. rewrite string_app_assoc, word_segment by done. 
    change ("." +:+ path s more) with (String "." (path s more)).
    change (String "." (path s more) +:+ t) with (String "." (path s more +:+ t)). 
    cbn [word_path field_char]. change (field_char ".") with false. cbv iota. rewrite Ascii.eqb_refl, IH by done. done.
Qed.

Lemma starts_with_spec p s : starts_with p s = true <-> exists r, s = p +:+ r.
Proof.
  revert s. induction p as [|c p IH]; intros s; [split; [by exists s|done]|]. destruct s as [|d s]; cbn [starts_with].
  - split; [done|]. by intros [r [=]].
  - rewrite andb_true_iff, IH. split.
    + intros [->%Ascii.eqb_eq [r ->]]. by exists r.
    + intros [r H]. change (String d s = String c (p +:+ r)) in H. injection H as -> ->. rewrite Ascii.eqb_refl. by eauto.
Qed.

Lemma path_not_empty first more : segment first -> path first more <> "".
Proof. intros [Hn _]. destruct more, first; done. Qed.

Lemma errText_id m t : m <> "" -> errText (m +:+ t) = m +:+ t.
Proof. by destruct m. Qed.

Lemma invalid_spec e key k : errKey e = Some k -> (invalid e key = true <-> k = key \/ exists r, k = key +:+ "." +:+ r).
Proof.
  intros E. unfold invalid. rewrite E, orb_true_iff, String.eqb_eq, starts_with_spec.
  split; (intros [?|[r H]]; [by left|right; exists r]); by rewrite H, ?string_app_assoc.
Qed.

(** Text that ends a field's name in a message. *)
Definition ends_name (t : string) : Prop :=
  match t with EmptyString => True | String c _ => word_char c = false /\ c <> "."%char end.

Lemma ends_name_key t : ends_name t -> key_ends t.
Proof.
  destruct t as [|c t]; [done|]. intros [Hw Hd]. unfold key_ends. cbn [word_path].
  assert (Hf : field_char c = false) by (unfold word_char in Hw; by destruct (field_char c)).
  rewrite Hf, Hw. by destruct (Ascii.eqb_spec c ".").
Qed.

(** A refusal that begins with the name of a field, a path of lower-case segments,
    marks that field and the groups around it, and no other. *)
Theorem refusal_marks_its_field (first : string) (more : list string) (t key : string) :
  Forall segment (first :: more) -> ends_name t ->
  let field := path first more in
  invalid (Some (field +:+ t)) key = true <-> field = key \/ exists r, field = key +:+ "." +:+ r.
Proof.
  intros Hs Ht field. apply invalid_spec. cbn [errKey mbind option_bind].
  rewrite errText_id by (by inversion_clear Hs; apply path_not_empty). by apply word_path_path, ends_name_key.
Qed.

(** A refusal that names a field whose last segment has a digit, as the
    documented [spec.sha256 must ...] does, is read as naming the group the field is
    in: the group is marked and the field is not, and without a group nothing is. *)
Theorem digit_fields_are_not_marked (first : string) (more : list string) (seg : string) (d : ascii) (rest t : string) :
  Forall segment (first :: more) -> segment seg -> is_digit d = true ->
  let field := path first more +:+ "." +:+ seg +:+ String d rest in
  errKey (Some (field +:+ t)) = Some (path first more) /\
  invalid (Some (field +:+ t)) field = false /\
  errKey (Some ((seg +:+ String d rest) +:+ t)) = None.
Proof.
  intros Hs [Hn Ha] Hd field.
  assert (Hf : field_char d = false).
  { unfold is_digit in Hd. unfold field_char. apply andb_prop in Hd as [?%Nat.leb_le ?%Nat.leb_le].
    apply orb_false_iff. split; [apply andb_false_iff; left; apply Nat.leb_gt; lia|apply Nat.eqb_neq; lia]. }
  assert (Hstop : forall u, word_path true (String d u) = None).
  { intros u. cbn [word_path]. rewrite Hf. unfold word_char. rewrite Hd, orb_true_r.
    destruct (Ascii.eqb_spec d "."); [by subst d|done]. }
  assert (Hseg : forall u, word_path false (seg +:+ String d u) = None) by (intros u; by rewrite word_segment, Hstop).
  assert (Hk : errKey (Some (field +:+ t)) = Some (path first more)).
  { cbn [errKey mbind option_bind]. unfold field. rewrite string_app_assoc, errText_id by (by inversion_clear Hs; apply path_not_empty).
    apply word_path_path; [done|]. unfold key_ends.
    change (("." +:+ seg +:+ String d rest) +:+ t) with (String "." ((seg +:+ String d rest) +:+ t)).
    rewrite string_app_assoc. change (String d rest +:+ t) with (String d (rest +:+ t)). cbn [word_path].
    change (field_char ".") with false. cbv iota. by rewrite Ascii.eqb_refl, Hseg. }
  split_and!; [done| |].
  - destruct (invalid _ field) eqn:E; [|done]. apply (invalid_spec _ _ _ Hk) in E. exfalso.
    assert (Hl : (String.length (path first more) < String.length field)%nat).
    { unfold field. rewrite !string_app_length. cbn. lia. }
    destruct E as [E|[r E]]; rewrite E in Hl; [lia|]. rewrite string_app_length in Hl. lia.
  - cbn [errKey mbind option_bind]. rewrite string_app_assoc, errText_id by done. apply Hseg.
Qed.

Lemma digit_fields_are_not_marked_witness :
  invalid (Some "spec.sha256 must be 64 lowercase hex characters.") "spec.sha256" = false.
Proof.
  apply (digit_fields_are_not_marked "spec" [] "sha" "2" "56" " must be 64 lowercase hex characters."); [|by split|done].
  constructor; [by split|constructor].
Defined.

(** ** The store *)

(** The store is shown as good exactly when a fresh check found it mounted and
    linked, and as broken exactly when a fresh check found that it is not; a check
    that is missing, stale or failed is neither. *)
Theorem store_badge_is_honest (now : num) (st : option store) :
  let fresh s := st_known s = true /\ st_stale s = false /\ st_reachable s = true in
  (b_cls (storeView now st) = "ok" <-> exists s, st = Some s /\ fresh s /\ st_mounted s = true /\ st_linked s = true) /\
  (b_cls (storeView now st) = "crit" <-> exists s, st = Some s /\ fresh s /\ (st_mounted s = false \/ st_linked s = false)).
Proof.
  cbv zeta. destruct st as [[k sl r m l reason ch]|]; [|split; split; [done|by intros (? & ? & _)|done|by intros (? & ? & _)]].
  destruct k, sl, r, m, l; cbn; (split; split; [intros H|intros (? & [= <-] & H)|intros H|intros (? & [= <-] & H)]; cbn in *);
    try done; try (eexists; split; [done|]; cbn; tauto); exfalso; naive_solver.
Qed.

Lemma fmtBytes_examples :
  fmtBytes (ofZ 1023) = Some "1023 B" /\ fmtBytes (ofZ 1536) = Some "1.5 KiB" /\
  fmtBytes (ofZ 1048575) = Some "1024 KiB" /\ fmtBytes (ofZ (-1)) = None.
Proof. by vm_compute. Qed.
