(* ===== verification/ProvDeploy.v ===== *)
(** * The deploy tab of the provisioning screen (screens-prov.jsx)

    A target, an image and stacks are chosen, a dialog confirms, and a request to
    reinstall the machine or to apply the stacks is sent.  This file has the choice
    and the reasons that block it, the grouping of images, the dialog with its
    requests in flight as a step function over events, and the images whose refresh
    the screen waits for. *)

From Stdlib Require Import ZArith Lia Ascii.
From stdpp Require Import strings list gmap pretty.
From S2P Require Import Prelude JsNum JsValue ProvStacks ProvKit.

Local Open Scope string_scope.
Local Open Scope list_scope.
Local Open Scope Z_scope.

(** ** Data *)

Record image := Image { im_id : Z; im_distro : string; im_family : string; im_release_name : string;
                        im_release_label : string; im_arch : string; im_boot : string; im_fetched : bool;
                        im_fetched_at : option string; im_policy : string; im_sha256 : string }.

Record iface := Iface { if_name : string; if_mac : string; if_management : bool }.

(** The architecture is [None] when it is null. *)
Record target := Target { tg_id : string; tg_name : string; tg_arch : option string; tg_ifaces : list iface;
                          tg_make : string; tg_model : string; tg_model_id : option Z }.

(** A stack with its name, its members unless their read failed, and its count. *)
Record dstack := DStack { d_row : stack; d_name : string; d_members : option (list Z); d_count : Z }.

Record dsoft := DSoft { ds_row : software; ds_conflicts : list Z }.

Definition imageLabel (img : option image) : string :=
  match img with
  | None => ""
  | Some i => distroLabel (im_distro i) +:+ " " +:+ or_text (im_release_label i) (im_release_name i) +:+ " " +:+ im_arch i
  end.

Definition STALE_DAYS (policy : string) : option Z :=
  if String.eqb policy "weekly" then Some 8 else if String.eqb policy "point_release" then Some 45 else None.

Definition REFRESH (policy : string) : string :=
  if String.eqb policy "manual" then "Manual" else if String.eqb policy "weekly" then "Weekly (rolling)"
  else "On point release".

Inductive freshness := FNone | FStale | FOk.

(** [at] is the parsed [fetched_at]. *)
Definition imageFreshness (now at_ : num) (i : image) : freshness * string :=
  if negb (im_fetched i) then (FNone, "No verified artifact yet — refresh to fetch it.")
  else
    let ok := (FOk, "Checksum verified at fetch: " +:+ im_sha256 i) in
    match STALE_DAYS (im_policy i) with
    | Some days =>
        if is_finite at_ then
          let age := ndiv (nsub now at_) (ofZ 86400000) in
          if ngt age (ofZ days)
          then (FStale, "Fetched " +:+ num_str (nfloor age) +:+ " days ago; " +:+ toLowerCase (REFRESH (im_policy i)) +:+
                        " images go stale after " +:+ pretty days +:+ " days.")
          else ok
        else ok
    | None => ok
    end.

(** ** The choice *)

Definition primaryIface (t : target) : option iface :=
  match snd <$> list_find (fun i => if_management i = true) (tg_ifaces t) with
  | Some i => Some i
  | None => hd_error (tg_ifaces t)
  end.

Definition modelName (t : target) : string :=
  String.concat " " (List.filter (fun s => negb (String.eqb s "")) [tg_make t; tg_model t]).

Definition archUnknownReason (t : target) : string :=
  "Target CPU architecture unknown — " +:+
  match tg_model_id t with
  | Some _ => "set the CPU architecture on hardware model " +:+ modelName t +:+ " (Inventory) or let the agent report it."
  | None => "give " +:+ tg_name t +:+ " a hardware model with a CPU architecture (Inventory) or let the agent report it."
  end.

Inductive mode := Reimage | ApplyOnly.
#[global] Instance mode_eq_dec : EqDecision mode. Proof. solve_decision. Defined.

(** What the screen has loaded, and what is chosen on it. *)
Record choice := Choice {
  c_live : bool; c_op : bool;
  c_images : list image; c_stacks : list dstack; c_pool : list dsoft; c_targets : list target;
  c_target : string; c_mode : mode; c_image : option Z; c_picked : list string; c_mac : string }.

Definition target_of (c : choice) : option target := snd <$> list_find (fun t => tg_id t = c_target c) (c_targets c).

Definition tArch (c : choice) : option string := t ← target_of c; tg_arch t.

Definition iface_of (c : choice) : option iface :=
  t ← target_of c;
  match snd <$> list_find (fun i => if_mac i = c_mac c) (tg_ifaces t) with
  | Some i => Some i
  | None => primaryIface t
  end.

Definition rows (c : choice) : list stack := map d_row (c_stacks c).

Definition pickedLive (c : choice) : list string := List.filter (fun s => bool_decide (s ∈ map slug (rows c))) (c_picked c).

Definition plan (c : choice) : list string * option (list string) := resolveOrder (rows c) (pickedLive c).

(** [bySlug[slug]]: the last row of that slug. *)
Definition bySlug (c : choice) (s : string) : option dstack := snd <$> list_find (fun d => slug (d_row d) = s) (rev (c_stacks c)).

Definition itemCount (c : choice) : Z := fold_left (fun n s => n + from_option d_count 0 (bySlug c s)) (plan c).1 0.

Definition BOOT (b : string) : string :=
  if String.eqb b "ipxe" then "iPXE" else if String.eqb b "pi_netboot" then "Pi netboot" else if String.eqb b "media" then "Write to media" else b.

Definition offReason (c : choice) (img : image) : string :=
  match tArch c with
  | Some a => if negb (String.eqb (im_arch img) a) then "image is " +:+ im_arch img +:+ ", target is " +:+ a
              else if decide (c_mode c = ApplyOnly) then "not used in apply-only mode" else ""
  | None => if decide (c_mode c = ApplyOnly) then "not used in apply-only mode" else ""
  end.

Definition pickReason (c : choice) (img : image) : string :=
  let off := offReason c img in
  if negb (String.eqb off "") then off
  else if negb (im_fetched img) then "not fetched — refresh it first"
  else if negb (String.eqb (im_boot img) "ipxe") then "only iPXE images can be staged for netboot (" +:+ BOOT (im_boot img) +:+ ")"
  else "".

Definition selImage (c : choice) : option image := id ← c_image c; snd <$> list_find (fun i => im_id i = id) (c_images c).

Definition selOk (c : choice) : bool := match selImage c with Some i => String.eqb (pickReason c i) "" | None => false end.

(** [famBlockers]: members of the planned stacks without a name in the image's family. *)
Definition famBlockers (c : choice) : list string :=
  match c_mode c, selImage c with
  | Reimage, Some i =>
      omap (fun s =>
        d ← bySlug c s; ms ← d_members d;
        un ← snd <$> assoc (im_family i) (stackCompat ms (map ds_row (c_pool c)) (tArch c)).1;
        match un with [] => None | _ => Some (d_name d +:+ ": " +:+ String.concat ", " un) end) (plan c).1
  | _, _ => []
  end.

Definition soft_of (c : choice) (id : Z) : option dsoft := snd <$> list_find (fun s => sw_id (ds_row s) = id) (rev (c_pool c)).

(** [from]: the names of the planned stacks that pull in each pool entry. *)
Definition pull_in (name : string) (from : gmap Z (list string)) (m : Z) : gmap Z (list string) :=
  <[m := default [] (from !! m) ++ [name]]> from.

Definition from_of (c : choice) : gmap Z (list string) :=
  fold_left (fun from s =>
    match bySlug c s with
    | Some (DStack _ name (Some ms) _) => fold_left (pull_in name) ms from
    | _ => from
    end) (plan c).1 ∅.

(** A pair is listed at its lower entry; [Object.keys] is in ascending order. *)
Definition conflicts (c : choice) : list string :=
  let from := from_of c in
  let names id := String.concat ", " (default [] (from !! id)) in
  let label id := from_option (fun s => logical_name (ds_row s)) "" (soft_of c id) in
  flat_map (fun id =>
    match soft_of c id with
    | Some sw =>
        map (fun other => label id +:+ " (" +:+ names id +:+ ") ✕ " +:+ label other +:+ " (" +:+ names other +:+ ")")
          (List.filter (fun other => (sw_id (ds_row sw) <? other) && bool_decide (is_Some (from !! other)) &&
                                     bool_decide (is_Some (soft_of c other))) (ds_conflicts sw))
    | None => []
    end) (sort_by Z.leb (map fst (map_to_list from))).

(** The reason the button is disabled; empty when it is not. *)
Definition blockedText (c : choice) : string :=
  if negb (c_live c) then "Live API unavailable — actions are paused."
  else if negb (c_op c) then "Operator role required to deploy."
  else match target_of c with
  | None => "Choose a target machine."
  | Some t =>
      match (plan c).2 with
      | Some cycle => "Stack dependency cycle: " +:+ String.concat " → " cycle +:+ "."
      | None =>
          if (length (plan c).1 =? 0)%nat then "No stacks to run."
          else if negb (length (conflicts c) =? 0)%nat then "Conflicting entries selected: " +:+ String.concat "; " (conflicts c) +:+ "."
          else match c_mode c with
          | ApplyOnly => ""
          | Reimage =>
              match tArch c, iface_of c with
              | None, _ => archUnknownReason t
              | Some _, None => "Target has no interface with a MAC address."
              | Some _, Some _ =>
                  if selOk c then ""
                  else match selImage c with
                  | Some i => "Image not deployable: " +:+ pickReason c i +:+ "."
                  | None => "Select an image."
                  end
              end
          end
      end
  end.

(** The line above the button; [state] is the state of the target's agent, if one
    matches. *)
Definition warnline (c : choice) (state : option (option string)) : string :=
  match target_of c with
  | None => ""
  | Some t =>
      match c_mode c with
      | Reimage =>
          match selOk c, iface_of c with
          | true, Some i => "Wipes the install disk on " +:+ tg_name t +:+ "'s next network boot from " +:+ if_name i +:+ " (" +:+ if_mac i +:+
                            "). Staged per-MAC; unstaged machines fall back to local disk."
          | _, _ => ""
          end
      | ApplyOnly =>
          match state with
          | None => "No monitoring agent matches this target; apply needs SSH + sudo on the target."
          | Some (Some st) =>
              if String.eqb st "" || String.eqb st "up" then ""
              else "Target agent is not healthy (" +:+ st +:+ "); apply needs SSH + sudo on the target."
          | Some None => ""
          end
      end
  end.

(** Whether a stack's row is ticked, and whether the selection ticks it. *)
Definition auto (c : choice) (d : dstack) : bool :=
  negb (locked (d_row d)) && negb (bool_decide (slug (d_row d) ∈ c_picked c)) && bool_decide (slug (d_row d) ∈ (plan c).1).

Definition ticked (c : choice) (d : dstack) : bool :=
  locked (d_row d) || auto c d || bool_decide (slug (d_row d) ∈ c_picked c).

Definition toggleStack (c : choice) (s : string) (on : bool) : choice :=
  let rest := List.filter (fun x => negb (String.eqb x s)) (c_picked c) in
  let picked := if on then (if decide (s ∈ c_picked c) then c_picked c else c_picked c ++ [s]) else rest in
  Choice (c_live c) (c_op c) (c_images c) (c_stacks c) (c_pool c) (c_targets c) (c_target c) (c_mode c) (c_image c) picked (c_mac c).

(** ** Images by distro and release *)

Record release := Release { rl_name : string; rl_label : string; rl_rows : list image }.
Record group := Group { gr_distro : string; gr_releases : list release }.

Fixpoint add_release (i : image) (l : list release) : list release :=
  match l with
  | [] => [Release (im_release_name i) (or_text (im_release_label i) (im_release_name i)) [i]]
  | r :: l => if String.eqb (rl_name r) (im_release_name i) then Release (rl_name r) (rl_label r) (rl_rows r ++ [i]) :: l
              else r :: add_release i l
  end.

Fixpoint add_image (l : list group) (i : image) : list group :=
  match l with
  | [] => [Group (im_distro i) (add_release i [])]
  | g :: l => if String.eqb (gr_distro g) (im_distro i) then Group (gr_distro g) (add_release i (gr_releases g)) :: l
              else g :: add_image l i
  end.

Definition groups (images : list image) : list group := fold_left add_image images [].

(** ** The dialog and its requests *)

Record keys := Keys { key_stage : string; key_dry : string; key_apply : string }.

Inductive request :=
  | Stage (entity : string) (image : Z) (stacks : list string) (mac key : string)
  | Apply (entity : string) (stacks : list string) (dry : bool) (key : string).

Definition key_of (r : request) : string := match r with Stage _ _ _ _ k => k | Apply _ _ _ k => k end.

(** The dialog's own state; a new one is mounted with a new number. *)
Record confirm := Confirm { cf_inst : nat; cf_typed : string; cf_busy : bool; cf_error : option string }.

(** A request in flight: the confirmation it was sent from and the target's name. *)
Record flight := Flight { fl_inst : nat; fl_request : request; fl_name : string }.

(** The screen: the choice, the deploy dialog ([dry] and its keys), the mounted
    confirmation, the requests in flight and what was said. *)
Record desk := Desk { k_choice : choice; k_modal : option (bool * keys); k_conf : option confirm; k_next : nat;
                      k_flight : list flight; k_said : list string }.

Inductive devent :=
  | DImages (l : list image) | DStacks (l : list dstack) | DPool (l : list dsoft) | DTargets (l : list target)
  | DTarget (id : string) | DMode (m : mode) | DImage (i : image) | DIface (mac : string)
  | DToggle (s : string) (on : bool) | DAll | DClear
  | DOpen (ks : keys) | DDry (b : bool) | DType (s : string) | DConfirm | DCancel | DEscape
  | DOk (inst : nat) (queued : option string) | DErr (inst : nat) (message : string).

Definition with_image (c : choice) (i : option Z) (mac : string) : choice :=
  Choice (c_live c) (c_op c) (c_images c) (c_stacks c) (c_pool c) (c_targets c) (c_target c) (c_mode c) i (c_picked c) mac.

Definition with_picked (c : choice) (l : list string) : choice :=
  Choice (c_live c) (c_op c) (c_images c) (c_stacks c) (c_pool c) (c_targets c) (c_target c) (c_mode c) (c_image c) l (c_mac c).

Definition with_data (c : choice) (im : list image) (st : list dstack) (po : list dsoft) (tg : list target) : choice :=
  Choice (c_live c) (c_op c) im st po tg (c_target c) (c_mode c) (c_image c) (c_picked c) (c_mac c).

(** A click on the page; another target drops the image and the interface. *)
Definition pick (c : choice) (e : devent) : choice :=
  match e with
  | DTarget id =>
      if String.eqb id (c_target c) then c
      else Choice (c_live c) (c_op c) (c_images c) (c_stacks c) (c_pool c) (c_targets c) id (c_mode c) None (c_picked c) ""
  | DMode m => Choice (c_live c) (c_op c) (c_images c) (c_stacks c) (c_pool c) (c_targets c) (c_target c) m (c_image c) (c_picked c) (c_mac c)
  | DImage i => if String.eqb (pickReason c i) "" then with_image c (Some (im_id i)) (c_mac c) else c
  | DIface mac => with_image c (c_image c) mac
  | DToggle s on => toggleStack c s on
  | DAll => with_picked c (map slug (List.filter (fun s => negb (locked s)) (rows c)))
  | DClear => with_picked c []
  | _ => c
  end.

Definition load (c : choice) (e : devent) : choice :=
  match e with
  | DImages l => with_data c l (c_stacks c) (c_pool c) (c_targets c)
  | DStacks l => with_data c (c_images c) l (c_pool c) (c_targets c)
  | DPool l => with_data c (c_images c) (c_stacks c) l (c_targets c)
  | DTargets l => with_data c (c_images c) (c_stacks c) (c_pool c) l
  | _ => c
  end.

(** [modal.kind === "deploy" && target]: the confirmation is mounted exactly then. *)
Definition render (k : desk) : desk :=
  match k_modal k, target_of (k_choice k), k_conf k with
  | Some _, Some _, None =>
      Desk (k_choice k) (k_modal k) (Some (Confirm (k_next k) "" false None)) (S (k_next k)) (k_flight k) (k_said k)
  | Some _, Some _, Some _ => k
  | _, _, _ => Desk (k_choice k) (k_modal k) None (k_next k) (k_flight k) (k_said k)
  end.

Definition confirmWord (c : choice) (t : target) (dry : bool) : option string :=
  match c_mode c with Reimage => Some (tg_name t) | ApplyOnly => if dry then None else Some (tg_name t) end.

Definition armed (cf : confirm) (word : option string) : bool :=
  negb (cf_busy cf) && match word with Some w => String.eqb w "" || String.eqb (cf_typed cf) w | None => true end.

(** [submitDeploy]; a missing image or interface is a [TypeError]. *)
Definition submitDeploy (c : choice) (t : target) (dry : bool) (ks : keys) : option request :=
  match c_mode c with
  | Reimage =>
      i ← selImage c; f ← iface_of c;
      Some (Stage (tg_id t) (im_id i) (plan c).1 (if_mac f) (key_stage ks))
  | ApplyOnly => Some (Apply (tg_id t) (plan c).1 dry (if dry then key_dry ks else key_apply ks))
  end.

Definition set_conf (k : desk) (cf : option confirm) : desk :=
  Desk (k_choice k) (k_modal k) cf (k_next k) (k_flight k) (k_said k).

Definition set_modal (k : desk) (m : option (bool * keys)) : desk :=
  Desk (k_choice k) m (k_conf k) (k_next k) (k_flight k) (k_said k).

Definition set_choice (k : desk) (c : choice) : desk :=
  Desk c (k_modal k) (k_conf k) (k_next k) (k_flight k) (k_said k).

Definition landed (k : desk) (inst : nat) : list flight :=
  List.filter (fun f => negb (Nat.eqb (fl_inst f) inst)) (k_flight k).

Definition settle (cf : confirm) (inst : nat) (message : string) : confirm :=
  if Nat.eqb (cf_inst cf) inst then Confirm inst (cf_typed cf) false (Some message) else cf.

Definition said_of (f : flight) (queued : option string) : string :=
  match fl_request f with
  | Stage _ _ _ mac _ =>
      "Reinstall of " +:+ fl_name f +:+ " staged on " +:+ mac +:+ from_option (fun q => " — request " +:+ q +:+ " queued") "" queued
  | Apply _ _ dry _ =>
      (if dry then "Dry-run" else "Apply") +:+ " on " +:+ fl_name f +:+
      from_option (fun q => " queued (request " +:+ q +:+ ")") " started" queued
  end.

(** The page behind an open dialog takes no clicks. *)
Definition dhandle (k : desk) (e : devent) : desk * option request :=
  match e with
  | DImages _ | DStacks _ | DPool _ | DTargets _ => (set_choice k (load (k_choice k) e), None)
  | DTarget _ | DMode _ | DImage _ | DIface _ | DToggle _ _ | DAll | DClear =>
      match k_modal k with None => (set_choice k (pick (k_choice k) e), None) | Some _ => (k, None) end
  | DOpen ks =>
      match k_modal k with
      | None => if String.eqb (blockedText (k_choice k)) "" then (set_modal k (Some (true, ks)), None) else (k, None)
      | Some _ => (k, None)
      end
  | DDry b =>
      match k_modal k, k_conf k, c_mode (k_choice k) with
      | Some (_, ks), Some _, ApplyOnly => (set_modal k (Some (b, ks)), None)
      | _, _, _ => (k, None)
      end
  | DType s =>
      match k_conf k with
      | Some cf => (set_conf k (Some (Confirm (cf_inst cf) s (cf_busy cf) (cf_error cf))), None)
      | None => (k, None)
      end
  | DConfirm =>
      match k_modal k, k_conf k, target_of (k_choice k) with
      | Some (dry, ks), Some cf, Some t =>
          if armed cf (confirmWord (k_choice k) t dry) then
            match submitDeploy (k_choice k) t dry ks with
            | Some r =>
                (Desk (k_choice k) (k_modal k) (Some (Confirm (cf_inst cf) (cf_typed cf) true None)) (k_next k)
                   (k_flight k ++ [Flight (cf_inst cf) r (tg_name t)]) (k_said k), Some r)
            | None => (set_conf k (Some (Confirm (cf_inst cf) (cf_typed cf) false (Some "TypeError"))), None)
            end
          else (k, None)
      | _, _, _ => (k, None)
      end
  | DCancel =>
      match k_conf k with
      | Some cf => if cf_busy cf then (k, None) else (set_modal k None, None)
      | None => (k, None)
      end
  | DEscape => match k_conf k with Some _ => (set_modal k None, None) | None => (k, None) end
  | DOk inst queued =>
      match list_find (fun f => fl_inst f = inst) (k_flight k) with
      | Some (_, f) =>
          (Desk (k_choice k) None (k_conf k) (k_next k) (landed k inst) (k_said k ++ [said_of f queued]), None)
      | None => (k, None)
      end
  | DErr inst message =>
      match list_find (fun f => fl_inst f = inst) (k_flight k) with
      | Some _ => (Desk (k_choice k) (k_modal k) ((fun cf => settle cf inst message) <$> k_conf k) (k_next k) (landed k inst) (k_said k), None)
      | None => (k, None)
      end
  end.

Definition dstep (k : desk) (e : devent) : desk * option request := let '(k', r) := dhandle k e in (render k', r).

(** The requests of a sequence of events, in order. *)
Fixpoint drun (k : desk) (es : list devent) : desk * list request :=
  match es with
  | [] => (k, [])
  | e :: es =>
      let '(k', r) := dstep k e in
      let '(k'', rs) := drun k' es in
      (k'', match r with Some r => r :: rs | None => rs end)
  end.

(** ** What blocks a deploy *)

(** The image can be staged for the target. *)
Record deployable (t : target) (i : image) : Prop := {
  dp_arch : tg_arch t = Some (im_arch i);
  dp_fetched : im_fetched i = true;
  dp_boot : im_boot i = "ipxe" }.

Record allowed (c : choice) (t : target) : Prop := {
  al_live : c_live c = true;
  al_op : c_op c = true;
  al_target : target_of c = Some t;
  al_cycle : (plan c).2 = None;
  al_stacks : (plan c).1 <> [];
  al_conflicts : conflicts c = [];
  al_reimage : c_mode c = Reimage -> exists i f, selImage c = Some i /\ iface_of c = Some f /\ deployable t i }.

Lemma pickReason_none c t i a :
  target_of c = Some t -> tg_arch t = Some a -> c_mode c = Reimage -> (pickReason c i = "" <-> deployable t i).
Proof.
  intros Ht Ha Hm. unfold pickReason, offReason, tArch. rewrite Ht. cbn [mbind option_bind]. rewrite Ha, Hm.
  rewrite decide_False by done.
  destruct (String.eqb_spec (im_arch i) a) as [<-|Hn]; cbn [negb].
  - destruct (im_fetched i) eqn:Hf, (String.eqb_spec (im_boot i) "ipxe") as [Hb|Hb]; cbn;
      (split; [done|intros [H1 H2 H3]; congruence]).
  - split; [done|]. intros [H1 _ _]. congruence.
Qed.

Lemma length_nil {A} (l : list A) : (length l =? 0)%nat = true <-> l = [].
Proof. rewrite Nat.eqb_eq. split; [apply nil_length_inv|by intros ->]. Qed.

(** The button is enabled exactly when the deploy is allowed. *)
Lemma blockedText_spec c : blockedText c = "" <-> exists t, allowed c t.
Proof.
  unfold blockedText. split.
  - destruct (c_live c) eqn:Hl; [|done]. destruct (c_op c) eqn:Ho; [|done].
    destruct (target_of c) as [t|] eqn:Ht; [|done]. destruct (plan c).2 as [cy|] eqn:Hc; [done|].
    destruct (length (plan c).1 =? 0)%nat eqn:Hp; [done|]. destruct (length (conflicts c) =? 0)%nat eqn:Hx; [|done].
    apply length_nil in Hx. intros H. exists t. split; try done.
    { intros Hnil. by rewrite Hnil in Hp. }
    intros Hm. rewrite Hm in H. assert (Ha : tArch c = tg_arch t) by (unfold tArch; by rewrite Ht). rewrite Ha in H.
    destruct (tg_arch t) as [a|] eqn:Hta; [|done]. destruct (iface_of c) as [f|]; [|done].
    unfold selOk in H. destruct (selImage c) as [i|]; [|done].
    exists i, f. split_and!; [done..|]. apply (pickReason_none c t i a); [done..|].
    by destruct (String.eqb_spec (pickReason c i) "").
  - intros [t [Hl Ho Ht Hc Hs Hx Hr]]. rewrite Hl, Ho, Ht, Hc, Hx. cbn [negb length Nat.eqb].
    destruct (length (plan c).1 =? 0)%nat eqn:Hp; [by apply length_nil in Hp|].
    destruct (c_mode c) eqn:Hm; [|done]. destruct (Hr eq_refl) as (i & f & Hi & Hf & Hd). unfold tArch, selOk. rewrite Ht, Hi, Hf.
    pose proof (dp_arch _ _ Hd) as Ha. cbn [mbind option_bind]. rewrite Ha.
    by rewrite (proj2 (pickReason_none c t i _ Ht Ha Hm) Hd).
Qed.

(** ** Confirming *)

(** Events after the dialog opened that load nothing; a second opening is another
    deploy. *)
Definition within (e : devent) : Prop :=
  match e with DImages _ | DStacks _ | DPool _ | DTargets _ | DOpen _ => False | _ => True end.

(** Opened on [c] with [ks], the dialog is closed or still about them. *)
Definition about (c : choice) (ks : keys) (k : desk) : Prop :=
  match k_modal k with None => k_conf k = None | Some (_, ks') => k_choice k = c /\ ks' = ks end.

Lemma render_choice k : k_choice (render k) = k_choice k /\ k_modal (render k) = k_modal k /\ k_flight (render k) = k_flight k.
Proof. unfold render. by repeat case_match. Qed.

Lemma render_closed k : k_modal k = None -> k_conf (render k) = None.
Proof. intros H. unfold render. by rewrite H. Qed.

Lemma about_render c ks k : (forall m, k_modal k = Some m -> k_choice k = c /\ m.2 = ks) -> about c ks (render k).
Proof.
  intros H. destruct (render_choice k) as (Hc & Hm & _). unfold about. rewrite Hm, Hc.
  destruct (k_modal k) as [[d ks']|] eqn:E; [by apply (H (d, ks'))|by apply render_closed].
Qed.

Lemma about_step c ks k e : about c ks k -> within e -> about c ks (dstep k e).1.
Proof.
  intros Ha He. unfold dstep. destruct (dhandle k e) as [k' r] eqn:E. cbn [fst]. apply about_render.
  unfold about in Ha. destruct (k_modal k) as [[d ks']|] eqn:Hm.
  - destruct Ha as [Hc ->]. destruct e; cbn in E, He; try done; rewrite ?Hm in E; repeat case_match; simplify_eq; cbn; rewrite ?Hm; naive_solver.
  - destruct e; cbn in E, He; try done; rewrite ?Hm, ?Ha in E; repeat case_match; simplify_eq; cbn; rewrite ?Hm; naive_solver.
Qed.

Lemma drun_cons k e es : (drun k (e :: es)).1 = (drun (dstep k e).1 es).1.
Proof. cbn [drun]. destruct (dstep k e) as [k' r]. cbn [fst]. by destruct (drun k' es). Qed.

Lemma about_run c ks es : forall k, about c ks k -> Forall within es -> about c ks (drun k es).1.
Proof.
  induction es as [|e es IH]; intros k Hk Hes; [done|]. inversion_clear Hes. rewrite drun_cons.
  apply IH; [by apply about_step|done].
Qed.

Lemma dstep_request k e k' r :
  dstep k e = (k', Some r) ->
  e = DConfirm /\ exists dry ks cf t,
    k_modal k = Some (dry, ks) /\ k_conf k = Some cf /\ target_of (k_choice k) = Some t /\
    armed cf (confirmWord (k_choice k) t dry) = true /\ submitDeploy (k_choice k) t dry ks = Some r.
Proof.
  unfold dstep. destruct (dhandle k e) as [k1 r1] eqn:E. intros [= <- ->].
  destruct e; cbn in E; repeat case_match; simplify_eq. split; [done|]. by repeat eexists.
Qed.

Lemma iface_of_target c t f : target_of c = Some t -> iface_of c = Some f -> f ∈ tg_ifaces t.
Proof.
  unfold iface_of, primaryIface. intros ->. cbn [mbind option_bind].
  destruct (list_find (fun i => if_mac i = c_mac c) (tg_ifaces t)) as [[j i]|] eqn:E1; cbn.
  - intros [= ->]. apply list_find_Some in E1 as (H & _). by eapply list_elem_of_lookup_2.
  - destruct (list_find (fun i => if_management i = true) (tg_ifaces t)) as [[j i]|] eqn:E2; cbn.
    + intros [= ->]. apply list_find_Some in E2 as (H & _). by eapply list_elem_of_lookup_2.
    + destruct (tg_ifaces t); [done|]. intros [= ->]. left.
Qed.

Lemma selImage_listed c i : selImage c = Some i -> i ∈ c_images c.
Proof.
  unfold selImage. destruct (c_image c); [|done]. cbn.
  destruct (list_find _ _) as [[j x]|] eqn:E; [|done]. intros [= ->]. apply list_find_Some in E as (H & _). by eapply list_elem_of_lookup_2.
Qed.

Lemma open_about k ks : k_modal k = None -> blockedText (k_choice k) = "" -> about (k_choice k) ks (dstep k (DOpen ks)).1.
Proof.
  intros Hm Hb. unfold dstep. cbn [dhandle]. rewrite Hm, Hb. cbn [String.eqb fst]. apply about_render. by intros m [= <-].
Qed.

(** C23: a deploy is only sent as it was allowed and confirmed.  When no data is loaded
    while the dialog is open, every request of that dialog goes to the chosen target,
    with the whole planned order and without a conflict; a reinstall carries a fetched
    network-boot image of the target's own architecture and a MAC address of the
    target, and was sent with the target's name typed; so was every run that changes
    the target, and it alone carries the key of the live run. *)
Theorem deploy_is_allowed_and_confirmed (k k' : desk) (ks : keys) (es : list devent) (r : request) :
  k_modal k = None -> blockedText (k_choice k) = "" -> Forall within es ->
  dstep (drun (dstep k (DOpen ks)).1 es).1 DConfirm = (k', Some r) ->
  exists t cf, allowed (k_choice k) t /\ k_conf (drun (dstep k (DOpen ks)).1 es).1 = Some cf /\
  match r with
  | Stage entity img stacks mac key =>
      entity = tg_id t /\ stacks = (plan (k_choice k)).1 /\ key = key_stage ks /\ mac ∈ map if_mac (tg_ifaces t) /\
      (exists i, i ∈ c_images (k_choice k) /\ im_id i = img /\ deployable t i) /\ (tg_name t = "" \/ cf_typed cf = tg_name t)
  | Apply entity stacks dry key =>
      entity = tg_id t /\ stacks = (plan (k_choice k)).1 /\ c_mode (k_choice k) = ApplyOnly /\
      (if dry then key = key_dry ks else key = key_apply ks /\ (tg_name t = "" \/ cf_typed cf = tg_name t))
  end.
Proof.
  intros Hm Hb Hes Hs. set (k1 := (drun _ es).1) in *. set (c := k_choice k) in *.
  assert (Ha : about c ks k1) by (apply about_run; [by apply open_about|done]).
  apply dstep_request in Hs as (_ & dry & ks' & cf & t & E1 & E2 & E3 & E4 & E5).
  unfold about in Ha. rewrite E1 in Ha. destruct Ha as [Hc ->]. rewrite Hc in E3, E4, E5.
  destruct (proj1 (blockedText_spec c) Hb) as [t' Hal]. pose proof (al_target _ _ Hal) as Ht. rewrite E3 in Ht. injection Ht as <-.
  exists t, cf. split_and!; [done..|]. unfold armed, confirmWord in E4. apply andb_prop in E4 as [_ E4].
  assert (Hw : forall w, String.eqb w "" || String.eqb (cf_typed cf) w = true -> w = "" \/ cf_typed cf = w) by (intros w; by rewrite orb_true_iff, !String.eqb_eq).
  unfold submitDeploy in E5. destruct (c_mode c) eqn:Hmode.
  - destruct (al_reimage _ _ Hal Hmode) as (i & f & Hi & Hf & Hd). rewrite Hi, Hf in E5. injection E5 as <-.
    split_and!; [done..|apply list_elem_of_fmap; exists f; split; [done|by eapply iface_of_target]| |by apply Hw].
    exists i. split_and!; [by apply selImage_listed|done..].
  - injection E5 as <-. split_and!; [done..|]. destruct dry; [done|]. split; [done|by apply Hw].
Qed.

(** ** One at a time *)

(** Nothing is in flight, or the mounted confirmation waits for the one request. *)
Definition single (k : desk) : Prop :=
  k_flight k = [] \/
  exists cf m f, k_modal k = Some m /\ k_conf k = Some cf /\ cf_busy cf = true /\ is_Some (target_of (k_choice k)) /\
    k_flight k = [f] /\ fl_inst f = cf_inst cf.

(** The dialog is left by its buttons, and its target stays listed. *)
Definition calm (k : desk) (e : devent) : Prop :=
  match e with
  | DEscape => False
  | DTargets _ => k_modal k = None \/ is_Some (target_of (load (k_choice k) e))
  | _ => True
  end.

Fixpoint calm_run (k : desk) (es : list devent) : Prop :=
  match es with [] => True | e :: es => calm k e /\ calm_run (dstep k e).1 es end.

Lemma render_single k : single k -> single (render k).
Proof.
  destruct (render_choice k) as (Hc & Hm & Hf). intros [H|(cf & m & f & H1 & H2 & H3 & [t H4] & H5 & H6)].
  - left. by rewrite Hf.
  - right. exists cf, m, f. rewrite Hc, Hm, Hf. split_and!; [done| |done|by eexists|done|done].
    unfold render. by rewrite H1, H2, H4.
Qed.

Lemma target_of_load c e : (forall l, e <> DTargets l) -> target_of (load c e) = target_of c.
Proof. by destruct e; cbn; intros H; try done; exfalso; eapply H. Qed.

(** While a request is in flight, only its answer changes what the dialog waits for. *)
Lemma waiting_step k e cf m f :
  k_modal k = Some m -> k_conf k = Some cf -> cf_busy cf = true -> is_Some (target_of (k_choice k)) ->
  k_flight k = [f] -> fl_inst f = cf_inst cf -> calm k e -> single (dhandle k e).1.
Proof.
  intros Hm Hcf Hb Ht Hf Hi He. pose proof Ht as [t Et].
  assert (Hload : forall l, (forall x, l <> DTargets x) \/ is_Some (target_of (load (k_choice k) l)) -> single (set_choice k (load (k_choice k) l))).
  { intros l Hl. right. exists cf, m, f. cbn. split_and!; try done. destruct Hl as [Hl|Hl]; [by rewrite target_of_load|done]. }
  assert (Hsame : forall m' cf', cf_inst cf' = cf_inst cf -> cf_busy cf' = true -> single (Desk (k_choice k) (Some m') (Some cf') (k_next k) (k_flight k) (k_said k))).
  { intros m' cf' E1 E2. right. exists cf', m', f. cbn. by rewrite E1. }
  assert (Hk : single k) by (right; by exists cf, m, f).
  assert (Hland : forall inst i x, list_find (fun g => fl_inst g = inst) (k_flight k) = Some (i, x) -> landed k inst = []).
  { intros inst i x E. unfold landed. rewrite Hf in *. apply list_find_Some in E as (E & Hx & _). destruct i; [|done]. injection E as <-.
    cbn. by rewrite Hx, Nat.eqb_refl. }
  destruct m as [d ks]. destruct e; cbn [dhandle]; rewrite ?Hm, ?Hcf, ?Et; try done.
  - match goal with |- context [load _ ?l] => apply (Hload l) end. right. destruct He as [He|He]; [congruence|done].
  - destruct (c_mode (k_choice k)); [done|]. cbn [fst]. unfold set_modal. rewrite Hcf. by apply Hsame.
  - cbn [fst]. unfold set_conf. rewrite Hm. by apply Hsame.
  - unfold armed. by rewrite Hb.
  - by rewrite Hb.
  - destruct (list_find _ _) as [[i x]|] eqn:E; [left|done]. cbn. by eapply Hland.
  - destruct (list_find _ _) as [[i x]|] eqn:E; [left|done]. cbn. by eapply Hland.
Qed.

Lemma idle_step k e : k_flight k = [] -> single (dhandle k e).1.
Proof.
  intros Hf. assert (Hk : single k) by by left.
  destruct e; cbn [dhandle]; try (by left); repeat case_match; try (by left); try done.
  - right. cbn. rewrite Hf. cbn. repeat eexists; [done|..]; eauto.
  - left. cbn. unfold landed. by rewrite Hf.
  - left. cbn. unfold landed. by rewrite Hf.
Qed.

Lemma single_step k e : single k -> calm k e -> single (dstep k e).1.
Proof.
  intros Hk He. assert (Hh : single (dhandle k e).1).
  { destruct Hk as [Hf|(cf & m & f & H1 & H2 & H3 & H4 & H5 & H6)]; [by apply idle_step|by eapply waiting_step]. }
  unfold dstep. destruct (dhandle k e). by apply render_single.
Qed.

Lemma drun_app k es es' :
  (drun k (es ++ es')).1 = (drun (drun k es).1 es').1 /\ (drun k (es ++ es')).2 = (drun k es).2 ++ (drun (drun k es).1 es').2.
Proof.
  revert k. induction es as [|e es IH]; intros k; [done|]. cbn [app drun]. destruct (dstep k e) as [k1 r].
  destruct (IH k1) as [H1 H2]. destruct (drun k1 (es ++ es')) as [k2 rs], (drun k1 es) as [k3 rs']. cbn in *. rewrite H1, H2. by destruct r.
Qed.

Lemma calm_run_app k es es' : calm_run k (es ++ es') <-> calm_run k es /\ calm_run (drun k es).1 es'.
Proof.
  revert k. induction es as [|e es IH]; intros k; [cbn; tauto|]. cbn [app calm_run]. rewrite IH, drun_cons. tauto.
Qed.

Lemma single_run es : forall k, single k -> calm_run k es -> single (drun k es).1.
Proof.
  induction es as [|e es IH]; intros k Hk He; [done|]. rewrite drun_cons. destruct He. apply IH; [by apply single_step|done].
Qed.

(** The key a request of the dialog carries. *)
Definition uses (ks : keys) (r : request) : Prop :=
  key_of r = match r with Stage _ _ _ _ _ => key_stage ks | Apply _ _ dry _ => if dry then key_dry ks else key_apply ks end.

Definition not_open (e : devent) : Prop := match e with DOpen _ => False | _ => True end.

Definition keyed (ks : keys) (k : desk) : Prop := forall m, k_modal k = Some m -> m.2 = ks.

Lemma submit_uses c t dry ks r : submitDeploy c t dry ks = Some r -> uses ks r.
Proof.
  unfold submitDeploy. destruct (c_mode c); [|by intros [= <-]].
  destruct (selImage c); [|done]. cbn. destruct (iface_of c); [|done]. by intros [= <-].
Qed.

Lemma handle_modal k e :
  not_open e -> let m' := k_modal (dhandle k e).1 in
  m' = k_modal k \/ m' = None \/ exists d d' ks, k_modal k = Some (d, ks) /\ m' = Some (d', ks).
Proof.
  intros He. destruct e; cbn [dhandle]; try done; repeat case_match; try (by left); try (by right; left); right; right; by repeat eexists.
Qed.

Lemma keyed_step ks k e : keyed ks k -> not_open e -> keyed ks (dstep k e).1 /\ from_option (uses ks) True (dstep k e).2.
Proof.
  intros Hk He. split.
  - pose proof (handle_modal k e He) as H. unfold dstep. destruct (dhandle k e) as [k' r]. cbn [fst] in *.
    destruct (render_choice k') as (_ & Em & _). unfold keyed. rewrite Em. cbv zeta in H.
    destruct H as [->|[->|(d & d' & ks' & E1 & ->)]]; [done|done|]. intros m [= <-]. exact (Hk _ E1).
  - destruct (dstep k e) as [k' [r|]] eqn:E; [|done]. cbn.
    apply dstep_request in E as (_ & dry & ks' & cf & t & E1 & _ & _ & _ & E5). specialize (Hk _ E1). cbn in Hk. subst ks'.
    by eapply submit_uses.
Qed.

Lemma keyed_run ks es : forall k, keyed ks k -> Forall not_open es -> Forall (uses ks) (drun k es).2.
Proof.
  induction es as [|e es IH]; intros k Hk Hes; [constructor|]. inversion_clear Hes as [|? ? He Hes']. cbn [drun].
  destruct (keyed_step ks k e Hk He) as [H1 H2]. destruct (dstep k e) as [k' r]. specialize (IH k' H1 Hes').
  destruct (drun k' es) as [k'' rs]. destruct r; [by constructor|done].
Qed.

(** C24: deploys go one at a time.  As long as dialogs are left by their buttons and
    their target stays listed, a request is only sent when none is in flight, so a
    second one follows an answer; and whatever happens until another dialog opens,
    data that is loaded and failures that are retried included, every request of a
    dialog carries its key, one for each kind of request. *)
Theorem deploys_go_one_at_a_time (k k' : desk) (es : list devent) (e : devent) (r : request) (ks : keys) :
  k_flight k = [] -> calm_run k es -> dstep (drun k es).1 e = (k', Some r) ->
  k_flight (drun k es).1 = [] /\ length (k_flight k') = 1%nat /\
  (keyed ks k -> Forall not_open es -> Forall (uses ks) ((drun k es).2 ++ [r])).
Proof.
  intros Hf Hc Hs. assert (H1 : single (drun k es).1) by (apply single_run; [by left|done]).
  pose proof (dstep_request _ _ _ _ Hs) as (-> & dry & ks' & cf & t & E1 & E2 & E3 & E4 & E5).
  assert (Hidle : k_flight (drun k es).1 = []).
  { destruct H1 as [|(cf' & m & f & _ & H & Hb & _)]; [done|]. rewrite E2 in H. injection H as <-. unfold armed in E4. by rewrite Hb in E4. }
  split_and!; [done| |].
  - unfold dstep in Hs. destruct (dhandle _ DConfirm) as [k1 r1] eqn:E. injection Hs as <- ->.
    destruct (render_choice k1) as (_ & _ & ->). cbn in E. rewrite E1, E2, E3, E4, E5 in E. injection E as <-. cbn. by rewrite Hidle.
  - intros Hk Ho. pose proof (keyed_run ks (es ++ [DConfirm]) k Hk) as H. destruct (drun_app k es [DConfirm]) as [_ E]. rewrite E in H.
    cbn [drun] in H. rewrite Hs in H. apply H. apply Forall_app. by repeat constructor.
Qed.

(** *** Leaving by the keyboard *)

Lemma open_type_confirm k ks t i f :
  k_modal k = None -> k_conf k = None -> blockedText (k_choice k) = "" -> c_mode (k_choice k) = Reimage ->
  target_of (k_choice k) = Some t -> selImage (k_choice k) = Some i -> iface_of (k_choice k) = Some f ->
  let r := Stage (tg_id t) (im_id i) (plan (k_choice k)).1 (if_mac f) (key_stage ks) in
  drun k [DOpen ks; DType (tg_name t); DConfirm] =
  (Desk (k_choice k) (Some (true, ks)) (Some (Confirm (k_next k) (tg_name t) true None)) (S (k_next k))
     (k_flight k ++ [Flight (k_next k) r (tg_name t)]) (k_said k), [r]).
Proof.
  intros Hm Hcf Hb Hmode Ht Hi Hf. destruct k as [c m cf n fl sd]; cbn in *. subst m cf.
  set (k0 := Desk c None None n fl sd).
  assert (Hr : forall cf' fl', render (Desk c (Some (true, ks)) (Some cf') (S n) fl' sd) = Desk c (Some (true, ks)) (Some cf') (S n) fl' sd)
    by (intros cf' fl'; unfold render; cbn [k_modal k_choice k_conf]; by rewrite Ht).
  assert (E1 : dstep k0 (DOpen ks) = (Desk c (Some (true, ks)) (Some (Confirm n "" false None)) (S n) fl sd, None)).
  { unfold dstep. cbn [dhandle k_modal k_choice k0]. rewrite Hb. unfold render. cbn. by rewrite Ht. }
  assert (E2 : dstep (Desk c (Some (true, ks)) (Some (Confirm n "" false None)) (S n) fl sd) (DType (tg_name t)) =
               (Desk c (Some (true, ks)) (Some (Confirm n (tg_name t) false None)) (S n) fl sd, None)).
  { unfold dstep. cbn [dhandle]. unfold set_conf. cbn -[render]. by rewrite Hr. }
  set (r := Stage _ _ _ _ _).
  assert (E3 : dstep (Desk c (Some (true, ks)) (Some (Confirm n (tg_name t) false None)) (S n) fl sd) DConfirm =
               (Desk c (Some (true, ks)) (Some (Confirm n (tg_name t) true None)) (S n) (fl ++ [Flight n r (tg_name t)]) sd, Some r)).
  { unfold dstep. cbn [dhandle k_modal k_conf k_choice]. rewrite Ht. unfold confirmWord, submitDeploy. rewrite Hmode, Hi, Hf.
    unfold armed. cbn [cf_busy cf_typed negb andb]. rewrite String.eqb_refl, orb_true_r. cbn -[render]. by rewrite Hr. }
  cbn [drun]. by rewrite E1, E2, E3.
Qed.

(** The dialog can be left with Escape while its request is in flight, although
    its buttons are disabled then; opened again, it sends a second reinstall of the
    same machine under another key while the first is not answered. *)
Theorem escape_allows_a_second_deploy (k : desk) (ks ks' : keys) (t : target) :
  k_modal k = None -> k_conf k = None -> k_flight k = [] -> blockedText (k_choice k) = "" ->
  c_mode (k_choice k) = Reimage -> target_of (k_choice k) = Some t ->
  let go ks := [DOpen ks; DType (tg_name t); DConfirm] in
  exists image stacks mac,
    let first := Stage (tg_id t) image stacks mac (key_stage ks) in
    let second := Stage (tg_id t) image stacks mac (key_stage ks') in
    (drun k (go ks ++ DEscape :: go ks')).2 = [first; second] /\
    map fl_request (k_flight (drun k (go ks ++ DEscape :: go ks')).1) = [first; second].
Proof.
  intros Hm Hcf Hf Hb Hmode Ht go. destruct (proj1 (blockedText_spec _) Hb) as [t' Hal].
  destruct (al_reimage _ _ Hal Hmode) as (i & f & Hi & Hif & _).
  exists (im_id i), (plan (k_choice k)).1, (if_mac f). cbv zeta.
  destruct (drun_app k (go ks) (DEscape :: go ks')) as [E1 E2]. rewrite E1, E2.
  pose proof (open_type_confirm k ks t i f Hm Hcf Hb Hmode Ht Hi Hif) as G. cbv zeta in G. fold (go ks) in G. rewrite G. cbn [fst snd]. rewrite Hf.
  set (k1 := Desk _ _ _ _ _ _). assert (Hk : dstep k1 DEscape = (Desk (k_choice k) None None (S (k_next k)) (k_flight k1) (k_said k), None)) by done.
  assert (Hd : drun k1 (DEscape :: go ks') = drun (Desk (k_choice k) None None (S (k_next k)) (k_flight k1) (k_said k)) (go ks')).
  { cbn [drun]. rewrite Hk. by destruct (drun _ (go ks')). }
  rewrite Hd. unfold go. by rewrite (open_type_confirm _ ks' t i f).
Qed.

(** *** A machine to reinstall *)

Module Example1.

Definition img : image := Image 7 "debian" "debian" "bookworm" "" "x86_64" "ipxe" true (Some "2026-01-01") "manual" "ab".
Definition host : target := Target "12" "node1" (Some "x86_64") [Iface "eth1" "02:01" false; Iface "eth0" "02:00" true] "" "" None.
Definition base : dstack := DStack (Stack "base" true 10 []) "Base" (Some [1; 2]) 2.
Definition web : dstack := DStack (Stack "web" false 20 []) "Web" (Some [3]) 1.
Definition soft (id : Z) (name : string) (cf : list Z) : dsoft := DSoft (Software id name None None []) cf.
Definition pool : list dsoft := [soft 1 "vim" []; soft 2 "nginx" [3]; soft 3 "apache" [2]].

Definition ch : choice := Choice true true [img] [base; web] pool [host] "12" Reimage (Some 7) [] "".
Definition dk : desk := Desk ch None None 0 [] [].
Definition key1 : keys := Keys "s1" "d1" "a1".
Definition key2 : keys := Keys "s2" "d2" "a2".

End Example1.

Lemma deploy_is_allowed_and_confirmed_witness :
  let es := [DType "node"; DConfirm; DType "node1"] in
  exists k', dstep (drun (dstep Example1.dk (DOpen Example1.key1)).1 es).1 DConfirm = (k', Some (Stage "12" 7 ["base"] "02:00" "s1")) /\
  exists t cf, allowed Example1.ch t /\ k_conf (drun (dstep Example1.dk (DOpen Example1.key1)).1 es).1 = Some cf /\
  "12" = tg_id t /\ ["base"] = (plan Example1.ch).1 /\ "s1" = "s1" /\ "02:00" ∈ map if_mac (tg_ifaces t) /\
  (exists i, i ∈ c_images Example1.ch /\ im_id i = 7 /\ deployable t i) /\ (tg_name t = "" \/ cf_typed cf = tg_name t).
Proof.
  intros es. set (k1 := (drun (dstep Example1.dk (DOpen Example1.key1)).1 es).1).
  exists (dstep k1 DConfirm).1. split; [by vm_compute|].
  apply (deploy_is_allowed_and_confirmed Example1.dk (dstep k1 DConfirm).1 Example1.key1 es (Stage "12" 7 ["base"] "02:00" "s1")); [done|by vm_compute|by repeat constructor|by vm_compute].
Defined.

Lemma deploys_go_one_at_a_time_witness :
  let es := [DOpen Example1.key1; DType "node1"; DConfirm; DConfirm; DErr 0 "down"] in
  exists k' r, dstep (drun Example1.dk es).1 DConfirm = (k', Some r) /\ k_flight (drun Example1.dk es).1 = [] /\ length (k_flight k') = 1%nat.
Proof.
  intros es. exists (dstep (drun Example1.dk es).1 DConfirm).1, (Stage "12" 7 ["base"] "02:00" "s1"). split; [by vm_compute|].
  refine ((fun H => conj (proj1 H) (proj1 (proj2 H)))
    (deploys_go_one_at_a_time Example1.dk (dstep (drun Example1.dk es).1 DConfirm).1 es DConfirm (Stage "12" 7 ["base"] "02:00" "s1") Example1.key1 _ _ _));
    [done|by repeat split|by vm_compute].
Defined.

Lemma escape_allows_a_second_deploy_witness :
  exists image stacks mac,
    (drun Example1.dk [DOpen Example1.key1; DType "node1"; DConfirm; DEscape; DOpen Example1.key2; DType "node1"; DConfirm]).2 =
    [Stage "12" image stacks mac "s1"; Stage "12" image stacks mac "s2"].
Proof.
  destruct (escape_allows_a_second_deploy Example1.dk Example1.key1 Example1.key2 Example1.host) as (i & s & m & H & _); [done|done|done|by vm_compute|done|by vm_compute|].
  by exists i, s, m.
Defined.

(** ** The ticks and the plan *)

(** A stack's row is ticked exactly when the plan applies it: chosen and still
    listed, always included, or pulled in by a stack that is. *)
Theorem ticked_stacks_are_the_plan (c : choice) (d : dstack) :
  d ∈ c_stacks c -> (plan c).2 = None -> ticked c d = true <-> slug (d_row d) ∈ (plan c).1.
Proof.
  intros Hd Hc. set (s := slug (d_row d)). assert (Hrow : d_row d ∈ rows c) by (by apply list_elem_of_fmap_2).
  assert (Hs : s ∈ map slug (rows c)) by (by apply list_elem_of_fmap_2).
  assert (Hin : s ∈ pickedLive c ++ lockedSlugs (rows c) -> s ∈ (plan c).1).
  { intros Hp. destruct (resolveOrder_good (rows c) (pickedLive c)) as [Hg Hl]. cbv zeta in Hl. fold (plan c) in *. rewrite Hc in Hl.
    destruct (closure_of_spec (rows c) (pickedLive c)) as [Hn Hx]. rewrite (good_order_full _ _ _ _ Hn Hg Hl), Hx.
    apply Pulled_first; [done|]. unfold known. apply bool_decide_eq_true. unfold by_slug.
    destruct (list_find _ _) as [[]|] eqn:E; [done|]. apply list_find_None in E. rewrite Forall_forall in E. exfalso.
    by apply (E (d_row d)); [by apply list_elem_of_In, (proj1 (in_rev _ _)), list_elem_of_In|]. }
  unfold ticked, auto. fold s. rewrite !orb_true_iff, !andb_true_iff, !negb_true_iff, !bool_decide_eq_true, bool_decide_eq_false.
  split.
  - intros [[Hlk|(_ & Hp)]|Hp]; [|done|].
    + apply Hin, elem_of_app. right. unfold lockedSlugs. rewrite sort_by_perm. apply list_elem_of_fmap. exists (d_row d). split; [done|].
      by apply list_elem_of_In, filter_In; rewrite <- list_elem_of_In.
    + apply Hin, elem_of_app. left. apply elem_filter. by rewrite bool_decide_eq_true.
  - intros Hp. destruct (locked (d_row d)) eqn:?; [by left; left|]. destruct (decide (s ∈ c_picked c)); [by right|]. left. by right.
Qed.

(** ** Conflicts *)

(** The pool entries the plan installs, as far as their stacks' members are known. *)
Definition in_run (c : choice) (m : Z) : Prop :=
  exists s d ms, s ∈ (plan c).1 /\ bySlug c s = Some d /\ d_members d = Some ms /\ m ∈ ms.

Lemma pull_in_all name ms : forall from m, is_Some (fold_left (pull_in name) ms from !! m) <-> is_Some (from !! m) \/ m ∈ ms.
Proof.
  induction ms as [|x ms IH]; intros from m; cbn [fold_left]; [rewrite elem_of_nil; tauto|].
  rewrite IH, elem_of_cons. unfold pull_in. rewrite lookup_insert_is_Some. destruct (decide (x = m)) as [->|]; naive_solver.
Qed.

Definition pulls (c : choice) (m : Z) (s : string) : Prop :=
  exists d ms, bySlug c s = Some d /\ d_members d = Some ms /\ m ∈ ms.

Lemma from_of_in c m : is_Some (from_of c !! m) <-> in_run c m.
Proof.
  unfold from_of, in_run. set (step := fun from s => _).
  assert (H1 : forall s from, is_Some (step from s !! m) <-> is_Some (from !! m) \/ pulls c m s).
  { intros s from. unfold step, pulls. destruct (bySlug c s) as [[row name [ms|] n]|].
    - rewrite pull_in_all. split; [intros [?|?]; [by left|right; by repeat eexists]|].
      intros [?|(d & ms' & [= <-] & [= <-] & ?)]; [by left|by right].
    - split; [by left|]. by intros [?|(d & ms' & [= <-] & [=] & _)].
    - split; [by left|]. by intros [?|(d & ms' & [=] & _)]. }
  assert (H : forall l from, is_Some (fold_left step l from !! m) <-> is_Some (from !! m) \/ exists s, s ∈ l /\ pulls c m s).
  { induction l as [|s l IH]; intros from; cbn [fold_left].
    - split; [by left|]. by intros [?|(s & ?%not_elem_of_nil & _)].
    - rewrite IH, H1. setoid_rewrite elem_of_cons. naive_solver. }
  rewrite H, lookup_empty. unfold pulls. split.
  - intros [[? [=]]|(s & Hs & d & ms & Hd)]. by exists s, d, ms.
  - intros (s & d & ms & Hs & Hd). right. exists s. split; [done|]. by exists d, ms.
Qed.

(** The API lists a conflict at both of its entries, and none with itself. *)
Definition symmetric_pool (c : choice) : Prop :=
  forall a b sa sb, soft_of c a = Some sa -> soft_of c b = Some sb -> b ∈ ds_conflicts sa -> a <> b /\ a ∈ ds_conflicts sb.

Lemma soft_of_id c id s : soft_of c id = Some s -> sw_id (ds_row s) = id.
Proof.
  unfold soft_of. destruct (list_find _ _) as [[j x]|] eqn:E; [|done]. intros [= ->]. by apply list_find_Some in E as (_ & ? & _).
Qed.

Lemma flat_map_nil {A B} (f : A -> list B) l : flat_map f l = [] <-> forall x, x ∈ l -> f x = [].
Proof.
  induction l as [|x l IH]; cbn; [split; [by intros _ y ?%not_elem_of_nil|done]|].
  split.
  - intros [H1 H2]%app_nil y [->|Hy]%elem_of_cons; [done|]. by apply IH.
  - intros H. rewrite (H x) by left. apply IH. intros y Hy. apply H. by right.
Qed.

Lemma filter_nil (p : Z -> bool) l : List.filter p l = [] <-> forall x, x ∈ l -> p x = false.
Proof.
  induction l as [|x l IH]; cbn; [split; [by intros _ y ?%not_elem_of_nil|done]|].
  destruct (p x) eqn:E; (split; [|intros H]).
  - done.
  - specialize (H x (list_elem_of_here _ _)). congruence.
  - intros H y [->|Hy]%elem_of_cons; [done|]. by apply IH.
  - apply IH. intros y Hy. apply H. by right.
Qed.

(** The guard on conflicts is exact: with conflicts listed at both entries, as the API
    does, none is reported exactly when no two entries of the planned run conflict. *)
Theorem conflict_guard_is_exact (c : choice) :
  symmetric_pool c ->
  conflicts c = [] <->
  forall a b sa sb, in_run c a -> in_run c b -> soft_of c a = Some sa -> soft_of c b = Some sb -> b ∉ ds_conflicts sa.
Proof.
  intros Hsym. unfold conflicts. rewrite flat_map_nil. split.
  - intros H.
    assert (Hlow : forall a b sa sb, a < b -> in_run c a -> in_run c b -> soft_of c a = Some sa -> soft_of c b = Some sb -> b ∉ ds_conflicts sa).
    { intros a b sa sb Hab Ha Hb Ea Eb Hx. specialize (H a). rewrite Ea in H.
      assert (Hk : a ∈ sort_by Z.leb (map fst (map_to_list (from_of c)))).
      { rewrite sort_by_perm. apply from_of_in in Ha as [l Ha]. apply list_elem_of_fmap. exists (a, l). split; [done|]. by apply elem_of_map_to_list. }
      specialize (H Hk). apply map_eq_nil in H. apply (proj1 (filter_nil _ _)) with (x := b) in H; [|done].
      rewrite (soft_of_id _ _ _ Ea), (proj2 (Z.ltb_lt _ _) Hab), !bool_decide_eq_true_2 in H; [done|by eexists|by apply from_of_in]. }
    intros a b sa sb Ha Hb Ea Eb Hx. destruct (Hsym _ _ _ _ Ea Eb Hx) as [Hne Hy].
    destruct (decide (a < b)); [by eapply (Hlow a b)|]. eapply (Hlow b a); eauto. lia.
  - intros H id Hid. destruct (soft_of c id) as [sw|] eqn:E; [|done].
    assert (Hin : in_run c id).
    { apply from_of_in. rewrite sort_by_perm in Hid. apply list_elem_of_fmap in Hid as ([x l] & -> & Hl). apply elem_of_map_to_list in Hl. by exists l. }
    rewrite (proj2 (filter_nil _ _)); [done|]. intros b Hb.
    destruct (bool_decide (is_Some (from_of c !! b))) eqn:E1; [|by rewrite andb_false_r].
    destruct (bool_decide (is_Some (soft_of c b))) eqn:E2; [|by rewrite andb_false_r].
    apply bool_decide_eq_true in E1, E2. destruct E2 as [sb E2]. exfalso. eapply (H id b); eauto. by apply from_of_in.
Qed.

(** ** Groups *)

Fixpoint rel_rows (l : list release) (n : string) : list image :=
  match l with [] => [] | r :: l => if String.eqb (rl_name r) n then rl_rows r else rel_rows l n end.

Fixpoint rows_at (l : list group) (d n : string) : list image :=
  match l with [] => [] | g :: l => if String.eqb (gr_distro g) d then rel_rows (gr_releases g) n else rows_at l d n end.

Lemma add_release_rows i l n :
  rel_rows (add_release i l) n = rel_rows l n ++ if String.eqb (im_release_name i) n then [i] else [].
Proof.
  induction l as [|r l IH]; cbn; [done|]. destruct (String.eqb_spec (rl_name r) (im_release_name i)) as [Hr|Hr]; cbn; [rewrite <- Hr|rewrite IH];
    destruct (String.eqb_spec (rl_name r) n); subst; try done; destruct (String.eqb_spec (im_release_name i) (rl_name r)); by rewrite ?app_nil_r.
Qed.

Lemma add_image_rows l i d n :
  rows_at (add_image l i) d n = rows_at l d n ++ if String.eqb (im_distro i) d && String.eqb (im_release_name i) n then [i] else [].
Proof.
  induction l as [|g l IH]; cbn; [destruct (String.eqb (im_distro i) d), (String.eqb (im_release_name i) n); done|].
  destruct (String.eqb_spec (gr_distro g) (im_distro i)) as [Hg|Hg]; cbn; [rewrite <- Hg|rewrite IH];
    destruct (String.eqb_spec (gr_distro g) d); subst; cbn; rewrite ?add_release_rows, ?app_nil_r; try done.
  destruct (String.eqb_spec (im_distro i) (gr_distro g)); [congruence|]. cbn. by rewrite app_nil_r.
Qed.

Lemma groups_rows images d n :
  rows_at (groups images) d n = List.filter (fun i => String.eqb (im_distro i) d && String.eqb (im_release_name i) n) images.
Proof.
  unfold groups. induction images as [|i l IH] using rev_ind; [done|]. rewrite fold_left_app, List.filter_app. cbn [fold_left].
  rewrite add_image_rows, IH. cbn. by destruct (_ && _).
Qed.

Lemma add_release_names i l : map rl_name (add_release i l) = if decide (im_release_name i ∈ map rl_name l) then map rl_name l else map rl_name l ++ [im_release_name i].
Proof.
  induction l as [|r l IH]; cbn [add_release map]; [done|].
  destruct (String.eqb_spec (rl_name r) (im_release_name i)) as [Hr|Hr]; cbn [map rl_name].
  - rewrite decide_True by (rewrite Hr; left). done.
  - rewrite IH. destruct (decide (im_release_name i ∈ map rl_name l)).
    + by rewrite decide_True by (by right).
    + rewrite decide_False; [done|]. rewrite elem_of_cons. naive_solver.
Qed.

Lemma add_image_names i l : map gr_distro (add_image l i) = if decide (im_distro i ∈ map gr_distro l) then map gr_distro l else map gr_distro l ++ [im_distro i].
Proof.
  induction l as [|r l IH]; cbn [add_image map]; [done|].
  destruct (String.eqb_spec (gr_distro r) (im_distro i)) as [Hr|Hr]; cbn [map gr_distro].
  - rewrite decide_True by (rewrite Hr; left). done.
  - rewrite IH. destruct (decide (im_distro i ∈ map gr_distro l)).
    + by rewrite decide_True by (by right).
    + rewrite decide_False; [done|]. rewrite elem_of_cons. naive_solver.
Qed.

Lemma NoDup_add (x : string) (l : list string) : NoDup l -> NoDup (if decide (x ∈ l) then l else l ++ [x]).
Proof. intros H. destruct (decide (x ∈ l)); [done|]. apply NoDup_app. split_and!; [done|set_solver|apply NoDup_singleton]. Qed.

Definition named_once (l : list group) : Prop :=
  NoDup (map gr_distro l) /\ Forall (fun g => NoDup (map rl_name (gr_releases g))) l.

Lemma add_image_once i l : named_once l -> named_once (add_image l i).
Proof.
  intros [H1 H2]. split; [rewrite add_image_names; by apply NoDup_add|]. clear H1. induction H2 as [|g l Hg Hl IH]; cbn.
  - constructor; [apply NoDup_singleton|constructor].
  - destruct (String.eqb _ _); constructor; [cbn; rewrite add_release_names; by apply NoDup_add|done|done|done].
Qed.

Lemma groups_once images : named_once (groups images).
Proof.
  unfold groups. induction images as [|i l IH] using rev_ind; [repeat constructor|]. rewrite fold_left_app. by apply add_image_once.
Qed.

Lemma rel_rows_of l r : NoDup (map rl_name l) -> r ∈ l -> rel_rows l (rl_name r) = rl_rows r.
Proof.
  intros Hn Hr. induction Hr as [r l|r x l Hr IH]; cbn in *; [by rewrite String.eqb_refl|]. inversion_clear Hn as [|? ? Hx Hl].
  destruct (String.eqb_spec (rl_name x) (rl_name r)) as [E|_]; [|by apply IH]. exfalso. apply Hx. rewrite E. by apply list_elem_of_fmap_2.
Qed.

Lemma rows_at_of l g r : named_once l -> g ∈ l -> r ∈ gr_releases g -> rows_at l (gr_distro g) (rl_name r) = rl_rows r.
Proof.
  intros [Hn Hf] Hg Hr. induction Hg as [g l|g x l Hg IH]; cbn in *.
  - rewrite String.eqb_refl. apply rel_rows_of; [|done]. by inversion_clear Hf.
  - inversion_clear Hn as [|? ? Hx Hl]. inversion_clear Hf.
    destruct (String.eqb_spec (gr_distro x) (gr_distro g)) as [E|_]; [|by apply IH]. exfalso. apply Hx. rewrite E. by apply list_elem_of_fmap_2.
Qed.

Lemma rows_at_some l d n i : i ∈ rows_at l d n -> exists g r, g ∈ l /\ r ∈ gr_releases g /\ i ∈ rl_rows r.
Proof.
  induction l as [|g l IH]; cbn; [by intros ?%not_elem_of_nil|]. destruct (String.eqb _ _).
  - intros H. exists g. induction (gr_releases g) as [|r rs IHr]; cbn in H; [by apply not_elem_of_nil in H|].
    destruct (String.eqb _ _); [exists r; split_and!; [left|left|done]|].
    destruct (IHr H) as (r' & ? & ? & ?). exists r'. split_and!; [done|by right|done].
  - intros (g' & r & ? & ? & ?)%IH. exists g', r. split_and!; [by right|done..].
Qed.

(** The images are shown by distro and release: each distro once, each release of it
    once, in a release exactly its images in the catalogue's order, and every image
    in one. *)
Theorem images_are_grouped (images : list image) :
  let l := groups images in
  NoDup (map gr_distro l) /\
  (forall g, g ∈ l -> NoDup (map rl_name (gr_releases g))) /\
  (forall g r, g ∈ l -> r ∈ gr_releases g ->
     rl_rows r = List.filter (fun i => String.eqb (im_distro i) (gr_distro g) && String.eqb (im_release_name i) (rl_name r)) images) /\
  (forall i, i ∈ images -> exists g r, g ∈ l /\ r ∈ gr_releases g /\ i ∈ rl_rows r).
Proof.
  intros l. destruct (groups_once images) as [H1 H2]. fold l in H1, H2. split_and!.
  - done.
  - by apply Forall_forall.
  - intros g r Hg Hr. rewrite <- (rows_at_of l g r) by done. apply groups_rows.
  - intros i Hi. apply (rows_at_some l (im_distro i) (im_release_name i)). unfold l. rewrite groups_rows.
    apply list_elem_of_In, filter_In. rewrite !String.eqb_refl. by rewrite <- list_elem_of_In.
Qed.
