(* ===== verification/ProvRuns.v ===== *)
(** * Runs and image refreshes of the provisioning screen (screens-prov.jsx)

    The recent runs with their logs, the refresh of an image from its click to the end
    the screen sees in the images or in the runs, and the polls that make it look. *)

From Stdlib Require Import ZArith Lia Ascii.
From stdpp Require Import strings list gmap pretty.
From S2P Require Import Prelude JsNum JsValue ProvStacks ProvKit ProvDeploy.

Local Open Scope string_scope.
Local Open Scope list_scope.
Local Open Scope Z_scope.

(** ** Runs *)

(** The id as a number; names and details are empty when they are null. *)
Record run := Run { rn_id : Z; rn_mode : string; rn_entity : option string; rn_entity_name : string;
                    rn_image : option Z; rn_label : string; rn_status : string; rn_detail : string }.

Definition RUN_DONE (s : string) : bool := String.eqb s "succeeded" || String.eqb s "failed" || String.eqb s "cancelled".

Definition RUN_LOG_KIND (m : string) : option string :=
  assoc m [("reimage", "prov-stage"); ("apply", "stack-apply"); ("refresh", "image-refresh")].

Definition runLogId (r : run) : option string := if String.eqb (rn_mode r) "refresh" then pretty <$> rn_image r else rn_entity r.

Definition runLogTitle (r : run) : string :=
  if String.eqb (rn_mode r) "refresh"
  then "Refresh log · " +:+ or_text (rn_label r) ("image " +:+ from_option pretty "null" (rn_image r))
  else (if String.eqb (rn_mode r) "reimage" then "Stage" else "Apply") +:+ " log · " +:+
       or_text (rn_entity_name r) (default "null" (rn_entity r)).

Definition maxRunId (runs : option (list run)) : Z := fold_left (fun n r => Z.max n (rn_id r)) (default [] runs) 0.

Definition run_active (r : run) : bool := String.eqb (rn_status r) "queued" || String.eqb (rn_status r) "running".

Definition active (runs : option (list run)) : bool := existsb run_active (default [] runs).

(** ** Waiting for refreshes *)

Record wait := Wait { w_at : Z; w_fetched : option string; w_after : Z; w_run : option Z; w_status : option string }.

#[global] Instance wait_eq_dec : EqDecision wait. Proof. solve_decision. Defined.

(** A refresh that was clicked and not answered yet. *)
Record asked := Asked { a_image : image; a_after : Z }.

(** What the screen knows of images and runs, the clicked and the accepted refreshes,
    until when runs are polled, the reports it made, and the reloads of images. *)
Record watch := Watch { v_images : option (list image); v_runs : option (list run); v_asked : list asked;
                        v_wait : gmap Z wait; v_poll : Z; v_said : list (Z * run); v_reloads : nat }.

Definition find_image (images : list image) (id : Z) : option image := snd <$> list_find (fun i => im_id i = id) images.

(** The wait goes on: the image is listed as it was fetched before, for twenty minutes
    at most. *)
Definition goes_on (now : Z) (images : list image) (id : Z) (w : wait) : bool :=
  match find_image images id with
  | Some i => bool_decide (im_fetched_at i = w_fetched w) && (now - w_at w <=? 20 * 60000)
  | None => false
  end.

Definition images_effect (now : Z) (images : list image) (ws : gmap Z wait) : gmap Z wait :=
  map_imap (fun id w => if goes_on now images id w then Some w else None) ws.

(** The run of a waited refresh: the first in the list after the one the click knew. *)
Definition run_of (runs : list run) (id : Z) (w : wait) : option run :=
  snd <$> list_find (fun r => rn_mode r = "refresh" /\ rn_image r = Some id /\ w_after w < rn_id r) runs.

Definition advance (runs : list run) (id : Z) (w : wait) : option wait :=
  match run_of runs id w with
  | None => Some w
  | Some r => if RUN_DONE (rn_status r) then None else Some (Wait (w_at w) (w_fetched w) (w_after w) (Some (rn_id r)) (Some (rn_status r)))
  end.

Definition report (runs : list run) (id : Z) (w : wait) : option (Z * run) :=
  r ← run_of runs id w; if RUN_DONE (rn_status r) then Some (id, r) else None.

Definition sayReport (p : Z * run) : string :=
  "Refresh of " +:+ or_text (rn_label p.2) ("image " +:+ pretty p.1) +:+ " " +:+ rn_status p.2 +:+
  (if String.eqb (rn_detail p.2) "" then "" else ": " +:+ rn_detail p.2).

Definition runs_effect (runs : list run) (ws : gmap Z wait) : gmap Z wait := map_imap (advance runs) ws.

Definition key_order (a b : Z * wait) : bool := a.1 <=? b.1.

Definition reports (runs : list run) (ws : gmap Z wait) : list (Z * run) :=
  omap (fun p => report runs p.1 p.2) (sort_by key_order (map_to_list ws)).

(** Data that one render brings: either, or both.  Both effects start from the waits of
    that render, and the later one's result stands unless it changed nothing. *)
Definition arrive (now : Z) (imgs : option (list image)) (rns : option (list run)) (v : watch) : watch :=
  let ws := v_wait v in
  let w1 := match imgs with Some l => images_effect now l ws | None => ws end in
  let w2 := match rns with Some l => runs_effect l ws | None => ws end in
  let said := match rns with Some l => reports l ws | None => [] end in
  let again := length (List.filter (fun p => String.eqb (rn_status p.2) "succeeded") said) in
  Watch (match imgs with Some l => Some l | None => v_images v end) (match rns with Some l => Some l | None => v_runs v end)
    (v_asked v) (if decide (w2 = ws) then w1 else w2) (v_poll v) (v_said v ++ said) (v_reloads v + again).

Inductive vevent :=
  | VData (now : Z) (imgs : option (list image)) (rns : option (list run))
  | VClick (img : image) | VAccepted (now : Z) (id : Z) | VRefused (id : Z)
  | VTick (now : Z).

Definition is_asked (id : Z) (a : asked) : bool := im_id (a_image a) =? id.

Definition take_asked (id : Z) (l : list asked) : option (asked * list asked) :=
  match list_find (fun a => is_asked id a = true) l with
  | Some (i, a) => Some (a, delete i l)
  | None => None
  end.

(** One poll of the runs: it ends when nothing is active and its time is over, and
    otherwise asks for them again. *)
Definition tick (now : Z) (v : watch) : watch * bool :=
  if negb (active (v_runs v)) && (v_poll v =? 0) then (v, false)
  else if negb (active (v_runs v)) && (v_poll v <? now)
  then (Watch (v_images v) (v_runs v) (v_asked v) (v_wait v) 0 (v_said v) (v_reloads v), false)
  else (v, true).

Definition vstep (v : watch) (e : vevent) : watch :=
  match e with
  | VData now imgs rns => arrive now imgs rns v
  | VClick img =>
      match v_wait v !! im_id img with
      | Some _ => v
      | None => Watch (v_images v) (v_runs v) (v_asked v ++ [Asked img (maxRunId (v_runs v))]) (v_wait v) (v_poll v) (v_said v) (v_reloads v)
      end
  | VAccepted now id =>
      match take_asked id (v_asked v) with
      | Some (a, rest) =>
          Watch (v_images v) (v_runs v) rest
            (<[id := Wait now (im_fetched_at (a_image a)) (a_after a) None None]> (v_wait v)) (now + 60000) (v_said v) (v_reloads v)
      | None => v
      end
  | VRefused id =>
      match take_asked id (v_asked v) with
      | Some (_, rest) => Watch (v_images v) (v_runs v) rest (v_wait v) (v_poll v) (v_said v) (v_reloads v)
      | None => v
      end
  | VTick now => (tick now v).1
  end.

Definition vrun (v : watch) (es : list vevent) : watch := fold_left vstep es v.

(** ** Properties *)

Lemma maxRunId_ge runs r : r ∈ runs -> rn_id r <= maxRunId (Some runs).
Proof.
  unfold maxRunId. cbn [default from_option id]. intros H.
  assert (Hm : forall l n, n <= fold_left (fun n r => Z.max n (rn_id r)) l n).
  { induction l as [|x l IH]; intros n; cbn; [lia|]. specialize (IH (Z.max n (rn_id x))). lia. }
  revert H. generalize 0. induction runs as [|x l IH]; intros n; [by intros ?%not_elem_of_nil|]. cbn.
  intros [->|H]%elem_of_cons; [|by apply IH]. specialize (Hm l (Z.max n (rn_id x))). lia.
Qed.

Lemma run_of_spec runs id w r :
  run_of runs id w = Some r -> r ∈ runs /\ rn_mode r = "refresh" /\ rn_image r = Some id /\ w_after w < rn_id r.
Proof.
  unfold run_of. destruct (list_find _ _) as [[j x]|] eqn:E; [|done]. intros [= ->].
  apply list_find_Some in E as (H & (H1 & H2 & H3) & _). split_and!; try done. by eapply list_elem_of_lookup_2.
Qed.

(** The reports about one image. *)
Definition about_image (id : Z) (l : list (Z * run)) : list (Z * run) := List.filter (fun p => p.1 =? id) l.

(** Until the refresh of [id] is accepted again. *)
Definition before_next (id : Z) (e : vevent) : Prop := match e with VAccepted _ x => x <> id | _ => True end.

Lemma about_image_app id l l' : about_image id (l ++ l') = about_image id l ++ about_image id l'.
Proof. apply List.filter_app. Qed.

Lemma about_reports runs id (l : list (Z * wait)) :
  NoDup (map fst l) ->
  about_image id (omap (fun p => report runs p.1 p.2) l) =
  match list_find (fun p => p.1 = id) l with Some (_, p) => option_list (report runs id p.2) | None => [] end.
Proof.
  induction l as [|[x w] l IH]; intros Hn; [done|]. cbn [map fst] in Hn. inversion_clear Hn as [|? ? Hx Hl]. cbn [omap list_omap].
  assert (Hr : forall p, report runs x w = Some p -> p.1 = x).
  { unfold report. destruct (run_of runs x w); [|done]. cbn. destruct (RUN_DONE _); [|done]. by intros p [= <-]. }
  cbn [list_find fst snd]. destruct (decide (x = id)) as [->|Hne].
  - change ((id, w).2) with w. assert (Hnil : about_image id (omap (fun p => report runs p.1 p.2) l) = []).
    { rewrite IH by done. destruct (list_find _ l) as [[j p]|] eqn:E; [|done]. apply list_find_Some in E as (E & E1 & _).
      exfalso. apply Hx. rewrite <- E1. apply list_elem_of_fmap_2. by eapply list_elem_of_lookup_2. }
    destruct (report runs id w) as [p|] eqn:E; cbn [option_list]; [|exact Hnil]. unfold about_image in *. cbn [List.filter].
    by rewrite (Hr p eq_refl), Z.eqb_refl, Hnil.
  - assert (Hskip : about_image id (match report runs x w with Some y => y :: omap (fun p => report runs p.1 p.2) l | None => omap (fun p => report runs p.1 p.2) l end)
                    = about_image id (omap (fun p => report runs p.1 p.2) l)).
    { destruct (report runs x w) as [p|] eqn:E; [|done]. unfold about_image. cbn. rewrite (Hr p eq_refl). by rewrite (proj2 (Z.eqb_neq x id) Hne). }
    rewrite Hskip, IH by done. by destruct (list_find _ l) as [[]|].
Qed.

Lemma reports_of runs id ws : about_image id (reports runs ws) = option_list (w ← ws !! id; report runs id w).
Proof.
  unfold reports. assert (Hp : sort_by key_order (map_to_list ws) ≡ₚ map_to_list ws) by apply sort_by_perm.
  rewrite about_reports; [|rewrite Hp; apply NoDup_fst_map_to_list].
  destruct (list_find _ _) as [[j [x w]]|] eqn:E.
  - apply list_find_Some in E as (E & E1 & _). cbn in E1. subst x. apply list_elem_of_lookup_2 in E. rewrite Hp in E.
    apply elem_of_map_to_list in E. by rewrite E.
  - apply list_find_None in E. rewrite Hp in E. destruct (ws !! id) as [w|] eqn:El; [|done]. exfalso.
    apply elem_of_map_to_list in El. rewrite Forall_forall in E. by apply (E _ El).
Qed.

Lemma arrive_wait now imgs rns v id :
  match v_wait (arrive now imgs rns v) !! id with
  | Some w' => exists w, v_wait v !! id = Some w /\ w_after w' = w_after w /\ w_at w' = w_at w
  | None => True
  end.
Proof.
  unfold arrive. cbn [v_wait]. set (ws := v_wait v).
  assert (H1 : forall l w', images_effect now l ws !! id = Some w' -> exists w, ws !! id = Some w /\ w_after w' = w_after w /\ w_at w' = w_at w).
  { intros l w'. unfold images_effect. rewrite map_lookup_imap. destruct (ws !! id) as [w|]; [|done]. cbn.
    destruct (goes_on _ _ _ _); [|done]. intros [= <-]. by exists w. }
  assert (H2 : forall l w', runs_effect l ws !! id = Some w' -> exists w, ws !! id = Some w /\ w_after w' = w_after w /\ w_at w' = w_at w).
  { intros l w'. unfold runs_effect. rewrite map_lookup_imap. destruct (ws !! id) as [w|]; [|done]. cbn. unfold advance.
    destruct (run_of l id w); [destruct (RUN_DONE _)|]; [done| |]; intros [= <-]; by exists w. }
  match goal with |- match ?x with _ => _ end => destruct x as [w'|] eqn:E end; [|done].
  destruct (decide _); destruct imgs, rns; eauto.
Qed.

Lemma arrive_said now imgs rns v id :
  exists said, v_said (arrive now imgs rns v) = v_said v ++ said /\
  (about_image id said = [] \/ exists w r, v_wait v !! id = Some w /\ about_image id said = [(id, r)] /\
     rn_mode r = "refresh" /\ rn_image r = Some id /\ w_after w < rn_id r /\ RUN_DONE (rn_status r) = true /\
     v_wait (arrive now imgs rns v) !! id = None).
Proof.
  unfold arrive. cbn [v_said v_wait]. eexists. split; [done|]. destruct rns as [l|]; [|by left]. rewrite reports_of.
  destruct (v_wait v !! id) as [w|] eqn:E; [|by left]. cbn. unfold report. destruct (run_of l id w) as [r|] eqn:Er; [|by left]. cbn.
  destruct (RUN_DONE (rn_status r)) eqn:Ed; [|by left]. right. exists w, r.
  assert (Hn : runs_effect l (v_wait v) !! id = None).
  { unfold runs_effect. rewrite map_lookup_imap, E. cbn. unfold advance. by rewrite Er, Ed. }
  destruct (run_of_spec _ _ _ _ Er) as (_ & ? & ? & ?). split_and!; try done. rewrite decide_False; [done|]. intros Hsame. rewrite Hsame in Hn. congruence.
Qed.

(** What a step does for an image whose refresh it does not accept. *)
Lemma vstep_quiet v e id :
  before_next id e ->
  (exists now imgs rns, e = VData now imgs rns) \/ (v_wait (vstep v e) !! id = v_wait v !! id /\ v_said (vstep v e) = v_said v).
Proof.
  intros He. destruct e as [now imgs rns|img|now x|x|now]; [left; eauto|right..]; cbn [vstep].
  - by destruct (v_wait v !! im_id img).
  - destruct (take_asked x (v_asked v)) as [[a rest]|]; [|done]. cbn. by rewrite lookup_insert_ne.
  - by destruct (take_asked x (v_asked v)) as [[a rest]|].
  - unfold tick. destruct (_ && _); [done|]. by destruct (_ && _).
Qed.

Definition new_run (id after : Z) (p : Z * run) : Prop :=
  p.1 = id /\ rn_mode p.2 = "refresh" /\ rn_image p.2 = Some id /\ after < rn_id p.2 /\ RUN_DONE (rn_status p.2) = true.

(** The reports about [id] while it waits behind [after], or does not wait. *)
Lemma vrun_reports id after es : forall v,
  Forall (before_next id) es -> (forall w, v_wait v !! id = Some w -> w_after w = after) ->
  exists said, v_said (vrun v es) = v_said v ++ said /\ (length (about_image id said) <= 1)%nat /\
    Forall (new_run id after) (about_image id said) /\ (v_wait v !! id = None -> about_image id said = []).
Proof.
  induction es as [|e es IH]; intros v Hes Hw.
  { exists []. rewrite app_nil_r. split_and!; [done|cbn; lia|constructor|done]. }
  inversion_clear Hes as [|? ? He Hes']. change (vrun v (e :: es)) with (vrun (vstep v e) es).
  destruct (vstep_quiet v e id He) as [(now & imgs & rns & ->)|[E1 E2]].
  - cbn [vstep]. destruct (arrive_said now imgs rns v id) as (s1 & Es & Hs). pose proof (arrive_wait now imgs rns v id) as Hn.
    set (v1 := arrive now imgs rns v) in *.
    destruct (IH v1 Hes') as (s2 & Es2 & Hl & Hf & Hno).
    { intros w' Hw'. rewrite Hw' in Hn. destruct Hn as (w & H & Ha & _). rewrite Ha. by apply Hw. }
    exists (s1 ++ s2). rewrite Es2, Es, app_assoc, about_image_app. destruct Hs as [->|(w & r & H1 & H2 & H3 & H4 & H5 & H6 & H7)].
    + split_and!; [done..|]. intros Hnone. apply Hno. destruct (v_wait v1 !! id) as [w'|]; [|done]. destruct Hn as (w & H & _). congruence.
    + rewrite (Hno H7), H2, app_nil_r. split_and!; [done|cbn; lia| |congruence]. rewrite (Hw w H1) in H5. by repeat constructor.
  - destruct (IH (vstep v e) Hes') as (s & Es & Hr); [by rewrite E1|]. exists s. by rewrite Es, E2, <- E1.
Qed.

(** The outcome of an image's refresh is reported at most once, and it is the
    outcome of a refresh run of that image that has ended and that was not among the
    runs the screen knew when the refresh was asked for; whichever data arrives, in
    whichever order, until that image's refresh is accepted again. *)
Theorem refresh_outcome_is_reported_once (v : watch) (id : Z) (w : wait) (known : list run) (es : list vevent) :
  v_wait v !! id = Some w -> maxRunId (Some known) <= w_after w -> Forall (before_next id) es ->
  exists said, v_said (vrun v es) = v_said v ++ said /\ (length (about_image id said) <= 1)%nat /\
  Forall (fun p => new_run id (w_after w) p /\ p.2 ∉ known) (about_image id said).
Proof.
  intros Hw Hk Hes. destruct (vrun_reports id (w_after w) es v Hes) as (said & E & Hl & Hf & _); [intros w'; by rewrite Hw; intros [= <-]|].
  exists said. split_and!; [done..|]. eapply Forall_impl; [exact Hf|]. intros p Hp. split; [done|]. intros Hin%maxRunId_ge.
  destruct Hp as (_ & _ & _ & H & _). lia.
Qed.

Lemma refresh_outcome_is_reported_once_witness :
  let w := Wait 0 None 4 None None in
  let r n s := Run n "refresh" None "" (Some 7) "" s "" in
  let es := [VData 10 None (Some [r 5 "running"; r 4 "failed"]); VData 20 None (Some [r 5 "succeeded"; r 4 "failed"]); VData 30 None (Some [r 5 "succeeded"])] in
  let v := Watch None None [] {[ 7 := w ]} 0 [] 0 in
  v_said (vrun v es) = [(7, r 5 "succeeded")] /\
  exists said, v_said (vrun v es) = v_said v ++ said /\ (length (about_image 7 said) <= 1)%nat /\
  Forall (fun p => new_run 7 4 p /\ p.2 ∉ [r 4 "failed"]) (about_image 7 said).
Proof.
  intros w r es v. split; [by vm_compute|].
  apply (refresh_outcome_is_reported_once v 7 w [r 4 "failed"] es); [by vm_compute|by vm_compute|by repeat constructor].
Defined.

(** A refresh whose new artifact is seen in the images first is never reported, although
    its run is: the wait ends without a word. *)
Theorem seen_refresh_is_not_reported (v : watch) (id now : Z) (w : wait) (images : list image) (img : image) (es : list vevent) :
  v_wait v !! id = Some w -> find_image images id = Some img -> im_fetched_at img <> w_fetched w -> Forall (before_next id) es ->
  exists said, v_said (vrun v (VData now (Some images) None :: es)) = v_said v ++ said /\ about_image id said = [].
Proof.
  intros Hw Hi Hf Hes. change (vrun v (VData now (Some images) None :: es)) with (vrun (arrive now (Some images) None v) es).
  assert (Hn : v_wait (arrive now (Some images) None v) !! id = None).
  { unfold arrive. cbn [v_wait]. rewrite decide_True by done. unfold images_effect. rewrite map_lookup_imap, Hw. cbn. unfold goes_on.
    rewrite Hi, bool_decide_false by done. done. }
  destruct (vrun_reports id 0 es (arrive now (Some images) None v) Hes) as (said & E & _ & _ & H); [by rewrite Hn|].
  exists said. rewrite E. unfold arrive. cbn [v_said]. rewrite app_nil_r. split; [done|]. by apply H.
Qed.

(** A refresh that is asked for before the runs are loaded waits behind no run: the
    first list of runs that comes ends the wait with the outcome of an earlier refresh
    of the image, which is reported as this one's. *)
Theorem old_outcome_is_reported (v : watch) (img : image) (old : run) (now later : Z) :
  v_runs v = None -> v_asked v = [] -> v_wait v !! im_id img = None ->
  rn_mode old = "refresh" -> rn_image old = Some (im_id img) -> RUN_DONE (rn_status old) = true -> 0 < rn_id old ->
  let v' := vrun v [VClick img; VAccepted now (im_id img); VData later None (Some [old])] in
  about_image (im_id img) (v_said v') = about_image (im_id img) (v_said v) ++ [(im_id img, old)] /\ v_wait v' !! im_id img = None.
Proof.
  intros Hr Ha Hw Hm Hi Hd Hid v'.
  set (w := Wait now (im_fetched_at img) 0 None None).
  set (v2 := Watch (v_images v) None [] (<[im_id img := w]> (v_wait v)) (now + 60000) (v_said v) (v_reloads v)).
  assert (E : v' = arrive later None (Some [old]) v2).
  { unfold v', vrun. cbn [fold_left vstep]. rewrite Hw. cbn [vstep v_asked]. rewrite Ha, Hr. unfold take_asked.
    cbn [app list_find is_asked a_image]. rewrite decide_True by apply Z.eqb_refl. done. }
  assert (Hrun : run_of [old] (im_id img) w = Some old).
  { unfold run_of. cbn [list_find]. rewrite decide_True; [done|]. by split_and!. }
  assert (Hl : v_wait v2 !! im_id img = Some w) by apply lookup_insert_eq.
  assert (Hn : runs_effect [old] (v_wait v2) !! im_id img = None).
  { unfold runs_effect. rewrite map_lookup_imap, Hl. cbn. unfold advance. by rewrite Hrun, Hd. }
  rewrite E. unfold arrive. cbn [v_said v_wait]. split.
  - rewrite about_image_app, reports_of, Hl. cbn [mbind option_bind]. unfold report. rewrite Hrun. cbn [mbind option_bind]. by rewrite Hd.
  - rewrite decide_False; [done|]. intros H. rewrite H in Hn. congruence.
Qed.

Lemma old_outcome_is_reported_witness :
  let img := Image 7 "debian" "debian" "bookworm" "" "x86_64" "ipxe" true None "manual" "ab" in
  let old := Run 3 "refresh" None "" (Some 7) "" "failed" "checksum" in
  let v := Watch None None [] ∅ 0 [] 0 in
  about_image 7 (v_said (vrun v [VClick img; VAccepted 10 7; VData 20 None (Some [old])])) = [(7, old)].
Proof.
  intros img old v. apply (old_outcome_is_reported v img old 10 20); by vm_compute.
Defined.
