(* ===== verification/Grouping.v ===== *)
(** * Grouping rows by a name

    The loop several screens share: rows are pushed to the list of their key, keys in
    the order they first appear. *)

From Stdlib Require Import ZArith Lia.
From stdpp Require Import strings list sets.
From S2P Require Import Prelude JsValue.

Local Open Scope string_scope.
Local Open Scope list_scope.

Lemma filter_split {A} (p : A -> bool) l : List.filter p l ++ List.filter (fun x => negb (p x)) l ≡ₚ l.
Proof.
  induction l as [|x l IH]; cbn; [done|]. destruct (p x); cbn; [by rewrite IH|]. by rewrite <- Permutation_middle, IH.
Qed.

Section Grouping.
Context {A : Type} (key : A -> string).

Fixpoint add_row (l : list (string * list A)) (x : A) : list (string * list A) :=
  match l with
  | [] => [(key x, [x])]
  | (k, xs) :: l => if String.eqb k (key x) then (k, xs ++ [x]) :: l else (k, xs) :: add_row l x
  end.

Definition group_by (l : list A) : list (string * list A) := fold_left add_row l [].

Definition has_key (k : string) (x : A) : bool := String.eqb (key x) k.

Lemma add_row_assoc l x k :
  default [] (assoc k (add_row l x)) = default [] (assoc k l) ++ (if has_key k x then [x] else []).
Proof.
  unfold has_key. induction l as [|[k' xs] l IH]; cbn [add_row assoc].
  - rewrite (String.eqb_sym k). by destruct (String.eqb (key x) k).
  - destruct (String.eqb_spec k' (key x)) as [->|Hk]; cbn [assoc].
    + rewrite (String.eqb_sym k). destruct (String.eqb (key x) k); [done|]. by rewrite app_nil_r.
    + destruct (String.eqb_spec k k') as [->|]; [|done]. rewrite (proj2 (String.eqb_neq _ _)) by congruence. by rewrite app_nil_r.
Qed.

Lemma group_by_assoc l k : default [] (assoc k (group_by l)) = List.filter (has_key k) l.
Proof.
  unfold group_by. induction l as [|x l IH] using rev_ind; [done|].
  rewrite fold_left_app, List.filter_app. cbn [fold_left]. rewrite add_row_assoc, IH. done.
Qed.

Lemma add_row_keys l x : map fst (add_row l x) = if decide (key x ∈ map fst l) then map fst l else map fst l ++ [key x].
Proof.
  induction l as [|[k xs] l IH]; cbn [add_row map]; [done|].
  destruct (String.eqb_spec k (key x)) as [->|Hk]; cbn [map fst].
  - rewrite decide_True by left. done.
  - rewrite IH. destruct (decide (key x ∈ map fst l)).
    + by rewrite decide_True by (by right).
    + rewrite decide_False; [done|]. rewrite elem_of_cons. naive_solver.
Qed.

Lemma group_by_keys l : NoDup (map fst (group_by l)).
Proof.
  unfold group_by. induction l as [|x l IH] using rev_ind; [constructor|]. rewrite fold_left_app. cbn [fold_left].
  rewrite add_row_keys. destruct (decide _); [done|]. apply NoDup_app. split_and!; [done|set_solver|apply NoDup_singleton].
Qed.

Lemma assoc_of_elem {B} (l : list (string * B)) k x : NoDup (map fst l) -> (k, x) ∈ l -> assoc k l = Some x.
Proof.
  induction l as [|[k' y] l IH]; cbn; intros Hn; [by intros ?%not_elem_of_nil|]. inversion_clear Hn as [|? ? Hk Hl].
  intros [E|H]%elem_of_cons; [injection E as -> ->; by rewrite String.eqb_refl|].
  destruct (String.eqb_spec k k') as [->|]; [|by apply IH]. exfalso. apply Hk. apply list_elem_of_fmap. by exists (k', x).
Qed.

Lemma elem_of_assoc {B} (l : list (string * B)) k x : assoc k l = Some x -> (k, x) ∈ l.
Proof.
  induction l as [|[k' y] l IH]; cbn; [done|]. destruct (String.eqb_spec k k') as [->|]; [intros [= ->]; left|right; auto].
Qed.

(** Each key once, with exactly its rows in their order, and every row under its key. *)
Lemma group_by_spec l :
  NoDup (map fst (group_by l)) /\
  (forall k xs, (k, xs) ∈ group_by l -> xs = List.filter (has_key k) l) /\
  (forall x, x ∈ l -> exists xs, (key x, xs) ∈ group_by l /\ x ∈ xs).
Proof.
  split_and!; [apply group_by_keys| |].
  - intros k xs H. rewrite <- group_by_assoc. by rewrite (assoc_of_elem _ _ _ (group_by_keys l) H).
  - intros x Hx. pose proof (group_by_assoc l (key x)) as H.
    assert (Hin : x ∈ List.filter (has_key (key x)) l).
    { apply list_elem_of_In, filter_In. split; [by apply list_elem_of_In|]. apply String.eqb_refl. }
    rewrite <- H in Hin. destruct (assoc (key x) (group_by l)) as [xs|] eqn:E; [|by apply not_elem_of_nil in Hin].
    exists xs. split; [by apply elem_of_assoc|done].
Qed.

End Grouping.
