(* ===== verification/AlertDesk.v ===== *)
(** * Alerts and rules (screens.jsx)

    The board of alerts: what is active and what is history, the groups by node, the
    acknowledgement of one and of all; and the rules: their switch, their threshold,
    creation and deletion, against the routes of the API that store them. *)

From Stdlib Require Import ZArith Lia.
From stdpp Require Import strings list gmap pretty.
From S2P Require Import Prelude JsNum JsValue Grouping.

Local Open Scope string_scope.
Local Open Scope list_scope.
Local Open Scope Z_scope.

(** ** The board *)

(** An alert of the model; [al_acked] and [al_cleared] say that the server did. *)
Record alert := Alert { al_id : Z; al_rule : string; al_node : string; al_severity : string;
                        al_acked : bool; al_cleared : bool; al_clearedMin : option Z }.

Inductive tab := TActive | THistory.

(** [acked] of the screen, the acknowledgement of all that is armed or in flight with
    the ids it took, and the toasts. *)
Record board := Board { bd_alerts : list alert; bd_acked : gset Z; bd_tab : tab; bd_confirm : bool;
                        bd_all : option (list Z); bd_said : list string }.

Section Derived.
Context (acked : gset Z).

Definition isAcked (a : alert) : bool := al_acked a || bool_decide (al_id a ∈ acked).
Definition isCleared (a : alert) : bool := al_cleared a.
Definition rowStatus (a : alert) : string := if isAcked a then "acked" else if isCleared a then "cleared" else "active".
Definition inActive (a : alert) : bool := negb (isAcked a) && (negb (isCleared a) || (default 0 (al_clearedMin a) <? 60)).
Definition unhandled (a : alert) : bool := negb (isAcked a) && negb (isCleared a).

End Derived.

Definition shown (b : board) (t : tab) : list alert :=
  List.filter (fun a => match t with TActive => inActive (bd_acked b) a | THistory => negb (inActive (bd_acked b) a) end) (bd_alerts b).

Definition group_key (a : alert) : string := if String.eqb (al_node a) "" then "Fleet / probes" else al_node a.

Definition alert_groups (b : board) : list (string * list alert) := group_by group_key (shown b (bd_tab b)).

Definition severity_count (b : board) (s : string) : nat :=
  length (List.filter (fun a => unhandled (bd_acked b) a && String.eqb (al_severity a) s) (bd_alerts b)).

Definition activeCount (b : board) : nat := length (shown b TActive).

Inductive bevent :=
  | BRefresh (l : list alert)
  | BAckOk (a : alert) | BAckErr (message : string)
  | BTab (t : tab) | BArm | BDisarm
  | BAll | BAllOk (count : option Z) | BAllErr (message : string).

Definition plural (n : Z) : string := if n =? 1 then "" else "s".

(** Answers are the board's own: a request is in flight when [bd_all] is set. *)
Definition bstep (b : board) (e : bevent) : board :=
  let say t := bd_said b ++ [t] in
  match e with
  | BRefresh l => Board l (bd_acked b) (bd_tab b) (bd_confirm b) (bd_all b) (bd_said b)
  | BAckOk a => Board (bd_alerts b) ({[al_id a]} ∪ bd_acked b) (bd_tab b) (bd_confirm b) (bd_all b) (say ("Acknowledged — " +:+ al_rule a))
  | BAckErr m => Board (bd_alerts b) (bd_acked b) (bd_tab b) (bd_confirm b) (bd_all b) (say ("Ack failed: " +:+ m))
  | BTab t => Board (bd_alerts b) (bd_acked b) t false (bd_all b) (bd_said b)
  | BArm =>
      if (activeCount b =? 0)%nat then b
      else match bd_tab b with
           | TActive => Board (bd_alerts b) (bd_acked b) (bd_tab b) true (bd_all b) (bd_said b)
           | THistory => b
           end
  | BDisarm => match bd_all b with None => Board (bd_alerts b) (bd_acked b) (bd_tab b) false None (bd_said b) | Some _ => b end
  | BAll =>
      match bd_confirm b, bd_all b with
      | true, None => Board (bd_alerts b) (bd_acked b) (bd_tab b) true (Some (map al_id (shown b TActive))) (bd_said b)
      | _, _ => b
      end
  | BAllOk count =>
      match bd_all b with
      | Some ids =>
          let n := default (Z.of_nat (length ids)) count in
          Board (bd_alerts b) (list_to_set ids ∪ bd_acked b) (bd_tab b) false None
            (say ("Acknowledged " +:+ pretty n +:+ " alert" +:+ plural n))
      | None => b
      end
  | BAllErr m =>
      match bd_all b with
      | Some _ => Board (bd_alerts b) (bd_acked b) (bd_tab b) (bd_confirm b) None (say ("Ack-all failed: " +:+ m))
      | None => b
      end
  end.

Definition brun (b : board) (es : list bevent) : board := fold_left bstep es b.

(** ** The API's alerts *)

(** A stored event, its times in milliseconds. *)
Record event := Event { ev_id : Z; ev_rule : string; ev_node : string; ev_severity : string;
                        ev_acked : bool; ev_cleared : option Z }.

Definition status_of (e : event) : string :=
  if ev_acked e then "acked" else match ev_cleared e with Some _ => "cleared" | None => "active" end.

(** The active set of the API, [clearedAt > NOW() - INTERVAL 60 MINUTE]. *)
Definition in_active_set (now : Z) (e : event) : bool :=
  negb (ev_acked e) && match ev_cleared e with Some t => now - 3600000 <? t | None => true end.

(** [POST /api/alerts/ack-all]: the server acknowledges its own active set, whatever the
    board shows. *)
Definition ack_event (e : event) : event := Event (ev_id e) (ev_rule e) (ev_node e) (ev_severity e) true (ev_cleared e).
Definition ack_all (now : Z) (db : list event) : list event := map (fun e => if in_active_set now e then ack_event e else e) db.

(** [Math.round((now - t) / 60000)] on whole milliseconds, not below zero. *)
Definition minutes (now t : Z) : Z := Z.max 0 ((2 * (now - t) + 60000) / 120000).

(** What the client makes of a stored event. *)
Definition seen_as (now : Z) (e : event) : alert :=
  Alert (ev_id e) (ev_rule e) (ev_node e) (ev_severity e) (ev_acked e)
    (match ev_cleared e with Some _ => true | None => false end) (minutes now <$> ev_cleared e).

(** The answer to the acknowledgement of all, [{ackedCount, ackedBy}], as the client
    reads it: [r.count], else [r.acked]. *)
Definition ack_all_answer (count : Z) (op : string) : value := VObj [("ackedCount", vz count); ("ackedBy", VStr op)].

Definition read_count (r : value) : value := v_nn (fld r "count") (fld r "acked").

(** ** Rules *)

(** Thresholds and times as whole numbers; the toasts of the rules are left out. *)
Record rule := Rule { ru_id : Z; ru_name : string; ru_scope : string; ru_metric : string; ru_op : string;
                      ru_threshold : Z; ru_seconds : Z; ru_severity : string; ru_enabled : bool }.

(** The fields a request may carry. *)
Inductive patch :=
  | PEnabled (b : bool)
  | PThreshold (v : Z)
  | PFields (f : rule).

Definition patched (p : patch) (r : rule) : rule :=
  match p with
  | PEnabled b => Rule (ru_id r) (ru_name r) (ru_scope r) (ru_metric r) (ru_op r) (ru_threshold r) (ru_seconds r) (ru_severity r) b
  | PThreshold v => Rule (ru_id r) (ru_name r) (ru_scope r) (ru_metric r) (ru_op r) v (ru_seconds r) (ru_severity r) (ru_enabled r)
  | PFields f => Rule (ru_id r) (ru_name r) (ru_scope f) (ru_metric f) (ru_op f) (ru_threshold f) (ru_seconds f) (ru_severity f) (ru_enabled f)
  end.

(** [POST /api/rules/{id}]: an update of a rule that exists, or 404. *)
Definition save_route (db : gmap Z rule) (id : Z) (p : patch) : option (gmap Z rule) :=
  match db !! id with Some r => Some (<[id := patched p r]> db) | None => None end.

Definition delete_route (db : gmap Z rule) (id : Z) : option (gmap Z rule) :=
  match db !! id with Some _ => Some (delete id db) | None => None end.

(** A request of the screen that is not answered yet. *)
Inductive pending := PToggle (id : Z) (next : bool) | PThresh (id : Z) (v : Z) | PCreate (id : Z) (f : rule) | PDelete (r : rule).

Record desk := Desk { rd_rules : list rule; rd_modal : bool; rd_del : option rule; rd_flight : list pending;
                      rd_db : gmap Z rule }.

Definition on_rule (id : Z) (f : rule -> rule) (l : list rule) : list rule := map (fun r => if ru_id r =? id then f r else r) l.

Definition find_rule (l : list rule) (id : Z) : option rule := snd <$> list_find (fun r => ru_id r = id) l.

Definition newRuleId (l : list rule) : Z := fold_left (fun m r => Z.max m (ru_id r)) l 0 + 1.

Inductive revent :=
  | RToggle (id : Z) | RSlide (id v : Z) | RCommit (id v : Z) | RNew (f : rule) | RAsk (r : rule) | RDelete
  | RAnswer (i : nat) (delivered : bool).

(** What the server does with a request that reaches it. *)
Definition serve (db : gmap Z rule) (p : pending) : option (gmap Z rule) :=
  match p with
  | PToggle id next => save_route db id (PEnabled next)
  | PThresh id v => save_route db id (PThreshold v)
  | PCreate id f => save_route db id (PFields f)
  | PDelete r => delete_route db (ru_id r)
  end.

Definition with_id (id : Z) (f : rule) : rule :=
  Rule id (ru_name f) (ru_scope f) (ru_metric f) (ru_op f) (ru_threshold f) (ru_seconds f) (ru_severity f) (ru_enabled f).

(** The handler of an answer. *)
Definition answered (d : desk) (p : pending) (ok : bool) (db : gmap Z rule) (rest : list pending) : desk :=
  match p, ok with
  | PToggle id next, false => Desk (on_rule id (patched (PEnabled (negb next))) (rd_rules d)) (rd_modal d) (rd_del d) rest db
  | PCreate id f, true => Desk (rd_rules d ++ [with_id id f]) false (rd_del d) rest db
  | PDelete r, true => Desk (List.filter (fun x => negb (ru_id x =? ru_id r)) (rd_rules d)) (rd_modal d) None rest db
  | _, _ => Desk (rd_rules d) (rd_modal d) (rd_del d) rest db
  end.

Definition send (d : desk) (rules : list rule) (p : pending) : desk :=
  Desk rules (rd_modal d) (rd_del d) (rd_flight d ++ [p]) (rd_db d).

Definition rstep (d : desk) (e : revent) : desk :=
  match e with
  | RToggle id =>
      let next := negb (from_option ru_enabled false (find_rule (rd_rules d) id)) in
      send d (on_rule id (patched (PEnabled next)) (rd_rules d)) (PToggle id next)
  | RSlide id v => Desk (on_rule id (patched (PThreshold v)) (rd_rules d)) (rd_modal d) (rd_del d) (rd_flight d) (rd_db d)
  | RCommit id v => send d (rd_rules d) (PThresh id v)
  | RNew f => send d (rd_rules d) (PCreate (newRuleId (rd_rules d)) f)
  | RAsk r => Desk (rd_rules d) (rd_modal d) (Some r) (rd_flight d) (rd_db d)
  | RDelete => match rd_del d with Some r => send d (rd_rules d) (PDelete r) | None => d end
  | RAnswer i delivered =>
      match rd_flight d !! i with
      | Some p =>
          let rest := delete i (rd_flight d) in
          match (if delivered then serve (rd_db d) p else None) with
          | Some db => answered d p true db rest
          | None => answered d p false (rd_db d) rest
          end
      | None => d
      end
  end.

Definition rrun (d : desk) (es : list revent) : desk := fold_left rstep es d.

(** ** The form of a rule *)

Definition RULE_METRICS (scope : string) : list (string * string) :=
  if String.eqb scope "host"
  then [("cpuAvgMilli", "%"); ("ramUsedPct", "%"); ("swapUsedPct", "%"); ("diskUsedPct", "%"); ("lastSeenSec", "s"); ("ifErrs", "/s"); ("procRunState", "")]
  else [("lossPermille", "‰"); ("rttMicros", "µs"); ("outcome", "")].

Record ruleform := RuleForm { rf_name : string; rf_scope : string; rf_metric : string; rf_op : string;
                              rf_threshold : Z; rf_seconds : Z; rf_severity : string }.

Definition setScope (f : ruleform) (s : string) : ruleform :=
  RuleForm (rf_name f) s (from_option fst "" (head (RULE_METRICS s))) (rf_op f) (rf_threshold f) (rf_seconds f) (rf_severity f).

(** [mdef]: the chosen metric of the scope, or its first. *)
Definition mdef (f : ruleform) : string * string :=
  match list_find (fun m => m.1 = rf_metric f) (RULE_METRICS (rf_scope f)) with
  | Some (_, m) => m
  | None => default ("", "") (head (RULE_METRICS (rf_scope f)))
  end.

Definition submit (f : ruleform) : option rule :=
  if String.eqb (trim (rf_name f)) "" then None
  else
    let change := String.eqb (rf_op f) "transition" in
    Some (Rule 0 (trim (rf_name f)) (rf_scope f) (mdef f).1 (rf_op f) (if change then 0 else rf_threshold f)
            (if change then 0 else rf_seconds f) (rf_severity f) true).

(** ** The tabs and the groups *)

(** The board: every alert is on exactly one tab, what is still firing and not
    acknowledged on the active one; a tab shows each node once with exactly its alerts
    of that tab, in the order of the model. *)
Theorem board_shows_every_alert_once (b : board) :
  shown b TActive ++ shown b THistory ≡ₚ bd_alerts b /\
  (forall a, a ∈ bd_alerts b -> unhandled (bd_acked b) a = true -> a ∈ shown b TActive) /\
  NoDup (map fst (alert_groups b)) /\
  (forall k xs, (k, xs) ∈ alert_groups b -> xs = List.filter (fun a => String.eqb (group_key a) k) (shown b (bd_tab b))) /\
  (forall a, a ∈ shown b (bd_tab b) -> exists xs, (group_key a, xs) ∈ alert_groups b /\ a ∈ xs).
Proof.
  destruct (group_by_spec group_key (shown b (bd_tab b))) as (H1 & H2 & H3). split_and!; [apply filter_split| |done..].
  intros a Ha Hu. apply list_elem_of_In, filter_In. split; [by apply list_elem_of_In|]. unfold inActive.
  unfold unhandled in Hu. apply andb_prop in Hu as [-> ->]. done.
Qed.

(** ** Acknowledging *)

Lemma acked_step b e : bd_acked b ⊆ bd_acked (bstep b e).
Proof. destruct e; cbn; repeat case_match; cbn; set_solver. Qed.

Lemma acked_run es : forall b, bd_acked b ⊆ bd_acked (brun b es).
Proof.
  induction es as [|e es IH]; intros b; [done|]. change (brun b (e :: es)) with (brun (bstep b e) es).
  etrans; [apply acked_step|apply IH].
Qed.

Lemma acked_not_shown b a : a ∈ shown b TActive -> al_id a ∉ bd_acked b.
Proof.
  unfold shown. rewrite list_elem_of_In, filter_In. intros [_ H]. unfold inActive in H. apply andb_prop in H as [H _].
  unfold isAcked in H. rewrite negb_true_iff, orb_false_iff, bool_decide_eq_false in H. by destruct H.
Qed.

(** The ids that single acknowledgements added. *)
Definition acked_by (es : list bevent) : gset Z := list_to_set (omap (fun e => match e with BAckOk a => Some (al_id a) | _ => None end) es).

Definition no_answer (e : bevent) : Prop := match e with BAllOk _ | BAllErr _ => False | _ => True end.

Lemma waiting_run es : forall b ids, bd_all b = Some ids -> Forall no_answer es ->
  bd_all (brun b es) = Some ids /\ bd_acked (brun b es) = acked_by es ∪ bd_acked b.
Proof.
  induction es as [|e es IH]; intros b ids Hb Hes; [split; [done|]; unfold acked_by; cbn; set_solver|].
  inversion_clear Hes as [|? ? He Hes']. change (brun b (e :: es)) with (brun (bstep b e) es).
  assert (H1 : bd_all (bstep b e) = Some ids) by (destruct e; cbn; repeat case_match; simplify_eq; done).
  destruct (IH _ _ H1 Hes') as [H2 H3]. split; [done|]. rewrite H3.
  destruct e; cbn in He |- *; try done; unfold acked_by; cbn; repeat case_match; cbn; set_solver.
Qed.

(** ** The API's view *)

Lemma minutes_60 now t : (minutes now t <? 60) = (now + 30000 - 3600000 <? t).
Proof.
  unfold minutes. apply eq_iff_eq_true. rewrite !Z.ltb_lt.
  assert (H : (2 * (now - t) + 60000) / 120000 < 60 <-> 2 * (now - t) + 60000 < 7200000).
  { split; intros H; [|apply Z.div_lt_upper_bound; lia].
    destruct (Z_lt_ge_dec (2 * (now - t) + 60000) 7200000); [done|]. exfalso.
    assert (60 <= (2 * (now - t) + 60000) / 120000) by (apply Z.div_le_lower_bound; lia). lia. }
  lia.
Qed.

(** An alert the server had when it acknowledged all is not active afterwards. *)
Lemma ack_all_inactive now t db e : now <= t -> e ∈ ack_all now db -> in_active_set (t + 30000) e = false.
Proof.
  intros Ht. unfold ack_all. rewrite list_elem_of_In, in_map_iff. intros (x & <- & _).
  destruct (in_active_set now x) eqn:E; [done|]. unfold in_active_set in *. destruct (ev_acked x); [done|]. cbn in *.
  destruct (ev_cleared x); [|done]. lia.
Qed.

Lemma seen_active acked t e :
  inActive acked (seen_as t e) = in_active_set (t + 30000) e && negb (bool_decide (ev_id e ∈ acked)).
Proof.
  unfold inActive, isAcked, in_active_set, isCleared, seen_as. cbn.
  destruct (ev_acked e), (bool_decide (ev_id e ∈ acked)); cbn; rewrite ?andb_false_r, ?andb_true_r; try done.
  destruct (ev_cleared e); cbn; [|done]. by rewrite minutes_60.
Qed.

(** C25: the acknowledgement of all, on the board and in the store.  The board asks about
    the alerts it shows and remembers their ids, the server acknowledges its own active
    set when the request reaches it: the alerts of the board, and those that came in
    meanwhile or that the board did not show, all of them.  So once the answer is in and
    the list is read again, from a store to which [fired] was added after that moment,
    the active board holds exactly the alerts of [fired] that are active (by the board's
    clock, half a minute ahead): every alert of the store is off it, seen or not; and
    neither the alerts it asked about nor those acknowledged singly are ever active on
    this board again, whatever is loaded later. *)
Theorem acknowledged_alerts_leave_the_board (b : board) (es es' : list bevent) (count : option Z)
    (db fired : list event) (now t : Z) (l : list alert) :
  bd_confirm b = true -> bd_all b = None -> Forall no_answer es -> now <= t ->
  let ids := map al_id (shown b TActive) in
  let b1 := brun b (BAll :: es ++ [BAllOk count]) in
  (forall a, a ∈ l -> exists e, e ∈ ack_all now db ++ fired /\ a = seen_as t e) ->
  (forall e, e ∈ fired -> seen_as t e ∈ l /\ (ev_id e ∉ bd_acked b1)) ->
  (forall e, e ∈ db -> in_active_set now e = true -> ack_event e ∈ ack_all now db) /\
  (forall a, a ∈ shown (bstep b1 (BRefresh l)) TActive <-> exists e, e ∈ fired /\ a = seen_as t e /\ in_active_set (t + 30000) e = true) /\
  bd_acked b1 = (list_to_set ids ∪ acked_by es) ∪ bd_acked b /\
  (forall a, a ∈ shown (brun b1 es') TActive -> al_id a ∉ bd_acked b1).
Proof.
  intros Hc Ha Hes Ht ids b1 Hl Hfired. split_and!.
  - intros e He Hact. unfold ack_all. rewrite list_elem_of_In, in_map_iff. exists e. rewrite Hact. split; [done|]. by apply list_elem_of_In.
  - intros a. unfold shown. cbn [bstep bd_acked bd_alerts]. rewrite list_elem_of_In, filter_In. split.
    + intros [(e & He & ->)%list_elem_of_In%Hl Hact]. rewrite seen_active in Hact. apply andb_prop in Hact as [Hact _].
      apply elem_of_app in He as [He|He]; [|by eauto]. by rewrite (ack_all_inactive now t db e) in Hact.
    + intros (e & He & -> & Hact). destruct (Hfired e He) as [Hin Hnot]. split; [by apply list_elem_of_In|].
      by rewrite seen_active, Hact, bool_decide_false.
  - unfold b1, brun. cbn [fold_left]. rewrite fold_left_app. cbn [fold_left bstep]. rewrite Hc, Ha.
    set (b0 := Board _ _ _ _ _ _). fold (brun b0 es). destruct (waiting_run es b0 ids eq_refl Hes) as [E1 E2].
    rewrite E1. cbn [bd_acked]. rewrite E2. cbn [bd_acked b0]. set_solver.
  - intros a Hs%acked_not_shown. pose proof (acked_run es' b1). set_solver.
Qed.

(** Alert 3 fires after the confirmation and before the server acts: it is acknowledged
    without having been shown; alert 4 fires after, and is shown. *)
Lemma acknowledged_alerts_leave_the_board_witness :
  let a n := Alert n "cpu" "n1" "crit" false false None in
  let e n := Event n "cpu" "n1" "crit" false None in
  let b := Board [a 1; a 2] ∅ TActive true None [] in
  let l := map (seen_as 5) (ack_all 4 [e 1; e 2; e 3] ++ [e 4]) in
  let d := bstep (brun b (BAll :: [BRefresh [a 2]] ++ [BAllOk None])) (BRefresh l) in
  seen_as 5 (ack_event (e 3)) ∈ bd_alerts d /\ seen_as 5 (e 4) ∈ shown d TActive /\
  (seen_as 5 (ack_event (e 3)) ∉ shown d TActive).
Proof.
  intros a e b l d.
  assert (H : forall x, x ∈ shown d TActive <-> exists e', e' ∈ [e 4] /\ x = seen_as 5 e' /\ in_active_set (5 + 30000) e' = true).
  { apply (acknowledged_alerts_leave_the_board b [BRefresh [a 2]] [] None [e 1; e 2; e 3] [e 4] 4 5 l).
    - reflexivity.
    - reflexivity.
    - by repeat constructor.
    - lia.
    - intros x Hx. unfold l in Hx. apply list_elem_of_In, in_map_iff in Hx as (e' & <- & He'). exists e'. split; [by apply list_elem_of_In|done].
    - intros x ->%list_elem_of_singleton. split; [unfold l; cbn; do 3 right; left|]. apply (bool_decide_unpack _). vm_compute. exact I. }
  split_and!.
  - cbn. do 2 right. left.
  - apply H. exists (e 4). split; [left|done].
  - intros (e' & ->%list_elem_of_singleton & He & _)%H. discriminate He.
Defined.

(** The board mirrors the API's rules: a row's status is the API's, and the board is the
    API's active set as it will be in thirty seconds, since the minutes since an alert
    cleared are rounded: for half a minute the board misses an alert that the API still
    counts, and acknowledges with the others. *)
Theorem board_mirrors_the_api (now : Z) (e : event) :
  rowStatus ∅ (seen_as now e) = status_of e /\
  inActive ∅ (seen_as now e) = in_active_set (now + 30000) e /\
  (forall t, ev_acked e = false -> ev_cleared e = Some t ->
     (inActive ∅ (seen_as now e) <> in_active_set now e <-> 3570000 <= now - t < 3600000)).
Proof.
  assert (Hs : isAcked ∅ (seen_as now e) = ev_acked e).
  { unfold isAcked. rewrite bool_decide_false by set_solver. by rewrite orb_false_r. }
  assert (H2 : inActive ∅ (seen_as now e) = in_active_set (now + 30000) e).
  { unfold inActive, in_active_set. rewrite Hs. unfold isCleared, seen_as. cbn. destruct (ev_cleared e) as [t|]; cbn; [|done]. by rewrite minutes_60. }
  split_and!; [|done|].
  - unfold rowStatus. rewrite Hs. unfold isCleared, status_of. cbn. by destruct (ev_acked e), (ev_cleared e).
  - intros t Ha Hc. rewrite H2. unfold in_active_set. rewrite Ha, Hc. cbn.
    destruct (Z.ltb_spec (now + 30000 - 3600000) t), (Z.ltb_spec (now - 3600000) t); split; try done; try lia.
Qed.

(** The count of the acknowledgement of all is not read from the API's answer: the
    number the screen reports is that of the alerts it saw. *)
Theorem server_count_is_not_reported (count : Z) (op : string) :
  nullish (read_count (ack_all_answer count op)) = true.
Proof. done. Qed.

(** ** Rules and their store *)

Lemma serve_dom db p db' : serve db p = Some db' -> dom db' ⊆ dom db.
Proof.
  destruct p; cbn; unfold save_route, delete_route; destruct (db !! _) eqn:E; intros [= <-];
    [apply elem_of_dom_2 in E; rewrite dom_insert_L; set_solver..|rewrite dom_delete_L; set_solver].
Qed.

Lemma answered_db d p ok db rest : rd_db (answered d p ok db rest) = db.
Proof. by destruct p, ok. Qed.

Lemma rstep_dom d e : dom (rd_db (rstep d e)) ⊆ dom (rd_db d).
Proof.
  destruct e; cbn; try done; [by destruct (rd_del d)|]. destruct (rd_flight d !! i) as [p|]; [|done].
  destruct delivered; [|by rewrite answered_db]. destruct (serve (rd_db d) p) as [db|] eqn:E; rewrite answered_db; [by eapply serve_dom|done].
Qed.

Lemma rrun_dom es : forall d, dom (rd_db (rrun d es)) ⊆ dom (rd_db d).
Proof.
  induction es as [|e es IH]; intros d; [done|]. change (rrun d (e :: es)) with (rrun (rstep d e) es). etrans; [apply IH|apply rstep_dom].
Qed.

Lemma newRuleId_fresh l r : r ∈ l -> ru_id r < newRuleId l.
Proof.
  unfold newRuleId. assert (Hm : forall l n, n <= fold_left (fun m r => Z.max m (ru_id r)) l n).
  { induction l0 as [|x l0 IH]; intros n; cbn; [lia|]. specialize (IH (Z.max n (ru_id x))). lia. }
  generalize 0. induction l as [|x l IH]; intros n; [by intros ?%not_elem_of_nil|]. cbn.
  intros [->|H]%elem_of_cons; [|by apply IH]. specialize (Hm l (Z.max n (ru_id x))). lia.
Qed.

(** C26: no rule is ever created.  Creation posts the new rule under the next id, but the
    route only updates rules that exist: whatever is done on the screen, the store has
    no rule it did not have.  Created from a list that has all the store's rules, a rule
    is refused and the list keeps as it was; from a list that lags behind the store, it
    overwrites the definition of the rule that has the id. *)
Theorem rules_are_never_created (d : desk) (es : list revent) (f : rule) :
  dom (rd_db (rrun d es)) ⊆ dom (rd_db d) /\
  (rd_flight d = [] ->
   let id := newRuleId (rd_rules d) in
   let d' := rrun d [RNew f; RAnswer 0 true] in
   ((forall i, i ∈ dom (rd_db d) -> exists r, r ∈ rd_rules d /\ ru_id r = i) ->
      rd_db d' = rd_db d /\ rd_rules d' = rd_rules d) /\
   (forall r, rd_db d !! id = Some r -> rd_db d' !! id = Some (patched (PFields f) r))).
Proof.
  split; [apply rrun_dom|]. intros Hf id d'.
  assert (E : d' = match save_route (rd_db d) id (PFields f) with
                   | Some db => answered (rstep d (RNew f)) (PCreate id f) true db []
                   | None => answered (rstep d (RNew f)) (PCreate id f) false (rd_db d) []
                   end).
  { unfold d', rrun. cbn [fold_left rstep send rd_flight]. rewrite Hf. done. }
  rewrite E. unfold save_route. split.
  - intros Hall. destruct (rd_db d !! id) as [r|] eqn:El; [|done]. exfalso.
    destruct (Hall id) as (r' & Hr' & Hid); [by apply elem_of_dom|]. apply newRuleId_fresh in Hr'. unfold id in Hid. lia.
  - intros r ->. cbn. apply lookup_insert_eq.
Qed.

Lemma rules_are_never_created_witness :
  let r n := Rule n "cpu" "host" "cpuAvgMilli" "gt" 90 60 "warn" true in
  let f := Rule 0 "disk" "host" "diskUsedPct" "gt" 95 0 "crit" true in
  let d := Desk [r 1] true None [] {[ 1 := r 1; 2 := r 2 ]} in
  rd_db (rrun d [RNew f; RAnswer 0 true]) !! 2 = Some (Rule 2 "cpu" "host" "diskUsedPct" "gt" 95 0 "crit" true).
Proof.
  intros r f d. destruct (rules_are_never_created d [] f) as [_ H]. destruct (H eq_refl) as [_ H2]. by apply (H2 (r 2)).
Defined.

Lemma find_on_rule id p l : find_rule (on_rule id (patched p) l) id = patched p <$> find_rule l id.
Proof.
  assert (Hid : forall r, ru_id (patched p r) = ru_id r) by (by destruct p).
  unfold find_rule, on_rule. induction l as [|r l IH]; [done|]. cbn [map list_find].
  destruct (Z.eqb_spec (ru_id r) id) as [E|E].
  - rewrite !decide_True by (rewrite ?Hid; done). done.
  - rewrite !decide_False by done.
    destruct (list_find _ (map _ l)) as [[]|], (list_find _ l) as [[]|]; cbn in *; congruence.
Qed.

(** A rule's switch shows what the store has, once its request is answered, whether the
    request arrived or not. *)
Theorem switch_shows_the_store (d : desk) (id : Z) (r s : rule) (delivered : bool) :
  rd_flight d = [] -> find_rule (rd_rules d) id = Some r -> rd_db d !! id = Some s -> ru_enabled r = ru_enabled s ->
  let d' := rrun d [RToggle id; RAnswer 0 delivered] in
  (ru_enabled <$> find_rule (rd_rules d') id) = (ru_enabled <$> rd_db d' !! id) /\
  (ru_enabled <$> find_rule (rd_rules d') id) = Some (if delivered then negb (ru_enabled r) else ru_enabled r).
Proof.
  intros Hf Hr Hs He d'. set (next := negb (ru_enabled r)). set (l1 := on_rule id (patched (PEnabled next)) (rd_rules d)).
  set (d1 := Desk l1 (rd_modal d) (rd_del d) [PToggle id next] (rd_db d)).
  assert (E1 : rrun d [RToggle id] = d1).
  { unfold rrun. cbn [fold_left rstep]. rewrite Hr. unfold send. by rewrite Hf. }
  change d' with (rrun (rrun d [RToggle id]) [RAnswer 0 delivered]). rewrite E1. destruct delivered.
  - assert (E2 : rrun d1 [RAnswer 0 true] = Desk l1 (rd_modal d) (rd_del d) [] (<[id := patched (PEnabled next) s]> (rd_db d))).
    { unfold rrun. cbn. unfold save_route. by rewrite Hs. }
    rewrite E2. cbn [rd_rules rd_db]. unfold l1. rewrite find_on_rule, Hr, lookup_insert_eq. done.
  - change (rrun d1 [RAnswer 0 false]) with (Desk (on_rule id (patched (PEnabled (negb next))) l1) (rd_modal d) (rd_del d) [] (rd_db d)).
    cbn [rd_rules rd_db]. unfold l1. rewrite !find_on_rule, Hr, Hs. cbn. unfold next. by rewrite negb_involutive, He.
Qed.

(** Two flips of a switch that are both refused leave it on the wrong side: each answer
    restores what its own click saw, and the second click saw the first one's flip. *)
Theorem refused_flips_leave_the_switch_wrong (d : desk) (id : Z) (r s : rule) :
  rd_flight d = [] -> find_rule (rd_rules d) id = Some r -> rd_db d !! id = Some s -> ru_enabled r = ru_enabled s ->
  let d' := rrun d [RToggle id; RToggle id; RAnswer 0 false; RAnswer 0 false] in
  rd_db d' = rd_db d /\ (ru_enabled <$> find_rule (rd_rules d') id) = Some (negb (ru_enabled s)).
Proof.
  intros Hf Hr Hs He d'. set (p := PEnabled (negb (ru_enabled r))). set (q := PEnabled (negb (negb (ru_enabled r)))).
  set (l1 := on_rule id (patched p) (rd_rules d)). set (l2 := on_rule id (patched q) l1).
  assert (E1 : rrun d [RToggle id; RToggle id] =
               Desk l2 (rd_modal d) (rd_del d) [PToggle id (negb (ru_enabled r)); PToggle id (negb (negb (ru_enabled r)))] (rd_db d)).
  { unfold rrun. cbn [fold_left rstep]. rewrite Hr. unfold send. cbn [rd_rules rd_flight rd_db rd_modal rd_del].
    by rewrite Hf, find_on_rule, Hr. }
  change d' with (rrun (rrun d [RToggle id; RToggle id]) [RAnswer 0 false; RAnswer 0 false]). rewrite E1. split; [done|].
  change (rd_rules _) with (on_rule id (patched (PEnabled (negb (negb (negb (ru_enabled r)))))) (on_rule id (patched q) l2)).
  unfold l2, l1. rewrite !find_on_rule, Hr. cbn. by rewrite negb_involutive, He.
Qed.

(** ** The form *)

(** The form sends a metric of its scope under a trimmed name, with no threshold or time
    for a rule on changes, and changing the scope picks one of its own. *)
Theorem rule_form_sends_a_metric_of_its_scope (f : ruleform) (r : rule) (s : string) :
  submit f = Some r ->
  ru_scope r = rf_scope f /\ ru_metric r ∈ map fst (RULE_METRICS (ru_scope r)) /\ ru_name r <> "" /\
  (ru_op r = "transition" -> ru_threshold r = 0 /\ ru_seconds r = 0) /\
  (mdef (setScope f s)).1 = rf_metric (setScope f s).
Proof.
  unfold submit. destruct (String.eqb_spec (trim (rf_name f)) "") as [|Hn]; [done|]. intros [= <-]. cbn.
  assert (Hm : mdef f ∈ RULE_METRICS (rf_scope f)).
  { unfold mdef. destruct (list_find _ _) as [[j m]|] eqn:E; [apply list_find_Some in E as (E & _); by eapply list_elem_of_lookup_2|].
    unfold RULE_METRICS. destruct (String.eqb _ _); left. }
  split_and!; [done|by apply list_elem_of_fmap_2|done| |].
  - intros ->. done.
  - unfold mdef, setScope. cbn [rf_metric rf_scope]. unfold RULE_METRICS. by destruct (String.eqb s "host").
Qed.
