(* ===== verification/FleetView.v ===== *)
(** * The fleet and one node (screens.jsx)

    The rows of the overview with their filters, the heat map by segment and the
    sortable table, and the page of a node: the detail it loads and reloads, the
    criticality the operator sets and the node its actions are about. *)

From Stdlib Require Import ZArith Lia Sorted.
From stdpp Require Import strings list gmap pretty.
From S2P Require Import Prelude JsNum JsValue ProvStacks Dns Grouping.

Local Open Scope string_scope.
Local Open Scope list_scope.
Local Open Scope Z_scope.

(** ** Rows *)

(** [segId]: the text of a segment for a node, the number of a pool for an adopted
    system. *)
Inductive segref := SSeg (s : string) | SPool (z : Z) | SNull.

(** A row of the fleet; a lifecycle the server did not report is empty. *)
Record row := Row { f_id : string; f_name : string; f_state : string; f_role : string; f_seg : segref; f_segName : string;
                    f_lifecycle : string; f_crit : option Z; f_asset : bool; f_cols : list (string * Z) }.

(** A numeric column; null compares as zero. *)
Definition f_col (k : string) (n : row) : Z := default 0 (assoc k (f_cols n)).

Definition f_cpu : row -> Z := f_col "cpuPct".

Definition rowLc (n : row) : string :=
  if String.eqb (f_lifecycle n) "" then (if String.eqb (f_state n) "retired" then "decommissioned" else "active") else f_lifecycle n.

Definition rowTier (n : row) : option Z := f_crit n.

Definition lc_count (fleet : list row) (lc : string) : nat := length (List.filter (fun n => String.eqb (rowLc n) lc) fleet).

Record filters := Filters { fl_state : string; fl_role : string; fl_retired : bool; fl_deleted : bool }.

Definition is_or_all (want have : string) : bool := String.eqb want "all" || String.eqb have want.

Definition passes (f : filters) (n : row) : bool :=
  let lc := rowLc n in
  if String.eqb lc "deleted" && negb (fl_deleted f) then false
  else if String.eqb lc "decommissioned" && negb (fl_retired f) then false
  else is_or_all (fl_state f) (f_state n) && is_or_all (fl_role f) (f_role n).

Definition filtered (fleet : list row) (f : filters) : list row := List.filter (passes f) fleet.

(** [avgCpu]: the rounded mean over hosts that report one. *)
Definition cpuNodes (fleet : list row) : list row :=
  List.filter (fun n => negb (f_asset n) && negb (String.eqb (f_state n) "down") && negb (String.eqb (f_state n) "retired")) fleet.

Definition avgCpu (fleet : list row) : num :=
  let l := cpuNodes fleet in
  nround (ndiv (fold_left (fun a n => nadd a (ofZ (f_cpu n))) l n0) (nmax (ofZ 1) (ofZ (Z.of_nat (length l))))).

Definition monitors (fleet : list row) : nat * nat :=
  let l := List.filter (fun n => String.eqb (f_role n) "monitor") fleet in
  (length (List.filter (fun n => String.eqb (f_state n) "up") l), length l).

(** ** The heat map *)

Definition STATE_ORD (s : string) : Z :=
  match assoc s [("down", 0); ("degraded", 1); ("unknown", 2); ("up", 3); ("retired", 5)] with Some n => n | None => 4 end.

Section Heat.
(** [localeCompare], negative, zero or positive. *)
Context (collate : string -> string -> Z).

Definition worse_first (a b : row) : bool :=
  let x := STATE_ORD (f_state a) in
  let y := STATE_ORD (f_state b) in
  (x <? y) || (x =? y) && (collate (f_name a) (f_name b) <=? 0).

Record block := Block { bl_key : string; bl_title : string; bl_rows : list row }.

Definition block_of (key title : string) (rows : list row) : option block :=
  match rows with [] => None | _ => Some (Block key title (sort_by worse_first rows)) end.

Definition pool_name (n : row) : string := if String.eqb (f_segName n) "" then "Other" else f_segName n.

(** Segments are their id and name. *)
Definition seg_text (s : segref) : string := match s with SSeg s => s | SPool z => pretty z | SNull => "null" end.

(** [knownSeg[n.segId]] looks the text up, [n.segId === seg.id] compares values. *)
Definition in_segment (segs : list (string * string)) (n : row) : bool := bool_decide (seg_text (f_seg n) ∈ map fst segs).

Definition same_segment (id : string) (n : row) : bool := match f_seg n with SSeg s => String.eqb s id | _ => false end.

Definition HeatView (segs : list (string * string)) (nodes : list row) : list block :=
  omap (fun s => block_of s.1 s.2 (List.filter (same_segment s.1) nodes)) segs ++
  omap (fun p => block_of ("pool:" +:+ p.1) p.1 p.2) (group_by pool_name (List.filter (fun n => negb (in_segment segs n)) nodes)).

End Heat.

(** ** The table *)

Record sorting := Sorting { so_key : string; so_dir : Z }.

(** A click on a heading. *)
Definition setSort (s : sorting) (k : string) : sorting := Sorting k (if String.eqb (so_key s) k then - so_dir s else 1).

(** The value a row has in a column. *)
Definition column (k : string) (n : row) : Z + string :=
  if String.eqb k "state" then inl (STATE_ORD (f_state n))
  else if String.eqb k "name" then inr (f_name n)
  else if String.eqb k "seg" then inr (f_segName n)
  else if String.eqb k "role" then inr (f_role n)
  else inl (f_col k n).

Definition cell_le (a b : Z + string) : bool :=
  match a, b with inl x, inl y => x <=? y | inr x, inr y => string_le x y | _, _ => true end.

(** The comparator: below zero or zero. *)
Definition table_le (s : sorting) (a b : row) : bool :=
  let x := column (so_key s) a in
  let y := column (so_key s) b in
  if negb (cell_le y x) then (-1 * so_dir s <=? 0) else if negb (cell_le x y) then (so_dir s <=? 0) else true.

Definition table (s : sorting) (nodes : list row) : list row := sort_by (table_le s) nodes.

(** ** The page of a node *)

(** The node of the route, the detail that was loaded, the tier the operator set, the
    effect that is live, and the requests it made. *)
Record page := Page { pg_node : row; pg_detail : option row; pg_tier : option Z; pg_inst : nat; pg_confirm : bool }.

Inductive pevent :=
  | NRoute (n : row)
  | NDetail (inst : nat) (d : row)
  | NTierOk (t : Z)
  | NRetire | NCancel.

Definition open_page (n : row) : page := Page n None None 0 false.

(** The route stays on the page: the same component is rendered with another node, and
    only the effect starts anew. *)
Definition pstep (p : page) (e : pevent) : page :=
  match e with
  | NRoute n => Page n (pg_detail p) (pg_tier p) (if String.eqb (f_id n) (f_id (pg_node p)) then pg_inst p else S (pg_inst p)) (pg_confirm p)
  | NDetail i d => if Nat.eqb i (pg_inst p) then Page (pg_node p) (Some d) (pg_tier p) (pg_inst p) (pg_confirm p) else p
  | NTierOk t => Page (pg_node p) (pg_detail p) (Some t) (pg_inst p) (pg_confirm p)
  | NRetire => Page (pg_node p) (pg_detail p) (pg_tier p) (pg_inst p) true
  | NCancel => Page (pg_node p) (pg_detail p) (pg_tier p) (pg_inst p) false
  end.

Definition prun (p : page) (es : list pevent) : page := fold_left pstep es p.

(** [n]: the detail, else the entry of the list, else the node of the route. *)
Definition shown_node (fleet : list row) (p : page) : row :=
  match pg_detail p with
  | Some d => d
  | None => match list_find (fun x => f_id x = f_id (pg_node p)) fleet with Some (_, x) => x | None => pg_node p end
  end.

Definition shown_tier (fleet : list row) (p : page) : option Z :=
  match pg_tier p with Some t => Some t | None => f_crit (shown_node fleet p) end.

(** The node [retireGo] and [commitTier] post about. *)
Definition acts_on (fleet : list row) (p : page) : string := f_id (shown_node fleet p).

(** ** Filters *)

(** The overview hides exactly the deleted and the retired rows until their chips are
    on, whose counts are of the rows they show; with all filters off every row shows. *)
Theorem overview_filters (fleet : list row) (f : filters) :
  (forall n, n ∈ filtered fleet f <-> n ∈ fleet /\
     (rowLc n = "deleted" -> fl_deleted f = true) /\ (rowLc n = "decommissioned" -> fl_retired f = true) /\
     (fl_state f = "all" \/ f_state n = fl_state f) /\ (fl_role f = "all" \/ f_role n = fl_role f)) /\
  length (filtered fleet (Filters "all" "all" true true)) = length fleet /\
  length (filtered fleet (Filters "all" "all" false false)) =
    (length fleet - lc_count fleet "deleted" - lc_count fleet "decommissioned")%nat.
Proof.
  split_and!.
  - intros n. unfold filtered. rewrite list_elem_of_In, filter_In, <- list_elem_of_In. unfold passes, is_or_all.
    destruct (String.eqb_spec (rowLc n) "deleted") as [E1|E1], (String.eqb_spec (rowLc n) "decommissioned") as [E2|E2];
      destruct (fl_deleted f), (fl_retired f); cbn; rewrite ?andb_true_iff, ?orb_true_iff, ?String.eqb_eq; naive_solver.
  - unfold filtered. induction fleet as [|n l IH]; [done|]. cbn. unfold passes at 1. cbn. rewrite !andb_false_r. cbn. by rewrite IH.
  - unfold filtered, lc_count.
    assert (H : length fleet = (length (List.filter (passes (Filters "all" "all" false false)) fleet) +
      length (List.filter (fun n => String.eqb (rowLc n) "deleted") fleet) + length (List.filter (fun n => String.eqb (rowLc n) "decommissioned") fleet))%nat); [|lia].
    induction fleet as [|n l IH]; [done|]. cbn. unfold passes at 1. cbn. rewrite !andb_true_r.
    destruct (String.eqb_spec (rowLc n) "deleted") as [E1|E1], (String.eqb_spec (rowLc n) "decommissioned") as [E2|E2]; cbn; rewrite ?IH; try lia.
    congruence.
Qed.

(** ** The heat map shows every node once *)

Section HeatMap.
Context (collate : string -> string -> Z).

Lemma block_rows key title rows : from_option bl_rows [] (block_of collate key title rows) ≡ₚ rows.
Proof. unfold block_of. destruct rows; [done|]. apply sort_by_perm. Qed.

Lemma blocks_rows {A} (f : A -> option block) (g : A -> list row) l :
  (forall x, from_option bl_rows [] (f x) ≡ₚ g x) -> concat (map bl_rows (omap f l)) ≡ₚ concat (map g l).
Proof.
  intros H. induction l as [|x l IH]; [done|]. cbn. specialize (H x). destruct (f x); cbn in *; by rewrite IH, <- H.
Qed.

Lemma concat_segments (p : string -> row -> bool) (ids : list string) (l : list row) :
  NoDup ids -> (forall n a b, p a n = true -> p b n = true -> a = b) ->
  concat (map (fun i => List.filter (p i) l) ids) ≡ₚ List.filter (fun n => existsb (fun i => p i n) ids) l.
Proof.
  intros Hn Hu. induction Hn as [|i ids Hi _ IH]; cbn [map concat existsb].
  - induction l; [done|]. done.
  - rewrite IH. clear IH. induction l as [|n l IHl]; [done|]. cbn [List.filter].
    destruct (p i n) eqn:E; cbn [orb].
    + assert (He : existsb (fun j => p j n) ids = false).
      { apply not_true_iff_false. intros (j & Hj & Hp)%existsb_exists. apply Hi. apply list_elem_of_In. by rewrite (Hu n i j). }
      rewrite He. cbn. by rewrite IHl.
    + destruct (existsb (fun j => p j n) ids); [|done]. rewrite <- Permutation_middle. by rewrite IHl.
Qed.

Lemma concat_groups (key : row -> string) (l : list row) : concat (map snd (group_by key l)) ≡ₚ l.
Proof.
  unfold group_by. induction l as [|x l IH] using rev_ind; [done|]. rewrite fold_left_app. cbn [fold_left].
  assert (H : forall g, concat (map snd (add_row key g x)) ≡ₚ concat (map snd g) ++ [x]).
  { induction g as [|[k xs] g IHg]; [done|]. cbn [add_row]. destruct (String.eqb k (key x)); cbn.
    - rewrite <- !app_assoc. f_equiv. apply Permutation_app_comm.
    - by rewrite IHg, app_assoc. }
  by rewrite H, IH.
Qed.

(** The order of names is total and transitive, as [localeCompare] is. *)
Context (collate_total : forall a b, 0 < collate a b -> collate b a <= 0).
Context (collate_trans : forall a b c, collate a b <= 0 -> collate b c <= 0 -> collate a c <= 0).

Lemma worse_total a b : worse_first collate a b = false -> worse_first collate b a = true.
Proof.
  unfold worse_first. rewrite orb_false_iff, andb_false_iff, orb_true_iff, andb_true_iff, Z.ltb_ge, Z.eqb_neq, Z.leb_gt, Z.ltb_lt, Z.eqb_eq, Z.leb_le.
  intros [H1 [H2|H2]]; [left; lia|]. destruct (decide (STATE_ORD (f_state b) < STATE_ORD (f_state a))); [by left|right]. split; [lia|auto].
Qed.

Lemma worse_trans a b c : worse_first collate a b = true -> worse_first collate b c = true -> worse_first collate a c = true.
Proof.
  unfold worse_first. rewrite !orb_true_iff, !andb_true_iff, !Z.ltb_lt, !Z.eqb_eq, !Z.leb_le.
  intros [H1|[H1 H2]] [H3|[H3 H4]]; [left; lia..|right]. split; [lia|eauto].
Qed.

Lemma block_sorted key title rows b :
  block_of collate key title rows = Some b ->
  bl_rows b <> [] /\ StronglySorted (fun x y => STATE_ORD (f_state x) <= STATE_ORD (f_state y)) (bl_rows b).
Proof.
  unfold block_of. destruct rows as [|x l]; [done|]. intros [= <-]. cbn [bl_rows]. split.
  - change (sort_by (worse_first collate) (x :: l) <> []). intros E%(f_equal length). by rewrite sort_by_length in E.
  - change (insert_by _ _ _) with (sort_by (worse_first collate) (x :: l)).
    pose proof (sort_by_sorted _ worse_total worse_trans (x :: l)) as H. induction H as [|y r _ IH Hf]; constructor; [done|].
    eapply Forall_impl; [exact Hf|]. cbn. intros z. unfold worse_first. rewrite orb_true_iff, andb_true_iff, Z.ltb_lt, Z.eqb_eq. lia.
Qed.

(** The heat map shows every node of its list exactly once, worst state first in
    every block, as long as segments have ids of their own and none is written like the
    number of a pool. *)
Theorem heat_map_shows_every_node_once (segs : list (string * string)) (nodes : list row) :
  NoDup (map fst segs) ->
  Forall (fun n => match f_seg n with SSeg _ => True | s => seg_text s ∉ map fst segs end) nodes ->
  concat (map bl_rows (HeatView collate segs nodes)) ≡ₚ nodes /\
  (forall b, b ∈ HeatView collate segs nodes ->
     bl_rows b <> [] /\ StronglySorted (fun x y => STATE_ORD (f_state x) <= STATE_ORD (f_state y)) (bl_rows b)).
Proof.
  intros Hn Hp. split.
  - unfold HeatView. rewrite map_app, concat_app.
    rewrite (blocks_rows _ (fun s : string * string => List.filter (same_segment s.1) nodes)) by (intros s; apply block_rows).
    rewrite (blocks_rows _ (fun p : string * list row => p.2)) by (intros p; apply block_rows).
    change (map (fun p : string * list row => p.2)) with (map (@snd string (list row))). rewrite concat_groups.
    rewrite <- (map_map fst (fun i => List.filter (same_segment i) nodes)), concat_segments; [|done|].
    + rewrite <- (filter_split (in_segment segs) nodes) at 3. f_equiv. erewrite filter_ext_in; [done|]. intros n Hnode%list_elem_of_In. cbn beta.
      rewrite Forall_forall in Hp. specialize (Hp n Hnode).
      unfold in_segment, same_segment. apply eq_iff_eq_true. rewrite existsb_exists, bool_decide_eq_true.
      destruct (f_seg n) as [t|z|]; cbn [seg_text].
      * split; [intros (i & Hi & ->%String.eqb_eq); by apply list_elem_of_In|]. intros Hi. exists t. split; [by apply list_elem_of_In|apply String.eqb_refl].
      * split; [by intros (i & _ & ?)|]. done.
      * split; [by intros (i & _ & ?)|]. done.
    + intros n a b. unfold same_segment. destruct (f_seg n); [|done|done]. by intros <-%String.eqb_eq <-%String.eqb_eq.
  - intros b. unfold HeatView. rewrite elem_of_app, !list_elem_of_omap. intros [(s & _ & H)|(q & _ & H)]; by apply block_sorted in H.
Qed.

(** A node whose pool's number is written like the id of a segment is in no block: its
    text is known as a segment, and no segment is it. *)
Theorem pool_hidden_by_a_segment (segs : list (string * string)) (n : row) (z : Z) :
  f_seg n = SPool z -> pretty z ∈ map fst segs -> HeatView collate segs [n] = [].
Proof.
  intros Hs Hz. unfold HeatView. cbn [List.filter].
  assert (Hi : in_segment segs n = true) by (unfold in_segment; rewrite Hs; by apply bool_decide_eq_true).
  assert (Hb : forall i, same_segment i n = false) by (intros i; unfold same_segment; by rewrite Hs).
  rewrite Hi. cbn. rewrite app_nil_r. clear Hz Hi. induction segs as [|s l IH]; [done|]. cbn. by rewrite Hb.
Qed.

End HeatMap.

Lemma heat_map_shows_every_node_once_witness :
  let collate a b := if string_le a b then 0 else 1 in
  let n id s st := Row id id s "client" st "Lab" "" None false [] in
  let nodes := [n "1" "up" (SSeg "lan"); n "2" "down" (SSeg "lan"); n "3" "up" (SPool 4)] in
  concat (map bl_rows (HeatView collate [("lan", "LAN"); ("dmz", "DMZ")] nodes)) ≡ₚ nodes.
Proof.
  intros collate n nodes. apply (heat_map_shows_every_node_once collate).
  - intros a b. unfold collate. destruct (string_le a b) eqn:E; [lia|]. by rewrite (string_le_total _ _ E).
  - intros a b c. unfold collate. destruct (string_le a b) eqn:E1, (string_le b c) eqn:E2; try lia. by rewrite (string_le_trans _ _ _ E1 E2).
  - repeat constructor; set_solver.
  - repeat constructor; cbn; rewrite !not_elem_of_cons; split_and!; [done|done|apply not_elem_of_nil].
Defined.

(** ** The table *)

Lemma cell_total k a b : cell_le (column k a) (column k b) = false -> cell_le (column k b) (column k a) = true.
Proof.
  unfold column. repeat case_match; cbn; try apply string_le_total; rewrite Z.leb_gt, Z.leb_le; lia.
Qed.

Lemma cell_trans k a b c :
  cell_le (column k a) (column k b) = true -> cell_le (column k b) (column k c) = true -> cell_le (column k a) (column k c) = true.
Proof.
  unfold column. repeat case_match; cbn; try apply string_le_trans; rewrite !Z.leb_le; lia.
Qed.

Definition flip_le (s : sorting) (a b : row) : bool :=
  if so_dir s =? 1 then cell_le (column (so_key s) a) (column (so_key s) b) else cell_le (column (so_key s) b) (column (so_key s) a).

Lemma table_le_flip s a b : so_dir s = 1 \/ so_dir s = -1 -> table_le s a b = flip_le s a b.
Proof.
  intros Hd. unfold table_le, flip_le. pose proof (cell_total (so_key s) a b) as H1. pose proof (cell_total (so_key s) b a) as H2.
  destruct (cell_le (column (so_key s) b) (column (so_key s) a)), (cell_le (column (so_key s) a) (column (so_key s) b)), Hd as [-> | ->]; cbn; naive_solver.
Qed.

(** The table has the same rows in the order of the chosen column, up or down; a second
    click on a heading turns the order around, and another heading starts upwards. *)
Theorem table_is_ordered (s : sorting) (nodes : list row) (k : string) :
  so_dir s = 1 \/ so_dir s = -1 ->
  table s nodes ≡ₚ nodes /\
  StronglySorted (fun a b => if so_dir s =? 1 then cell_le (column (so_key s) a) (column (so_key s) b) = true
                             else cell_le (column (so_key s) b) (column (so_key s) a) = true) (table s nodes) /\
  setSort (setSort s (so_key s)) (so_key s) = s /\ (so_key s <> k -> so_dir (setSort s k) = 1).
Proof.
  intros Hd. split_and!.
  - apply sort_by_perm.
  - unfold table. rewrite (sort_by_ext _ (flip_le s)) by (intros; by apply table_le_flip).
    assert (Hs : StronglySorted (fun a b => flip_le s a b = true) (sort_by (flip_le s) nodes)).
    { apply sort_by_sorted.
      - intros x y. unfold flip_le. destruct (so_dir s =? 1); apply cell_total.
      - intros x y z. unfold flip_le. destruct (so_dir s =? 1); [apply cell_trans|]. intros H1 H2. by eapply cell_trans. }
    unfold flip_le in Hs at 1. by destruct (so_dir s =? 1).
  - unfold setSort. rewrite String.eqb_refl. cbn. rewrite String.eqb_refl, Z.opp_involutive. by destruct s.
  - intros Hk. unfold setSort. by rewrite (proj2 (String.eqb_neq _ _) Hk).
Qed.

(** ** The page of a node *)

(** Events in which no answer to the live effect arrives: other answers, clicks, and
    moves between nodes of the route. *)
Definition unanswered (p : page) (e : pevent) : Prop := match e with NDetail i _ => i <> pg_inst p | _ => True end.

Fixpoint unanswered_run (p : page) (es : list pevent) : Prop :=
  match es with [] => True | e :: es => unanswered p e /\ unanswered_run (pstep p e) es end.

Lemma unanswered_keeps es : forall p, unanswered_run p es -> pg_detail (prun p es) = pg_detail p.
Proof.
  induction es as [|e es IH]; intros p Hes; [done|]. destruct Hes as [He Hes]. change (prun p (e :: es)) with (prun (pstep p e) es).
  rewrite IH by done. destruct e; cbn in *; try done. by rewrite (proj2 (Nat.eqb_neq _ _) He).
Qed.

Lemma tier_kept es t : forall p, pg_tier p = Some t -> Forall (fun e => match e with NTierOk _ => False | _ => True end) es -> pg_tier (prun p es) = Some t.
Proof.
  induction es as [|e es IH]; intros p Hp Hes; [done|]. inversion_clear Hes as [|? ? He Hes']. change (prun p (e :: es)) with (prun (pstep p e) es).
  apply IH; [|done]. destruct e; cbn in *; try done. by destruct (Nat.eqb _ _).
Qed.

(** Moving from one node's page to another's keeps what the page knew.  Until the new
    node's detail is answered, and for good when it never is, the page shows the node it
    left, and its actions are about that one; and a tier the operator set stays in place
    of every tier that is loaded afterwards, of that node and of every node visited
    next. *)
Theorem node_page_keeps_the_last_node (fleet : list row) (p : page) (old : row) (n : row) (t : Z) (es : list pevent) :
  pg_detail p = Some old -> f_id n <> f_id (pg_node p) ->
  (unanswered_run (pstep p (NRoute n)) es ->
     shown_node fleet (prun p (NRoute n :: es)) = old /\ acts_on fleet (prun p (NRoute n :: es)) = f_id old) /\
  (Forall (fun e => match e with NTierOk _ => False | _ => True end) es ->
     shown_tier fleet (prun p (NTierOk t :: NRoute n :: es)) = Some t) /\
  (forall d, shown_node fleet (prun p [NRoute n; NDetail (S (pg_inst p)) d]) = d).
Proof.
  intros Hd Hn. split_and!.
  - intros Hes. change (prun p (NRoute n :: es)) with (prun (pstep p (NRoute n)) es).
    unfold acts_on, shown_node. rewrite unanswered_keeps by done. cbn [pstep pg_detail]. by rewrite Hd.
  - intros Hes. unfold shown_tier. change (prun p (NTierOk t :: NRoute n :: es)) with (prun (pstep p (NTierOk t)) (NRoute n :: es)).
    by rewrite (tier_kept (NRoute n :: es) t); [|done|constructor].
  - intros d. unfold prun. cbn [fold_left pstep]. rewrite (proj2 (String.eqb_neq _ _) Hn). cbn [pg_inst]. by rewrite Nat.eqb_refl.
Qed.

Lemma node_page_keeps_the_last_node_witness :
  let n id c := Row id ("host" +:+ id) "up" "client" SNull "" "" c false [] in
  let p := Page (n "1" None) (Some (n "1" (Some 2))) None 0 false in
  acts_on [] (prun p [NRoute (n "2" (Some 4)); NDetail 0 (n "1" None); NRetire]) = "1" /\
  shown_tier [] (prun p [NTierOk 5; NRoute (n "2" (Some 4)); NDetail 1 (n "2" (Some 4))]) = Some 5.
Proof.
  intros n p.
  destruct (node_page_keeps_the_last_node [] p (n "1" (Some 2)) (n "2" (Some 4)) 5 [NDetail 0 (n "1" None); NRetire]) as [H1 _]; [done|done|].
  destruct (node_page_keeps_the_last_node [] p (n "1" (Some 2)) (n "2" (Some 4)) 5 [NDetail 1 (n "2" (Some 4))]) as (_ & H2 & _); [done|done|].
  split; [by apply H1; repeat split|apply H2; by repeat constructor].
Defined.
