(* ===== verification/CatalogTab.v ===== *)
(** * The catalogue tab (screens4.jsx)

    One page keeps a searched, paged list of product types and the type the
    operator has open.  Every request is a job in flight that remembers what its
    closure captured: the sequence number it was started with, and the search box
    and kind chip of the render it came from.  Answers arrive in any order. *)

From Stdlib Require Import ZArith Lia.
From stdpp Require Import strings pretty list.
From S2P Require Import Prelude JsNum JsValue Catalog InvForms.

Local Open Scope string_scope.
Local Open Scope list_scope.
Local Open Scope Z_scope.

(** ** Rows and their words *)

Record barcode := Barcode { bc_id : Z; bc_code : string; bc_type : string }.

Record prow := PRow { t_id : Z; t_kind : string; t_name : option string; t_brand : option string; t_model : option string;
                      t_category : option string; t_image : option string; t_notes : option string; t_specs : value;
                      t_updated : string; t_source : string; t_barcodes : list barcode }.

Definition CAT_KINDS : list string := ["hardware"; "peripheral"; "component"; "software"; "accessory"; "consumable"; "other"].

Definition CAT_PAGE : nat := 50.

Definition orElse (a b : string) : string := if String.eqb a "" then b else a.

Definition catErrorText (code msg fallback : string) : string :=
  if String.eqb code "conflict" then "This product type was changed elsewhere since you opened it. The latest version has been loaded — check it and save again."
  else if String.eqb code "duplicate_barcode" then "That code is already attached to another product type."
  else if String.eqb code "not_found" then "It no longer exists — it may have been retired elsewhere."
  else if String.eqb code "bad_request" then orElse msg "The server rejected this request."
  else if String.eqb code "DATA_STALE" then msg
  else orElse msg (orElse fallback "The request failed.").

Definition typeTitle (t : prow) : string :=
  let name := trim (default "" (t_name t)) in
  let model := trim (default "" (t_model t)) in
  if String.eqb name "" || String.eqb name model
  then orElse (catalogName (default "" (t_brand t)) model) (orElse name "Untitled")
  else name.

Definition typeByline (t : prow) : string :=
  String.concat " · " (List.filter (fun x => negb (String.eqb (trim x) "")) (omap id [t_brand t; t_model t; t_category t])).

Definition isLegacyLinked (t : prow) : bool := String.eqb (t_source t) "migration:033" || starts_with "legacy:" (t_source t).

(** ** The state *)

Record listing := Listing { items : list prow; total : Z; hasMore : bool; nextOffset : Z; loaded : bool; l_q : string; l_kind : string }.

(** The list panel: the search box, the kind chip, the rows, the number of the last
    request and the search waiting for its 250 ms, with the kind its closure saw. *)
Record lpanel := LPanel { q : string; kind : string; lst : listing; loading : bool; listErr : string; seq : nat;
                          timer : option (string * string) }.

Record attachment := Attachment { at_code : string; at_type : string }.

(** The detail panel. *)
Record dpanel := DPanel { selected : option Z; detail : option prow; detailErr : string; dseq : nat; retiring : bool;
                          removing : option Z; attach : attachment; busy : bool; actErr : string }.

Inductive found := Found (code name : string) | Missing (code : string) | LookupError (code msg : string).

Definition found_code (f : found) : string := match f with Found c _ | Missing c | LookupError c _ => c end.

Inductive sheet := CreateSheet (code : option string) | EditSheet (t : prow) | ItemsSheet (t : prow).

(** The sheet over the page: how many were opened so far, and whether its save runs. *)
Record spanel := SPanel { s_up : option sheet; s_no : nat; s_busy : bool }.

(** A request in flight and what its continuation captured. *)
Inductive job :=
| JList (n : nat) (append : bool) (offset : Z) (jq jkind : string)
| JDetail (n : nat) (id : Z)
| JLookup (code : string)
| JRetire (t : prow) (eq ek : string)
| JAttach (t : prow) (code : string) (seen : option found)
| JWho (code : string)
| JRemove (t : prow) (b : barcode)
| JSave (eq ek message : string) (no : nat) (s : sheet).

(** What leaves the page: the writes, and the reload of the whole inventory. *)
Inductive effect := WRetire (id : Z) | WAttach (id : Z) (code type : string) | WRemove (id : Z)
| WCreate | WUpdate (id : Z) | WItems (id : Z) | InventoryChanged.

Record tab := Tab { lp : lpanel; dp : dpanel; scan : string; lookup : option found; sp : spanel; notice : string;
                    jobs : list job; effects : list effect }.

Definition set_lp (f : lpanel -> lpanel) (t : tab) : tab :=
  Tab (f (lp t)) (dp t) (scan t) (lookup t) (sp t) (notice t) (jobs t) (effects t).
Definition set_dp (f : dpanel -> dpanel) (t : tab) : tab :=
  Tab (lp t) (f (dp t)) (scan t) (lookup t) (sp t) (notice t) (jobs t) (effects t).
Definition set_scan (s : string) (t : tab) : tab := Tab (lp t) (dp t) s (lookup t) (sp t) (notice t) (jobs t) (effects t).
Definition set_lookup (l : option found) (t : tab) : tab := Tab (lp t) (dp t) (scan t) l (sp t) (notice t) (jobs t) (effects t).
Definition set_sp (f : spanel -> spanel) (t : tab) : tab := Tab (lp t) (dp t) (scan t) (lookup t) (f (sp t)) (notice t) (jobs t) (effects t).
Definition show_sheet (s : sheet) (p : spanel) : spanel := match s_up p with None => SPanel (Some s) (S (s_no p)) false | Some _ => p end.
Definition close_sheet (p : spanel) : spanel := SPanel None (s_no p) false.
Definition set_saving (b : bool) (p : spanel) : spanel := SPanel (s_up p) (s_no p) b.
Definition set_notice (n : string) (t : tab) : tab := Tab (lp t) (dp t) (scan t) (lookup t) (sp t) n (jobs t) (effects t).
Definition start (j : job) (t : tab) : tab := Tab (lp t) (dp t) (scan t) (lookup t) (sp t) (notice t) (jobs t ++ [j]) (effects t).
Definition emit (e : effect) (t : tab) : tab := Tab (lp t) (dp t) (scan t) (lookup t) (sp t) (notice t) (jobs t) (effects t ++ [e]).
Definition drop_job (i : nat) (t : tab) : tab :=
  Tab (lp t) (dp t) (scan t) (lookup t) (sp t) (notice t) (take i (jobs t) ++ drop (S i) (jobs t)) (effects t).

Definition set_actErr (e : string) (p : dpanel) : dpanel :=
  DPanel (selected p) (detail p) (detailErr p) (dseq p) (retiring p) (removing p) (attach p) (busy p) e.
Definition set_busy (b : bool) (p : dpanel) : dpanel :=
  DPanel (selected p) (detail p) (detailErr p) (dseq p) (retiring p) (removing p) (attach p) b (actErr p).
Definition set_confirm (rt : bool) (rm : option Z) (p : dpanel) : dpanel :=
  DPanel (selected p) (detail p) (detailErr p) (dseq p) rt rm (attach p) (busy p) (actErr p).
Definition set_attach (a : attachment) (p : dpanel) : dpanel :=
  DPanel (selected p) (detail p) (detailErr p) (dseq p) (retiring p) (removing p) a (busy p) (actErr p).
Definition set_detail (r : option prow) (e : string) (p : dpanel) : dpanel :=
  DPanel (selected p) r e (dseq p) (retiring p) (removing p) (attach p) (busy p) (actErr p).

(** ** The handlers *)

(** [eq] and [ek] are the search box and the chip the closure saw. *)
Definition load (eq ek : string) (nq nk : option string) (append : bool) (t : tab) : tab :=
  let p := lp t in
  let offset := if append then nextOffset (lst p) else 0 in
  start (JList (S (seq p)) append offset (trim (default eq nq)) (default ek nk))
    (set_lp (fun p => LPanel (q p) (kind p) (lst p) true (listErr p) (S (seq p)) (timer p)) t).

Definition opened (prev : option prow) (id : Z) : option prow :=
  match prev with Some r => if t_id r =? id then Some r else None | None => None end.

Definition openType (id : option Z) (prefill : option string) (t : tab) : tab :=
  let n := S (dseq (dp t)) in
  let a := match prefill with
           | Some c => if String.eqb c "" then Attachment "" "other" else Attachment c (guessCodeType c)
           | None => Attachment "" "other"
           end in
  let t' := set_dp (fun p => DPanel id (match id with Some i => opened (detail p) i | None => None end) "" n false None a (busy p) "") t in
  match id with
  | None => t'
  | Some i => start (JDetail n i) t'
  end.

Definition done (eq ek message : string) (select : option (option Z)) (changed : bool) (t : tab) : tab :=
  let t1 := set_notice message (set_sp close_sheet t) in
  let t2 := if changed then emit InventoryChanged t1 else t1 in
  let t3 := load eq ek None None false t2 in
  match select with Some id => openType id None t3 | None => t3 end.

(** The write a sheet's save sends; the bodies are those of the sheets. *)
Definition sheet_write (s : sheet) : effect :=
  match s with CreateSheet _ => WCreate | EditSheet r => WUpdate (t_id r) | ItemsSheet r => WItems (t_id r) end.

(** The type [onDone] selects, from the row answered, and whether items changed. *)
Definition saved_id (s : sheet) (r : option prow) : option (option Z) :=
  match s, r with
  | ItemsSheet r0, _ => Some (Some (t_id r0))
  | _, Some r => Some (Some (t_id r))
  | EditSheet r0, None => Some (Some (t_id r0))
  | CreateSheet _, None => None
  end.

Definition saved_changes (s : sheet) : bool := match s with CreateSheet _ => false | _ => true end.

(** [sel]: the type shown, which the buttons act on. *)
Definition sel (t : tab) : option prow := match selected (dp t) with Some _ => detail (dp t) | None => None end.

Inductive answer :=
| ARows (rows : list prow) (atotal : option Z) (amore : bool) (anext : option Z)
| ARow (r : option prow)
| AOk
| AErr (code msg : string).

Definition page_arrives (n : nat) (append : bool) (offset : Z) (jq jkind : string) (a : answer) (p : lpanel) : lpanel :=
  if Nat.eqb n (seq p) then
    match a with
    | ARows rows tot more next =>
        let len := Z.of_nat (length rows) in
        LPanel (q p) (kind p)
          (Listing (if append then items (lst p) ++ rows else rows) (default (offset + len) tot) more (default (offset + len) next) true jq jkind)
          false "" (seq p) (timer p)
    | AErr code msg => LPanel (q p) (kind p) (lst p) false (catErrorText code msg "The catalog could not be loaded.") (seq p) (timer p)
    | _ => p
    end
  else p.

Definition detail_arrives (n : nat) (a : answer) (p : dpanel) : dpanel :=
  if Nat.eqb n (dseq p) then
    match a with
    | ARow r => set_detail r (detailErr p) p
    | AErr code msg => set_detail None (catErrorText code msg "This product type could not be loaded.") p
    | _ => p
    end
  else p.

Definition is_missing (code : string) : bool := String.eqb code "not_found".

(** The continuation of a request. *)
Definition answered (j : job) (a : answer) (t : tab) : tab :=
  match j, a with
  | JList n append offset jq jkind, _ => set_lp (page_arrives n append offset jq jkind a) t
  | JDetail n _, _ => set_dp (detail_arrives n a) t
  | JLookup code, ARow (Some r) => openType (Some (t_id r)) None (set_lookup (Some (Found code (typeTitle r))) (set_scan "" t))
  | JLookup code, ARow None => set_lookup (Some (Missing code)) t
  | JLookup code, AErr c m => set_lookup (Some (LookupError code (catErrorText c m "Lookup failed."))) t
  | JRetire r eq ek, AOk =>
      done eq ek ("Retired " +:+ typeTitle r) (Some None) true (set_dp (fun p => set_confirm false (removing p) (set_busy false p)) t)
  | JRetire r eq ek, AErr c m =>
      let t1 := set_dp (fun p => set_actErr (catErrorText c m "Retire failed.") (set_busy false p)) t in
      if is_missing c then load eq ek None None false (openType None None t1) else t1
  | JAttach r code seen, AOk =>
      let t1 := set_notice ("Attached " +:+ code +:+ " to " +:+ typeTitle r) (set_dp (set_busy false) t) in
      let t2 := match seen with Some f => if String.eqb (found_code f) code then set_lookup None t1 else t1 | None => t1 end in
      openType (Some (t_id r)) None t2
  | JAttach r code _, AErr c m =>
      let t1 := set_dp (fun p => set_actErr (catErrorText c m "Attach failed.") (set_busy false p)) t in
      if String.eqb c "duplicate_barcode" then start (JWho code) t1 else t1
  | JWho code, ARow (Some r) =>
      set_dp (set_actErr (code +:+ " is already attached to “" +:+ typeTitle r +:+ "”. Remove it there first if it belongs here.")) t
  | JRemove r b, AOk =>
      openType (Some (t_id r)) None
        (set_notice ("Removed " +:+ bc_code b +:+ " from " +:+ typeTitle r) (set_dp (fun p => set_confirm (retiring p) None (set_busy false p)) t))
  | JRemove r b, AErr c m =>
      let t1 := set_dp (fun p => set_actErr (catErrorText c m "Remove failed.") (set_busy false p)) t in
      if is_missing c then openType (Some (t_id r)) None t1 else t1
  | JSave eq ek message _ s, ARow r => done eq ek message (saved_id s r) (saved_changes s) t
  | JSave _ _ _ no _, AErr _ _ => set_sp (fun p => if Nat.eqb no (s_no p) then set_saving false p else p) t
  | _, _ => t
  end.

Inductive event :=
| ESearch (v : string) | ETimer | ESearchNow | EKind (k : string) | EMore
| EOpen (id : option Z) | ERetireAsk | ERetireKeep | ERetire | ERemoveAsk (id : Z) | ERemoveKeep | ERemove (b : barcode)
| EAttachCode (s : string) | EAttachType (s : string) | EAttach
| EScan (s : string) | ELookup | EUse | EDismiss
| ENew (with_code : bool) | EEdit | EItems | EClose | ESave (message : string)
| EAnswer (i : nat) (a : answer).

Definition search_typed (v : string) (p : lpanel) : lpanel :=
  LPanel v (kind p) (lst p) (loading p) (listErr p) (seq p) (Some (v, kind p)).
Definition no_timer (p : lpanel) : lpanel := LPanel (q p) (kind p) (lst p) (loading p) (listErr p) (seq p) None.
Definition chip (k : string) (p : lpanel) : lpanel := LPanel (q p) k (lst p) (loading p) (listErr p) (seq p) (timer p).

Definition attachCode (t : tab) : tab :=
  match sel t with
  | None => t
  | Some r =>
      let a := attach (dp t) in
      let code := normCode (at_code a) in
      let bad := codeError code (at_type a) in
      if negb (String.eqb bad "") then set_dp (set_actErr bad) t
      else start (JAttach r code (lookup t)) (emit (WAttach (t_id r) code (at_type a)) (set_dp (fun p => set_actErr "" (set_busy true p)) t))
  end.

Definition runLookup (t : tab) : tab :=
  let code := normCode (scan t) in
  if String.eqb code "" then t else start (JLookup code) (set_notice "" (set_lookup None t)).

Definition working (p : dpanel) : dpanel := set_actErr "" (set_busy true p).

(** One event; a control that is disabled or not shown does nothing.  A sheet covers the
    page, so no second one is opened over it, and [ESave] is a save that its form let
    through. *)
Definition step (t : tab) (e : event) : tab :=
  match e with
  | ESearch v => set_lp (search_typed v) t
  | ETimer =>
      match timer (lp t) with
      | Some (v, k) => load v k (Some v) None false (set_lp no_timer t)
      | None => t
      end
  | ESearchNow => load (q (lp t)) (kind (lp t)) (Some (q (lp t))) None false (set_lp no_timer t)
  | EKind k => load (q (lp t)) (kind (lp t)) None (Some k) false (set_lp (chip k) t)
  | EMore => if hasMore (lst (lp t)) && negb (loading (lp t)) then load (q (lp t)) (kind (lp t)) None None true t else t
  | EOpen id => openType id None t
  | ERetireAsk => set_dp (set_confirm true None) t
  | ERetireKeep => set_dp (fun p => set_confirm false (removing p) p) t
  | ERetire =>
      match sel t with
      | Some r => if retiring (dp t) && negb (busy (dp t))
                  then start (JRetire r (q (lp t)) (kind (lp t))) (emit (WRetire (t_id r)) (set_dp working t)) else t
      | None => t
      end
  | ERemoveAsk id => set_dp (set_confirm false (Some id)) t
  | ERemoveKeep => set_dp (fun p => set_confirm (retiring p) None p) t
  | ERemove b =>
      match sel t with
      | Some r => if bool_decide (removing (dp t) = Some (bc_id b)) && existsb (fun c => bc_id c =? bc_id b) (t_barcodes r) && negb (busy (dp t))
                  then start (JRemove r b) (emit (WRemove (bc_id b)) (set_dp working t)) else t
      | None => t
      end
  | EAttachCode s => set_dp (fun p => set_attach (Attachment s (at_type (attach p))) p) t
  | EAttachType s => set_dp (fun p => set_attach (Attachment (at_code (attach p)) s) p) t
  | EAttach => if busy (dp t) then t else attachCode t
  | EScan s => set_scan s t
  | ELookup => runLookup t
  | EUse =>
      match lookup t, sel t with
      | Some (Missing code), Some _ => set_dp (fun p => set_actErr "" (set_attach (Attachment code (guessCodeType code)) p)) t
      | _, _ => t
      end
  | EDismiss => set_lookup None t
  | ENew false => set_sp (show_sheet (CreateSheet None)) t
  | ENew true =>
      match lookup t with
      | Some (Missing code) => set_sp (show_sheet (CreateSheet (Some code))) t
      | _ => t
      end
  | EEdit =>
      match sel t with Some r => if retiring (dp t) then t else set_sp (show_sheet (EditSheet r)) t | None => t end
  | EItems =>
      match sel t with Some r => if retiring (dp t) then t else set_sp (show_sheet (ItemsSheet r)) t | None => t end
  | EClose => set_sp close_sheet t
  | ESave message =>
      match s_up (sp t) with
      | Some s =>
          if s_busy (sp t) then t
          else start (JSave (q (lp t)) (kind (lp t)) message (s_no (sp t)) s) (emit (sheet_write s) (set_sp (set_saving true) t))
      | None => t
      end
  | EAnswer i a => match jobs t !! i with Some j => answered j a (drop_job i t) | None => t end
  end.

Definition empty_list : listing := Listing [] 0 false 0 false "" "".

(** The page as the first effect leaves it: the list is being loaded. *)
Definition mounted : tab :=
  load "" "" None None false
    (Tab (LPanel "" "" empty_list false "" 0 None) (DPanel None None "" 0 false None (Attachment "" "other") false "") "" None (SPanel None 0 false) "" [] []).

Definition run (es : list event) : tab := fold_left step es mounted.

(** ** The server's pages and the runs of the page *)

(** [inv_page_result] of the rows a query matches, from an offset. *)
Definition serve (l : list prow) (offset : Z) : answer :=
  let page := take CAT_PAGE (drop (Z.to_nat offset) l) in
  let tot := Z.of_nat (length l) in
  let next := offset + Z.of_nat (length page) in
  ARows page (Some tot) (next <? tot) (if next <? tot then Some next else None).

(** The search box and chip a continuation will reload the list with. *)
Definition env_of (j : job) : option (string * string) :=
  match j with JRetire _ eq ek | JSave eq ek _ _ _ => Some (eq, ek) | _ => None end.

Definition envs (t : tab) : list (string * string) := omap env_of (jobs t).

Section Runs.
(** The rows that match a search and a kind, in the server's order. *)
Context (rows : string -> string -> list prow).

(** The server answers the question it was asked; a failure has a message. *)
Definition honest_answer (j : job) (a : answer) : Prop :=
  match j with
  | JList _ _ offset jq jkind => a = serve (rows jq jkind) offset \/ exists code msg, a = AErr code msg /\ msg <> ""
  | JDetail _ id => forall r, a = ARow (Some r) -> t_id r = id
  | _ => True
  end.

Definition honest (t : tab) (e : event) : Prop :=
  match e with EAnswer i a => forall j, jobs t !! i = Some j -> honest_answer j a | _ => True end.

(** "Show more" is pressed on the list of the query in the box, and neither the box
    nor the chip changes under a search that waits or a write in flight. *)
Definition calm (t : tab) (e : event) : Prop :=
  match e with
  | EMore => l_q (lst (lp t)) = trim (q (lp t)) /\ l_kind (lst (lp t)) = kind (lp t)
  | ESearch _ => envs t = []
  | EKind _ => envs t = [] /\ timer (lp t) = None
  | _ => True
  end.

Inductive reach (ok : tab -> event -> Prop) : tab -> Prop :=
| reach_mount : reach ok mounted
| reach_step t e : reach ok t -> ok t e -> reach ok (step t e).

Fixpoint run_ok (ok : tab -> event -> Prop) (t : tab) (es : list event) : Prop :=
  match es with [] => True | e :: es => ok t e /\ run_ok ok (step t e) es end.

Lemma reach_run ok es : run_ok ok mounted es -> reach ok (run es).
Proof.
  unfold run. pose proof (reach_mount ok) as Hm. revert Hm. generalize mounted.
  induction es as [|e es IH]; intros t Ht; [done|]. intros [He Hes]. apply IH; [|done]. by constructor.
Qed.

(** ** Which parts an operation leaves alone *)

Record pg := Pg { g_n : nat; g_append : bool; g_offset : Z; g_q : string; g_kind : string }.

Definition page_of (j : job) : option pg := match j with JList n ap off a b => Some (Pg n ap off a b) | _ => None end.

Definition pages (t : tab) : list pg := omap page_of (jobs t).

(** What the list's theorems look at. *)
Definition view (t : tab) : lpanel * list pg * list (string * string) := (lp t, pages t, envs t).

Lemma omap_snoc {A B} (f : A -> option B) l x : omap f (l ++ [x]) = omap f l ++ match f x with Some y => [y] | None => [] end.
Proof. rewrite omap_app. cbn. by destruct (f x). Qed.

Lemma view_start j t : view (start j t) =
  (lp t, pages t ++ match page_of j with Some g => [g] | None => [] end, envs t ++ match env_of j with Some e => [e] | None => [] end).
Proof. unfold view, pages, envs, start. cbn. by rewrite !omap_snoc. Qed.

Lemma view_start_silent j t : page_of j = None -> env_of j = None -> view (start j t) = view t.
Proof. intros H1 H2. rewrite view_start, H1, H2, !app_nil_r. done. Qed.

Lemma view_openType id c t : view (openType id c t) = view t.
Proof. unfold openType. destruct id; cbn; [by rewrite view_start_silent|done]. Qed.

Definition loaded_view (eq ek : string) (nq nk : option string) (append : bool) (v : lpanel * list pg * list (string * string)) :=
  let '(p, P, E) := v in
  (LPanel (q p) (kind p) (lst p) true (listErr p) (S (seq p)) (timer p),
   P ++ [Pg (S (seq p)) append (if append then nextOffset (lst p) else 0) (trim (default eq nq)) (default ek nk)], E).

Lemma view_load eq ek nq nk ap t : view (load eq ek nq nk ap t) = loaded_view eq ek nq nk ap (view t).
Proof. unfold load. rewrite view_start. cbn [page_of env_of]. by rewrite app_nil_r. Qed.

Lemma view_done eq ek m s c t : view (done eq ek m s c t) = loaded_view eq ek None None false (view t).
Proof.
  unfold done. assert (Hv : forall t', view t' = view t -> view (load eq ek None None false t') = loaded_view eq ek None None false (view t)).
  { intros t' E. by rewrite view_load, E. }
  destruct s as [id|]; [rewrite view_openType|]; apply Hv; by destruct c.
Qed.

(** ** The list panel's invariant *)

Definition prefix_list (l : listing) : Prop :=
  let r := rows (l_q l) (l_kind l) in
  items l = take (Z.to_nat (nextOffset l)) r /\ nextOffset l = Z.of_nat (length (items l)) /\
  total l = Z.of_nat (length r) /\ hasMore l = (nextOffset l <? total l).

(** A request that still counts extends the list it was started on. *)
Definition live_page (p : lpanel) (g : pg) : Prop :=
  loading p = true /\
  if g_append g then loaded (lst p) = true /\ g_offset g = nextOffset (lst p) /\ g_q g = l_q (lst p) /\ g_kind g = l_kind (lst p)
  else g_offset g = 0.

Definition list_ok (p : lpanel) (P : list pg) : Prop :=
  NoDup (map g_n P) /\ Forall (fun g => (g_n g <= seq p)%nat /\ (g_n g = seq p -> live_page p g)) P /\
  (hasMore (lst p) = true -> loaded (lst p) = true) /\ (loaded (lst p) = true -> prefix_list (lst p)).

(** The list is being loaded for what the controls show, or it shows that. *)
Definition current (p : lpanel) (P : list pg) : Prop :=
  (exists g, g ∈ P /\ g_n g = seq p /\ g_q g = trim (q p) /\ g_kind g = kind p) \/
  (loading p = false /\ (listErr p <> "" \/ loaded (lst p) = true /\ l_q (lst p) = trim (q p) /\ l_kind (lst p) = kind p)).

Definition controls_ok (p : lpanel) (P : list pg) (E : list (string * string)) : Prop :=
  Forall (fun e => e = (q p, kind p)) E /\
  match timer p with Some (v, k) => v = q p /\ k = kind p | None => current p P end.

Definition view_ok (v : lpanel * list pg * list (string * string)) : Prop := let '(p, P, E) := v in list_ok p P /\ controls_ok p P E.

Lemma list_ok_load eq ek nq nk ap p P E :
  list_ok p P -> (ap = true -> loaded (lst p) = true /\ trim (default eq nq) = l_q (lst p) /\ default ek nk = l_kind (lst p)) ->
  let '(p', P', _) := loaded_view eq ek nq nk ap (p, P, E) in list_ok p' P'.
Proof.
  intros (Hn & Hp & Hm & Hl) Ha. unfold loaded_view, list_ok. cbn [lst seq loading]. split_and!; [| |done|done].
  - rewrite map_app. apply NoDup_app. split; [done|]. split; [|apply NoDup_singleton]. intros n Hin. rewrite list_elem_of_fmap in Hin.
    destruct Hin as (g & -> & Hg). rewrite Forall_forall in Hp. apply Hp in Hg as [Hg _]. cbn. rewrite elem_of_cons, elem_of_nil. lia.
  - apply Forall_app. split.
    + eapply Forall_impl; [exact Hp|]. cbn. intros g [Hg _]. split; lia.
    + apply Forall_singleton. cbn. split; [done|]. intros _. split; [done|]. cbn. destruct ap; [|done].
      destruct (Ha eq_refl) as (? & ? & ?). split_and!; done.
Qed.

Lemma view_ok_load eq ek nq nk ap p P E :
  list_ok p P -> (ap = true -> loaded (lst p) = true /\ trim (default eq nq) = l_q (lst p) /\ default ek nk = l_kind (lst p)) ->
  Forall (fun e => e = (q p, kind p)) E -> (forall v k, timer p = Some (v, k) -> v = q p /\ k = kind p) ->
  default eq nq = q p -> default ek nk = kind p -> view_ok (loaded_view eq ek nq nk ap (p, P, E)).
Proof.
  intros Hl Ha He Ht Hq Hk. split; [by apply (list_ok_load eq ek nq nk ap p P E)|]. split; [done|]. cbn [timer].
  destruct (timer p) as [[v k]|]; [by apply Ht|]. left. eexists. split; [apply elem_of_app; right; left|]. cbn. by rewrite Hq, Hk.
Qed.

Lemma serve_prefix (l : list prow) (m : nat) (it : list prow) :
  it = take m l -> m = length it ->
  it ++ take CAT_PAGE (drop m l) = take (m + length (take CAT_PAGE (drop m l))) l.
Proof.
  intros -> Hm. rewrite <- take_take_drop. f_equal. set (d := drop m l). rewrite length_take.
  destruct (Nat.le_ge_cases CAT_PAGE (length d)); [by rewrite Nat.min_l by lia|]. rewrite Nat.min_r by lia. rewrite !take_ge by lia. done.
Qed.

Lemma served_list (l : listing) (ap : bool) off jq jk :
  (if ap then loaded l = true /\ off = nextOffset l /\ jq = l_q l /\ jk = l_kind l else off = 0) ->
  (loaded l = true -> prefix_list l) ->
  forall R tot more next, serve (rows jq jk) off = ARows R tot more next ->
  prefix_list (Listing (if ap then items l ++ R else R) (default (off + Z.of_nat (length R)) tot) more (default (off + Z.of_nat (length R)) next) true jq jk).
Proof.
  intros Hap Hpre R tot more next [= <- <- <- <-]. set (r := rows jq jk).
  assert (Hn : forall n : Z, default n (if n <? Z.of_nat (length r) then Some n else None) = n) by (intros n; by destruct (n <? _)).
  unfold prefix_list. cbn [l_q l_kind items nextOffset hasMore]. rewrite Hn. cbn [default total from_option id]. fold r.
  destruct ap.
  - destruct Hap as (Hl & -> & -> & ->). destruct (Hpre Hl) as (Hi & Ho & _). fold r in Hi.
    assert (Hz : Z.to_nat (nextOffset l) = length (items l)) by lia. rewrite Hz in Hi. rewrite Hz.
    split_and!; [|rewrite length_app; lia|done|done].
    replace (Z.to_nat (nextOffset l + Z.of_nat (length (take CAT_PAGE (drop (length (items l)) r)))))
      with (length (items l) + length (take CAT_PAGE (drop (length (items l)) r)))%nat by lia.
    by apply serve_prefix.
  - subst off. change (Z.to_nat 0) with O. rewrite drop_0. split_and!; [|lia|done|done]. rewrite Z.add_0_l, Nat2Z.id, length_take.
    destruct (Nat.le_ge_cases CAT_PAGE (length r)); [by rewrite Nat.min_l by lia|]. rewrite Nat.min_r by lia. by rewrite !take_ge by lia.
Qed.

(** The page of the latest request arrives, or its failure. *)
Lemma page_arrives_ok g A B p E a :
  view_ok (p, A ++ g :: B, E) -> g_n g = seq p ->
  honest_answer (JList (g_n g) (g_append g) (g_offset g) (g_q g) (g_kind g)) a ->
  view_ok (page_arrives (g_n g) (g_append g) (g_offset g) (g_q g) (g_kind g) a p, A ++ B, E).
Proof.
  intros [(Hn & Hp & Hm & Hl) [He Hc]] Hg Ha. rewrite map_app in Hn. cbn in Hn. apply NoDup_app in Hn as (HnA & Hd & HnB).
  apply NoDup_cons in HnB as [HgB HnB].
  assert (Hrest : Forall (fun h => (g_n h <= seq p)%nat /\ g_n h <> seq p) (A ++ B)).
  { rewrite Forall_forall in Hp |- *. intros h Hh. rewrite <- Hg. apply elem_of_app in Hh as [Hh|Hh].
    - split; [destruct (Hp h); [apply elem_of_app; by left|lia]|]. intros E'. apply (Hd (g_n g)); [|left].
      rewrite <- E'. apply list_elem_of_fmap_2. done.
    - split; [destruct (Hp h); [apply elem_of_app; right; by right|lia]|]. intros E'. apply HgB. rewrite <- E'. by apply list_elem_of_fmap_2. }
  assert (Hnd : NoDup (map g_n (A ++ B))).
  { rewrite map_app. apply NoDup_app. split_and!; [done| |done]. intros x Hx HB. apply (Hd x Hx). by right. }
  assert (Hlive : live_page p g) by (rewrite Forall_app, Forall_cons in Hp; by apply Hp).
  assert (Hcur : timer p = None -> g_q g = trim (q p) /\ g_kind g = kind p).
  { intros Ht. rewrite Ht in Hc. destruct Hc as [(h & Hh & Hhn & Hhq)|[Hf _]]; [|destruct Hlive; congruence].
    rewrite elem_of_app, elem_of_cons in Hh. rewrite Forall_forall in Hrest.
    destruct Hh as [Hh|[-> |Hh]]; [|done|]; (destruct (Hrest h) as [_ Hne]; [apply elem_of_app; auto|done]). }
  unfold page_arrives. rewrite Hg, Nat.eqb_refl. destruct Ha as [-> |(code & msg & -> & Hmsg)].
  - destruct (serve (rows (g_q g) (g_kind g)) (g_offset g)) as [R tot more next| | |] eqn:Es; [|discriminate Es..].
    split.
    + unfold list_ok. cbn [lst seq]. split_and!; [done| |done|intros _; eapply served_list; [apply Hlive|done|done]].
      eapply Forall_impl; [exact Hrest|]. intros h [? ?]. by split.
    + split; [done|]. cbn [timer q kind]. destruct (timer p) as [[v k]|] eqn:Et; [done|]. right. cbn. split; [done|]. right. by destruct (Hcur eq_refl).
  - split.
    + split_and!; [done| |done|done]. eapply Forall_impl; [exact Hrest|]. intros h [? ?]. by split.
    + split; [done|]. cbn [timer q kind]. destruct (timer p) as [[v k]|] eqn:Et; [done|]. right. cbn. split; [done|]. left.
      unfold catErrorText, orElse. repeat case_match; try done; by apply String.eqb_eq in H.
Qed.

(** The page of an overtaken request changes nothing. *)
Lemma page_discarded g A B p E a :
  view_ok (p, A ++ g :: B, E) -> g_n g <> seq p ->
  view_ok (page_arrives (g_n g) (g_append g) (g_offset g) (g_q g) (g_kind g) a p, A ++ B, E).
Proof.
  intros [(Hn & Hp & Hm & Hl) [He Hc]] Hg. unfold page_arrives. rewrite (proj2 (Nat.eqb_neq _ _) Hg). split; [split_and!|split]; try done.
  - rewrite map_app in Hn |- *. cbn in Hn. apply NoDup_app in Hn as (? & Hd & HB). apply NoDup_cons in HB as [? ?].
    apply NoDup_app. split_and!; [done| |done]. intros x Hx Hx'. apply (Hd x Hx). by right.
  - rewrite Forall_app, Forall_cons in Hp. apply Forall_app. naive_solver.
  - destruct (timer p) as [[v k]|]; [done|]. destruct Hc as [(h & Hh & Hhn & Hhq)|Hr]; [left|by right].
    exists h. split; [|done]. rewrite elem_of_app, elem_of_cons in Hh. rewrite elem_of_app. naive_solver.
Qed.

Lemma view_ok_env A e B p P : view_ok (p, P, A ++ e :: B) -> e = (q p, kind p) /\ view_ok (p, P, A ++ B).
Proof. intros [Hl [He Hc]]. rewrite Forall_app, Forall_cons in He. split; [naive_solver|]. split; [done|]. split; [|done]. apply Forall_app. naive_solver. Qed.

(** Reloading the list for what the controls show. *)
Lemma view_ok_reload v : view_ok v -> view_ok (loaded_view (q v.1.1) (kind v.1.1) None None false v).
Proof.
  destruct v as [[p P] E]. intros [Hl [He Hc]]. apply view_ok_load; try done. intros v k Ht. by rewrite Ht in Hc.
Qed.

Lemma view_drop_job i j t : jobs t !! i = Some j ->
  exists A B A' B', pages t = A ++ (match page_of j with Some g => [g] | None => [] end) ++ B /\
                    envs t = A' ++ (match env_of j with Some e => [e] | None => [] end) ++ B' /\
                    view (drop_job i t) = (lp t, A ++ B, A' ++ B').
Proof.
  intros Hj. exists (omap page_of (take i (jobs t))), (omap page_of (drop (S i) (jobs t))),
                    (omap env_of (take i (jobs t))), (omap env_of (drop (S i) (jobs t))).
  unfold view, pages, envs, drop_job. cbn. rewrite !omap_app. split_and!; [| |done];
    rewrite <- (take_drop_middle (jobs t) i j Hj) at 1; rewrite omap_app; cbn; [by destruct (page_of j)|by destruct (env_of j)].
Qed.

(** Answers that concern neither the list nor a reload. *)
Lemma answered_silent j a t : page_of j = None -> env_of j = None -> view (answered j a t) = view t.
Proof.
  intros Hp He. destruct j; try discriminate; destruct a as [? ? ? ?|[r|]| |c m]; try done; cbn [answered].
  - by rewrite view_openType.
  - by rewrite view_openType; destruct seen as [f|]; [destruct (String.eqb _ _)|].
  - destruct (String.eqb c _); [by rewrite view_start_silent|done].
  - by rewrite view_openType.
  - destruct (is_missing c); [by rewrite view_openType|done].
Qed.

(** Answers of the writes that reload the list when they are done. *)
Lemma answered_env j a t eq ek : env_of j = Some (eq, ek) ->
  view (answered j a t) = view t \/ view (answered j a t) = loaded_view eq ek None None false (view t).
Proof.
  intros He. destruct j; try discriminate; injection He as -> ->; destruct a as [? ? ? ?|[r|]| |c m]; try (by left); cbn [answered].
  - right. by rewrite view_done.
  - destruct (is_missing c); [right; by rewrite view_load, view_openType|by left].
  - right. by rewrite view_done.
  - right. by rewrite view_done.
Qed.

Lemma answer_ok i a t : view_ok (view t) -> honest t (EAnswer i a) -> view_ok (view (step t (EAnswer i a))).
Proof.
  intros Hv Hh. cbn [step]. destruct (jobs t !! i) as [j|] eqn:Hj; [|done]. specialize (Hh j Hj).
  destruct (view_drop_job i j t Hj) as (A & B & A' & B' & HP & HE & Hd). unfold view in Hv. rewrite HP, HE in Hv.
  destruct (page_of j) as [g|] eqn:Hpj.
  - destruct j; try discriminate. injection Hpj as <-. cbn [env_of] in Hv. cbn [answered].
    assert (Hw : view (set_lp (page_arrives n append offset jq jkind a) (drop_job i t)) = (page_arrives n append offset jq jkind a (lp t), A ++ B, A' ++ B')).
    { injection Hd as H2 H3. unfold view. f_equal; [f_equal; exact H2|exact H3]. }
    rewrite Hw. destruct (decide (n = seq (lp t))) as [E|E].
    + by apply (page_arrives_ok (Pg n append offset jq jkind)).
    + by apply (page_discarded (Pg n append offset jq jkind)).
  - destruct (env_of j) as [[eq ek]|] eqn:Hej.
    + apply view_ok_env in Hv as [[= -> ->] Hv]. cbn [app] in Hv.
      destruct (answered_env j a (drop_job i t) _ _ Hej) as [-> | ->]; rewrite Hd; [done|]. by apply (view_ok_reload (lp t, A ++ B, A' ++ B')).
    + rewrite answered_silent, Hd by done. exact Hv.
Qed.

Lemma step_ok t e : view_ok (view t) -> honest t e -> calm t e -> view_ok (view (step t e)).
Proof.
  intros Hv Hh Hc. destruct e; try exact Hv; cbn [step].
  - (* ESearch *) destruct Hv as [(Hn & Hp & Hm & Hl) [He Ht]]. cbn in Hc. unfold view. change (envs (set_lp _ t)) with (envs t). rewrite Hc. done.
  - (* ETimer *) destruct Hv as [Hl [He Ht]]. destruct (timer (lp t)) as [[v k]|] eqn:Et; [|by split; [|split; [|rewrite Et]]].
    destruct Ht as [-> ->]. rewrite view_load. by apply view_ok_load.
  - (* ESearchNow *) destruct Hv as [Hl [He Ht]]. rewrite view_load. by apply view_ok_load.
  - (* EKind *) destruct Hv as [Hl [He Ht]], Hc as [Hc Hn]. rewrite view_load. apply view_ok_load; cbn; try done.
    + unfold envs in Hc |- *. by rewrite Hc.
    + intros v0 k0. rewrite Hn. done.
  - (* EMore *) destruct (hasMore (lst (lp t)) && negb (loading (lp t))) eqn:E; [|exact Hv]. apply andb_true_iff in E as [E _].
    destruct Hv as [Hl [He Ht]], Hc as [Hq Hk]. rewrite view_load. apply view_ok_load; cbn; try done.
    + intros _. split; [by apply Hl|]. done.
    + intros v k Ht'. by rewrite Ht' in Ht.
  - by rewrite view_openType.
  - destruct (sel t) as [r|]; [|exact Hv]. destruct (retiring (dp t) && negb (busy (dp t))); [|exact Hv].
    rewrite view_start. cbn [page_of env_of]. rewrite app_nil_r. destruct Hv as [Hl [He Ht]]. split; [done|]. split; [|done].
    apply Forall_app. split; [done|]. by apply Forall_singleton.
  - destruct (sel t) as [r|]; [|exact Hv]. destruct (_ && _); [|exact Hv]. by rewrite view_start_silent.
  - destruct (busy (dp t)); [exact Hv|]. unfold attachCode. destruct (sel t); [|exact Hv]. destruct (negb _); [exact Hv|]. by rewrite view_start_silent.
  - unfold runLookup. destruct (String.eqb _ _); [exact Hv|]. by rewrite view_start_silent.
  - destruct (lookup t) as [[]|]; try exact Hv. by destruct (sel t).
  - destruct with_code; [|exact Hv]. by destruct (lookup t) as [[]|].
  - destruct (sel t); [|exact Hv]. by destruct (retiring (dp t)).
  - destruct (sel t); [|exact Hv]. by destruct (retiring (dp t)).
  - destruct (s_up (sp t)) as [sh|]; [|exact Hv]. destruct (s_busy (sp t)); [exact Hv|].
    rewrite view_start. cbn [page_of env_of]. rewrite app_nil_r. destruct Hv as [Hl [He Ht]]. split; [done|]. split; [|done].
    apply Forall_app. split; [done|]. by apply Forall_singleton.
  - by apply answer_ok.
Qed.

Lemma reach_view_ok t : reach (fun t e => honest t e /\ calm t e) t -> view_ok (view t).
Proof.
  induction 1 as [|t e _ IH [Hh Hc]]; [|by apply step_ok].
  unfold mounted. rewrite view_load. apply view_ok_load; try done. repeat split; try done; constructor.
Qed.

(** C27: the catalogue list shows what the controls ask for, under three conditions on
    the use of the page: the server answers each list request from the same rows
    throughout, or with an error that has a message; "Show more" is pressed only on the
    list of the query in the box; and neither the box nor the kind chip is changed under
    a write in flight, nor the chip under a search that still waits.  Then, whatever the
    order of the answers, a loaded list is exactly the first rows the server has for the
    list's own query, with no gap and no repetition, it offers more exactly when there
    are more, and once nothing is waiting or loading and no error is shown it is the list
    of the search and kind on screen.  Without the conditions it need not be:
    [stale_answers_mislead_the_catalogue]. *)
Theorem catalogue_list_is_current (t : tab) :
  reach (fun t e => honest t e /\ calm t e) t ->
  let l := lst (lp t) in
  (loaded l = true ->
    items l = take (length (items l)) (rows (l_q l) (l_kind l)) /\
    hasMore l = (Z.of_nat (length (items l)) <? Z.of_nat (length (rows (l_q l) (l_kind l))))) /\
  (timer (lp t) = None -> loading (lp t) = false -> listErr (lp t) = "" ->
    loaded l = true /\ l_q l = trim (q (lp t)) /\ l_kind l = kind (lp t)).
Proof.
  intros Hr l. apply reach_view_ok in Hr as [(Hn & Hp & Hm & Hl) [He Hc]]. fold l in Hl, Hm. split.
  - intros H. destruct (Hl H) as (Hi & Ho & Ht & Hh). split; [|by rewrite Hh, Ht, Ho].
    rewrite Hi at 1. f_equal. lia.
  - intros Ht Hlo Herr. rewrite Ht in Hc. destruct Hc as [(g & Hg & Hgn & _)|[_ [?|?]]]; [|done|done].
    rewrite Forall_forall in Hp. destruct (Hp g Hg) as [_ Hlive]. destruct (Hlive Hgn) as [? _]. congruence.
Qed.

(** ** The detail panel's invariant *)

Definition detail_of (j : job) : option (nat * Z) := match j with JDetail n id => Some (n, id) | _ => None end.

Definition core (p : dpanel) : option Z * option prow * nat := (selected p, detail p, dseq p).

(** What is shown is the selected type, and the request that counts is for it. *)
Definition detail_ok (c : option Z * option prow * nat) (D : list (nat * Z)) : Prop :=
  let '(s, d, n) := c in
  Forall (fun j => (j.1 <= n)%nat /\ (j.1 = n -> s = Some j.2)) D /\ (forall r, d = Some r -> s = Some (t_id r)).

Definition shows_selected (t : tab) : Prop := detail_ok (core (dp t)) (omap detail_of (jobs t)).

Lemma shows_same t t' : core (dp t') = core (dp t) -> omap detail_of (jobs t') = omap detail_of (jobs t) -> shows_selected t -> shows_selected t'.
Proof. unfold shows_selected. by intros -> ->. Qed.

Lemma shows_start j t : detail_of j = None -> shows_selected t -> shows_selected (start j t).
Proof. intros Hj. apply shows_same; [done|]. unfold start. cbn. by rewrite omap_snoc, Hj, app_nil_r. Qed.

Lemma shows_openType id c t : shows_selected t -> shows_selected (openType id c t).
Proof.
  intros [HF Hd]. unfold shows_selected, openType. destruct id as [i|]; cbn.
  - rewrite omap_snoc. cbn [detail_of]. split.
    + apply Forall_app. split; [|by apply Forall_singleton]. eapply Forall_impl; [exact HF|]. cbn. intros x [? _]. split; lia.
    + intros r. unfold opened. destruct (detail (dp t)) as [r'|]; [|done]. destruct (Z.eqb_spec (t_id r') i) as [<-|]; [|done]. by intros [= ->].
  - split; [|done]. eapply Forall_impl; [exact HF|]. cbn. intros x [? _]. split; lia.
Qed.

Lemma shows_load eq ek nq nk ap t : shows_selected t -> shows_selected (load eq ek nq nk ap t).
Proof. intros H. unfold load. by apply shows_start. Qed.

Lemma shows_done eq ek m s c t : shows_selected t -> shows_selected (done eq ek m s c t).
Proof.
  intros H. unfold done. assert (Hl : shows_selected (load eq ek None None false (if c then emit InventoryChanged (set_notice m (set_sp close_sheet t)) else set_notice m (set_sp close_sheet t)))).
  { apply shows_load. by destruct c. }
  destruct s; [by apply shows_openType|done].
Qed.

Lemma shows_drop i t : shows_selected t -> shows_selected (drop_job i t).
Proof.
  intros [HF Hd]. split; [|done]. cbn. rewrite omap_app. rewrite <- (take_drop i (jobs t)), omap_app, Forall_app in HF.
  apply Forall_app. split; [apply HF|]. destruct HF as [_ HF]. destruct (drop i (jobs t)) as [|j l] eqn:E.
  - rewrite <- Nat.add_1_r, <- drop_drop, E. by constructor.
  - rewrite <- Nat.add_1_r, <- drop_drop, E. cbn [drop]. cbn in HF. destruct (detail_of j); [by apply Forall_cons in HF as [_ ?]|done].
Qed.

Create HintDb catalogue.
#[local] Hint Resolve shows_start shows_openType shows_load shows_done shows_drop : catalogue.

Lemma shows_answered j a t : detail_of j = None -> shows_selected t -> shows_selected (answered j a t).
Proof.
  intros Hj H. destruct j; try discriminate; destruct a as [? ? ? ?|[r|]| |c m]; cbn [answered]; try exact H;
    repeat case_match; eauto with catalogue.
Qed.

Lemma shows_step t e : honest t e -> shows_selected t -> shows_selected (step t e).
Proof.
  intros Hh H. destruct e; try exact H; cbn [step]; try (repeat case_match; by eauto with catalogue).
  - unfold attachCode. repeat case_match; eauto with catalogue.
  - unfold runLookup. repeat case_match; eauto with catalogue.
  - destruct (jobs t !! i) as [j|] eqn:Hj; [|done]. specialize (Hh j Hj).
    destruct (detail_of j) as [[n id]|] eqn:Hd; [|eauto using shows_answered, shows_drop].
    destruct j; try discriminate. injection Hd as -> ->. cbn [answered].
    pose proof (shows_drop i t H) as [HF Hs]. assert (Hcur : n = dseq (dp t) -> selected (dp t) = Some id).
    { destruct H as [HF' _]. rewrite Forall_forall in HF'. intros E. apply (HF' (n, id)); [|done].
      apply list_elem_of_omap. exists (JDetail n id). split; [|done]. by eapply list_elem_of_lookup_2. }
    split; cbn; unfold detail_arrives; destruct (Nat.eqb_spec n (dseq (dp t))) as [E|E]; try done; destruct a; try done.
    cbn. intros r0 ->. by rewrite (Hh r0 eq_refl), (Hcur E).
Qed.

Lemma reach_shows t : reach honest t -> shows_selected t.
Proof. induction 1 as [|t e _ IH Hh]; [split; [constructor|done]|by apply shows_step]. Qed.

Lemma sel_selected t r : shows_selected t -> sel t = Some r -> selected (dp t) = Some (t_id r).
Proof. intros [_ H]. unfold sel. destruct (selected (dp t)) eqn:E; [|done]. intros Hd. by apply H. Qed.

(** ** Writes *)

Lemma effects_openType id c t : effects (openType id c t) = effects t.
Proof. by destruct id. Qed.

Lemma effects_done eq ek m s c t : effects (done eq ek m s c t) = effects t ++ (if c then [InventoryChanged] else []).
Proof. unfold done. destruct s; rewrite ?effects_openType; destruct c; cbn; by rewrite ?app_nil_r. Qed.

(** What a write may be, from the page it is made on. *)
Definition write_ok (t : tab) (e : event) (w : effect) : Prop :=
  match w with
  | WRetire id => e = ERetire /\ selected (dp t) = Some id /\ retiring (dp t) = true /\ busy (dp t) = false
  | WAttach id code type => e = EAttach /\ selected (dp t) = Some id /\ busy (dp t) = false /\
                            code = normCode (at_code (attach (dp t))) /\ codeError code type = ""
  | WRemove b => exists bc r, e = ERemove bc /\ bc_id bc = b /\ sel t = Some r /\ selected (dp t) = Some (t_id r) /\
                              b ∈ map bc_id (t_barcodes r) /\ removing (dp t) = Some b /\ busy (dp t) = false
  | WCreate => exists m c, e = ESave m /\ s_up (sp t) = Some (CreateSheet c) /\ s_busy (sp t) = false
  | WUpdate id => exists m r, e = ESave m /\ s_up (sp t) = Some (EditSheet r) /\ t_id r = id /\ s_busy (sp t) = false
  | WItems id => exists m r, e = ESave m /\ s_up (sp t) = Some (ItemsSheet r) /\ t_id r = id /\ s_busy (sp t) = false
  | InventoryChanged => exists i a, e = EAnswer i a
  end.

(** How a sheet comes up: on the type that is open then. *)
Definition opens (t : tab) (e : event) (s : sheet) : Prop :=
  s_up (sp t) = None /\
  match s with
  | CreateSheet None => e = ENew false
  | CreateSheet (Some code) => e = ENew true /\ lookup t = Some (Missing code)
  | EditSheet r => e = EEdit /\ sel t = Some r /\ selected (dp t) = Some (t_id r)
  | ItemsSheet r => e = EItems /\ sel t = Some r /\ selected (dp t) = Some (t_id r)
  end.

Lemma answered_effects i j a t : exists new, effects (answered j a t) = effects t ++ new /\ Forall (write_ok t (EAnswer i a)) new.
Proof.
  assert (Hnil : forall t', effects t' = effects t -> exists new, effects t' = effects t ++ new /\ Forall (write_ok t (EAnswer i a)) new).
  { intros t' ->. exists []. by rewrite app_nil_r. }
  destruct j; destruct a as [? ? ? ?|[r|]| |c m]; try (by apply Hnil); cbn [answered]; try (repeat case_match; by apply Hnil; rewrite ?effects_openType).
  - rewrite effects_done. eexists. split; [done|]. apply Forall_singleton. by eexists _, _.
  - rewrite effects_done. eexists. split; [done|]. destruct (saved_changes s); [|done]. apply Forall_singleton. by eexists _, _.
  - rewrite effects_done. eexists. split; [done|]. destruct (saved_changes s); [|done]. apply Forall_singleton. by eexists _, _.
Qed.

(** An answer opens no sheet. *)
Lemma sp_openType id c t : sp (openType id c t) = sp t.
Proof. by destruct id. Qed.

Lemma up_done eq ek m x c t : s_up (sp (done eq ek m x c t)) = None.
Proof. unfold done. destruct x; rewrite ?sp_openType; by destruct c. Qed.

Lemma answered_sheet j a t s : s_up (sp (answered j a t)) = Some s -> s_up (sp t) = Some s.
Proof.
  destruct j; destruct a as [? ? ? ?|[r|]| |c m]; cbn [answered]; rewrite ?up_done, ?sp_openType; try done;
    try (repeat case_match; by rewrite ?sp_openType).
  cbn. by destruct (Nat.eqb no (s_no (sp t))).
Qed.

Lemma show_sheet_up x p s : s_up (show_sheet x p) = Some s -> s_up p = Some s \/ s_up p = None /\ s = x.
Proof. unfold show_sheet. destruct (s_up p) eqn:E; [rewrite E; by left|]. cbn. intros [= <-]. by right. Qed.

Lemma step_sheet t e s : shows_selected t -> s_up (sp (step t e)) = Some s -> s_up (sp t) = Some s \/ opens t e s.
Proof.
  intros Hs. unfold opens. destruct e; cbn [step]; try (by left); try (repeat case_match; by rewrite ?sp_openType; left).
  - unfold attachCode. repeat case_match; by left.
  - unfold runLookup. repeat case_match; by left.
  - destruct with_code; [destruct (lookup t) as [[]|]; try (by left)|]; intros [H|[Hn ->]]%show_sheet_up; by auto.
  - destruct (sel t) as [r|] eqn:E; [|by left]. destruct (retiring (dp t)); [by left|].
    intros [H|[Hn ->]]%show_sheet_up; [by left|right]. split_and!; try done. by apply sel_selected.
  - destruct (sel t) as [r|] eqn:E; [|by left]. destruct (retiring (dp t)); [by left|].
    intros [H|[Hn ->]]%show_sheet_up; [by left|right]. split_and!; try done. by apply sel_selected.
  - destruct (s_up (sp t)) as [x|] eqn:E; [|by left; rewrite <- E]. destruct (s_busy (sp t)); cbn; rewrite E; by left.
  - destruct (jobs t !! i) as [j|]; [|by left]. intros H%answered_sheet. by left.
Qed.

End Runs.

(** ** Runs *)

Definition demo_type (i : Z) (kd nm : string) : prow := PRow i kd (Some nm) None None None None None VNull "" "" [].

Definition demo_all : list prow := map (fun i => demo_type i "hardware" "Switch") (seqZ 0 60).
Definition demo_pis : list prow := map (fun i => demo_type i (if i <? 110 then "software" else "hardware") "Pi") (seqZ 100 60).

Definition demo_rows (s k : string) : list prow :=
  List.filter (fun r => String.eqb k "" || String.eqb (t_kind r) k) (if String.eqb s "pi" then demo_pis else demo_all).

Ltac answers_hold :=
  match goal with
  | |- forall j, _ !! _ = Some j -> _ =>
      let j := fresh in let H := fresh in intros j H; vm_compute in H; injection H as <-; cbn;
      first [exact I | left; vm_compute; reflexivity | right; do 2 eexists; split; [reflexivity|discriminate] | by intros ? [= <-] | done]
  | |- True => exact I
  end.

Ltac run_holds d :=
  apply reach_run; unfold d, run_ok; split_and!; try (cbn [honest calm]; first [answers_hold | by vm_compute | split; by vm_compute]).

Definition demo_search : list event :=
  [EAnswer 0 (serve (demo_rows "" "") 0); ESearch "p"; ESearch "pi"; ETimer; EKind "hardware";
   EAnswer 1 (serve (demo_rows "pi" "hardware") 0); EAnswer 0 (serve (demo_rows "pi" "") 0)].

Lemma catalogue_list_is_current_witness :
  let t := run demo_search in
  items (lst (lp t)) = take 50 (demo_rows "pi" "hardware") /\ l_q (lst (lp t)) = "pi" /\ l_kind (lst (lp t)) = "hardware".
Proof.
  assert (Hr : reach (fun t e => honest demo_rows t e /\ calm t e) (run demo_search)).
  { run_holds demo_search. }
  destruct (catalogue_list_is_current demo_rows (run demo_search) Hr) as [H1 H2].
  destruct H2 as (H3 & H4 & H5); [by vm_compute..|]. destruct (H1 H3) as [H6 _]. split; [|split; assumption].
  cbv zeta. rewrite H6, H4, H5. by vm_compute.
Defined.

Definition demo_open : list event := [EOpen (Some 7); EAnswer 1 (ARow (Some (demo_type 7 "hardware" "Switch"))); ERetireAsk].


(** The timer of a search keeps the kind of the render it was typed in. *)
Definition demo_chip : list event :=
  [EAnswer 0 (serve (demo_rows "" "") 0); ESearch "pi"; EKind "hardware"; ETimer;
   EAnswer 0 (serve (demo_rows "pi" "hardware") 0); EAnswer 0 (serve (demo_rows "pi" "") 0)].

(** The search for "pi" fails; the old list still offers more. *)
Definition demo_more : list event :=
  [EAnswer 0 (serve (demo_rows "" "") 0); ESearch "pi"; ETimer; EAnswer 0 (AErr "timeout" "Request timed out"); EMore;
   EAnswer 0 (serve (demo_rows "pi" "") 50)].

(** A scan is looked up, the operator opens another type, and then the scan's answer arrives. *)
Definition demo_scan : list event :=
  [EAnswer 0 (serve (demo_rows "" "") 0); EScan "4006381333931"; ELookup; EOpen (Some 7);
   EAnswer 1 (ARow (Some (demo_type 7 "hardware" "Switch"))); EScan "40063"; EAnswer 0 (ARow (Some (demo_type 9 "hardware" "Switch")))].

(** The same while the sheet of type 7 is open: the save comes after the scan's answer. *)
Definition demo_under : list event :=
  [EAnswer 0 (serve (demo_rows "" "") 0); EScan "4006381333931"; ELookup; EOpen (Some 7);
   EAnswer 1 (ARow (Some (demo_type 7 "hardware" "Switch"))); EEdit; EAnswer 0 (ARow (Some (demo_type 9 "hardware" "Switch")));
   ESave "Saved Switch"].

(** Four ways the catalogue tab shows something the operator did not ask for,
    each with a server that answers truthfully.  A kind chosen within 250 ms of typing
    is undone: the chip says hardware, the settled list holds every kind, because the
    search's timer reloads with the kind of the render it was typed in.  After a
    search that failed, "Show more" appends rows 51 onwards of the new search to the
    rows of the old one and labels the mixture with the new search, whose first 50
    matches are missing.  And the answer to a barcode lookup, which is not numbered
    like the others, replaces the type the operator has opened meanwhile and clears
    the code being typed; under an open sheet it changes the page while the sheet saves
    the type it was opened on. *)
Theorem stale_answers_mislead_the_catalogue :
  (reach (honest demo_rows) (run demo_chip) /\
   let p := lp (run demo_chip) in
   kind p = "hardware" /\ timer p = None /\ loading p = false /\ l_kind (lst p) = "" /\ existsb (fun r => String.eqb (t_kind r) "software") (items (lst p)) = true) /\
  (reach (honest demo_rows) (run demo_more) /\
   let p := lp (run demo_more) in
   l_q (lst p) = "pi" /\ listErr p = "" /\ loading p = false /\
   items (lst p) = take 50 (demo_rows "" "") ++ drop 50 (demo_rows "pi" "")) /\
  (reach (honest demo_rows) (run demo_scan) /\
   let t := run demo_scan in selected (dp t) = Some 9 /\ scan t = "") /\
  (reach (honest demo_rows) (run demo_under) /\
   let t := run demo_under in selected (dp t) = Some 9 /\ effects t = [WUpdate 7]).
Proof.
  split_and!; try (by vm_compute); [run_holds demo_chip|run_holds demo_more|run_holds demo_scan|run_holds demo_under].
Qed.
