(* ===== verification/CatalogSheets.v ===== *)
(** * The catalogue's sheets (screens4.jsx)

    The sheet that creates or edits a product type, with its spec rows and its
    recovery from an edit conflict, and the sheet that records items of a type.
    A body is the object a request carries, as its keys and values in order. *)

From Stdlib Require Import ZArith Lia.
From stdpp Require Import strings pretty list.
From S2P Require Import Prelude JsNum JsValue Catalog InvForms ProvStacks ProvSpec ProvEdit CatalogTab.

Local Open Scope string_scope.
Local Open Scope list_scope.
Local Open Scope Z_scope.

Abbreviation body := (list (string * value)).

(** ** Items of a type *)

Definition ITEM_BATCH_MAX : Z := 50.

Record iform := IForm { i_qty : string; i_loc : option Z; i_serial : string; i_tag : string; i_notes : string; i_lic : licence }.

Definition consumable (t : prow) : bool := String.eqb (t_kind t) "consumable".
Definition software (t : prow) : bool := String.eqb (t_kind t) "software".

(** [/^\d+$/] and at least 1; quantities up to 2^53, where [Number] is exact. *)
Definition validN (f : iform) : bool :=
  let s := trim (i_qty f) in negb (String.eqb s "") && sall is_digit s && (1 <=? dec_val 0 (chars s)).

Definition item_n (f : iform) : Z := if validN f then dec_val 0 (chars (trim (i_qty f))) else 0.

(** The serial and tag fields are offered. *)
Definition single (t : prow) (f : iform) : bool := consumable t || (item_n f <=? 1).

Definition opt_text (s : string) : value := opt_str (some_text (trim s)).

Definition licence_fields (r : licence_row) : body :=
  [("licence_seats", match licence_seats r with Some n => vz n | None => VNull end); ("licence_expires_on", opt_str (licence_expires_on r));
   ("licence_reference", opt_str (licence_reference r)); ("installed_on_unit_id", opt_id (installed_on_unit_id r))].

(** The error, or the body of [createUnit]. *)
Definition items_submit (t : prow) (f : iform) : string + body :=
  let n := item_n f in
  if negb (validN f) then inl "Quantity must be a whole number of 1 or more."
  else if negb (consumable t) && (ITEM_BATCH_MAX <? n) then inl ("Add up to " +:+ pretty ITEM_BATCH_MAX +:+ " items at a time.")
  else match licenceBody (i_lic f) (software t) with
       | inl e => inl e
       | inr lb =>
           inr ([("product_type_id", vz (t_id t)); ("location_id", opt_id (i_loc f)); ("notes", opt_text (i_notes f))] ++
                (if software t then licence_fields lb else []) ++
                (if consumable t then [("count", vz 1); ("quantity", vz n)] else [("count", vz n)]) ++
                (if single t f then [("serial", opt_text (i_serial f)); ("asset_tag", opt_text (i_tag f))] else []))
       end.

Definition items_message (t : prow) (f : iform) (made : Z) : string :=
  let title := typeTitle t in
  "Added " +:+ (if consumable t then pretty (item_n f) +:+ " × " +:+ title
                else if made =? 1 then "1 item of " +:+ title else pretty made +:+ " items of " +:+ title).

(** ** The type sheet's form *)

Definition stable (v : value) : string := canon v.

(** The spec rows with the number each is edited by. *)
Record tform := TForm { f_kind : string; f_name : string; f_brand : string; f_model : string; f_category : string; f_image : string;
                        f_notes : string; f_rows : list (nat * srow); f_code : string; f_codeType : string }.

Definition numbered_rows (specs : value) : list (nat * srow) := imap (fun i r => (S i, r)) (specRows specs).

(** What [adopt] and the initial state read from a row. *)
Definition form_of (r : prow) (code codeType : string) : tform :=
  TForm (t_kind r) (default "" (t_name r)) (default "" (t_brand r)) (default "" (t_model r)) (default "" (t_category r))
        (default "" (t_image r)) (default "" (t_notes r)) (numbered_rows (t_specs r)) code codeType.

Definition blank_form (prefill : option string) : tform :=
  let c := default "" prefill in
  TForm "hardware" "" "" "" "" "" "" [] c (if String.eqb c "" then "other" else guessCodeType (normCode c)).

(** [sending]: a save is in flight, with the code it was made with. *)
Record tsheet := TSheet { base : option prow; form : tform; rseq : nat; sending : option string; s_err : string; reloading : bool }.

Definition open_sheet (type : option prow) (prefill : option string) : tsheet :=
  TSheet type (match type with Some r => form_of r (default "" prefill) (f_codeType (blank_form prefill)) | None => blank_form prefill end)
         1000 None "" false.

Definition set_rows (rows : list (nat * srow)) (f : tform) : tform :=
  TForm (f_kind f) (f_name f) (f_brand f) (f_model f) (f_category f) (f_image f) (f_notes f) rows (f_code f) (f_codeType f).

Definition setRow (rid : nat) (patch : srow -> srow) (rows : list (nat * srow)) : list (nat * srow) :=
  map (fun r => if Nat.eqb r.1 rid then (r.1, patch r.2) else r) rows.

Definition dropRow (rid : nat) (rows : list (nat * srow)) : list (nat * srow) := List.filter (fun r => negb (Nat.eqb r.1 rid)) rows.

Definition addRow (s : tsheet) : tsheet :=
  TSheet (base s) (set_rows (f_rows (form s) ++ [(S (rseq s), SRow "" "" None)]) (form s)) (S (rseq s)) (sending s) (s_err s) (reloading s).

(** ** Saving a type *)

(** [/^https?:\/\/\S+$/i]. *)
Definition http_url (s : string) : bool :=
  let l := toLowerCase s in
  let rest p := starts_with p l && negb (String.eqb (sdrop (String.length p) l) "") && sall (fun c => negb (is_ws c)) (sdrop (String.length p) l) in
  rest "http://" || rest "https://".

Definition finalName (f : tform) : string := orElse (trim (f_name f)) (trim (catalogName (f_brand f) (f_model f))).

Definition long (s : string) : bool := (128 <? String.length (trim s))%nat.

Definition form_error (f : tform) : string :=
  let url := trim (f_image f) in
  if String.eqb (finalName f) "" then "Give it a name, or a brand and model to name it from."
  else if (160 <? String.length (finalName f))%nat then "Names must be 160 characters or fewer."
  else if long (f_brand f) || long (f_model f) || long (f_category f) then "Brand, model and category must each be 128 characters or fewer."
  else if negb (String.eqb url "") && (negb (http_url url) || (1024 <? String.length url)%nat) then "The image link must be an http:// or https:// address."
  else "".

Definition fields (f : tform) : list (string * option string) :=
  [("kind", Some (f_kind f)); ("name", Some (finalName f)); ("brand", some_text (trim (f_brand f))); ("model", some_text (trim (f_model f)));
   ("category", some_text (trim (f_category f))); ("image_url", some_text (trim (f_image f))); ("notes", some_text (trim (f_notes f)))].

(** [base[k]], and [was]: its trimmed text, [null] for none. *)
Definition base_text (r : prow) (k : string) : option string :=
  if String.eqb k "kind" then Some (t_kind r) else if String.eqb k "name" then t_name r else if String.eqb k "brand" then t_brand r
  else if String.eqb k "model" then t_model r else if String.eqb k "category" then t_category r
  else if String.eqb k "image_url" then t_image r else if String.eqb k "notes" then t_notes r else None.

Definition was (r : prow) (k : string) : option string := o ← base_text r k; some_text (trim o).

Definition changed_fields (r : prow) (f : tform) : body :=
  map (fun kv => (kv.1, opt_str kv.2)) (List.filter (fun kv => negb (bool_decide (kv.2 = was r kv.1))) (fields f)).

Definition baseSpecs (r : prow) : value := match specObject (t_specs r) with [] => VNull | o => VObj o end.

Inductive sresult := Refused (e : string) | Unchanged | Update (id : Z) (b : body) | Create (b : body).

Section Save.
Context (parse : string -> option value).

Definition update_body (r : prow) (f : tform) (specs : value) : body :=
  changed_fields r f ++ (if String.eqb (stable specs) (stable (baseSpecs r)) then [] else [("specs", specs)]).

Definition create_body (f : tform) (specs : value) : string + body :=
  let b := map (fun kv => (kv.1, opt_str kv.2)) (fields f) ++ (if truthy specs then [("specs", specs)] else []) in
  let c := normCode (f_code f) in
  if String.eqb c "" then inr b
  else let bad := codeError c (f_codeType f) in
       if negb (String.eqb bad "") then inl bad
       else inr (b ++ [("barcode", VObj [("code", VStr c); ("code_type", VStr (f_codeType f))])]).

Definition submit (s : tsheet) : sresult :=
  let f := form s in
  if negb (String.eqb (form_error f) "") then Refused (form_error f)
  else match specsFromRows parse (map snd (f_rows f)) with
       | inl e => Refused e
       | inr specs =>
           match base s with
           | Some r =>
               let b := update_body r f specs in
               match b with [] => Unchanged | _ => Update (t_id r) (b ++ [("updated_at", VStr (t_updated r))]) end
           | None => match create_body f specs with inl e => Refused e | inr b => Create b end
           end
       end.

(** ** The sheet as it is used *)

Inductive sevent :=
| SForm (g : tform -> tform)          (* one field is edited *)
| SRowSet (rid : nat) (patch : srow -> srow) | SRowAdd | SRowDrop (rid : nat)
| SSubmit | SSaved | SFailed (code msg : string) | SReloaded (r : option prow).

Definition edit (f : tform) (s : tsheet) : tsheet := TSheet (base s) f (rseq s) (sending s) (s_err s) (reloading s).

Definition failure (sent code msg : string) : string :=
  if String.eqb code "duplicate_barcode"
  then "The code " +:+ normCode sent +:+ " is already attached to another product type, so nothing was saved. Remove the code here, or look it up to find that type."
  else catErrorText code msg "Save failed.".

(** The new state and the request, if one is sent. *)
Definition sheet_step (s : tsheet) (e : sevent) : tsheet * option sresult :=
  match e with
  | SForm g => (edit (set_rows (f_rows (form s)) (g (form s))) s, None)
  | SRowSet rid patch => (edit (set_rows (setRow rid patch (f_rows (form s))) (form s)) s, None)
  | SRowAdd => (addRow s, None)
  | SRowDrop rid => (edit (set_rows (dropRow rid (f_rows (form s))) (form s)) s, None)
  | SSubmit =>
      match sending s with
      | Some _ => (s, None)
      | None =>
           match submit s with
           | Refused e => (TSheet (base s) (form s) (rseq s) None e (reloading s), None)
           | Unchanged => (s, Some Unchanged)
           | r => (TSheet (base s) (form s) (rseq s) (Some (f_code (form s))) "" (reloading s), Some r)
           end
      end
  | SSaved => (s, None)
  | SFailed code msg =>
      (TSheet (base s) (form s) (rseq s) None (failure (default "" (sending s)) code msg)
         (reloading s || match base s with Some _ => String.eqb code "conflict" | None => false end), None)
  | SReloaded r =>
      match r with
      | Some row => if reloading s then (TSheet (Some row) (form_of row (f_code (form s)) (f_codeType (form s))) (rseq s) (sending s) (s_err s) false, None)
                    else (s, None)
      | None => (TSheet (base s) (form s) (rseq s) (sending s) (s_err s) false, None)
      end
  end.

Definition sheet_run (s : tsheet) (es : list sevent) : tsheet := fold_left (fun s e => (sheet_step s e).1) es s.

(** ** What a save sends *)

Lemma fields_keys f : map fst (fields f) = ["kind"; "name"; "brand"; "model"; "category"; "image_url"; "notes"].
Proof. done. Qed.

Lemma fields_NoDup f : NoDup (map fst (fields f)).
Proof. rewrite fields_keys. by apply (bool_decide_unpack _), I. Qed.

Lemma assoc_fmap {A B} (h : A -> B) k l : assoc k (map (fun kv => (kv.1, h kv.2)) l) = h <$> assoc k l.
Proof. induction l as [|[k' a] l IH]; [done|]. cbn. by destruct (String.eqb k k'). Qed.

Lemma assoc_app {A} k (l m : list (string * A)) : assoc k (l ++ m) = match assoc k l with Some a => Some a | None => assoc k m end.
Proof. induction l as [|[k' a] l IH]; [done|]. cbn. by destruct (String.eqb k k'). Qed.

Lemma assoc_filter_in {A} (p : string * A -> bool) k a l : NoDup (map fst l) -> (k, a) ∈ l ->
  assoc k (List.filter p l) = if p (k, a) then Some a else None.
Proof.
  intros Hn Hin. destruct (p (k, a)) eqn:E.
  - apply elem_assoc; [by apply filter_keys_NoDup|]. by apply list_elem_of_In, filter_In; split; [apply list_elem_of_In|].
  - apply assoc_absent. intros H. apply list_elem_of_In, in_map_iff in H as ([k' b] & Ek & Hb). cbn in Ek. subst k'.
    apply filter_In in Hb as [Hb Hp]. apply list_elem_of_In in Hb. apply (elem_assoc _ _ _ Hn) in Hb, Hin. congruence.
Qed.

Lemma changed_lookup r f k v : (k, v) ∈ fields f -> assoc k (changed_fields r f) = if bool_decide (v = was r k) then None else Some (opt_str v).
Proof.
  intros Hin. unfold changed_fields. rewrite assoc_fmap, (assoc_filter_in _ k v) by (done || apply fields_NoDup). cbn.
  by destruct (bool_decide (v = was r k)).
Qed.

Lemma changed_other r f k : k ∉ map fst (fields f) -> assoc k (changed_fields r f) = None.
Proof.
  intros H. unfold changed_fields. rewrite assoc_fmap, assoc_absent; [done|]. intros Hin. apply H.
  apply list_elem_of_In, in_map_iff in Hin as (kv & <- & Hkv). apply filter_In in Hkv as [Hkv _]. by apply list_elem_of_In, in_map.
Qed.

(** A row the editor can save as it is. *)
Definition storable (r : prow) : Prop :=
  trim (t_kind r) = t_kind r /\ t_kind r <> "" /\ trim (default "" (t_name r)) <> "" /\ form_error (form_of r "" "other") = "" /\
  Forall (fun kv => spec_key kv.1) (specObject (t_specs r)) /\ NoDup (map fst (specObject (t_specs r))) /\
  hasSecretKey (VObj (specObject (t_specs r))) = false.

Lemma numbered_rows_rows v : map snd (numbered_rows v) = specRows v.
Proof. unfold numbered_rows. generalize (specRows v). intros l. apply list_eq. intros i. rewrite list_lookup_fmap, list_lookup_imap. by destruct (l !! i). Qed.

Lemma specs_untouched r : storable r -> specsFromRows parse (specRows (t_specs r)) = inr (baseSpecs r).
Proof.
  intros (_ & _ & _ & _ & Hk & Hn & Hs). unfold specsFromRows, specRows. rewrite take_rows_untouched by done. cbn [app]. rewrite Hs. unfold baseSpecs.
  by destruct (specObject (t_specs r)).
Qed.

Lemma was_default o : some_text (trim (default "" o)) = (x ← o; some_text (trim x)).
Proof. by destruct o. Qed.

Lemma form_of_unchanged r c ct : storable r -> changed_fields r (form_of r c ct) = [].
Proof.
  intros (Hk & Hk' & Hname & _). unfold changed_fields, fields, form_of, was, finalName. cbn [f_kind f_name f_brand f_model f_category f_image f_notes fst snd].
  assert (Ht : forall s, s <> "" -> some_text s = Some s).
  { intros s Hs. unfold some_text. by rewrite (proj2 (String.eqb_neq _ _) Hs). }
  assert (E1 : Some (t_kind r) = was r "kind") by (unfold was; cbn; by rewrite Hk, Ht).
  assert (E2 : Some (orElse (trim (default "" (t_name r))) (trim (catalogName (default "" (t_brand r)) (default "" (t_model r))))) = was r "name").
  { unfold was, orElse. cbn. rewrite (proj2 (String.eqb_neq _ _) Hname). rewrite <- (Ht _ Hname). by rewrite was_default. }
  unfold was in E1, E2. cbn [List.filter fst snd]. rewrite E1, E2. cbn. rewrite !bool_decide_eq_true_2; [done|by rewrite was_default..|done|done].
Qed.

(** The type sheet sends exactly what changed.  A save of an edited type goes to
    the row the sheet was filled from, carries that row's time stamp so that a stale
    edit is refused, and holds each text field exactly when its trimmed text differs
    from the stored one, with that text or [null]; specs are sent only when they
    differ from the stored ones up to the order of names, and never with a secret-like
    name; and a row opened and saved untouched, at first or after a conflict brought
    in the latest version, sends nothing. *)
Theorem type_sheet_sends_what_changed (s : tsheet) (r : prow) :
  base s = Some r ->
  (forall id b, submit s = Update id b ->
    id = t_id r /\ assoc "updated_at" b = Some (VStr (t_updated r)) /\
    (forall k v, (k, v) ∈ fields (form s) -> assoc k b = if bool_decide (v = was r k) then None else Some (opt_str v)) /\
    (forall v, assoc "specs" b = Some v -> hasSecretKey v = false /\ stable v <> stable (baseSpecs r))) /\
  (forall row prefill, storable row ->
    submit (open_sheet (Some row) prefill) = Unchanged /\
    (reloading s = true -> submit (sheet_step s (SReloaded (Some row))).1 = Unchanged)).
Proof.
  intros Hb. split.
  - intros id b. unfold submit. destruct (negb _); [done|]. destruct (specsFromRows parse (map snd (f_rows (form s)))) as [|specs] eqn:Es; [done|].
    rewrite Hb. destruct (update_body r (form s) specs) as [|x l] eqn:Eu; [done|]. intros [= <- <-]. rewrite app_comm_cons, <- Eu. clear Eu x l.
    assert (Hs : assoc "updated_at" (if String.eqb (stable specs) (stable (baseSpecs r)) then [] else [("specs", specs)]) = None) by by case_match.
    unfold update_body. split_and!; [done| | |].
    + rewrite !assoc_app, changed_other, Hs; [done|]. rewrite fields_keys. by apply (bool_decide_unpack _), I.
    + intros k v Hin. rewrite !assoc_app, (changed_lookup r (form s) k v Hin). destruct (bool_decide (v = was r k)); [|done].
      assert (Hk : k ∈ map fst (fields (form s))) by (apply list_elem_of_In, in_map_iff; exists (k, v); split; [done|by apply list_elem_of_In]).
      rewrite fields_keys, !elem_of_cons, elem_of_nil in Hk.
      destruct (String.eqb (stable specs) _); cbn; naive_solver.
    + intros v. rewrite !assoc_app, changed_other by (rewrite fields_keys; by apply (bool_decide_unpack _), I).
      destruct (String.eqb_spec (stable specs) (stable (baseSpecs r))); [done|]. intros [= <-]. split; [|done].
      revert Es. unfold specsFromRows. destruct (take_rows parse 0 _ []) as [|out]; [done|]. destruct (hasSecretKey (VObj out)) eqn:E; [done|].
      intros [= <-]. by destruct out.
  - intros row prefill Hrow. assert (Hu : forall rs sd er rl c ct, submit (TSheet (Some row) (form_of row c ct) rs sd er rl) = Unchanged).
    { intros rs sd er rl c ct. unfold submit. cbn [form base]. change (form_error (form_of row c ct)) with (form_error (form_of row "" "other")).
      pose proof Hrow as (_ & _ & _ & He & _). rewrite He. cbn [f_rows form_of]. rewrite numbered_rows_rows, specs_untouched by done.
      unfold update_body. rewrite (form_of_unchanged row c ct Hrow). rewrite !String.eqb_refl.
      done. }
    split; [apply Hu|]. intros Hr. cbn. rewrite Hr. apply Hu.
Qed.

(** ** Row numbers *)

Definition rows_ok (s : tsheet) : Prop :=
  NoDup (map fst (f_rows (form s))) /\ Forall (fun r => (r.1 <= rseq s)%nat) (f_rows (form s)) /\ (1000 <= rseq s)%nat.

Lemma numbered_rows_ok v n : (length (specRows v) <= 1000)%nat -> (1000 <= n)%nat ->
  NoDup (map fst (numbered_rows v)) /\ Forall (fun r => (r.1 <= n)%nat) (numbered_rows v).
Proof.
  intros Hl Hn. unfold numbered_rows. assert (E : map fst (imap (fun i r => (S i, r)) (specRows v)) = List.seq 1 (length (specRows v))).
  { apply list_eq. intros i. rewrite list_lookup_fmap, list_lookup_imap. destruct (specRows v !! i) as [x|] eqn:Ex; cbn.
    - apply lookup_lt_Some in Ex. by rewrite lookup_seq_lt.
    - apply lookup_ge_None in Ex. by rewrite lookup_seq_ge. }
  split; [rewrite E; apply NoDup_ListNoDup, seq_NoDup|]. apply Forall_forall. intros [i r] Hin.
  assert (Hi : i ∈ map fst (imap (fun i r => (S i, r)) (specRows v))) by (apply list_elem_of_In, in_map_iff; exists (i, r); split; [done|by apply list_elem_of_In]).
  rewrite E, elem_of_seq in Hi. cbn. lia.
Qed.

Lemma setRow_keys rid g rows : map fst (setRow rid g rows) = map fst rows.
Proof. unfold setRow. rewrite map_map. apply map_ext. intros [i r]. cbn. by destruct (Nat.eqb i rid). Qed.

Definition few_specs (e : sevent) : Prop := match e with SReloaded (Some row) => (length (specRows (t_specs row)) <= 1000)%nat | _ => True end.

Lemma rows_ok_step s e : few_specs e -> rows_ok s -> rows_ok (sheet_step s e).1.
Proof.
  intros Hf (Hn & Hle & Hs). destruct e as [g|rid g| |rid| | |c m|[row|]]; cbn [sheet_step fst]; try done.
  - split_and!; [|rewrite Forall_forall; intros x; cbn|done]; cbn.
    + by rewrite setRow_keys.
    + unfold setRow. rewrite list_elem_of_In, in_map_iff. intros ([i r] & <- & Hin). rewrite Forall_forall in Hle. apply list_elem_of_In, Hle in Hin. cbn in *.
      by destruct (Nat.eqb i rid).
  - unfold addRow. split_and!; cbn; [| |lia].
    + rewrite map_app. apply NoDup_app. split_and!; [done| |apply NoDup_singleton]. intros i Hi. apply list_elem_of_In, in_map_iff in Hi as (r & <- & Hr).
      rewrite Forall_forall in Hle. apply list_elem_of_In, Hle in Hr. cbn. rewrite elem_of_cons, elem_of_nil. lia.
    + apply Forall_app. split; [|apply Forall_singleton; cbn; lia]. eapply Forall_impl; [exact Hle|]. cbn. lia.
  - split_and!; cbn; [| |done].
    + unfold dropRow. clear -Hn. induction (f_rows (form s)) as [|x l IH]; [done|]. cbn [map List.filter] in *. apply NoDup_cons in Hn as [Hx Hn].
      destruct (negb _); [|by apply IH]. cbn [map]. apply NoDup_cons. split; [|by apply IH]. intros Hin. apply Hx.
      apply list_elem_of_In, in_map_iff in Hin as (y & <- & Hy). apply filter_In in Hy as [Hy _]. by apply list_elem_of_In, in_map.
    + unfold dropRow. rewrite Forall_forall in Hle |- *. intros x Hx. apply list_elem_of_In, filter_In in Hx as [Hx _]. apply Hle. by apply list_elem_of_In.
  - destruct (sending s); [done|]. by destruct (submit s).
  - destruct (reloading s); [|done]. destruct (numbered_rows_ok (t_specs row) (rseq s) Hf Hs) as [? ?]. split_and!; done.
Qed.

(** Each row of the spec editor keeps a number of its own, through rows added and
    dropped and a reload, as long as no type has more than a thousand specs; so an
    edit reaches one row, and dropping a row drops that row only. *)
Lemma spec_rows_stay_apart (type : option prow) (prefill : option string) (es : list sevent) :
  (forall r, type = Some r -> (length (specRows (t_specs r)) <= 1000)%nat) -> Forall few_specs es ->
  NoDup (map fst (f_rows (form (sheet_run (open_sheet type prefill) es)))).
Proof.
  intros Ht Hes. assert (Hok : rows_ok (open_sheet type prefill)).
  { destruct type as [r|]; [|split_and!; [constructor|constructor|done]]. destruct (numbered_rows_ok (t_specs r) 1000 (Ht r eq_refl) ltac:(done)). by split_and!. }
  revert Hok. generalize (open_sheet type prefill). unfold sheet_run. induction es as [|e es IH]; intros s Hok; [by destruct Hok|].
  apply Forall_cons in Hes as [He Hes]. cbn. apply IH; [done|]. by apply rows_ok_step.
Qed.
End Save.

Definition demo_parse (s : string) : option value := None.

Definition demo_pi : prow :=
  PRow 5 "hardware" (Some "Raspberry Pi 400") (Some "Raspberry Pi") (Some "400") None None (Some "desk") (VObj [("ram", VStr "4 GB")]) "2026-01-02" "" [].

Definition demo_sheet : tsheet := open_sheet (Some demo_pi) None.

Definition demo_edited : tsheet :=
  sheet_run demo_parse demo_sheet
    [SForm (fun f => TForm (f_kind f) (f_name f) (f_brand f) (f_model f) "  " (f_image f) "" (f_rows f) (f_code f) (f_codeType f)); SRowAdd; SRowSet 1001 (fun r => SRow "ports" "3" (r_orig r))].

Definition demo_pi_body : body :=
  [("notes", VNull); ("specs", VObj [("ram", VStr "4 GB"); ("ports", VStr "3")]); ("updated_at", VStr "2026-01-02")].

Lemma type_sheet_sends_what_changed_witness :
  submit demo_parse demo_edited = Update 5 demo_pi_body /\ assoc "category" demo_pi_body = None /\ submit demo_parse demo_sheet = Unchanged.
Proof.
  destruct (type_sheet_sends_what_changed demo_parse demo_edited demo_pi eq_refl) as [H1 H2].
  assert (E : submit demo_parse demo_edited = Update 5 demo_pi_body) by (by vm_compute). split; [exact E|].
  destruct (H1 _ _ E) as (_ & _ & H3 & _). split; [rewrite (H3 "category" None); [by vm_compute|by apply (bool_decide_unpack _), I]|].
  apply (H2 demo_pi None). split_and!; try (by vm_compute).
  - apply Forall_singleton. split_and!; by vm_compute.
  - apply NoDup_singleton.
Defined.

(** ** What the items sheet sends *)

(** The items sheet records what was counted.  A body that is sent asks for one item
    or for at most fifty of anything but a consumable; a consumable is one item that
    carries the whole quantity; the serial and asset tag are sent exactly when one
    item is made, so that no batch shares them; and licence fields only for software. *)
Theorem item_batch_is_consistent (t : prow) (f : iform) (b : body) :
  items_submit t f = inr b ->
  assoc "product_type_id" b = Some (vz (t_id t)) /\ 1 <= item_n f /\
  (exists c, assoc "count" b = Some (vz c) /\ 1 <= c <= ITEM_BATCH_MAX /\
     (assoc "serial" b <> None <-> c = 1) /\ (assoc "asset_tag" b <> None <-> c = 1) /\
     (consumable t = true -> c = 1 /\ assoc "quantity" b = Some (vz (item_n f))) /\
     (consumable t = false -> c = item_n f /\ assoc "quantity" b = None)) /\
  (assoc "licence_reference" b <> None <-> software t = true).
Proof.
  unfold items_submit. destruct (validN f) eqn:Ev; [|done]. cbn [negb].
  assert (Hn : 1 <= item_n f).
  { unfold item_n. rewrite Ev. unfold validN in Ev. rewrite !andb_true_iff, Z.leb_le in Ev. lia. }
  destruct (negb (consumable t) && (ITEM_BATCH_MAX <? item_n f)) eqn:Em; [done|]. destruct (licenceBody _ _) as [|lb]; [done|]. intros [= <-].
  split; [done|]. split; [done|]. unfold single, ITEM_BATCH_MAX in *.
  assert (Hs : (exists c, c = if consumable t then 1 else item_n f)) by by eexists. destruct Hs as [c Hc].
  split; [exists c|]; destruct (consumable t), (software t); cbn [negb andb orb] in *; subst c;
    destruct (Z.leb_spec (item_n f) 1); cbn; split_and!; try done; try naive_solver lia.
Qed.

Definition demo_switch : prow := demo_type 7 "hardware" "Switch".
Definition demo_items : iform := IForm " 12 " (Some 3) "SN1" "" "" (Licence "" "" "" None).

Lemma item_batch_is_consistent_witness :
  exists b, items_submit demo_switch demo_items = inr b /\ assoc "serial" b = None.
Proof.
  eexists. split; [by vm_compute|]. match goal with |- assoc "serial" ?b = None => pose proof (item_batch_is_consistent demo_switch demo_items b eq_refl) as H end.
  by vm_compute.
Defined.
