(* ===== verification/AgentDesk.v ===== *)
(** * Agents and their configuration (screens3.jsx)

    The directory of agents, the dialog that edits the configuration of one agent,
    retires or decommissions it, and the page of the global configuration.  A draft
    is an object with its properties in order; requests are answered later, in any
    order, and what happens meanwhile is part of the run. *)

From Stdlib Require Import ZArith Lia.
From stdpp Require Import strings pretty list.
From S2P Require Import Prelude JsNum JsValue Mappers ProvStacks ProvSpec ProvEdit AppShell.

Local Open Scope string_scope.
Local Open Scope list_scope.
Local Open Scope Z_scope.

Abbreviation obj := (list (string * value)).

(** ** The directory *)

Record agent := Agent { a_id : Z; a_name : string; a_ip : string; a_role : string; a_state : string; a_converged : bool;
                        a_procs : list string }.

Record dfilters := DFilters { d_type : string; d_q : string; d_drift : bool; d_retired : bool }.

Definition is_retired (n : agent) : bool := String.eqb (a_state n) "retired".

Definition dir_base (f : dfilters) (nodes : list agent) : list agent := List.filter (fun n => d_retired f || negb (is_retired n)) nodes.

Definition dir_pool (f : dfilters) (nodes : list agent) : list agent := List.filter (fun n => String.eqb (a_role n) (d_type f)) (dir_base f nodes).

Definition dir_list (f : dfilters) (nodes : list agent) : list agent :=
  List.filter (fun n => (String.eqb (d_q f) "" || contains (toLowerCase (d_q f)) (a_name n) || contains (d_q f) (a_ip n)) &&
                        (negb (d_drift f) || negb (a_converged n))) (dir_pool f nodes).

Definition drift_count (f : dfilters) (nodes : list agent) : nat := length (List.filter (fun n => negb (a_converged n)) (dir_pool f nodes)).

Definition retiredCount (nodes : list agent) : nat := length (List.filter is_retired nodes).

(** ** The dialog of one agent *)

(** [Object.fromEntries(names.map((x) => [x, true]))]. *)
Definition all_on (names : list string) : value := VObj (fold_left (fun acc x => assoc_set x (VBool true) acc) names []).

(** [targets]: the probe targets this monitor has a vantage on. *)
Definition initDraft (n : agent) (targets : list string) : obj :=
  if String.eqb (a_role n) "client" then [("sampleSec", vz 15); ("logPat", VStr "(error|fail)"); ("watched", all_on (a_procs n))]
  else if String.eqb (a_role n) "monitor" then [("roundSec", vz 30); ("perRound", vz 5); ("repl", vz 2); ("targets", all_on targets)]
  else [("renewSec", vz 5); ("ttlSec", vz 15); ("pool", vz 8)].

Definition WIPE_SCOPES : list string := ["config"; "certs"; "spool"; "logs"; "unit"].

Inductive danger_kind := Retire | Decom.

#[global] Instance danger_kind_eq_dec : EqDecision danger_kind.
Proof. solve_decision. Defined.

Inductive request := RPush (d : obj) | RDecom (scope : list string) | RRetire.

(** [shown]: the dialog is mounted; [crashed]: an update of the draft has thrown. *)
Record modal := Modal { draft : obj; m_loaded : bool; confirmKind : option danger_kind; wipe : list string; dlg : danger;
                        shown : bool; crashed : bool; sent : list request }.

Definition open_modal (n : agent) (targets : list string) : modal :=
  Modal (initDraft n targets) false None WIPE_SCOPES (Danger "" false 0) true false [].

(** The stored configuration in an answer: an object, or nothing. *)
Definition config_blob (r : value) : option obj :=
  if truthy r then
    match v_or (v_or (fld r "configBlob") (fld r "config")) (fld r "blob") with
    | VObj f => Some f
    | VArr l => Some (own_props (VArr l))
    | _ => None
    end
  else None.

Definition with_draft (f : obj -> option obj) (m : modal) : modal :=
  match f (draft m) with
  | Some d => Modal d (m_loaded m) (confirmKind m) (wipe m) (dlg m) (shown m) (crashed m) (sent m)
  | None => Modal (draft m) (m_loaded m) (confirmKind m) (wipe m) (dlg m) (shown m) true (sent m)
  end.

Definition set_loaded (m : modal) : modal := Modal (draft m) true (confirmKind m) (wipe m) (dlg m) (shown m) (crashed m) (sent m).

(** [{ ...d, [group]: { ...d[group], [name]: !d[group][name] } }], which throws when
    there is no such group. *)
Definition toggle (group name : string) (d : obj) : option obj :=
  let g := fld (VObj d) group in
  if nullish g then None
  else Some (assoc_set group (VObj (assoc_set name (VBool (negb (truthy (fld g name)))) (own_props g))) d).

Inductive mevent :=
| MConfig (r : value) | MConfigFail
| MSlide (k : string) (v : Z) | MToggle (group name : string) | MPattern (s : string)
| MPush | MPushed
| MAsk (k : danger_kind) | MDismiss | MType (s : string) | MWipe (id : string) (on : bool) | MConfirm | MConfirmed | MRefused
| MClose.

Definition closed (m : modal) : modal := Modal (draft m) (m_loaded m) None (wipe m) (dlg m) false (crashed m) (sent m).

Definition emit (r : request) (m : modal) : modal :=
  Modal (draft m) (m_loaded m) (confirmKind m) (wipe m) (dlg m) (shown m) (crashed m) (sent m ++ [r]).

Definition set_dlg (k : option danger_kind) (d : danger) (m : modal) : modal :=
  Modal (draft m) (m_loaded m) k (wipe m) d (shown m) (crashed m) (sent m).

(** The name that must be typed: decommissioning only. *)
Definition confirm_name (n : agent) (k : danger_kind) : string := match k with Decom => a_name n | Retire => "" end.

Definition action (k : danger_kind) (m : modal) : request :=
  match k with Decom => RDecom (List.filter (fun id => bool_decide (id ∈ wipe m)) WIPE_SCOPES) | Retire => RRetire end.

Definition set_wipe (id : string) (on : bool) (l : list string) : list string :=
  if on then id :: l else List.filter (fun x => negb (String.eqb x id)) l.

Definition modal_step (n : agent) (m : modal) (e : mevent) : modal :=
  if negb (shown m) then m
  else match e with
  | MConfig r => set_loaded (match config_blob r with Some b => with_draft (fun d => Some (assign d b)) m | None => m end)
  | MConfigFail => set_loaded m
  | MSlide k v => with_draft (fun d => Some (assoc_set k (vz v) d)) m
  | MToggle g x => with_draft (toggle g x) m
  | MPattern s => with_draft (fun d => Some (assoc_set "logPat" (VStr s) d)) m
  | MPush => emit (RPush (draft m)) m
  | MPushed => closed m
  | MAsk k => match confirmKind m with None => set_dlg (Some k) (Danger "" false 0) m | Some _ => m end
  | MDismiss => set_dlg None (dlg m) m
  | MType s => match confirmKind m with Some k => set_dlg (Some k) (DangerModal false (confirm_name n k) (dlg m) (DType s)).1 m | None => m end
  | MWipe id on => Modal (draft m) (m_loaded m) (confirmKind m) (set_wipe id on (wipe m)) (dlg m) (shown m) (crashed m) (sent m)
  | MConfirm =>
      match confirmKind m with
      | Some k =>
          let '(d, go) := DangerModal false (confirm_name n k) (dlg m) DGo in
          if go then emit (action k m) (set_dlg (Some k) d m) else m
      | None => m
      end
  | MConfirmed => closed m
  | MRefused => set_dlg (confirmKind m) (DangerModal false "" (dlg m) DSettled).1 m
  | MClose => closed m
  end.

Definition modal_run (n : agent) (m : modal) (es : list mevent) : modal := fold_left (modal_step n) es m.

(** ** The global configuration *)

(** [let o = n; for each part but the last, o = o[part]; o[last] = val]; a part that
    is missing throws. *)
Fixpoint set_path (parts : list string) (x : value) (v : value) : option value :=
  match parts, v with
  | [], _ => None
  | [k], VObj f => Some (VObj (assoc_set k x f))
  | k :: r, VObj f => o ← assoc k f; o' ← set_path r x o; Some (VObj (assoc_set k o' f))
  | _, _ => None
  end.

Fixpoint get_path (parts : list string) (v : value) : value :=
  match parts with [] => v | k :: r => get_path r (fld v k) end.

(** [saves]: what each save in flight carries; [stored]: what the last save that
    succeeded carried. *)
Record cpage := CPage { cfg : value; dirty : bool; saves : list value; stored : value }.

Inductive cevent := CSet (path : list string) (x : value) | CSave | CSaved (i : nat) | CSaveFailed (i : nat).

Definition open_config (c : value) : cpage := CPage c false [] c.

Definition cfg_step (p : cpage) (e : cevent) : cpage :=
  match e with
  | CSet path x => match set_path path x (cfg p) with Some c => CPage c true (saves p) (stored p) | None => p end
  | CSave => if dirty p then CPage (cfg p) (dirty p) (saves p ++ [cfg p]) (stored p) else p
  | CSaved i =>
      match saves p !! i with
      | Some c => CPage (cfg p) false (take i (saves p) ++ drop (S i) (saves p)) c
      | None => p
      end
  | CSaveFailed i => CPage (cfg p) (dirty p) (take i (saves p) ++ drop (S i) (saves p)) (stored p)
  end.

Definition cfg_run (p : cpage) (es : list cevent) : cpage := fold_left cfg_step es p.

(** ** What the dialog pushes *)

Definition touches (e : mevent) : option string :=
  match e with MSlide k _ => Some k | MToggle g _ => Some g | MPattern _ => Some "logPat" | _ => None end.

(** Edits of the draft. *)
Definition edits (es : list mevent) : Prop := Forall (fun e => is_Some (touches e)) es.

Definition touched (es : list mevent) : list string := omap touches es.

Lemma edit_step n m e k0 : touches e = Some k0 ->
  shown (modal_step n m e) = shown m /\ sent (modal_step n m e) = sent m /\
  forall k, k <> k0 -> assoc k (draft (modal_step n m e)) = assoc k (draft m).
Proof.
  intros Hk. unfold modal_step. destruct (shown m) eqn:Es; cbn [negb]; [|done].
  destruct e; try discriminate; injection Hk as <-; cbn; try (split_and!; [done|done|]; intros k' Hne; by apply assoc_set_other).
  unfold with_draft, toggle. destruct (nullish _); cbn; [done|]. split_and!; [done|done|]. intros k' Hne. by apply assoc_set_other.
Qed.

Lemma edits_run n m es : edits es ->
  shown (modal_run n m es) = shown m /\ sent (modal_run n m es) = sent m /\
  forall k, k ∉ touched es -> assoc k (draft (modal_run n m es)) = assoc k (draft m).
Proof.
  intros Hes. revert m. induction Hes as [|e es [k0 He] _ IH]; intros m; [done|]. cbn [modal_run fold_left].
  destruct (edit_step n m e k0 He) as (H1 & H2 & H3). destruct (IH (modal_step n m e)) as (I1 & I2 & I3).
  rewrite H1 in I1. rewrite H2 in I2. split_and!; [exact I1|exact I2|]. intros k Hk. unfold touched in Hk. cbn in Hk. rewrite He, not_elem_of_cons in Hk.
  destruct Hk as [Hk Hn]. etransitivity; [by apply I3|]. by apply H3.
Qed.

Lemma push_step n m : shown m = true -> sent (modal_step n m MPush) = sent m ++ [RPush (draft m)].
Proof. intros H. unfold modal_step. by rewrite H. Qed.

(** A push keeps what the agent had, if its configuration was read first.  When
    the answer with the stored configuration is the first thing to arrive, whatever is
    then edited, the push carries every stored setting that was not edited as it was
    stored, and a default only where nothing is stored; the last value given to a
    slider is the one sent. *)
Theorem push_keeps_the_stored_config (n : agent) (targets : list string) (r : value) (b : obj) (es : list mevent) :
  config_blob r = Some b -> NoDup (map fst b) -> edits es ->
  exists d, sent (modal_run n (open_modal n targets) ((MConfig r :: es) ++ [MPush])) = [RPush d] /\
    (forall k, k ∉ touched es -> assoc k d = match assoc k b with Some v => Some v | None => assoc k (initDraft n targets) end) /\
    (forall es' k v, es = es' ++ [MSlide k v] -> assoc k d = Some (vz v)).
Proof.
  intros Hb Hn He. unfold modal_run. rewrite fold_left_app. cbn [fold_left].
  set (m1 := modal_step n (open_modal n targets) (MConfig r)). fold (modal_run n m1 es).
  assert (E1 : m1 = set_loaded (with_draft (fun d => Some (assign d b)) (open_modal n targets))) by (unfold m1, modal_step; cbn [shown open_modal negb]; by rewrite Hb).
  destruct (edits_run n m1 es He) as (Hs & Hsent & Hd). exists (draft (modal_run n m1 es)). split_and!.
  - rewrite push_step by (rewrite Hs, E1; done). rewrite Hsent, E1. done.
  - intros k Hk. rewrite (Hd k Hk), E1. cbn. by apply assign_lookup.
  - intros es' k v ->. apply Forall_app in He as [He _]. unfold modal_run. rewrite fold_left_app. cbn [fold_left]. fold (modal_run n m1 es').
    destruct (edits_run n m1 es' He) as (Hs' & _ & _). unfold modal_step. rewrite Hs', E1. cbn. apply assoc_set_same.
Qed.

(** Nothing waits for the configuration to be read.  A push before the answer, or
    after the read failed, sends the built-in defaults for every setting that was not
    edited, whatever the agent has stored; and an answer that arrives after an edit
    puts the stored value back over the edited one.  ([loaded] is kept and read
    nowhere.) *)
Theorem push_does_not_wait_for_the_config (n : agent) (targets : list string) (es : list mevent) :
  edits es ->
  (forall failed : bool, exists d,
    sent (modal_run n (open_modal n targets) ((if failed then [MConfigFail] else []) ++ es ++ [MPush])) = [RPush d] /\
    forall k, k ∉ touched es -> assoc k d = assoc k (initDraft n targets)) /\
  (forall r b k v, config_blob r = Some b -> NoDup (map fst b) -> assoc k b = Some v ->
    assoc k (draft (modal_run n (open_modal n targets) (es ++ [MConfig r]))) = Some v).
Proof.
  intros He. split.
  - intros failed. set (m1 := modal_run n (open_modal n targets) (if failed then [MConfigFail] else [])).
    assert (H1 : shown m1 = true /\ sent m1 = [] /\ draft m1 = initDraft n targets) by by destruct failed.
    destruct H1 as (H1 & H2 & H3). destruct (edits_run n m1 es He) as (Hs & Hsent & Hd).
    unfold modal_run. rewrite !fold_left_app. cbn [fold_left]. fold (modal_run n (open_modal n targets) (if failed then [MConfigFail] else [])).
    fold m1. fold (modal_run n m1 es). exists (draft (modal_run n m1 es)). split.
    + rewrite push_step by (by rewrite Hs). by rewrite Hsent, H2.
    + intros k Hk. by rewrite (Hd k Hk), H3.
  - intros r b k v Hb Hn Hk. destruct (edits_run n (open_modal n targets) es He) as (Hs & _ & _).
    unfold modal_run. rewrite fold_left_app. cbn [fold_left]. fold (modal_run n (open_modal n targets) es). unfold modal_step. rewrite Hs, Hb. cbn.
    rewrite assign_lookup by done. by rewrite Hk.
Qed.

Definition demo_agent : agent := Agent 4 "xenon" "10.0.0.4" "client" "up" true ["sshd"; "nginx"].
Definition demo_stored : obj := [("sampleSec", vz 60); ("watched", VObj [("sshd", VBool false)])].
Definition demo_reply : value := VObj [("config", VObj demo_stored)].

Lemma push_keeps_the_stored_config_witness :
  exists d, sent (modal_run demo_agent (open_modal demo_agent []) ([MConfig demo_reply; MPattern "oom"] ++ [MPush])) = [RPush d] /\
    assoc "sampleSec" d = Some (vz 60) /\ assoc "watched" d = Some (VObj [("sshd", VBool false)]).
Proof.
  destruct (push_keeps_the_stored_config demo_agent [] demo_reply demo_stored [MPattern "oom"]) as (d & H1 & H2 & _).
  - reflexivity.
  - apply (bool_decide_unpack _). exact I.
  - apply Forall_singleton. by eexists.
  - exists d. split; [exact H1|]. split; [apply (H2 "sampleSec")|apply (H2 "watched")]; by apply (bool_decide_unpack _), I.
Defined.

Lemma push_does_not_wait_for_the_config_witness :
  exists d, sent (modal_run demo_agent (open_modal demo_agent []) ([MConfigFail] ++ [] ++ [MPush])) = [RPush d] /\ assoc "sampleSec" d = Some (vz 15).
Proof.
  destruct (push_does_not_wait_for_the_config demo_agent [] [] ltac:(constructor)) as [H _]. destruct (H true) as (d & H1 & H2).
  exists d. split; [exact H1|]. rewrite (H2 "sampleSec"); [reflexivity|apply not_elem_of_nil].
Defined.

(** ** Destructive requests *)

(** What a dialog may ask for: a decommission of scopes on the list, after the agent's
    name was typed into its own confirmation; a retirement after its confirmation. *)
Definition destructive_ok (n : agent) (m : modal) (e : mevent) (r : request) : Prop :=
  match r with
  | RPush d => e = MPush /\ d = draft m
  | RRetire => e = MConfirm /\ confirmKind m = Some Retire /\ busy (dlg m) = false
  | RDecom scope => e = MConfirm /\ confirmKind m = Some Decom /\ busy (dlg m) = false /\ (a_name n <> "" -> typed (dlg m) = a_name n) /\
                    forall id, id ∈ scope <-> id ∈ WIPE_SCOPES /\ id ∈ wipe m
  end.

Theorem destructive_requests_are_confirmed (n : agent) (m : modal) (e : mevent) :
  exists new, sent (modal_step n m e) = sent m ++ new /\ Forall (destructive_ok n m e) new /\ (length new <= 1)%nat.
Proof.
  assert (Hnil : forall m', sent m' = sent m -> exists new, sent m' = sent m ++ new /\ Forall (destructive_ok n m e) new /\ (length new <= 1)%nat).
  { intros m' ->. exists []. split_and!; [by rewrite app_nil_r|done|cbn; lia]. }
  unfold modal_step. destruct (shown m); [|by apply Hnil]. cbn [negb].
  destruct e; try (by apply Hnil); try (unfold with_draft, toggle; repeat case_match; by apply Hnil).
  - exists [RPush (draft m)]. split_and!; [done|by apply Forall_singleton|done].
  - destruct (confirmKind m) as [k|] eqn:Ek; [|by apply Hnil]. cbn [DangerModal]. unfold armed. cbn [negb andb].
    destruct (busy (dlg m)) eqn:Eb; cbn [negb andb]; [by apply Hnil|]. destruct (String.eqb _ "" || _) eqn:En; [|by apply Hnil].
    exists [action k m]. split_and!; [done| |done]. apply Forall_singleton. destruct k; cbn [action destructive_ok]; [done|]. split_and!; try done.
    + intros Hne. cbn in En. rewrite (proj2 (String.eqb_neq _ _) Hne) in En. by apply String.eqb_eq.
    + intros id. rewrite list_elem_of_In, filter_In, bool_decide_eq_true, <- list_elem_of_In. done.
Qed.

(** ** The global configuration *)

Lemma fld_set k x f : fld (VObj (assoc_set k x f)) k = x.
Proof. cbn. by rewrite assoc_set_same. Qed.

Lemma fld_set_other k k' x f : k <> k' -> fld (VObj (assoc_set k' x f)) k = fld (VObj f) k.
Proof. intros H. cbn. by rewrite assoc_set_other. Qed.

Lemma set_path_step k k2 r x f : set_path (k :: k2 :: r) x (VObj f) = (o ← assoc k f; o' ← set_path (k2 :: r) x o; Some (VObj (assoc_set k o' f))).
Proof. done. Qed.

Lemma set_path_gets parts : forall x v v', set_path parts x v = Some v' -> get_path parts v' = x.
Proof.
  induction parts as [|k r IH]; intros x v v' H; [done|]. destruct r as [|k2 r].
  - destruct v; try discriminate. injection H as <-. apply fld_set.
  - destruct v as [| | | | | |f]; try discriminate. rewrite set_path_step in H. destruct (assoc k f) as [o|]; [|done]. cbn [mbind option_bind] in H.
    destruct (set_path (k2 :: r) x o) as [o'|] eqn:E; [|done]. injection H as <-. cbn [get_path]. rewrite fld_set. by eapply IH.
Qed.

(** Two paths part at a key. *)
Fixpoint apart (p p' : list string) : bool :=
  match p, p' with k :: r, k' :: r' => negb (String.eqb k k') || apart r r' | _, _ => false end.

Lemma set_path_keeps parts : forall p x v v', apart p parts = true -> set_path parts x v = Some v' -> get_path p v' = get_path p v.
Proof.
  induction parts as [|k r IH]; intros p x v v' Ha H; [by destruct p|]. destruct p as [|k' p]; [done|]. cbn [apart] in Ha.
  destruct v as [| | | | | |f]; try (by destruct r). destruct r as [|k2 r].
  - injection H as <-. cbn [get_path]. destruct (String.eqb_spec k' k) as [-> |Hne]; [by destruct p|]. by rewrite fld_set_other.
  - rewrite set_path_step in H. destruct (assoc k f) as [o|] eqn:Eo; [|done]. cbn [mbind option_bind] in H.
    destruct (set_path (k2 :: r) x o) as [o'|] eqn:E; [|done]. injection H as <-. cbn [get_path].
    destruct (String.eqb_spec k' k) as [-> |Hne]; [|by rewrite fld_set_other]. rewrite fld_set. cbn [negb orb] in Ha.
    rewrite (IH p x o o' Ha E). cbn. by rewrite Eo.
Qed.

(** No setting is changed while a save is in flight. *)
Fixpoint quiet (p : cpage) (es : list cevent) : Prop :=
  match es with
  | [] => True
  | e :: es => (match e with CSet _ _ => saves p = [] | _ => True end) /\ quiet (cfg_step p e) es
  end.

Definition cfg_ok (p : cpage) : Prop := Forall (eq (cfg p)) (saves p) /\ (dirty p = false -> stored p = cfg p).

Lemma Forall_skip {A} (P : A -> Prop) i l : Forall P l -> Forall P (take i l ++ drop (S i) l).
Proof. intros H. apply Forall_app. split; [by apply Forall_take|by apply Forall_drop]. Qed.

Lemma cfg_ok_step p e : (match e with CSet _ _ => saves p = [] | _ => True end) -> cfg_ok p -> cfg_ok (cfg_step p e).
Proof.
  intros Hq [Hs Hd]. destruct e; cbn [cfg_step].
  - destruct (set_path path x (cfg p)) as [c|]; [|done]. split; cbn; [by rewrite Hq|done].
  - destruct (dirty p) eqn:E; [|by split; [|rewrite E]]. split; cbn; [|done]. apply Forall_app. split; [done|by apply Forall_singleton].
  - destruct (saves p !! i) as [c|] eqn:E; [|done]. split; cbn; [by apply Forall_skip|]. intros _. symmetry. by eapply Forall_lookup_1 in E; [|exact Hs].
  - split; cbn; [by apply Forall_skip|done].
Qed.

(** What the settings page saves.  Changing a setting changes that path and no
    other; and while no setting is changed under a save in flight, a page that says
    nothing is left to save shows exactly the configuration that was last saved, or
    the one it was opened with.  But a change made under a save is lost from sight:
    when the save succeeds the page is marked clean, its button does nothing, and the
    change is not in what was saved. *)
Theorem settings_page_saves_what_it_shows (c : value) (es : list cevent) :
  (forall path x v v', set_path path x v = Some v' -> get_path path v' = x /\ forall p, apart p path = true -> get_path p v' = get_path p v) /\
  (quiet (open_config c) es -> let p := cfg_run (open_config c) es in dirty p = false -> stored p = cfg p) /\
  (forall path x y c1 c2, set_path path x c = Some c1 -> set_path path y c1 = Some c2 -> x <> y ->
     let p := cfg_run (open_config c) [CSet path x; CSave; CSet path y; CSaved 0] in
     dirty p = false /\ saves (cfg_step p CSave) = [] /\ get_path path (cfg p) = y /\ get_path path (stored p) = x).
Proof.
  split_and!.
  - intros path x v v' H. split; [by eapply set_path_gets|]. intros p Hp. by eapply set_path_keeps.
  - intros Hq p. assert (H : cfg_ok p); [|by destruct H]. unfold p, cfg_run. clear p.
    assert (H0 : cfg_ok (open_config c)) by (split; [constructor|done]). revert Hq H0. generalize (open_config c).
    induction es as [|e es IH]; intros p Hq H0; [done|]. destruct Hq as [He Hq]. cbn [fold_left]. apply IH; [done|]. by apply cfg_ok_step.
  - intros path x y c1 c2 H1 H2 Hne. cbn. rewrite H1. cbn. rewrite H2. cbn.
    split_and!; [done|done|by eapply set_path_gets|by eapply set_path_gets].
Qed.

Definition demo_cfg : value := VObj [("schedule", VObj [("sampleIntervalSec", vz 15); ("watchdogIntervalSec", vz 5)]); ("autoEnroll", VBool false)].
Definition demo_path : list string := ["schedule"; "sampleIntervalSec"].

Lemma settings_page_saves_what_it_shows_witness :
  let p := cfg_run (open_config demo_cfg) [CSet demo_path (vz 30); CSave; CSet demo_path (vz 60); CSaved 0] in
  dirty p = false /\ get_path demo_path (cfg p) = vz 60 /\ get_path demo_path (stored p) = vz 30.
Proof.
  destruct (settings_page_saves_what_it_shows demo_cfg []) as (_ & _ & H).
  destruct (H demo_path (vz 30) (vz 60) _ _ eq_refl eq_refl) as (H1 & _ & H2 & H3); [discriminate|]. split_and!; assumption.
Defined.
