(* ===== verification/SystemsDesk.v ===== *)
(** * Systems, pools and services (screens3.jsx)

    The cards of the pools, the list of adopted systems and the page of one system.
    The page keeps its data across a change of route: the route's asset id is a
    property, the data is state, and every continuation remembers the id of the
    render it comes from. *)

From Stdlib Require Import ZArith Lia.
From stdpp Require Import strings pretty list.
From S2P Require Import Prelude JsNum JsValue.

Local Open Scope string_scope.
Local Open Scope list_scope.
Local Open Scope Z_scope.

(** ** Pools *)

Record health := Health { h_up : Z; h_degraded : Z; h_down : Z; h_unknown : Z }.
Record pool := Pool { p_id : Z; p_name : string; p_color : option string; p_count : Z; p_health : health }.

Definition deletable (p : pool) : bool := negb (p_id p =? 1).

Definition fault (p : pool) : option string :=
  if 0 <? h_down (p_health p) then Some "var(--crit)" else if 0 <? h_degraded (p_health p) then Some "var(--warn)" else None.

(** [p.color || fault]. *)
Definition accent (p : pool) : option string :=
  match p_color p with Some c => if String.eqb c "" then fault p else Some c | None => fault p end.

Definition pool_line (p : pool) : list string :=
  let h := p_health p in
  (if 0 <? h_up h then [pretty (h_up h) +:+ " up "] else []) ++ (if 0 <? h_degraded h then [pretty (h_degraded h) +:+ " deg "] else []) ++
  (if 0 <? h_down h then [pretty (h_down h) +:+ " down "] else []) ++ (if 0 <? h_unknown h then [pretty (h_unknown h) +:+ " unknown"] else []) ++
  (if p_count p =? 0 then ["add systems from the Systems page"] else []).

(** [del], and the deletions sent. *)
Record cards := Cards { del : option pool; deleted : list Z }.

Inductive pevent := PAsk (p : pool) | PCancel | PGo | PDeleted | PFailed.

(** [canOp]: the operator may change things. *)
Definition cards_step (canOp : bool) (c : cards) (e : pevent) : cards :=
  match e with
  | PAsk p => if deletable p && canOp then Cards (Some p) (deleted c) else c
  | PCancel | PDeleted => Cards None (deleted c)
  | PGo => match del c with Some p => Cards (del c) (deleted c ++ [p_id p]) | None => c end
  | PFailed => c
  end.

(** ** The list of systems *)

Record target := Target { t_id : string; t_label : string }.

Record asset := Asset { as_id : Z; as_name : string; as_class : string; as_pool : option Z; as_poolName : option string;
                        as_monitor : bool; as_lifecycle : option string; as_crit : option Z; as_targets : list target }.

Inductive change := CName (s : string) | CClass (s : string) | CPool (p : Z) (name : option string) | CMove (p : Z) | CMonitor (b : bool).

(** [Object.assign({}, x, body)]. *)
Definition apply_change (c : change) (a : asset) : asset :=
  match c with
  | CName s => Asset (as_id a) s (as_class a) (as_pool a) (as_poolName a) (as_monitor a) (as_lifecycle a) (as_crit a) (as_targets a)
  | CClass s => Asset (as_id a) (as_name a) s (as_pool a) (as_poolName a) (as_monitor a) (as_lifecycle a) (as_crit a) (as_targets a)
  | CPool p n => Asset (as_id a) (as_name a) (as_class a) (Some p) n (as_monitor a) (as_lifecycle a) (as_crit a) (as_targets a)
  | CMove p => Asset (as_id a) (as_name a) (as_class a) (Some p) (as_poolName a) (as_monitor a) (as_lifecycle a) (as_crit a) (as_targets a)
  | CMonitor b => Asset (as_id a) (as_name a) (as_class a) (as_pool a) (as_poolName a) b (as_lifecycle a) (as_crit a) (as_targets a)
  end.

Definition lcOf (a : asset) : string := match as_lifecycle a with Some s => if String.eqb s "" then "active" else s | None => "active" end.

Definition shown_assets (showDeleted : bool) (l : list asset) : list asset :=
  List.filter (fun a => showDeleted || negb (String.eqb (lcOf a) "deleted")) l.

(** The rows, and the changes sent but not answered. *)
Record alist := AList { rows : list asset; asked : list (Z * change) }.

Inductive aevent := AReassign (id poolId : Z) | ARename (id : Z) (v : option string) | AAnswer (i : nat) (ok : bool).

Definition pool_named (pools : list pool) (id : Z) : option string := p_name <$> List.find (fun p => p_id p =? id) pools.

Definition ask (id : Z) (c : change) (l : alist) : alist := AList (rows l) (asked l ++ [(id, c)]).

Definition alist_step (pools : list pool) (l : alist) (e : aevent) : alist :=
  match e with
  | AReassign id p => ask id (CPool p (pool_named pools p)) l
  | ARename id v => match v with Some s => if String.eqb (trim s) "" then l else ask id (CName (trim s)) l | None => l end
  | AAnswer i ok =>
      match asked l !! i with
      | Some (id, c) =>
          AList (if ok then map (fun a => if as_id a =? id then apply_change c a else a) (rows l) else rows l)
                (take i (asked l) ++ drop (S i) (asked l))
      | None => l
      end
  end.

(** ** The page of one system *)

Inductive write := WPatch (id : Z) (c : change) | WRemove (id : Z) (target : string) | WTier (id tier : Z).

Inductive job := JLoad (id : Z) | JPatch (id : Z) | JRemove (id : Z) | JTier (id tier : Z).

Record page := Page { aid : Z; data : option asset; p_err : option string; rmTarget : option target; jobs : list job; writes : list write }.

Definition load (id : Z) (p : page) : page := Page (aid p) (data p) (p_err p) (rmTarget p) (jobs p ++ [JLoad id]) (writes p).

Definition send (w : write) (j : job) (p : page) : page := Page (aid p) (data p) (p_err p) (rmTarget p) (jobs p ++ [j]) (writes p ++ [w]).

Definition open_page (id : Z) : page := load id (Page id None None None [] []).

(** What a live API answers; the record of a system, or a rejection. *)
Inductive answer := AAsset (a : asset) | AOk | AFail (msg : string).

Inductive event :=
| ENav (id : Z)                       (* the route changes, the page stays mounted *)
| ERename (v : option string) | EClass (s : string) | EPool (p : Z) | EHeartbeat | ETier (t : Z)
| ERmAsk (t : target) | ERmCancel | ERmGo
| ELifecycle                          (* a transition other than a purge is done *)
| EAnswer (i : nat) (a : answer).

(** Nothing but the back button is on the page without data, or with an error. *)
Definition usable (p : page) : option asset := match p_err p with Some _ => None | None => data p end.

Definition with_crit (t : Z) (a : asset) : asset :=
  Asset (as_id a) (as_name a) (as_class a) (as_pool a) (as_poolName a) (as_monitor a) (as_lifecycle a) (Some t) (as_targets a).

Definition or_text (s d : string) : string := if String.eqb s "" then d else s.

Definition answered (j : job) (a : answer) (p : page) : page :=
  match j, a with
  | JLoad _, AAsset d => Page (aid p) (Some d) (p_err p) (rmTarget p) (jobs p) (writes p)
  | JLoad _, AFail m => Page (aid p) (data p) (Some (or_text m "load failed")) (rmTarget p) (jobs p) (writes p)
  | JPatch id, AOk => load id p
  | JRemove id, AOk => load id (Page (aid p) (data p) (p_err p) None (jobs p) (writes p))
  | JTier _ t, AOk => Page (aid p) (with_crit t <$> data p) (p_err p) (rmTarget p) (jobs p) (writes p)
  | _, _ => p
  end.

Definition patch (c : change) (p : page) : page := send (WPatch (aid p) c) (JPatch (aid p)) p.

Definition step (p : page) (e : event) : page :=
  match e with
  | ENav id => if id =? aid p then p else load id (Page id (data p) (p_err p) (rmTarget p) (jobs p) (writes p))
  | EAnswer i a => match jobs p !! i with
                   | Some j => answered j a (Page (aid p) (data p) (p_err p) (rmTarget p) (take i (jobs p) ++ drop (S i) (jobs p)) (writes p))
                   | None => p
                   end
  | _ =>
      match usable p with
      | None => p
      | Some d =>
          match e with
          | ERename v => match v with Some s => if String.eqb (trim s) "" then p else patch (CName (trim s)) p | None => p end
          | EClass s => patch (CClass s) p
          | EPool k => patch (CMove k) p
          | EHeartbeat => patch (CMonitor (negb (as_monitor d))) p
          | ETier t => send (WTier (aid p) t) (JTier (aid p) t) p
          | ERmAsk t => Page (aid p) (data p) (p_err p) (Some t) (jobs p) (writes p)
          | ERmCancel => Page (aid p) (data p) (p_err p) None (jobs p) (writes p)
          | ERmGo => match rmTarget p with Some t => send (WRemove (aid p) (t_id t)) (JRemove (aid p)) p | None => p end
          | ELifecycle => load (aid p) p
          | _ => p
          end
      end
  end.

Definition run (p : page) (es : list event) : page := fold_left step es p.

(** ** Properties *)

Lemma pool_deletions canOp es c : (forall p, del c = Some p -> p_id p <> 1) -> 1 ∉ deleted c -> 1 ∉ deleted (fold_left (cards_step canOp) es c).
Proof.
  revert c. induction es as [|e es IH]; intros c Hd Hn; [done|]. cbn [fold_left]. apply IH; destruct e; cbn; try done.
  - intros q. unfold deletable. destruct (Z.eqb_spec (p_id p) 1) as [|H]; cbn; [by apply Hd|]. destruct canOp; [intros [= <-]; done|by apply Hd].
  - by destruct (del c) eqn:E; cbn; rewrite ?E.
  - by destruct (_ && canOp).
  - destruct (del c) as [q|] eqn:E; [|done]. cbn. rewrite elem_of_app, elem_of_cons, elem_of_nil. intros [?|[H|?]]; [done| |done].
    by apply (Hd q).
Qed.

(** The catch-all pool is never deleted, whatever is clicked. *)
Lemma catch_all_pool_stays (canOp : bool) (es : list pevent) : 1 ∉ deleted (fold_left (cards_step canOp) es (Cards None [])).
Proof. apply pool_deletions; [done|apply not_elem_of_nil]. Qed.

Lemma apply_change_id c a : as_id (apply_change c a) = as_id a.
Proof. by destruct c. Qed.

(** An answer changes the row it is about and no other. *)
Lemma one_row_changes pools l i id c k a : asked l !! i = Some (id, c) -> rows l !! k = Some a ->
  rows (alist_step pools l (AAnswer i true)) !! k = Some (if as_id a =? id then apply_change c a else a) /\
  rows (alist_step pools l (AAnswer i false)) = rows l.
Proof. intros Hi Hk. cbn. rewrite Hi. cbn. by rewrite list_lookup_fmap, Hk. Qed.

Definition job_id (j : job) : Z := match j with JLoad id | JPatch id | JRemove id | JTier id _ => id end.
Definition write_id (w : write) : Z := match w with WPatch id _ | WRemove id _ | WTier id _ => id end.

(** The server answers with the system it was asked for. *)
Definition honest (p : page) (e : event) : Prop :=
  match e with EAnswer i (AAsset a) => forall id, jobs p !! i = Some (JLoad id) -> as_id a = id | _ => True end.

Definition on_system (id : Z) (p : page) : Prop :=
  aid p = id /\ Forall (fun j => job_id j = id) (jobs p) /\ Forall (fun w => write_id w = id) (writes p) /\ (forall d, data p = Some d -> as_id d = id).

Lemma on_send id w j p : on_system id p -> write_id w = id -> job_id j = id -> on_system id (send w j p).
Proof. intros (? & ? & ? & ?) ? ?. split_and!; cbn; try done; apply Forall_app; (split; [done|by apply Forall_singleton]). Qed.

Lemma on_load id p : on_system id p -> on_system id (load id p).
Proof. intros (? & ? & ? & ?). split_and!; cbn; try done. apply Forall_app. split; [done|by apply Forall_singleton]. Qed.

Lemma on_answered id j a p : job_id j = id -> (forall d, a = AAsset d -> forall k, j = JLoad k -> as_id d = k) -> on_system id p -> on_system id (answered j a p).
Proof.
  intros Hj Ha H. pose proof H as (H1 & H2 & H3 & H4).
  assert (Hp : forall d e t, (forall x, d = Some x -> as_id x = id) -> on_system id (Page (aid p) d e t (jobs p) (writes p))) by (by intros; split_and!).
  destruct j as [k|k|k|k t], a as [d| |m]; cbn in Hj |- *; subst k; try done; try (apply Hp; try done).
  - intros x [= <-]. by apply (Ha d).
  - by apply on_load.
  - by apply on_load, Hp.
  - intros x Hx. destruct (data p) as [d0|]; [|done]. injection Hx as <-. by apply (H4 d0).
Qed.

Lemma on_step id p e : on_system id p -> honest p e -> (forall k, e = ENav k -> k = id) -> on_system id (step p e).
Proof.
  intros H Hh Hn. pose proof H as (H1 & H2 & H3 & H4).
  assert (Hp : forall c, on_system id (patch c p)) by (intros c; by apply on_send).
  destruct e; cbn [step]; try (destruct (usable p) as [d|]; [|done]); try done.
  - rewrite (Hn id0 eq_refl), H1, Z.eqb_refl. done.
  - destruct v as [s|]; [|done]. by destruct (String.eqb _ _).
  - by apply on_send.
  - destruct (rmTarget p); [by apply on_send|done].
  - rewrite H1. by apply on_load.
  - destruct (jobs p !! i) as [j|] eqn:E; [|done]. apply on_answered.
    + by eapply (Forall_lookup_1 _ _ _ _ H2) in E.
    + intros d -> k ->. by apply Hh.
    + split_and!; cbn; try done. apply Forall_app. split; [by apply Forall_take|by apply Forall_drop].
Qed.

(** Runs with a server that answers what it was asked. *)
Fixpoint run_honest (p : page) (es : list event) : Prop := match es with [] => True | e :: es => honest p e /\ run_honest (step p e) es end.

Lemma err_stays p e m : p_err p = Some m -> is_Some (p_err (step p e)).
Proof.
  intros H. assert (Hu : usable p = None) by (unfold usable; by rewrite H).
  destruct e; cbn [step]; rewrite ?Hu; try (by rewrite H).
  - destruct (id =? aid p); cbn; by rewrite H.
  - destruct (jobs p !! i) as [j|]; [|by rewrite H]. destruct j, a as [?| |]; cbn; rewrite ?H; done.
Qed.

(** C29: the page of a system writes to the system it shows, as long as the route does
    not change under it.  In every run from its opening, in any order of answers, with
    a server that answers about the system it was asked for, the data shown is that of
    the route's system and every change, removal and tier goes to it.  After a change
    of route it need not be: the page keeps the old system's data, so a click on its
    heartbeat switch writes the opposite of the OLD system's setting to the NEW
    system; an answer that was still on its way brings the old system back for good;
    and once a load has failed, no later load or route clears the error. *)
Theorem system_page_writes_where_it_shows (id : Z) :
  (forall es, run_honest (open_page id) es -> (forall k, ENav k ∈ es -> k = id) ->
    let p := run (open_page id) es in
    (forall d, data p = Some d -> as_id d = id) /\ Forall (fun w => write_id w = id) (writes p)) /\
  (forall (d d2 : asset) (id2 : Z), as_id d = id -> as_id d2 = id2 -> id2 <> id ->
    let p1 := run (open_page id) [EAnswer 0 (AAsset d); ENav id2; EHeartbeat] in
    let p2 := run (open_page id) [ENav id2; EAnswer 1 (AAsset d2); EAnswer 0 (AAsset d)] in
    usable p1 = Some d /\ writes p1 = [WPatch id2 (CMonitor (negb (as_monitor d)))] /\
    run_honest (open_page id) [ENav id2; EAnswer 1 (AAsset d2); EAnswer 0 (AAsset d)] /\
    aid p2 = id2 /\ usable p2 = Some d /\ jobs p2 = []) /\
  (forall p es, is_Some (p_err p) -> usable (run p es) = None).
Proof.
  split_and!.
  - intros es Hh Hn. assert (H0 : on_system id (open_page id)) by (split_and!; try done; by repeat constructor).
    assert (H : on_system id (run (open_page id) es)); [|by destruct H as (_ & _ & ? & ?)]. revert Hh Hn H0. generalize (open_page id).
    unfold run. induction es as [|e es IH]; intros p Hh Hn H0; [done|]. destruct Hh as [He Hh]. cbn [fold_left]. apply IH; [done| |].
    + intros k Hk. apply Hn. by right.
    + apply on_step; [done|done|]. intros k ->. apply Hn. left.
  - intros d d2 id2 Hd Hd2 Hne. apply Z.eqb_neq in Hne. cbn. rewrite !Hne. cbn. split_and!; try done; naive_solver.
  - intros p es. revert p. unfold run. induction es as [|e es IH]; intros p [m Hm]; [unfold usable; cbn; by rewrite Hm|]. cbn [fold_left]. apply IH. by eapply err_stays.
Qed.

Definition demo_a : asset := Asset 3 "nas" "server" (Some 1) None true None None [].
Definition demo_b : asset := Asset 8 "router" "network" (Some 1) None true None None [].

Lemma system_page_writes_where_it_shows_witness :
  writes (run (open_page 3) [EAnswer 0 (AAsset demo_a); ENav 8; EHeartbeat]) = [WPatch 8 (CMonitor false)] /\
  (forall d, data (run (open_page 3) [EAnswer 0 (AAsset demo_a); EHeartbeat]) = Some d -> as_id d = 3).
Proof.
  destruct (system_page_writes_where_it_shows 3) as (H1 & H2 & _).
  destruct (H2 demo_a demo_b 8 eq_refl eq_refl ltac:(discriminate)) as (_ & Hw & _). split; [exact Hw|].
  apply (H1 [EAnswer 0 (AAsset demo_a); EHeartbeat]).
  - cbn. split_and!; try exact I. by intros ? [= <-].
  - intros k Hk. rewrite !elem_of_cons, elem_of_nil in Hk. naive_solver.
Defined.
