(* ===== verification/TagDesk.v ===== *)
(** * Location tags and receiving (screens8.jsx)

    The tab that gives every storage unit a code, one at a time or all at once, with
    the server's rule that makes it safe; and the dialogs that receive an unknown
    code, move a unit and print a label.  A request is a flight; the server handles
    it or refuses it, and its answer may be lost. *)

From Stdlib Require Import ZArith Lia.
From stdpp Require Import strings pretty list.
From S2P Require Import Prelude JsNum JsValue InvForms.

Local Open Scope string_scope.
Local Open Scope list_scope.
Local Open Scope Z_scope.

(** ** The server's side *)

(** The live codes of type location, newest first: location and code. *)
Record server := Server { live : list (Z * Z); next : Z }.

Definition tag_of (l : Z) (live : list (Z * Z)) : option Z := snd <$> List.find (fun c => c.1 =? l) live.

Arguments tag_of : simpl never.

(** A generated code is unique for its location: an existing one is returned. *)
Definition codeCreate (s : server) (l : Z) : server * Z :=
  match tag_of l (live s) with
  | Some c => (s, c)
  | None => (Server ((l, next s) :: live s) (next s + 1), next s)
  end.

(** ** The tab *)

Definition codes_map := list (Z * Z).

(** The rows come newest first; the first one of a location is kept. *)
Definition map_codes (rows : list (Z * Z)) : codes_map :=
  fold_left (fun m c => match tag_of c.1 m with Some _ => m | None => m ++ [c] end) rows [].

Definition put_code (l c : Z) (m : codes_map) : codes_map := (l, c) :: List.filter (fun x => negb (x.1 =? l)) m.

(** A run of "Tag all": the locations it was started on, those still to do, those done. *)
Record batch := Batch { b_all : list Z; b_rest : list Z; b_ok : list Z }.

Record tab := Tab { codes : option codes_map; busyIds : list Z; job : option batch; flights : list (Z * bool);
                    report : option (list Z * list Z); srv : server }.

Definition CODES_LIMIT : nat := 2000.

Definition untagged (locs : list Z) (t : tab) : list Z :=
  match codes t with Some m => List.filter (fun l => match tag_of l m with None => true | Some _ => false end) locs | None => [] end.

(** [tagOne]: the flight, marked when it belongs to the batch. *)
Definition tagOne (l : Z) (b : bool) (t : tab) : tab :=
  Tab (codes t) (l :: busyIds t) (job t) (flights t ++ [(l, b)]) (report t) (srv t).

Definition set_job (j : option batch) (r : option (list Z * list Z)) (t : tab) : tab := Tab (codes t) (busyIds t) j (flights t) r (srv t).

(** The batch goes on to its next location, or ends with its toast. *)
Definition advance (ok : bool) (l : Z) (t : tab) : tab :=
  match job t with
  | None => t
  | Some b =>
      let done := if ok then b_ok b ++ [l] else b_ok b in
      match b_rest b with
      | [] => set_job None (Some (done, b_all b)) t
      | l' :: r => tagOne l' true (set_job (Some (Batch (b_all b) r done)) (report t) t)
      end
  end.

Inductive outcome := Answered | Lost | Refused.

Inductive event := ELoad | ELoadFailed | ETag (l : Z) | ETagAll | ESettle (i : nat) (o : outcome).

Definition settle (i : nat) (l : Z) (b : bool) (o : outcome) (t : tab) : tab :=
  let '(s, c) := match o with Refused => (srv t, 0) | _ => codeCreate (srv t) l end in
  let codes' := match o with Answered => Some (put_code l c (default [] (codes t))) | _ => codes t end in
  let t' := Tab codes' (List.filter (fun x => negb (x =? l)) (busyIds t)) (job t) (take i (flights t) ++ drop (S i) (flights t)) (report t) s in
  if b then advance (match o with Answered => true | _ => false end) l t' else t'.

Definition step (locs : list Z) (t : tab) (e : event) : tab :=
  match e with
  | ELoad => Tab (Some (map_codes (take CODES_LIMIT (live (srv t))))) (busyIds t) (job t) (flights t) (report t) (srv t)
  | ELoadFailed => Tab (Some []) (busyIds t) (job t) (flights t) (report t) (srv t)
  | ETag l =>
      match codes t with
      | Some m => if bool_decide (l ∈ locs) && match tag_of l m with None => true | Some _ => false end && negb (bool_decide (l ∈ busyIds t))
                  then tagOne l false t else t
      | None => t
      end
  | ETagAll =>
      match job t, untagged locs t with
      | None, l :: r => tagOne l true (set_job (Some (Batch (l :: r) r [])) (report t) t)
      | _, _ => t
      end
  | ESettle i o => match flights t !! i with Some (l, b) => settle i l b o t | None => t end
  end.

(** ** Receiving, moving, printing *)

Definition RECEIVE_TYPES : list string := ["serial"; "upc"; "custom"].

Record rform := RForm { r_type : string; r_model : option Z; r_serial : string; r_loc : string; r_qty : string; r_cost : string; r_receipt : string }.

Definition receive_open (code guessed : string) (models : list Z) (armed : option Z) : rform :=
  let t := if bool_decide (guessed ∈ RECEIVE_TYPES) then guessed else "custom" in
  RForm t (head models) (if String.eqb t "serial" then code else "") (match armed with Some l => pretty l | None => "" end) "1" "" "".

Definition pickType (code t : string) (f : rform) : rform :=
  RForm t (r_model f) (if String.eqb t "serial" && String.eqb (r_serial f) "" then code else r_serial f) (r_loc f) (r_qty f) (r_cost f) (r_receipt f).

(** [Number(s) || 1]. *)
Definition qty_of (s : string) : num := let n := str_num s in if truthy (VNum n) then n else ofZ 1.

(** The body, or nothing when no model is picked. *)
Definition receive_body (code : string) (f : rform) : option (list (string * value)) :=
  m ← r_model f;
  Some ([("code", VStr code); ("code_type", VStr (r_type f)); ("model_id", vz m); ("quantity", VNum (qty_of (r_qty f)))] ++
        (if String.eqb (trim (r_serial f)) "" then [] else [("serial", VStr (trim (r_serial f)))]) ++
        (if String.eqb (r_loc f) "" then [] else [("location_id", VNum (str_num (r_loc f)))]) ++
        (if String.eqb (r_receipt f) "" then [] else [("receipt_id", VNum (str_num (r_receipt f)))]) ++
        (if String.eqb (r_cost f) "" then [] else [("unit_cost_cents", VNum (nround (nmul (parseFloat (r_cost f)) (ofZ 100))))])).

Definition move_body (unit : Z) (loc : string) : option (list (string * value)) :=
  if String.eqb loc "" then None else Some [("hardware_unit_id", vz unit); ("location_id", VNum (str_num loc))].

Definition label_query (profile format : string) (download : bool) : string :=
  "?profile=" +:+ encodeURIComponent profile +:+ (if download then "&format=" +:+ encodeURIComponent format else "").

(** ** Lookups *)

Lemma tag_of_cons l x m : tag_of l (x :: m) = if x.1 =? l then Some x.2 else tag_of l m.
Proof. unfold tag_of. cbn. by destruct (x.1 =? l). Qed.

Lemma tag_of_app l m m' : tag_of l (m ++ m') = match tag_of l m with Some c => Some c | None => tag_of l m' end.
Proof. induction m as [|x m IH]; [done|]. cbn [app]. rewrite !tag_of_cons. by destruct (x.1 =? l). Qed.

Lemma tag_of_put l k c m : tag_of l (put_code k c m) = if k =? l then Some c else tag_of l m.
Proof.
  unfold put_code. rewrite tag_of_cons. cbn. destruct (Z.eqb_spec k l) as [|Hne]; [done|].
  induction m as [|x m IH]; [done|]. cbn [List.filter]. destruct (Z.eqb_spec x.1 k) as [E|E]; cbn [negb]; rewrite ?tag_of_cons.
  - destruct (Z.eqb_spec x.1 l); [congruence|done].
  - by rewrite IH.
Qed.

Lemma tag_of_None l m : tag_of l m = None -> l ∉ map fst m.
Proof.
  induction m as [|x m IH]; [intros _; apply not_elem_of_nil|]. rewrite tag_of_cons. destruct (Z.eqb_spec x.1 l); [done|]. intros H. cbn.
  rewrite not_elem_of_cons. split; [done|by apply IH].
Qed.

Lemma map_codes_sound rows : forall m,
  forall l, tag_of l (fold_left (fun m c => match tag_of c.1 m with Some _ => m | None => m ++ [c] end) rows m) =
            match tag_of l m with Some c => Some c | None => tag_of l rows end.
Proof.
  induction rows as [|x rows IH]; intros m l; cbn [fold_left]; [by destruct (tag_of l m)|]. rewrite IH. rewrite (tag_of_cons l x rows).
  destruct (tag_of x.1 m) as [c|] eqn:E.
  - destruct (tag_of l m) eqn:El; [done|]. destruct (Z.eqb_spec x.1 l); [congruence|done].
  - rewrite tag_of_app, tag_of_cons. destruct (tag_of l m); [done|]. by destruct (x.1 =? l).
Qed.

Lemma tag_of_take l n m c : tag_of l (take n m) = Some c -> tag_of l m = Some c.
Proof. rewrite <- (take_drop n m) at 2. rewrite tag_of_app. by intros ->. Qed.

Lemma map_codes_tag rows l : tag_of l (map_codes rows) = tag_of l rows.
Proof. unfold map_codes. by rewrite map_codes_sound. Qed.

Lemma codeCreate_tag s l : tag_of l (live (codeCreate s l).1) = Some (codeCreate s l).2.
Proof. unfold codeCreate. destruct (tag_of l (live s)) eqn:E; [done|]. cbn. rewrite tag_of_cons. cbn. by rewrite Z.eqb_refl. Qed.

Lemma codeCreate_mono s l x c : tag_of x (live s) = Some c -> tag_of x (live (codeCreate s l).1) = Some c.
Proof.
  unfold codeCreate. destruct (tag_of l (live s)) eqn:E; [done|]. cbn. rewrite tag_of_cons. cbn. destruct (Z.eqb_spec l x); [congruence|done].
Qed.

Lemma codeCreate_NoDup s l : NoDup (map fst (live s)) -> NoDup (map fst (live (codeCreate s l).1)).
Proof. unfold codeCreate. destruct (tag_of l (live s)) eqn:E; [done|]. cbn. intros H. apply NoDup_cons. split; [by apply tag_of_None|done]. Qed.

(** ** The invariant *)

Definition tagged (s : server) (x : Z) : Prop := is_Some (tag_of x (live s)).

Definition batch_flights (t : tab) : list Z := map fst (List.filter snd (flights t)).

(** [strict]: no answer of the run was lost or refused. *)
Definition tab_ok (strict : bool) (locs : list Z) (t : tab) : Prop :=
  NoDup (map fst (live (srv t))) /\
  (forall m l c, codes t = Some m -> tag_of l m = Some c -> tag_of l (live (srv t)) = Some c) /\
  match job t with
  | Some b => exists done l, b_all b = done ++ l :: b_rest b /\ batch_flights t = [l] /\ b_ok b `sublist_of` done /\
                             (strict = true -> b_ok b = done) /\ Forall (tagged (srv t)) (b_ok b)
  | None => batch_flights t = []
  end /\
  (forall ok all, report t = Some (ok, all) -> ok `sublist_of` all /\ (strict = true -> ok = all) /\ Forall (tagged (srv t)) ok).

Lemma tagged_mono s l xs : Forall (tagged s) xs -> Forall (tagged (codeCreate s l).1) xs.
Proof. intros H. eapply Forall_impl; [exact H|]. intros x [c Hc]. exists c. by apply codeCreate_mono. Qed.

Lemma batch_flights_app fs f : map fst (List.filter snd (fs ++ [f])) = map fst (List.filter snd fs) ++ (if f.2 : bool then [f.1 : Z] else []).
Proof. rewrite List.filter_app, map_app. cbn. by destruct (f.2). Qed.

Lemma batch_flights_drop (fs : list (Z * bool)) i l (b : bool) : fs !! i = Some (l, b) ->
  exists A B, map fst (List.filter snd fs) = A ++ (if b then [l] else []) ++ B /\ map fst (List.filter snd (take i fs ++ drop (S i) fs)) = A ++ B.
Proof.
  intros H. exists (map fst (List.filter snd (take i fs))), (map fst (List.filter snd (drop (S i) fs))). split.
  - rewrite <- (take_drop_middle fs i (l, b) H) at 1. rewrite List.filter_app, map_app. f_equal. cbn. by destruct b.
  - by rewrite List.filter_app, map_app.
Qed.

Lemma ok_start strict locs t : tab_ok strict locs t -> job t = None -> forall l r,
  tab_ok strict locs (tagOne l true (set_job (Some (Batch (l :: r) r [])) (report t) t)).
Proof.
  intros (H1 & H2 & H3 & H4) Hj l r. rewrite Hj in H3. split_and!; [done|done| |done]. cbn. exists [], l. split_and!; try done.
  unfold batch_flights in *. cbn. rewrite batch_flights_app, H3. done.
Qed.

(** What the server and the page know after an outcome. *)
Lemma settle_server t l o :
  let '(s, c) := match o with Refused => (srv t, 0) | _ => codeCreate (srv t) l end in
  let m := match o with Answered => Some (put_code l c (default [] (codes t))) | _ => codes t end in
  NoDup (map fst (live (srv t))) -> (forall m l c, codes t = Some m -> tag_of l m = Some c -> tag_of l (live (srv t)) = Some c) ->
  NoDup (map fst (live s)) /\ (forall m' x y, m = Some m' -> tag_of x m' = Some y -> tag_of x (live s) = Some y) /\
  (forall xs, Forall (tagged (srv t)) xs -> Forall (tagged s) xs) /\ (o = Answered -> tagged s l).
Proof.
  destruct (match o with Refused => (srv t, 0) | _ => codeCreate (srv t) l end) as [s c] eqn:E. intros m Hn Hc.
  assert (Es : o <> Refused -> s = (codeCreate (srv t) l).1 /\ c = (codeCreate (srv t) l).2) by (intros Hr; destruct o; [by rewrite E..|done]).
  destruct o; [destruct Es as [-> ->]; [done|]|destruct Es as [-> ->]; [done|]|injection E as <- <-].
  - split_and!; [by apply codeCreate_NoDup| |intros xs; apply tagged_mono|].
    + intros m' x y [= <-]. rewrite tag_of_put. destruct (Z.eqb_spec l x) as [-> |]; [intros [= <-]; apply codeCreate_tag|].
      intros Hx. apply codeCreate_mono. destruct (codes t) as [m0|] eqn:Em; [|done]. by eapply Hc.
    + intros _. eexists. apply codeCreate_tag.
  - split_and!; [by apply codeCreate_NoDup| |intros xs; apply tagged_mono|done]. intros m' x y Hm Hx. apply codeCreate_mono. by eapply Hc.
  - split_and!; try done.
Qed.

Lemma ok_settle strict locs t i l b o : tab_ok strict locs t -> flights t !! i = Some (l, b) -> (strict = true -> o = Answered) ->
  tab_ok strict locs (settle i l b o t).
Proof.
  intros (H1 & H2 & H3 & H4) Hi Hs. unfold settle. pose proof (settle_server t l o) as Hsrv.
  destruct (match o with Refused => (srv t, 0) | _ => codeCreate (srv t) l end) as [s c]. cbv zeta in Hsrv. destruct (Hsrv H1 H2) as (S1 & S2 & S3 & S4).
  destruct (batch_flights_drop (flights t) i l b Hi) as (A & B & E1 & E2).
  assert (H4' : forall ok all, report t = Some (ok, all) -> ok `sublist_of` all /\ (strict = true -> ok = all) /\ Forall (tagged s) ok).
  { intros ok all Hr. destruct (H4 ok all Hr) as (? & ? & ?). split_and!; [done|done|by apply S3]. }
  unfold batch_flights in H3. rewrite E1 in H3.
  destruct b.
  - unfold advance. cbn [job]. destruct (job t) as [bt|] eqn:Ej.
    + destruct H3 as (dn & l0 & Hall & Hf & Hsub & Hstr & Ht). destruct A as [|a A]; [|by destruct A]. cbn in Hf. destruct B; [|done]. injection Hf as <-.
      set (ok' := if match o with Answered => true | _ => false end then b_ok bt ++ [l] else b_ok bt).
      assert (Hok1 : ok' `sublist_of` dn ++ [l]) by (unfold ok'; destruct o; [by apply sublist_app|by apply sublist_inserts_r..]).
      assert (Hok2 : strict = true -> ok' = dn ++ [l]) by (intros Hst; unfold ok'; rewrite (Hs Hst), (Hstr Hst); done).
      assert (Hok3 : Forall (tagged s) ok').
      { unfold ok'. destruct o; try (by apply S3). apply Forall_app. split; [by apply S3|]. apply Forall_singleton. by apply S4. }
      destruct (b_rest bt) as [|l' r] eqn:Er; cbn [b_rest].
      * split_and!; [done|done| |]; cbn; [unfold batch_flights; cbn; by rewrite E2|]. intros ok all [= <- <-]. by rewrite Hall.
      * split_and!; [done|done| |done]. cbn. exists (dn ++ [l]), l'. split_and!; try done; [by rewrite Hall, <- app_assoc|].
        unfold batch_flights. cbn. by rewrite batch_flights_app, E2.
    + by destruct A.
  - split_and!; [done|done| |done]. cbn [job]. unfold batch_flights. cbn [flights]. rewrite E2. cbn in H3.
    destruct (job t) as [bt|]; [|done]. destruct H3 as (dn & l0 & ? & ? & ? & ? & ?). exists dn, l0. split_and!; try done. by apply S3.
Qed.

Definition all_answered (e : event) : Prop := match e with ESettle _ o => o = Answered | _ => True end.

Lemma ok_step strict locs t e : (strict = true -> all_answered e) -> tab_ok strict locs t -> tab_ok strict locs (step locs t e).
Proof.
  intros Hs H. pose proof H as (H1 & H2 & H3 & H4). destruct e; cbn [step].
  - split_and!; try done. intros m l c [= <-]. rewrite map_codes_tag. apply tag_of_take.
  - split_and!; try done. by intros m l c [= <-].
  - destruct (codes t) as [m|] eqn:Ec; [|done]. destruct (_ && _); [|done]. split_and!; cbn; try done; [by rewrite Ec|].
    unfold batch_flights in *. cbn. rewrite batch_flights_app, app_nil_r. done.
  - destruct (job t) eqn:Ej; [done|]. destruct (untagged locs t); [done|]. by apply ok_start.
  - destruct (flights t !! i) as [[l b]|] eqn:Ei; [|done]. apply ok_settle; done.
Qed.

Definition opened (s : server) : tab := Tab None [] None [] None s.

Definition run (locs : list Z) (s : server) (es : list event) : tab := fold_left (step locs) es (opened s).

Lemma run_ok strict locs s es : NoDup (map fst (live s)) -> (strict = true -> Forall all_answered es) -> tab_ok strict locs (run locs s es).
Proof.
  intros Hn He. unfold run. assert (H0 : tab_ok strict locs (opened s)) by by split_and!. revert He H0. generalize (opened s).
  induction es as [|e es IH]; intros t He H0; [done|]. cbn [fold_left]. apply IH.
  - intros Hs. specialize (He Hs). by apply Forall_cons in He as [_ ?].
  - apply ok_step; [|done]. intros Hs. specialize (He Hs). by apply Forall_cons in He as [? _].
Qed.

(** C30: tagging every location is safe and complete.  Whatever is clicked and however
    the requests interleave, with answers lost or refused, after a list of codes that
    could not be read, and with single tags taken during a run of "Tag all": no
    location ever has two codes; a code shown is the one the server holds; a run of
    "Tag all" has exactly one request open, for the locations it was started on in
    order, and each settled request leaves one less; the ones it reports as tagged
    have a code; and when every request was answered they are all of them. *)
Theorem tag_all_is_safe_and_complete (locs : list Z) (s : server) (es : list event) :
  NoDup (map fst (live s)) ->
  let t := run locs s es in
  NoDup (map fst (live (srv t))) /\
  (forall m l c, codes t = Some m -> tag_of l m = Some c -> tag_of l (live (srv t)) = Some c) /\
  (forall b, job t = Some b -> exists dn l, b_all b = dn ++ l :: b_rest b /\ batch_flights t = [l] /\
     forall i o, flights t !! i = Some (l, true) ->
       match job (step locs t (ESettle i o)) with Some b' => S (length (b_rest b')) = length (b_rest b) | None => b_rest b = [] end) /\
  (forall ok all, report t = Some (ok, all) ->
     ok `sublist_of` all /\ Forall (tagged (srv t)) ok /\ (Forall all_answered es -> ok = all)).
Proof.
  intros Hn t. pose proof (run_ok false locs s es Hn ltac:(done)) as (H1 & H2 & H3 & H4). fold t in H1, H2, H3, H4. split_and!; [done|done| |].
  - intros b Hb. rewrite Hb in H3. destruct H3 as (dn & l & Hall & Hf & _). exists dn, l. split_and!; [done|done|]. intros i o Hi. cbn [step]. rewrite Hi.
    unfold settle. destruct (match o with Refused => (srv t, 0) | _ => codeCreate (srv t) l end) as [s' c]. unfold advance. cbn [job]. rewrite Hb.
    by destruct (b_rest b) as [|l' r].
  - intros ok all Hr. destruct (H4 ok all Hr) as (Hsub & _ & Ht). split_and!; [done|done|]. intros He.
    destruct (run_ok true locs s es Hn (fun _ => He)) as (_ & _ & _ & H5). by apply (H5 ok all Hr).
Qed.

Definition demo_server : server := Server [(2, 70)] 71.
Definition demo_events : list event := [ELoadFailed; ETagAll; ETag 3; ESettle 0 Answered; ESettle 0 Answered; ESettle 0 Answered; ESettle 0 Answered].

Lemma tag_all_is_safe_and_complete_witness :
  live (srv (run [1; 2; 3] demo_server demo_events)) = [(3, 72); (1, 71); (2, 70)] /\
  report (run [1; 2; 3] demo_server demo_events) = Some ([1; 2; 3], [1; 2; 3]) /\
  NoDup (map fst (live (srv (run [1; 2; 3] demo_server demo_events)))).
Proof.
  destruct (tag_all_is_safe_and_complete [1; 2; 3] demo_server demo_events) as (H & _); [apply NoDup_singleton|].
  split; [vm_compute; reflexivity|]. split; [vm_compute; reflexivity|exact H].
Defined.

(** ** Receiving *)

(** A scanned serial number is received as the unit's serial, whichever way the type
    was chosen, and a serial already typed is kept. *)
Lemma received_serial (code guessed : string) (models : list Z) (armed : option Z) (b : list (string * value)) :
  sall (fun c => negb (is_ws c)) code = true -> code <> "" ->
  receive_body code (pickType code "serial" (receive_open code guessed models armed)) = Some b ->
  assoc "serial" b = Some (VStr code) /\ assoc "code" b = Some (VStr code) /\ assoc "code_type" b = Some (VStr "serial").
Proof.
  intros Hw Hne. unfold receive_body, pickType, receive_open. cbn [r_model r_serial r_type]. destruct (head models); [|done].
  assert (Hs : forall t, (if String.eqb "serial" "serial" && String.eqb (if String.eqb t "serial" then code else "") "" then code
                          else if String.eqb t "serial" then code else "") = code).
  { intros t. destruct (String.eqb t "serial"); [|done]. by rewrite (proj2 (String.eqb_neq _ _) Hne). }
  rewrite Hs, (trim_id code Hw), (proj2 (String.eqb_neq _ _) Hne). by intros [= <-].
Qed.
