(* ===== verification/ProfileEdit.v ===== *)
(** * The RackWire profile editor (screens4.jsx)

    A hardware model's port groups as a form: read from the library, edited, checked
    and turned back into the groups that are saved.  The check of a group throws; the
    caller does not catch it. *)

From Stdlib Require Import ZArith Lia Ascii.
From Corelib Require Import SpecFloat.
From stdpp Require Import strings pretty list.
From S2P Require Import Prelude JsNum JsValue ProvStacks ProvSpec Catalog InvForms FleetUpdates.

Local Open Scope string_scope.
Local Open Scope list_scope.
Local Open Scope Z_scope.

(** ** Connectors and groups *)

Record cspec := CSpec { s_glyph : string; s_domain : string; s_conn : string; s_role : string }.

Definition connectors : list (string * cspec) :=
  [("rj45", CSpec "rj45" "net" "rj45" "lan"); ("sfp", CSpec "sfp" "net" "sfp" "uplink"); ("usba", CSpec "usba" "usb" "usba" "data");
   ("usbc", CSpec "usbc" "usb" "usbc" "data"); ("iec_in", CSpec "iec_in" "power" "iec" "power-in"); ("iec_out", CSpec "iec_out" "power" "iec" "power-out");
   ("nema", CSpec "nema" "power" "iec" "power-out"); ("barrel", CSpec "barrel" "power" "barrel" "power-in"); ("hdmi", CSpec "hdmi" "other" "hdmi" "video")].

(** A group of the form. *)
Record fgroup := FGroup { g_label : string; g_conn : string; g_count : num; g_gbps : string; g_watts : string; g_poe : string; g_poeW : string }.

(** A group of a profile. *)
Record pgroup := PGroup { p_k : string; p_label : string; p_glyph : string; p_count : Z; p_rows : Z; p_role : string; p_domain : string;
                          p_conn : string; p_gbps : option num; p_watts : option num; p_poe : option (string * num) }.

Definition blankGroup : fgroup := FGroup "Ethernet" "rj45" (ofZ 1) "1" "" "" "".

(** ** From the library to the form *)

Fixpoint drop_ws (l : list ascii) : list ascii := match l with c :: r => if is_ws c then drop_ws r else l | [] => [] end.

Fixpoint drop_digits (l : list ascii) : list ascii := match l with c :: r => if is_digit c then drop_digits r else l | [] => [] end.

Definition times_rev : list ascii := rev (chars "×").

(** [/\s+×\s*\d+$/] on the reversed text: what is left of it. *)
Definition strip_rev (l : list ascii) : option (list ascii) :=
  let l1 := drop_digits l in
  if (length l1 <? length l)%nat then
    match drop_ws l1 with
    | a :: b :: l2 =>
        if bool_decide ([a; b] = times_rev) then
          let l3 := drop_ws l2 in if (length l3 <? length l2)%nat then Some l3 else None
        else None
    | _ => None
    end
  else None.

Definition of_chars (l : list ascii) : string := fold_right String "" l.

Definition strip_count (s : string) : string := match strip_rev (rev (chars s)) with Some l => of_chars (rev l) | None => s end.

Definition first_text (a b c : string) : string := if negb (String.eqb a "") then a else if negb (String.eqb b "") then b else c.

Definition num_text (o : option num) : string := match o with Some n => vstr (VNum n) | None => "" end.

Definition load_group (g : pgroup) : fgroup :=
  FGroup (strip_count (first_text (p_label g) (p_k g) "Ports"))
         (match List.find (fun kc => String.eqb (s_glyph kc.2) (p_glyph g)) connectors with Some kc => kc.1 | None => "rj45" end)
         (if p_count g =? 0 then ofZ 1 else ofZ (p_count g)) (num_text (p_gbps g)) (num_text (p_watts g))
         (match p_poe g with Some (s, _) => s | None => "" end) (num_text (snd <$> p_poe g)).

(** ** From the form to the profile *)

Definition text_num (s : string) : option num := if String.eqb s "" then None else Some (str_num s).

Definition out_of (hi : Z) (o : option num) : bool :=
  match o with Some n => negb (is_finite n) || nlt n (ofZ 0) || nlt (ofZ hi) n | None => false end.

Definition set_num (o : option num) : bool := match o with Some n => truthy (VNum n) | None => false end.

Definition count_of (n : num) : option Z := if is_integer n then Some (floorZ n) else None.

(** [label.toLowerCase().replace(/[^a-z0-9]+/g, "-")]; [gap]: a dash was just written. *)
Definition slug_char (c : ascii) : bool := is_digit c || ((97 <=? Ascii.nat_of_ascii c)%nat && (Ascii.nat_of_ascii c <=? 122)%nat).

Fixpoint dashed (gap : bool) (s : string) : string :=
  match s with
  | EmptyString => EmptyString
  | String c r => if slug_char c then String c (dashed false r) else if gap then dashed true r else String "-" (dashed true r)
  end.

Definition cut_head (s : string) : string := match s with String c r => if Ascii.eqb c "-" then r else s | EmptyString => s end.

Fixpoint cut_last (s : string) : string :=
  match s with String c EmptyString => if Ascii.eqb c "-" then EmptyString else s | String c r => String c (cut_last r) | EmptyString => s end.

Definition baseKey (label : string) : string :=
  let s := cut_last (cut_head (dashed false (toLowerCase label))) in if String.eqb s "" then "ports" else s.

(** [usedKeys[baseKey] || 0], on the keys used so far. *)
Definition used_count (used : list string) (b : string) : nat := length (List.filter (String.eqb b) used).

Definition key_of (b : string) (n : nat) : string := if (n =? 1)%nat then b else b +:+ "-" +:+ pretty (Z.of_nat n).

(** [None]: the group is thrown out. *)
Definition out_group (used : list string) (f : fgroup) : option pgroup :=
  spec ← assoc (g_conn f) connectors;
  count ← count_of (g_count f);
  let label := trim (g_label f) in
  let gbps := text_num (g_gbps f) in
  let watts := text_num (g_watts f) in
  let poeW := text_num (g_poeW f) in
  let poe := negb (String.eqb (g_poe f) "") in
  if String.eqb label "" || (count <? 1) || (48 <? count) || out_of 1000 gbps || out_of 100000 watts || out_of 1000 poeW ||
     (poe && negb (set_num poeW)) || (negb poe && set_num poeW)
  then None
  else
    let b := baseKey label in
    Some (PGroup (key_of b (S (used_count used b))) (label +:+ " ×" +:+ pretty count) (s_glyph spec) count (Z.max 1 ((count + 7) / 8))
                 (s_role spec) (s_domain spec) (s_conn spec)
                 (n ← gbps; if nlt (ofZ 0) n then Some n else None) (n ← watts; if nlt (ofZ 0) n then Some n else None)
                 (if poe then n ← poeW; Some (g_poe f, n) else None)).

Fixpoint out_groups (used : list string) (fs : list fgroup) : option (list pgroup) :=
  match fs with
  | [] => Some []
  | f :: r => g ← out_group used f; gs ← out_groups (baseKey (trim (g_label f)) :: used) r; Some (g :: gs)
  end.

(** The outcome of "Save": the exception leaves the click handler and nothing is shown. *)
Inductive saved := Thrown | Shown (e : string) | Sent (drawW poeBudgetW : option num) (groups : list pgroup).

Definition save (drawW poeBudgetW : string) (groups : list fgroup) : saved :=
  match out_groups [] groups with
  | None => Thrown
  | Some [] => Shown "Add at least one port group before saving."
  | Some out =>
      let watts := text_num drawW in
      let poeBudget := text_num poeBudgetW in
      if out_of 100000 watts then Shown "Device draw must be a number from 0 to 100,000 watts."
      else if out_of 100000 poeBudget then Shown "PoE budget must be a number from 0 to 100,000 watts."
      else Sent watts poeBudget out
  end.

Definition open_groups (profile : option (list pgroup)) : list fgroup :=
  match profile with Some (g :: gs) => map load_group (g :: gs) | _ => [blankGroup] end.

(** ** The label and its count *)

Lemma of_chars_chars s : of_chars (chars s) = s.
Proof. induction s as [|c s IH]; [done|]. cbn. unfold of_chars in IH. by rewrite IH. Qed.

Lemma drop_ws_app l m : l <> [] -> drop_ws l = l -> drop_ws (l ++ m) = l ++ m.
Proof.
  destruct l as [|c l]; [done|]. intros _. cbn. destruct (is_ws c); [|done]. intros H. exfalso.
  assert (Hl : forall k, (length (drop_ws k) <= length k)%nat) by (induction k as [|x k IH]; [done|cbn; destruct (is_ws x); cbn; lia]).
  specialize (Hl l). rewrite H in Hl. cbn in Hl. lia.
Qed.

Lemma trimEnd_no_ws s : drop_ws (rev (chars (trimEnd s))) = rev (chars (trimEnd s)).
Proof.
  induction s as [|c s IH]; [done|]. cbn [trimEnd]. destruct (is_ws c) eqn:Ec, (String.eqb_spec (trimEnd s) "") as [E|E]; cbn [andb]; try done;
    cbn [chars]; change (rev (c :: chars (trimEnd s))) with (rev (chars (trimEnd s)) ++ [c]).
  - apply drop_ws_app; [|done]. by destruct (trimEnd s); [|cbn; intros [_ ?]%app_eq_nil].
  - rewrite E. cbn. by rewrite Ec.
  - apply drop_ws_app; [|done]. by destruct (trimEnd s); [|cbn; intros [_ ?]%app_eq_nil].
Qed.

Lemma drop_digits_app d l : forallb is_digit d = true -> drop_digits (d ++ l) = drop_digits l.
Proof. induction d as [|c d IH]; [done|]. cbn. intros [-> H]%andb_prop. by apply IH. Qed.

Lemma forallb_rev {A} (p : A -> bool) l : forallb p (rev l) = forallb p l.
Proof. induction l as [|x l IH]; [done|]. cbn. rewrite forallb_app, IH. cbn. by rewrite andb_true_r, andb_comm. Qed.

Lemma strip_count_label s n : 0 <= n -> strip_count (trim s +:+ " ×" +:+ pretty n) = trim s.
Proof.
  intros Hn. destruct (pretty_digits n Hn) as (Hne & Hd & _). unfold strip_count.
  rewrite !chars_app, !rev_app_distr. rewrite <- app_assoc.
  change (rev (chars " ×")) with (times_rev ++ [" "%char]). rewrite <- app_assoc. rewrite sall_chars, <- forallb_rev in Hd.
  set (d := rev (chars (pretty n))) in *. set (l := rev (chars (trim s))).
  assert (Hdn : (0 < length d)%nat) by (unfold d; rewrite length_rev, length_chars; by destruct (pretty n); cbn; [|lia]).
  unfold strip_rev. rewrite drop_digits_app by done. change (drop_digits (times_rev ++ [" "%char] ++ l)) with (times_rev ++ [" "%char] ++ l).
  rewrite (proj2 (Nat.ltb_lt (length (times_rev ++ [" "%char] ++ l)) (length (d ++ times_rev ++ [" "%char] ++ l)))) by (rewrite (length_app d); lia).
  change (drop_ws (times_rev ++ [" "%char] ++ l)) with (times_rev ++ [" "%char] ++ l). unfold times_rev. cbn [chars rev app].
  assert (Hl : drop_ws l = l) by apply trimEnd_no_ws.
  rewrite bool_decide_eq_true_2 by done. change (drop_ws (" "%char :: l)) with (drop_ws l). rewrite !Hl.
  cbn [length]. rewrite (proj2 (Nat.ltb_lt _ _)) by lia. unfold l. by rewrite rev_involutive, of_chars_chars.
Qed.

(** ** Reading back what was saved *)

(** [Number(String(n)) === n]. *)
Definition num_back (n : num) : Prop := str_num (vstr (VNum n)) = n /\ vstr (VNum n) <> "".

Definition text_back (g : pgroup) : Prop :=
  (forall n, p_gbps g = Some n -> num_back n) /\ (forall n, p_watts g = Some n -> num_back n) /\ (forall s n, p_poe g = Some (s, n) -> num_back n).

Lemma text_num_back o : (forall n, o = Some n -> num_back n) -> text_num (num_text o) = o.
Proof. destruct o as [n|]; [|done]. intros H. destruct (H n eq_refl) as [E Hne]. unfold text_num. cbn [num_text]. by rewrite (proj2 (String.eqb_neq _ _) Hne), E. Qed.

Lemma find_connector k spec : assoc k connectors = Some spec -> fst <$> List.find (fun kc => String.eqb (s_glyph kc.2) (s_glyph spec)) connectors = Some k.
Proof.
  cbn. repeat (match goal with |- context [String.eqb k ?x] => destruct (String.eqb_spec k x) as [-> |?] end; [intros [= <-]; reflexivity|]). done.
Qed.

Lemma count_back z : 1 <= z <= 48 -> count_of (ofZ z) = Some z.
Proof. intros H. unfold count_of. rewrite is_integer_ofZ, floorZ_ofZ by lia. done. Qed.

Lemma positive_range (hi : Z) (o : option num) : out_of hi o = false -> out_of hi (n ← o; if nlt (ofZ 0) n then Some n else None) = false.
Proof. destruct o as [n|]; [|done]. cbn [mbind option_bind]. intros H. by destruct (nlt (ofZ 0) n). Qed.

Lemma positive_again (o : option num) :
  (n ← (n ← o; if nlt (ofZ 0) n then Some n else None); if nlt (ofZ 0) n then Some n else None) = (n ← o; if nlt (ofZ 0) n then Some n else None).
Proof. destruct o as [n|]; [|done]. cbn [mbind option_bind]. destruct (nlt (ofZ 0) n) eqn:E; [|done]. cbn [mbind option_bind]. by rewrite E. Qed.

Lemma out_load used f g : out_group used f = Some g -> text_back g ->
  out_group used (load_group g) = Some g /\ trim (g_label (load_group g)) = trim (g_label f).
Proof.
  unfold out_group at 1. destruct (assoc (g_conn f) connectors) as [spec|] eqn:Es; [|done]. cbn [mbind option_bind].
  destruct (count_of (g_count f)) as [z|] eqn:Ez; [|done]. cbn [mbind option_bind].
  set (gb := text_num (g_gbps f)). set (wt := text_num (g_watts f)). set (pw := text_num (g_poeW f)).
  destruct (_ || _) eqn:Hbad; [done|]. rewrite !orb_false_iff in Hbad. destruct Hbad as [[[[[[[Hl H1] H2] H3] H4] H5] H6] H7].
  intros [= <-] (B1 & B2 & B3). cbn [p_gbps p_watts p_poe] in *. apply Z.ltb_ge in H1, H2.
  assert (Hlab : strip_count (first_text (trim (g_label f) +:+ " ×" +:+ pretty z) (key_of (baseKey (trim (g_label f))) (S (used_count used (baseKey (trim (g_label f)))))) "Ports") = trim (g_label f)).
  { unfold first_text. replace (String.eqb (trim (g_label f) +:+ " ×" +:+ pretty z) "") with false by (by destruct (trim (g_label f))). apply strip_count_label. lia. }
  assert (B3' : forall n, (snd <$> (if negb (String.eqb (g_poe f) "") then n ← pw; Some (g_poe f, n) else None)) = Some n -> num_back n).
  { intros n. destruct (negb (String.eqb (g_poe f) "")); [|done]. destruct pw as [w|]; [|done]. cbn. intros [= <-]. by apply (B3 (g_poe f)). }
  split.
  - unfold out_group, load_group. cbn [g_conn g_count g_label g_gbps g_watts g_poe g_poeW p_glyph p_count p_label p_k p_gbps p_watts p_poe].
    pose proof (find_connector _ _ Es) as Hf. destruct (List.find _ connectors) as [kc|]; [|done]. injection Hf as ->. rewrite Es. cbn [mbind option_bind].
    rewrite (proj2 (Z.eqb_neq z 0)) by lia. rewrite count_back by lia. cbn [mbind option_bind]. rewrite Hlab, trim_trim, Hl.
    rewrite (proj2 (Z.ltb_ge z 1)), (proj2 (Z.ltb_ge 48 z)) by lia. 
    rewrite (text_num_back _ B1), (text_num_back _ B2), (text_num_back _ B3').
    rewrite !positive_range, !positive_again by done. cbn [orb].
    destruct (String.eqb_spec (g_poe f) "") as [E|E]; cbn [negb andb orb] in *; [done|].
    destruct pw as [w|]; [|done]. cbn [mbind option_bind fmap option_fmap option_map snd]. rewrite (proj2 (String.eqb_neq _ _) E). cbn [negb andb orb].
    cbn [set_num] in H6 |- *. rewrite H6, H5. done.
  - cbn [g_label load_group p_label p_k]. by rewrite Hlab, trim_trim.
Qed.

(** ** Keys *)

Lemma dash_split d d' : sall is_digit d = true -> sall is_digit d' = true -> forall b b', b +:+ "-" +:+ d = b' +:+ "-" +:+ d' -> b = b' /\ d = d'.
Proof.
  intros Hd Hd'. assert (Hno : forall x e y, sall is_digit e = true -> e = x +:+ String "-" y -> False).
  { intros x e y He ->. rewrite sall_app in He. apply andb_prop in He as [_ He]. done. }
  induction b as [|c b IH]; intros [|c' b'] E; cbn in E.
  - injection E as E. split; [done|exact E].
  - injection E as <- E. exfalso. exact (Hno b' d d' Hd E).
  - injection E as -> E. exfalso. symmetry in E. exact (Hno b d' d Hd' E).
  - injection E as -> E. destruct (IH b' E) as [-> ->]. done.
Qed.

(** No numbered ending of its own. *)
Definition clean (b : string) : Prop := forall p n, b <> p +:+ "-" +:+ pretty (Z.of_nat n).

Lemma key_inj b n b' n' : clean b -> clean b' -> (1 <= n)%nat -> (1 <= n')%nat -> key_of b n = key_of b' n' -> b = b' /\ n = n'.
Proof.
  intros Hc Hc' Hn Hn'. unfold key_of. destruct (Nat.eqb_spec n 1) as [-> |H1], (Nat.eqb_spec n' 1) as [-> |H1']; intros E.
  - done.
  - exfalso. by apply (Hc b' n').
  - exfalso. by apply (Hc' b n).
  - apply dash_split in E as [-> E]; [|by apply pretty_digits; lia..]. split; [done|]. apply Nat2Z.inj. by apply (inj pretty) in E.
Qed.

Lemma used_cons used b b' : (used_count used b' <= used_count (b :: used) b')%nat /\ used_count (b :: used) b = S (used_count used b).
Proof. unfold used_count. cbn. rewrite String.eqb_refl. cbn. destruct (String.eqb b' b); cbn; lia. Qed.

Lemma out_keys fs : forall used gs, Forall (fun f => clean (baseKey (trim (g_label f)))) fs -> out_groups used fs = Some gs ->
  Forall (fun g => exists b n, p_k g = key_of b n /\ (used_count used b < n)%nat /\ clean b) gs /\ NoDup (map p_k gs).
Proof.
  induction fs as [|f fs IH]; intros used gs Hc H; [injection H as <-; split; constructor|]. apply Forall_cons in Hc as [Hf Hc]. cbn [out_groups] in H.
  destruct (out_group used f) as [g|] eqn:Eg; [|done]. cbn [mbind option_bind] in H. set (b0 := baseKey (trim (g_label f))) in *.
  destruct (out_groups (b0 :: used) fs) as [gs'|] eqn:E; [|done]. injection H as <-. destruct (IH _ _ Hc E) as [HF Hn].
  assert (Hk : p_k g = key_of b0 (S (used_count used b0))).
  { revert Eg. unfold out_group. destruct (assoc _ _); [|done]. cbn [mbind option_bind]. destruct (count_of _); [|done]. cbn [mbind option_bind].
    destruct (_ || _); [done|]. by intros [= <-]. }
  split.
  - constructor; [exists b0, (S (used_count used b0)); split_and!; [done|lia|done]|]. eapply Forall_impl; [exact HF|].
    intros h (b & n & Hh & Hlt & Hb). exists b, n. split_and!; [done| |done]. pose proof (used_cons used b0 b). lia.
  - cbn [map]. apply NoDup_cons. split; [|done]. intros Hin. apply list_elem_of_In, in_map_iff in Hin as (h & Eh & Hin).
    rewrite Forall_forall in HF. apply list_elem_of_In, HF in Hin as (b & n & Hh & Hlt & Hb). rewrite Hk, Hh in Eh.
    apply key_inj in Eh as [-> ->]; [|done|done|lia|lia]. pose proof (used_cons used b0 b0). lia.
Qed.

Lemma out_groups_load fs : forall used gs, out_groups used fs = Some gs -> Forall text_back gs -> out_groups used (map load_group gs) = Some gs.
Proof.
  induction fs as [|f fs IH]; intros used gs H Hb; [by injection H as <-|]. cbn [out_groups] in H.
  destruct (out_group used f) as [g|] eqn:Eg; [|done]. cbn [mbind option_bind] in H.
  destruct (out_groups (baseKey (trim (g_label f)) :: used) fs) as [gs'|] eqn:E; [|done]. injection H as <-.
  apply Forall_cons in Hb as [Hg Hb]. destruct (out_load used f g Eg Hg) as [E1 E2]. cbn [map out_groups]. rewrite E1, E2. cbn [mbind option_bind].
  by rewrite (IH _ _ E Hb).
Qed.


Definition demo_groups : list fgroup :=
  [FGroup " Uplink " "sfp" (ofZ 2) "10" "" "" ""; FGroup "LAN" "rj45" (ofZ 24) "2.5" "" "at" "30"; FGroup "LAN" "rj45" (ofZ 8) "0" "15" "" ""].

Definition demo_out : list pgroup := Eval vm_compute in default [] (out_groups [] demo_groups).

