(* ===== verification/InvBoards.v ===== *)
(** * The inventory's tables and project boards (screens4.jsx)

    The components table (filter, sort, page, totals), the receipts tab, the columns
    and the shopping list of a project's board, and the drafts their dialogs save. *)

From Stdlib Require Import ZArith Lia Sorted.
From stdpp Require Import strings pretty relations list.
From S2P Require Import Prelude JsNum JsValue ProvStacks TopoLayout Dns InvForms Allocations.

Local Open Scope string_scope.
Local Open Scope list_scope.
Local Open Scope Z_scope.

(** ** The components table *)

(** A row with the labels the helpers give it. *)
Record crow := CRow { c_id : Z; c_label : string; c_serial : string; c_tag : string; c_place : string; c_licence : string;
                      c_stock : string; c_qty : Z; c_cost : Z }.

Definition or1 (z : Z) : Z := if z =? 0 then 1 else z.

Definition inventory_value (l : list crow) : Z := fold_left (fun a u => a + c_cost u * or1 (c_qty u)) l 0.

Definition in_use (u : crow) : bool := String.eqb (c_stock u) "allocated" || String.eqb (c_stock u) "deployed".

Definition hay (u : crow) : string := toLowerCase (String.concat " " [c_label u; c_serial u; c_tag u; c_place u; c_licence u]).

Definition matches (q stock : string) (u : crow) : bool :=
  (String.eqb stock "all" || String.eqb (c_stock u) stock) &&
  (let ql := toLowerCase (trim q) in String.eqb ql "" || contains ql (hay u)).

Inductive column := ByModel | BySerial | ByTag | ByPlace | ByQty | ByStock | ByCost.

#[global] Instance column_eq_dec : EqDecision column.
Proof. solve_decision. Defined.

(** [keyOf(a) <= keyOf(b)]. *)
Definition key_le (k : column) (a b : crow) : bool :=
  let text f := string_le (toLowerCase (f a)) (toLowerCase (f b)) in
  match k with
  | ByModel => text c_label
  | BySerial => text c_serial
  | ByTag => text c_tag
  | ByPlace => text c_place
  | ByStock => string_le (c_stock a) (c_stock b)
  | ByQty => c_qty a <=? c_qty b
  | ByCost => c_cost a <=? c_cost b
  end.

(** The comparator is at most 0: less, equal with the smaller id, or the reverse. *)
Definition row_le (k : column) (up : bool) (a b : crow) : bool :=
  if negb (key_le k b a) then up else if negb (key_le k a b) then negb up else c_id a <=? c_id b.

(** A click on a column's head. *)
Definition click (k : column) (s : column * bool) : column * bool := (k, if decide (s.1 = k) then negb s.2 else true).

Definition table (q stock : string) (s : column * bool) (l : list crow) : list crow :=
  sort_by (row_le s.1 s.2) (List.filter (matches q stock) l).

Definition PAGE : nat := 100.

(** [Math.max(1, Math.ceil(n / pageSize))]. *)
Definition page_count (n : nat) : nat := Nat.max 1 ((n + (PAGE - 1)) / PAGE).

Definition visible {A} (page : nat) (rows : list A) : list A :=
  let active := Nat.min page (page_count (length rows) - 1) in take PAGE (drop (active * PAGE) rows).

(** ** Receipts *)

Record receipt := Receipt { rc_id : Z; rc_date : string; rc_subtotal : Z }.

Definition spend (l : list receipt) : Z := fold_left (fun a r => a + rc_subtotal r) l 0.

(** Newest first. *)
Definition receipt_le (a b : receipt) : bool :=
  if negb (string_le (rc_date a) (rc_date b)) then true else if negb (string_le (rc_date b) (rc_date a)) then false else rc_id b <=? rc_id a.

Definition sorted_receipts (l : list receipt) : list receipt := sort_by receipt_le l.

Record upload := Upload { up_name : string; up_mime : string; up_url : string }.

(** The draft the receipt dialog saves; its file itself goes beside it. *)
Definition receipt_draft (vendor date subtotal orderRef notes : string) (file : option upload) : list (string * value) :=
  let text s := opt_str (some_text (trim s)) in
  [("vendor", text vendor); ("purchased_on", opt_str (some_text date));
   ("subtotal_cents", if String.eqb subtotal "" then VNull else VNum (nround (nmul (parseFloat subtotal) (ofZ 100))));
   ("currency", VStr "USD"); ("order_ref", text orderRef);
   ("file_path", match file with Some f => VStr ("/srv/solari/receipts/" +:+ up_name f) | None => VNull end);
   ("file_mime", match file with Some f => VStr (up_mime f) | None => VNull end);
   ("scan", match file with Some f => if starts_with "image/" (up_mime f) then VStr (up_url f) else VNull | None => VNull end);
   ("notes", VStr (trim notes))].

(** ** A project's board *)

Definition board (p : project) (i : inv) : list alloc := List.filter (fun a => a_project a =? p_id p) (allocations i).

Definition shown_column (m : amode) (p : project) (i : inv) : list alloc := List.filter (fun a => bool_decide (a_mode a = m)) (board p i).

Definition BOARD_COLUMNS : list amode := [needed; committed; installed].

(** The cards on the board. *)
Definition cards (p : project) (i : inv) : list alloc := concat (map (fun m => shown_column m p i) BOARD_COLUMNS).

(** A needed model without an owned unit. *)
Definition to_buy (a : alloc) : option (Z * Z) :=
  match a_mode a, id_or (a_unit a) None, id_or (a_model a) None with
  | needed, None, Some m => Some (m, or1 (a_qty a))
  | _, _, _ => None
  end.

Fixpoint add_to (m n : Z) (l : list (Z * Z)) : list (Z * Z) :=
  match l with [] => [(m, n)] | (m', k) :: r => if m' =? m then (m', k + n) :: r else (m', k) :: add_to m n r end.

(** [shopMap]; the object lists its keys in ascending order. *)
Definition shopping (p : project) (i : inv) : list (Z * Z) :=
  sort_by (fun a b => a.1 <=? b.1) (fold_left (fun l mn => add_to mn.1 mn.2 l) (omap to_buy (board p i)) []).

(** What a click on a card of the boards does. *)
Inductive card_step (i : inv) : inv -> Prop :=
  | CCommit p u mode i' : mode = committed \/ mode = installed -> commitUnit p u mode i = Some i' -> card_step i i'
  | CNeed p model qty : card_step i (addNeeded p model qty i)
  | CInstalled p a : a ∈ cards p i -> a_mode a = committed -> card_step i (setAllocation (a_id a) installed i)
  | CUnInstall p a : a ∈ cards p i -> a_mode a = installed -> card_step i (setAllocation (a_id a) committed i)
  | CReturn p a : a ∈ cards p i -> a_mode a = committed \/ a_mode a = installed -> card_step i (setAllocation (a_id a) returned i)
  | CClear p a : a ∈ cards p i -> a_mode a = returned \/ a_mode a = needed -> card_step i (removeAllocation (a_id a) i).

(** The unit the commit dialog starts on: the first that is not committed. *)
Definition commit_default (i : inv) : option Z :=
  let committed_to u := List.find (fun a => bool_decide (a_unit a = Some (u_id u)) && (bool_decide (a_mode a = committed) || bool_decide (a_mode a = installed))) (allocations i) in
  match List.find (fun u => match committed_to u with Some a => a_project a =? 0 | None => true end) (units i) with
  | Some u => Some (u_id u)
  | None => u_id <$> head (units i)
  end.

Definition project_draft (name code status tray owner target desc : string) : option (list (string * value)) :=
  if String.eqb (trim name) "" then None
  else Some [("name", VStr (trim name)); ("code", opt_str (some_text (trim code))); ("status", VStr status);
             ("tray_location_id", if String.eqb tray "" then VNull else VNum (str_num tray)); ("owner", opt_str (some_text (trim owner)));
             ("target_on", opt_str (some_text target)); ("started_on", VNull); ("completed_on", VNull); ("description", VStr (trim desc))].

(** ** Sorting and paging *)

Lemma key_le_total k a b : key_le k a b = false -> key_le k b a = true.
Proof. destruct k; cbn; try apply string_le_total; intros H; apply Z.leb_gt in H; apply Z.leb_le; lia. Qed.

Lemma key_le_trans k a b c : key_le k a b = true -> key_le k b c = true -> key_le k a c = true.
Proof. destruct k; cbn; try apply string_le_trans; rewrite !Z.leb_le; lia. Qed.

(** Facts about decided booleans. *)
Ltac bool_facts :=
  repeat match goal with
  | H : ?x = ?x -> _ |- _ => specialize (H eq_refl)
  | H : true = false -> _ |- _ => clear H
  | H : false = true -> _ |- _ => clear H
  | H : false = true |- _ => discriminate H
  | H : true = false |- _ => discriminate H
  | H : true = true |- _ => clear H
  end.

Lemma row_le_total k up a b : row_le k up a b = false -> row_le k up b a = true.
Proof.
  unfold row_le. pose proof (key_le_total k a b). destruct (key_le k b a), (key_le k a b), up; cbn; bool_facts; try done;
    intros Hz%Z.leb_gt; apply Z.leb_le; lia.
Qed.

Lemma row_le_trans k up a b c : row_le k up a b = true -> row_le k up b c = true -> row_le k up a c = true.
Proof.
  unfold row_le. pose proof (key_le_trans k a b c). pose proof (key_le_trans k b c a). pose proof (key_le_trans k c a b).
  pose proof (key_le_trans k c b a). pose proof (key_le_trans k b a c). pose proof (key_le_trans k a c b).
  pose proof (key_le_total k a b). pose proof (key_le_total k b c). pose proof (key_le_total k a c).
  destruct (key_le k b a), (key_le k a b), (key_le k c b), (key_le k b c), (key_le k c a), (key_le k a c); bool_facts; destruct up; cbn; try done;
    rewrite !Z.leb_le; lia.
Qed.

Lemma pages_concat {A} (k n : nat) (l : list A) : concat (map (fun i => take k (drop (i * k) l)) (List.seq 0 n)) = take (n * k) l.
Proof.
  induction n as [|n IH]; [done|]. rewrite seq_S, map_app, concat_app, IH. cbn [map concat plus]. rewrite app_nil_r. rewrite take_take_drop. f_equal. lia.
Qed.

Lemma visible_pages {A} (rows : list A) : concat (map (fun i => visible i rows) (List.seq 0 (page_count (length rows)))) = rows.
Proof.
  transitivity (take (page_count (length rows) * PAGE) rows).
  - rewrite <- pages_concat. f_equal. apply map_ext_in. intros i Hi. apply in_seq in Hi. unfold visible. rewrite Nat.min_l by lia. done.
  - apply take_ge. unfold page_count. set (n := length rows). pose proof (Nat.div_mod_eq (n + (PAGE - 1)) PAGE).
    pose proof (Nat.mod_upper_bound (n + (PAGE - 1)) PAGE ltac:(done)). change (PAGE - 1)%nat with 99%nat in *. change PAGE with 100%nat in *. nia.
Qed.

(** The components table loses nothing.  Its pages, one after the other, are the
    rows that match the search and the stock filter, each exactly once, in the order
    of the chosen column and direction with ties by id; a page number past the end
    shows the last page; and a second click on a column's head reverses the order
    while keeping the rows. *)
Theorem component_pages_cover_the_matches (q stock : string) (s : column * bool) (l : list crow) :
  let rows := table q stock s l in
  concat (map (fun i => visible i rows) (List.seq 0 (page_count (length rows)))) = rows /\
  rows ≡ₚ List.filter (matches q stock) l /\
  StronglySorted (fun a b => row_le s.1 s.2 a b = true) rows /\
  (forall n, (page_count (length rows) <= n)%nat -> visible n rows = visible (page_count (length rows) - 1) rows) /\
  (click s.1 s).2 = negb s.2 /\ table q stock (click s.1 s) l ≡ₚ rows.
Proof.
  intros rows. split_and!.
  - apply visible_pages.
  - apply sort_by_perm.
  - apply sort_by_sorted; [apply row_le_total|apply row_le_trans].
  - intros n Hn. unfold visible. rewrite !Nat.min_r by lia. done.
  - unfold click. by rewrite decide_True.
  - unfold rows, table. by rewrite !sort_by_perm.
Qed.

(** ** The board *)

Lemma cards_mode p i a : a ∈ cards p i -> a ∈ allocations i /\ a_mode a <> returned.
Proof.
  unfold cards. cbn [BOARD_COLUMNS map concat]. rewrite app_nil_r, !elem_of_app. unfold shown_column, board.
  intros [H|[H|H]]; rewrite list_elem_of_In, filter_In, filter_In, <- list_elem_of_In, bool_decide_eq_true in H; destruct H as [[? ?] E]; rewrite E; done.
Qed.

(** A step on another row leaves a row alone. *)
Lemma set_keeps i a b mode : NoDup (map a_id (allocations i)) -> a ∈ allocations i -> b ∈ allocations i -> a_mode a <> a_mode b ->
  a ∈ allocations (setAllocation (a_id b) mode i).
Proof.
  intros Hn Ha Hb Hm. cbn. apply list_elem_of_In, in_map_iff. exists a. split; [|by apply list_elem_of_In].
  destruct (Z.eqb_spec (a_id a) (a_id b)) as [E|]; [|done]. by rewrite (same_id _ a b Hn Ha Hb E) in Hm.
Qed.

Lemma returned_step i i' a : inv_ok i -> card_step i i' -> a ∈ allocations i -> a_mode a = returned -> a ∈ allocations i'.
Proof.
  intros [Hn _] Hs Ha Hm. destruct Hs as [p u mode i' _ E|p model qty|p b Hb E|p b Hb E|p b Hb E|p b Hb E].
  - unfold commitUnit in E. destruct (elsewhere p u i); [done|]. injection E as <-. cbn. apply elem_of_app. by left.
  - cbn. apply elem_of_app. by left.
  - apply cards_mode in Hb as [Hb ?]. apply set_keeps; congruence.
  - apply cards_mode in Hb as [Hb ?]. apply set_keeps; congruence.
  - apply cards_mode in Hb as [Hb ?]. apply set_keeps; congruence.
  - apply cards_mode in Hb as [Hb Hr]. cbn. apply list_elem_of_In, filter_In. split; [by apply list_elem_of_In|].
    destruct (Z.eqb_spec (a_id a) (a_id b)) as [E'|]; [|done]. rewrite (same_id _ a b Hn Ha Hb E') in Hm. done.
Qed.

Lemma card_board i i' : card_step i i' -> board_step i i'.
Proof.
  destruct 1 as [p u mode i' Hm E|p model qty|p b Hb E|p b Hb E|p b Hb E|p b Hb E].
  - by eapply Commit.
  - apply Need.
  - apply cards_mode in Hb as [Hb _]. by apply MarkInstalled.
  - apply cards_mode in Hb as [Hb _]. by apply UnInstall.
  - apply cards_mode in Hb as [Hb _]. by apply Return.
  - apply cards_mode in Hb as [Hb _]. by apply Clear.
Qed.

Lemma add_to_sum m n l : fold_right (fun x acc => x.2 + acc) 0 (add_to m n l) = n + fold_right (fun x acc => x.2 + acc) 0 l.
Proof. induction l as [|[m' k] l IH]; cbn; [lia|]. destruct (m' =? m); cbn; lia. Qed.

Lemma add_to_keys m n l : map fst (add_to m n l) = if bool_decide (m ∈ map fst l) then map fst l else map fst l ++ [m].
Proof.
  induction l as [|[m' k] l IH]; [done|]. cbn [add_to]. destruct (Z.eqb_spec m' m) as [-> |Hne].
  - rewrite bool_decide_eq_true_2 by left. done.
  - cbn [map fst]. rewrite IH. destruct (decide (m ∈ map fst l)) as [H|H].
    + rewrite !bool_decide_eq_true_2 by (done || by right). done.
    + rewrite !bool_decide_eq_false_2; [done| |done]. rewrite elem_of_cons. naive_solver.
Qed.

Lemma shop_fold l : forall acc, NoDup (map fst acc) ->
  let out := fold_left (fun l mn => add_to mn.1 mn.2 l) l acc in
  NoDup (map fst out) /\ fold_right (fun x acc => x.2 + acc) 0 out = fold_right (fun x acc => x.2 + acc) 0 l + fold_right (fun x acc => x.2 + acc) 0 acc.
Proof.
  induction l as [|[m n] l IH]; intros acc Hn; [done|]. cbn [fold_left]. destruct (IH (add_to m n acc)) as [H1 H2].
  - rewrite add_to_keys. destruct (bool_decide_reflect (m ∈ map fst acc)) as [|Hm]; [done|]. apply NoDup_app. split_and!; [done| |apply NoDup_singleton].
    intros x Hx ->%list_elem_of_singleton. done.
  - split; [exact H1|]. cbn in H2 |- *. rewrite H2, add_to_sum. lia.
Qed.

Lemma sum_perm (l l' : list (Z * Z)) : l ≡ₚ l' -> fold_right (fun x acc => x.2 + acc) 0 l = fold_right (fun x acc => x.2 + acc) 0 l'.
Proof. induction 1; cbn; lia. Qed.

(** A project board and what it hides.  The shopping list names each model once and
    its quantities add up to those of the needed models nobody owns; the board shows
    every allocation of its project except the returned ones; and since only cards on
    the board have buttons, no sequence of clicks on any board ever clears a returned
    allocation: the "Clear" button its card would have cannot be reached. *)
Theorem boards_keep_returned_allocations (p : project) (i : inv) :
  (NoDup (map fst (shopping p i)) /\
   fold_right (fun x acc => x.2 + acc) 0 (shopping p i) = fold_right (fun x acc => x.2 + acc) 0 (omap to_buy (board p i))) /\
  (forall a, a ∈ cards p i <-> a ∈ board p i /\ a_mode a <> returned) /\
  (inv_ok i -> forall i' a, rtc card_step i i' -> a ∈ allocations i -> a_mode a = returned -> a ∈ allocations i' /\ a ∉ cards p i').
Proof.
  split_and!.
  - unfold shopping. rewrite (sort_by_perm _ _). by apply (shop_fold _ []), NoDup_nil_2.
  - unfold shopping. rewrite (sum_perm _ _ (sort_by_perm _ _)). destruct (shop_fold (omap to_buy (board p i)) []) as [_ H]; [by apply NoDup_nil_2|]. rewrite H. cbn. lia.
  - intros a. split.
    + intros Ha. destruct (cards_mode p i a Ha) as [_ Hr]. split; [|done]. unfold cards in Ha. cbn [BOARD_COLUMNS map concat] in Ha. rewrite app_nil_r, !elem_of_app in Ha.
      unfold shown_column in Ha. rewrite !list_elem_of_In, !filter_In in Ha. rewrite list_elem_of_In. tauto.
    + intros [Ha Hr]. unfold cards. cbn [BOARD_COLUMNS map concat]. rewrite app_nil_r, !elem_of_app. unfold shown_column.
      rewrite !list_elem_of_In, !filter_In, !bool_decide_eq_true, <- !list_elem_of_In. destruct (a_mode a); naive_solver.
  - intros Hok i' a Hs Ha Hm. assert (H : a ∈ allocations i').
    { revert Hok Ha. induction Hs as [|x y z Hxy _ IH]; intros Hok Ha; [done|]. apply IH; [by eapply board_step_ok, card_board|by eapply returned_step]. }
    split; [done|]. intros Hc. by apply cards_mode in Hc as [_ ?].
Qed.

Definition demo_project : project := Project 1 None.
Definition demo_inv : inv :=
  Inv [UnitRow 5 None allocated] [Alloc 1 1 (Some 5) None committed 1 false; Alloc 2 1 None (Some 9) needed 2 false; Alloc 3 1 None (Some 9) needed 0 false].

Lemma boards_keep_returned_allocations_witness :
  shopping demo_project demo_inv = [(9, 3)] /\
  (forall i', rtc card_step (setAllocation 1 returned demo_inv) i' -> Alloc 1 1 (Some 5) None returned 1 false ∈ allocations i').
Proof.
  split; [vm_compute; reflexivity|]. intros i' Hs.
  assert (HF : Forall (fun a => a_project a = 1) (allocations (setAllocation 1 returned demo_inv))) by (vm_compute; repeat constructor).
  rewrite Forall_forall in HF. assert (Hok : inv_ok (setAllocation 1 returned demo_inv)).
  { split; [by apply (bool_decide_unpack _), I|]. intros a b u Ha Hb _ _ _ _. by rewrite (HF a Ha), (HF b Hb). }
  destruct (boards_keep_returned_allocations demo_project (setAllocation 1 returned demo_inv)) as (_ & _ & H).
  apply (H Hok i' _ Hs); [left|reflexivity].
Defined.
