(* ===== verification/NetView.v ===== *)
(** * Reachability and topology views (screens2.jsx)

    The matrix of probe targets and monitors, and the topology page: which payload
    it shows while requests for two views race, and what a selection highlights. *)

From Stdlib Require Import ZArith Lia Sorted.
From stdpp Require Import strings pretty list.
From S2P Require Import Prelude JsNum JsValue ProvStacks TopoLayout Dns.

Local Open Scope string_scope.
Local Open Scope list_scope.
Local Open Scope Z_scope.

(** ** The matrix *)

Record vantage := Vantage { v_mon : Z; v_name : option string; v_outcome : string; v_rtt : Z; v_loss : Z }.
Record probe := Probe { pr_id : string; pr_proto : string; pr_state : string; pr_vantages : list vantage }.

Definition PROBE_ORD (st : string) : Z :=
  if String.eqb st "down" then 0 else if String.eqb st "degraded" then 1 else if String.eqb st "up" then 2 else if String.eqb st "unknown" then 3 else 4.

(** Problems first, then by target ([localeCompare] as the order of bytes). *)
Definition probe_le (a b : probe) : bool :=
  if PROBE_ORD (pr_state a) <? PROBE_ORD (pr_state b) then true
  else if PROBE_ORD (pr_state b) <? PROBE_ORD (pr_state a) then false else string_le (pr_id a) (pr_id b).

Definition probe_matches (proto stateF : string) (p : probe) : bool :=
  (String.eqb proto "all" || String.eqb (pr_proto p) proto) && (String.eqb stateF "all" || String.eqb (pr_state p) stateF).

Definition shown_probes (proto stateF : string) (l : list probe) : list probe := sort_by probe_le (List.filter (probe_matches proto stateF) l).

(** The last four characters: [slice(-4)]. *)
Definition mon_label (v : vantage) : string :=
  match v_name v with
  | Some n => if String.eqb n "" then "mon-" +:+ (let s := pretty (v_mon v) in sdrop (String.length s - 4) s) else n
  | None => "mon-" +:+ (let s := pretty (v_mon v) in sdrop (String.length s - 4) s)
  end.

(** [map.set]: a key keeps its place. *)
Fixpoint set_col (id : Z) (n : string) (l : list (Z * string)) : list (Z * string) :=
  match l with [] => [(id, n)] | (i, m) :: r => if i =? id then (i, n) :: r else (i, m) :: set_col id n r end.

Definition col_le (a b : Z * string) : bool := string_le a.2 b.2.

(** Computed once, when the page is mounted. *)
Definition monCols (l : list probe) : list (Z * string) :=
  sort_by col_le (fold_left (fun m v => set_col (v_mon v) (mon_label v) m) (concat (map pr_vantages l)) []).

Definition cellFor (p : probe) (mon : Z) : option vantage := List.find (fun v => v_mon v =? mon) (pr_vantages p).

Definition cell_tone (v : vantage) : string :=
  if negb (String.eqb (v_outcome v) "ok") then "var(--crit)" else if 0 <? v_loss v then "var(--warn)" else "var(--ok)".

(** The cells of a row, under the columns of the page. *)
Definition row_cells (cols : list (Z * string)) (p : probe) : list (option vantage) := map (fun c => cellFor p c.1) cols.

Definition roll (st : string) (l : list probe) : nat := length (List.filter (fun p => String.eqb (pr_state p) st) l).

(** [Math.round] of a mean of integers. *)
Definition avgRtt (l : list probe) : Z :=
  let r := map v_rtt (List.filter (fun v => String.eqb (v_outcome v) "ok") (concat (map pr_vantages l))) in
  match r with [] => 0 | _ => let n := Z.of_nat (length r) in (2 * fold_left Z.add r 0 + n) / (2 * n) end.

(** ** The topology page *)

Inductive tview := Monitoring | Network.

#[global] Instance tview_eq_dec : EqDecision tview.
Proof. solve_decision. Defined.

Record edge := Edge { e_from : Z; e_to : Z }.
Record payload := Payload { py_view : tview; py_nodes : list Z; py_edges : list edge }.

Inductive selection := SelNode (id : Z) | SelEdge (i : nat).

(** [flights]: the views requested; the effect that asked is alive when it is the last. *)
Record tpage := TPage { tv : tview; shown : option payload; t_live : bool; t_sel : option selection; gen : nat; flights : list (nat * tview) }.

Inductive tevent := TView (v : tview) | TAnswer (i : nat) (p : option payload) | TSelect (s : option selection).

Section Page.
(** [synthTopology] and whether the page is offline. *)
Context (synthTopology : tview -> payload) (offline : bool).

Definition fetch (v : tview) (t : tpage) : tpage :=
  if offline then TPage v (Some (synthTopology v)) false None (S (gen t)) (flights t)
  else TPage v None (t_live t) None (S (gen t)) (flights t ++ [(S (gen t), v)]).

Definition tmount : tpage := fetch Monitoring (TPage Monitoring None false None 0 []).

Definition tstep (t : tpage) (e : tevent) : tpage :=
  match e with
  | TView v => if decide (v = tv t) then t else fetch v t
  | TAnswer i p =>
      match flights t !! i with
      | Some (g, v) =>
          let fl := take i (flights t) ++ drop (S i) (flights t) in
          if Nat.eqb g (gen t) then
            match p with
            | Some q => TPage (tv t) (Some q) true (t_sel t) (gen t) fl
            | None => TPage (tv t) (Some (synthTopology v)) false (t_sel t) (gen t) fl
            end
          else TPage (tv t) (shown t) (t_live t) (t_sel t) (gen t) fl
      | None => t
      end
  | TSelect s => TPage (tv t) (shown t) (t_live t) s (gen t) (flights t)
  end.

Definition trun (es : list tevent) : tpage := fold_left tstep es tmount.

(** The nodes a selection lights; [None] when nothing is dimmed. *)
Definition activeNodes (p : payload) (s : option selection) : option (list Z) :=
  match s with
  | None => None
  | Some (SelEdge i) => match py_edges p !! i with Some e => Some [e_from e; e_to e] | None => None end
  | Some (SelNode id) =>
      Some (id :: concat (map (fun e => (if e_from e =? id then [e_to e] else []) ++ (if e_to e =? id then [e_from e] else [])) (py_edges p)))
  end.

(** ** Properties *)

(** Answers are for the view that was asked for. *)
Definition t_honest (t : tpage) (e : tevent) : Prop :=
  match e with TAnswer i (Some p) => forall g v, flights t !! i = Some (g, v) -> py_view p = v | _ => True end.

Fixpoint t_run_ok (t : tpage) (es : list tevent) : Prop := match es with [] => True | e :: es => t_honest t e /\ t_run_ok (tstep t e) es end.

Definition t_ok (t : tpage) : Prop :=
  (forall p, shown t = Some p -> py_view p = tv t) /\ Forall (fun f => (f.1 <= gen t)%nat /\ (f.1 = gen t -> f.2 = tv t)) (flights t) /\
  (shown t = None -> (gen t, tv t) ∈ flights t).

Lemma t_ok_fetch v t : (forall w, py_view (synthTopology w) = w) -> t_ok t -> t_ok (fetch v t).
Proof.
  intros Hs (H1 & H2 & H3). unfold fetch. destruct offline; split_and!; cbn.
  - by intros p [= <-].
  - eapply Forall_impl; [exact H2|]. cbn. intros f [? ?]. split; [lia|lia].
  - done.
  - done.
  - apply Forall_app. split; [|by apply Forall_singleton]. eapply Forall_impl; [exact H2|]. cbn. intros f [? ?]. split; lia.
  - intros _. apply elem_of_app. right. left.
Qed.

Lemma t_ok_step t e : (forall w, py_view (synthTopology w) = w) -> t_honest t e -> t_ok t -> t_ok (tstep t e).
Proof.
  intros Hs Hh (H1 & H2 & H3). destruct e; cbn [tstep].
  - destruct (decide (v = tv t)); [by split_and!|]. apply t_ok_fetch; [done|by split_and!].
  - destruct (flights t !! i) as [[g v]|] eqn:Ei; [|by split_and!]. pose proof (Forall_lookup_1 _ _ _ _ H2 Ei) as [Hg Hv]. cbn in Hg, Hv.
    assert (HF : Forall (fun f => (f.1 <= gen t)%nat /\ (f.1 = gen t -> f.2 = tv t)) (take i (flights t) ++ drop (S i) (flights t))).
    { apply Forall_app. split; [by apply Forall_take|by apply Forall_drop]. }
    destruct (Nat.eqb_spec g (gen t)) as [E|E].
    + destruct p as [p|]; split_and!; cbn; try done; intros q [= <-]; [rewrite (Hh g v Ei); by apply Hv|rewrite Hs; by apply Hv].
    + split_and!; cbn; try done. intros Hn. specialize (H3 Hn). rewrite <- (take_drop_middle _ _ _ Ei), elem_of_app, elem_of_cons in H3. rewrite elem_of_app.
      destruct H3 as [?|[H3|?]]; [by left|congruence|by right].
  - by split_and!.
Qed.

(** The topology page shows the view that is chosen.  However often the view is
    switched and in whatever order the answers come, the picture shown is of the view
    of the buttons, an answer for a view left behind is dropped, and a page without a
    picture has the request for its view under way; a failed request shows the
    synthesised picture of that same view. *)
Theorem topology_shows_the_chosen_view (es : list tevent) :
  (forall w, py_view (synthTopology w) = w) -> t_run_ok tmount es ->
  let t := trun es in
  (forall p, shown t = Some p -> py_view p = tv t) /\ (shown t = None -> (gen t, tv t) ∈ flights t).
Proof.
  intros Hs He t. assert (H : t_ok t); [|by destruct H as (? & _ & ?)]. unfold t, trun.
  assert (H0 : t_ok tmount).
  { apply (t_ok_fetch Monitoring (TPage Monitoring (Some (synthTopology Monitoring)) false None 0 []) Hs). split_and!; [by intros p [= <-]|constructor|done]. }
  revert He H0. generalize tmount. induction es as [|e es IH]; intros t0 He H0; [done|]. destruct He as [He Hes]. cbn [fold_left]. apply IH; [done|]. by apply t_ok_step.
Qed.
End Page.

(** What a node lights is itself and exactly its neighbours. *)
Lemma active_neighbours p id x l : activeNodes p (Some (SelNode id)) = Some l ->
  x ∈ l <-> x = id \/ exists e, e ∈ py_edges p /\ (e_from e = id /\ e_to e = x \/ e_to e = id /\ e_from e = x).
Proof.
  intros [= <-]. rewrite elem_of_cons, list_elem_of_In, in_concat. split; (intros [H|H]; [by left|right]).
  - destruct H as (y & Hy & Hx). apply in_map_iff in Hy as (e & <- & He). exists e. split; [by apply list_elem_of_In|].
    apply in_app_iff in Hx. destruct (Z.eqb_spec (e_from e) id), (Z.eqb_spec (e_to e) id); cbn in Hx; naive_solver.
  - destruct H as (e & He & Hx). eexists. split; [apply in_map_iff; exists e; split; [done|by apply list_elem_of_In]|]. apply in_app_iff.
    destruct Hx as [[<- <-]|[<- <-]]; rewrite Z.eqb_refl; [left; by left|right; by left].
Qed.

(** ** The matrix *)

Lemma set_col_keys id n l : map fst (set_col id n l) = if bool_decide (id ∈ map fst l) then map fst l else map fst l ++ [id].
Proof.
  induction l as [|[i m] l IH]; [done|]. cbn [set_col]. destruct (Z.eqb_spec i id) as [-> |Hne].
  - rewrite bool_decide_eq_true_2 by left. done.
  - cbn [map fst]. rewrite IH. destruct (decide (id ∈ map fst l)) as [H|H].
    + rewrite !bool_decide_eq_true_2 by (done || by right). done.
    + rewrite !bool_decide_eq_false_2; [done| |done]. rewrite elem_of_cons. naive_solver.
Qed.

Lemma cols_fold l : forall m, NoDup (map fst m) ->
  let out := fold_left (fun m v => set_col (v_mon v) (mon_label v) m) l m in
  NoDup (map fst out) /\ forall x, x ∈ map fst out <-> x ∈ map fst m \/ x ∈ map v_mon l.
Proof.
  induction l as [|v l IH]; intros m Hn; cbn [fold_left map].
  - split; [done|]. intros x. rewrite elem_of_nil. tauto.
  - destruct (IH (set_col (v_mon v) (mon_label v) m)) as [H1 H2].
    + rewrite set_col_keys. destruct (bool_decide_reflect (v_mon v ∈ map fst m)) as [|Hm]; [done|]. apply NoDup_app. split_and!; [done| |apply NoDup_singleton].
      intros x Hx ->%list_elem_of_singleton. done.
    + split; [exact H1|]. intros x. rewrite H2, set_col_keys, elem_of_cons.
      destruct (bool_decide_reflect (v_mon v ∈ map fst m)) as [Hm|Hm]; [naive_solver|]. rewrite elem_of_app, list_elem_of_singleton. naive_solver.
Qed.

Lemma monCols_ids l : NoDup (map fst (monCols l)) /\ forall x, x ∈ map fst (monCols l) <-> exists p v, p ∈ l /\ v ∈ pr_vantages p /\ v_mon v = x.
Proof.
  unfold monCols. destruct (cols_fold (concat (map pr_vantages l)) []) as [H1 H2]; [constructor|].
  assert (HP : map fst (sort_by col_le (fold_left (fun m v => set_col (v_mon v) (mon_label v) m) (concat (map pr_vantages l)) [])) ≡ₚ
               map fst (fold_left (fun m v => set_col (v_mon v) (mon_label v) m) (concat (map pr_vantages l)) [])) by (apply Permutation_map, sort_by_perm).
  split; [by rewrite HP|]. intros x. rewrite HP, H2. rewrite !list_elem_of_In, (in_map_iff v_mon). split.
  - intros [[]|(v & <- & Hv)]. apply in_concat in Hv as (vs & Hvs & Hv). apply in_map_iff in Hvs as (p & <- & Hp). exists p, v. by rewrite !list_elem_of_In.
  - intros (p & v & Hp & Hv & <-). right. exists v. split; [done|]. apply in_concat. exists (pr_vantages p). apply list_elem_of_In in Hp. apply list_elem_of_In in Hv. split; [by apply in_map|done].
Qed.

Lemma probe_le_total a b : probe_le a b = false -> probe_le b a = true.
Proof.
  unfold probe_le. destruct (Z.ltb_spec (PROBE_ORD (pr_state a)) (PROBE_ORD (pr_state b))), (Z.ltb_spec (PROBE_ORD (pr_state b)) (PROBE_ORD (pr_state a)));
    try lia; try done. apply string_le_total.
Qed.

Lemma probe_le_trans a b c : probe_le a b = true -> probe_le b c = true -> probe_le a c = true.
Proof.
  unfold probe_le. destruct (Z.ltb_spec (PROBE_ORD (pr_state a)) (PROBE_ORD (pr_state b))), (Z.ltb_spec (PROBE_ORD (pr_state b)) (PROBE_ORD (pr_state a))),
    (Z.ltb_spec (PROBE_ORD (pr_state b)) (PROBE_ORD (pr_state c))), (Z.ltb_spec (PROBE_ORD (pr_state c)) (PROBE_ORD (pr_state b))),
    (Z.ltb_spec (PROBE_ORD (pr_state a)) (PROBE_ORD (pr_state c))), (Z.ltb_spec (PROBE_ORD (pr_state c)) (PROBE_ORD (pr_state a))); try lia; try done. apply string_le_trans.
Qed.

(** One vantage per monitor in a row. *)
Definition one_each (p : probe) : Prop := NoDup (map v_mon (pr_vantages p)).

Lemma cellFor_found p v : one_each p -> v ∈ pr_vantages p -> cellFor p (v_mon v) = Some v.
Proof.
  unfold one_each, cellFor. induction (pr_vantages p) as [|w l IH]; intros Hn Hv; [by apply not_elem_of_nil in Hv|]. cbn [map] in Hn. apply NoDup_cons in Hn as [Hw Hn].
  cbn [List.find]. apply elem_of_cons in Hv as [-> |Hv]; [by rewrite Z.eqb_refl|]. destruct (Z.eqb_spec (v_mon w) (v_mon v)) as [E|]; [|by apply IH].
  exfalso. apply Hw. rewrite E. by apply list_elem_of_fmap_2.
Qed.

(** The reachability matrix shows every measurement.  With the columns of the same
    probes, each monitor has one column, every vantage of a target that passes the
    filters is in the cell of its monitor, and a cell without a measurement is empty;
    the rows are the matching targets, the unreachable first, then those seen
    differently from different monitors.  The columns, though, are those of the moment
    the page was opened: a monitor that only a later refresh brings has no column, and
    what it measured is in no cell. *)
Theorem matrix_shows_every_vantage (l : list probe) (proto stateF : string) :
  Forall one_each l ->
  (NoDup (map fst (monCols l)) /\
   forall p, p ∈ shown_probes proto stateF l <-> p ∈ l /\ probe_matches proto stateF p = true) /\
  (forall p v, p ∈ l -> v ∈ pr_vantages p -> Some v ∈ row_cells (monCols l) p) /\
  StronglySorted (fun a b => PROBE_ORD (pr_state a) <= PROBE_ORD (pr_state b)) (shown_probes proto stateF l) /\
  (forall (old : list probe) p v, (forall q w, q ∈ old -> w ∈ pr_vantages q -> v_mon w <> v_mon v) -> p ∈ l -> v ∈ pr_vantages p -> Some v ∉ row_cells (monCols old) p).
Proof.
  intros Hone. destruct (monCols_ids l) as [Hn Hids]. split_and!; [done| | | |].
  - intros p. unfold shown_probes. rewrite sort_by_perm, list_elem_of_In, filter_In, <- list_elem_of_In. done.
  - intros p v Hp Hv. unfold row_cells. assert (Hin : v_mon v ∈ map fst (monCols l)) by (apply Hids; by exists p, v).
    apply list_elem_of_In, in_map_iff in Hin as (c & Ec & Hc). apply list_elem_of_In, in_map_iff. exists c. split; [|done]. rewrite Ec.
    rewrite Forall_forall in Hone. apply cellFor_found; [by apply Hone|done].
  - assert (H : StronglySorted (fun a b => probe_le a b = true) (shown_probes proto stateF l)) by (apply sort_by_sorted; [apply probe_le_total|apply probe_le_trans]).
    induction H as [|a r _ IH HF]; constructor; [done|]. eapply List.Forall_impl; [|exact HF]. cbn. intros b. unfold probe_le.
    destruct (Z.ltb_spec (PROBE_ORD (pr_state a)) (PROBE_ORD (pr_state b))), (Z.ltb_spec (PROBE_ORD (pr_state b)) (PROBE_ORD (pr_state a))); try lia; done.
  - intros old p v Hold Hp Hv Hin. unfold row_cells in Hin. apply list_elem_of_In, in_map_iff in Hin as (c & Ec & Hc).
    unfold cellFor in Ec. apply List.find_some in Ec as [_ Ec]. apply Z.eqb_eq in Ec. destruct (monCols_ids old) as [_ Ho].
    assert (Hm : c.1 ∈ map fst (monCols old)) by (apply list_elem_of_In, in_map, Hc). apply Ho in Hm as (q & w & Hq & Hw & E). by apply (Hold q w Hq Hw); rewrite E, Ec.
Qed.

Definition demo_probes : list probe :=
  [Probe "tcp:a" "tcp" "up" [Vantage 1 (Some "east") "ok" 900 0; Vantage 2 None "ok" 1100 5]; Probe "tcp:b" "tcp" "down" [Vantage 2 None "timeout" 0 1000]].

Lemma matrix_shows_every_vantage_witness :
  map pr_id (shown_probes "all" "all" demo_probes) = ["tcp:b"; "tcp:a"] /\ Some (Vantage 2 None "timeout" 0 1000) ∈ row_cells (monCols demo_probes) (Probe "tcp:b" "tcp" "down" [Vantage 2 None "timeout" 0 1000]).
Proof.
  split; [vm_compute; reflexivity|].
  destruct (matrix_shows_every_vantage demo_probes "all" "all") as (_ & H & _).
  - repeat constructor; by apply (bool_decide_unpack _), I.
  - apply H; [right; left|left].
Defined.

Definition demo_synth (v : tview) : payload := Payload v [] [].

Lemma topology_shows_the_chosen_view_witness :
  shown (trun demo_synth false [TView Network; TAnswer 0 (Some (Payload Monitoring [1] []))]) = None /\
  (forall p, shown (trun demo_synth false [TView Network; TAnswer 1 None]) = Some p -> py_view p = Network).
Proof.
  split; [reflexivity|].
  apply (topology_shows_the_chosen_view demo_synth false [TView Network; TAnswer 1 None]); [done|cbn; done].
Defined.
