(* ===== verification/ReadPages.v ===== *)
(** * The read-only pages: Git, certificates and the rest of DNS (screens6.jsx, screens7.jsx)

    Pages that fetch and show.  A page keeps what it has when a fetch fails; what the
    operator then sees is what these definitions and lemmas are about. *)

From Stdlib Require Import ZArith Lia.
From stdpp Require Import strings pretty list.
From S2P Require Import Prelude JsNum JsValue.

Local Open Scope string_scope.
Local Open Scope list_scope.
Local Open Scope Z_scope.

(** ** Ages *)

(** [Math.round] of [ms / d]. *)
Definition round_div (ms d : Z) : Z := (2 * ms + d) / (2 * d).

(** [agoLabel]: [None] is a missing or unreadable time; times in milliseconds. *)
Definition agoLabel (now : Z) (t : option Z) : string :=
  match t with
  | None => "—"
  | Some t =>
      let min := Z.max 0 (round_div (now - t) 60000) in
      if min <? 1 then "just now" else if min <? 60 then pretty min +:+ "m ago" else if min <? 1440 then pretty (min / 60) +:+ "h ago"
      else if min <? 43200 then pretty (min / 1440) +:+ "d ago" else pretty (min / 43200) +:+ "mo ago"
  end.

(** ** A page that fetches once *)

Section Fetch.
Context {D : Type}.

(** [data]: what is kept; the request ends with an answer, with an empty answer or
    with a failure. *)
Record fpage := FPage { f_data : option D; f_loading : bool }.

Inductive fevent := FAnswer (d : option D) | FFail.

(** [kept]: what the snapshot holds; [can]: there is a live API. *)
Definition fopen (kept : option D) (can : bool) : fpage := FPage kept (can && match kept with None => true | Some _ => false end).

Definition fstep (p : fpage) (e : fevent) : fpage := match e with FAnswer d => FPage d false | FFail => FPage (f_data p) false end.
End Fetch.
Arguments fpage : clear implicits.
Arguments fevent : clear implicits.

(** ** Git *)

Record git := Git { g_available : bool; g_reason : string; g_repos : nat; g_prs : nat; g_counts : option (Z * Z * Z) }.

(** Repositories, open issues and open pull requests. *)
Definition git_counts (g : git) : Z * Z * Z := match g_counts g with Some c => c | None => (Z.of_nat (g_repos g), 0, Z.of_nat (g_prs g)) end.

Definition git_view (p : fpage git) : string :=
  if f_loading p then "Loading repositories…"
  else match f_data p with
       | Some g => if g_available g then "" else if String.eqb (g_reason g) "" then "The Git integration is not configured." else g_reason g
       | None => "The Git integration is not configured."
       end.

(** ** Certificates *)

Inductive severity := SOk | SExpiring | SExpired | SUnknown | SOther.

Definition CERT_TONE (s : severity) : string :=
  match s with SOk => "var(--ok)" | SExpiring => "var(--warn)" | SExpired => "var(--crit)" | SUnknown | SOther => "var(--ink-faint)" end.

Definition pill_text (s : severity) (daysLeft : option Z) : string :=
  match s, daysLeft with SExpired, _ => "expired" | _, None => "unknown" | _, Some d => pretty d +:+ "d left" end.

Definition flagged (roots : list severity) : nat := length (List.filter (fun s => match s with SExpiring | SExpired => true | _ => false end) roots).

Record stepca := StepCa { sc_available : bool; sc_status : string; sc_reason : string }.

Definition caUp (s : option stepca) : bool :=
  match s with Some c => sc_available c && (String.eqb (sc_status c) "ok" || String.eqb (sc_status c) "unknown") | None => false end.

Record counts := Counts { n_current : Z; n_stale : Z; n_pending : Z; n_offline : Z; n_expired : Z }.
Record generation := Generation { gn_total : Z; gn_counts : counts; gn_expired : bool }.

(** The width of the rail, in per cent. *)
Definition fill (g : generation) : Z :=
  let current := n_current (gn_counts g) in
  if 0 <? gn_total g then Z.max 0 (Z.min 100 (round_div (current * 100) (gn_total g))) else 0.

Inductive rollout := RUnavailable (reason : string) | RNone | RList (gs : list generation).

(** [crl]: whether it is available, the reason and the generations. *)
Definition crl_view (crl : option (bool * string * list generation)) : rollout :=
  match crl with
  | Some (true, _, gs) => match gs with [] => RNone | _ => RList gs end
  | Some (false, r, _) => RUnavailable (if String.eqb r "" then "The CRL status endpoint is not available." else r)
  | None => RUnavailable "The CRL status endpoint is not available."
  end.

Definition CRL_STATUS (s : string) : string :=
  if String.eqb s "current" then "Current" else if String.eqb s "stale" then "Stale receipt" else if String.eqb s "offline" then "Offline"
  else if String.eqb s "expired" then "Expired generation" else "No receipt".

(** ** The health strip of DNS *)

Record zone := Zone { z_name : string; z_expected : list string; z_soa : list (string * (string * option Z)); z_parity : bool }.

(** What is shown for a server: its serial, a dash, or that it is not reachable. *)
Definition soa_text (z : zone) (server : string) : string :=
  match assoc server (z_soa z) with
  | Some (st, serial) => if String.eqb st "NOERROR" then match serial with Some n => pretty n | None => "—" end else "unreachable"
  | None => "unreachable"
  end.

Definition parity_badge (z : zone) : string := if z_parity z then "in sync" else "serials differ".

Record strip := Strip { s_health : option (list zone); s_loading : bool }.

Inductive sevent := STick (answer : option (option (list zone))).   (* [None]: the fetch failed *)

Definition strip_step (s : strip) (e : sevent) : strip :=
  match e with STick (Some d) => Strip d false | STick None => Strip (s_health s) false end.

Definition strip_view (s : strip) : string + list zone :=
  match s_health s with
  | Some (z :: zs) => inr (z :: zs)
  | Some [] => inl (if s_loading s then "" else "No zone health available.")
  | None => inl (if s_loading s then "Checking resolvers…" else "No zone health available.")
  end.

(** ** The preview of the next render *)

Record hosts := Hosts { h_hosts : list (string * string); h_ifaces : list (string * string); h_cnames : list (string * string) }.

Definition no_hosts : hosts := Hosts [] [] [].

(** [asked]: a request is under way. *)
Record preview := Preview { pv_hosts : option hosts; pv_asked : nat; pv_requests : nat }.

Inductive pvevent := POpen | PAnswer (d : option hosts) | PFail.

(** [can]: there is a live API. *)
Definition preview_step (can : bool) (p : preview) (e : pvevent) : preview :=
  match e with
  | POpen =>
      match pv_hosts p with
      | Some _ => p
      | None => if can then Preview None (S (pv_asked p)) (S (pv_requests p)) else Preview (Some no_hosts) (pv_asked p) (pv_requests p)
      end
  | PAnswer d => match pv_asked p with S n => Preview (Some (default no_hosts d)) n (pv_requests p) | O => p end
  | PFail => match pv_asked p with S n => Preview (Some no_hosts) n (pv_requests p) | O => p end
  end.

Definition preview_run (can : bool) (es : list pvevent) : preview := fold_left (preview_step can) es (Preview None 0 0).

(** ** Properties *)

Lemma round_div_bounds m d : 0 < d -> 2 * d * round_div m d <= 2 * m + d < 2 * d * (round_div m d + 1).
Proof. intros Hd. unfold round_div. pose proof (Z.div_mod (2 * m + d) (2 * d) ltac:(lia)). pose proof (Z.mod_pos_bound (2 * m + d) (2 * d) ltac:(lia)). lia. Qed.

(** What the revocation rail says.  The rail is never narrower than nothing nor wider
    than full, is empty without agents, grows with the number of agents that are
    current, and is full whenever all are; but it is also drawn full when some are
    not: with 200 agents or more, one agent without the current list still leaves a
    full rail, since the share is rounded and not cut. *)
Theorem revocation_rail (g : generation) :
  let c := n_current (gn_counts g) in
  0 <= fill g <= 100 /\
  (forall g', gn_total g' = gn_total g -> n_current (gn_counts g') <= c -> fill g' <= fill g) /\
  (0 < gn_total g -> gn_total g <= c -> fill g = 100) /\
  (200 <= gn_total g -> c = gn_total g - 1 -> fill g = 100) /\
  (0 < gn_total g < 200 -> 0 <= c < gn_total g -> fill g < 100).
Proof.
  intros c. split; [unfold fill; destruct (0 <? gn_total g); lia|]. split_and!.
  - intros g' Ht Hc. unfold fill. fold c. rewrite Ht. destruct (Z.ltb_spec 0 (gn_total g)) as [H|]; [|lia].
    pose proof (round_div_bounds (n_current (gn_counts g') * 100) (gn_total g) H). pose proof (round_div_bounds (c * 100) (gn_total g) H). nia.
  - intros H Hc. unfold fill. fold c. rewrite (proj2 (Z.ltb_lt _ _) H). pose proof (round_div_bounds (c * 100) (gn_total g) H). nia.
  - intros H Hc. unfold fill. fold c. rewrite (proj2 (Z.ltb_lt _ _)) by lia. pose proof (round_div_bounds (c * 100) (gn_total g) ltac:(lia)). nia.
  - intros H Hc. unfold fill. fold c. rewrite (proj2 (Z.ltb_lt _ _)) by lia. pose proof (round_div_bounds (c * 100) (gn_total g) ltac:(lia)). nia.
Qed.

Lemma revocation_rail_witness :
  fill (Generation 400 (Counts 399 1 0 0 0) false) = 100 /\ fill (Generation 10 (Counts 9 1 0 0 0) false) < 100.
Proof.
  split; [apply (revocation_rail (Generation 400 (Counts 399 1 0 0 0) false)); cbn; lia|].
  apply (revocation_rail (Generation 10 (Counts 9 1 0 0 0) false)); cbn; lia.
Defined.

(** A preview that could not be fetched is an empty one, for as long as the page stays
    open: opening the tab again asks for nothing, and "exactly what gen-zones will
    emit" shows no host, no interface and no alias. *)
Lemma failed_preview_reads_as_empty (es : list pvevent) :
  preview_run true (POpen :: PFail :: es) = Preview (Some no_hosts) 0 1 /\
  preview_run true (POpen :: PAnswer (Some no_hosts) :: es) = preview_run true (POpen :: PFail :: es).
Proof.
  assert (H : forall es, fold_left (preview_step true) es (Preview (Some no_hosts) 0 1) = Preview (Some no_hosts) 0 1).
  { clear es. induction es as [|e es IH]; [done|]. cbn [fold_left]. by destruct e. }
  split; [apply H|done].
Qed.

(** A strip that stops being answered keeps its last verdict without saying so. *)
Lemma stale_strip_shows_its_last_answer (s : strip) (z : zone) (zs : list zone) (n : nat) :
  s_health s = Some (z :: zs) -> strip_view (Nat.iter n (fun s => strip_step s (STick None)) s) = inr (z :: zs).
Proof.
  intros H. assert (E : s_health (Nat.iter n (fun s => strip_step s (STick None)) s) = Some (z :: zs)) by (by induction n). unfold strip_view. by rewrite E.
Qed.
