(* ===== verification/Fixture.v ===== *)
(** * The offline fleet: the seeded generator (data.jsx)

    Without a live API the dashboard shows a generated fleet.  It comes from a 32-bit
    generator with a fixed seed, so that every reload shows the same systems.  Draws
    are in units of 2^-32 ([rng] returns the numerator).  The doubles the file computes
    with are all dyadic: they are kept here as integers over a fixed power of two, and
    [fl] is the rounding to 53 significant bits, so that every value is the exact one. *)

From Stdlib Require Import ZArith Lia Ascii.
From Corelib Require Import SpecFloat.
From stdpp Require Import strings pretty list.
From S2P Require Import Prelude JsNum JsValue.

Local Open Scope string_scope.
Local Open Scope list_scope.
Local Open Scope Z_scope.

(** ** 32-bit operators *)

(** [x >>> n] ([x | 0] is [wrap32]), [x ^ y], [x | y] and [Math.imul]. *)
Definition u32 (x : Z) : Z := x mod 2 ^ 32.
Definition ushr (x n : Z) : Z := Z.shiftr (u32 x) n.
Definition xor32 (x y : Z) : Z := Z.lxor (wrap32 x) (wrap32 y).
Definition or32 (x y : Z) : Z := Z.lor (wrap32 x) (wrap32 y).
Definition imul (x y : Z) : Z := wrap32 (x * y).

(** ** The generator *)

(** A computation that draws: the state is the closure's [a]. *)
Definition G (A : Type) : Type := Z -> A * Z.

Definition ret {A} (x : A) : G A := fun a => (x, a).
Definition bind {A B} (m : G A) (k : A -> G B) : G B := fun a => let '(x, a') := m a in k x a'.

Declare Scope gen_scope.
Delimit Scope gen_scope with gen.
Notation "x <-- m ; k" := (bind m (fun x => k)) (at level 100, m at next level, right associativity) : gen_scope.
Local Open Scope gen_scope.

(** [mulberry32]: one draw, in [0, 2^32). *)
Definition rng : G Z := fun a0 =>
  let a := wrap32 (wrap32 a0 + 0x6D2B79F5) in
  let t := imul (xor32 a (ushr a 15)) (or32 1 a) in
  let t := xor32 (t + imul (xor32 t (ushr t 7)) (or32 61 t)) t in
  (ushr (xor32 t (ushr t 14)) 0, a).

Definition SEED : Z := 20260606.

(** Rounding a dyadic number to 53 significant bits, ties to even. *)
Definition rne (m d : Z) : Z :=
  let q := Z.shiftr m d in
  let r := m - Z.shiftl q d in
  let h := Z.shiftl 1 (d - 1) in
  Z.shiftl (if (r <? h) || ((r =? h) && Z.even q) then q else q + 1) d.

Definition fl (m : Z) : Z := let d := Z.log2 (Z.abs m) - 52 in if d <=? 0 then m else Z.sgn m * rne (Z.abs m) d.

(** [rint(lo, hi)]: the product [rng() * (hi - lo + 1)] is rounded, then floored. *)
Definition rint (lo hi : Z) : G Z := k <-- rng; ret (Z.shiftr (fl (k * (hi - lo + 1))) 32 + lo).

(** [pick(arr)]; [d] stands for the [undefined] of an index out of range. *)
Definition pick {A} (d : A) (arr : list A) : G A := k <-- rng; ret (nth (Z.to_nat (Z.shiftr (k * Z.of_nat (length arr)) 32)) arr d).

(** [chance(a / b)]: no draw is as close to a decimal literal as its rounding. *)
Definition chance (a b : Z) : G bool := k <-- rng; ret (k * b <? a * 2 ^ 32).

(** [c && chance(a / b)]: the draw is made only when [c] holds. *)
Definition and_chance (c : bool) (a b : Z) : G bool := if c then chance a b else ret false.

(** [Array.from({ length: n }, (_, i) => ...)]. *)
Fixpoint from_index {A} (i n : nat) (f : nat -> G A) : G (list A) :=
  match n with
  | O => ret []
  | S n' => x <-- f i; l <-- from_index (S i) n' f; ret (x :: l)
  end.

Definition array_from {A} (n : Z) (f : nat -> G A) : G (list A) := from_index 0 (Z.to_nat n) f.

(** Draws are 32-bit. *)
Lemma u32_range x : 0 <= u32 x < 2 ^ 32.
Proof. apply Z.mod_pos_bound. lia. Qed.

Lemma rng_range a : 0 <= (rng a).1 < 2 ^ 32.
Proof. unfold rng, ushr. cbn [fst]. rewrite Z.shiftr_0_r. apply u32_range. Qed.

(** Rounding up to the grid of [2^d] does not pass a point of that grid. *)
Lemma rne_le m d b : 0 < d -> (2 ^ d | b) -> 0 <= m <= b -> 0 <= rne m d <= b.
Proof.
  intros Hd [c ->] Hm. unfold rne. rewrite !Z.shiftl_mul_pow2, Z.shiftr_div_pow2 by lia.
  assert (2 ^ d = 2 * 2 ^ (d - 1)) as Ep by (rewrite <- Z.pow_succ_r by lia; f_equal; lia).
  pose proof (Z.pow_pos_nonneg 2 (d - 1) ltac:(lia) ltac:(lia)) as Hp.
  pose proof (Z.div_mod m (2 ^ d) ltac:(lia)). pose proof (Z.mod_pos_bound m (2 ^ d) ltac:(lia)).
  pose proof (Z.div_pos m (2 ^ d) ltac:(lia) ltac:(lia)).
  set (q := m / 2 ^ d) in *. set (p := 2 ^ d) in *. set (h := 2 ^ (d - 1)) in *.
  destruct ((m - q * p <? 1 * h) || ((m - q * p =? 1 * h) && Z.even q)) eqn:E; [nia|].
  apply orb_false_iff in E as [E _]. assert (q < c) by nia. nia.
Qed.

(** A number of 53 bits bounds the rounding of everything below it. *)
Lemma fl_le m b e : 0 <= e -> 0 <= b < 2 ^ 53 -> 0 <= m <= b * 2 ^ e -> 0 <= fl m <= b * 2 ^ e.
Proof.
  intros He Hb Hm. unfold fl. rewrite Z.abs_eq by lia. destruct (Z.leb_spec (Z.log2 m - 52) 0) as [Hd|Hd]; [lia|].
  assert (0 < m) by (destruct (Z.eq_dec m 0) as [->|]; [cbn in Hd|]; lia).
  rewrite Z.sgn_pos, Z.mul_1_l by lia. apply rne_le; [lia| |lia].
  assert (Z.log2 m - 52 <= e) as Hle.
  { pose proof (Z.log2_le_mono m _ (proj2 Hm)) as Hl. destruct (Z.eq_dec b 0) as [->|]; [lia|].
    rewrite Z.log2_mul_pow2 in Hl by lia. assert (Z.log2 b < 53) by (apply Z.log2_lt_pow2; lia). lia. }
  exists (b * 2 ^ (e - (Z.log2 m - 52))). rewrite <- Z.mul_assoc, <- Z.pow_add_r by lia. do 2 f_equal. lia.
Qed.

(** The rounding of a draw times a span stays under the span. *)
Lemma fl_draw k n : 0 <= k < 2 ^ 32 -> 1 <= n <= 2 ^ 52 -> 0 <= Z.shiftr (fl (k * n)) 32 < n.
Proof.
  intros Hk Hn. enough (0 <= fl (k * n) < n * 2 ^ 32) as Hf.
  { rewrite Z.shiftr_div_pow2 by lia. split; [apply Z.div_pos; lia|apply Z.div_lt_upper_bound; lia]. }
  unfold fl. rewrite Z.abs_eq by nia. destruct (Z.leb_spec (Z.log2 (k * n) - 52) 0) as [Hd|Hd]; [nia|].
  assert (0 < k * n) by (destruct (Z.eq_dec (k * n) 0) as [E|]; [rewrite E in Hd; cbn in Hd|nia]; lia).
  rewrite Z.sgn_pos, Z.mul_1_l by lia.
  set (d := Z.log2 (k * n) - 52) in *.
  assert (d <= Z.log2 n - 20) as Hlog.
  { assert (Z.log2 (k * n) <= Z.log2 (n * 2 ^ 32)) as Hl by (apply Z.log2_le_mono; nia).
    rewrite Z.log2_mul_pow2 in Hl by lia. unfold d. lia. }
  assert (Z.log2 n <= 52) by (rewrite <- (Z.log2_pow2 52) by lia; apply Z.log2_le_mono; lia).
  assert (2 ^ d <= n) as Hpd.
  { pose proof (Z.log2_spec n ltac:(lia)) as [Hl _]. etransitivity; [|exact Hl]. apply Z.pow_le_mono_r; lia. }
  assert ((2 ^ d | n * 2 ^ 32 - 2 ^ d)) as Hdiv.
  { apply Z.divide_sub_r; [|exists 1; lia]. exists (n * 2 ^ (32 - d)). rewrite <- Z.mul_assoc, <- Z.pow_add_r by lia. do 2 f_equal. lia. }
  pose proof (rne_le (k * n) d _ ltac:(lia) Hdiv). nia.
Qed.

Lemma rint_range lo hi a : lo <= hi -> hi - lo < 2 ^ 52 -> lo <= (rint lo hi a).1 <= hi.
Proof.
  intros Hlo Hhi. unfold rint, bind, ret. pose proof (rng_range a) as Hr. destruct (rng a) as [k a']. cbn [fst] in *.
  pose proof (fl_draw k (hi - lo + 1) Hr ltac:(lia)). lia.
Qed.

Lemma pick_in {A} (d : A) arr a : arr <> [] -> (pick d arr a).1 ∈ arr.
Proof.
  intros Hne. unfold pick, bind, ret. pose proof (rng_range a) as Hr. destruct (rng a) as [k a']. cbn [fst] in *.
  apply list_elem_of_In, nth_In. rewrite Z.shiftr_div_pow2 by lia. destruct arr as [|x r]; [done|].
  assert (k * Z.of_nat (length (x :: r)) / 2 ^ 32 < Z.of_nat (length (x :: r))) by (apply Z.div_lt_upper_bound; [lia|]; cbn [length]; nia).
  assert (0 <= k * Z.of_nat (length (x :: r)) / 2 ^ 32) by (apply Z.div_pos; lia). lia.
Qed.

Lemma from_index_length {A} i n (f : nat -> G A) a : length (from_index i n f a).1 = n.
Proof.
  revert i a. induction n as [|n IH]; intros i a; cbn; [done|]. unfold bind at 1. destruct (f i a) as [x a1]. unfold bind.
  specialize (IH (S i) a1). destruct (from_index (S i) n f a1) as [l a2]. cbn in *. by rewrite IH.
Qed.

(** ** Names and tables *)

Definition ELEMENTS : list (string * string) :=
  [ ("H", "hydrogen"); ("He", "helium"); ("Li", "lithium"); ("Be", "beryllium"); ("B", "boron"); ("C", "carbon");
    ("N", "nitrogen"); ("O", "oxygen"); ("F", "fluorine"); ("Ne", "neon"); ("Na", "sodium"); ("Mg", "magnesium");
    ("Al", "aluminium"); ("Si", "silicon"); ("P", "phosphorus"); ("S", "sulfur"); ("Cl", "chlorine");
    ("Ar", "argon"); ("K", "potassium"); ("Ca", "calcium"); ("Sc", "scandium"); ("Ti", "titanium");
    ("V", "vanadium"); ("Cr", "chromium"); ("Mn", "manganese"); ("Fe", "iron"); ("Co", "cobalt"); ("Ni", "nickel");
    ("Cu", "copper"); ("Zn", "zinc"); ("Ga", "gallium"); ("Ge", "germanium"); ("As", "arsenic"); ("Se", "selenium");
    ("Br", "bromine"); ("Kr", "krypton"); ("Rb", "rubidium"); ("Sr", "strontium"); ("Y", "yttrium");
    ("Zr", "zirconium"); ("Nb", "niobium"); ("Mo", "molybdenum"); ("Tc", "technetium"); ("Ru", "ruthenium");
    ("Rh", "rhodium"); ("Pd", "palladium"); ("Ag", "silver"); ("Cd", "cadmium"); ("In", "indium"); ("Sn", "tin");
    ("Sb", "antimony"); ("Te", "tellurium"); ("I", "iodine"); ("Xe", "xenon"); ("Cs", "caesium"); ("Ba", "barium");
    ("La", "lanthanum"); ("Ce", "cerium"); ("Pr", "praseodymium"); ("Nd", "neodymium"); ("Pm", "promethium");
    ("Sm", "samarium"); ("Eu", "europium"); ("Gd", "gadolinium"); ("Tb", "terbium"); ("Dy", "dysprosium");
    ("Ho", "holmium"); ("Er", "erbium"); ("Tm", "thulium"); ("Yb", "ytterbium"); ("Lu", "lutetium");
    ("Hf", "hafnium"); ("Ta", "tantalum"); ("W", "tungsten"); ("Re", "rhenium"); ("Os", "osmium"); ("Ir", "iridium");
    ("Pt", "platinum"); ("Au", "gold"); ("Hg", "mercury"); ("Tl", "thallium"); ("Pb", "lead"); ("Bi", "bismuth");
    ("Po", "polonium"); ("At", "astatine"); ("Rn", "radon"); ("Fr", "francium"); ("Ra", "radium");
    ("Ac", "actinium"); ("Th", "thorium"); ("Pa", "protactinium"); ("U", "uranium"); ("Np", "neptunium");
    ("Pu", "plutonium"); ("Am", "americium"); ("Cm", "curium"); ("Bk", "berkelium"); ("Cf", "californium");
    ("Es", "einsteinium"); ("Fm", "fermium"); ("Md", "mendelevium"); ("No", "nobelium"); ("Lr", "lawrencium");
    ("Rf", "rutherfordium"); ("Db", "dubnium"); ("Sg", "seaborgium"); ("Bh", "bohrium"); ("Hs", "hassium");
    ("Mt", "meitnerium"); ("Ds", "darmstadtium"); ("Rg", "roentgenium"); ("Cn", "copernicium"); ("Nh", "nihonium");
    ("Fl", "flerovium"); ("Mc", "moscovium"); ("Lv", "livermorium"); ("Ts", "tennessine"); ("Og", "oganesson") ].

Record segment := Segment { sg_id : string; sg_name : string; sg_cidr : string; sg_desc : string }.

Definition SEGMENTS : list segment :=
  [ Segment "core" "Core" "10.42.0.0/24" "Routers, gateways, infra services";
    Segment "compute" "Compute" "10.42.10.0/23" "Hypervisors & app hosts";
    Segment "storage" "Storage" "10.42.20.0/24" "NAS, object, backup";
    Segment "dmz" "DMZ" "10.42.30.0/24" "Edge / reverse proxies";
    Segment "lab" "Lab" "10.42.40.0/23" "ARM SBCs, experiments";
    Segment "iot" "IoT / OT" "10.42.50.0/24" "Sensors, controllers" ].

Definition OSES : list (string * list string) :=
  [ ("Debian 12", ["x86_64"; "arm64"]); ("Ubuntu 24.04", ["x86_64"; "arm64"]); ("Alpine 3.20", ["x86_64"; "armv7"; "arm64"]);
    ("Raspberry Pi OS", ["arm64"; "armv7"]); ("FreeBSD 14", ["x86_64"]); ("Windows Server 2022", ["x86_64"]); ("macOS 14", ["arm64"]) ].

Definition SERVICES : list string :=
  ["apache2"; "mariadbd"; "nginx"; "sshd"; "redis-server"; "node_exporter"; "haproxy"; "postgres"; "dockerd"; "coredns"; "vault"; "step-ca"].
Definition DISK_MOUNTS : list string := ["/"; "/var"; "/data"; "/srv"; "/backup"].
Definition IFACES : list string := ["eth0"; "eth1"; "wlan0"; "bond0"; "usb0"].

(** [fnv]: the 64-bit FNV-1a hash of a host name, as 16 hexadecimal digits. *)
Definition fnv_step (h : Z) (c : ascii) : Z := Z.land (Z.lxor h (Z.of_nat (nat_of_ascii c)) * 0x100000001b3) 0xffffffffffffffff.

Definition fnv_hash (s : string) : Z := foldl fnv_step 0xcbf29ce484222325 (String.list_ascii_of_string s).

Definition hex_digit (d : Z) : ascii := nth (Z.to_nat d) (String.list_ascii_of_string "0123456789abcdef") "0"%char.

(** [toString(16)] padded to [n] digits, for a number of at most [n] digits. *)
Fixpoint hex (n : nat) (z : Z) : string :=
  match n with
  | O => ""
  | S n' => hex n' (z / 16) +:+ String (hex_digit (z mod 16)) ""
  end.

Definition fnv (s : string) : string := hex 16 (fnv_hash s).

(** ** Doubles *)

(** A double as an integer over [2^100]: literals, product and sum. *)
Definition SC : Z := 2 ^ 100.
Definition dlit (a b : Z) : Z := fl (a * 2 ^ 200 / b) / SC.
Definition dmul (x y : Z) : Z := Z.shiftr (fl (y * x)) 100.
Definition dadd (x y : Z) : Z := fl (x + y).
Definition dround (x : Z) : Z := Z.shiftr (x + 2 ^ 99) 100.

(** [rng()] as a double. *)
Definition dunit (k : Z) : Z := k * 2 ^ 68.

(** [spark]: [n] points of a walk clamped to [0, 100], each in tenths. *)
Fixpoint spark_from (n : nat) (v vol trend : Z) : G (list Z) :=
  match n with
  | O => ret []
  | S n' =>
      k <-- rng;
      let v := dadd v (dadd (dmul (dunit k - 2 ^ 99) vol) trend) in
      let v := Z.max 0 (Z.min (100 * SC) v) in
      l <-- spark_from n' v vol trend;
      ret (dround (dmul v (10 * SC)) :: l)
  end.

Definition spark (n : nat) (base vol trend : Z) : G (list Z) := spark_from n (base * SC) vol trend.

(** ** One system *)

Inductive frole := RServer | RMonitor | RClient.
Inductive fstate := Up | Degraded | Down | Unknown.

#[global] Instance frole_dec : EqDecision frole.
Proof. solve_decision. Defined.
#[global] Instance fstate_dec : EqDecision fstate.
Proof. solve_decision. Defined.

Record disk := Disk { k_mount : string; k_totalGb : Z; k_usedPct : Z; k_fs : string }.
Record iface := Iface { i_name : string; i_cap : Z; i_rx : Z; i_tx : Z; i_errs : Z }.
Record proc := Proc { p_name : string; p_pid : Z; p_run : string; p_files : Z; p_sockets : Z; p_rss : Z }.

Record node := Node {
  n_nodeId : string; n_sym : string; n_name : string; n_fqdn : string; n_ip : string;
  n_role : frole; n_seg : segment; n_os : string; n_arch : string; n_state : fstate;
  n_lastSeen : Z; n_enrolled : Z; n_epoch : Z; n_converged : bool;
  n_cpu : Z; n_cores : list Z; n_ram : Z; n_ramUsed : Z; n_ramTotal : Z;
  n_swap : Z; n_swapUsed : Z; n_swapTotal : Z;
  n_disks : list disk; n_ifaces : list iface; n_procs : list proc;
  n_diskMax : Z; n_netTotal : Z; n_netCap : Z; n_alerts : Z;
  n_hcpu : list Z; n_hram : list Z; n_hnet : list Z; n_hdisk : list Z; n_uptime : Z }.

(** [name]: the element of the index, with a number from the second round on. *)
Definition elem_of_index (idx : nat) : string * string := nth (Nat.modulo idx (length ELEMENTS)) ELEMENTS ("", "").
Definition name_of (idx : nat) : string :=
  let wrap := Nat.div idx (length ELEMENTS) in
  if (0 <? wrap)%nat then (elem_of_index idx).2 +:+ pretty (N.of_nat (wrap + 1)) else (elem_of_index idx).2.

Definition seg0 : segment := Segment "" "" "" "".
Definition seg_of (id : string) : segment := default seg0 (List.find (fun s => String.eqb (sg_id s) id) SEGMENTS).

(** [cidr.split(".").slice(0, 3).join(".")] *)
Definition prefix3 (cidr : string) : string := String.concat "." (take 3 (split_char "."%char cidr)).

(** The distribution of the states: 80 %, 10 %, 6.5 %, the rest. *)
Definition draw_state : G fstate :=
  r <-- rng;
  ret (if r * 100 <? 80 * 2 ^ 32 then Up else if r * 100 <? 90 * 2 ^ 32 then Degraded else if r * 1000 <? 965 * 2 ^ 32 then Down else Unknown).

Definition draw_core (down : bool) (cpuBase : Z) (_ : nat) : G Z :=
  if down then ret 0
  else k <-- rng; ret (Z.max 0 (Z.min 100 (Z.shiftr (cpuBase * 2 ^ 32 + (k - 2 ^ 31) * 40 + 2 ^ 31) 32))).

Definition draw_disk (deg : bool) (i : nat) : G disk :=
  totalGb <-- pick 0 [64; 128; 256; 512; 1024; 2048; 4096];
  bad <-- and_chance deg 1 2;
  usedPct <-- (if bad then rint 85 98 else rint 18 80);
  fs <-- pick "" ["ext4"; "xfs"; "zfs"; "btrfs"];
  ret (Disk (nth i DISK_MOUNTS ("/mnt/d" +:+ pretty (N.of_nat i))) totalGb usedPct fs).

(** [Math.round(rng() * cap * f)], none for a system that is down. *)
Definition draw_rate (down : bool) (cap f : Z) : G Z :=
  if down then ret 0 else k <-- rng; ret (dround (dmul (dunit k * cap) f)).

Definition draw_iface (down deg : bool) (i : nat) : G iface :=
  cap <-- pick 0 [100; 1000; 1000; 2500; 10000];
  rx <-- draw_rate down cap (if deg then dlit 85 100 else dlit 4 10);
  tx <-- draw_rate down cap (if deg then dlit 7 10 else dlit 3 10);
  bad <-- and_chance deg 1 2;
  errs <-- (if bad then rint 20 400 else rint 0 4);
  ret (Iface (nth i IFACES ("eth" +:+ pretty (N.of_nat i))) cap rx tx errs).

(** [while (usedServices.includes(s) && guard++ < 6) s = pick(SERVICES)] *)
Fixpoint repick (guard : nat) (used : list string) (s : string) : G string :=
  match guard with
  | O => ret s
  | S g => if existsb (String.eqb s) used then s' <-- pick "" SERVICES; repick g used s' else ret s
  end.

(** The upper end of a process's memory: [ramTotal * (ramPct / 100) / 2 | 0 || 200000]. *)
Definition rss_top (ramTotal ramPct : Z) : Z := let h := wrap32 (ramTotal * ramPct / 200) in if h =? 0 then 200000 else h.

Fixpoint draw_procs (n : nat) (used : list string) (down deg : bool) (top : Z) : G (list proc) :=
  match n with
  | O => ret []
  | S n' =>
      s0 <-- pick "" SERVICES;
      s <-- repick 6 used s0;
      bad <-- and_chance (negb down && deg) 3 10;
      pid <-- rint 200 39000;
      nFiles <-- rint 8 520;
      nSockets <-- rint 1 180;
      rss <-- rint 8000 top;
      l <-- draw_procs n' (used ++ [s]) down deg top;
      ret (Proc s pid (if down then "Z" else if bad then "D" else "R") nFiles nSockets rss :: l)
  end.

Definition sum (l : list Z) : Z := foldr Z.add 0 l.
(** [Math.round(a / b)] of integers. *)
Definition round_quot (a b : Z) : Z := (2 * a + b) / (2 * b).
Definition or5 (x : Z) : Z := if x =? 0 then 5 else x.

(** [makeNode(role, segId, forceState)], the draws in the order of the source. *)
Definition makeNode (idx : nat) (role : frole) (segId : string) (forceState : option fstate) : G node :=
  let seg := seg_of segId in
  osPick <-- pick ("", []) OSES;
  arch <-- pick "" osPick.2;
  state <-- match forceState with Some s => ret s | None => draw_state end;
  let isDown := bool_decide (state = Down) in
  let deg := bool_decide (state = Degraded) in
  cpuBase <-- (if isDown then ret 0 else if deg then rint 72 95 else rint 6 55);
  ramGb <-- pick 0 [4; 8; 16; 32; 64; 128];
  let ramTotal := ramGb * 1024 * 1024 in
  ramBad <-- and_chance (negb isDown && deg) 1 2;
  ramPct <-- (if isDown then ret 0 else if ramBad then rint 82 97 else rint 20 75);
  let swapTotal := ramTotal / 2 in
  swapBad <-- and_chance deg 4 10;
  swapPct <-- (if swapBad then rint 30 80 else rint 0 15);
  ncores <-- pick 0 [2; 4; 4; 8; 8; 16; 32];
  cores <-- array_from ncores (draw_core isDown cpuBase);
  ndisks <-- rint 1 (if bool_decide (role = RServer) then 4 else 2);
  disks <-- array_from ndisks (draw_disk deg);
  nif <-- rint 1 (if bool_decide (role = RMonitor) then 3 else 2);
  ifaces <-- array_from nif (draw_iface isDown deg);
  nproc <-- (if bool_decide (role = RClient) then rint 2 5 else rint 2 4);
  procs <-- draw_procs (Z.to_nat nproc) [] isDown deg (rss_top ramTotal ramPct);
  lastSeen <-- (if isDown then rint 3 90 else if bool_decide (state = Unknown) then rint 120 1440 else rint 0 1);
  alertsCount <-- (if isDown then rint 1 3 else if deg then rint 0 2 else ret 0);
  octet <-- rint 2 250;
  enrolled <-- rint 20 700;
  epoch <-- rint 3 240;
  converged <-- chance 9 10;
  hcpu <-- spark 60 (or5 cpuBase) (14 * SC) (if isDown then - dlit 3 10 else if deg then dlit 25 100 else 0);
  hram <-- spark 60 (or5 ramPct) (7 * SC) 0;
  hnet <-- spark 60 (if isDown then 0 else 30) (22 * SC) 0;
  hdisk <-- spark 60 match disks with d :: _ => k_usedPct d | [] => 30 end (dlit 12 10) (dlit 6 100);
  uptime <-- (if isDown then ret 0 else rint 1 410);
  let name := name_of idx in
  ret (Node (fnv (name +:+ ".akoria.net")) (elem_of_index idx).1 name (name +:+ ".akoria.net")
         (prefix3 (sg_cidr seg) +:+ "." +:+ pretty octet) role seg osPick.1 arch state
         lastSeen enrolled epoch converged
         (if isDown then 0 else round_quot (sum cores) (Z.of_nat (length cores))) cores
         ramPct (round_quot (ramTotal * ramPct) 100) ramTotal
         swapPct (round_quot (swapTotal * swapPct) 100) swapTotal
         disks ifaces procs
         (foldl Z.max 0 (map k_usedPct disks)) (sum (map (fun i => i_rx i + i_tx i) ifaces)) (sum (map i_cap ifaces))
         alertsCount hcpu hram hnet hdisk uptime).

(** ** The fleet *)

Fixpoint make_many (idx n : nat) (role : frole) (segId : G string) : G (list node) :=
  match n with
  | O => ret []
  | S n' => s <-- segId; x <-- makeNode idx role s None; l <-- make_many (S idx) n' role segId; ret (x :: l)
  end.

Definition segWeights : list (string * nat) := [("core", 6); ("compute", 32); ("storage", 14); ("dmz", 12); ("lab", 22); ("iot", 16)]%nat.

Fixpoint make_clients (idx : nat) (w : list (string * nat)) : G (list node) :=
  match w with
  | [] => ret []
  | (s, c) :: r => l <-- make_many idx c RClient (ret s); l' <-- make_clients (idx + c) r; ret (l ++ l')
  end.

Definition fleet : G (list node) :=
  primary <-- makeNode 0 RServer "core" (Some Up);
  failover <-- makeNode 1 RServer "core" (Some Up);
  monitors <-- make_many 2 12 RMonitor (s <-- pick seg0 SEGMENTS; ret (sg_id s));
  clients <-- make_clients 14 segWeights;
  ret (primary :: failover :: monitors ++ clients).

(** ** What every draw guarantees *)

(** Whatever the state of the generator, the value has the property. *)
Definition ens {A} (m : G A) (P : A -> Prop) : Prop := forall a, P (m a).1.

Lemma ens_ret {A} (x : A) (P : A -> Prop) : P x -> ens (ret x) P.
Proof. by intros H a. Qed.

Lemma ens_bind {A B} (m : G A) (k : A -> G B) (P : A -> Prop) (Q : B -> Prop) :
  ens m P -> (forall x, P x -> ens (k x) Q) -> ens (bind m k) Q.
Proof. intros Hm Hk a. unfold bind. specialize (Hm a). destruct (m a) as [x a']. by apply Hk. Qed.

Lemma ens_if {A} (c : bool) (m m' : G A) (P : A -> Prop) :
  (c = true -> ens m P) -> (c = false -> ens m' P) -> ens (if c then m else m') P.
Proof. destruct c; auto. Qed.

Lemma ens_mono {A} (m : G A) (P Q : A -> Prop) : ens m P -> (forall x, P x -> Q x) -> ens m Q.
Proof. intros Hm Hi a. apply Hi, Hm. Qed.

Lemma ens_any {A} (m : G A) : ens m (fun _ => True).
Proof. done. Qed.

Lemma ens_from_index {A} i n (f : nat -> G A) (P : A -> Prop) :
  (forall j, ens (f j) P) -> ens (from_index i n f) (fun l => length l = n /\ Forall P l).
Proof.
  intros Hf. revert i. induction n as [|n IH]; intros i; cbn [from_index]; [by apply ens_ret|].
  eapply ens_bind; [apply Hf|]. intros x Hx. eapply ens_bind; [apply IH|]. intros l [Hl Hs].
  apply ens_ret. cbn. rewrite Hl. auto.
Qed.

Lemma ens_rng : ens rng (fun k => 0 <= k < 2 ^ 32).
Proof. intros a. apply rng_range. Qed.

Lemma ens_rint lo hi : lo <= hi -> hi - lo < 2 ^ 52 -> ens (rint lo hi) (fun x => lo <= x <= hi).
Proof. intros Hl Hh a. by apply rint_range. Qed.

Lemma ens_pick {A} (d : A) arr : arr <> [] -> ens (pick d arr) (fun x => x ∈ arr).
Proof. intros Hn a. by apply pick_in. Qed.

(** [ens_pick] with the property of the elements checked one by one. *)
Lemma ens_pick_all {A} (d : A) arr (P : A -> Prop) : arr <> [] -> Forall P arr -> ens (pick d arr) P.
Proof. intros Hn Hp. eapply ens_mono; [by apply ens_pick|]. intros x. by apply Forall_forall. Qed.

(** One draw of a computation: name the value, keep what is known of it. *)
Ltac draw P := eapply (ens_bind _ _ P); [|intros ? ?].

Lemma shiftr_range x n lo hi : 0 <= n -> lo * 2 ^ n <= x < (hi + 1) * 2 ^ n -> lo <= Z.shiftr x n <= hi.
Proof.
  intros Hn Hx. rewrite Z.shiftr_div_pow2 by lia. pose proof (Z.pow_pos_nonneg 2 n ltac:(lia) Hn).
  split; [apply Z.div_le_lower_bound; lia|]. enough (x / 2 ^ n < hi + 1) by lia. apply Z.div_lt_upper_bound; lia.
Qed.

Lemma ens_core down cpuBase i : ens (draw_core down cpuBase i) (fun c => 0 <= c <= 100 /\ (down = true -> c = 0)).
Proof.
  unfold draw_core. apply ens_if; intros ->; [apply ens_ret; lia|]. draw (fun _ : Z => True); [apply ens_any|].
  apply ens_ret. split; [lia|done].
Qed.

Lemma ens_disk deg i : ens (draw_disk deg i) (fun d => 0 <= k_usedPct d <= 98).
Proof.
  unfold draw_disk. draw (fun _ : Z => True); [apply ens_any|]. draw (fun _ : bool => True); [apply ens_any|].
  draw (fun u => 0 <= u <= 98); [apply ens_if; intros _; eapply ens_mono; [apply ens_rint; lia|cbn; lia|apply ens_rint; lia|cbn; lia]|].
  draw (fun _ : string => True); [apply ens_any|]. by apply ens_ret.
Qed.

(** A draw times a rate times the double of [p] percent stays within that share of the rate:
    the largest draw is further below one than the double is above the percentage. *)
Lemma ens_rate down cap f p b :
  0 <= cap < 2 ^ 20 -> 0 <= f -> f * 100 * (2 ^ 32 - 1) <= p * SC * 2 ^ 32 -> p * cap = 100 * b -> 0 <= b < 2 ^ 53 ->
  ens (draw_rate down cap f) (fun r => 0 <= 100 * r <= p * cap /\ (down = true -> r = 0)).
Proof.
  intros Hc Hf Hp Hb Hb'. unfold draw_rate. apply ens_if; intros ->; [apply ens_ret; lia|].
  eapply ens_bind; [apply ens_rng|]. cbn. intros k Hk. apply ens_ret. split; [|done].
  unfold dround, dmul. assert (0 <= f * (dunit k * cap) <= b * 2 ^ 200) as Hbound.
  { unfold dunit. split; [nia|]. unfold SC in Hp.
    assert (f * 100 * k <= p * 2 ^ 100 * 2 ^ 32) as H1 by nia.
    assert (f * 100 * k * cap <= p * 2 ^ 100 * 2 ^ 32 * cap) as H2 by nia.
    replace (p * 2 ^ 100 * 2 ^ 32 * cap) with (p * cap * 2 ^ 132) in H2 by ring. rewrite Hb in H2.
    replace (f * (k * 2 ^ 68 * cap)) with (f * k * cap * 2 ^ 68) by ring.
    replace (b * 2 ^ 200) with (b * 2 ^ 132 * 2 ^ 68) by ring. nia. }
  pose proof (fl_le _ b 200 ltac:(lia) ltac:(lia) Hbound) as Hfl.
  pose proof (shiftr_range (fl (f * (dunit k * cap))) 100 0 (b * 2 ^ 100) ltac:(lia) ltac:(lia)).
  rewrite Hb. enough (0 <= Z.shiftr (Z.shiftr (fl (f * (dunit k * cap))) 100 + 2 ^ 99) 100 <= b) by lia. apply shiftr_range; lia.
Qed.

(** What a link carries in each direction, in percent of its rate. *)
Definition iface_ok (down deg : bool) (f : iface) : Prop :=
  0 <= 100 * i_rx f <= (if deg then 85 else 40) * i_cap f /\ 0 <= 100 * i_tx f <= (if deg then 70 else 30) * i_cap f /\
  (down = true -> i_rx f = 0 /\ i_tx f = 0).

Lemma ens_iface down deg i : ens (draw_iface down deg i) (iface_ok down deg).
Proof.
  unfold draw_iface. draw (fun c => exists b, c = 100 * b /\ 0 <= b <= 100).
  { apply ens_pick_all; [done|]. repeat constructor; [by exists 1|by exists 10|by exists 10|by exists 25|by exists 100]. }
  destruct H as (b & -> & Hb).
  draw (fun r => 0 <= 100 * r <= (if deg then 85 else 40) * (100 * b) /\ (down = true -> r = 0)).
  { destruct deg; [apply (ens_rate _ _ _ 85 (85 * b))|apply (ens_rate _ _ _ 40 (40 * b))]; try lia; apply Z.leb_le; vm_compute; reflexivity. }
  draw (fun r => 0 <= 100 * r <= (if deg then 70 else 30) * (100 * b) /\ (down = true -> r = 0)).
  { destruct deg; [apply (ens_rate _ _ _ 70 (70 * b))|apply (ens_rate _ _ _ 30 (30 * b))]; try lia; apply Z.leb_le; vm_compute; reflexivity. }
  draw (fun _ : bool => True); [apply ens_any|]. draw (fun _ : Z => True); [apply ens_any|].
  apply ens_ret. unfold iface_ok. cbn. intuition.
Qed.

Lemma ens_spark n base vol trend : ens (spark n base vol trend) (fun l => length l = n /\ Forall (fun t => 0 <= t <= 1000) l).
Proof.
  unfold spark. generalize (base * SC) as v. induction n as [|n IH]; intros v; cbn [spark_from]; [by apply ens_ret|].
  draw (fun _ : Z => True); [apply ens_any|]. eapply ens_bind; [apply IH|]. intros l [Hl Hs]. apply ens_ret.
  split; [cbn; lia|]. constructor; [|done]. set (w := Z.max 0 _). assert (0 <= w <= 100 * SC) as Hw by (subst w; unfold SC; lia). clearbody w.
  unfold dround, dmul. unfold SC in *.
  pose proof (fl_le (10 * 2 ^ 100 * w) 1000 200 ltac:(lia) ltac:(lia) ltac:(nia)) as Hf.
  pose proof (shiftr_range (fl (10 * 2 ^ 100 * w)) 100 0 (1000 * 2 ^ 100) ltac:(lia) ltac:(lia)).
  apply shiftr_range; lia.
Qed.

Lemma rss_top_range ramTotal ramPct :
  2 ^ 22 <= ramTotal <= 2 ^ 27 -> ramPct = 0 \/ 20 <= ramPct <= 97 -> 8000 <= rss_top ramTotal ramPct <= ramTotal.
Proof.
  intros Ht Hp. unfold rss_top. assert (0 <= ramTotal * ramPct / 200 <= 2 ^ 30) as Hb.
  { split; [apply Z.div_pos; nia|]. apply Z.div_le_upper_bound; nia. }
  assert (wrap32 (ramTotal * ramPct / 200) = ramTotal * ramPct / 200) as ->.
  { unfold wrap32. rewrite Z.mod_small by lia. by destruct (Z.ltb_spec (ramTotal * ramPct / 200) (2 ^ 31)); [|lia]. }
  destruct (Z.eqb_spec (ramTotal * ramPct / 200) 0); [lia|]. destruct Hp as [->|Hp]; [by rewrite Z.mul_0_r in *|].
  split; [apply Z.div_le_lower_bound; nia|apply Z.div_le_upper_bound; nia].
Qed.

Lemma ens_procs n used down deg top : 8000 <= top < 2 ^ 30 ->
  ens (draw_procs n used down deg top)
    (fun l => length l = n /\ Forall (fun p => 8000 <= p_rss p <= top /\ (down = true -> p_run p = "Z")) l).
Proof.
  intros Ht. revert used. induction n as [|n IH]; intros used; cbn [draw_procs]; [by apply ens_ret|].
  do 2 (draw (fun _ : string => True); [apply ens_any|]). draw (fun _ : bool => True); [apply ens_any|].
  do 3 (draw (fun _ : Z => True); [apply ens_any|]). eapply ens_bind; [apply ens_rint; lia|]. intros r Hr.
  eapply ens_bind; [apply IH|]. intros l [Hl Hs]. apply ens_ret. split; [cbn; lia|].
  constructor; [|done]. cbn. split; [exact Hr|]. by intros ->.
Qed.

Lemma sum_range l lo hi : Forall (fun x => lo <= x <= hi) l -> lo * Z.of_nat (length l) <= sum l <= hi * Z.of_nat (length l).
Proof. induction 1; cbn [sum foldr length]; [lia|]. fold (sum l). lia. Qed.

Lemma round_quot_range a b lo hi : 0 < b -> lo * b <= a <= hi * b -> lo <= round_quot a b <= hi.
Proof.
  intros Hb Ha. unfold round_quot. split; [apply Z.div_le_lower_bound; lia|].
  enough ((2 * a + b) / (2 * b) < hi + 1) by lia. apply Z.div_lt_upper_bound; lia.
Qed.

Lemma max_range l m hi : 0 <= m <= hi -> Forall (fun x => 0 <= x <= hi) l -> 0 <= foldl Z.max m l <= hi.
Proof. intros Hm Hl. revert m Hm. induction Hl; intros m Hm; cbn; [lia|]. apply IHHl. lia. Qed.

(** What the screens may rely on: every percentage is one; a system uses no more memory
    or swap than it has; a link carries no more than its rate in each direction, and all
    links together no more than seven tenths of their rates, or 1.55 times on a degraded
    system, where both directions may be busy; the histories have 60 points of 0 to 100;
    and a system that is down shows no load now, in its cores, memory, links and
    processes - but swap in use, like any system that is not degraded at most 15 %, and a
    history. *)
Definition history_ok (h : list Z) : Prop := length h = 60%nat /\ Forall (fun t => 0 <= t <= 1000) h.

Definition node_ok (n : node) : Prop :=
  (0 <= n_cpu n <= 100 /\ Forall (fun c => 0 <= c <= 100) (n_cores n)) /\
  (0 <= n_ram n <= 97 /\ 0 <= n_swap n <= 80 /\ (n_state n <> Degraded -> n_swap n <= 15)) /\
  (0 <= n_ramUsed n <= n_ramTotal n /\ 0 <= n_swapUsed n <= n_swapTotal n) /\
  (0 < length (n_disks n) <= 4)%nat /\ 0 <= n_diskMax n <= 98 /\
  (0 < length (n_ifaces n) <= 3)%nat /\
  Forall (fun f => 0 <= i_rx f <= i_cap f /\ 0 <= i_tx f <= i_cap f) (n_ifaces n) /\
  0 <= 100 * n_netTotal n <= (if bool_decide (n_state n = Degraded) then 155 else 70) * n_netCap n /\
  (2 <= length (n_procs n) <= 5)%nat /\ Forall (fun p => 0 < p_rss p <= n_ramTotal n) (n_procs n) /\
  Forall history_ok [n_hcpu n; n_hram n; n_hnet n; n_hdisk n] /\
  (n_state n = Down ->
     n_cpu n = 0 /\ Forall (fun c => c = 0) (n_cores n) /\ n_ram n = 0 /\ n_ramUsed n = 0 /\ n_netTotal n = 0 /\ n_uptime n = 0 /\
     Forall (fun p => p_run p = "Z") (n_procs n)).

Lemma Forall_disk l : Forall (fun d => 0 <= k_usedPct d <= 98) l -> 0 <= foldl Z.max 0 (map k_usedPct l) <= 98.
Proof. intros H. apply max_range; [lia|]. by apply Forall_map. Qed.

Lemma net_range down deg l :
  Forall (iface_ok down deg) l ->
  0 <= 100 * sum (map (fun i => i_rx i + i_tx i) l) <= (if deg then 155 else 70) * sum (map i_cap l) /\
  (down = true -> sum (map (fun i => i_rx i + i_tx i) l) = 0).
Proof.
  induction 1 as [|f l Hf Hl IH]; cbn [map sum foldr]; [by destruct deg|].
  fold (sum (map i_cap l)) (sum (map (fun i => i_rx i + i_tx i) l)). unfold iface_ok in Hf. destruct deg; intuition lia.
Qed.

Lemma iface_within down deg l :
  Forall (iface_ok down deg) l -> Forall (fun f => 0 <= i_rx f <= i_cap f /\ 0 <= i_tx f <= i_cap f) l.
Proof. intros H. eapply Forall_impl; [exact H|]. unfold iface_ok. intros f. destruct deg; lia. Qed.

Lemma cores_range down l :
  l <> [] -> Forall (fun c => 0 <= c <= 100 /\ (down = true -> c = 0)) l -> 0 <= round_quot (sum l) (Z.of_nat (length l)) <= 100.
Proof.
  intros Hne Hl. assert (Forall (fun c => 0 <= c <= 100) l) as Hb by (eapply Forall_impl; [exact Hl|]; by intros ? [? _]).
  pose proof (sum_range l 0 100 Hb). apply round_quot_range; [|lia]. destruct l; [done|cbn; lia].
Qed.

(** The four histories of a system. *)
Lemma ens_history n vol trend : ens (spark 60 n vol trend) history_ok.
Proof. apply ens_spark. Qed.

Lemma ens_array {A} (n : Z) (f : nat -> G A) (P : A -> Prop) :
  (forall j, ens (f j) P) -> ens (array_from n f) (fun l => length l = Z.to_nat n /\ Forall P l).
Proof. apply ens_from_index. Qed.

(** The percentages a system is drawn with. *)
Lemma ens_ram (isDown bad : bool) :
  ens (if isDown then ret 0 else if bad then rint 82 97 else rint 20 75) (fun r => (r = 0 \/ 20 <= r <= 97) /\ (isDown = true -> r = 0)).
Proof.
  apply ens_if; intros ->; [apply ens_ret; by auto|].
  apply ens_if; intros _; (eapply ens_mono; [apply ens_rint; lia|]); cbn; intros r Hr; (split; [lia|done]).
Qed.

Lemma ens_and_chance (c : bool) a b : ens (and_chance c a b) (fun x => c = false -> x = false).
Proof. unfold and_chance. destruct c; [by intros s|by apply ens_ret]. Qed.

Lemma ens_swap (deg bad : bool) : (deg = false -> bad = false) ->
  ens (if bad then rint 30 80 else rint 0 15) (fun r => 0 <= r <= 80 /\ (deg = false -> r <= 15)).
Proof.
  intros H. apply ens_if; intros ->; (eapply ens_mono; [apply ens_rint; lia|]); cbn; intros r Hr; (split; [lia|]); intros Hd; [|lia].
  by specialize (H Hd).
Qed.

Lemma ens_count (c : bool) hi hi' top : 1 <= hi <= top -> 1 <= hi' <= top -> top < 10 -> ens (rint 1 (if c then hi else hi')) (fun r => 1 <= r <= top).
Proof. intros H H' Ht. destruct c; (eapply ens_mono; [apply ens_rint; lia|]); cbn; lia. Qed.

Lemma ens_nproc (c : bool) : ens (if c then rint 2 5 else rint 2 4) (fun r => 2 <= r <= 5).
Proof. apply ens_if; intros _; (eapply ens_mono; [apply ens_rint; lia|]); cbn; lia. Qed.

Lemma ens_uptime (c : bool) : ens (if c then ret 0 else rint 1 410) (fun u => c = true -> u = 0).
Proof. apply ens_if; intros ->; [by apply ens_ret|]. eapply ens_mono; [apply ens_any|done]. Qed.

(** The next draw, of which nothing is asked. *)
Ltac skip x := eapply ens_bind; [apply ens_any|intros x _].

Lemma makeNode_ok idx role segId force : ens (makeNode idx role segId force) node_ok.
Proof.
  unfold makeNode. skip osPick. skip arch. skip state. cbv zeta.
  set (isDown := bool_decide (state = Down)). assert (state = Down -> isDown = true) as Hdown by (subst isDown; by intros ->).
  set (deg := bool_decide (state = Degraded)). clearbody isDown. skip cpuBase.
  draw (fun g => 4 <= g <= 128); [apply ens_pick_all; [done|repeat constructor; lia]|]. rename x into ramGb.
  skip ramBad. eapply ens_bind; [apply ens_ram|]. intros ramPct [Hram Hram0].
  eapply ens_bind; [apply ens_and_chance|]. intros swapBad Hbad. eapply ens_bind; [apply (ens_swap deg), Hbad|]. intros swapPct [Hswap Hswap0].
  draw (fun c => 2 <= c <= 32); [apply ens_pick_all; [done|repeat constructor; lia]|]. rename x into ncores.
  eapply ens_bind; [apply ens_array, ens_core|]. intros cores [Hcl Hcs].
  eapply ens_bind; [apply (ens_count _ _ _ 4); lia|]. intros ndisks Hnd. eapply ens_bind; [apply ens_array, ens_disk|]. intros disks [Hdl Hds].
  eapply ens_bind; [apply (ens_count _ _ _ 3); lia|]. intros nif Hnif. eapply ens_bind; [apply ens_array, ens_iface|]. intros ifaces [Hil His].
  eapply ens_bind; [apply ens_nproc|]. intros nproc Hnp.
  pose proof (rss_top_range (ramGb * 1024 * 1024) ramPct ltac:(lia) Hram) as Htop.
  eapply ens_bind; [apply ens_procs; lia|]. intros procs [Hpl Hps].
  skip lastSeen. skip alertsCount. skip octet. skip enrolled. skip epoch. skip converged.
  do 4 (eapply ens_bind; [apply ens_history|]; intros ? ?). eapply ens_bind; [apply ens_uptime|]. intros uptime Hup. apply ens_ret.
  pose proof (net_range _ _ _ His) as [Hnet Hnet0]. pose proof (iface_within _ _ _ His) as Hlinks. pose proof (Forall_disk _ Hds).
  assert (cores <> []) as Hne by (intros ->; cbn in Hcl; lia). pose proof (cores_range _ _ Hne Hcs) as Hcpu.
  cbv beta in *. set (ramTotal := ramGb * 1024 * 1024) in *. assert (4194304 <= ramTotal) by (subst ramTotal; lia). clearbody ramTotal.
  pose proof (Z.div_pos ramTotal 2 ltac:(lia) ltac:(lia)).
  pose proof (round_quot_range (ramTotal * ramPct) 100 0 ramTotal ltac:(lia) ltac:(nia)).
  pose proof (round_quot_range (ramTotal / 2 * swapPct) 100 0 (ramTotal / 2) ltac:(lia) ltac:(nia)).
  unfold node_ok. cbn. split; [split; [by destruct isDown|eapply Forall_impl; [exact Hcs|]; by intros ? [? _]]|].
  split; [split; [lia|]; split; [lia|]; intros Hns; apply Hswap0; unfold deg; by apply bool_decide_eq_false|].
  repeat (split; [by auto with lia|]). split; [eapply Forall_impl; [exact Hps|]; cbn; intros p [Hp _]; lia|].
  split; [by rewrite !Forall_cons, Forall_nil|]. intros Hd. apply Hdown in Hd. rewrite Hd in *. rewrite (Hram0 eq_refl), Z.mul_0_r. repeat split; auto.
  - eapply Forall_impl; [exact Hcs|]. cbn. by intros c [_ Hc0]; apply Hc0.
  - eapply Forall_impl; [exact Hps|]. cbn. by intros p [_ Hp]; apply Hp.
Qed.

(** ** The whole fleet *)

Definition node_id (idx : nat) : string := fnv (name_of idx +:+ ".akoria.net").

(** Everything a draw does not decide. *)
Lemma makeNode_fixed idx role segId force :
  ens (makeNode idx role segId force) (fun n => (n_name n, n_nodeId n, n_role n, n_seg n) = (name_of idx, node_id idx, role, seg_of segId)).
Proof. unfold makeNode. repeat (eapply ens_bind; [apply ens_any|intros ? _; cbv zeta]). by apply ens_ret. Qed.

Lemma ens_and {A} (m : G A) (P Q : A -> Prop) : ens m P -> ens m Q -> ens m (fun x => P x /\ Q x).
Proof. intros HP HQ a. by split. Qed.

(** [l] holds well-formed systems for the indices [i], [i + 1], ... in known segments. *)
Definition systems (i : nat) (role : frole) (n : nat) (l : list node) : Prop :=
  Forall node_ok l /\ Forall (fun x => n_seg x ∈ SEGMENTS /\ n_role x = role) l /\
  map (fun x => (n_name x, n_nodeId x)) l = map (fun j => (name_of j, node_id j)) (seq i n).

Lemma make_many_ok i n role segId :
  ens segId (fun s => seg_of s ∈ SEGMENTS) -> ens (make_many i n role segId) (systems i role n).
Proof.
  intros Hs. revert i. induction n as [|n IH]; intros i; cbn [make_many]; [by apply ens_ret|].
  eapply ens_bind; [exact Hs|]. intros s Hseg. eapply ens_bind; [apply ens_and; [apply makeNode_ok|apply makeNode_fixed]|].
  intros x [Hx E]. eapply ens_bind; [apply IH|]. intros l (Hl & Hg & En). apply ens_ret. injection E as E1 E2 E3 E4.
  split; [by constructor|]. split; [constructor; [by rewrite E3, E4|done]|]. cbn. by rewrite E1, E2, En.
Qed.

Lemma make_clients_ok i w :
  Forall (fun sc => seg_of sc.1 ∈ SEGMENTS) w -> ens (make_clients i w) (systems i RClient (foldr (fun sc n => sc.2 + n)%nat O w)).
Proof.
  intros Hw. revert i. induction Hw as [|[s c] w Hs Hw IH]; intros i; cbn [make_clients foldr]; [by apply ens_ret|].
  eapply ens_bind; [apply make_many_ok; by apply ens_ret|]. intros l (Hl & Hg & En). eapply ens_bind; [apply IH|]. intros l' (Hl' & Hg' & En').
  apply ens_ret. split; [by apply Forall_app|]. split; [by apply Forall_app|]. by rewrite map_app, seq_app, map_app, En, En'.
Qed.

Lemma seg_of_known id : existsb (fun s => String.eqb (sg_id s) id) SEGMENTS = true -> seg_of id ∈ SEGMENTS.
Proof.
  intros H. unfold seg_of. destruct (List.find _ SEGMENTS) as [s|] eqn:E; cbn [default].
  - apply find_some in E as [Hin _]. by apply list_elem_of_In.
  - apply existsb_exists in H as (s & Hin & Hs). by rewrite (find_none _ _ E s Hin) in Hs.
Qed.

Lemma fleet_ok :
  ens fleet (fun l => exists s m c, l = s ++ m ++ c /\ systems 0 RServer 2 s /\ systems 2 RMonitor 12 m /\ systems 14 RClient 102 c).
Proof.
  unfold fleet. eapply ens_bind; [apply ens_and; [apply makeNode_ok|apply makeNode_fixed]|]. intros p [Hp Ep].
  eapply ens_bind; [apply ens_and; [apply makeNode_ok|apply makeNode_fixed]|]. intros f [Hf Ef].
  eapply ens_bind; [apply make_many_ok|].
  { eapply ens_bind; [apply ens_pick_all with (P := fun s => seg_of (sg_id s) ∈ SEGMENTS); [done|]|].
    - repeat constructor; by apply seg_of_known.
    - intros s Hs. by apply ens_ret. }
  intros m Hm. eapply ens_bind; [apply make_clients_ok|].
  { repeat constructor; by apply seg_of_known. }
  intros c Hc. apply ens_ret. exists [p; f], m, c. split; [done|]. split; [|done].
  injection Ep as E1 E2 E3 E4. injection Ef as F1 F2 F3 F4. split; [by rewrite !Forall_cons, Forall_nil|]. split.
  - rewrite !Forall_cons, E3, E4, F3, F4. repeat split; try done; by apply seg_of_known.
  - cbn. by rewrite E1, E2, F1, F2.
Qed.

Lemma ids_distinct : NoDup (map name_of (seq 0 116)) /\ NoDup (map node_id (seq 0 116)).
Proof. split; apply (bool_decide_unpack _); vm_compute; exact I. Qed.

Lemma count_role role l r : Forall (fun x => n_seg x ∈ SEGMENTS /\ n_role x = role) l ->
  length (List.filter (fun n => bool_decide (n_role n = r)) l) = if bool_decide (role = r) then length l else O.
Proof. induction 1 as [|x l [_ Hx] Hl IH]; cbn; [by case_bool_decide|]. rewrite Hx. case_bool_decide; cbn; by rewrite IH. Qed.

(** C32: the offline fleet is a plausible one, whatever the seed.  It always has the same
    116 systems, 2 servers, 12 monitors and 102 clients, with distinct names and
    distinct identifiers.  Whatever is drawn, every percentage - processor, cores, memory,
    swap, fullest disk - lies between 0 and 100, no system uses more memory or swap than it
    has, no link carries more than its rate in a direction, the traffic of all links in
    both directions is at most 0.7 times their rates together, or 1.55 times on a degraded
    system, and each of the four histories has 60 points between 0 and 100.  A system that
    is down shows no load on its cores, memory and links, no uptime and only dead
    processes; its swap, at most 15 percent, and its histories are drawn all the same. *)
Theorem offline_fleet_is_plausible seed :
  let l := (fleet seed).1 in
  length l = 116%nat /\
  (length (List.filter (fun n => bool_decide (n_role n = RServer)) l) = 2 /\
   length (List.filter (fun n => bool_decide (n_role n = RMonitor)) l) = 12 /\
   length (List.filter (fun n => bool_decide (n_role n = RClient)) l) = 102)%nat /\
  NoDup (map n_name l) /\ NoDup (map n_nodeId l) /\ Forall node_ok l.
Proof.
  intros l. destruct (fleet_ok seed) as (s & m & c & E & (Hs & Rs & Es) & (Hm & Rm & Em) & (Hc & Rc & Ec)). fold l in E. rewrite E.
  pose proof (f_equal length Es) as Ls. pose proof (f_equal length Em) as Lm. pose proof (f_equal length Ec) as Lc. rewrite !length_map, length_seq in Ls, Lm, Lc.
  rewrite !List.filter_app, !length_app, (count_role _ _ RServer Rs), (count_role _ _ RServer Rm), (count_role _ _ RServer Rc),
    (count_role _ _ RMonitor Rs), (count_role _ _ RMonitor Rm), (count_role _ _ RMonitor Rc),
    (count_role _ _ RClient Rs), (count_role _ _ RClient Rm), (count_role _ _ RClient Rc), Ls, Lm, Lc.
  split; [done|]. split; [done|].
  assert (map (fun x => (n_name x, n_nodeId x)) (s ++ m ++ c) = map (fun j => (name_of j, node_id j)) (seq 0 116)) as Eall.
  { by rewrite !map_app, Es, Em, Ec. }
  split; [|split; [|by repeat (apply Forall_app; split)]].
  - rewrite <- (map_map (fun x => (n_name x, n_nodeId x)) fst), Eall, map_map. apply ids_distinct.
  - rewrite <- (map_map (fun x => (n_name x, n_nodeId x)) snd), Eall, map_map. apply ids_distinct.
Qed.

(** The first draws of the seed, and two wide spans and two history steps computed both
    ways: over the fixed power of two and with the doubles of the language. *)
Example first_draw : (rng SEED).1 = 3051583158.
Proof. reflexivity. Qed.

Example spans_are_doubles :
  forallb (fun kn => nequ (ofZ (Z.shiftr (fl (kn.1 * kn.2)) 32)) (nfloor (nmul (ndiv (ofZ kn.1) (ofZ (2 ^ 32))) (ofZ kn.2))))
    [(3051583158, 65003713); (4294967295, 65003713); (2863311531, 50331649)] = true.
Proof. vm_compute. reflexivity. Qed.

Definition double_of (x : Z) : num := binary_normalize 53 1024 x (-100) false.

Example steps_are_doubles :
  forallb (fun k => nequ (double_of (dadd (12 * SC) (dadd (dmul (dunit k - 2 ^ 99) (dlit 12 10)) (dlit 6 100))))
             (nadd (ofZ 12) (nadd (nmul (nsub (ndiv (ofZ k) (ofZ (2 ^ 32))) (lit 5 1)) (lit 12 1)) (lit 6 2))))
    [3051583158; 1; 2147483647; 4294967295] = true.
Proof. vm_compute. reflexivity. Qed.
