(* ===== verification/FixtureBoard.v ===== *)
(** * The offline fleet: probes, alerts, links and rollups (data.jsx)

    What the offline fixture derives from its systems: the probes with the outcome at
    each vantage, the alert rules and the alerts they raise, the switch port of each
    system and the counts of the header.  Drawing the monitors of a probe sorts them with
    a random comparator, which the language leaves to the engine: [shuffle] stands for
    it, and nothing is assumed of it. *)

From Stdlib Require Import ZArith Lia Ascii Sorting.Sorted.
From stdpp Require Import strings pretty list gmap.
From S2P Require Import Prelude JsValue Fixture.

Local Open Scope string_scope.
Local Open Scope list_scope.
Local Open Scope Z_scope.
Local Open Scope gen_scope.

(** ** Probes *)

Record fvantage := FVantage {
  v_monNode : string; v_monName : string; v_outcome : string; v_rtt : Z; v_jitter : Z; v_loss : Z; v_kbps : Z; v_sampled : Z }.

Record fprobe := FProbe {
  b_target : string; b_host : string; b_hostNode : string; b_port : Z; b_proto : string; b_label : string;
  b_repl : Z; b_vantages : list fvantage; b_state : fstate }.

Definition probeServices : list (string * Z * string) :=
  [ ("tcp", 443, "web"); ("tcp", 5432, "postgres"); ("tcp", 3306, "mariadb"); ("icmp", 0, "gateway"); ("udp", 53, "dns");
    ("tcp", 6379, "redis"); ("tcp", 22, "ssh"); ("tcp", 8200, "vault"); ("tcp", 9100, "node-exp") ].

Definition is_ok (v : fvantage) : bool := String.eqb (v_outcome v) "ok".

(** The outcome of one vantage: a host that is down never answers; a partial failure is
    the first vantage's. *)
Definition draw_outcome (hostBad partial : bool) (vi : nat) : G string :=
  if hostBad then pick "" ["timeout"; "unreachable"; "refused"]
  else if partial && (vi =? 0)%nat then pick "" ["timeout"; "tls_fail"]
  else bad <-- chance 6 100; if bad then pick "" ["timeout"; "proto_err"] else ret "ok".

(** A figure that is drawn only for an answer. *)
Definition when_ok (ok : bool) (m : G Z) (z : Z) : G Z := if ok then m else ret z.

Definition draw_vantage (proto : string) (hostBad partial : bool) (vi : nat) (m : node) : G fvantage :=
  outcome <-- draw_outcome hostBad partial vi;
  let ok := String.eqb outcome "ok" in
  rtt <-- when_ok ok (rint 180 (if String.eqb proto "icmp" then 4000 else 28000)) 0;
  jitter <-- when_ok ok (rint 40 2200) 0;
  loss <-- when_ok ok (c <-- chance 7 10; if c then ret 0 else rint 1 45) 1000;
  kbps <-- when_ok ok (rint 2000 940000) 0;
  sampled <-- rint 0 2;
  ret (FVantage (n_nodeId m) (n_name m) outcome rtt jitter loss kbps sampled).

Fixpoint draw_vantages (proto : string) (hostBad partial : bool) (vi : nat) (l : list node) : G (list fvantage) :=
  match l with
  | [] => ret []
  | m :: r => v <-- draw_vantage proto hostBad partial vi m; vs <-- draw_vantages proto hostBad partial (S vi) r; ret (v :: vs)
  end.

Definition probe_state (vs : list fvantage) : fstate :=
  if forallb (fun v => negb (is_ok v)) vs then Down else if existsb (fun v => negb (is_ok v)) vs then Degraded else Up.

(** [`${proto}:${name}:${port || ""}`] without a trailing colon. *)
Definition target_id (proto name : string) (port : Z) : string := proto +:+ ":" +:+ name +:+ (if port =? 0 then "" else ":" +:+ pretty port).

Section Probes.
Variable shuffle : list node -> G (list node).

Definition draw_probe (monitors : list node) (h : node) : G fprobe :=
  svc <-- pick ("", 0, "") probeServices;
  let '(proto, port, label) := svc in
  order <-- shuffle monitors;
  extra <-- chance 3 10;
  let pickedMons := take (2 + if extra then 1 else 0) order in
  partial <-- chance 12 100;
  vs <-- draw_vantages proto (bool_decide (n_state h = Down)) partial 0 pickedMons;
  ret (FProbe (target_id proto (n_name h) port) (n_fqdn h) (n_nodeId h) port proto label 2 vs (probe_state vs)).

Fixpoint draw_each (monitors hosts : list node) : G (list fprobe) :=
  match hosts with
  | [] => ret []
  | h :: r => p <-- draw_probe monitors h; l <-- draw_each monitors r; ret (p :: l)
  end.

Definition probes (nodes : list node) : G (list fprobe) :=
  draw_each (List.filter (fun n => bool_decide (n_role n = RMonitor)) nodes)
    (take 26 (List.filter (fun n => negb (bool_decide (n_role n = RMonitor))) nodes)).

End Probes.

(** ** Rules and alerts *)

Inductive fsev := Crit | Warn | Info.

#[global] Instance fsev_dec : EqDecision fsev.
Proof. solve_decision. Defined.

Record frule := FRule {
  fr_id : Z; fr_name : string; fr_scope : string; fr_metric : string; fr_op : string; fr_threshold : Z; fr_unit : string;
  fr_for : Z; fr_sev : fsev; fr_enabled : bool }.

Definition r_cpu := FRule 1 "CPU saturation" "host" "cpuAvgMilli" "gt" 90 "%" 120 Warn true.
Definition r_ram := FRule 2 "Memory pressure" "host" "ramUsedPct" "gt" 92 "%" 180 Warn true.
Definition r_disk := FRule 3 "Disk almost full" "host" "diskUsedPct" "gt" 95 "%" 0 Crit true.
Definition r_host := FRule 4 "Host unreachable" "host" "lastSeenSec" "gt" 60 "s" 0 Crit true.
Definition r_swap := FRule 5 "Swap thrash" "host" "swapUsedPct" "gt" 60 "%" 300 Info true.
Definition r_loss := FRule 6 "Probe packet loss" "probe" "lossPermille" "gt" 50 "‰" 60 Warn true.
Definition r_rtt := FRule 7 "Probe latency high" "probe" "rttMicros" "gt" 25000 "µs" 90 Warn true.
Definition r_svc := FRule 8 "Service down (any vantage)" "probe" "outcome" "transition" 0 "" 0 Crit true.
Definition r_nic := FRule 9 "NIC error burst" "host" "ifErrs" "gt" 100 "/s" 60 Info false.
Definition r_proc := FRule 10 "Watched proc missing" "host" "procRunState" "transition" 0 "" 0 Crit true.

Definition rules : list frule := [r_cpu; r_ram; r_disk; r_host; r_swap; r_loss; r_rtt; r_svc; r_nic; r_proc].

Record falert := FAlert {
  f_eventId : Z; f_ruleId : Z; f_ruleName : string; f_node : string; f_nodeId : string; f_segName : string;
  f_sev : fsev; f_detail : string; f_fired : Z; f_cleared : bool; f_clearedAgo : option Z;
  f_ackedBy : option string; f_ackedAgo : option Z; f_status : string }.

(** The system an alert names: a node, or the host of a probe. *)
Record subject := Subject { s_name : string; s_id : string; s_seg : string }.
Definition of_node (n : node) : subject := Subject (n_name n) (n_nodeId n) (sg_name (n_seg n)).
Definition of_probe (p : fprobe) : subject := Subject (hd "" (split_char "."%char (b_host p))) (b_hostNode p) "—".

Record extra := Extra { x_clearedAgo : option Z; x_ackedAgo : option Z; x_ackedBy : option string }.
Definition no_extra : extra := Extra None None None.

(** [fire]: the event number counts the alerts raised so far. *)
Definition fire (alerts : list falert) (s : subject) (r : frule) (detail : string) (mins : Z) (cleared : bool) (x : extra) : G (list falert) :=
  clearedAgo <-- (if cleared then match x_clearedAgo x with Some c => ret (Some c) | None => c <-- rint 2 55; ret (Some (Z.min mins c)) end else ret None);
  let acked := match x_ackedAgo x with Some _ => true | None => false end in
  ret (alerts ++ [FAlert (9000 + Z.of_nat (length alerts)) (fr_id r) (fr_name r) (s_name s) (s_id s) (s_seg s) (fr_sev r) detail mins cleared clearedAgo
         (if acked then Some (default "operator" (x_ackedBy x)) else None) (x_ackedAgo x)
         (if acked then "acked" else if cleared then "cleared" else "active")]).

(** An alert raised when a reading is over its limit; its age is drawn only then. *)
Definition fire_over (c : bool) (s : subject) (r : frule) (detail : string) (lo hi : Z) (alerts : list falert) : G (list falert) :=
  if c then m <-- rint lo hi; fire alerts s r detail m false no_extra else ret alerts.

Definition down_detail (n : node) : string :=
  "No report received for " +:+ pretty (n_lastSeen n) +:+ "m — last seen " +:+ pretty (n_lastSeen n) +:+ "m ago".

(** The alerts of one system. *)
Definition node_alerts (n : node) (alerts : list falert) : G (list falert) :=
  match n_state n with
  | Down =>
      al <-- fire alerts (of_node n) r_host (down_detail n) (n_lastSeen n) false no_extra;
      match List.find (fun p => String.eqb (p_run p) "Z") (n_procs n) with
      | Some dead => fire al (of_node n) r_proc ("Watched process '" +:+ p_name dead +:+ "' not running (state Z)") (n_lastSeen n - 1) false no_extra
      | None => ret al
      end
  | Degraded =>
      let s := of_node n in
      al <-- fire_over (88 <? n_cpu n) s r_cpu ("CPU avg " +:+ pretty (n_cpu n) +:+ "% sustained over threshold (90%)") 2 40 alerts;
      al <-- fire_over (90 <? n_ram n) s r_ram ("RAM " +:+ pretty (n_ram n) +:+ "% of " +:+ pretty (round_quot (n_ramTotal n) 1048576) +:+ "GB") 2 50 al;
      al <-- fire_over (94 <? n_diskMax n) s r_disk
               ("Mount at " +:+ pretty (n_diskMax n) +:+ "% — "
                +:+ pretty (round_quot (match n_disks n with d :: _ => k_totalGb d | [] => 0 end * (100 - n_diskMax n)) 100) +:+ "GB free") 1 20 al;
      fire_over (60 <? n_swap n) s r_swap ("Swap " +:+ pretty (n_swap n) +:+ "% — possible memory thrash") 5 120 al
  | _ => ret alerts
  end.

Definition probe_alerts (p : fprobe) (alerts : list falert) : G (list falert) :=
  match b_state p with
  | Down =>
      m <-- rint 1 30;
      fire alerts (of_probe p) r_svc
        (b_target p +:+ " unreachable from all " +:+ pretty (N.of_nat (length (b_vantages p))) +:+ " vantages") m false no_extra
  | Degraded =>
      match List.find (fun v => negb (is_ok v)) (b_vantages p) with
      | Some v =>
          m <-- rint 1 25;
          fire alerts (of_probe p) r_loss (b_target p +:+ ": " +:+ v_outcome v +:+ " from monitor '" +:+ v_monName v +:+ "' (split vantage)") m false no_extra
      | None => ret alerts
      end
  | _ => ret alerts
  end.

Fixpoint each {A} (f : A -> list falert -> G (list falert)) (l : list A) (alerts : list falert) : G (list falert) :=
  match l with
  | [] => ret alerts
  | x :: r => al <-- f x alerts; each f r al
  end.

(** The cleared and acknowledged samples: each is raised on a system that is up. *)
Section Samples.
Variable nodes : list node.

Definition pick_up (d : node) : G node := pick d (List.filter (fun n => bool_decide (n_state n = Up)) nodes).

Definition old_sample (d : node) (alerts : list falert) : G (list falert) :=
  n <-- pick_up d;
  r <-- pick r_cpu [r_cpu; r_ram; r_loss];
  m <-- rint 120 1200;
  c <-- rint 70 900;
  fire alerts (of_node n) r "Auto-cleared after recovery" m true (Extra (Some c) None None).

Definition recent_sample (d : node) (alerts : list falert) : G (list falert) :=
  n <-- pick_up d;
  m <-- rint 30 55;
  c <-- rint 4 40;
  fire alerts (of_node n) r_ram "RAM pressure eased — back under tolerance" m true (Extra (Some c) None None).

Definition acked_sample (d : node) (alerts : list falert) : G (list falert) :=
  n <-- pick_up d;
  m <-- rint 80 400;
  k <-- rint 10 120;
  fire alerts (of_node n) r_cpu "CPU spike during nightly backup — acknowledged, expected" m false (Extra None (Some k) (Some "jason")).

Definition samples (d : node) (alerts : list falert) : G (list falert) :=
  al <-- each (fun _ : nat => old_sample d) (seq 0 6) alerts; al <-- recent_sample d al; acked_sample d al.
End Samples.

(** The order of the board: active first, then by severity, then by age. *)
Definition sev_rank (s : fsev) : Z := match s with Crit => 0 | Warn => 1 | Info => 2 end.

Definition alert_le (a b : falert) : bool :=
  if eqb (f_cleared a) (f_cleared b)
  then if sev_rank (f_sev a) =? sev_rank (f_sev b) then f_fired a <=? f_fired b else sev_rank (f_sev a) <? sev_rank (f_sev b)
  else f_cleared b.

Definition alert_board (d : node) (nodes : list node) (ps : list fprobe) : G (list falert) :=
  al <-- each node_alerts nodes []; al <-- each probe_alerts ps al; al <-- samples nodes d al; ret (sort_by alert_le al).

(** [activeCrit] and [activeWarn] of the header. *)
Definition active_count (s : fsev) (l : list falert) : nat :=
  length (List.filter (fun a => match f_ackedAgo a with Some _ => false | None => negb (f_cleared a) && bool_decide (f_sev a = s) end) l).

(** ** What the alerts are *)

(** Event numbers follow the order of the alerts. *)
Definition ids_ok (l : list falert) : Prop := map f_eventId l = map (fun i => 9000 + Z.of_nat i) (seq 0 (length l)).

(** [al] extends [alerts] with alerts that all have the property. *)
Definition grows (P : falert -> Prop) (alerts al : list falert) : Prop :=
  (ids_ok alerts -> ids_ok al) /\ exists new, al = alerts ++ new /\ Forall P new.

Lemma grows_refl P l : grows P l l.
Proof. split; [done|]. exists []. by rewrite app_nil_r. Qed.

Lemma grows_trans P a b c : grows P a b -> grows P b c -> grows P a c.
Proof.
  intros [Hi (n & -> & Hn)] [Hi' (n' & -> & Hn')]. split; [tauto|]. exists (n ++ n'). by rewrite app_assoc, Forall_app.
Qed.

Lemma grows_mono (P Q : falert -> Prop) a b : (forall x, P x -> Q x) -> grows P a b -> grows Q a b.
Proof. intros Hi [Hids (n & -> & Hn)]. split; [done|]. exists n. split; [done|]. eapply Forall_impl; [exact Hn|done]. Qed.

Lemma grows_keeps P a b x : grows P a b -> x ∈ a -> x ∈ b.
Proof. intros [_ (n & -> & _)] Hx. apply elem_of_app. by left. Qed.

(** What one call of [fire] appends. *)
Definition raised (s : subject) (r : frule) (cleared : bool) (x : extra) (a : falert) : Prop :=
  f_nodeId a = s_id s /\ f_ruleId a = fr_id r /\ f_sev a = fr_sev r /\ f_cleared a = cleared /\ f_ackedAgo a = x_ackedAgo x.

Lemma ens_fire alerts s r detail mins cleared x :
  ens (fire alerts s r detail mins cleared x) (fun al => grows (raised s r cleared x) alerts al /\ exists a, a ∈ al /\ raised s r cleared x a).
Proof.
  unfold fire. eapply ens_bind; [apply ens_any|]. intros c _. apply ens_ret. set (a := FAlert _ _ _ _ _ _ _ _ _ _ _ _ _ _).
  assert (raised s r cleared x a) as Ha by done. split; [split|].
  - unfold ids_ok. intros Hi. by rewrite map_app, Hi, length_app, seq_app, map_app.
  - exists [a]. split; [done|by constructor].
  - exists a. split; [apply elem_of_app; right; by left|done].
Qed.

Lemma fire_grows (P : falert -> Prop) alerts s r detail mins cleared x :
  (forall a, raised s r cleared x a -> P a) -> ens (fire alerts s r detail mins cleared x) (grows P alerts).
Proof. intros HP. eapply ens_mono; [apply ens_fire|]. intros al [Hg _]. by eapply grows_mono. Qed.

Lemma fire_over_grows (P : falert -> Prop) c s r detail lo hi alerts :
  (c = true -> forall a, raised s r false no_extra a -> P a) -> ens (fire_over c s r detail lo hi alerts) (grows P alerts).
Proof.
  intros HP. unfold fire_over. apply ens_if; intros E; [|apply ens_ret, grows_refl].
  eapply ens_bind; [apply ens_any|]. intros m _. apply fire_grows. auto.
Qed.

Lemma bind_grows P alerts (m : G (list falert)) (k : list falert -> G (list falert)) :
  ens m (grows P alerts) -> (forall al, ens (k al) (grows P al)) -> ens (bind m k) (grows P alerts).
Proof.
  intros Hm Hk. eapply ens_bind; [exact Hm|]. intros al Hal. eapply ens_mono; [apply Hk|]. intros al' Hal'. by eapply grows_trans.
Qed.

Lemma each_grows {A} (f : A -> list falert -> G (list falert)) P l alerts :
  (forall x al, x ∈ l -> ens (f x al) (grows P al)) -> ens (each f l alerts) (grows P alerts).
Proof.
  revert alerts. induction l as [|x l IH]; intros alerts Hf; cbn [each]; [apply ens_ret, grows_refl|].
  apply bind_grows; [apply Hf; by left|]. intros al. apply IH. intros y al' Hy. apply Hf. by right.
Qed.

(** The alert of one element is still there after the others. *)
Lemma each_keeps {A} (f : A -> list falert -> G (list falert)) (Q : falert -> Prop) l x alerts :
  (forall y al, ens (f y al) (grows (fun _ => True) al)) -> (forall al, ens (f x al) (fun al' => exists a, a ∈ al' /\ Q a)) ->
  x ∈ l -> ens (each f l alerts) (fun al => exists a, a ∈ al /\ Q a).
Proof.
  intros Hg Hx. revert alerts. induction l as [|y l IH]; intros alerts Hin; cbn [each]; [by apply not_elem_of_nil in Hin|].
  apply elem_of_cons in Hin as [<-|Hin].
  - eapply ens_bind; [apply Hx|]. intros al (a & Ha & HQ). eapply ens_mono; [apply each_grows; auto|].
    intros al' Hgr. exists a. split; [by eapply grows_keeps|done].
  - eapply ens_bind; [apply ens_any|]. intros al _. by apply IH.
Qed.

(** Why an alert is open: its system is down, or degraded with the reading of the rule
    over the limit, or a probe of its host fails. *)
Definition node_cause (n : node) (a : falert) : Prop :=
  f_nodeId a = n_nodeId n /\
  ((n_state n = Down /\ f_sev a = Crit /\ (f_ruleId a = 4 \/ f_ruleId a = 10)) \/
   (n_state n = Degraded /\
    ((f_ruleId a = 1 /\ 88 < n_cpu n) \/ (f_ruleId a = 2 /\ 90 < n_ram n) \/ (f_ruleId a = 3 /\ 94 < n_diskMax n) \/ (f_ruleId a = 5 /\ 60 < n_swap n)))).

Definition probe_cause (p : fprobe) (a : falert) : Prop :=
  f_nodeId a = b_hostNode p /\ ((b_state p = Down /\ f_ruleId a = 8) \/ (b_state p = Degraded /\ f_ruleId a = 6)).

Definition is_open (a : falert) : Prop := f_cleared a = false /\ f_ackedAgo a = None.

Lemma node_alerts_cause n alerts : ens (node_alerts n alerts) (grows (node_cause n) alerts).
Proof.
  unfold node_alerts. destruct (n_state n) eqn:Es; try apply ens_ret, grows_refl.
  - repeat (apply bind_grows; [|intros ?]); apply fire_over_grows; intros Hc a (E & Er & _); apply Z.ltb_lt in Hc; (split; [done|]); right; cbn in Er; auto 10.
  - apply bind_grows; [apply fire_grows|intros al; destruct (List.find _ _); [apply fire_grows|apply ens_ret, grows_refl]];
      intros a (E & Er & Esv & _); (split; [done|]); left; cbn in *; auto.
Qed.

Lemma probe_alerts_cause p alerts : ens (probe_alerts p alerts) (grows (probe_cause p) alerts).
Proof.
  unfold probe_alerts. destruct (b_state p) eqn:Es; try apply ens_ret, grows_refl.
  - destruct (List.find _ _); [|apply ens_ret, grows_refl]. eapply ens_bind; [apply ens_any|]. intros m _.
    apply fire_grows. intros a (E & Er & _). split; [done|]. by right.
  - eapply ens_bind; [apply ens_any|]. intros m _. apply fire_grows. intros a (E & Er & _). split; [done|]. by left.
Qed.

(** Skip the draws before a call of [fire]. *)
Ltac to_fire :=
  lazymatch goal with
  | |- ens (fire _ _ _ _ _ _ _) _ => idtac
  | |- _ => eapply ens_bind; [apply ens_any|intros ? _; to_fire]
  end.

(** The samples are closed or acknowledged. *)
Lemma samples_settled nodes d alerts : ens (samples nodes d alerts) (grows (fun a => ~ is_open a) alerts).
Proof.
  unfold samples, old_sample, recent_sample, acked_sample. apply bind_grows; [apply each_grows; intros _ al _|intros al; apply bind_grows; [|intros al']];
    to_fire; apply fire_grows; intros a (_ & _ & _ & Ec & Ea) [Hc Hk]; cbn in *; congruence.
Qed.

(** The order of the board is total and transitive. *)
Lemma board_le_total a b : alert_le a b = false -> alert_le b a = true.
Proof.
  unfold alert_le. destruct (f_cleared a), (f_cleared b); cbn; try done;
    (destruct (Z.eqb_spec (sev_rank (f_sev a)) (sev_rank (f_sev b))), (Z.eqb_spec (sev_rank (f_sev b)) (sev_rank (f_sev a)))); lia.
Qed.

Lemma board_le_trans a b c : alert_le a b = true -> alert_le b c = true -> alert_le a c = true.
Proof.
  unfold alert_le. destruct (f_cleared a), (f_cleared b), (f_cleared c); cbn; try done;
    repeat match goal with |- context [?x =? ?y] => destruct (Z.eqb_spec x y) end; lia.
Qed.

Lemma ids_distinct_of l : ids_ok l -> NoDup (map f_eventId l).
Proof.
  unfold ids_ok. intros ->.
  assert (Inj (=) (=) (fun i => 9000 + Z.of_nat i)) by (intros i j; lia). apply (NoDup_fmap_2 (fun i => 9000 + Z.of_nat i)), NoDup_seq.
Qed.

Lemma node_down_alert n alerts : n_state n = Down -> ens (node_alerts n alerts) (fun al => exists a, a ∈ al /\ raised (of_node n) r_host false no_extra a).
Proof.
  intros E. unfold node_alerts. rewrite E. eapply ens_bind; [apply ens_fire|]. intros al [_ (a & Ha & Hr)].
  destruct (List.find _ _); [|apply ens_ret; eauto]. eapply ens_mono; [apply ens_fire|]. intros al' [Hg _]. exists a. split; [by eapply grows_keeps|done].
Qed.

(** Everything the board holds has a cause or is settled, and event numbers are unique. *)
Definition caused (nodes : list node) (ps : list fprobe) (a : falert) : Prop :=
  is_open a -> (exists n, n ∈ nodes /\ node_cause n a) \/ (exists p, p ∈ ps /\ probe_cause p a).

Lemma alerts_caused nodes d ps :
  ens (al <-- each node_alerts nodes []; al <-- each probe_alerts ps al; samples nodes d al) (grows (caused nodes ps) []).
Proof.
  apply bind_grows; [|intros al; apply bind_grows; [|intros al']].
  - apply each_grows. intros n al Hn. eapply ens_mono; [apply node_alerts_cause|]. intros al'. apply grows_mono. intros a Ha _. eauto.
  - apply each_grows. intros p al' Hp. eapply ens_mono; [apply probe_alerts_cause|]. intros al''. apply grows_mono. intros a Ha _. eauto.
  - eapply ens_mono; [apply samples_settled|]. intros al''. apply grows_mono. by intros a Ha ?.
Qed.

(** The same computation with the draws of the board. *)
Lemma alert_board_sorts d nodes ps seed :
  (alert_board d nodes ps seed).1 = sort_by alert_le ((al <-- each node_alerts nodes []; al <-- each probe_alerts ps al; samples nodes d al) seed).1.
Proof. unfold alert_board, bind, ret. destruct (each node_alerts nodes [] seed) as [al s]. destruct (each probe_alerts ps al s) as [al' s']. by destruct (samples nodes d al' s'). Qed.

Lemma down_alert_kept nodes d ps n :
  n ∈ nodes -> n_state n = Down ->
  ens (al <-- each node_alerts nodes []; al <-- each probe_alerts ps al; samples nodes d al) (fun al => exists a, a ∈ al /\ raised (of_node n) r_host false no_extra a).
Proof.
  intros Hn Hd. eapply ens_bind; [apply (each_keeps node_alerts (raised (of_node n) r_host false no_extra) nodes n)|]; [|intros al; by apply node_down_alert|done|].
  - intros y al. eapply ens_mono; [apply node_alerts_cause|]. intros al'. by apply grows_mono.
  - intros al (a & Ha & Hr). eapply ens_mono.
    + eapply bind_grows; [apply each_grows; intros p al' _; apply (ens_mono _ (grows (probe_cause p) al')); [apply probe_alerts_cause|]; intros al''; by apply (grows_mono _ (fun _ => True))|].
      intros al'. eapply ens_mono; [apply samples_settled|]. intros al''. by apply grows_mono.
    + intros al' Hg. exists a. split; [by eapply grows_keeps|done].
Qed.

(** The alerts of the offline fixture are the alerts of its fleet.  Whatever is drawn,
    every system that is down has an open critical alert of the rule for an unreachable
    host; every open alert has its cause in the fleet or in a probe (a system that is
    down, a degraded system with the reading of the rule over the limit the fixture uses,
    a probe that fails); no two alerts share an event number; and the board lists
    them with the open ones first, by severity, then by age. *)
Theorem offline_alerts_have_causes d nodes ps seed :
  let l := (alert_board d nodes ps seed).1 in
  (forall n, n ∈ nodes -> n_state n = Down -> exists a, a ∈ l /\ f_nodeId a = n_nodeId n /\ f_ruleId a = 4 /\ f_sev a = Crit /\ is_open a) /\
  (forall a, a ∈ l -> caused nodes ps a) /\
  NoDup (map f_eventId l) /\ StronglySorted (fun a b => alert_le a b = true) l.
Proof.
  intros l. subst l. rewrite alert_board_sorts.
  destruct (alerts_caused nodes d ps seed) as [Hids (new & Enew & Hc)]. rewrite app_nil_l in Enew. split; [|split; [|split]].
  - intros n Hn Hd. destruct (down_alert_kept nodes d ps n Hn Hd seed) as (a & Ha & E & Er & Es & Ec & Ek).
    exists a. rewrite (sort_by_perm alert_le). by repeat split.
  - intros a Ha. rewrite (sort_by_perm alert_le), Enew in Ha. by eapply Forall_forall in Hc.
  - rewrite (sort_by_perm alert_le). by apply ids_distinct_of, Hids.
  - apply sort_by_sorted; [apply board_le_total|apply board_le_trans].
Qed.

(** ** Switch ports and rollups *)

Record gear := Gear { g_id : string; g_name : string; g_kind : string; g_model : string; g_seg : string; g_ports : Z; g_uplink : option string; g_wireless : bool }.

Definition NETGEAR : list gear :=
  [ Gear "gw" "gw-core" "gateway" "pfSense+ · 10G" "core" 8 None false;
    Gear "sw-core" "sw-core-01" "switch" "Arista 7050X · 48p" "core" 48 (Some "gw") false;
    Gear "sw-compute" "sw-comp-01" "switch" "Arista 7050X · 48p" "compute" 48 (Some "sw-core") false;
    Gear "sw-storage" "sw-stor-01" "switch" "MikroTik CRS · 24p" "storage" 24 (Some "sw-core") false;
    Gear "sw-dmz" "sw-dmz-01" "switch" "MikroTik CRS · 16p" "dmz" 16 (Some "gw") false;
    Gear "ap-lab" "ap-lab-01" "ap" "UniFi U6-Pro · wifi6" "lab" 0 (Some "sw-core") true;
    Gear "ap-iot" "ap-iot-01" "ap" "UniFi U6-LR · wifi6" "iot" 0 (Some "sw-core") true ].

Definition SEG_GEAR : list (string * string) :=
  [("core", "sw-core"); ("compute", "sw-compute"); ("storage", "sw-storage"); ("dmz", "sw-dmz"); ("lab", "ap-lab"); ("iot", "ap-iot")].

(** [SEG_GEAR[n.segId] || "sw-core"] and [WIRELESS_SEGS[n.segId]]. *)
Definition gear_of (segId : string) : string := default "sw-core" (snd <$> List.find (fun sg => String.eqb sg.1 segId) SEG_GEAR).
Definition is_wireless (segId : string) : bool := String.eqb segId "lab" || String.eqb segId "iot".

(** The link of a system: a numbered port of its switch, or a radio with its level. *)
Inductive port := Wired (n : nat) | Wireless (rssi : Z).
Record flink := FLink { l_uplink : string; l_speed : Z; l_port : port; l_lldp : bool }.

Definition port_name (p : port) : string := match p with Wired n => "Gi1/0/" +:+ pretty (N.of_nat n) | Wireless _ => "wlan0" end.

(** [portCtr]: the last port given out on each switch. *)
Fixpoint links (ctr : gmap string nat) (nodes : list node) : G (list flink) :=
  match nodes with
  | [] => ret []
  | n :: r =>
      let gid := gear_of (sg_id (n_seg n)) in
      let speed := match n_ifaces n with i :: _ => i_cap i | [] => 1000 end in
      if is_wireless (sg_id (n_seg n))
      then k <-- rint 0 44; l <-- links ctr r; ret (FLink gid speed (Wireless (- (42 + k))) false :: l)
      else let p := S (default O (ctr !! gid)) in l <-- links (<[gid := p]> ctr) r; ret (FLink gid speed (Wired p) true :: l)
  end.

Definition attached (g : gear) (ls : list flink) : nat := length (List.filter (fun l => String.eqb (l_uplink l) (g_id g)) ls).

(** [rollup]: the total and the count of each state. *)
Record froll := FRoll { ro_total : nat; ro_up : nat; ro_degraded : nat; ro_down : nat; ro_unknown : nat }.

Definition count_state (s : fstate) (l : list node) : nat := length (List.filter (fun n => bool_decide (n_state n = s)) l).
Definition rollup (l : list node) : froll := FRoll (length l) (count_state Up l) (count_state Degraded l) (count_state Down l) (count_state Unknown l).
Definition in_seg (s : segment) (l : list node) : list node := List.filter (fun n => String.eqb (sg_id (n_seg n)) (sg_id s)) l.
Definition segRollup (s : segment) (l : list node) : froll := rollup (in_seg s l).

(** The wired ports of a list of links, with their switch. *)
Definition wired (l : list flink) : list (string * nat) := omap (fun k => match l_port k with Wired p => Some (l_uplink k, p) | Wireless _ => None end) l.

(** Ports are given out upwards, so that none is given out twice. *)
Lemma links_ports nodes : forall ctr,
  ens (links ctr nodes) (fun l => length l = length nodes /\ NoDup (wired l) /\ Forall (fun gp => default O (ctr !! gp.1) < gp.2)%nat (wired l) /\
    Forall (fun k => match l_port k with Wireless r => -86 <= r <= -42 | Wired _ => True end) l).
Proof.
  induction nodes as [|n r IH]; intros ctr; cbn [links].
  { apply ens_ret. repeat split; constructor. }
  generalize (gear_of (sg_id (n_seg n))) as gid. intros gid. apply ens_if; intros _.
  - eapply ens_bind; [apply (ens_rint 0 44); lia|]. intros k Hk. eapply ens_bind; [apply IH|]. intros l (Hl & Hn & Hf & Hr). apply ens_ret.
    split; [cbn; by rewrite Hl|]. split; [done|]. split; [done|]. constructor; [cbn in *; lia|done].
  - eapply ens_bind; [apply IH|]. intros l (Hl & Hn & Hf & Hr). apply ens_ret. cbn [wired omap list_omap l_port l_uplink].
    split; [cbn; by rewrite Hl|]. rewrite Forall_forall in Hf. split; [|split; [|by constructor]].
    + constructor; [|done]. intros Hin. apply Hf in Hin. cbn in Hin. rewrite lookup_insert_eq in Hin. cbn in Hin. lia.
    + constructor; [cbn; lia|]. apply Forall_forall. intros [g p] Hin. apply Hf in Hin. cbn in *.
      destruct (decide (g = gid)) as [Eg|Hne]; [rewrite Eg in *; rewrite lookup_insert_eq in Hin; cbn in Hin; lia|by rewrite lookup_insert_ne in Hin by done].
Qed.

Lemma count_total l : length l = (count_state Up l + count_state Degraded l + count_state Down l + count_state Unknown l)%nat.
Proof. unfold count_state. induction l as [|n l IH]; cbn; [done|]. destruct (n_state n); repeat case_bool_decide; try done; cbn; lia. Qed.

(** A system of a known segment is in exactly one of the six lists. *)
Lemma count_segments (f : node -> bool) l :
  Forall (fun n => n_seg n ∈ SEGMENTS) l ->
  length (List.filter f l) = foldr (fun s n => length (List.filter f (in_seg s l)) + n)%nat O SEGMENTS.
Proof.
  induction 1 as [|n l Hn Hl IH]; [done|]. cbn [List.filter in_seg].
  apply list_elem_of_In in Hn. unfold in_seg in *. repeat destruct Hn as [Hn|Hn]; [..|done]; cbn; rewrite <- Hn; cbn; destruct (f n) eqn:E; cbn; rewrite ?E; cbn; cbn in IH; rewrite ?IH; lia.
Qed.

(** The counts of the header add up and no switch port is given out twice: in every
    generated fleet the four states make the total, the six segments make the fleet in
    each state, and the wired systems have distinct ports. *)
Theorem offline_counts_add_up seed seed' :
  let l := (fleet seed).1 in
  (ro_total (rollup l) = ro_up (rollup l) + ro_degraded (rollup l) + ro_down (rollup l) + ro_unknown (rollup l))%nat /\
  (forall f : node -> bool, length (List.filter f l) = foldr (fun s n => length (List.filter f (in_seg s l)) + n)%nat O SEGMENTS) /\
  length (links ∅ l seed').1 = length l /\ NoDup (wired (links ∅ l seed').1).
Proof.
  intros l. split; [apply count_total|]. split; [|split; apply links_ports]. intros f. apply count_segments. subst l.
  destruct (fleet_ok seed) as (s & m & c & -> & (_ & Hs & _) & (_ & Hm & _) & (_ & Hc & _)).
  rewrite !Forall_app. repeat split; (eapply Forall_impl; [eassumption|]); by intros n [? _].
Qed.

(** A probe of a host that is down reports it down, at every vantage. *)
Lemma ens_outcome_bad partial vi : ens (draw_outcome true partial vi) (fun o => o <> "ok").
Proof. apply ens_pick_all; [done|]. by repeat constructor. Qed.

Lemma ens_vantages_bad proto partial vi l :
  ens (draw_vantages proto true partial vi l) (fun vs => length vs = length l /\ forallb (fun v => negb (is_ok v)) vs = true).
Proof.
  revert vi. induction l as [|m l IH]; intros vi; cbn [draw_vantages]; [by apply ens_ret|].
  eapply (ens_bind _ _ (fun v => is_ok v = false)).
  - unfold draw_vantage. eapply ens_bind; [apply ens_outcome_bad|]. intros o Ho. cbv zeta. repeat (eapply ens_bind; [apply ens_any|intros ? _]).
    apply ens_ret. unfold is_ok. cbn. by apply String.eqb_neq.
  - intros v Hv. eapply ens_bind; [apply IH|]. intros vs [Hl Hb]. apply ens_ret. cbn. by rewrite Hv, Hl, Hb.
Qed.

Theorem down_host_probe_is_down shuffle monitors h :
  n_state h = Down -> ens (draw_probe shuffle monitors h) (fun p => b_state p = Down /\ b_hostNode p = n_nodeId h).
Proof.
  intros Hd. unfold draw_probe. eapply ens_bind; [apply ens_any|]. intros [[proto port] label] _. do 3 (eapply ens_bind; [apply ens_any|intros ? _]).
  rewrite Hd, bool_decide_eq_true_2 by done. eapply ens_bind; [apply ens_vantages_bad|]. intros vs [_ Hb]. apply ens_ret. cbn.
  unfold probe_state. by rewrite Hb.
Qed.
