(* ===== verification/SecondFactor.v ===== *)
(** * The second factor (deploy/nfc-2fa/dashboard/public/nfc2fa.jsx)

    The login step that asks for a card and the page that binds a card to a user.  Both
    read a card from the daemon on the operator's machine and then talk to the API.  An
    attempt is a chain of requests; the chains under way are a list, and the events are
    clicks, a new challenge and the outcome of the request a chain waits for. *)

From Stdlib Require Import ZArith Lia.
From stdpp Require Import strings list.
From S2P Require Import Prelude JsNum JsValue.

Local Open Scope string_scope.
Local Open Scope list_scope.

(** ** Reading a card *)

(** The daemon does not answer ([TypeError]), answers with a status and a body, or with a
    body that is no JSON (the parser's message). *)
Inductive reply := RNetwork | RStatus (code : Z) (body : string + value).

Inductive outcome (A : Type) := Good (x : A) | Bad (msg : string).
Arguments Good {A} _.
Arguments Bad {A} _.

Definition readCard (r : reply) : outcome value :=
  match r with
  | RNetwork => Bad "Reader daemon unreachable on 127.0.0.1:8770."
  | RStatus code body =>
      if Z.eqb code 204 then Bad "No card detected — tap and hold it on the reader."
      else if Z.eqb code 503 then Bad "No NFC reader found on this machine."
      else match body with
           | inl m => Bad m
           | inr j => if truthy j && truthy (fld j "ok") && truthy (fld j "uid") then Good j else Bad "Card read failed."
           end
  end.

(** [e.message || d]. *)
Definition msg_or (m d : string) : string := if String.eqb m "" then d else m.

(** [(j && j.error && j.error.message) || d]. *)
Definition error_of (j : value) (d : string) : value :=
  v_or (if truthy j then (if truthy (fld j "error") then fld (fld j "error") "message" else fld j "error") else j) (VStr d).

(** ** The login step *)

Inductive tstatus := Idle | Reading | Verifying | Done.

#[global] Instance tstatus_dec : EqDecision tstatus.
Proof. solve_decision. Defined.

(** An attempt reads a card for its challenge, or waits for the verdict on that card. *)
Inductive attempt := AReading (challenge : string) | AVerifying (challenge : string) (card : value).

Definition challenge_of (a : attempt) : string := match a with AReading c => c | AVerifying c _ => c end.

(** [sent]: the verifications posted; [done]: what was passed to [onDone]. *)
Record tap := Tap { t_challenge : string; t_status : tstatus; t_err : value; t_open : list attempt;
                    t_sent : list (string * value * value); t_done : list value }.

Inductive tevent := TGo | TChallenge (c : string) | TRead (i : nat) (r : reply) | TVerdict (i : nat) (r : string + value).

(** [go]. *)
Definition go (p : tap) : tap :=
  Tap (t_challenge p) Reading (VStr "") (t_open p ++ [AReading (t_challenge p)]) (t_sent p) (t_done p).

Definition tap_open (c : string) : tap := go (Tap c Idle (VStr "") [] [] []).

Definition tap_busy (p : tap) : bool := bool_decide (t_status p = Reading \/ t_status p = Verifying).

Definition remove_at {A} (i : nat) (l : list A) : list A := take i l ++ drop (S i) l.

Definition failed (m : value) (i : nat) (p : tap) : tap :=
  Tap (t_challenge p) Idle m (remove_at i (t_open p)) (t_sent p) (t_done p).

Definition authenticated (j : value) : bool :=
  truthy j && truthy (fld j "ok") && truthy (fld j "data") &&
  match fld (fld j "data") "stage" with VStr s => String.eqb s "authenticated" | _ => false end.

Definition tap_step (p : tap) (e : tevent) : tap :=
  match e with
  | TGo => if tap_busy p then p else go p
  | TChallenge c =>
      if String.eqb c (t_challenge p) then p
      else go (Tap c (t_status p) (t_err p) (t_open p) (t_sent p) (t_done p))
  | TRead i r =>
      match t_open p !! i with
      | Some (AReading c) =>
          match readCard r with
          | Good j => Tap (t_challenge p) Verifying (t_err p) (<[i := AVerifying c j]> (t_open p))
                        (t_sent p ++ [(c, fld j "uid", v_or (fld j "crypto") VNull)]) (t_done p)
          | Bad m => failed (VStr (msg_or m "Card read failed.")) i p
          end
      | _ => p
      end
  | TVerdict i r =>
      match t_open p !! i with
      | Some (AVerifying _ _) =>
          match r with
          | inl m => failed (VStr (msg_or m "Card read failed.")) i p
          | inr j =>
              if authenticated j
              then Tap (t_challenge p) Done (t_err p) (remove_at i (t_open p)) (t_sent p) (t_done p ++ [fld j "data"])
              else failed (error_of j "Card not recognised.") i p
          end
      | _ => p
      end
  end.

Definition tap_run (c : string) (es : list tevent) : tap := fold_left tap_step es (tap_open c).

(** ** Binding a card *)

Inductive estatus := EIdle | ETapping | ESaving | EDone.

#[global] Instance estatus_dec : EqDecision estatus.
Proof. solve_decision. Defined.

(** The chain keeps the label of the render its click came from. *)
Inductive chain := CBegin (label : string) | CCard (ticket : value) (label : string) | CSave (ticket : value) (card : value).

Inductive epost := PBegin (username : string) | PComplete (ticket uid type : value) (label : string).

Record enrol := Enrol { e_user : string; e_label : string; e_status : estatus; e_err : value; e_result : value;
                        e_chain : option chain; e_sent : list epost; e_done : list value }.

Inductive eevent := EUser (s : string) | ELabel (s : string) | EGo | EAnswer (r : string + value) | ERead (r : reply).

Definition enrol_open (user : string) : enrol := Enrol user "" EIdle (VStr "") VNull None [] [].

Definition enrol_busy (p : enrol) : bool := bool_decide (e_status p = ETapping \/ e_status p = ESaving).

Definition e_failed (m : value) (p : enrol) : enrol :=
  Enrol (e_user p) (e_label p) EIdle m (e_result p) None (e_sent p) (e_done p).

(** The [catch] of an [Error] whose message is [m]; a value that is no string is printed. *)
Definition thrown (m : value) : value := VStr (msg_or (vstr m) "Enrolment failed.").

Definition accepted (j : value) : bool := truthy j && truthy (fld j "ok").

Section Enrolment.
(** The engine's message for a read of a property of [undefined]. *)
Variable type_error : string.

Definition enrol_step (p : enrol) (e : eevent) : enrol :=
  match e with
  | EUser s => Enrol s (e_label p) (e_status p) (e_err p) (e_result p) (e_chain p) (e_sent p) (e_done p)
  | ELabel s => Enrol (e_user p) s (e_status p) (e_err p) (e_result p) (e_chain p) (e_sent p) (e_done p)
  | EGo =>
      if enrol_busy p then p
      else if String.eqb (e_user p) ""
           then Enrol (e_user p) (e_label p) (e_status p) (VStr "Enter the username to bind the card to.") (e_result p) (e_chain p) (e_sent p) (e_done p)
           else Enrol (e_user p) (e_label p) ETapping (VStr "") VNull (Some (CBegin (e_label p))) (e_sent p ++ [PBegin (e_user p)]) (e_done p)
  | EAnswer r =>
      match e_chain p, r with
      | Some (CBegin l), inl m => e_failed (VStr (msg_or m "Enrolment failed.")) p
      | Some (CBegin l), inr j =>
          if negb (accepted j) then e_failed (thrown (error_of j "Could not begin enrolment.")) p
          else if nullish (fld j "data") then e_failed (VStr (msg_or type_error "Enrolment failed.")) p
          else Enrol (e_user p) (e_label p) (e_status p) (e_err p) (e_result p) (Some (CCard (fld (fld j "data") "ticket") l)) (e_sent p) (e_done p)
      | Some (CSave t c), inl m => e_failed (VStr (msg_or m "Enrolment failed.")) p
      | Some (CSave t c), inr j =>
          if negb (accepted j) then e_failed (thrown (error_of j "Enrolment failed.")) p
          else if nullish (fld j "data") then e_failed (VStr (msg_or type_error "Enrolment failed.")) p
          else Enrol (e_user p) (e_label p) EDone (e_err p) (fld (fld j "data") "card") None (e_sent p) (e_done p ++ [fld j "data"])
      | _, _ => p
      end
  | ERead r =>
      match e_chain p with
      | Some (CCard t l) =>
          match readCard r with
          | Good c => Enrol (e_user p) (e_label p) ESaving (e_err p) (e_result p) (Some (CSave t c))
                        (e_sent p ++ [PComplete t (fld c "uid") (fld c "type") l]) (e_done p)
          | Bad m => e_failed (VStr (msg_or m "Enrolment failed.")) p
          end
      | _ => p
      end
  end.

Definition enrol_run (user : string) (es : list eevent) : enrol := fold_left enrol_step es (enrol_open user).
End Enrolment.

(** ** What the login step does *)

(** What a posted verification carries. *)
Definition posted (a : attempt) (p : tap) : Prop :=
  match a with
  | AReading _ => True
  | AVerifying c j => truthy (fld j "uid") = true /\ (c, fld j "uid", v_or (fld j "crypto") VNull) ∈ t_sent p
  end.

(** The challenges the page was given. *)
Definition given (c : string) (es : list tevent) : list string := c :: omap (fun e => match e with TChallenge d => Some d | _ => None end) es.

Definition tap_ok (cs : list string) (p : tap) : Prop :=
  t_challenge p ∈ cs /\ Forall (fun a => challenge_of a ∈ cs /\ posted a p) (t_open p) /\
  Forall (fun s => s.1.1 ∈ cs /\ truthy s.1.2 = true) (t_sent p).

Lemma Forall_remove_at {A} (P : A -> Prop) i l : Forall P l -> Forall P (remove_at i l).
Proof. intros H. apply Forall_app. split; [by apply Forall_take|by apply Forall_drop]. Qed.

Lemma readCard_uid r j : readCard r = Good j -> truthy (fld j "uid") = true.
Proof.
  destruct r as [|code [m|j']]; cbn; [done| |]; destruct (Z.eqb code 204), (Z.eqb code 503); try done.
  destruct (truthy (fld j' "uid")) eqn:E; rewrite ?andb_true_r, ?andb_false_r; [|done]. by destruct (_ && _); intros [= <-].
Qed.

Lemma posted_more a p p' : (forall s, s ∈ t_sent p -> s ∈ t_sent p') -> posted a p -> posted a p'.
Proof. intros Hs. destruct a; [done|]. intros [H1 H2]. split; [done|by apply Hs]. Qed.

Lemma tap_ok_same cs p p' : t_sent p' = t_sent p -> t_challenge p' = t_challenge p ->
  (forall a, a ∈ t_open p' -> a ∈ t_open p \/ a = AReading (t_challenge p)) -> tap_ok cs p -> tap_ok cs p'.
Proof.
  intros Es Ec Ho (H1 & H2 & H3). split; [by rewrite Ec|]. split; [|by rewrite Es]. apply Forall_forall. intros a Ha.
  apply Ho in Ha as [Ha | ->]; [|done]. eapply Forall_forall in H2 as [Hc Hp]; [|exact Ha]. split; [done|].
  eapply posted_more; [|exact Hp]. by rewrite Es.
Qed.

Lemma elem_of_remove_at {A} (i : nat) (l : list A) x : x ∈ remove_at i l -> x ∈ l.
Proof.
  unfold remove_at. rewrite elem_of_app. intros [H|H]; rewrite <- (take_drop i l), elem_of_app; [by left|right].
  destruct (drop i l) as [|y r] eqn:E; [|].
  - by rewrite <- Nat.add_1_r, <- drop_drop, E in H.
  - rewrite <- Nat.add_1_r, <- drop_drop, E in H. by right.
Qed.

Lemma tap_ok_step cs p e : (forall d, e = TChallenge d -> d ∈ cs) -> tap_ok cs p -> tap_ok cs (tap_step p e).
Proof.
  intros He H. pose proof H as (H1 & H2 & H3). destruct e as [|d|i r|i r]; cbn [tap_step].
  - destruct (tap_busy p); [done|]. eapply tap_ok_same; [..|exact H]; try done. cbn. intros a. rewrite elem_of_app, list_elem_of_singleton. done.
  - destruct (String.eqb d (t_challenge p)); [done|]. specialize (He d eq_refl). split; [done|]. split; [|done]. cbn.
    apply Forall_app. split; [exact H2|]. by repeat constructor.
  - destruct (t_open p !! i) as [[c|c j]|] eqn:Ei; [|done|done]. eapply (Forall_lookup_1 _ _ _ _ H2) in Ei as [Hc _]. cbn in Hc.
    destruct (readCard r) as [j|m] eqn:Er; [|eapply tap_ok_same; [..|exact H]; try done; cbn; intros a Ha; left; by eapply elem_of_remove_at].
    apply readCard_uid in Er. split; [done|]. split; cbn.
    + apply Forall_insert.
      * eapply Forall_impl; [exact H2|]. intros a [Ha Hp]. split; [done|]. eapply posted_more; [|exact Hp]. cbn. intros s Hs. apply elem_of_app. by left.
      * split; [done|]. split; [done|]. cbn. apply elem_of_app. right. by apply list_elem_of_singleton.
    + apply Forall_app. split; [done|]. by repeat constructor.
  - destruct (t_open p !! i) as [[c|c j]|] eqn:Ei; [done| |done]. destruct r as [m|j'].
    + eapply tap_ok_same; [..|exact H]; try done. cbn. intros a Ha. left. by eapply elem_of_remove_at.
    + destruct (authenticated j'); (eapply tap_ok_same; [..|exact H]; try done); cbn; intros a Ha; left; by eapply elem_of_remove_at.
Qed.

(** With one challenge there is one attempt at a time, and the button says which. *)
Definition one_attempt (p : tap) : Prop :=
  match t_status p with
  | Idle | Done => t_open p = []
  | Reading => t_open p = [AReading (t_challenge p)]
  | Verifying => exists j, t_open p = [AVerifying (t_challenge p) j]
  end.

Lemma one_attempt_step p e : (forall d, e = TChallenge d -> d = t_challenge p) -> one_attempt p -> one_attempt (tap_step p e) /\ t_challenge (tap_step p e) = t_challenge p.
Proof.
  unfold one_attempt. intros He H. destruct e as [|d|i r|i r]; cbn [tap_step].
  - destruct (tap_busy p) eqn:Eb; [done|]. apply bool_decide_eq_false in Eb.
    assert (t_open p = []) as Ho by (destruct (t_status p); [done|exfalso; auto|exfalso; auto|done]). cbn. by rewrite Ho.
  - rewrite (He d eq_refl), String.eqb_refl. done.
  - destruct (t_open p !! i) as [[c|c j]|] eqn:Ei; [|done|done].
    destruct (t_status p); [by rewrite H in Ei| |destruct H as [j H]; rewrite H in Ei; by destruct i|by rewrite H in Ei].
    rewrite H in Ei. destruct i; [|done]. injection Ei as <-. destruct (readCard r) as [j|m]; cbn; rewrite H; cbn; eauto.
  - destruct (t_open p !! i) as [[c|c j]|] eqn:Ei; [done| |done].
    destruct (t_status p); [by rewrite H in Ei|rewrite H in Ei; by destruct i| |by rewrite H in Ei].
    destruct H as [j0 H]. rewrite H in Ei. destruct i; [|done]. destruct r as [m|j']; [|destruct (authenticated j')]; cbn; by rewrite H.
Qed.

Lemma busy_open p : one_attempt p -> (tap_busy p = true <-> exists a, t_open p = [a]) /\ (tap_busy p = false <-> t_open p = []).
Proof.
  unfold one_attempt, tap_busy. intros H.
  destruct (t_status p); [|rewrite H|destruct H as [j H]; rewrite H|]; try rewrite H; case_bool_decide as Hb; naive_solver.
Qed.

(** C33: the second factor is verified.  However the page is clicked and whatever the
    reader and the API answer, the login is reported done only by an answer that says
    "authenticated" to a verification that carried the identifier of a card the reader
    returned, and every verification carries a challenge the page was given.  As long as
    the challenge stays, there is never more than one attempt: the button is disabled
    exactly while one is under way, and after any failure it can be tried again.  When
    the challenge changes during an attempt, the attempt is not stopped: its failure
    enables the button while the new one reads, and its success logs in. *)
Theorem second_factor_is_verified (c : string) (es : list tevent) :
  let p := tap_run c es in
  (Forall (fun s => s.1.1 ∈ given c es /\ truthy s.1.2 = true) (t_sent p)) /\
  (forall e, t_done (tap_step p e) <> t_done p ->
     exists i j ch card, e = TVerdict i (inr j) /\ authenticated j = true /\ t_done (tap_step p e) = t_done p ++ [fld j "data"] /\
       t_open p !! i = Some (AVerifying ch card) /\ (ch, fld card "uid", v_or (fld card "crypto") VNull) ∈ t_sent p) /\
  ((forall d, TChallenge d ∈ es -> d = c) -> (tap_busy p = true <-> exists a, t_open p = [a]) /\ (tap_busy p = false <-> t_open p = [])) /\
  (forall d j j', d <> c -> readCard (RStatus 200 (inr j)) = Good j -> authenticated j' = true ->
     let p1 := tap_run c [TChallenge d; TRead 0 RNetwork] in
     let p2 := tap_run c [TRead 0 (RStatus 200 (inr j)); TChallenge d; TVerdict 0 (inr j')] in
     tap_busy p1 = false /\ t_open p1 = [AReading d] /\ t_challenge p2 = d /\ t_sent p2 = [(c, fld j "uid", v_or (fld j "crypto") VNull)] /\ t_status p2 = Done).
Proof.
  intros p. assert (tap_ok (given c es) p) as (H1 & H2 & H3).
  { subst p. unfold tap_run. assert (H0 : tap_ok (given c es) (tap_open c)) by (split; [by left|]; split; [|done]; repeat constructor).
    assert (Hc : forall d, TChallenge d ∈ es -> d ∈ given c es) by (intros d Hd; right; apply list_elem_of_omap; by exists (TChallenge d)).
    revert Hc H0. generalize (given c es) as cs. generalize (tap_open c) as p0.
    induction es as [|e es IH]; intros p0 cs Hc H0; [done|]. cbn [fold_left]. apply IH; [intros d Hd; apply Hc; by right|].
    apply tap_ok_step; [|done]. intros d ->. apply Hc. by left. }
  split; [exact H3|]. split; [|split].
  - intros e Hne. destruct e as [|d|i r|i r]; cbn [tap_step] in *.
    + by destruct (tap_busy p).
    + by destruct (String.eqb d (t_challenge p)).
    + destruct (t_open p !! i) as [[?|? ?]|]; [|done|done]. by destruct (readCard r).
    + destruct (t_open p !! i) as [[?|ch card]|] eqn:Ei; [done| |done]. destruct r as [m|j]; [done|]. destruct (authenticated j) eqn:Ea; [|done].
      exists i, j, ch, card. repeat split; try done. by eapply (Forall_lookup_1 _ _ _ _ H2) in Ei as [_ [_ ?]].
  - intros Hd. assert (one_attempt p) as Ho.
    { subst p. unfold tap_run. assert (H0 : one_attempt (tap_open c) /\ t_challenge (tap_open c) = c) by done. revert Hd H0. generalize (tap_open c) as p0.
      clear. induction es as [|e es IH]; intros p0 Hd [H0 Hc]; [done|]. cbn [fold_left]. apply IH; [intros d Hin; apply Hd; by right|].
      destruct (one_attempt_step p0 e) as [Hs ->]; [|done|done]. intros d ->. rewrite Hc. apply Hd. by left. }
    by apply busy_open.
  - intros d j j' Hne Hj Ha. assert (String.eqb d c = false) as Hdc by (by apply String.eqb_neq). unfold tap_run, tap_open, go. cbn. rewrite Hdc. cbn.
    unfold readCard in Hj. cbn in Hj. destruct (_ && _) eqn:E; [|done]. cbn. rewrite Hdc. cbn. rewrite Ha. done.
Qed.

Definition demo_card : value := VObj [("ok", VBool true); ("uid", VStr "04A1B2C3"); ("type", VStr "ntag")].
Definition demo_verdict : value := VObj [("ok", VBool true); ("data", VObj [("stage", VStr "authenticated")])].

Lemma second_factor_is_verified_witness :
  t_status (tap_run "c1" [TRead 0 (RStatus 200 (inr demo_card)); TChallenge "c2"; TVerdict 0 (inr demo_verdict)]) = Done /\
  tap_busy (tap_run "c1" [TRead 0 RNetwork; TGo]) = true /\
  t_sent (tap_run "c1" [TRead 0 (RStatus 200 (inr demo_card))]) = [("c1", VStr "04A1B2C3", VNull)].
Proof.
  destruct (second_factor_is_verified "c1" []) as (_ & _ & _ & H).
  destruct (H "c2" demo_card demo_verdict ltac:(discriminate) eq_refl eq_refl) as (_ & _ & _ & _ & Hd).
  split; [exact Hd|]. split; vm_compute; reflexivity.
Defined.

(** ** What an enrolment does *)

Section Bound.
Variable type_error : string.

(** The button is disabled exactly while a chain is under way, so there is one at most. *)
Lemma enrol_one_chain user es : let p := enrol_run type_error user es in enrol_busy p = true <-> is_Some (e_chain p).
Proof.
  unfold enrol_run. assert (H0 : enrol_busy (enrol_open user) = true <-> is_Some (e_chain (enrol_open user))) by (split; [done|by intros [? ?]]).
  revert H0. generalize (enrol_open user) as p. induction es as [|e es IH]; intros p H0; [done|]. cbn [fold_left]. apply IH. clear IH.
  assert (Hf : forall m, enrol_busy (e_failed m p) = true <-> is_Some (e_chain (e_failed m p))) by (intros m; cbn; split; [done|by intros [? ?]]).
  destruct e as [s|s| |r|r]; cbn [enrol_step]; [done|done| | |].
  - destruct (enrol_busy p) eqn:Eb; [by rewrite Eb|]. destruct (String.eqb (e_user p) ""); [|by cbn; split]. exact (iff_trans (conj (fun x => eq_trans (eq_sym Eb) x) (fun x => eq_trans Eb x)) H0).
  - destruct (e_chain p) as [[l|t l|t c]|] eqn:E; [|by rewrite E| |by rewrite E].
    + assert (enrol_busy p = true) by (apply H0; eauto).
      destruct r as [m|j]; [apply Hf|]. destruct (negb (accepted j)); [apply Hf|]. destruct (nullish (fld j "data")); [apply Hf|]. cbn. split; [eauto|done].
    + destruct r as [m|j]; [apply Hf|]. destruct (negb (accepted j)); [apply Hf|]. destruct (nullish (fld j "data")); [apply Hf|]. cbn. split; [done|by intros [? ?]].
  - destruct (e_chain p) as [[l|t l|t c]|] eqn:E; [by rewrite E| |by rewrite E|by rewrite E].
    destruct (readCard r); [cbn; split; [eauto|done]|apply Hf].
Qed.

(** The card is bound to the user and with the label of the click, whatever is typed while
    the card is awaited, and under the ticket the API gave for that user. *)
Lemma enrolment_is_of_the_click p s l' j r c :
  enrol_busy p = false -> e_user p <> "" -> accepted j = true -> nullish (fld j "data") = false -> readCard r = Good c ->
  e_sent (fold_left (enrol_step type_error) [EGo; EUser s; ELabel l'; EAnswer (inr j); ERead r] p)
    = e_sent p ++ [PBegin (e_user p); PComplete (fld (fld j "data") "ticket") (fld c "uid") (fld c "type") (e_label p)].
Proof.
  intros Hb Hu Ha Hd Hr. apply String.eqb_neq in Hu. cbn [fold_left].
  assert (E : enrol_step type_error p EGo = Enrol (e_user p) (e_label p) ETapping (VStr "") VNull (Some (CBegin (e_label p))) (e_sent p ++ [PBegin (e_user p)]) (e_done p))
    by (cbn [enrol_step]; by rewrite Hb, Hu).
  rewrite E. cbn [enrol_step e_chain e_user e_label e_status e_err e_result e_sent e_done]. rewrite Ha, Hd. cbn [negb e_chain]. rewrite Hr. cbn. by rewrite <- app_assoc.
Qed.
End Bound.
