(* ===== verification/ProvPool.v ===== *)
(** * The software pool and its editors (screens-prov.jsx)

    The table of pool entries with its search, the editor of an entry with its saves,
    relations and loads in flight, and the members of a stack, moved by chains of
    updates.  Forms and bodies are those of [ProvEdit]; what is added here is when they
    are sent and what an answer does to what is being edited. *)

From Stdlib Require Import ZArith Lia Sorting.Sorted.
From stdpp Require Import strings list sorting.
From S2P Require Import Prelude JsNum JsValue ProvStacks ProvSpec ProvEdit.

Local Open Scope string_scope.
Local Open Scope list_scope.

(** ** The table *)

Record prow := PRow { pw_id : Z; pw_type : string; pw_name : string; pw_names : string -> option string;
                      pw_role : string; pw_pin : string; pw_notes : string; pw_families : option (list string) }.

(** [usedIn]: the slugs of the stacks an entry is a member of. *)
Definition usedIn (stacks : list (string * list Z)) (id : Z) : list string :=
  concat (map (fun st => map (fun _ => st.1) (List.filter (Z.eqb id) st.2)) stacks).

Definition counts (t : string) (rows : list prow) : nat :=
  if String.eqb t "all" then length rows else length (List.filter (fun r => String.eqb (pw_type r) t) rows).

Definition texts (r : prow) : list string := [pw_name r] ++ omap (pw_names r) ["suse"; "debian"; "fedora"] ++ [pw_role r; pw_pin r; pw_notes r].

Definition shown (q type : string) (rows : list prow) : list prow :=
  let needle := toLowerCase (trim q) in
  List.filter (fun r => (String.eqb type "all" || String.eqb (pw_type r) type) &&
                        (String.eqb needle "" || existsb (fun v => negb (String.eqb v "") && contains needle (toLowerCase v)) (texts r))) rows.

(** What a cell says of a family. *)
Inductive cell := Skipped | Unmapped | Supported | Named (n : string).

Definition famCell (r : prow) (fam : string) : cell :=
  match pw_families r with
  | Some fs => if existsb (String.eqb fam) fs then
                 match pw_names r fam with None => Unmapped | Some n => if String.eqb (pw_type r) "pkg" then Named n else Supported end
               else Skipped
  | None => match pw_names r fam with None => Unmapped | Some n => if String.eqb (pw_type r) "pkg" then Named n else Supported end
  end.

(** The delete button of a row. *)
Definition deletable (op : bool) (stacks : list (string * list Z)) (r : prow) : bool :=
  op && match usedIn stacks (pw_id r) with [] => true | _ => false end.

(** ** The editor of an entry *)

(** Artifacts, requirements and conflicts: added or removed. *)
Inductive relation := RArtifact (body : list (string * value)) | RArtifactDel (id : value)
  | RRequire (other : Z) | RRequireDel (other : Z) | RConflict (other : Z) | RConflictDel (other : Z).

Inductive request := QCreate (body : list (string * value)) | QUpdate (id : value) (diff : list (string * value)) | QRel (id : value) (r : relation).

Inductive job := JLoad (id : value) | JSave (new : bool) | JRel.

(** [e_error]: the last request of the form or of a relation was refused. *)
Record editor := Editor {
  curId : option value; det : option value; e_form : swform; e_spec : form;
  busy : bool; loadErr : bool; e_error : bool; jobs : list job; sent : list request }.

Inductive event := EEdit (f : swform) (st : form) | ESave | ERel (r : relation) | ERetry | EAnswer (i : nat) (a : option value).

Definition start_load (id : value) (e : editor) : editor :=
  Editor (curId e) (det e) (e_form e) (e_spec e) (busy e) false (e_error e) (jobs e ++ [JLoad id]) (sent e).

(** The editor opens on an entry, which it loads, or on none. *)
Definition open_editor (id : option value) : editor :=
  let e := Editor id None (swForm VNull) (specState VNull) false false false [] [] in
  match id with Some i => start_load i e | None => e end.

(** [adopt]. *)
Definition adopt (d : value) (e : editor) : editor :=
  Editor (curId e) (Some d) (swForm d) (specState (fld d "spec")) (busy e) (loadErr e) (e_error e) (jobs e) (sent e).

Definition set_busy (b err : bool) (e : editor) : editor :=
  Editor (curId e) (det e) (e_form e) (e_spec e) b (loadErr e) err (jobs e) (sent e).

Definition body (e : editor) : list (string * value) := swBody (e_form e) (specJson (item_type (e_form e)) (e_spec e)).

(** Nothing can be edited while the entry is not there. *)
Definition visible (e : editor) : bool := match curId e, det e with Some _, None => false | _, _ => true end.

Definition send (q : request) (j : job) (e : editor) : editor :=
  Editor (curId e) (det e) (e_form e) (e_spec e) true (loadErr e) false (jobs e ++ [j]) (sent e ++ [q]).

Definition save (ro : bool) (e : editor) : editor :=
  match save_of ro (busy e) (default VNull (det e)) (body e) with
  | Ignored | NoChange => e
  | Update id d => send (QUpdate id d) (JSave false) e
  | Create b => send (QCreate b) (JSave true) e
  end.

(** [setCurId] and the effect it causes. *)
Definition set_cur (id : value) (e : editor) : editor :=
  start_load id (Editor (Some id) (det e) (e_form e) (e_spec e) (busy e) (loadErr e) (e_error e) (jobs e) (sent e)).

Definition answered (j : job) (a : option value) (e : editor) : editor :=
  match j, a with
  | JLoad _, Some d => adopt d e
  | JLoad _, None => Editor (curId e) (det e) (e_form e) (e_spec e) (busy e) true (e_error e) (jobs e) (sent e)
  | JSave new, Some d => let e := adopt d (set_busy false false e) in if new then set_cur (fld d "id") e else e
  | JRel, Some d =>
      let e := set_busy false false e in
      if truthy (fld d "logical_name") then adopt d e else match curId e with Some i => start_load i e | None => e end
  | _, None => set_busy false true e
  end.

Definition step (ro : bool) (e : editor) (ev : event) : editor :=
  match ev with
  | EEdit f st => if ro || busy e || negb (visible e) then e
                  else Editor (curId e) (det e) f st (busy e) (loadErr e) (e_error e) (jobs e) (sent e)
  | ESave => if visible e then save ro e else e
  | ERel r => match det e with
              | Some d => if ro || busy e then e else send (QRel (fld d "id") r) JRel e
              | None => e
              end
  | ERetry => match curId e, det e with Some i, None => if loadErr e then start_load i e else e | _, _ => e end
  | EAnswer i a =>
      match jobs e !! i with
      | Some j => answered j a (Editor (curId e) (det e) (e_form e) (e_spec e) (busy e) (loadErr e) (e_error e)
                                  (take i (jobs e) ++ drop (S i) (jobs e)) (sent e))
      | None => e
      end
  end.

Definition run (ro : bool) (id : option value) (es : list event) : editor := fold_left (step ro) es (open_editor id).

(** ** The members of a stack *)

Section Members.
(** The default order of an entry's type and the server's order among equals. *)
Variables rank tie : Z -> Z.

Definition effective (m : member) : Z := default (rank (software_id m)) (item_order m).
Definition member_le (a b : member) : bool :=
  ((effective a <? effective b) || ((effective a =? effective b) && (tie (software_id a) <=? tie (software_id b))))%Z.

(** [det.members] as the server reads them. *)
Definition read (store : list member) : list member := sort_by member_le store.

(** [chain]: the updates of a move still to be sent, one after the other. *)
Record sdesk := SDesk { s_store : list member; s_members : list member; s_chain : option (list (Z * option Z)); s_reloads : nat }.

Inductive sevent := SMove (i dir : Z) | SReset | SPut (ok : bool) | SDone | SReload.

(** A refused update ends the chain without a reload. *)
Definition sstep (s : sdesk) (e : sevent) : sdesk :=
  match e, s_chain s with
  | SMove i dir, None => match move (s_members s) i dir with Some us => SDesk (s_store s) (s_members s) (Some us) (s_reloads s) | None => s end
  | SReset, None => SDesk (s_store s) (s_members s) (Some (resetOrder (s_members s))) (s_reloads s)
  | SPut true, Some (u :: us) => SDesk (map (put_order u) (s_store s)) (s_members s) (Some us) (s_reloads s)
  | SPut false, Some (u :: us) => SDesk (s_store s) (s_members s) None (s_reloads s)
  | SDone, Some [] => SDesk (s_store s) (s_members s) None (S (s_reloads s))
  | SReload, _ => match s_reloads s with S n => SDesk (s_store s) (read (s_store s)) (s_chain s) n | O => s end
  | _, _ => s
  end.

Definition srun (s : sdesk) (es : list sevent) : sdesk := fold_left sstep es s.
End Members.

(** ** What the editor sends *)

Definition is_write (j : job) : bool := match j with JLoad _ => false | _ => true end.
Definition writes (l : list job) : nat := length (List.filter is_write l).

Definition job_ok (e : editor) (j : job) : Prop :=
  match j with JLoad id => curId e = Some id | JSave true => curId e = None | JSave false | JRel => is_Some (det e) end.

Definition req_ok (cur : option value) (q : request) : Prop :=
  match q with QCreate _ => True | QUpdate id _ | QRel id _ => cur = Some id end.

Definition editor_ok (e : editor) : Prop :=
  (forall d, det e = Some d -> truthy d = true /\ curId e = Some (fld d "id")) /\ Forall (job_ok e) (jobs e) /\
  Forall (req_ok (curId e)) (sent e) /\ writes (jobs e) = if busy e then 1%nat else 0%nat.

(** The server answers with a row, of the entry it was asked about. *)
Definition honest (e : editor) (ev : event) : Prop :=
  match ev with
  | EAnswer i (Some d) =>
      match jobs e !! i with
      | Some (JSave true) => truthy d = true
      | Some JRel => truthy (fld d "logical_name") = true -> truthy d = true /\ curId e = Some (fld d "id")
      | Some _ => truthy d = true /\ curId e = Some (fld d "id")
      | None => True
      end
  | _ => True
  end.

Fixpoint run_honest (ro : bool) (e : editor) (es : list event) : Prop :=
  match es with [] => True | ev :: es => honest e ev /\ run_honest ro (step ro e ev) es end.

Lemma writes_app a b : writes (a ++ b) = (writes a + writes b)%nat.
Proof. unfold writes. by rewrite List.filter_app, length_app. Qed.

Lemma writes_remove i l j : l !! i = Some j -> writes l = ((if is_write j then 1 else 0) + writes (take i l ++ drop (S i) l))%nat.
Proof.
  intros H. rewrite <- (take_drop_middle l i j H) at 1. rewrite !writes_app. change (j :: drop (S i) l) with ([j] ++ drop (S i) l). rewrite writes_app.
  unfold writes at 2. cbn. destruct (is_write j); cbn; lia.
Qed.

Lemma ok_start_load id e : editor_ok e -> curId e = Some id -> editor_ok (start_load id e).
Proof.
  intros (H1 & H2 & H3 & H4) Hc. split; [exact H1|]. split; [|split; [exact H3|]]; cbn [start_load jobs busy].
  - apply Forall_app. split; [exact H2|]. by constructor.
  - by rewrite writes_app, H4, Nat.add_0_r.
Qed.

Lemma ok_send q j e : editor_ok e -> busy e = false -> is_write j = true -> job_ok e j -> req_ok (curId e) q -> editor_ok (send q j e).
Proof.
  intros (H1 & H2 & H3 & H4) Hb Hw Hj Hq. rewrite Hb in H4. split; [exact H1|]. split; [|split]; cbn [send jobs sent busy].
  - apply Forall_app. split; [exact H2|by constructor].
  - apply Forall_app. split; [exact H3|by constructor].
  - rewrite writes_app, H4. unfold writes. cbn. by rewrite Hw.
Qed.

Lemma ok_save ro e : editor_ok e -> visible e = true -> editor_ok (save ro e).
Proof.
  intros H Hv. pose proof H as (H1 & _). unfold save, save_of. destruct ro; [done|]. destruct (busy e) eqn:Hb; [done|]. cbn [orb].
  destruct (det e) as [d|] eqn:Ed.
  - destruct (H1 d eq_refl) as [Ht Hc]. change (default VNull (Some d)) with d. rewrite Ht. destruct (diffOf _ _); [done|]. apply ok_send; try done. cbn. by rewrite Ed.
  - change (truthy (default VNull None)) with false. apply ok_send; try done. cbn. unfold visible in Hv. rewrite Ed in Hv. by destruct (curId e).
Qed.

(** An adopted row, when it is of the entry that is open. *)
Lemma ok_adopt d e : editor_ok e -> truthy d = true -> curId e = Some (fld d "id") -> editor_ok (adopt d e).
Proof.
  intros (H1 & H2 & H3 & H4) Ht Hc. split; [intros x [= <-]; done|]. split; [|done]. cbn. eapply Forall_impl; [exact H2|].
  intros [id|[]|]; cbn; auto; by rewrite Hc.
Qed.

Lemma writes_zero l j : writes l = 0%nat -> j ∈ l -> is_write j = false.
Proof.
  intros Hw Hj. destruct (is_write j) eqn:E; [|done]. exfalso. apply list_elem_of_In in Hj. assert (In j (List.filter is_write l)) as Hin by (by apply filter_In).
  unfold writes in Hw. destruct (List.filter is_write l); [done|cbn in Hw; lia].
Qed.

(** The request at [i] is taken off. *)
Definition taken (i : nat) (e : editor) : editor :=
  Editor (curId e) (det e) (e_form e) (e_spec e) (busy e) (loadErr e) (e_error e) (take i (jobs e) ++ drop (S i) (jobs e)) (sent e).

Lemma ok_settled i j b e : editor_ok e -> jobs e !! i = Some j -> is_write j = true -> editor_ok (set_busy false b (taken i e)).
Proof.
  intros (H1 & H2 & H3 & H4) Hi Hw. pose proof (writes_remove _ _ _ Hi) as Er. rewrite Hw, H4 in Er. split; [exact H1|]. split; [|split; [exact H3|]]; cbn [set_busy taken jobs busy].
  - apply Forall_app. split; [by apply Forall_take|by apply Forall_drop].
  - destruct (busy e); lia.
Qed.

Lemma ok_taken i id e : editor_ok e -> jobs e !! i = Some (JLoad id) -> editor_ok (taken i e).
Proof.
  intros (H1 & H2 & H3 & H4) Hi. pose proof (writes_remove _ _ _ Hi) as Er. split; [exact H1|]. split; [|split; [exact H3|]]; cbn [taken jobs busy].
  - apply Forall_app. split; [by apply Forall_take|by apply Forall_drop].
  - rewrite <- H4, Er. done.
Qed.

(** A created entry becomes the open one; nothing else was under way. *)
Lemma ok_created d e : editor_ok e -> curId e = None -> busy e = false -> truthy d = true -> editor_ok (set_cur (fld d "id") (adopt d e)).
Proof.
  intros (H1 & H2 & H3 & H4) Hc Hb Ht. rewrite Hb in H4. assert (jobs e = []) as Hj.
  { destruct (jobs e) as [|j l] eqn:E; [done|]. exfalso. apply Forall_cons in H2 as [Hj _]. pose proof (writes_zero _ j H4 ltac:(by left)) as Hw.
    destruct j as [id| |]; [|done|done]. cbn in Hj. congruence. }
  split; [by intros x [= <-]|]. split; [|split].
  - cbn. rewrite Hj. by constructor.
  - cbn. eapply Forall_impl; [exact H3|]. rewrite Hc. by intros [].
  - cbn. by rewrite Hj, Hb.
Qed.

Lemma ok_answered i j a e : editor_ok e -> honest e (EAnswer i a) -> jobs e !! i = Some j -> editor_ok (answered j a (taken i e)).
Proof.
  intros H Hh Hi. pose proof H as (H1 & H2 & _). assert (job_ok e j) as Hj by (by eapply (Forall_lookup_1 _ _ _ _ H2) in Hi). cbn in Hh. rewrite Hi in Hh.
  destruct a as [d|].
  - destruct j as [id|[]|]; cbn in Hj; cbn [answered]; cbv zeta.
    + destruct Hh. apply ok_adopt; [by eapply ok_taken|done|done].
    + apply ok_created; [by eapply ok_settled|done|done|done].
    + destruct Hh. apply ok_adopt; [by eapply ok_settled|done|done].
    + destruct (truthy (fld d "logical_name")) eqn:El; [destruct (Hh eq_refl); apply ok_adopt; [by eapply ok_settled|done|done]|].
      destruct Hj as [d0 Hd]. destruct (H1 d0 Hd) as [_ Hc]. cbn [set_busy taken curId]. rewrite Hc. apply ok_start_load; [by eapply ok_settled|done].
  - destruct j as [id|[]|]; [|by eapply ok_settled..]. apply (ok_taken i id e H) in Hi. exact Hi.
Qed.

Lemma editor_step_ok ro e ev : editor_ok e -> honest e ev -> editor_ok (step ro e ev).
Proof.
  intros H Hh. pose proof H as (H1 & H2 & H3 & H4). destruct ev as [f st| |r| |i a]; cbn [step].
  - by destruct (_ || _).
  - destruct (visible e) eqn:Ev; [by apply ok_save|done].
  - destruct (det e) as [d|] eqn:Ed; [|done]. destruct ro; [done|]. destruct (busy e) eqn:Eb; [done|]. cbn [orb].
    apply ok_send; try done; [cbn; by rewrite Ed|]. by destruct (H1 d eq_refl).
  - destruct (curId e) eqn:Ec, (det e); try done. destruct (loadErr e); [by apply ok_start_load|done].
  - destruct (jobs e !! i) as [j|] eqn:Ei; [|done]. by apply (ok_answered i j a e).
Qed.

(** C34: the editor of a pool entry writes to the entry it is open on, one request at a
    time.  In every run with a server that answers about the entry it is asked about, the
    row shown is the open entry's, every update and relation goes to it, a new entry is
    created only while none is open, and at most one write is under way.  But an answer
    replaces the form: adding a requirement, a conflict or an artifact drops the edits of
    the form that were not saved, and so does the load that follows a creation, to what
    was typed in the meantime. *)
Theorem pool_editor_writes_its_entry (ro : bool) (id : option value) :
  (forall es, run_honest ro (open_editor id) es ->
    let e := run ro id es in
    (forall d, det e = Some d -> curId e = Some (fld d "id")) /\ Forall (req_ok (curId e)) (sent e) /\ (writes (jobs e) <= 1)%nat /\
    (JSave true ∈ jobs e -> curId e = None)) /\
  (forall e f st r d, det e <> None -> busy e = false -> truthy (fld d "logical_name") = true ->
    let e' := fold_left (step false) [EEdit f st; ERel r; EAnswer (length (jobs e)) (Some d)] e in
    e_form e' = swForm d /\ exists i, sent e' = sent e ++ [QRel i r]) /\
  (forall f st f' st' d d', let e' := run false None [EEdit f st; ESave; EAnswer 0 (Some d); EEdit f' st'; EAnswer 0 (Some d')] in
    e_form e' = swForm d' /\ sent e' = [QCreate (swBody f (specJson (item_type f) st))] /\ jobs e' = []).
Proof.
  split; [|split].
  - intros es Hh e. assert (editor_ok e) as (H1 & H2 & H3 & H4).
    { subst e. unfold run. assert (H0 : editor_ok (open_editor id)).
      { destruct id; (split; [done|]); (split; [by repeat constructor|]); by split. }
      revert Hh H0. generalize (open_editor id) as e. induction es as [|ev es IH]; intros e Hh H0; [done|]. destruct Hh as [Hev Hh]. cbn [fold_left].
      apply IH; [done|by apply editor_step_ok]. }
    split; [intros d Hd; by apply H1|]. split; [done|]. split; [rewrite H4; destruct (busy e); lia|]. intros Hin. rewrite Forall_forall in H2. exact (H2 _ Hin).
  - intros e f st r d Hd Hb Hl. destruct (det e) as [d0|] eqn:Ed; [|done]. cbn [fold_left step].
    assert (visible e = true) as Hv by (unfold visible; rewrite Ed; by destruct (curId e)). rewrite Hb, Hv. cbn [orb negb det busy]. rewrite Ed.
    cbn [send jobs curId e_form e_spec sent loadErr e_error det busy]. rewrite list_lookup_middle by done. cbn [answered set_busy]. rewrite Hl. cbn. split; [done|]. eauto.
  - intros f st f' st' d d'. unfold run. cbn [fold_left open_editor step orb negb visible busy curId det save default].
    unfold save. cbn. done.
Qed.

(** ** Moving members *)

Section Moves.
Variables rank tie : Z -> Z.
Local Abbreviation le := (member_le rank tie).

Lemma member_le_total a b : le a b = false -> le b a = true.
Proof. unfold member_le. lia. Qed.

Lemma member_le_trans a b c : le a b = true -> le b c = true -> le a c = true.
Proof. unfold member_le. lia. Qed.

Lemma effective_pin k m : effective rank (pin k m) = pinned k.
Proof. done. Qed.

Lemma pinned_sorted n l : StronglySorted (fun a b => le a b = true) (imap (fun k m => pin (n + k) m) l).
Proof.
  revert n. induction l as [|m l IH]; intros n; cbn [imap]; [constructor|]. constructor.
  - rewrite (imap_ext _ (fun k x => pin (S n + k) x)); [apply IH|]. intros k x _. cbn. f_equal. lia.
  - apply Forall_forall. intros x Hx. apply elem_of_lookup_imap in Hx as (k & y & -> & _).
    change (le (pin (n + 0) m) (pin (n + S k) y) = true). unfold member_le. rewrite !effective_pin.
    apply orb_true_iff. left. apply Z.ltb_lt. unfold pinned. lia.
Qed.

Lemma same_place i j x y : le (pin i x) (pin j y) = true -> le (pin j y) (pin i x) = true -> i = j.
Proof.
  unfold member_le. rewrite !effective_pin, !orb_true_iff, !andb_true_iff, !Z.ltb_lt, !Z.eqb_eq. unfold pinned. lia.
Qed.

(** Members at the orders 10, 20, ... are read in that order. *)
Lemma read_pinned l store : store ≡ₚ imap pin l -> read rank tie store = imap pin l.
Proof.
  intros Hp. apply (StronglySorted_unique_strong (fun a b => le a b = true)).
  - intros a b Ha Hb Hab Hba. unfold read in Ha. rewrite (sort_by_perm le store), Hp in Ha.
    apply elem_of_lookup_imap in Ha as (i & x & -> & Hx). apply elem_of_lookup_imap in Hb as (j & y & -> & Hy).
    assert (i = j) as -> by (apply same_place in Hab; [|exact Hba]; done). congruence.
  - apply sort_by_sorted; [apply member_le_total|apply member_le_trans].
  - apply (pinned_sorted 0).
  - unfold read. by rewrite sort_by_perm.
Qed.

(** The updates of a chain, all accepted. *)
Lemma chain_runs us s : s_chain s = Some us ->
  srun rank tie s (repeat (SPut true) (length us)) = SDesk (apply_puts us (s_store s)) (s_members s) (Some []) (s_reloads s).
Proof.
  revert s. induction us as [|u us IH]; intros s Hc; cbn [length repeat]; [destruct s; cbn in Hc; by subst|].
  unfold srun. cbn [fold_left]. fold (srun rank tie (sstep rank tie s (SPut true)) (repeat (SPut true) (length us))). cbn [sstep]. rewrite Hc. by rewrite IH.
Qed.

Lemma apply_puts_perm us l l' : l ≡ₚ l' -> apply_puts us l ≡ₚ apply_puts us l'.
Proof. intros Hp. rewrite !apply_puts_map. by apply Permutation_map. Qed.

(** The events of a move whose updates are all accepted. *)
Definition moved (i dir : Z) (us : list (Z * option Z)) : list sevent := SMove i dir :: repeat (SPut true) (length us) ++ [SDone].

Lemma move_runs s i dir us : s_chain s = None -> move (s_members s) i dir = Some us ->
  srun rank tie s (moved i dir us) = SDesk (apply_puts us (s_store s)) (s_members s) None (S (s_reloads s)).
Proof.
  intros Hc Hmv. unfold moved, srun. cbn [fold_left]. rewrite fold_left_app. cbn [sstep]. rewrite Hc, Hmv.
  fold (srun rank tie (SDesk (s_store s) (s_members s) (Some us) (s_reloads s)) (repeat (SPut true) (length us))).
  by rewrite (chain_runs us).
Qed.

(** Updates sent twice store what they store once. *)
Lemma order_of_snoc us u m : order_of (us ++ [u]) m = put_order u (order_of us m).
Proof. unfold order_of. by rewrite fold_left_app. Qed.

Lemma order_of_again us m : order_of us (order_of us m) = order_of us m.
Proof.
  assert (H : forall m', software_id m' = software_id m -> order_of us m' = order_of us m \/ (order_of us m = m /\ order_of us m' = m')).
  { induction us as [|u us IH] using rev_ind; intros m' Hm; [by right|]. rewrite !order_of_snoc. unfold put_order.
    rewrite !order_of_id, Hm. destruct (_ =? _)%Z; [by left|]. by apply IH. }
  destruct (H (order_of us m)) as [E|[E1 E2]]; [apply order_of_id|done|by rewrite E1].
Qed.

Lemma apply_puts_again us l : apply_puts us (apply_puts us l) = apply_puts us l.
Proof. rewrite !apply_puts_map, map_map. apply map_ext, order_of_again. Qed.

(** C35: moving a member of a stack.  When no other move is under way, the list on screen
    is the stored one, every update of the move is accepted and the list is read again, the
    list shown is the one with the two neighbours exchanged, stored at the orders 10, 20,
    ..., so that a later read, in whatever default order the types have, shows it again.
    Nothing makes a second move wait for that read: its updates are those of the list
    before the first move, applied to what the first one stored.  The same move again
    changes nothing; another one may leave two members at the same order, as when, from
    members at 10, 20 and 30, the first is moved down and then the last is moved up. *)
Theorem stack_moves_are_stored (s : sdesk) (i dir : Z) (us : list (Z * option Z)) :
  s_chain s = None -> s_reloads s = 0%nat -> s_members s = read rank tie (s_store s) -> NoDup (map software_id (s_store s)) ->
  move (s_members s) i dir = Some us ->
  (exists l', swap (Z.to_nat i) (Z.to_nat (i + dir)) (s_members s) = Some l' /\
     let s' := srun rank tie s (moved i dir us ++ [SReload]) in
     s_members s' = imap pin l' /\ s_members s' = read rank tie (s_store s') /\ s_store s' ≡ₚ imap pin l' /\ s_chain s' = None /\ s_reloads s' = 0%nat) /\
  (forall i2 dir2 us2, move (s_members s) i2 dir2 = Some us2 ->
     s_store (srun rank tie s (moved i dir us ++ moved i2 dir2 us2)) = apply_puts us2 (s_store (srun rank tie s (moved i dir us)))) /\
  s_store (srun rank tie s (moved i dir us ++ moved i dir us)) = s_store (srun rank tie s (moved i dir us)) /\
  (let l := [Member 1 (Some 10); Member 2 (Some 20); Member 3 (Some 30)]%Z in
   s_store (srun rank tie (SDesk l l None 0) [SMove 0 1; SPut true; SPut true; SDone; SMove 2 (-1); SPut true; SPut true; SDone; SReload; SReload])
     = [Member 1 (Some 20); Member 2 (Some 30); Member 3 (Some 20)]%Z).
Proof.
  intros Hc Hr Hm Hn Hmv. pose proof (move_runs s i dir us Hc Hmv) as H1.
  assert (H2 : forall i2 dir2 us2, move (s_members s) i2 dir2 = Some us2 ->
     s_store (srun rank tie s (moved i dir us ++ moved i2 dir2 us2)) = apply_puts us2 (s_store (srun rank tie s (moved i dir us)))).
  { intros i2 dir2 us2 Hmv2. unfold srun at 1. rewrite fold_left_app. fold (srun rank tie s (moved i dir us)). rewrite H1.
    fold (srun rank tie (SDesk (apply_puts us (s_store s)) (s_members s) None (S (s_reloads s))) (moved i2 dir2 us2)). by rewrite move_runs. }
  split; [|split; [done|split; [|by vm_compute]]].
  - assert (s_members s ≡ₚ s_store s) as Hp by (rewrite Hm; apply sort_by_perm).
    destruct (move_puts_members_in_place (s_members s) i dir us) as (l' & Hs & Hl & Ha); [by rewrite Hp|done|]. exists l'. split; [done|].
    assert (apply_puts us (s_store s) ≡ₚ imap pin l') as Hst by (rewrite <- Ha; symmetry; by apply apply_puts_perm).
    cbv zeta. unfold srun. rewrite fold_left_app. fold (srun rank tie s (moved i dir us)). rewrite H1, Hr.
    cbn [fold_left sstep s_chain s_reloads s_store s_members]. rewrite (read_pinned l' _ Hst). by repeat split.
  - rewrite (H2 _ _ _ Hmv), H1. apply apply_puts_again.
Qed.
End Moves.

Definition demo_stack : list member := [Member 4 None; Member 7 None; Member 9 (Some 5)]%Z.

Lemma stack_moves_are_stored_witness :
  s_members (srun (fun _ => 100)%Z (fun x => x) (SDesk demo_stack (read (fun _ => 100)%Z (fun x => x) demo_stack) None 0)
    (moved 0 1 [(4, Some 10); (9, Some 20); (7, Some 30)]%Z ++ [SReload]))
    = [Member 4 (Some 10); Member 9 (Some 20); Member 7 (Some 30)]%Z.
Proof.
  destruct (stack_moves_are_stored (fun _ => 100)%Z (fun x => x) (SDesk demo_stack (read (fun _ => 100)%Z (fun x => x) demo_stack) None 0) 0 1
              [(4, Some 10); (9, Some 20); (7, Some 30)]%Z) as [(l' & Hs & Hm & _) _].
  - reflexivity.
  - reflexivity.
  - reflexivity.
  - apply (bool_decide_unpack _). vm_compute. exact I.
  - reflexivity.
  - etransitivity; [exact Hm|]. vm_compute in Hs. injection Hs as <-. reflexivity.
Defined.

Lemma pool_editor_writes_its_entry_witness :
  sent (run false (Some (VStr "3")) [EAnswer 0 (Some demo_sw_row); ERel (RRequire 8)]) = [QRel (VStr "3") (RRequire 8)] /\
  Forall (req_ok (Some (VStr "3"))) (sent (run false (Some (VStr "3")) [EAnswer 0 (Some demo_sw_row); ERel (RRequire 8)])).
Proof.
  split; [vm_compute; reflexivity|].
  destruct (pool_editor_writes_its_entry false (Some (VStr "3"))) as [H _].
  apply (H [EAnswer 0 (Some demo_sw_row); ERel (RRequire 8)]). cbn. repeat split.
Defined.
